(* ===== verification/_CoqProject ===== *)
-Q . S2P
Prelude.v
CLib.v
Glue.v
Name.v
Strbuf.v
Jsonw.v
MountOpts.v
Legacy.v
Path.v
Lkl.v
Probe.v
Sysfs.v
Mount.v
Dm.v
Session.v
SessionSpec.v
Threads.v
FastSync.v
SessionThreads.v
SessionFrame.v
SessionOpen.v
Container.v
SessionHold.v
Raw.v
Backend.v
Gio.v
SessionClose.v
Lift.v
Kernel.v
Ring.v
Pipe.v
Conn.v
QemuThread.v
QemuBlk.v
Share.v
DiskSet.v
Compose.v
Mountd.v
KsmbdIpc.v
U8.v
WinHost.v
Shims.v
Server.v
HostProxy.v
SmbConf.v
KsmbdMain.v
NfsdMain.v
NfsdThreads.v
Stack.v
Format.v
Labels.v
LsPart.v
Fuse.v
FuseSpec.v
FuseData.v
FuseMain.v
Ts.v
TsSessions.v
TsApi.v
Binding.v
