(* ===== verification/Prelude.v ===== *)
(** * A verification library for anyfs-reader

    anyfs-reader opens disk images in user space: it attaches an image to the
    Linux kernel library (LKL) as a virtio disk, reads its partition table,
    mounts what it finds inside that kernel and serves it through FUSE, SMB,
    NFS or JavaScript.  This library models the core under src/core with its
    three block backends, the channel of src/host_proxy, the programs
    (anyfs-fuse, anyfs-ksmbd, anyfs-nfsd and anyfs-lspart) from their command
    lines to their exits, the UTF-8 layer of the Windows build, and the bridge
    to JavaScript with its Node addon, and proves what makes them correct.

    ** The parts and the files that model them

    The text layer, pure functions on byte strings:
    - CLib: the functions of the C library the sources use (strtoul, snprintf,
      strlcpy-like copies, character classes), on LP64.
    - Glue: scripts/macho/lkl_elf_glue.c and lkl_macho_shim.c, the formatter of
      the kernel's messages and the start of the kernel in the macOS build.
    - Name: src/core/anyfs_name.c, file names to JavaScript strings and back.
    - Strbuf: src/core/anyfs_strbuf.c, the growable buffer.
    - Jsonw: src/core/jsonw.h, the bounded JSON writer.
    - MountOpts: src/core/anyfs_mount_opts.c, options per filesystem.
    - Legacy: src/core/anyfs_legacy.c, legacy encodings of names and labels,
      with iconv and with the code pages of Windows.
    - Path: src/core/anyfs_path.c, the reference [disk0/p2?key=v/p1].

    The kernel layer, state-passing programs over an abstract kernel:
    - Lkl: the interface to the kernel library (classes [Lkl] and [LklLaws]);
      the view of a kernel is its descriptors, its mount table, the devices
      flagged read-only and the disks attached.
    - Probe: src/core/anyfs_probe.c, classification of a partition, the MBR
      and GPT parsers, the libblkid pass (classes [Host], [HostLaws]).
    - Sysfs: src/core/anyfs_sysfs.c, the partition list of a disk.
    - Mount: src/core/anyfs_mount.c, mounting and unmounting.
    - Dm: src/core/anyfs_dm.c, device-mapper set-up and removal.

    The session layer:
    - Session: src/core/anyfs_session.c and anyfs_container.c, one open image,
      its slot table and its operations (interface [Core] to the disk table).
    - SessionSpec: the invariant of the slot table against the kernel's mount
      table, and what enter, leave, walk and close guarantee.
    - SessionClose: what closing unmounts, and in which order, read off a
      kernel that logs its unmounts.
    - SessionFrame: a session leaves the mounts of the others alone.
    - SessionHold: entering never takes a mount away.
    - SessionOpen: anyfs_session_open establishes the invariant.
    - Container: enter_container_slot of anyfs_container.c to its end, with the
      part behind the refusal of every container kind.
    - Threads, SessionThreads: lemmas on interleavings; any number of threads
      entering and leaving one partition, and the whole disk, with the
      critical sections as atomic steps.
    - FastSync: src/ksmbd/fastsync_win.c, the semaphore of the Windows build,
      as atomic accesses of any number of threads.

    The disk layer and the process:
    - Raw: src/core/raw_backend.c, the block device over a file (classes
      [HostIO], [HostIOLaws]).
    - Backend: src/core/anyfs_backend.c, backend choice and the table of
      attached disks (classes [Disks], [DisksLaws]).
    - Gio: src/core/gio_backend.c, the device over a seekable stream (classes
      [Gio], [GioLaws]).
    - QemuThread: src/core/qemu_thread.c, the hand-off of calls to the thread
      of QEMU's event loop, as steps.
    - QemuBlk: src/core/qemu_backend.c, opening with its options, requests,
      close and shutdown (classes [Qemu], [QemuLaws]), with the calls of
      qemu_thread.c as their callers see them; src/core/anyfs_tls.c.
    - U8: src/win32/anyfs_u8.c, the wide wrappers of the file calls and the
      console output; WinHost: the Windows half of raw_backend.c, the device
      names of anyfs_backend.c and the arguments of anyfs_u8_main.c; Shims:
      patches/libblkid/shim/mingw_shims.c, and the size of a disk on macOS.
    - Kernel: src/core/anyfs_kernel.c, start, fatal errors, exit cleanup
      (class [KernelOps]).

    Several disks, and the servers:
    - Share: src/core/anyfs_share.c and anyfs_server_resolve_shares of
      src/server_common/server_common.c, the resolution of a share.
    - Server: anyfs_server_boot, getopt_long and the specifications of shares
      on the command line, the writes to the kernel's control files.
    - DiskSet: anyfs_share_open_disks, anyfs_server_shutdown, the run that
      both servers share, and the invariant of a set of open sessions.
    - Lift, Compose: the disk table of Backend implements the interface
      [Core] that Session asks for, with its laws; the servers' run over it.
    - Ring, Pipe, Conn: src/host_proxy/host_proxy.c, the byte ring between its
      two threads, one direction of a connection up to its half close, and the
      life of a connection in both threads; HostProxy: the table of
      connections, the start and the stop with their descriptors.  It
      implements the classes [Proxy] and [ProxyKeeps] the servers ask for.
    - Mountd: src/nfsd/nfsd_main.c, the answers to the kernel's export
      questions, and the bind mounts; NfsdMain: start_nfsd, the thread of the
      mini mountd with its poll loop and main; NfsdThreads: the order of main
      and that thread, as steps.
    - KsmbdIpc: src/ksmbd/ksmbd_ipc.c, the netlink messages to the kernel's
      SMB server, with the event loop of src/ksmbd/ksmbd_main.c; SmbConf: the
      smb.conf parser and the groups handed to ksmbd-tools; KsmbdMain: the
      command line and main.
    - Stack: both mains over Compose and HostProxy in one state, so that the
      implementations stand where NfsdMain and KsmbdMain have interfaces.

    The frontends:
    - Format: src/core/anyfs_format.c, the table of partitions as text;
      Labels: what a fresh session gives it; LsPart: src/lspart/lspart_main.c.
    - Fuse: src/fuse/fuse_main.c, paths, both modes, and every callback over
      the kernel's file calls (class [FsOps]); FuseSpec: the callbacks stay
      inside the mounts they serve; FuseData: names, reads and writes;
      FuseMain: the options, main from the command line to the exit over
      DiskSet, and the errno table of macOS.
    - Ts: ts/native/anyfs_ts.c, names, listings, attributes and file calls
      (class [TsFs]); TsSessions: the table of handles; TsApi: the requests
      and the API thread with its linked queue.
    - Binding: ts/packages/anyfs-native/src/binding.cc, the functions the addon
      exports with their workers, the pool of threads behind one mutex, and
      the listener for fatal errors.

    ** How code is translated

    A byte is a [Z] in [0, 256); a C string is the list of its bytes without
    the terminator; machine integers are [Z] with the wrap-around written out
    ([u32], [i64], ...).  Pure code that indexes memory returns [option]:
    [None] is an access out of bounds, so a theorem that a call is [Some _]
    says that it stays in bounds and ends.  Stateful code is a program of the
    monad [M S A = S -> option (A * S)]: [None] is a stuck run (an access out
    of bounds, an exhausted loop, a wait that nobody ends) and [wp m Q s] says
    that [m] returns from [s] and its result satisfies [Q]: every [wp] theorem
    is a theorem of total correctness.  Code that is not part of the
    repository (the kernel library, libblkid, the host's files and sockets,
    QEMU's block layer, GLib, libfuse, ksmbd-tools, the wide calls of Windows)
    is the operations of a class over an arbitrary state, and what the sources rely on is a second class of laws
    over a view of that state; concrete instances (a small kernel [toy], the
    kernel [rig] with two disks in its sysfs, a bus, a host file system) show
    that the laws can hold and serve the witnesses.

    Code that threads run at once is a step relation whose steps are the
    atomic accesses or the critical sections of the sources: Ring (one access
    or one byte copied per step), Pipe, Conn, FastSync, QemuThread,
    SessionThreads, NfsdThreads, TsApi, the pool and the listener of Binding,
    and the fatal report of Kernel.

    ** Fuel

    - Loops over a text take the length of the text plus one, or the text's
      structure; the theorems show that the runs end.  So do
      [KsmbdIpc.attr_loop] and [Mountd.serve_lines] over a message,
      [Fuse.chain_loop] over a path.
    - [Session.mount_retry] has RETRY_FUEL = 51: the loop sleeps 10 ms until
      500 ms have been waited, so it makes at most 51 attempts.
    - The read loops of Probe and [Fuse.read_all], [Fuse.write_all] move at
      most the size asked for; each turn moves at least one byte, so the size
      is enough.
    - [Kernel.mounts_loop] reads /proc/mounts until end of file; the theorem
      asks for fuel above a bound [left] on the reads that still give data.
    - [CLib.dec_go] has enough turns for 64-bit numbers, [Strbuf.grow] for
      a capacity that doubles up to 2^64.
    - [KsmbdIpc.event_loop] and [NfsdMain.turns] take the number of turns
      until a signal ends them; the theorems hold for every number.
    - [SmbConf.conf_loop] has the length of the file plus one: every turn
      takes at least one byte.  [U8.emit] has the number of units to write.
    - [HostProxy.host_accept] ends when no client is waiting; the theorem asks
      for fuel above the number of waiting clients.
    - [Binding.json_loop] makes the six attempts that the code makes.

    ** What the theorems show

    - Sessions (C1-C3, C9, C13, C26): opening establishes the invariant; any
      history of operations keeps the slot table and the mount table in
      agreement and never leaves a slot MOUNTING; entering does what it says
      on every branch; closing unmounts what the session holds and no more,
      the whole disk first and then the slots from the last to the first;
      sessions do not interfere, and neither do threads on one slot.
    - Kernel calls and parsers (C4-C6, C32): the mount table gains exactly
      the entry named; round trip of paths; the GPT parser against a
      specification, and behind it the MBR; bounds for every image.
    - Disks (C12, C22, C28, C31, C33): no leak over any history of
      attachments, errors roll back, requests move exactly the bytes asked
      for; QEMU's device is a plain block device, and GIO's reads agree with
      the raw backend's.
    - The whole of it (C15, C16, C19-C21, C34): from image files to shares
      and back without leaving a mount of a session, a disk or a file behind;
      the cleanup at exit; each program's main, for every command line, returns
      with the disks and the host's files as it found them, the servers' with
      the session layer, the disk table, the raw backend and the proxy as
      implementations.  The bind mounts of the NFS server stay in the kernel
      (NfsdMain.binds_stay).
    - Threads and channels (C7, C10, C11, C24, C25, C29, C30): the ring
      is a FIFO in every interleaving, a call to QEMU's thread runs once and
      returns, a connection is closed once and delivers its data, the proxy's
      descriptors are those of its table, NFS clients are let in only when
      the mini mountd answers.  FastSync.sem_counts shows that the semaphore of
      the Windows build counts.
    - FUSE (C8, C23): no request leaves the mounts served; what a directory
      lists can be opened.
    - Servers (C27, C36, C37): a smb.conf is replayed section by section; the
      NFS answers grant the exports and nothing else, and refuse what is well
      formed and not exported.
    - Text (C14, C35, C39): names come back as the bytes they were and their
      escapes are UTF-8 by the decoder and by the checker, which agree on every
      text; a console shows whole characters however the text is
      cut into writes.  Glue.glue_formats shows the same kind of fact for the
      kernel's own messages on macOS: what printf prints, within the buffer.
    - JavaScript (C17, C18, C38, C40): handles never leak or share a disk; the
      API thread runs the requests in order, once each; the addon's pool runs
      them one at a time and settles every promise; a listing reaches
      JavaScript with every entry the kernel gave, and what it lists opens.

    Conditions that many theorems share, each a named definition:
    [SessionOpen.sysfs_sane] (the kernel numbers the partitions of a disk from 1
    without repeating a number), [Probe.tame_disks] (a disk that starts with a
    GPT header does not put its array beyond sector 2^54, where the offset
    wraps: Probe.gpt_offset_wraps), [SessionSpec.umount_works] (no mount is
    busy), [DiskSet.quiet_halt] (the halt of the kernel adds no disk and no
    mount) and, for FUSE, at most 64 partitions per disk
    (FuseData.fuse_overruns).

    Lemmas that show what the code does where it departs from its intention:
    Path.path_wraps, Share.share_negative_disk, Probe.gpt_offset_wraps,
    SessionSpec.walk_poisons_partition, Raw.short_transfer_reported_ok,
    Raw.flush_without_buffers, SessionThreads.two_leaves_race and
    whole_leave_race, FuseData.fuse_overruns, fuse_truncates and
    images_dropped, QemuThread.call_stop_race, Conn.used_after_release,
    connection_leaks and stop_abandons, DiskSet.image_name_cut,
    Mountd.fsid_overruns, blank_refused and root_refused,
    KsmbdIpc.attr_length_trusted, SmbConf.share_global_lost and
    long_comment_read, KsmbdMain.legacy_zero_refused and legacy_dropped,
    NfsdMain.binds_stay and reserved_evaded, NfsdThreads.halt_under_thread,
    Gio.gio_short_read_ok and gio_never_writes, QemuBlk.calloc_unchecked,
    qemu_flushes and close_after_stop, FuseMain.always_readonly,
    LsPart.nbd_address_cut, U8Spec.held_tail_lost, HostProxy.failed_start_leaks,
    WinHost.win_flush_ignored, Glue.glue_precision_overruns,
    Binding.readlink_long_rejected, readdir_error_hidden and fatal_race, Shims.setenv_empty_removes.

    ** What is not modelled

    - Help texts and the messages on stderr of the programs, except where a
      text is the result (the table of partitions, the last error).
    - The macOS and Windows branches of the choice of a backend and of the base
      name of an image; the parts of a step relation that the sources run under
      a lock or in one call of the host are one step (a worker of the addon
      under its mutex, a send with the commit of its bytes in Conn).
    - On Windows: the crash reports of src/server_common, the socket half of
      host_proxy.c, the log writer of GLib.
    - The matching of mount options by libfuse and the checks of argument types
      by N-API, which are those libraries' own; the configuration and the
      arguments they hand over are inputs.
    - The tables and tools of the WebAssembly build, the empty symbols that
      QEMU's libraries and libblkid want at link time, benchmarks and tests.

    ** What is left between the parts

    Stack takes the start and the halt of the kernel as arguments;
    [Server.boot_elsewhere] and [Server.halt_quiet] show that those modelled in
    Kernel and Server are such arguments.
    The poll loops of the two proxy threads are steps of Ring, Pipe and Conn,
    one connection at a time, and are not joined with the table of
    HostProxy. *)

(** * Prelude

    Shared vocabulary of the library: bytes and C strings as lists of
    integers, fixed-width wrap-around, the stuck-or-return state monad with its
    weakest precondition, the tactics and the hint databases. *)
From stdpp Require Export base tactics list numbers option gmap strings list_numbers.
From Stdlib Require Export ZArith Lia Bool.

(** ** Bytes and C strings

    A byte is a [Z] in [0, 256).  A C string is the list of its bytes up to
    and excluding the terminating NUL. *)
Abbreviation bytes := (list Z).

Declare Scope anyfs_scope.
Delimit Scope anyfs_scope with anyfs.
#[global] Open Scope Z_scope.

Definition bs (s : string) : bytes :=
  (λ a, Z.of_N (Ascii.N_of_ascii a)) <$> String.list_ascii_of_string s.

(** [c_str m]: the C string that starts at the first cell of memory [m]. *)
Fixpoint c_str (m : bytes) : bytes :=
  match m with
  | [] => []
  | c :: m' => if c =? 0 then [] else c :: c_str m'
  end.

Definition is_byte (c : Z) : bool := (0 <=? c) && (c <? 256).
Definition is_cchar (c : Z) : bool := (0 <? c) && (c <? 256).

(** A list of bytes, and a list of non-NUL bytes. *)
Definition Bytes (s : bytes) : Prop := Forall (λ c, 0 <= c < 256) s.
Definition CStr (s : bytes) : Prop := Forall (λ c, 0 < c < 256) s.

(** Reading cell [i] of a NUL-terminated string: the terminator is readable,
    what follows it is not. *)
Definition rd (s : bytes) (i : nat) : option Z := (s ++ [0]) !! i.

(** Reading cell [i] of a buffer of known extent; out of range is [None]. *)
Definition rdz (b : bytes) (i : Z) : option Z :=
  if (0 <=? i) && (i <? Z.of_nat (length b)) then b !! Z.to_nat i else None.

Abbreviation len s := (Z.of_nat (length s)).

(** ** Machine integers *)
Definition u8 (x : Z) : Z := x mod 2 ^ 8.
Definition u32 (x : Z) : Z := x mod 2 ^ 32.
Definition u64 (x : Z) : Z := x mod 2 ^ 64.
Definition i32 (x : Z) : Z := (x + 2 ^ 31) mod 2 ^ 32 - 2 ^ 31.
Definition i64 (x : Z) : Z := (x + 2 ^ 63) mod 2 ^ 64 - 2 ^ 63.

(** [x & (1 << n)] as a C condition. *)
Definition flag (x m : Z) : bool := negb (Z.land x m =? 0).

Ltac unfold_words := unfold u8, u32, u64, i32, i64 in *.

Lemma u8_small x : 0 <= x < 256 → u8 x = x.
Proof. intros. unfold u8. apply Z.mod_small. lia. Qed.
Lemma u32_small x : 0 <= x < 2 ^ 32 → u32 x = x.
Proof. intros. unfold u32. by apply Z.mod_small. Qed.
Lemma u64_small x : 0 <= x < 2 ^ 64 → u64 x = x.
Proof. intros. unfold u64. by apply Z.mod_small. Qed.
Lemma i32_small x : - 2 ^ 31 <= x < 2 ^ 31 → i32 x = x.
Proof. intros. unfold i32. rewrite Z.mod_small; lia. Qed.
Lemma u8_range x : 0 <= u8 x < 256.
Proof. unfold u8. apply Z.mod_pos_bound. lia. Qed.
Lemma u32_range x : 0 <= u32 x < 2 ^ 32.
Proof. unfold u32. apply Z.mod_pos_bound. lia. Qed.
Lemma u64_range x : 0 <= u64 x < 2 ^ 64.
Proof. unfold u64. apply Z.mod_pos_bound. lia. Qed.
Lemma i32_range x : - 2 ^ 31 <= i32 x < 2 ^ 31.
Proof. unfold i32. pose proof (Z.mod_pos_bound (x + 2 ^ 31) (2 ^ 32)). lia. Qed.

(** ** Bits *)
Lemma bits_above c n k : 0 <= c < 2 ^ n → 0 <= n <= k → Z.testbit c k = false.
Proof.
  intros Hc Hk. rewrite <- (Z.mod_small c (2 ^ n)) by done. apply Z.mod_pow2_bits_high. lia.
Qed.

(** Evaluate a goal between testbits at a numeral index. *)
Ltac bit_at :=
  rewrite ?Z.lor_spec, ?Z.land_spec, ?Z.mod_pow2_bits_low, ?Z.shiftl_spec, ?Z.land_spec,
    ?Z.mod_pow2_bits_low, ?Z.lor_spec, ?Z.land_spec, ?Z.shiftr_spec by lia; cbn -[Z.testbit];
  repeat match goal with
  | |- context [Z.testbit (Zpos ?p) ?k] =>
      let b := eval vm_compute in (Z.testbit (Zpos p) k) in change (Z.testbit (Zpos p) k) with b
  | |- context [Z.testbit ?x (Zneg ?k)] => rewrite (Z.testbit_neg_r x (Zneg k)) by lia
  end;
  rewrite ?andb_true_r, ?andb_false_r, ?orb_false_r, ?orb_false_l; try reflexivity.

(** [by_bits32 i]: the same for every index [i] below 32. *)
Ltac by_bits32 i :=
  let Hin := fresh in
  assert (i ∈ seqZ 0 32) as Hin by (apply elem_of_seqZ; lia); vm_compute in Hin;
  repeat (apply elem_of_cons in Hin as [->|Hin]; [bit_at|]); by apply not_elem_of_nil in Hin.

(** ** Exhaustive case analysis on a byte

    A boolean property of bytes is decided by evaluating it on all 256. *)
Lemma byte_enum (P : Z → Prop) `{!∀ c, Decision (P c)} :
  forallb (λ c, bool_decide (P c)) (seqZ 0 256) = true → ∀ c, 0 <= c < 256 → P c.
Proof.
  intros Hall c Hc. rewrite forallb_forall in Hall. eapply bool_decide_eq_true_1, Hall.
  apply list_elem_of_In, elem_of_seqZ. lia.
Qed.

(** [by_bytes c]: prove a decidable goal about the byte [c] by evaluation. *)
Ltac by_bytes c :=
  pattern c; refine (byte_enum _ _ c _); [vm_compute; reflexivity | lia].

Lemma land_cont c : 0 <= c < 256 →
  (Z.land c 0xC0 =? 0x80) = (0x80 <=? c) && (c <=? 0xBF).
Proof. intros. by_bytes c. Qed.

Lemma lor_80_low6 c : 0 <= c < 256 → Z.lor 0x80 (Z.land c 0x3F) = 0x80 + c mod 64.
Proof. intros. by_bytes c. Qed.

Lemma lor_C0_low6 c : 0 <= c < 256 → Z.lor 0xC0 (Z.land c 0x3F) = 0xC0 + c mod 64.
Proof. intros. by_bytes c. Qed.

(** ** Reflection of boolean guards *)
Ltac zify_bools :=
  repeat match goal with
  | H : _ && _ = true |- _ => apply andb_true_iff in H; destruct H
  | H : _ || _ = false |- _ => apply orb_false_iff in H; destruct H
  | H : _ && _ = false |- _ => apply andb_false_iff in H; destruct H
  | H : _ || _ = true |- _ => apply orb_true_iff in H; destruct H
  | H : (_ =? _) = true |- _ => apply Z.eqb_eq in H
  | H : (_ =? _) = false |- _ => apply Z.eqb_neq in H
  | H : (_ <? _) = true |- _ => apply Z.ltb_lt in H
  | H : (_ <? _) = false |- _ => apply Z.ltb_ge in H
  | H : (_ <=? _) = true |- _ => apply Z.leb_le in H
  | H : (_ <=? _) = false |- _ => apply Z.leb_gt in H
  | H : negb _ = true |- _ => apply negb_true_iff in H
  | H : negb _ = false |- _ => apply negb_false_iff in H
  | H : bool_decide _ = true |- _ => apply bool_decide_eq_true in H
  | H : bool_decide _ = false |- _ => apply bool_decide_eq_false in H
  end.

(** Case split on the condition of the first [if] of the goal. *)
Ltac case_if :=
  match goal with
  | |- context [if ?b then _ else _] =>
      match type of b with
      | bool => let E := fresh "E" in destruct b eqn:E
      | _ => case_decide
      end
  end.
Ltac case_ifs := repeat (case_if; zify_bools; try lia; simplify_eq/=).

(** ** The state monad of effectful code

    [M S A] runs on a state [S] and either returns a value and a new state or
    gets stuck ([None]): an access out of bounds, a wait nobody can end. *)
Definition M (S A : Type) : Type := S → option (A * S).

#[global] Instance M_ret S : MRet (M S) := λ A a s, Some (a, s).
#[global] Instance M_bind S : MBind (M S) := λ A B f m s,
  match m s with
  | Some (a, s') => f a s'
  | None => None
  end.

Definition mget {S} : M S S := λ s, Some (s, s).
Definition mput {S} (s : S) : M S () := λ _, Some ((), s).
Definition mmod {S} (f : S → S) : M S () := λ s, Some ((), f s).
Definition mgets {S A} (f : S → A) : M S A := λ s, Some (f s, s).
Definition mstuck {S A} : M S A := λ _, None.
Definition mopt {S A} (o : option A) : M S A := λ s,
  match o with Some a => Some (a, s) | None => None end.

(** [for (i ...) body] over a list, left to right. *)
Fixpoint mfor {S A} (l : list A) (body : A → M S ()) : M S () :=
  match l with
  | [] => mret ()
  | a :: l' => body a ≫= λ _, mfor l' body
  end.

(** Weakest precondition: the run returns, and its result satisfies [Q]. *)
Definition wp {S A} (m : M S A) (Q : A → S → Prop) (s : S) : Prop :=
  match m s with
  | Some (a, s') => Q a s'
  | None => False
  end.

Section wp.
Context {S : Type}.
Implicit Types (s : S).

Lemma wp_ret {A} (a : A) (Q : A → S → Prop) s : wp (mret a) Q s ↔ Q a s.
Proof. done. Qed.
Lemma wp_bind {A B} (m : M S A) (f : A → M S B) (Q : B → S → Prop) s :
  wp (m ≫= f) Q s ↔ wp m (λ a, wp (f a) Q) s.
Proof. unfold wp, mbind, M_bind. by destruct (m s) as [[??]|]. Qed.
Lemma wp_mono {A} (m : M S A) (Q Q' : A → S → Prop) s :
  wp m Q s → (∀ a s', Q a s' → Q' a s') → wp m Q' s.
Proof. unfold wp. destruct (m s) as [[??]|]; auto. Qed.
Lemma wp_get (Q : S → S → Prop) s : wp mget Q s ↔ Q s s.
Proof. done. Qed.
Lemma wp_gets {A} (f : S → A) (Q : A → S → Prop) s : wp (mgets f) Q s ↔ Q (f s) s.
Proof. done. Qed.
Lemma wp_put s0 (Q : () → S → Prop) s : wp (mput s0) Q s ↔ Q () s0.
Proof. done. Qed.
Lemma wp_mod f (Q : () → S → Prop) s : wp (mmod f) Q s ↔ Q () (f s).
Proof. done. Qed.
Lemma wp_opt {A} (o : option A) (Q : A → S → Prop) s a :
  o = Some a → Q a s → wp (mopt o) Q s.
Proof. by intros ->. Qed.
Lemma wp_elim {A} (m : M S A) (Q : A → S → Prop) s :
  wp m Q s → ∃ a s', m s = Some (a, s') ∧ Q a s'.
Proof. unfold wp. destruct (m s) as [[a s']|]; [eauto | done]. Qed.
Lemma wp_intro {A} (m : M S A) (Q : A → S → Prop) s a s' :
  m s = Some (a, s') → Q a s' → wp m Q s.
Proof. unfold wp. by intros ->. Qed.
Lemma wp_and {A} (m : M S A) (Q Q' : A → S → Prop) s :
  wp m Q s → wp m Q' s → wp m (λ a s', Q a s' ∧ Q' a s') s.
Proof. unfold wp. by destruct (m s) as [[??]|]. Qed.
Lemma wp_for {A} (I : S → Prop) (l : list A) (body : A → M S ()) s :
  I s → (∀ a s, a ∈ l → I s → wp (body a) (λ _, I) s) → wp (mfor l body) (λ _, I) s.
Proof.
  revert s. induction l as [|a l IH]; intros s Hs Hb; [done|].
  simpl. apply wp_bind. eapply wp_mono; [apply Hb; [by left|done]|].
  intros [] s' Hs'. apply IH; [done|]. intros. apply Hb; [by right|done].
Qed.
End wp.

(** Step a [wp] goal through the structure of the code. *)
Ltac wp_step :=
  match goal with
  | |- wp (_ ≫= _) _ _ => apply wp_bind
  | |- wp (mret _) _ _ => apply wp_ret
  | |- wp mget _ _ => apply wp_get
  | |- wp (mgets _) _ _ => apply wp_gets
  | |- wp (mput _) _ _ => apply wp_put
  | |- wp (mmod _) _ _ => apply wp_mod
  end; cbn beta.
Ltac wp_steps := repeat wp_step.

(** Use a proved triple [L] for the first command. *)
Tactic Notation "wp_use" uconstr(L) := eapply wp_mono; [apply L|]; cbn beta.

(** ** Lists *)
Lemma drop_app_len {A} (l k : list A) n : n = length l → drop n (l ++ k) = k.
Proof. intros ->. apply drop_app_length. Qed.

Lemma take_app_len {A} (l k : list A) n : n = length l → take n (l ++ k) = l.
Proof. intros ->. apply take_app_length. Qed.

Lemma join_cons {A} (l : list A) (ls : list (list A)) : mjoin (l :: ls) = l ++ mjoin ls.
Proof. done. Qed.

Lemma rd_lookup s i c : s !! i = Some c → rd s i = Some c.
Proof. intros H. unfold rd. rewrite lookup_app_l; [done|]. by eapply lookup_lt_Some. Qed.

Lemma rd_end s i : i = length s → rd s i = Some 0.
Proof. intros ->. unfold rd. by rewrite lookup_app_r, Nat.sub_diag. Qed.

Lemma rd_cons c s i : rd (c :: s) (S i) = rd s i.
Proof. done. Qed.

Lemma CStr_cons c s : CStr (c :: s) ↔ 0 < c < 256 ∧ CStr s.
Proof. unfold CStr. by rewrite Forall_cons. Qed.

Lemma CStr_Bytes s : CStr s → Bytes s.
Proof. intros H. eapply Forall_impl; [exact H | simpl; lia]. Qed.

Lemma CStr_app s t : CStr (s ++ t) ↔ CStr s ∧ CStr t.
Proof. apply Forall_app. Qed.

Lemma CStr_drop n s : CStr s → CStr (drop n s).
Proof. apply Forall_drop. Qed.

Lemma CStr_take n s : CStr s → CStr (take n s).
Proof. apply Forall_take. Qed.

Lemma c_str_app s r : CStr s → c_str (s ++ 0 :: r) = s.
Proof.
  induction 1 as [|c s Hc Hs IH]; [done|]. simpl.
  destruct (Z.eqb_spec c 0); [lia|]. by rewrite IH.
Qed.

Lemma c_str_id s : CStr s → c_str s = s.
Proof. induction 1 as [|c s Hc _ IH]; [done|]. cbn. destruct (Z.eqb_spec c 0); [lia|]. by rewrite IH. Qed.
Lemma c_str_le m : (length (c_str m) <= length m)%nat.
Proof. induction m as [|c m IH]; simpl; [lia|]. destruct (c =? 0); simpl; lia. Qed.

Lemma CStr_bs_dec s : forallb is_cchar s = true → CStr s.
Proof.
  rewrite forallb_forall. intros H. apply Forall_forall. intros c Hc.
  apply list_elem_of_In, H in Hc. unfold is_cchar in Hc. zify_bools. lia.
Qed.

Lemma Bytes_dec s : forallb is_byte s = true → Bytes s.
Proof.
  rewrite forallb_forall. intros H. apply Forall_forall. intros c Hc.
  apply list_elem_of_In, H in Hc. unfold is_byte in Hc. zify_bools. lia.
Qed.

Ltac solve_cstr := apply CStr_bs_dec; vm_compute; reflexivity.

Create HintDb anyfs.
#[export] Hint Resolve CStr_Bytes CStr_drop CStr_take u8_range u32_range u64_range i32_range : anyfs.
#[export] Hint Rewrite @length_app @length_take @length_drop @length_cons @length_nil : len.
