(* ===== verification/CLib.v ===== *)
(** * CLib

    The part of the C library the sources use on strings: character classes,
    decimal and hexadecimal conversions of printf, strtol/strtoul, bounded
    copies, searches.  [long] is 64 bits wide (LP64, the Linux and macOS
    builds). *)
From S2P Require Import Prelude.

Module CLib.

(** ** <ctype.h> *)
Definition isdigit (c : Z) : bool := (48 <=? c) && (c <=? 57).
Definition isspace (c : Z) : bool := (c =? 32) || ((9 <=? c) && (c <=? 13)).

(** ** Searching and comparing *)

(** strchr: the text before the first [c] and the text after it. *)
Fixpoint strchr (c : Z) (s : bytes) : option (bytes * bytes) :=
  match s with
  | [] => None
  | x :: s' =>
      if x =? c then Some ([], s')
      else match strchr c s' with
           | Some (a, b) => Some (x :: a, b)
           | None => None
           end
  end.

(** strrchr: the text after the last [c]. *)
Fixpoint strrchr (c : Z) (s : bytes) : option bytes :=
  match s with
  | [] => None
  | x :: s' =>
      match strrchr c s' with
      | Some r => Some r
      | None => if x =? c then Some s' else None
      end
  end.

(** [strncmp(s, p, strlen(p)) == 0] *)
Fixpoint starts_with (p s : bytes) : bool :=
  match p, s with
  | [], _ => true
  | a :: p', b :: s' => (a =? b) && starts_with p' s'
  | _ :: _, [] => false
  end.

(** [strstr(s, p) != NULL] *)
Fixpoint strstr (p s : bytes) : bool :=
  starts_with p s || match s with [] => false | _ :: s' => strstr p s' end.

(** [strcmp(a, b) == 0] *)
Definition streq (a b : bytes) : bool := bool_decide (a = b).

(** ** Bounded copies *)

(** [snprintf(buf, cap, "%s", s)]: the value returned and the text stored. *)
Definition snprintf (cap : Z) (s : bytes) : Z * bytes :=
  (len s, take (Z.to_nat (cap - 1)) s).

(** [strncpy(dst, s, n - 1)] into a zeroed array of [n] bytes. *)
Definition strncpy (n : Z) (s : bytes) : bytes := take (Z.to_nat (n - 1)) s.

(** ** Numbers to text *)

Fixpoint dec_go (fuel : nat) (n : Z) (acc : bytes) : bytes :=
  match fuel with
  | O => acc
  | S f =>
      let acc' := (48 + n mod 10) :: acc in
      if n <? 10 then acc' else dec_go f (n / 10) acc'
  end.

(** %u, %lu, %llu (for [0 <= n < 10^20], every 64-bit unsigned value) *)
Definition fmt_u (n : Z) : bytes := dec_go 20 n [].
(** %d, %ld, %lld *)
Definition fmt_d (n : Z) : bytes := if n <? 0 then 45 :: fmt_u (- n) else fmt_u n.

Definition hexdig (v : Z) : Z := if v <? 10 then 48 + v else 87 + v.
Definition HEXDIG (v : Z) : Z := if v <? 10 then 48 + v else 55 + v.

(** %0kx of a value below 16^k *)
Fixpoint fmt_x (k : nat) (v : Z) : bytes :=
  match k with
  | O => []
  | S k' => hexdig ((v / 16 ^ Z.of_nat k') mod 16) :: fmt_x k' v
  end.
(** %02X *)
Definition fmt_X2 (v : Z) : bytes := [HEXDIG (v / 16 mod 16); HEXDIG (v mod 16)].

(** %-ks *)
Definition fmt_pad (k : nat) (s : bytes) : bytes := s ++ replicate (k - length s) 32.

(** ** Text to numbers *)

(** Value of the leading digits, their number, and what follows them. *)
Fixpoint digits (acc : Z) (n : nat) (s : bytes) : Z * nat * bytes :=
  match s with
  | c :: s' => if isdigit c then digits (acc * 10 + (c - 48)) (S n) s' else (acc, n, s)
  | [] => (acc, n, [])
  end.

Fixpoint skip_space (s : bytes) : bytes :=
  match s with
  | c :: s' => if isspace c then skip_space s' else s
  | [] => []
  end.

Definition sign (s : bytes) : bool * bytes :=
  match s with
  | c :: s' => if c =? 45 then (true, s') else if c =? 43 then (false, s') else (false, s)
  | [] => (false, [])
  end.

(** [strtol(s, &end, 10)]: the value, clamped to [LONG_MIN, LONG_MAX], and the
    rest [end] points at; [end = s] when there is no digit. *)
Definition strtol (s : bytes) : Z * bytes :=
  let '(neg, t) := sign (skip_space s) in
  let '(v, n, r) := digits 0 0 t in
  if Nat.eqb n 0 then (0, s)
  else ((if neg then Z.max (- v) (- 2 ^ 63) else Z.min v (2 ^ 63 - 1)), r).

(** [strtoul(s, &end, 10)]: out of range gives ULONG_MAX; a minus sign negates
    in the unsigned type. *)
Definition strtoul (s : bytes) : Z * bytes :=
  let '(neg, t) := sign (skip_space s) in
  let '(v, n, r) := digits 0 0 t in
  if Nat.eqb n 0 then (0, s)
  else if 2 ^ 64 <=? v then (2 ^ 64 - 1, r)
  else ((if neg then u64 (- v) else v), r).

(** One %u of sscanf: the value and the rest, [None] when it does not match. *)
Definition scan_u (s : bytes) : option (Z * bytes) :=
  let '(v, r) := strtoul s in if bool_decide (r = s) then None else Some (u32 v, r).

(** ** Decimal round trip *)

Lemma isdigit_spec c : isdigit c = true ↔ 48 <= c <= 57.
Proof. unfold isdigit. rewrite andb_true_iff, !Z.leb_le. lia. Qed.

Definition not_digit_head (s : bytes) : Prop :=
  match s with c :: _ => isdigit c = false | [] => True end.

Lemma digits_stop acc n s : not_digit_head s → digits acc n s = (acc, n, s).
Proof. destruct s as [|c s]; simpl; [done|]. by intros ->. Qed.

Lemma digits_app (l r : bytes) acc n :
  Forall (λ c, 48 <= c <= 57) l → not_digit_head r →
  digits acc n (l ++ r) =
    (foldl (λ a c, a * 10 + (c - 48)) acc l, (n + length l)%nat, r).
Proof.
  intros Hl Hr. revert acc n. induction Hl as [|c l Hc Hl IH]; intros acc n; simpl.
  - rewrite digits_stop by done. by rewrite Nat.add_0_r.
  - assert (isdigit c = true) as -> by by apply isdigit_spec.
    rewrite IH. f_equal. f_equal. lia.
Qed.

Lemma dec_go_spec fuel n acc :
  0 <= n < 10 ^ Z.of_nat fuel → (0 < fuel)%nat →
  ∃ l, dec_go fuel n acc = l ++ acc ∧ l ≠ [] ∧
    Forall (λ c, 48 <= c <= 57) l ∧
    ∀ a, foldl (λ a c, a * 10 + (c - 48)) a l = a * 10 ^ len l + n.
Proof.
  revert n acc. induction fuel as [|f IH]; intros n acc Hn Hf; [lia|].
  cbn [dec_go]. destruct (Z.ltb_spec n 10) as [Hlt|Hge].
  - exists [48 + n mod 10]. rewrite Z.mod_small by lia. simpl.
    repeat split; [done | by repeat constructor; lia | intros; lia].
  - assert (0 < f)%nat.
    { destruct f; [|lia]. change (10 ^ Z.of_nat 1) with 10 in Hn. lia. }
    assert (0 <= n / 10 < 10 ^ Z.of_nat f).
    { split; [apply Z.div_pos; lia|]. apply Z.div_lt_upper_bound; [lia|].
      rewrite Nat2Z.inj_succ, Z.pow_succ_r in Hn by lia. lia. }
    destruct (IH (n / 10) ((48 + n mod 10) :: acc)) as (l & El & Hne & Hd & Hv);
      [done..|].
    exists (l ++ [48 + n mod 10]). rewrite El, <- app_assoc.
    repeat split; [by destruct l | | ].
    + apply Forall_app; split; [done|]. repeat constructor;
        pose proof (Z.mod_pos_bound n 10); lia.
    + intros a. rewrite foldl_app, Hv, length_app. cbn [foldl length].
      rewrite Nat2Z.inj_add, Z.pow_add_r by lia.
      pose proof (Z.div_mod n 10). change (10 ^ Z.of_nat 1) with 10. lia.
Qed.

Lemma fmt_u_spec n : 0 <= n < 10 ^ 20 →
  fmt_u n ≠ [] ∧ Forall (λ c, 48 <= c <= 57) (fmt_u n) ∧
  ∀ a, foldl (λ a c, a * 10 + (c - 48)) a (fmt_u n) = a * 10 ^ len (fmt_u n) + n.
Proof.
  intros Hn. unfold fmt_u.
  destruct (dec_go_spec 20 n []) as (l & -> & Hl); [done|lia|]. by rewrite app_nil_r.
Qed.

Lemma fmt_u_CStr n : 0 <= n < 10 ^ 20 → CStr (fmt_u n).
Proof.
  intros Hn. destruct (fmt_u_spec n Hn) as (_ & H & _).
  eapply Forall_impl; [exact H|]. simpl. lia.
Qed.

Lemma fmt_u_digits n r : 0 <= n < 10 ^ 20 → not_digit_head r →
  digits 0 0 (fmt_u n ++ r) = (n, length (fmt_u n), r).
Proof.
  intros Hn Hr. destruct (fmt_u_spec n Hn) as (_ & Hd & Hv).
  by rewrite digits_app, Hv.
Qed.

Lemma fmt_u_head n : 0 <= n < 10 ^ 20 →
  ∃ c l, fmt_u n = c :: l ∧ 48 <= c <= 57.
Proof.
  intros Hn. destruct (fmt_u_spec n Hn) as (Hne & Hd & _).
  destruct (fmt_u n) as [|c l]; [done|]. apply Forall_cons in Hd. naive_solver.
Qed.

(** Digits need neither white space nor a sign skipped. *)
Lemma sign_skip_digit c s : 48 <= c <= 57 → sign (skip_space (c :: s)) = (false, c :: s).
Proof.
  intros Hc. simpl. unfold isspace.
  destruct (Z.eqb_spec c 32), (Z.leb_spec 9 c), (Z.leb_spec c 13);
    simpl; try lia; destruct (Z.eqb_spec c 45), (Z.eqb_spec c 43); lia || done.
Qed.

Lemma sign_skip_fmt_u n r : 0 <= n < 10 ^ 20 →
  sign (skip_space (fmt_u n ++ r)) = (false, fmt_u n ++ r).
Proof.
  intros Hn. destruct (fmt_u_head n Hn) as (c & l & -> & Hc). by apply sign_skip_digit.
Qed.

(** What %u prints, strtoul and strtol read back. *)
Lemma strtoul_fmt_u n r : 0 <= n < 2 ^ 64 → not_digit_head r →
  strtoul (fmt_u n ++ r) = (n, r).
Proof.
  intros Hn Hr. unfold strtoul. rewrite sign_skip_fmt_u, fmt_u_digits by (done || lia).
  destruct (fmt_u_head n) as (c & l & -> & _); [lia|]. simpl.
  destruct (Z.leb_spec (2 ^ 64) n); [lia | done].
Qed.

Lemma strtol_fmt_u n r : 0 <= n < 2 ^ 63 → not_digit_head r →
  strtol (fmt_u n ++ r) = (n, r).
Proof.
  intros Hn Hr. unfold strtol. rewrite sign_skip_fmt_u, fmt_u_digits by (done || lia).
  destruct (fmt_u_head n) as (c & l & -> & _); [lia|]. simpl. f_equal. lia.
Qed.

Lemma fmt_u_inj m n : 0 <= m < 2 ^ 64 → 0 <= n < 2 ^ 64 → fmt_u m = fmt_u n → m = n.
Proof.
  intros Hm Hn E. pose proof (strtoul_fmt_u m [] Hm I) as H1.
  pose proof (strtoul_fmt_u n [] Hn I) as H2. rewrite E in H1. congruence.
Qed.

Lemma digits_nonneg s acc n : 0 <= acc → 0 <= (digits acc n s).1.1.
Proof.
  revert acc n. induction s as [|c s IH]; intros acc n Ha; [done|]. simpl.
  destruct (isdigit c) eqn:E; [|done]. apply isdigit_spec in E. apply IH. lia.
Qed.

Lemma strtoul_range s : 0 <= (strtoul s).1 < 2 ^ 64.
Proof.
  unfold strtoul. destruct (sign _) as [neg t].
  pose proof (digits_nonneg t 0 0). destruct (digits 0 0 t) as [[v n] r]. simpl in *.
  destruct (Nat.eqb n 0); [simpl; lia|]. destruct (Z.leb_spec (2 ^ 64) v); [simpl; lia|].
  destruct neg; [|simpl; lia]. apply u64_range.
Qed.

(** ** Searching *)

Lemma strchr_Some c s a b : strchr c s = Some (a, b) → s = a ++ c :: b ∧ c ∉ a.
Proof.
  revert a b. induction s as [|x s IH]; intros a b; [done|]. simpl.
  destruct (Z.eqb_spec x c) as [->|Hne].
  - intros [= <- <-]. split; [done | apply not_elem_of_nil].
  - destruct (strchr c s) as [[a' b']|] eqn:E; [|done]. intros [= <- <-].
    destruct (IH a' b' eq_refl) as [-> Hn]. split; [done|].
    rewrite elem_of_cons. naive_solver.
Qed.

Lemma strchr_None c s : strchr c s = None ↔ c ∉ s.
Proof.
  induction s as [|x s IH]; simpl.
  - split; [intros _; apply not_elem_of_nil | done].
  - rewrite elem_of_cons. destruct (Z.eqb_spec x c) as [->|Hne]; [naive_solver|].
    destruct (strchr c s) as [[a b]|]; naive_solver.
Qed.

Lemma strchr_app c a b : c ∉ a → strchr c (a ++ c :: b) = Some (a, b).
Proof.
  induction a as [|x a IH]; simpl; [by rewrite Z.eqb_refl|].
  rewrite elem_of_cons. intros H. destruct (Z.eqb_spec x c); [naive_solver|].
  rewrite IH; naive_solver.
Qed.

Lemma starts_with_app p s : starts_with p (p ++ s) = true.
Proof. induction p as [|a p IH]; [done|]. simpl. by rewrite Z.eqb_refl. Qed.

Lemma starts_with_spec p s : starts_with p s = true ↔ ∃ r, s = p ++ r.
Proof.
  split.
  - revert s. induction p as [|a p IH]; intros s H; [by exists s|].
    destruct s as [|b s]; [done|]. simpl in H. zify_bools. subst.
    destruct (IH s) as [r ->]; [done|]. by exists r.
  - intros [r ->]. apply starts_with_app.
Qed.

Lemma streq_true a b : streq a b = true ↔ a = b.
Proof. unfold streq. apply bool_decide_eq_true. Qed.

Lemma snprintf_fits cap s : len s < cap → (snprintf cap s).2 = s.
Proof. intros H. simpl. apply take_ge. lia. Qed.

Lemma strncpy_fits n s : len s < n → strncpy n s = s.
Proof. intros H. unfold strncpy. apply take_ge. lia. Qed.

Lemma strncpy_len n s : 0 < n → len (strncpy n s) < n.
Proof. intros Hn. unfold strncpy. rewrite length_take. lia. Qed.

Lemma fmt_x_length k v : length (fmt_x k v) = k.
Proof. induction k as [|k IH]; simpl; congruence. Qed.

Lemma fmt_u_length_le fuel n acc k :
  0 <= n < 10 ^ Z.of_nat k → (0 < k)%nat →
  (length (dec_go fuel n acc) <= k + length acc)%nat.
Proof.
  revert n acc k. induction fuel as [|f IH]; intros n acc k Hn Hk; simpl; [lia|].
  destruct (Z.ltb_spec n 10); [simpl; lia|].
  destruct k as [|k]; [lia|]. assert (0 < k)%nat.
  { destruct k; [change (10 ^ Z.of_nat 1) with 10 in Hn; lia | lia]. }
  specialize (IH (n / 10) ((48 + n mod 10) :: acc) k). simpl in IH.
  rewrite Nat2Z.inj_succ, Z.pow_succ_r in Hn by lia.
  assert (0 <= n / 10 < 10 ^ Z.of_nat k).
  { split; [apply Z.div_pos; lia | apply Z.div_lt_upper_bound; lia]. }
  specialize (IH ltac:(done) ltac:(done)). lia.
Qed.

(** A 32-bit %u takes at most 10 characters. *)
Lemma fmt_u_len32 n : 0 <= n < 2 ^ 32 → len (fmt_u n) <= 10.
Proof.
  intros Hn. unfold fmt_u. pose proof (fmt_u_length_le 20 n [] 10) as H.
  change (10 ^ Z.of_nat 10) with 10000000000 in H. cbn [length] in H. lia.
Qed.

Lemma fmt_d_len32 n : - 2 ^ 31 <= n < 2 ^ 31 → len (fmt_d n) <= 11.
Proof.
  intros Hn. unfold fmt_d. destruct (Z.ltb_spec n 0).
  - pose proof (fmt_u_len32 (- n)). simpl length. lia.
  - pose proof (fmt_u_len32 n). lia.
Qed.

Lemma fmt_d_CStr n : - 2 ^ 63 <= n < 2 ^ 63 → CStr (fmt_d n).
Proof.
  intros Hn. unfold fmt_d. destruct (Z.ltb_spec n 0).
  - apply CStr_cons. split; [lia | apply fmt_u_CStr; lia].
  - apply fmt_u_CStr; lia.
Qed.

(** Two numbers followed by something that is not a digit. *)
Lemma digits_split x y r s : 0 <= x < 2 ^ 64 → 0 <= y < 2 ^ 64 → not_digit_head r → not_digit_head s →
  fmt_u x ++ r = fmt_u y ++ s → x = y ∧ r = s.
Proof.
  intros Hx Hy Hr Hs E. pose proof (strtoul_fmt_u x r Hx Hr) as H1. pose proof (strtoul_fmt_u y s Hy Hs) as H2.
  rewrite E, H2 in H1. by injection H1.
Qed.

Lemma strtol_range s : - 2 ^ 63 <= (strtol s).1 < 2 ^ 63.
Proof.
  unfold strtol. destruct (sign _) as [neg t]. pose proof (digits_nonneg t 0 0 ltac:(lia)) as H.
  destruct (digits 0 0 t) as [[v n] r]. cbn [fst] in *. destruct (Nat.eqb n 0); [cbn; lia|]. destruct neg; cbn [fst]; lia.
Qed.

(** What strtol leaves is a suffix of what it was given. *)
Lemma digits_suffix s acc n : ∃ pre, s = pre ++ (digits acc n s).2.
Proof.
  revert acc n. induction s as [|c s IH]; intros acc n; [by exists []|]. cbn [digits].
  destruct (isdigit c); [|by exists []]. destruct (IH (acc * 10 + (c - 48)) (S n)) as [pre E]. exists (c :: pre). cbn. by f_equal.
Qed.
Lemma skip_space_suffix s : ∃ pre, s = pre ++ skip_space s.
Proof.
  induction s as [|c s [pre E]]; [by exists []|]. cbn [skip_space]. destruct (isspace c); [|by exists []].
  exists (c :: pre). cbn. by f_equal.
Qed.
Lemma strtol_suffix s : ∃ pre, s = pre ++ (strtol s).2.
Proof.
  unfold strtol. destruct (skip_space_suffix s) as [a Ea].
  assert (∃ b, skip_space s = b ++ (sign (skip_space s)).2) as [b Eb].
  { destruct (skip_space s) as [|c t]; [by exists []|]. cbn [sign]. destruct (c =? 45); [by exists [c]|].
    destruct (c =? 43); [by exists [c]|by exists []]. }
  destruct (sign (skip_space s)) as [neg t]. cbn [snd] in Eb. destruct (digits_suffix t 0 0) as [e Ee].
  destruct (digits 0 0 t) as [[v n] r]. cbn [snd] in Ee. destruct (Nat.eqb n 0); [by exists []|].
  exists (a ++ b ++ e). cbn [snd]. rewrite Ea at 1. rewrite Eb, Ee. by rewrite <- !app_assoc.
Qed.

End CLib.

#[export] Hint Resolve CLib.fmt_u_CStr CLib.fmt_d_CStr : anyfs.
