(* ===== verification/Glue.v ===== *)
(** * Glue

    scripts/macho/lkl_elf_glue.c and lkl_macho_shim.c: the boundary between the
    ELF kernel and the Mach-O host of the macOS build.  No variadic call may
    cross it, so the kernel's messages are formatted by a small formatter on the
    kernel's side and the command line by vsnprintf on the host's.

    The variadic arguments are a list of typed values, as a caller passes them:
    va_arg of another type, or past the last one, is a stuck run. *)
From S2P Require Import Prelude CLib.
Import CLib.

Module Glue.

Definition GLUE_BUF : Z := 512.

(** An int, a 64-bit integer (long, long long, size_t, ...), or a pointer: its
    value and the memory that can be read from there on. *)
Inductive arg := AInt (v : Z) | ALong (v : Z) | APtr (addr : Z) (mem : bytes).

Definition va_int (ap : list arg) : option (Z * list arg) :=
  match ap with AInt v :: ap => Some (v, ap) | _ => None end.
Definition va_long (ap : list arg) : option (Z * list arg) :=
  match ap with ALong v :: ap => Some (v, ap) | _ => None end.
Definition va_ptr (ap : list arg) : option (Z * bytes * list arg) :=
  match ap with APtr a m :: ap => Some (a, m, ap) | _ => None end.

(** ** The output: struct out is the bytes written so far *)

Definition put (o : bytes) (c : Z) : bytes := if len o <? GLUE_BUF - 1 then o ++ [c] else o.

(** put_str on memory: it must hold a terminator. *)
Fixpoint put_str (o m : bytes) : option bytes :=
  match m with
  | [] => None
  | c :: m => if c =? 0 then Some o else put_str (put o c) m
  end.

Definition digit (upper : bool) (v : Z) : Z := if upper then HEXDIG v else hexdig v.

(** The loop that fills digits[24], least significant first; [room] is what is
    left of the array. *)
Fixpoint num_digits (room : nat) (v base : Z) (upper : bool) : option bytes :=
  match room with
  | O => None
  | S room =>
      if v / base =? 0 then Some [digit upper (v mod base)]
      else ds ← num_digits room (v / base) base upper; Some (digit upper (v mod base) :: ds)
  end.

Definition put_num (o : bytes) (v base : Z) (upper : bool) : option bytes :=
  ds ← num_digits 24 v base upper; Some (foldl put o (reverse ds)).

(** ** Directives *)

(** *p, which is the terminator at the end of the format. *)
Definition cur (p : bytes) : Z := default 0 (head p).

Definition is_flag (c : Z) : bool := (c =? 45) || (c =? 43) || (c =? 32) || (c =? 35) || (c =? 48).

Fixpoint skip_while (f : Z → bool) (p : bytes) : bytes :=
  match p with
  | [] => []
  | c :: r => if f c then skip_while f r else p
  end.

Definition skip_count (p : bytes) (stars : nat) : bytes * nat :=
  if cur p =? 42 then (tail p, S stars) else (skip_while isdigit p, stars).

(** The length modifiers. *)
Definition skip_length (p : bytes) : bytes * bool :=
  if cur p =? 104 then (if cur (tail p) =? 104 then tail (tail p) else tail p, false)
  else if cur p =? 108 then (if cur (tail p) =? 108 then tail (tail p) else tail p, true)
  else if (cur p =? 122) || (cur p =? 116) || (cur p =? 106) then (tail p, true)
  else (p, false).

(** From the byte after the percent sign to the conversion. *)
Definition skip_directive (p : bytes) : bytes * nat * bool :=
  let '(p, stars) := skip_count (skip_while is_flag p) 0 in
  let '(p, stars) := if cur p =? 46 then skip_count (tail p) stars else (p, stars) in
  let '(p, wide) := skip_length p in
  (p, stars, wide).

(** s d i u x X p c *)
Definition supported (c : Z) : bool :=
  (c =? 115) || (c =? 100) || (c =? 105) || (c =? 117) || (c =? 120) || (c =? 88) || (c =? 112) || (c =? 99).

Fixpoint skip_args (stars : nat) (ap : list arg) : option (list arg) :=
  match stars with
  | O => Some ap
  | S stars => '(_, ap) ← va_int ap; skip_args stars ap
  end.

(** The switch on a supported conversion. *)
Definition convert (o : bytes) (c : Z) (wide : bool) (ap : list arg) : option (bytes * list arg) :=
  if c =? 115 then
    '(a, m, ap) ← va_ptr ap;
    o ← put_str o (if a =? 0 then bs "(null)" ++ [0] else m);
    Some (o, ap)
  else if c =? 99 then
    '(v, ap) ← va_int ap; Some (put o (u8 v), ap)
  else if c =? 112 then
    '(a, _, ap) ← va_ptr ap;
    o ← put_str o (bs "0x" ++ [0]);
    o ← put_num o (u64 a) 16 false;
    Some (o, ap)
  else if (c =? 100) || (c =? 105) then
    '(v, ap) ← (if wide then va_long ap else va_int ap);
    let o := if v <? 0 then put o 45 else o in
    o ← put_num o (if v <? 0 then u64 (- u64 v) else u64 v) 10 false;
    Some (o, ap)
  else
    '(v, ap) ← (if wide then '(v, ap) ← va_long ap; Some (u64 v, ap)
                else '(v, ap) ← va_int ap; Some (u32 v, ap));
    o ← put_num o v (if c =? 117 then 10 else 16) (c =? 88);
    Some (o, ap).

(** The loop over the format; the buffer is terminated behind the result. *)
Fixpoint format_loop (fuel : nat) (o fmt : bytes) (ap : list arg) : option bytes :=
  match fuel with
  | O => None
  | S fuel =>
      match fmt with
      | [] => Some o
      | c :: p =>
          if negb (c =? 37) then format_loop fuel (put o c) p ap
          else if cur p =? 37 then format_loop fuel (put o 37) (tail p) ap
          else
            let '(q, stars, wide) := skip_directive p in
            if negb (supported (cur q)) then put_str o (fmt ++ [0])
            else
              ap ← skip_args stars ap;
              '(o, ap) ← convert o (cur q) wide ap;
              format_loop fuel o (tail q) ap
      end
  end.

Definition format (fmt : bytes) (ap : list arg) : option bytes := format_loop (S (length fmt)) [] fmt ap.

(** The examples of the repository's own test of the formatter. *)
Definition str (s : string) : arg := APtr 4096 (bs s ++ [0]).

Example formats_numbers :
  format (bs "d=%d i=%i u=%u x=%x ld=%ld lu=%lu lx=%lx p=%p %% end")
    [AInt (-5); AInt 7; AInt (-1294967296); AInt 0xbeef; ALong (-1234567890123); ALong 9876543210;
     ALong 0xdeadbeefcafe; APtr 0x1000 []]
  = Some (bs "d=-5 i=7 u=3000000000 x=beef ld=-1234567890123 lu=9876543210 lx=deadbeefcafe p=0x1000 % end").
Proof. vm_compute. reflexivity. Qed.
Example formats_limits :
  format (bs "%lld|%llu|%llx|%d") [ALong (- 2 ^ 63); ALong (-1); ALong (-1); AInt (- 2 ^ 31)]
  = Some (bs "-9223372036854775808|18446744073709551615|ffffffffffffffff|-2147483648").
Proof. vm_compute. reflexivity. Qed.
Example formats_stars :
  format (bs "%.*s|%-*.*d|%s") [AInt 2; str "xyz"; AInt 4; AInt 2; AInt 9; str "ok"] = Some (bs "xyz|9|ok").
Proof. vm_compute. reflexivity. Qed.
Example formats_unsupported :
  format (bs "%d %-5lq|%s %d") [AInt 1; str "x"; AInt 2] = Some (bs "1 %-5lq|%s %d") ∧
  format (bs "%5%|%s") [str "x"] = Some (bs "%5%|%s") ∧ format (bs "x=%-0") [] = Some (bs "x=%-0").
Proof. vm_compute. done. Qed.
Example formats_null : format (bs "%s|%s|%q|") [APtr 0 []; str ""] = Some (bs "(null)||%q|").
Proof. vm_compute. reflexivity. Qed.

(** ** Numbers

    The numeral of [v] in base [b], most significant digit first; [k] bounds the
    digits before the last. *)
Fixpoint numeral (k : nat) (b : Z) (up : bool) (v : Z) : bytes :=
  match k with
  | O => [digit up v]
  | S k => if v <? b then [digit up v] else numeral k b up (v / b) ++ [digit up (v mod b)]
  end.

Definition digit_value (up : bool) (c : Z) : Z := if c <=? 57 then c - 48 else if up then c - 55 else c - 87.

Lemma digit_value_digit up d : 0 <= d < 16 → digit_value up (digit up d) = d.
Proof. intros. unfold digit_value, digit, hexdig, HEXDIG. destruct up; case_ifs. Qed.

(** It is a numeral of [v]: reading its digits gives [v] back. *)
Lemma numeral_value k b up v : 2 <= b <= 16 → 0 <= v < b ^ Z.of_nat (S k) →
  foldl (λ a c, a * b + digit_value up c) 0 (numeral k b up v) = v.
Proof.
  intros Hb. revert v. induction k as [|k IH]; intros v Hv; cbn [numeral].
  - change (Z.of_nat 1) with 1 in Hv. rewrite Z.pow_1_r in Hv. cbn [foldl]. rewrite digit_value_digit; lia.
  - destruct (Z.ltb_spec v b); [cbn [foldl]; rewrite digit_value_digit; lia|].
    rewrite foldl_app, IH.
    + cbn [foldl]. pose proof (Z.mod_pos_bound v b). rewrite digit_value_digit by lia.
      pose proof (Z.div_mod v b). lia.
    + rewrite Nat2Z.inj_succ, Z.pow_succ_r in Hv by lia. split; [apply Z.div_pos; lia|]. apply Z.div_lt_upper_bound; lia.
Qed.

Lemma numeral_fmt_u k v acc : 0 <= v < 10 ^ Z.of_nat (S k) → dec_go (S k) v acc = numeral k 10 false v ++ acc.
Proof.
  revert v acc. induction k as [|k IH]; intros v acc Hv.
  - change (10 ^ Z.of_nat 1) with 10 in Hv. cbn [dec_go numeral]. unfold digit, hexdig. case_ifs.
    rewrite Z.mod_small by lia. done.
  - cbn [numeral]. destruct (Z.ltb_spec v 10) as [Hlt|Hge].
    + cbn [dec_go]. destruct (Z.ltb_spec v 10); [|lia]. unfold digit, hexdig. case_ifs. rewrite Z.mod_small by lia. done.
    + change (dec_go (S (S k)) v acc) with (let acc' := (48 + v mod 10) :: acc in if v <? 10 then acc' else dec_go (S k) (v / 10) acc').
      cbv zeta. destruct (Z.ltb_spec v 10); [lia|]. rewrite IH, <- app_assoc.
      * pose proof (Z.mod_pos_bound v 10). unfold digit, hexdig. case_ifs. done.
      * rewrite Nat2Z.inj_succ, Z.pow_succ_r in Hv by lia. split; [apply Z.div_pos; lia|]. apply Z.div_lt_upper_bound; lia.
Qed.

(** The array of digits is large enough, and holds the numeral backwards. *)
Lemma num_digits_ok k b up v room : 2 <= b <= 16 → 0 <= v < b ^ Z.of_nat (S k) → (k < room)%nat →
  ∃ ds, num_digits room v b up = Some ds ∧ reverse ds = numeral k b up v.
Proof.
  intros Hb. revert v room. induction k as [|k IH]; intros v room Hv Hr; (destruct room as [|room]; [lia|]); cbn [num_digits numeral].
  - change (Z.of_nat 1) with 1 in Hv. rewrite Z.pow_1_r in Hv. rewrite Z.div_small, Z.mod_small by lia. eauto.
  - destruct (Z.ltb_spec v b).
    + rewrite Z.div_small, Z.mod_small by lia. eauto.
    + assert (1 <= v / b) by (apply Z.div_le_lower_bound; lia).
      destruct (Z.eqb_spec (v / b) 0); [lia|].
      destruct (IH (v / b) room) as (ds & -> & E); [|lia|].
      { rewrite Nat2Z.inj_succ, Z.pow_succ_r in Hv by lia. split; [lia|]. apply Z.div_lt_upper_bound; lia. }
      cbn [mbind option_bind]. eexists. split; [done|]. rewrite reverse_cons, E. done.
Qed.

(** ** The buffer *)

Definition ROOM : nat := Z.to_nat (GLUE_BUF - 1).

Lemma put_take x c : put (take ROOM x) c = take ROOM (x ++ [c]).
Proof.
  unfold put. rewrite length_take. fold ROOM. destruct (Z.ltb_spec (Z.of_nat (ROOM `min` length x)) (GLUE_BUF - 1)) as [H|H];
    assert (Z.of_nat ROOM = GLUE_BUF - 1) as E by done.
  - rewrite take_app. rewrite (take_ge x) by lia. f_equal. rewrite take_ge; [done|]. simpl. lia.
  - rewrite take_app_le by lia. done.
Qed.

Lemma put_all s x : foldl put (take ROOM x) s = take ROOM (x ++ s).
Proof.
  revert x. induction s as [|c s IH]; intros x; [by rewrite app_nil_r|].
  cbn [foldl]. rewrite put_take, IH, <- app_assoc. done.
Qed.

Lemma put_str_ok m x : 0 ∈ m → put_str (take ROOM x) m = Some (take ROOM (x ++ c_str m)).
Proof.
  revert x. induction m as [|c m IH]; intros x Hm; [by apply not_elem_of_nil in Hm|].
  cbn [put_str c_str]. destruct (Z.eqb_spec c 0); [by rewrite app_nil_r|].
  rewrite put_take, IH, <- app_assoc; [done|]. apply elem_of_cons in Hm as [?|?]; [congruence|done].
Qed.

Lemma put_text t x : CStr t → put_str (take ROOM x) (t ++ [0]) = Some (take ROOM (x ++ t)).
Proof. intros. rewrite put_str_ok, c_str_app by (done || set_solver). done. Qed.

Lemma put_num_ok k b up v x : 2 <= b <= 16 → 0 <= v < b ^ Z.of_nat (S k) → (k < 24)%nat →
  put_num (take ROOM x) v b up = Some (take ROOM (x ++ numeral k b up v)).
Proof.
  intros Hb Hv Hk. destruct (num_digits_ok k b up v 24) as (ds & E & Er); [done..|].
  unfold put_num. rewrite E. cbn [mbind option_bind]. rewrite Er, put_all. done.
Qed.

Lemma put_dec v x : 0 <= v < 2 ^ 64 → put_num (take ROOM x) v 10 false = Some (take ROOM (x ++ fmt_u v)).
Proof.
  intros Hv. rewrite (put_num_ok 19) by (done || lia). unfold fmt_u.
  rewrite (numeral_fmt_u 19), app_nil_r by (change (10 ^ Z.of_nat 20) with (10 ^ 20); lia). done.
Qed.

Lemma put_hex up v x : 0 <= v < 2 ^ 64 → put_num (take ROOM x) v 16 up = Some (take ROOM (x ++ numeral 15 16 up v)).
Proof. intros Hv. apply put_num_ok; [lia| |lia]. change (16 ^ Z.of_nat 16) with (2 ^ 64). done. Qed.

(** ** Formats as C's grammar has them *)

Inductive count := CNone | CNum (ds : bytes) | CStar.
Inductive lenmod := LNone | LH | LHH | LL | LLL | LZ | LT | LJ.

(** What stands between the percent sign and the conversion. *)
Record prefix := mk_pre { d_flags : bytes; d_width : count; d_prec : option count; d_len : lenmod }.

(** A byte as it is, a percent sign, or a directive with the arguments a caller
    passes for it: the ints of its stars and the value. *)
Inductive item := Lit (c : Z) | Percent | Dir (pre : prefix) (conv : Z) (ns : list Z) (v : arg).

Definition show_count (n : count) : bytes := match n with CNone => [] | CNum ds => ds | CStar => [42] end.
Definition show_len (l : lenmod) : bytes :=
  match l with LNone => [] | LH => bs "h" | LHH => bs "hh" | LL => bs "l" | LLL => bs "ll" | LZ => bs "z" | LT => bs "t" | LJ => bs "j" end.
Definition show_prec (n : option count) : bytes := match n with None => [] | Some n => 46 :: show_count n end.
Definition show_prefix (p : prefix) : bytes := d_flags p ++ show_count (d_width p) ++ show_prec (d_prec p) ++ show_len (d_len p).

Definition show (i : item) : bytes :=
  match i with Lit c => [c] | Percent => [37; 37] | Dir p conv _ _ => 37 :: show_prefix p ++ [conv] end.
Definition args_of (i : item) : list arg := match i with Dir _ _ ns v => (AInt <$> ns) ++ [v] | _ => [] end.

(** On LP64. *)
Definition wide_len (l : lenmod) : bool := match l with LL | LLL | LZ | LT | LJ => true | _ => false end.
Definition stars_of (n : count) : nat := match n with CStar => 1 | _ => 0 end.
Definition stars (p : prefix) : nat := stars_of (d_width p) + from_option stars_of 0%nat (d_prec p).

Definition count_ok (n : count) : Prop := match n with CNum ds => Forall (λ c, isdigit c = true) ds | _ => True end.
(** A number that starts with 0 is a flag before a width. *)
Definition prefix_ok (p : prefix) : Prop :=
  Forall (λ c, is_flag c = true) (d_flags p) ∧ count_ok (d_width p) ∧
  (∀ ds, d_width p ≠ CNum (48 :: ds)) ∧ from_option count_ok True (d_prec p).

(** The argument has the type C asks for. *)
Definition value_ok (conv : Z) (l : lenmod) (v : arg) : Prop :=
  if (conv =? 115) || (conv =? 112) then
    ∃ a m, v = APtr a m ∧ 0 <= a < 2 ^ 64 ∧ l = LNone ∧ (conv = 115 → a = 0 ∨ 0 ∈ m)
  else if conv =? 99 then ∃ x, v = AInt x ∧ l = LNone
  else if wide_len l then ∃ x, v = ALong x ∧ - 2 ^ 63 <= x < 2 ^ 63
  else ∃ x, v = AInt x ∧ - 2 ^ 31 <= x < 2 ^ 31.

Definition item_ok (i : item) : Prop :=
  match i with
  | Lit c => 0 < c < 256 ∧ c ≠ 37
  | Percent => True
  | Dir p conv ns v => prefix_ok p ∧ supported conv = true ∧ length ns = stars p ∧ value_ok conv (d_len p) v
  end.

(** What printf prints without flags, width and precision. *)
Definition unsigned (v : arg) : Z := match v with AInt x => u32 x | ALong x => u64 x | APtr a _ => a end.
Definition signed (v : arg) : Z := match v with AInt x | ALong x => x | APtr a _ => a end.
Definition value_text (conv : Z) (v : arg) : bytes :=
  if conv =? 115 then match v with APtr a m => if a =? 0 then bs "(null)" else c_str m | _ => [] end
  else if conv =? 99 then [u8 (signed v)]
  else if conv =? 112 then bs "0x" ++ numeral 15 16 false (unsigned v)
  else if (conv =? 100) || (conv =? 105) then fmt_d (signed v)
  else if conv =? 117 then fmt_u (unsigned v)
  else numeral 15 16 (conv =? 88) (unsigned v).
Definition text (i : item) : bytes :=
  match i with Lit c => [c] | Percent => [37] | Dir _ conv _ v => value_text conv v end.

(** A byte that continues a directive before its conversion. *)
Definition is_mod (c : Z) : bool :=
  is_flag c || isdigit c || (c =? 42) || (c =? 46) || (c =? 104) || (c =? 108) || (c =? 122) || (c =? 116) || (c =? 106).

(** The end of a format, or a directive of another kind and all that follows. *)
Definition tail_ok (t : bytes) : Prop :=
  t = [] ∨ ∃ p r, t = 37 :: show_prefix p ++ r ∧ CStr t ∧ prefix_ok p ∧ is_mod (cur r) || supported (cur r) = false ∧ (show_prefix p = [] → cur r ≠ 37).

(** ** The scanner reads the grammar *)

Lemma skip_while_app f s r : Forall (λ c, f c = true) s → f (cur r) = false → f 0 = false → skip_while f (s ++ r) = r.
Proof.
  intros Hs Hr H0. induction Hs as [|c s Hc Hs IH]; cbn [app skip_while]; [|by rewrite Hc].
  destruct r as [|c r]; [done|]. cbn in Hr. cbn [skip_while]. by rewrite Hr.
Qed.

Lemma skip_count_ok n r k : count_ok n → isdigit (cur r) || (cur r =? 42) = false →
  skip_count (show_count n ++ r) k = (r, (stars_of n + k)%nat).
Proof.
  intros Hn (Hd & Hs)%orb_false_iff. unfold skip_count. destruct n as [|ds|]; cbn [show_count stars_of app].
  - rewrite Hs. f_equal. by apply (skip_while_app isdigit []).
  - assert (cur (ds ++ r) =? 42 = false) as ->.
    { destruct ds as [|c ds]; [done|]. apply Forall_cons in Hn as (Hc & _). unfold isdigit in Hc. cbn. lia. }
    f_equal. by apply skip_while_app.
  - done.
Qed.

Lemma skip_length_ok l r : is_mod (cur r) = false → skip_length (show_len l ++ r) = (r, wide_len l).
Proof.
  unfold is_mod. intros H. rewrite !orb_false_iff in H. destruct H as (((((_ & H1) & H2) & H3) & H4) & H5).
  destruct l; unfold skip_length; [cbn [show_len app]; by rewrite H1, H2, H3, H4, H5|..];
    cbn; rewrite ?H1, ?H2; done.
Qed.

Lemma skip_prec_ok n r k : from_option count_ok True n → isdigit (cur r) || (cur r =? 42) || (cur r =? 46) = false →
  (if cur (show_prec n ++ r) =? 46 then skip_count (tail (show_prec n ++ r)) k else (show_prec n ++ r, k)) =
  (r, (from_option stars_of 0 n + k)%nat).
Proof.
  intros Hn (Hr & H46)%orb_false_iff. destruct n as [n|]; cbn [show_prec app from_option tail].
  - by apply skip_count_ok.
  - by rewrite H46.
Qed.

(** What follows the flags, the width and the precision. *)
Lemma cur_len l r : is_mod (cur r) = false →
  is_flag (cur (show_len l ++ r)) || (isdigit (cur (show_len l ++ r)) || (cur (show_len l ++ r) =? 42) || (cur (show_len l ++ r) =? 46)) = false.
Proof. unfold is_mod. intros H. rewrite !orb_false_iff in *. destruct l; cbn; naive_solver. Qed.

Lemma cur_prec n l r : is_mod (cur r) = false →
  is_flag (cur (show_prec n ++ show_len l ++ r)) || (isdigit (cur (show_prec n ++ show_len l ++ r)) || (cur (show_prec n ++ show_len l ++ r) =? 42)) = false.
Proof.
  intros H. destruct n; [done|]. pose proof (cur_len l r H) as H'. cbn [show_prec app]. rewrite !orb_false_iff in *. naive_solver.
Qed.

Lemma cur_width p r : is_mod (cur r) = false → prefix_ok p →
  is_flag (cur (show_count (d_width p) ++ show_prec (d_prec p) ++ show_len (d_len p) ++ r)) = false.
Proof.
  intros H (_ & Hw & H0 & _). pose proof (cur_prec (d_prec p) (d_len p) r H) as [Hf _]%orb_false_iff.
  destruct (d_width p) as [|[|c ds]|]; [done|done| |done].
  apply Forall_cons in Hw as (Hc & _). specialize (H0 ds). assert (c ≠ 48) by congruence.
  unfold isdigit in Hc. unfold is_flag. cbn [show_count app]. change (cur (c :: ?l)) with c. cbn. lia.
Qed.

Lemma skip_directive_ok p r : prefix_ok p → is_mod (cur r) = false →
  skip_directive (show_prefix p ++ r) = (r, stars p, wide_len (d_len p)).
Proof.
  intros Hp Hr. pose proof Hp as (Hf & Hw & _ & Hn). unfold skip_directive, show_prefix. rewrite <- !app_assoc.
  rewrite skip_while_app; [|done|by apply cur_width|done].
  pose proof (cur_prec (d_prec p) (d_len p) r Hr) as [_ H]%orb_false_iff. rewrite skip_count_ok by done.
  pose proof (cur_len (d_len p) r Hr) as [_ H']%orb_false_iff. rewrite skip_prec_ok by done.
  rewrite skip_length_ok by done. unfold stars. do 2 f_equal. lia.
Qed.

Lemma supported_not_mod c : supported c = true → is_mod c = false ∧ c ≠ 37.
Proof. unfold supported, is_mod, is_flag, isdigit. intros. lia. Qed.

(** A prefix does not start with a percent sign. *)
Lemma prefix_not_percent p r : prefix_ok p → cur (show_prefix p ++ r) = 37 → show_prefix p = [] ∧ cur r = 37.
Proof.
  intros (Hf & Hw & _ & _) E. unfold show_prefix in *. rewrite <- !app_assoc in E.
  destruct (d_flags p) as [|c fl]; cbn [app] in *.
  2: { apply Forall_cons in Hf as (Hc & _). cbn in E. subst c. done. }
  destruct (d_width p) as [|[|c ds]|]; cbn [show_count app] in *.
  3: { apply Forall_cons in Hw as (Hc & _). cbn in E. subst c. done. }
  3: done.
  all: destruct (d_prec p); [done|]; cbn [show_prec app] in *; destruct (d_len p); done.
Qed.

Lemma skip_args_ok ns ap : skip_args (length ns) ((AInt <$> ns) ++ ap) = Some ap.
Proof. induction ns as [|n ns IH]; [done|]. cbn. apply IH. Qed.

(** Integers: an argument of the type asked for is read, and printed. *)
Lemma convert_int x conv l v ap : supported conv = true → conv ∉ [115; 112; 99] → value_ok conv l v →
  convert (take ROOM x) conv (wide_len l) (v :: ap) = Some (take ROOM (x ++ value_text conv v), ap).
Proof.
  intros Hs Hc Hv. unfold value_ok, value_text, convert in *. unfold supported in Hs.
  rewrite !not_elem_of_cons in Hc. destruct Hc as (H1 & H2 & H3 & _).
  destruct (Z.eqb_spec conv 115); [done|]. destruct (Z.eqb_spec conv 112); [done|]. destruct (Z.eqb_spec conv 99); [done|].
  cbn [orb] in Hv. destruct ((conv =? 100) || (conv =? 105)) eqn:Ed.
  - assert (∃ z, (if wide_len l then va_long (v :: ap) else va_int (v :: ap)) = Some (z, ap) ∧ signed v = z ∧ - 2 ^ 63 <= z < 2 ^ 63)
      as (z & -> & -> & Hz).
    { destruct (wide_len l); destruct Hv as (z & -> & Hz); exists z; (split; [done|]); (split; [done|]); lia. }
    cbn [mbind option_bind]. unfold fmt_d. destruct (Z.ltb_spec z 0).
    + rewrite put_take, put_dec by apply u64_range. cbn [mbind option_bind]. rewrite <- app_assoc. do 4 f_equal.
      cbn [app]. do 2 f_equal. unfold u64. rewrite Z.mod_opp_l_nz; rewrite ?Z.mod_mod by lia.
      * pose proof (Z_mod_plus_full z 1 (2 ^ 64)) as E. rewrite <- E, Z.mod_small by lia. lia.
      * lia.
      * pose proof (Z_mod_plus_full z 1 (2 ^ 64)) as E. rewrite <- E, Z.mod_small by lia. lia.
    + rewrite put_dec by apply u64_range. cbn [mbind option_bind]. rewrite u64_small by lia. done.
  - assert ((if wide_len l then '(v, ap) ← va_long (v :: ap); Some (u64 v, ap) else '(v, ap) ← va_int (v :: ap); Some (u32 v, ap)) =
      Some (unsigned v, ap) ∧ 0 <= unsigned v < 2 ^ 64) as (-> & Hu).
    { destruct (wide_len l); destruct Hv as (z & -> & Hz); (split; [done|]); cbn [unsigned];
        pose proof (u64_range z); pose proof (u32_range z); lia. }
    cbn [mbind option_bind]. destruct (Z.eqb_spec conv 117).
    + subst conv. change (117 =? 88) with false. rewrite put_dec by done. done.
    + rewrite put_hex by done. done.
Qed.

Lemma convert_ok x conv l v ap : supported conv = true → value_ok conv l v →
  convert (take ROOM x) conv (wide_len l) (v :: ap) = Some (take ROOM (x ++ value_text conv v), ap).
Proof.
  intros Hs Hv. destruct (decide (conv ∈ [115; 112; 99])) as [Hc|Hc]; [|by apply convert_int].
  rewrite !elem_of_cons, elem_of_nil in Hc. destruct Hc as [->|[->|[->|[]]]].
  - destruct Hv as (a & m & -> & Ha & -> & Hm). unfold convert, value_text. cbn [va_ptr mbind option_bind].
    change (115 =? 115) with true. cbv iota. destruct (Z.eqb_spec a 0).
    + rewrite put_text by solve_cstr. done.
    + rewrite put_str_ok by (destruct Hm; done). done.
  - destruct Hv as (a & m & -> & Ha & -> & _). unfold convert, value_text. cbn [va_ptr mbind option_bind].
    change (112 =? 115) with false. change (112 =? 99) with false. change (112 =? 112) with true. cbv iota.
    rewrite put_text by solve_cstr. cbn [mbind option_bind]. rewrite u64_small by done. rewrite put_hex by done.
    cbn [mbind option_bind unsigned]. rewrite <- app_assoc. done.
  - destruct Hv as (z & -> & ->). unfold convert, value_text. cbn [va_int mbind option_bind].
    change (99 =? 115) with false. change (99 =? 99) with true. cbv iota. rewrite put_take. done.
Qed.

(** One item of a format. *)
Lemma format_item fuel x i r ap : item_ok i →
  format_loop (S fuel) (take ROOM x) (show i ++ r) (args_of i ++ ap) = format_loop fuel (take ROOM (x ++ text i)) r ap.
Proof.
  intros Hi. destruct i as [c| |p conv ns v].
  - destruct Hi as (_ & Hc). cbn [show app format_loop args_of text]. apply Z.eqb_neq in Hc. rewrite Hc. cbn [negb]. by rewrite put_take.
  - cbn [show app format_loop args_of text]. change (37 =? 37) with true. cbn [negb]. change (cur (37 :: r)) with 37.
    change (37 =? 37) with true. cbv iota. cbn [tail]. by rewrite put_take.
  - destruct Hi as (Hp & Hs & Hn & Hv). destruct (supported_not_mod _ Hs) as (Hm & H37).
    cbn [show app format_loop args_of text]. change (37 =? 37) with true. cbn [negb].
    rewrite <- !app_assoc. cbn [app].
    pose proof (skip_directive_ok p (conv :: r) Hp Hm) as E.
    assert (cur (show_prefix p ++ conv :: r) =? 37 = false) as ->.
    { destruct (Z.eqb_spec (cur (show_prefix p ++ conv :: r)) 37) as [E37|]; [|done]. apply prefix_not_percent in E37 as (_ & E37); [done|done]. }
    rewrite E. change (cur (conv :: r)) with conv. rewrite Hs. cbn [negb]. rewrite <- Hn, skip_args_ok.
    cbn [mbind option_bind]. rewrite (convert_ok _ _ _ _ _ Hs Hv). done.
Qed.

(** The end of the format, or an unsupported directive: no argument is read. *)
Lemma format_tail fuel x t ap : tail_ok t → format_loop (S fuel) (take ROOM x) t ap = Some (take ROOM (x ++ t)).
Proof.
  intros [->|(p & r & -> & Hc & Hp & (Hm & Hs)%orb_false_iff & H37)]; [cbn [format_loop]; by rewrite app_nil_r|].
  cbn [format_loop]. change (37 =? 37) with true. cbn [negb].
  assert (cur (show_prefix p ++ r) =? 37 = false) as ->.
  { apply Z.eqb_neq. intros (? & ?)%prefix_not_percent; [by apply H37|done]. }
  rewrite skip_directive_ok by done. rewrite Hs. cbn [negb]. by rewrite put_text.
Qed.

Lemma show_length i : (1 <= length (show i))%nat.
Proof. destruct i; cbn; lia. Qed.

Lemma format_items its x t ap fuel : Forall item_ok its → tail_ok t → (length (mjoin (show <$> its)) < fuel)%nat →
  format_loop fuel (take ROOM x) (mjoin (show <$> its) ++ t) (mjoin (args_of <$> its) ++ ap) =
  Some (take ROOM (x ++ mjoin (text <$> its) ++ t)).
Proof.
  intros Hi Ht. revert x fuel. induction Hi as [|i its Hi His IH]; intros x fuel Hf; cbn [fmap list_fmap] in *;
    rewrite ?join_cons, <- ?app_assoc in *; (destruct fuel as [|fuel]; [lia|]).
  - by apply format_tail.
  - rewrite format_item by done. rewrite IH, <- app_assoc; [done|].
    rewrite length_app in Hf. pose proof (show_length i). lia.
Qed.

(** The formatter prints what printf prints, less flags, width and precision,
    and no more than the buffer holds.  A format is a sequence of bytes, percent
    signs and supported directives with any flags, width, precision and length,
    each with arguments of the types C asks for, and ends there or goes on with
    a directive of another kind: that one is printed as it is with all that
    follows, and the arguments left, of whatever types, are not read.  Every
    access is to the right type and inside the format, the digits and the
    512 bytes of the buffer, terminator included. *)
Theorem glue_formats its t rest : Forall item_ok its → tail_ok t →
  ∃ o, format (mjoin (show <$> its) ++ t) (mjoin (args_of <$> its) ++ rest) = Some o ∧
    o = take (Z.to_nat (GLUE_BUF - 1)) (mjoin (text <$> its) ++ t) ∧ len o < GLUE_BUF.
Proof.
  intros Hi Ht. eexists. split; [|split; [done|]].
  - unfold format. pose proof (format_items its [] t rest) as E. rewrite take_nil in E. apply E; [done..|].
    rewrite length_app. lia.
  - rewrite length_take. unfold GLUE_BUF. lia.
Qed.

(** %-5d of 42, a star for the precision of a string, an unsupported end. *)
Lemma glue_formats_witness :
  ∃ o, format (bs "n=%-5ld|%.*s%% %5q%s") [ALong 42; AInt 2; str "xyz"; str "unread"] = Some o ∧ o = bs "n=42|xyz% %5q%s" ∧ len o < GLUE_BUF.
Proof.
  destruct (glue_formats
    [Lit 110; Lit 61; Dir (mk_pre (bs "-") (CNum (bs "5")) None LL) 100 [] (ALong 42); Lit 124;
     Dir (mk_pre [] CNone (Some CStar) LNone) 115 [2] (str "xyz"); Percent; Lit 32] (bs "%5q%s") [str "unread"])
    as (o & E & Eo & Hl).
  - repeat apply Forall_cons_2; try apply Forall_nil_2; cbn [item_ok]; try (split; [lia|lia]); try exact Logic.I.
    + split; [|split; [reflexivity|split; [reflexivity|]]].
      * split; [by repeat constructor|]. split; [by repeat constructor|]. split; [intros ds; discriminate|exact Logic.I].
      * exists 42. split; [reflexivity|lia].
    + split; [|split; [reflexivity|split; [reflexivity|]]].
      * split; [constructor|]. split; [exact Logic.I|]. split; [intros ds; discriminate|exact Logic.I].
      * exists 4096, (bs "xyz" ++ [0]). split; [reflexivity|]. split; [lia|]. split; [reflexivity|]. intros _. right. set_solver.
  - right. exists (mk_pre [] (CNum (bs "5")) None LNone), (bs "q%s"). split; [reflexivity|]. split; [solve_cstr|].
    split; [|split; [reflexivity|discriminate]].
    split; [constructor|]. split; [by repeat constructor|]. split; [intros ds; discriminate|exact Logic.I].
  - exists o. split; [exact E|]. split; [rewrite Eo; vm_compute; reflexivity|exact Hl].
Defined.

(** Skipping a precision reads on: the bytes of a field that has no terminator
    are printed with a precision in C, and overrun here. *)
Lemma glue_precision_overruns : format (bs "%.4s") [APtr 4096 (bs "disk")] = None.
Proof. vm_compute. reflexivity. Qed.

(** ** The callbacks of the host *)

Section Host.
Context {W : Type}.

(** The static variables: the callbacks captured by lkl_glue_set_host. *)
Record glue := mk_glue { host_print : option (bytes → Z → W → W); host_panic : option (W → W) }.
Definition glue0 : glue := mk_glue None None.
Notation St := (glue * W)%type.

Definition lkl_glue_set_host (print : option (bytes → Z → W → W)) (panic : option (W → W)) : M St () :=
  mmod (λ s, (mk_glue print panic, s.2)).

Definition emit (fmt : bytes) (ap : list arg) : M St Z :=
  o ← mopt (format fmt ap);
  g ← mgets fst;
  _ ← (match host_print g with Some f => mmod (λ s, (s.1, f o (len o) s.2)) | None => mret () end);
  mret (len o).

Definition lkl_printf (fmt : bytes) (ap : list arg) : M St Z := emit fmt ap.

(** lkl_bug: true when the panic callback was called (and returned), false when
    the process was stopped by a trap. *)
Definition lkl_bug (fmt : bytes) (ap : list arg) : M St bool :=
  _ ← emit fmt ap;
  g ← mgets fst;
  match host_panic g with
  | Some f => _ ← mmod (λ s : St, (s.1, f s.2)); mret true
  | None => mret false
  end.

(** lkl_start_kernel_str: a variadic call inside the ELF code. *)
Definition lkl_start_kernel_str (lkl_start_kernel : bytes → list arg → M St Z) (cmdline : bytes) : M St Z :=
  lkl_start_kernel (bs "%s") [APtr 1 (cmdline ++ [0])].

(** ** The Mach-O side *)

Definition LKL_CMDLINE_MAX : Z := 4096.
Definition LKL_EINVAL : Z := 22.
Definition LKL_E2BIG : Z := 7.

Record host_ops := mk_ops { ops_print : option (bytes → Z → W → W); ops_panic : option (W → W) }.

Definition lkl_init (lklk_init : host_ops → M St Z) (ops : host_ops) : M St Z :=
  _ ← lkl_glue_set_host (ops_print ops) (ops_panic ops);
  lklk_init ops.

(** lkl_start_kernel on what vsnprintf gives: an error, or the whole text. *)
Definition lkl_start_kernel (lkl_start_kernel : bytes → list arg → M St Z) (printed : option bytes) : M St Z :=
  match printed with
  | None => mret (- LKL_EINVAL)
  | Some text =>
      let '(n, cmdline) := snprintf LKL_CMDLINE_MAX text in
      if LKL_CMDLINE_MAX <=? n then mret (- LKL_E2BIG)
      else lkl_start_kernel_str lkl_start_kernel cmdline
  end.

(** After lkl_init the kernel's messages go to the host's print callback, one
    call each, with the length that is returned; before it they are dropped. *)
Lemma printf_routed fmt ap o g w (Q : Z → St → Prop) : format fmt ap = Some o →
  Q (len o) (g, match host_print g with Some f => f o (len o) w | None => w end) → wp (lkl_printf fmt ap) Q (g, w).
Proof.
  intros E HQ. unfold lkl_printf, emit. apply wp_bind, (wp_opt _ _ _ _ E). wp_steps. cbn [fst].
  destruct (host_print g); wp_steps; done.
Qed.

(** The kernel starts with the very command line the host printed, or not at
    all: none is cut short. *)
Lemma start_kernel_whole k text (Q : Z → St → Prop) s :
  (len text < LKL_CMDLINE_MAX → wp (k (bs "%s") [APtr 1 (text ++ [0])]) Q s) →
  (LKL_CMDLINE_MAX <= len text → Q (-7) s) → wp (lkl_start_kernel k (Some text)) Q s.
Proof.
  intros H1 H2. unfold lkl_start_kernel. destruct (snprintf LKL_CMDLINE_MAX text) as [n c] eqn:E.
  assert (n = len text) as -> by (unfold snprintf in E; by simplify_eq).
  case_if; zify_bools; [wp_steps; auto|]. unfold lkl_start_kernel_str.
  replace c with text; [by apply H1|]. pose proof (snprintf_fits LKL_CMDLINE_MAX text) as F. rewrite E in F. cbn in F. by rewrite F by lia.
Qed.

End Host.

End Glue.
