(* ===== verification/Name.v ===== *)
(** * Name

    src/core/anyfs_name.c: kernel file names (bytes) to the strings the
    JavaScript side sees and back.  The loops run on a NUL-terminated string
    through [rd], so a read past the terminator would make them stuck. *)
From S2P Require Import Prelude.

Module Name.

(** ** The code *)

Definition cont (c : Z) : bool := Z.land c 0xC0 =? 0x80.

Definition utf8_seq (s : bytes) : option nat :=
  c ← rd s 0;
  if c <? 0x80 then Some 1%nat
  else if (0xC2 <=? c) && (c <=? 0xDF) then
    s1 ← rd s 1; Some (if cont s1 then 2%nat else 0%nat)
  else if (0xE0 <=? c) && (c <=? 0xEF) then
    let lo := if c =? 0xE0 then 0xA0 else 0x80 in
    let hi := if c =? 0xED then 0x9F else 0xBF in
    s1 ← rd s 1;
    if (lo <=? s1) && (s1 <=? hi) then
      s2 ← rd s 2; Some (if cont s2 then 3%nat else 0%nat)
    else Some 0%nat
  else if (0xF0 <=? c) && (c <=? 0xF4) then
    let lo := if c =? 0xF0 then 0x90 else 0x80 in
    let hi := if c =? 0xF4 then 0x8F else 0xBF in
    s1 ← rd s 1;
    if (lo <=? s1) && (s1 <=? hi) then
      s2 ← rd s 2;
      if cont s2 then s3 ← rd s 3; Some (if cont s3 then 4%nat else 0%nat)
      else Some 0%nat
    else Some 0%nat
  else Some 0%nat.

Definition is_escape_char (s : bytes) : option bool :=
  c ← rd s 0;
  if c =? 0xEE then
    s1 ← rd s 1;
    if (s1 =? 0xBE) || (s1 =? 0xBF) then s2 ← rd s 2; Some (cont s2)
    else Some false
  else Some false.

(** Outcome of one run of the inner loop: it goes on, or it jumps to the
    [overflow] label. *)
Inductive flow := Go (s out : bytes) | Overflow.

(** The [for (k = 0; k < n; k++, s++)] loop: [n] bytes, each as one escape
    character. *)
Fixpoint escape_bytes (n : nat) (s out : bytes) (cap : Z) : option flow :=
  match n with
  | O => Some (Go s out)
  | S n' =>
      b ← rd s 0;
      if cap <=? len out + 3 then Some Overflow
      else escape_bytes n' (drop 1 s)
             (out ++ [0xEE; if 0xC0 <=? b then 0xBF else 0xBE; Z.lor 0x80 (Z.land b 0x3F)]) cap
  end.

(** The [while ( *s)] loop; [out] is what has been stored ([o = len out]). *)
Fixpoint escape_loop (fuel : nat) (s out : bytes) (cap : Z) : option (Z * bytes) :=
  match fuel with
  | O => None
  | S f =>
      c ← rd s 0;
      if c =? 0 then Some (len out, out)
      else
        n ← utf8_seq s;
        esc ← (if Nat.eqb n 3 then is_escape_char s else Some false);
        if negb (Nat.eqb n 0) && negb esc then
          if cap <=? len out + Z.of_nat n then Some (-1, [])
          else escape_loop f (drop n s) (out ++ take n s) cap
        else
          fl ← escape_bytes (if Nat.eqb n 0 then 1%nat else n) s out cap;
          match fl with
          | Go s' out' => escape_loop f s' out' cap
          | Overflow => Some (-1, [])
          end
  end.

(** The value returned and the string left in [out]; [out_ok] is false for a
    NULL [out], which is not written. *)
Definition anyfs_name_escape (s : bytes) (out_ok : bool) (cap : Z) : option (Z * bytes) :=
  if negb out_ok || (cap =? 0) then Some (-1, [])
  else escape_loop (S (length s)) s [] cap.

Fixpoint unescape_loop (fuel : nat) (s out : bytes) (cap : Z) : option (Z * bytes) :=
  match fuel with
  | O => None
  | S f =>
      c ← rd s 0;
      if c =? 0 then Some (len out, out)
      else if cap <=? len out + 1 then Some (-1, [])
      else
        esc ← is_escape_char s;
        if (esc : bool) then
          s1 ← rd s 1; s2 ← rd s 2;
          unescape_loop f (drop 3 s)
            (out ++ [Z.lor (if s1 =? 0xBF then 0xC0 else 0x80) (Z.land s2 0x3F)]) cap
        else unescape_loop f (drop 1 s) (out ++ [c]) cap
  end.

Definition anyfs_name_unescape (s : bytes) (out_ok : bool) (cap : Z) : option (Z * bytes) :=
  if negb out_ok || (cap =? 0) then Some (-1, [])
  else unescape_loop (S (length s)) s [] cap.

(** ** Specification

    The text splits into units: a strict UTF-8 sequence that is not an escape
    character is copied, anything else is escaped byte by byte. *)

Inductive utf8 : bytes → Prop :=
| utf8_1 a : 0 < a < 0x80 → utf8 [a]
| utf8_2 a b : 0xC2 <= a <= 0xDF → 0x80 <= b <= 0xBF → utf8 [a; b]
| utf8_3 a b c : 0xE0 <= a <= 0xEF → 0x80 <= b <= 0xBF → 0x80 <= c <= 0xBF →
    (a = 0xE0 → 0xA0 <= b) → (a = 0xED → b <= 0x9F) → utf8 [a; b; c]
| utf8_4 a b c d : 0xF0 <= a <= 0xF4 → 0x80 <= b <= 0xBF → 0x80 <= c <= 0xBF →
    0x80 <= d <= 0xBF → (a = 0xF0 → 0x90 <= b) → (a = 0xF4 → b <= 0x8F) → utf8 [a; b; c; d].

(** One escape character, U+EF80..U+EFFF. *)
Definition escaped (u : bytes) : Prop :=
  ∃ b c, u = [0xEE; b; c] ∧ 0xBE <= b <= 0xBF ∧ 0x80 <= c <= 0xBF.

(** The escape character of one byte. *)
Definition esc1 (b : Z) : bytes := [0xEE; if 0xC0 <=? b then 0xBF else 0xBE; 0x80 + b mod 64].

(** [esc_rel s e]: [e] is the escape of [s]. *)
Inductive esc_rel : bytes → bytes → Prop :=
| esc_nil : esc_rel [] []
| esc_copy u s e : utf8 u → ¬ escaped u → esc_rel s e → esc_rel (u ++ s) (u ++ e)
| esc_char u s e : escaped u → esc_rel s e → esc_rel (u ++ s) (mjoin (esc1 <$> u) ++ e)
| esc_byte b s e : 0x80 <= b < 256 → (∀ u r, b :: s = u ++ r → ¬ utf8 u) →
    esc_rel s e → esc_rel (b :: s) (esc1 b ++ e).

(** ** Lemmas *)

Lemma cont_spec c : 0 <= c < 256 → cont c = (0x80 <=? c) && (c <=? 0xBF).
Proof. apply land_cont. Qed.

(** Expose the first cells of the string and evaluate the reads. *)
Ltac read_cells := unfold rd in *; cbn [app lookup list_lookup mbind option_bind] in *.

(** Split every guard of the decoder, then decide by arithmetic. *)
Ltac split_guards :=
  repeat (first
    [ progress cbn [negb andb orb] in *
    | progress simplify_eq
    | match goal with
      | |- context [if ?b then _ else _] => let E := fresh "E" in destruct b eqn:E
      | H : context [if ?b then _ else _] |- _ => let E := fresh "E" in destruct b eqn:E
      end; zify_bools; try lia ]).

Lemma utf8_seq_unit u r : utf8 u → CStr (u ++ r) → utf8_seq (u ++ r) = Some (length u).
Proof.
  intros Hu Hs. destruct Hu; unfold utf8_seq; read_cells;
    rewrite ?cont_spec by lia; split_guards; try done; lia.
Qed.

Lemma utf8_seq_total s : CStr s → s ≠ [] →
  ∃ n, utf8_seq s = Some n ∧ (n ≠ 0%nat → utf8 (take n s) ∧ (n <= length s)%nat).
Proof.
  intros Hs Hne. unfold utf8_seq.
  destruct s as [|a s]; [done|]. apply CStr_cons in Hs as [Ha Hs].
  destruct s as [|b s]; [|apply CStr_cons in Hs as [Hb Hs];
    destruct s as [|c s]; [|apply CStr_cons in Hs as [Hc Hs];
      destruct s as [|d s]; [|apply CStr_cons in Hs as [Hd Hs]]]];
    read_cells; rewrite ?cont_spec by lia;
    split_guards; eexists; (split; [reflexivity|]); intros Hn; try done;
    cbn [take length]; (split; [constructor|]); lia.
Qed.

Lemma utf8_seq_zero s : CStr s → utf8_seq s = Some 0%nat → ∀ u r, s = u ++ r → ¬ utf8 u.
Proof.
  intros Hs H u r -> Hu. rewrite utf8_seq_unit in H by done. destruct Hu; done.
Qed.

Lemma is_escape_char_total s : CStr s → s ≠ [] →
  ∃ b : bool, is_escape_char s = Some b ∧
    if b then (3 <= length s)%nat ∧ escaped (take 3 s)
    else ∀ u r, s = u ++ r → ¬ escaped u.
Proof.
  intros Hs Hne. unfold is_escape_char.
  assert (Hno : ∀ a l, s = a :: l → a ≠ 0xEE → ∀ u r, s = u ++ r → ¬ escaped u).
  { intros a l -> Hn u r E (b & c & -> & _). simpl in E. congruence. }
  destruct s as [|a s]; [done|]. apply CStr_cons in Hs as [Ha Hs]. read_cells.
  destruct (Z.eqb_spec a 0xEE) as [->|]; [|exists false; split; [done|by eapply Hno]].
  clear Hno. destruct s as [|b s]; read_cells.
  { exists false. split; [done|]. intros u r E (?&?&->&_). done. }
  apply CStr_cons in Hs as [Hb Hs].
  destruct ((b =? 0xBE) || (b =? 0xBF)) eqn:E.
  2:{ exists false. split; [done|]. zify_bools.
      intros u r Eq (b' & c' & -> & Hr & _). simplify_eq/=. lia. }
  apply orb_true_iff in E. rewrite !Z.eqb_eq in E.
  destruct s as [|c s]; read_cells.
  { exists false. split; [done|]. intros u r Eq (?&?&->&_). done. }
  apply CStr_cons in Hs as [Hc _]. rewrite cont_spec by lia. eexists; split; [done|].
  destruct ((0x80 <=? c) && (c <=? 0xBF)) eqn:Ec.
  - zify_bools; split; simpl; try lia; exists b, c; repeat split; lia.
  - apply andb_false_iff in Ec. rewrite !Z.leb_gt in Ec.
    intros u r Eq (b' & c' & -> & _ & Hr). simplify_eq/=. lia.
Qed.

Lemma escaped_utf8 u : escaped u → utf8 u.
Proof. intros (b & c & -> & Hb & Hc). constructor; lia. Qed.

Lemma esc1_escaped b : 0x80 <= b < 256 → escaped (esc1 b).
Proof.
  intros Hb. exists (if 0xC0 <=? b then 0xBF else 0xBE), (0x80 + b mod 64).
  pose proof (Z.mod_pos_bound b 64). repeat split; [..|lia|lia]; by destruct (0xC0 <=? b).
Qed.

Lemma escaped_bytes u : escaped u → Forall (λ b, 0x80 <= b < 256) u.
Proof. intros (b & c & -> & Hb & Hc). repeat constructor; lia. Qed.

Lemma utf8_CStr u : utf8 u → CStr u.
Proof. destruct 1; repeat constructor; lia. Qed.

Lemma utf8_length u : utf8 u → (1 <= length u <= 4)%nat.
Proof. destruct 1; simpl; lia. Qed.

(** Escaping [n] known bytes either stores their escapes or overflows, and it
    overflows exactly when they do not fit. *)
Lemma escape_bytes_spec u r out cap : Forall (λ b, 0x80 <= b < 256) u → u ≠ [] →
  escape_bytes (length u) (u ++ r) out cap =
    Some (if len out + 3 * len u <? cap then Go r (out ++ mjoin (esc1 <$> u)) else Overflow).
Proof.
  revert out. induction u as [|b u IH]; intros out Hu Hne; [done|].
  apply Forall_cons in Hu as [Hb Hu]. cbn [length escape_bytes app].
  change (rd (b :: (u ++ r)) 0) with (Some b). cbn [mbind option_bind].
  change (drop 1 (b :: u ++ r)) with (u ++ r). rewrite lor_80_low6 by lia.
  change [0xEE; _; _] with (esc1 b). rewrite fmap_cons, join_cons.
  destruct (Z.leb_spec cap (len out + 3)).
  { destruct (Z.ltb_spec (len out + 3 * Z.of_nat (S (length u))) cap); [lia|done]. }
  destruct (decide (u = [])) as [->|Hu0].
  - cbn [length escape_bytes app]. rewrite app_nil_r.
    by destruct (Z.ltb_spec (len out + 3 * Z.of_nat 1) cap); [|lia].
  - rewrite IH by done. rewrite app_assoc, length_app. cbn [length esc1].
    replace (Z.of_nat (length out + 3) + 3 * len u)
      with (len out + 3 * Z.of_nat (S (length u))) by lia. done.
Qed.

(** One turn of the loop consumes a unit [u] and stores [e1], or overflows. *)
Definition turn (u r e1 : bytes) : Prop :=
  u ≠ [] ∧ (∀ e, esc_rel r e → esc_rel (u ++ r) (e1 ++ e)) ∧
  ∀ f out cap, escape_loop (S f) (u ++ r) out cap =
    if len out + len e1 <? cap then escape_loop f r (out ++ e1) cap else Some (-1, []).

Lemma loop_head a s f out cap : a ≠ 0 →
  escape_loop (S f) (a :: s) out cap =
    (n ← utf8_seq (a :: s);
     esc ← (if Nat.eqb n 3 then is_escape_char (a :: s) else Some false);
     if negb (Nat.eqb n 0) && negb esc then
       if cap <=? len out + Z.of_nat n then Some (-1, [])
       else escape_loop f (drop n (a :: s)) (out ++ take n (a :: s)) cap
     else
       fl ← escape_bytes (if Nat.eqb n 0 then 1%nat else n) (a :: s) out cap;
       match fl with
       | Go s' out' => escape_loop f s' out' cap
       | Overflow => Some (-1, [])
       end).
Proof.
  intros Ha. cbn [escape_loop]. change (rd (a :: s) 0) with (Some a). cbn [mbind option_bind].
  by destruct (Z.eqb_spec a 0).
Qed.

Lemma join_esc1_length u : length (mjoin (esc1 <$> u)) = (3 * length u)%nat.
Proof.
  induction u as [|b u IH]; [done|].
  rewrite fmap_cons, join_cons, length_app, IH. simpl. lia.
Qed.

Lemma turn_byte a s : 0x80 <= a < 256 → utf8_seq (a :: s) = Some 0%nat → CStr (a :: s) →
  turn [a] s (esc1 a).
Proof.
  intros Ha E0 Hs. split; [done|]. split.
  { intros e He. apply esc_byte; [done|by apply utf8_seq_zero|done]. }
  intros f out cap. cbn [app]. rewrite loop_head, E0 by lia.
  cbn [mbind option_bind Nat.eqb negb andb].
  pose proof (escape_bytes_spec [a] s out cap) as H. cbn [length app] in H.
  rewrite H by (done || by apply Forall_singleton). cbn [mbind option_bind].
  change (mjoin (esc1 <$> [a])) with (esc1 a).
  change (3 * Z.of_nat 1) with (len (esc1 a)). by destruct (len out + len (esc1 a) <? cap).
Qed.

Lemma turn_char u s : escaped u → CStr (u ++ s) → turn u s (mjoin (esc1 <$> u)).
Proof.
  intros Hu Hs. split; [by destruct Hu as (?&?&->&_)|].
  split; [intros; by apply esc_char|]. intros f out cap.
  assert (H3 : length u = 3%nat) by by destruct Hu as (?&?&->&_).
  assert (He : is_escape_char (u ++ s) = Some true).
  { destruct (is_escape_char_total (u ++ s)) as ([] & ? & Hb); [done|by destruct u|done|].
    exfalso. by eapply Hb. }
  pose proof (escape_bytes_spec u s out cap (escaped_bytes _ Hu)) as H.
  specialize (H ltac:(by destruct u)). rewrite H3 in H.
  pose proof (utf8_seq_unit u s (escaped_utf8 _ Hu) Hs) as Hq. rewrite H3 in Hq.
  destruct u as [|a u]; [done|]. apply CStr_cons in Hs as [? _]. cbn [app] in *.
  rewrite loop_head, Hq by lia. cbn [mbind option_bind Nat.eqb]. rewrite He.
  cbn [mbind option_bind negb andb]. rewrite H. cbn [mbind option_bind].
  rewrite join_esc1_length. rewrite H3.
  change (3 * Z.of_nat 3) with 9. change (Z.of_nat (3 * 3)) with 9. by destruct (len out + 9 <? cap).
Qed.

Lemma turn_copy u s : utf8 u → ¬ escaped u → CStr (u ++ s) → turn u s u.
Proof.
  intros Hu Hne Hs. pose proof (utf8_length u Hu) as Hl. split; [destruct u; simpl in Hl; [lia|done]|].
  split; [intros; by apply esc_copy|]. intros f out cap.
  pose proof (utf8_seq_unit u s Hu Hs) as Hq.
  assert (He : (if Nat.eqb (length u) 3 then is_escape_char (u ++ s) else Some false) = Some false).
  { destruct (Nat.eqb_spec (length u) 3) as [H3|]; [|done].
    destruct (is_escape_char_total (u ++ s)) as ([] & ? & Hb); [done|by destruct u| |done].
    destruct Hb as [_ Hb]. by rewrite take_app_len in Hb. }
  assert (Hd : drop (length u) (u ++ s) = s) by by apply drop_app_len.
  assert (Ht : take (length u) (u ++ s) = u) by by apply take_app_len.
  remember (length u) as n eqn:En. destruct u as [|a u]; [simpl in *; lia|].
  apply CStr_cons in Hs as [? _]. cbn [app] in *. rewrite loop_head, Hq by lia.
  cbn [mbind option_bind]. rewrite He, Hd, Ht. cbn [mbind option_bind].
  destruct (Nat.eqb_spec n 0); [lia|]. cbn [negb andb].
  destruct (Z.leb_spec cap (len out + Z.of_nat n)), (Z.ltb_spec (len out + Z.of_nat n) cap);
    done || lia.
Qed.

Lemma turn_total t : CStr t → t ≠ [] → ∃ u r e1, t = u ++ r ∧ turn u r e1.
Proof.
  intros Hs Hne. destruct (utf8_seq_total _ Hs Hne) as (n & En & Hn).
  destruct (decide (n = 0%nat)) as [->|Hn0].
  - destruct t as [|a s]; [done|]. exists [a], s, (esc1 a). split; [done|].
    apply turn_byte; [|done|done]. apply CStr_cons in Hs as Ha. split; [|lia].
    destruct (Z.le_gt_cases 0x80 a); [done|].
    exfalso. apply (utf8_seq_zero _ Hs En [a] s eq_refl). constructor. lia.
  - destruct (Hn Hn0) as [Hu Hlen]. rewrite <- (take_drop n t) in Hs.
    destruct (is_escape_char_total (take n t ++ drop n t)) as (b & Eb & Hb);
      [done|by rewrite take_drop|].
    exists (take n t), (drop n t). destruct b.
    + destruct Hb as [Hb3 Hesc]. eexists. split; [by rewrite take_drop|]. apply turn_char; [|done].
      rewrite take_drop in Hesc. replace n with 3%nat; [done|].
      pose proof (utf8_seq_unit (take 3 t) (drop 3 t) (escaped_utf8 _ Hesc)) as H.
      rewrite take_drop in H, Hs. rewrite H in En by done. simplify_eq.
      rewrite take_drop in Hb3. rewrite length_take. lia.
    + exists (take n t). split; [by rewrite take_drop|]. apply turn_copy; [done| |done].
      by apply (Hb _ (drop n t)).
Qed.

Lemma escape_loop_spec fuel s : CStr s → (length s < fuel)%nat →
  ∃ e, esc_rel s e ∧ ∀ out cap, len out < cap →
    escape_loop fuel s out cap =
      Some (if len out + len e <? cap then (len out + len e, out ++ e) else (-1, [])).
Proof.
  revert s. induction fuel as [|f IH]; intros s Hs Hf; [lia|].
  destruct (decide (s = [])) as [->|Hne].
  - exists []. split; [constructor|]. intros out cap Ho. cbn. rewrite app_nil_r, !Z.add_0_r.
    destruct (Z.ltb_spec (len out) cap); [done|lia].
  - destruct (turn_total s Hs Hne) as (u & r & e1 & -> & Hu & Hrel & Hstep).
    apply CStr_app in Hs as [_ Hr]. rewrite length_app in Hf.
    destruct (IH r Hr) as (e & He & Hl); [destruct u; simpl in *; [done|lia]|].
    exists (e1 ++ e). split; [by apply Hrel|]. intros out cap Ho. rewrite Hstep, !length_app.
    destruct (Z.ltb_spec (len out + len e1) cap).
    + rewrite Hl by (rewrite length_app; lia). rewrite length_app, <- app_assoc.
      replace (Z.of_nat (length out + length e1) + len e)
        with (len out + Z.of_nat (length e1 + length e)) by lia. done.
    + destruct (Z.ltb_spec (len out + Z.of_nat (length e1 + length e)) cap); [lia|done].
Qed.

(** *** Unescaping *)

Lemma unescape_copy c s f out cap : CStr (c :: s) → (∀ u r, c :: s = u ++ r → ¬ escaped u) →
  unescape_loop (S f) (c :: s) out cap =
    if cap <=? len out + 1 then Some (-1, []) else unescape_loop f s (out ++ [c]) cap.
Proof.
  intros Hs Hn. cbn [unescape_loop]. change (rd (c :: s) 0) with (Some c). cbn [mbind option_bind].
  destruct (Z.eqb_spec c 0) as [->|_]; [apply CStr_cons in Hs; lia|].
  destruct (cap <=? len out + 1); [done|].
  destruct (is_escape_char_total _ Hs) as ([] & -> & Hb); [done| |done].
  exfalso. destruct Hb as [_ Hb]. by eapply (Hn _ (drop 3 (c :: s))); [by rewrite take_drop|].
Qed.

Lemma unescape_esc1 b s f out cap : 0x80 <= b < 256 → CStr s →
  unescape_loop (S f) (esc1 b ++ s) out cap =
    if cap <=? len out + 1 then Some (-1, []) else unescape_loop f s (out ++ [b]) cap.
Proof.
  intros Hb Hs. pose proof (esc1_escaped b Hb) as He.
  destruct (is_escape_char_total (esc1 b ++ s)) as ([] & E & Hx); [|done| |].
  { apply CStr_app. split; [by apply utf8_CStr, escaped_utf8|done]. }
  2:{ exfalso. by eapply Hx. }
  unfold esc1 in *. cbn [app] in *. cbn [unescape_loop].
  change (rd (0xEE :: _) 0) with (Some 0xEE). cbn [mbind option_bind].
  change (0xEE =? 0) with false. destruct (cap <=? len out + 1); [done|]. rewrite E.
  cbn [mbind option_bind]. rewrite !rd_cons. cbn. do 4 f_equal.
  pose proof (Z.mod_pos_bound b 64 ltac:(lia)).
  assert (Hm : (0x80 + b mod 64) mod 64 = b mod 64).
  { rewrite Z.add_mod, Z.mod_mod by lia. change (0x80 mod 64) with 0.
    rewrite Z.add_0_l, Z.mod_mod by lia. done. }
  destruct (Z.leb_spec 0xC0 b); cbn [Z.eqb Pos.eqb].
  - rewrite lor_C0_low6, Hm by lia. Z.to_euclidean_division_equations; lia.
  - rewrite lor_80_low6, Hm by lia. Z.to_euclidean_division_equations; lia.
Qed.

(** The bytes after the first of a sequence never start an escape character. *)
Lemma unescape_tail l s f out cap :
  Forall (λ c, 0 < c < 256 ∧ c ≠ 0xEE) l → CStr s → len out + len l < cap →
  unescape_loop (length l + f) (l ++ s) out cap = unescape_loop f s (out ++ l) cap.
Proof.
  intros Hl Hs. revert out. induction Hl as [|c l [Hc Hne] Hl IH]; intros out Ho.
  { cbn. by rewrite app_nil_r. }
  cbn [length Nat.add app]. rewrite unescape_copy.
  - simpl in Ho. destruct (Z.leb_spec cap (len out + 1)); [lia|].
    rewrite IH by (rewrite length_app; simpl; lia). by rewrite <- app_assoc.
  - apply CStr_cons. split; [done|]. apply CStr_app. split; [|done].
    eapply Forall_impl; [exact Hl|]. naive_solver.
  - intros u r E (b & c' & -> & _). simplify_eq/=.
Qed.

Lemma unescape_unit u s f out cap : utf8 u → ¬ escaped u → CStr s → len out + len u < cap →
  unescape_loop (length u + f) (u ++ s) out cap = unescape_loop f s (out ++ u) cap.
Proof.
  intros Hu Hne Hs Ho. pose proof (utf8_CStr u Hu) as Hc.
  destruct u as [|a u]; [by destruct (utf8_length _ Hu); simpl in *; lia|].
  cbn [length Nat.add app] in *. rewrite unescape_copy; [|by apply (CStr_app (a :: u))|].
  - destruct (Z.leb_spec cap (len out + 1)); [lia|].
    rewrite unescape_tail; [by rewrite <- app_assoc|..|done|rewrite length_app; simpl; lia].
    inversion Hu; subst; repeat constructor; lia.
  - intros u' r E (b & c & -> & Hb & Hc'). inversion Hu; simplify_eq/=; try lia.
    apply Hne. exists b, c. naive_solver.
Qed.

Lemma unescape_join u s f out cap : Forall (λ b, 0x80 <= b < 256) u → CStr s →
  len out + len u < cap →
  unescape_loop (length u + f) (mjoin (esc1 <$> u) ++ s) out cap = unescape_loop f s (out ++ u) cap.
Proof.
  intros Hu Hs. revert out. induction Hu as [|b u Hb Hu IH]; intros out Ho.
  { cbn. by rewrite app_nil_r. }
  cbn [length Nat.add]. rewrite fmap_cons, join_cons, <- app_assoc, unescape_esc1; [|done|].
  - simpl in Ho. destruct (Z.leb_spec cap (len out + 1)); [lia|].
    rewrite IH by (rewrite length_app; simpl; lia). by rewrite <- app_assoc.
  - apply CStr_app. split; [|done]. clear IH Ho. induction Hu as [|b' u' Hb' _ IH]; [constructor|].
    rewrite fmap_cons, join_cons. apply CStr_app. split; [|done].
    by apply utf8_CStr, escaped_utf8, esc1_escaped.
Qed.

Lemma esc_rel_units s e : esc_rel s e → ∃ us, e = mjoin us ∧ Forall utf8 us.
Proof.
  induction 1 as [|u s e Hu Hne He (us & -> & IH)|u s e Hu He (us & -> & IH)
                  |b s e Hb Hn He (us & -> & IH)].
  - by exists [].
  - exists (u :: us). by rewrite join_cons, Forall_cons.
  - exists ((esc1 <$> u) ++ us). rewrite join_app, Forall_app. split; [done|]. split; [|done].
    pose proof (escaped_bytes u Hu) as Hx. clear Hu He. induction Hx; rewrite ?fmap_cons; constructor;
      [by apply escaped_utf8, esc1_escaped | done].
  - exists (esc1 b :: us). rewrite join_cons, Forall_cons.
    split; [done|]. split; [by apply escaped_utf8, esc1_escaped | done].
Qed.

Lemma units_CStr us : Forall utf8 us → CStr (mjoin us).
Proof.
  induction 1; [constructor|]. rewrite join_cons. apply CStr_app. auto using utf8_CStr.
Qed.

Lemma esc_rel_CStr s e : esc_rel s e → CStr e.
Proof. intros H. destruct (esc_rel_units _ _ H) as (us & -> & Hu). by apply units_CStr. Qed.

Lemma unescape_loop_spec s e : esc_rel s e → ∀ f out cap, len out + len s < cap →
  unescape_loop (length s + S f) e out cap = Some (len out + len s, out ++ s).
Proof.
  induction 1 as [|u s e Hu Hne He IH|u s e Hu He IH|b s e Hb Hn He IH];
    intros f out cap Ho.
  - cbn. by rewrite app_nil_r, Z.add_0_r.
  - rewrite length_app in *. rewrite <- Nat.add_assoc, unescape_unit, IH; try done.
    + rewrite length_app, <- app_assoc. do 2 f_equal. lia.
    + rewrite length_app. lia.
    + by eapply esc_rel_CStr.
    + lia.
  - rewrite length_app in *. rewrite <- Nat.add_assoc, unescape_join, IH.
    + rewrite length_app, <- app_assoc. do 2 f_equal. lia.
    + rewrite length_app. lia.
    + by apply escaped_bytes.
    + by eapply esc_rel_CStr.
    + lia.
  - cbn [length] in *. change (S (length s) + S f)%nat with (S (length s + S f)).
    rewrite unescape_esc1, IH; [|rewrite length_app; simpl; lia|done|by eapply esc_rel_CStr].
    destruct (Z.leb_spec cap (len out + 1)); [lia|].
    rewrite length_app, <- app_assoc. simpl. do 2 f_equal. lia.
Qed.

Lemma unescape_fuel : ∀ f g s out cap r, unescape_loop f s out cap = Some r → (f <= g)%nat →
  unescape_loop g s out cap = Some r.
Proof.
  induction f as [|f IH]; intros g s out cap r H Hg; [done|].
  destruct g as [|g]; [lia|]. cbn [unescape_loop] in *.
  destruct (rd s 0) as [c|]; [|done]. cbn [mbind option_bind] in *.
  destruct (c =? 0); [done|]. destruct (cap <=? len out + 1); [done|].
  destruct (is_escape_char s) as [[]|]; cbn [mbind option_bind] in *; [| |done].
  - destruct (rd s 1), (rd s 2); cbn [mbind option_bind] in *; try done. eapply IH; [done|lia].
  - eapply IH; [done|lia].
Qed.

Lemma esc_rel_length s e : esc_rel s e → (length s <= length e <= 3 * length s)%nat.
Proof.
  induction 1 as [|u s e Hu _ _ IH|u s e Hu _ IH|b s e Hb _ _ IH]; simpl.
  - lia.
  - pose proof (utf8_length u Hu). rewrite !length_app. lia.
  - rewrite !length_app, join_esc1_length. lia.
  - lia.
Qed.

(** ** Properties *)

(** C14 Every name survives the trip to JavaScript and back: with the room
    ANYFS_NAME_ESCAPE_MAX gives, the escape of a NUL-free byte string succeeds,
    and unescaping its result gives the string back byte for byte. *)
Theorem name_roundtrip s cap cap' :
  CStr s → 3 * len s + 1 <= cap → len s < cap' →
  ∃ e, anyfs_name_escape s true cap = Some (len e, e) ∧
       anyfs_name_unescape e true cap' = Some (len s, s).
Proof.
  intros Hs Hcap Hcap'. destruct (escape_loop_spec (S (length s)) s Hs) as (e & He & Hl); [lia|].
  pose proof (esc_rel_length _ _ He) as Hlen. exists e. unfold anyfs_name_escape, anyfs_name_unescape.
  destruct (Z.eqb_spec cap 0), (Z.eqb_spec cap' 0); [lia..|]. cbn [negb orb]. split.
  - rewrite Hl by (simpl; lia). change (len [] + len e) with (len e).
    destruct (Z.ltb_spec (len e) cap); [reflexivity|lia].
  - eapply unescape_fuel; [apply (unescape_loop_spec s e He 0 []); simpl; lia | lia].
Qed.

Lemma name_roundtrip_witness :
  let s := [0x61; 0xFF; 0xEE; 0xBE; 0x85; 0xC3; 0xA9] in
  ∃ e, anyfs_name_escape s true 22 = Some (len e, e) ∧
       anyfs_name_unescape e true 8 = Some (7, s).
Proof. apply name_roundtrip; [solve_cstr | simpl; lia | simpl; lia]. Defined.

(** The escape computes exactly the specified text: the units that are
    strict UTF-8 and not escape characters are copied, every other byte becomes
    one escape character; the result is stored when it fits with its NUL and
    otherwise the call returns -1 with an empty [out].  The run never reads past
    the terminator and always ends. *)
Theorem name_escape_refines s cap : CStr s → 0 < cap →
  ∃ e, esc_rel s e ∧
    anyfs_name_escape s true cap = Some (if len e <? cap then (len e, e) else (-1, [])).
Proof.
  intros Hs Hcap. destruct (escape_loop_spec (S (length s)) s Hs) as (e & He & Hl); [lia|].
  exists e. split; [done|]. unfold anyfs_name_escape.
  destruct (Z.eqb_spec cap 0); [lia|]. cbn [negb orb].
  rewrite Hl by (simpl; lia). reflexivity.
Qed.

Lemma name_escape_refines_witness :
  ∃ e, esc_rel [0xFF; 0x41] e ∧
    anyfs_name_escape [0xFF; 0x41] true 4 = Some (if len e <? 4 then (len e, e) else (-1, [])).
Proof. apply name_escape_refines; [solve_cstr | lia]. Defined.

Example escape_ex : anyfs_name_escape [0x61; 0xFF] true 16 = Some (4, [0x61; 0xEE; 0xBF; 0xBF]).
Proof. reflexivity. Qed.

End Name.
