(* ===== verification/Strbuf.v ===== *)
(** * Strbuf

    src/core/anyfs_strbuf.c: the growable string buffer.  Memory is a list of
    [cap] cells; the cells a realloc adds are zeros (no theorem depends on
    their value).  [size_t] arithmetic wraps at 64 bits. *)
From S2P Require Import Prelude.

Module Strbuf.

Record AnyfsStrbuf := mk_sb { buf : bytes; sb_len : Z; cap : Z; err : bool }.

Definition anyfs_strbuf_init : AnyfsStrbuf := mk_sb [] 0 0 false.

Definition anyfs_strbuf_free (sb : AnyfsStrbuf) : AnyfsStrbuf := mk_sb [] 0 0 false.

(** The buffer handed to the caller (its memory and the stored length), or
    NULL after an error. *)
Definition anyfs_strbuf_detach (sb : AnyfsStrbuf) : option (bytes * Z) * AnyfsStrbuf :=
  if err sb then (None, anyfs_strbuf_free sb)
  else (Some (buf sb, sb_len sb), mk_sb [] 0 0 (err sb)).

(** [while (ncap - len <= need) ncap *= 2;] *)
Fixpoint grow (fuel : nat) (ncap l need : Z) : option Z :=
  match fuel with
  | O => None
  | S f => if u64 (ncap - l) <=? need then grow f (u64 (ncap * 2)) l need else Some ncap
  end.

(** [realloc_ok] tells whether realloc succeeds for a size. *)
Definition strbuf_reserve (realloc_ok : Z → bool) (sb : AnyfsStrbuf) (need : Z) :
    option (Z * AnyfsStrbuf) :=
  if err sb then Some (-1, sb)
  else if need <? u64 (cap sb - sb_len sb) then Some (0, sb)
  else
    ncap ← grow 64 (if cap sb =? 0 then 256 else cap sb) (sb_len sb) need;
    if realloc_ok ncap then
      Some (0, mk_sb (buf sb ++ replicate (Z.to_nat (ncap - cap sb)) 0) (sb_len sb) ncap (err sb))
    else Some (-1, mk_sb (buf sb) (sb_len sb) (cap sb) true).

(** vsnprintf of [txt] at [buf + len] in [cap - len] bytes. *)
Definition store (mem : bytes) (off size : Z) (txt : bytes) : bytes :=
  let t := take (Z.to_nat (size - 1)) txt ++ [0] in
  take (Z.to_nat off) mem ++ t ++ drop (Z.to_nat off + length t) mem.

(** [txt] is what the format expands to; [None] when vsnprintf reports an
    error. *)
Definition anyfs_strbuf_printf (realloc_ok : Z → bool) (sb : AnyfsStrbuf)
    (txt : option bytes) : option AnyfsStrbuf :=
  if err sb then Some sb
  else match txt with
  | None => Some (mk_sb (buf sb) (sb_len sb) (cap sb) true)
  | Some t =>
      r ← strbuf_reserve realloc_ok sb (len t);
      let '(rc, sb') := r in
      if rc <? 0 then Some sb'
      else Some (mk_sb (store (buf sb') (sb_len sb') (cap sb' - sb_len sb') t)
                       (sb_len sb' + len t) (cap sb') (err sb'))
  end.

(** ** Invariant

    The stored text [t] is followed by a NUL inside the allocation. *)
Record holds (sb : AnyfsStrbuf) (t : bytes) : Prop := {
  h_err : err sb = false;
  h_len : sb_len sb = len t;
  h_cap : cap sb = len (buf sb);
  h_size : cap sb = 0 ∨ 256 <= cap sb < 2 ^ 63;
  h_mem : t = [] ∧ buf sb = [] ∨ ∃ r, buf sb = t ++ 0 :: r }.

(** The loop ends: it doubles at most until the text fits, far below 2^64. *)
Lemma grow_spec fuel ncap l need :
  0 <= l <= ncap → 0 <= need → l + need < 2 ^ 62 → 256 <= ncap < 2 ^ 63 →
  (l + need < ncap * 2 ^ Z.of_nat fuel) →
  ∃ n, grow (S fuel) ncap l need = Some n ∧ l + need < n ∧ ncap <= n < 2 ^ 63.
Proof.
  revert ncap. induction fuel as [|f IH]; intros ncap Hl Hn Hs Hc Hf;
    cbn [grow]; rewrite (u64_small (ncap - l)) by lia;
    (destruct (Z.leb_spec (ncap - l) need); [|exists ncap; repeat split; lia]).
  - change (2 ^ Z.of_nat 0) with 1 in Hf. lia.
  - rewrite (u64_small (ncap * 2)) by lia. destruct (IH (ncap * 2)) as (n & E & H1 & H2); try lia.
    + rewrite Nat2Z.inj_succ, Z.pow_succ_r in Hf by lia. lia.
    + exists n. repeat split; [done|lia..].
Qed.

Lemma store_spec t r txt size off :
  off = len t → len txt < size → size <= len r + 1 →
  ∃ r', store (t ++ 0 :: r) off size txt = (t ++ txt) ++ 0 :: r'.
Proof.
  intros -> Ht Hr. unfold store. rewrite (take_ge txt) by lia.
  exists (drop (length txt) r).
  rewrite Nat2Z.id, take_app_len by done. rewrite <- !app_assoc. do 2 f_equal. simpl. f_equal.
  rewrite drop_app_ge by lia. rewrite length_app. cbn [length].
  replace (length t + (length txt + 1) - length t)%nat with (S (length txt)) by lia. done.
Qed.

Lemma holds_mem sb t : holds sb t → len t <= cap sb ∧ (cap sb ≠ 0 → ∃ r, buf sb = t ++ 0 :: r).
Proof.
  intros [He Hl Hc Hz [[-> Hb]|[r Hb]]]; rewrite Hb in *; rewrite ?length_app in Hc; simpl in *.
  - split; [lia|]. lia.
  - split; [lia|]. eauto.
Qed.

(** Reserving room keeps the text and makes the room. *)
Lemma strbuf_reserve_ok ok sb t need :
  holds sb t → 0 <= need → len t + need < 2 ^ 62 → (∀ n, ok n = true) →
  ∃ n r, strbuf_reserve ok sb need = Some (0, mk_sb (t ++ 0 :: r) (len t) n false) ∧
    len t + need < n ∧ n = len (t ++ 0 :: r) ∧ 256 <= n < 2 ^ 63.
Proof.
  intros Hh Hn Hs Hok. destruct (holds_mem _ _ Hh) as [Hle Hnz]. destruct Hh as [He Hl Hc Hz Hm].
  unfold strbuf_reserve. rewrite He, Hl, (u64_small (cap sb - len t)) by lia.
  destruct (Z.ltb_spec need (cap sb - len t)) as [Hroom|Hroom].
  - destruct Hnz as [r Hb]; [lia|]. exists (cap sb), r. rewrite <- Hb.
    split; [|repeat split; lia]. by destruct sb; simpl in *; subst.
  - destruct (grow_spec 63 (if cap sb =? 0 then 256 else cap sb) (len t) need)
      as (n & -> & H1 & H2); try (destruct (Z.eqb_spec (cap sb) 0); lia).
    cbn [mbind option_bind]. rewrite Hok.
    assert (Hn256 : 256 <= n) by (destruct (Z.eqb_spec (cap sb) 0); lia).
    assert (Hcap : cap sb <= n) by (destruct (Z.eqb_spec (cap sb) 0); lia).
    set (g := Z.to_nat (n - cap sb)) in *.
    assert (∃ r, buf sb ++ replicate g 0 = t ++ 0 :: r) as [r Hr].
    { destruct Hm as [[-> Hb]|[r Hb]]; rewrite Hb in *.
      - destruct g as [|g'] eqn:Eg; [subst g; simpl in *; lia|]. by exists (replicate g' 0).
      - exists (r ++ replicate g 0). by rewrite <- app_assoc. }
    exists n, r. rewrite <- Hr, length_app, length_replicate. repeat split; [done|lia..].
Qed.

Lemma printf_ok ok sb t txt :
  holds sb t → len t + len txt < 2 ^ 62 → (∀ n, ok n = true) →
  ∃ sb', anyfs_strbuf_printf ok sb (Some txt) = Some sb' ∧ holds sb' (t ++ txt) ∧ cap sb' ≠ 0.
Proof.
  intros Hh Hs Hok. unfold anyfs_strbuf_printf. rewrite (h_err _ _ Hh).
  destruct (strbuf_reserve_ok ok sb t (len txt)) as (n & r & -> & H1 & H2 & H3); [done|lia|done|done|].
  cbn. rewrite length_app in H2. simpl in H2.
  destruct (store_spec t r txt (n - len t) (len t)) as [r' Hr']; [done|lia|lia|].
  eexists. split; [reflexivity|]. rewrite Hr'. split; [|simpl; lia].
  split; simpl; rewrite ?length_app; simpl.
  - done.
  - lia.
  - apply (f_equal length) in Hr'. unfold store in Hr'. rewrite (take_ge txt) in Hr' by lia.
    rewrite !length_app, length_take, length_drop, !length_app in Hr'. simpl in Hr'. lia.
  - lia.
  - right. by exists r'.
Qed.

(** A run of printf calls. *)
Fixpoint printfs (ok : Z → bool) (sb : AnyfsStrbuf) (txts : list bytes) : option AnyfsStrbuf :=
  match txts with
  | [] => Some sb
  | t :: ts => sb' ← anyfs_strbuf_printf ok sb (Some t); printfs ok sb' ts
  end.

Lemma printfs_ok ok sb t txts :
  holds sb t → len t + len (mjoin txts) < 2 ^ 62 → (∀ n, ok n = true) →
  ∃ sb', printfs ok sb txts = Some sb' ∧ holds sb' (t ++ mjoin txts) ∧
    (txts ≠ [] ∨ cap sb ≠ 0 → cap sb' ≠ 0).
Proof.
  intros Hh Hs Hok. revert sb t Hh Hs. induction txts as [|x xs IH]; intros sb t Hh Hs.
  - exists sb. rewrite app_nil_r. split; [done|]. split; [done|]. by intros [?|?].
  - rewrite join_cons, length_app in *. destruct (printf_ok ok sb t x) as (sb1 & E1 & H1 & Hz); [done|lia|done|].
    destruct (IH sb1 (t ++ x)) as (sb2 & E2 & H2 & Hz2); [done|rewrite length_app; lia|].
    exists sb2. cbn [printfs]. rewrite E1. cbn. rewrite E2, app_assoc. auto.
Qed.

(** ** Properties *)

(** Whatever is printed into a fresh buffer comes out of detach as the
    concatenation of the texts, NUL-terminated inside its allocation, and the
    buffer is empty again; growing never loops forever nor wraps. *)
Theorem strbuf_concat ok txts :
  (∀ n, ok n = true) → len (mjoin txts) < 2 ^ 62 → txts ≠ [] →
  ∃ sb mem, printfs ok anyfs_strbuf_init txts = Some sb ∧
    anyfs_strbuf_detach sb = (Some (mem, len (mjoin txts)), anyfs_strbuf_init) ∧
    ∃ r, mem = mjoin txts ++ 0 :: r.
Proof.
  intros Hok Hs Hne.
  assert (H0 : holds anyfs_strbuf_init []) by (split; try done; [by left|by left]).
  destruct (printfs_ok ok _ [] txts H0) as (sb & E & Hh & Hz); [simpl; lia|done|].
  exists sb, (buf sb). split; [done|]. cbn [app] in Hh.
  unfold anyfs_strbuf_detach. rewrite (h_err _ _ Hh), (h_len _ _ Hh).
  split; [done|]. apply (holds_mem _ _ Hh). auto.
Qed.

Lemma strbuf_concat_witness :
  ∃ sb mem, printfs (λ _, true) anyfs_strbuf_init [bs "a "; bs "b"] = Some sb ∧
    anyfs_strbuf_detach sb = (Some (mem, 3), anyfs_strbuf_init) ∧
    ∃ r, mem = mjoin [bs "a "; bs "b"] ++ 0 :: r.
Proof. apply (strbuf_concat (λ _, true) [bs "a "; bs "b"]); [done | simpl; lia | done]. Defined.

(** Errors are sticky: once an allocation or a format has failed, later
    printf calls change nothing and detach returns NULL. *)
Theorem strbuf_error_sticky ok sb txts :
  err sb = true →
  printfs ok sb txts = Some sb ∧ anyfs_strbuf_detach sb = (None, anyfs_strbuf_init).
Proof.
  intros He. split.
  - induction txts as [|t ts IH]; [done|]. cbn [printfs]. unfold anyfs_strbuf_printf.
    by rewrite He.
  - unfold anyfs_strbuf_detach. by rewrite He.
Qed.

Lemma strbuf_error_sticky_witness :
  printfs (λ _, true) (mk_sb [] 0 0 true) [bs "x"] = Some (mk_sb [] 0 0 true) ∧
  anyfs_strbuf_detach (mk_sb [] 0 0 true) = (None, anyfs_strbuf_init).
Proof. apply strbuf_error_sticky. reflexivity. Defined.

End Strbuf.
