(* ===== verification/Jsonw.v ===== *)
(** * Jsonw

    src/core/jsonw.h: the bounded JSON writer of the JavaScript bridge.
    [buf] is the initialised prefix of the caller's buffer. *)
From S2P Require Import Prelude CLib.
Import CLib.

Module Jsonw.

Record JsonW := mk_jw { buf : bytes; cap : Z; jw_len : Z; overflow : bool }.

Definition jw_init (cap : Z) : JsonW := mk_jw [] cap 0 false.

Definition jw_putc (w : JsonW) (c : Z) : JsonW :=
  if jw_len w + 1 <? cap w
  then mk_jw (buf w ++ [c]) (cap w) (jw_len w + 1) (overflow w)
  else mk_jw (buf w) (cap w) (jw_len w + 1) true.

Definition jw_puts (w : JsonW) (s : bytes) : JsonW := foldl jw_putc w s.

(** What one character of a string expands to. *)
Definition escape_char (c : Z) : bytes :=
  if (c =? 34) || (c =? 92) then [92; c]
  else if c =? 10 then [92; 110]
  else if c =? 13 then [92; 114]
  else if c =? 9 then [92; 116]
  else if c <? 0x20 then bs "\u" ++ fmt_x 4 c
  else [c].

Definition jw_escape_str (w : JsonW) (s : bytes) : JsonW :=
  let w := jw_putc w 34 in
  let w := foldl (λ w c, jw_puts w (escape_char c)) w s in
  jw_putc w 34.

Definition jw_int (w : JsonW) (v : Z) : JsonW := jw_puts w (fmt_d v).
Definition jw_uint (w : JsonW) (v : Z) : JsonW := jw_puts w (fmt_u v).

Definition jw_comma (w : JsonW) (trailing_comma : bool) : JsonW :=
  if trailing_comma then jw_putc w 44 else w.

Definition jw_kv_str (w : JsonW) (k v : bytes) (trailing_comma : bool) : JsonW :=
  jw_comma (jw_escape_str (jw_putc (jw_escape_str w k) 58) v) trailing_comma.
Definition jw_kv_int (w : JsonW) (k : bytes) (v : Z) (trailing_comma : bool) : JsonW :=
  jw_comma (jw_int (jw_putc (jw_escape_str w k) 58) v) trailing_comma.
Definition jw_kv_uint (w : JsonW) (k : bytes) (v : Z) (trailing_comma : bool) : JsonW :=
  jw_comma (jw_uint (jw_putc (jw_escape_str w k) 58) v) trailing_comma.

(** The value returned and the string left in the buffer when it fitted. *)
Definition jw_finish (w : JsonW) : Z * option bytes :=
  if overflow w || (cap w <? jw_len w + 1) then (i32 (- i32 (jw_len w + 1)), None)
  else (i32 (jw_len w), Some (buf w)).

(** ** What a program of writes denotes

    Every writer is a sequence of putc calls, so its text does not depend on
    the buffer. *)
Definition str_text (s : bytes) : bytes := 34 :: mjoin (escape_char <$> s) ++ [34].

Inductive op := Putc (c : Z) | Puts (s : bytes) | Str (s : bytes) | Int (v : Z) | Uint (v : Z)
  | KvStr (k v : bytes) (comma : bool) | KvInt (k : bytes) (v : Z) (comma : bool)
  | KvUint (k : bytes) (v : Z) (comma : bool).

Definition run_op (w : JsonW) (o : op) : JsonW :=
  match o with
  | Putc c => jw_putc w c
  | Puts s => jw_puts w s
  | Str s => jw_escape_str w s
  | Int v => jw_int w v
  | Uint v => jw_uint w v
  | KvStr k v b => jw_kv_str w k v b
  | KvInt k v b => jw_kv_int w k v b
  | KvUint k v b => jw_kv_uint w k v b
  end.

Definition comma_text (b : bool) : bytes := if b then [44] else [].
Definition text (o : op) : bytes :=
  match o with
  | Putc c => [c]
  | Puts s => s
  | Str s => str_text s
  | Int v => fmt_d v
  | Uint v => fmt_u v
  | KvStr k v b => str_text k ++ [58] ++ str_text v ++ comma_text b
  | KvInt k v b => str_text k ++ [58] ++ fmt_d v ++ comma_text b
  | KvUint k v b => str_text k ++ [58] ++ fmt_u v ++ comma_text b
  end.

Lemma puts_app w s t : jw_puts w (s ++ t) = jw_puts (jw_puts w s) t.
Proof. apply foldl_app. Qed.

Lemma putc_puts w c : jw_putc w c = jw_puts w [c].
Proof. done. Qed.

Lemma escape_str_puts w s : jw_escape_str w s = jw_puts w (str_text s).
Proof.
  unfold jw_escape_str, str_text. change (34 :: ?l ++ [34]) with ([34] ++ l ++ [34]).
  rewrite !puts_app. rewrite !putc_puts. f_equal. generalize (jw_puts w [34]).
  induction s as [|c s IH]; intros w'; [done|].
  cbn [foldl]. rewrite fmap_cons, join_cons, puts_app. apply IH.
Qed.

Lemma comma_puts w b : jw_comma w b = jw_puts w (comma_text b).
Proof. by destruct b. Qed.

Lemma run_op_puts w o : run_op w o = jw_puts w (text o).
Proof.
  destruct o; cbn [run_op text]; unfold jw_kv_str, jw_kv_int, jw_kv_uint, jw_int, jw_uint;
    rewrite ?comma_puts, ?escape_str_puts, ?putc_puts, ?puts_app; done.
Qed.

Lemma run_ops_puts w os : foldl run_op w os = jw_puts w (mjoin (text <$> os)).
Proof.
  revert w. induction os as [|o os IH]; intros w; [done|].
  cbn [foldl]. by rewrite run_op_puts, IH, fmap_cons, join_cons, puts_app.
Qed.

(** The length counts every character, stored or not. *)
Lemma puts_len s w : jw_len (jw_puts w s) = jw_len w + len s ∧ cap (jw_puts w s) = cap w.
Proof.
  revert w. induction s as [|c s IH]; intros w; simpl; [lia|]. destruct (IH (jw_putc w c)) as [H1 H2].
  unfold jw_puts in *. rewrite H1, H2. unfold jw_putc.
  destruct (jw_len w + 1 <? cap w); simpl; lia.
Qed.

Lemma puts_fits s w : jw_len w + len s < cap w →
  buf (jw_puts w s) = buf w ++ s ∧ overflow (jw_puts w s) = overflow w.
Proof.
  revert w. induction s as [|c s IH]; intros w Hs; simpl in *; [by rewrite app_nil_r|].
  assert (Hp : jw_putc w c = mk_jw (buf w ++ [c]) (cap w) (jw_len w + 1) (overflow w)).
  { unfold jw_putc. destruct (Z.ltb_spec (jw_len w + 1) (cap w)); [done|lia]. }
  destruct (IH (jw_putc w c)) as [H1 H2]; rewrite Hp in *; simpl in *; [lia|].
  unfold jw_puts in *. rewrite H1, H2. by rewrite <- app_assoc.
Qed.

Lemma finish_spec cap s : 0 <= cap → len s + 1 < 2 ^ 31 →
  jw_finish (jw_puts (jw_init cap) s) =
    if len s <? cap then (len s, Some s) else (- (len s + 1), None).
Proof.
  intros Hc Hs. unfold jw_finish. destruct (puts_len s (jw_init cap)) as [-> ->].
  cbn [jw_init jw_len Jsonw.cap]. change (0 + len s) with (len s).
  destruct (Z.ltb_spec (len s) cap).
  - destruct (puts_fits s (jw_init cap)) as [-> ->]; [simpl; lia|]. cbn.
    destruct (Z.ltb_spec cap (len s + 1)); [lia|]. rewrite i32_small by lia. done.
  - destruct (Z.ltb_spec cap (len s + 1)); [|lia]. rewrite orb_true_r.
    rewrite (i32_small (len s + 1)), i32_small by lia. done.
Qed.

(** A JSON string reader, for the round trip. *)
Definition unhex (c : Z) : option Z :=
  if (48 <=? c) && (c <=? 57) then Some (c - 48)
  else if (97 <=? c) && (c <=? 102) then Some (c - 87) else None.

Definition unescape (e : Z) : option Z :=
  if e =? 34 then Some 34 else if e =? 92 then Some 92
  else if e =? 110 then Some 10 else if e =? 114 then Some 13
  else if e =? 116 then Some 9 else None.

Fixpoint read_str (fuel : nat) (s : bytes) : option (bytes * bytes) :=
  match fuel, s with
  | S f, c :: r =>
      if c =? 34 then Some ([], r)
      else if c =? 92 then
        match r with
        | e :: r' =>
            if e =? 117 then
              match r' with
              | a :: b :: c :: d :: r'' =>
                  a ← unhex a; b ← unhex b; c ← unhex c; d ← unhex d;
                  p ← read_str f r''; Some (a * 4096 + b * 256 + c * 16 + d :: p.1, p.2)
              | _ => None
              end
            else v ← unescape e; p ← read_str f r'; Some (v :: p.1, p.2)
        | [] => None
        end
      else if c <? 32 then None
      else p ← read_str f r; Some (c :: p.1, p.2)
  | _, _ => None
  end.

(** A JSON string value at the head of the text: its bytes and the rest. *)
Definition read_json (s : bytes) : option (bytes * bytes) :=
  match s with
  | q :: r => if q =? 34 then read_str (S (length r)) r else None
  | [] => None
  end.

Lemma unhex_hexdig v : 0 <= v < 16 → unhex (hexdig v) = Some v.
Proof. intros Hv. unfold hexdig. destruct (Z.ltb_spec v 10); unfold unhex; case_ifs; f_equal; lia. Qed.

Lemma read_escape_char c f r : 0 < c < 256 →
  read_str (S f) (escape_char c ++ r) = (p ← read_str f r; Some (c :: p.1, p.2)).
Proof.
  intros Hc. unfold escape_char.
  destruct (Z.eqb_spec c 34) as [->|]; [done|]. destruct (Z.eqb_spec c 92) as [->|]; [done|].
  destruct (Z.eqb_spec c 10) as [->|]; [done|]. destruct (Z.eqb_spec c 13) as [->|]; [done|].
  destruct (Z.eqb_spec c 9) as [->|]; [done|]. cbn [orb]. destruct (Z.ltb_spec c 0x20).
  - assert (H4 : fmt_x 4 c = [48; 48; hexdig (c / 16 mod 16); hexdig (c mod 16)])
      by by_bytes c.
    assert (Hh : c / 16 mod 16 * 16 + c mod 16 = c) by by_bytes c.
    rewrite H4. cbn -[unhex hexdig Z.div Z.modulo Z.mul Z.add].
    pose proof (Z.mod_pos_bound (c / 16) 16). pose proof (Z.mod_pos_bound c 16).
    rewrite !unhex_hexdig by lia. cbn -[Z.div Z.modulo Z.mul Z.add].
    destruct (read_str f r) as [p|]; [|done]. cbn. do 3 f_equal. lia.
  - cbn [app read_str]. destruct (Z.eqb_spec c 34); [done|]. destruct (Z.eqb_spec c 92); [done|].
    destruct (Z.ltb_spec c 32); [lia|done].
Qed.

Lemma escape_char_ne c : escape_char c ≠ [].
Proof. unfold escape_char. case_ifs; done. Qed.

Lemma read_str_text s r f : CStr s → (length s < f)%nat →
  read_str f (mjoin (escape_char <$> s) ++ 34 :: r) = Some (s, r).
Proof.
  intros Hs. revert f. induction Hs as [|c s Hc Hs IH]; intros f Hf; (destruct f as [|f]; [simpl in *; lia|]).
  - done.
  - rewrite fmap_cons, join_cons, <- app_assoc, read_escape_char by done.
    rewrite IH by (simpl in *; lia). done.
Qed.

(** ** Properties *)

(** A string written as a JSON string reads back as the same bytes:
    quotes, backslashes and control characters are escaped so that no byte of
    the value can end the literal or be altered. *)
Theorem json_string_roundtrip s r : CStr s →
  read_json (text (Str s) ++ r) = Some (s, r).
Proof.
  intros Hs. cbn [text]. unfold str_text. rewrite <- app_comm_cons. cbn [read_json Z.eqb Pos.eqb].
  rewrite <- app_assoc. apply read_str_text; [done|]. rewrite !length_app. simpl.
  assert (length s <= length (mjoin (escape_char <$> s)))%nat; [|lia].
  clear. induction s as [|c s IH]; [done|].
  rewrite fmap_cons, join_cons, length_app. pose proof (escape_char_ne c).
  destruct (escape_char c); [done|simpl; lia].
Qed.

Lemma json_string_roundtrip_witness :
  read_json (text (Str [97; 34; 92; 10; 1; 31]) ++ [44]) = Some ([97; 34; 92; 10; 1; 31], [44]).
Proof. apply json_string_roundtrip. solve_cstr. Defined.

(** The size protocol: whatever sequence of writes is run, a buffer with
    room for the text and its NUL gets exactly the concatenation of the pieces
    and its length; a smaller one gets the negated size to retry with, and the
    retry with that size succeeds with the same text. *)
Theorem jw_size_protocol os cap : 0 <= cap → len (mjoin (text <$> os)) + 1 < 2 ^ 31 →
  let t := mjoin (text <$> os) in
  let n := (jw_finish (foldl run_op (jw_init cap) os)).1 in
  (len t < cap → jw_finish (foldl run_op (jw_init cap) os) = (len t, Some t)) ∧
  (cap <= len t → n < 0 ∧
     jw_finish (foldl run_op (jw_init (- n)) os) = (len t, Some t)).
Proof.
  intros Hc Ht t n. subst n. rewrite !run_ops_puts. fold t. fold t in Ht.
  rewrite (finish_spec cap) by done. destruct (Z.ltb_spec (len t) cap); split; try lia; [done|].
  intros _. cbn [fst]. split; [lia|]. rewrite finish_spec by lia.
  destruct (Z.ltb_spec (len t) (- - (len t + 1))); [done|lia].
Qed.

Lemma jw_size_protocol_witness :
  let os := [Putc 123; KvStr (bs "n") (bs "v") true; KvInt (bs "i") (-5) false; Putc 125] in
  let n := (jw_finish (foldl run_op (jw_init 4) os)).1 in
  (len (mjoin (text <$> os)) < 4 →
     jw_finish (foldl run_op (jw_init 4) os) = (len (mjoin (text <$> os)), Some (mjoin (text <$> os)))) ∧
  (4 <= len (mjoin (text <$> os)) → n < 0 ∧
     jw_finish (foldl run_op (jw_init (- n)) os) =
       (len (mjoin (text <$> os)), Some (mjoin (text <$> os)))).
Proof. intros os. apply (jw_size_protocol os 4); [lia | vm_compute; reflexivity]. Defined.

End Jsonw.
