(* ===== verification/MountOpts.v ===== *)
(** * MountOpts

    src/core/anyfs_mount_opts.c: the mount options anyfs adds per filesystem.
    [buf] is the text written so far; [len = length buf]. *)
From S2P Require Import Prelude CLib.
Import CLib.

Module MountOpts.

Definition ANYFS_MOUNT_OPTS_MAX : Z := 64.

Definition errors_opt_fs : list bytes :=
  [bs "ext2"; bs "ext3"; bs "ext4"; bs "vfat"; bs "msdos"; bs "exfat"; bs "f2fs"; bs "ntfs"].

Fixpoint in_list (fstype : bytes) (l : list bytes) : bool :=
  match l with
  | [] => false
  | x :: l' => streq fstype x || in_list fstype l'
  end.

(** The text after the call, [None] when the option does not fit. *)
Definition append (buf : bytes) (cap : Z) (opt : bytes) : option bytes :=
  let txt := (if len buf =? 0 then [] else [44]) ++ opt in
  if cap - len buf <=? len txt then None else Some (buf ++ txt).

(** One step of the option list: append when the condition holds. *)
Definition append_if (c : bool) (buf : bytes) (cap : Z) (opt : bytes) : option bytes :=
  if c then append buf cap opt else Some buf.

(** The value returned and the text in [buf]; [fstype = None] is a NULL
    pointer, [buf_ok = false] a NULL buffer. *)
Definition anyfs_mount_opts (fstype : option bytes) (rdonly : bool) (fat_cp : Z)
    (buf_ok : bool) (cap : Z) : Z * bytes :=
  if negb buf_ok || (cap =? 0) then (-1, [])
  else match fstype with
  | None => (0, [])
  | Some fs =>
      let r :=
        b ← (if rdonly then
               if streq fs (bs "xfs") || streq fs (bs "btrfs") then append [] cap (bs "norecovery")
               else append_if (streq fs (bs "ext4") || streq fs (bs "ext3")) [] cap (bs "noload")
             else Some []);
        b ← append_if (streq fs (bs "ufs")) b cap (bs "ufstype=ufs2");
        b ← append_if (streq fs (bs "vfat")) b cap (bs "utf8");
        b ← append_if (negb (fat_cp =? 0) && (streq fs (bs "vfat") || streq fs (bs "msdos")))
              b cap (snprintf 24 (bs "codepage=" ++ fmt_u fat_cp)).2;
        append_if (in_list fs errors_opt_fs) b cap
          (if rdonly then bs "errors=continue" else bs "errors=remount-ro") in
      match r with
      | Some b => (0, b)
      | None => (-1, [])
      end
  end.

(** ** Specification: the options of a filesystem, in order, joined by commas. *)
Definition join_commas (l : list bytes) : bytes :=
  match l with
  | [] => []
  | o :: l' => o ++ mjoin ((λ x, 44 :: x) <$> l')
  end.

Definition opt_if (c : bool) (o : bytes) : list bytes := if c then [o] else [].

Definition options (fs : bytes) (rdonly : bool) (fat_cp : Z) : list bytes :=
  opt_if (rdonly && (streq fs (bs "xfs") || streq fs (bs "btrfs"))) (bs "norecovery") ++
  opt_if (rdonly && (streq fs (bs "ext4") || streq fs (bs "ext3"))) (bs "noload") ++
  opt_if (streq fs (bs "ufs")) (bs "ufstype=ufs2") ++
  opt_if (streq fs (bs "vfat")) (bs "utf8") ++
  opt_if (negb (fat_cp =? 0) && (streq fs (bs "vfat") || streq fs (bs "msdos")))
    (bs "codepage=" ++ fmt_u fat_cp) ++
  opt_if (in_list fs errors_opt_fs)
    (if rdonly then bs "errors=continue" else bs "errors=remount-ro").

(** Appending one option after another. *)
Fixpoint appends (cap : Z) (b : bytes) (os : list bytes) : option bytes :=
  match os with
  | [] => Some b
  | o :: os' => b' ← append b cap o; appends cap b' os'
  end.

Lemma append_if_appends c b cap o : append_if c b cap o = appends cap b (opt_if c o).
Proof. destruct c; cbn; [|done]. by destruct (append b cap o). Qed.

Lemma appends_app cap b os os' :
  appends cap b (os ++ os') = (b' ← appends cap b os; appends cap b' os').
Proof.
  revert b. induction os as [|o os IH]; intros b; [done|]. cbn.
  destruct (append b cap o); cbn; [apply IH|done].
Qed.

Lemma join_commas_snoc l o : Forall (λ x, x ≠ []) l →
  join_commas (l ++ [o]) = join_commas l ++ (if len (join_commas l) =? 0 then [] else [44]) ++ o.
Proof.
  intros Hl. destruct Hl as [|x l Hx Hl]; cbn [app join_commas]; [cbn; by rewrite app_nil_r|].
  rewrite fmap_app, join_app, <- app_assoc. do 2 f_equal.
  destruct x; [done|]. cbn. by rewrite app_nil_r.
Qed.

Lemma join_commas_len_app l k : len (join_commas l) <= len (join_commas (l ++ k)).
Proof.
  destruct l as [|x l]; cbn [app join_commas]; [simpl; lia|].
  rewrite fmap_app, join_app, !length_app. lia.
Qed.

Lemma append_spec l o cap : Forall (λ x, x ≠ []) l →
  append (join_commas l) cap o =
    if len (join_commas (l ++ [o])) <? cap then Some (join_commas (l ++ [o])) else None.
Proof.
  intros Hl. unfold append. rewrite join_commas_snoc by done.
  set (t := (if len (join_commas l) =? 0 then [] else [44]) ++ o).
  rewrite (length_app (join_commas l)).
  destruct (Z.leb_spec (cap - len (join_commas l)) (len t)),
    (Z.ltb_spec (Z.of_nat (length (join_commas l) + length t)) cap); done || lia.
Qed.

Lemma appends_spec l os cap :
  Forall (λ x, x ≠ []) l → Forall (λ x, x ≠ []) os → len (join_commas l) < cap →
  appends cap (join_commas l) os =
    if len (join_commas (l ++ os)) <? cap then Some (join_commas (l ++ os)) else None.
Proof.
  intros Hl Hos. revert l Hl. induction Hos as [|o os Ho Hos IH]; intros l Hl Hc; cbn [appends].
  - rewrite app_nil_r. by destruct (Z.ltb_spec (len (join_commas l)) cap); [|lia].
  - rewrite append_spec by done. rewrite (cons_middle o l os), app_assoc.
    pose proof (join_commas_len_app (l ++ [o]) os).
    destruct (Z.ltb_spec (len (join_commas (l ++ [o]))) cap).
    + cbn [mbind option_bind]. apply IH; [|done]. apply Forall_app. by repeat constructor.
    + cbn. by destruct (Z.ltb_spec (len (join_commas ((l ++ [o]) ++ os))) cap); [lia|].
Qed.

Lemma options_ne fs ro cp : Forall (λ x, x ≠ []) (options fs ro cp).
Proof.
  unfold options, opt_if. repeat (apply Forall_app; split); case_if; repeat constructor; try done.
  by destruct ro.
Qed.

(** The code is the chain of appends of the options of the specification. *)
Lemma opts_chain fs ro cp cap : 0 <= cp < 2 ^ 32 → cap ≠ 0 →
  anyfs_mount_opts (Some fs) ro cp true cap =
    match appends cap [] (options fs ro cp) with Some b => (0, b) | None => (-1, []) end.
Proof.
  intros Hcp Hcap. unfold anyfs_mount_opts. destruct (Z.eqb_spec cap 0); [done|]. cbn [negb orb].
  rewrite snprintf_fits.
  2:{ rewrite length_app. pose proof (fmt_u_len32 cp Hcp). cbn [length bs]. simpl length. lia. }
  unfold options. rewrite !appends_app.
  assert (Hro : (if ro then
      if streq fs (bs "xfs") || streq fs (bs "btrfs") then append [] cap (bs "norecovery")
      else append_if (streq fs (bs "ext4") || streq fs (bs "ext3")) [] cap (bs "noload")
    else Some []) =
    (b ← appends cap [] (opt_if (ro && (streq fs (bs "xfs") || streq fs (bs "btrfs"))) (bs "norecovery"));
     appends cap b (opt_if (ro && (streq fs (bs "ext4") || streq fs (bs "ext3"))) (bs "noload")))).
  { destruct ro; [|done]. cbn [andb].
    destruct (streq fs (bs "xfs") || streq fs (bs "btrfs")) eqn:E; cbn [opt_if].
    - assert ((streq fs (bs "ext4") || streq fs (bs "ext3")) = false) as ->.
      { apply orb_true_iff in E as [E|E]; apply streq_true in E; by subst. }
      cbn [opt_if appends mbind option_bind]. by destruct (append [] cap (bs "norecovery")).
    - cbn [appends mbind option_bind]. apply append_if_appends. }
  rewrite Hro. destruct (appends cap [] _) as [b0|]; cbn [mbind option_bind]; [|done].
  rewrite appends_app. destruct (appends cap b0 _) as [b1|]; cbn [mbind option_bind]; [|done].
  do 3 (rewrite append_if_appends, appends_app; destruct (appends cap _ _); cbn [mbind option_bind]; [|done]).
  by rewrite append_if_appends.
Qed.

(** No filesystem gets more than utf8, a codepage and an errors option. *)
Lemma options_len fs ro cp : 0 <= cp < 2 ^ 32 → len (join_commas (options fs ro cp)) < 64.
Proof.
  intros Hcp. pose proof (fmt_u_len32 cp Hcp) as Hl.
  destruct (streq fs (bs "ufs")) eqn:Eu.
  { apply streq_true in Eu as ->. unfold options. destruct (negb (cp =? 0)), ro; vm_compute; reflexivity. }
  unfold options. rewrite Eu. cbn [opt_if].
  remember (fmt_u cp) as n eqn:En. clear En.
  destruct (ro && (streq fs (bs "xfs") || streq fs (bs "btrfs"))),
    (ro && (streq fs (bs "ext4") || streq fs (bs "ext3"))), (streq fs (bs "vfat")),
    (negb (cp =? 0)), (streq fs (bs "msdos")), (in_list fs errors_opt_fs), ro;
    cbn; rewrite ?length_app; cbn; rewrite ?length_app; cbn; lia.
Qed.

Lemma opts_fit fs ro cp cap : 0 <= cp < 2 ^ 32 → 64 <= cap →
  anyfs_mount_opts (Some fs) ro cp true cap = (0, join_commas (options fs ro cp)).
Proof.
  intros Hcp Hcap. rewrite opts_chain by (done || lia). change [] with (join_commas []).
  rewrite appends_spec; [|constructor|apply options_ne|simpl; lia].
  cbn [app]. pose proof (options_len fs ro cp Hcp).
  by destruct (Z.ltb_spec (len (join_commas (options fs ro cp))) cap); [|lia].
Qed.

Lemma elem_of_opt_if c (o x : bytes) : x ∈ opt_if c o ↔ c = true ∧ x = o.
Proof. destruct c; cbn [opt_if]; set_solver. Qed.

(** ** Properties *)

(** The option string is exactly the comma-separated options of the
    filesystem, for every filesystem name, mode and codepage; when it does not
    fit, the call returns -1 and leaves an empty string. *)
Theorem mount_opts_spec fs ro cp cap : 0 <= cp < 2 ^ 32 → 0 < cap →
  anyfs_mount_opts (Some fs) ro cp true cap =
    let t := join_commas (options fs ro cp) in
    if len t <? cap then (0, t) else (-1, []).
Proof.
  intros Hcp Hcap. rewrite opts_chain by lia. change [] with (join_commas []).
  rewrite appends_spec; [|constructor|apply options_ne|simpl; lia]. cbn [app].
  by destruct (len (join_commas (options fs ro cp)) <? cap).
Qed.

Lemma mount_opts_spec_witness :
  anyfs_mount_opts (Some (bs "vfat")) true 936 true 64 =
    (0, bs "utf8,codepage=936,errors=continue").
Proof. rewrite mount_opts_spec by lia. reflexivity. Defined.

(** A buffer of ANYFS_MOUNT_OPTS_MAX bytes holds the options of every
    filesystem, so the mount path never fails on them. *)
Theorem mount_opts_max_enough fs ro cp : 0 <= cp < 2 ^ 32 →
  anyfs_mount_opts (Some fs) ro cp true ANYFS_MOUNT_OPTS_MAX =
    (0, join_commas (options fs ro cp)).
Proof. intros. by apply opts_fit. Qed.

Lemma mount_opts_max_enough_witness :
  anyfs_mount_opts (Some (bs "vfat")) false 4294967295 true ANYFS_MOUNT_OPTS_MAX =
    (0, bs "utf8,codepage=4294967295,errors=remount-ro").
Proof. rewrite mount_opts_max_enough by lia. reflexivity. Defined.

(** A read-only mount never lets a driver replay a journal or remount:
    the options of ext3, ext4, xfs and btrfs disable recovery and no filesystem
    is told to remount on errors; a read-write mount never gets an option that
    skips recovery or goes on after an error. *)
Theorem mount_opts_readonly_safe fs cp : 0 <= cp < 2 ^ 32 →
  (∃ l, anyfs_mount_opts (Some fs) true cp true ANYFS_MOUNT_OPTS_MAX = (0, join_commas l) ∧
     bs "errors=remount-ro" ∉ l ∧
     (fs ∈ [bs "ext3"; bs "ext4"; bs "xfs"; bs "btrfs"] → bs "noload" ∈ l ∨ bs "norecovery" ∈ l)) ∧
  (∃ l, anyfs_mount_opts (Some fs) false cp true ANYFS_MOUNT_OPTS_MAX = (0, join_commas l) ∧
     ∀ o, o ∈ l → o ≠ bs "noload" ∧ o ≠ bs "norecovery" ∧ o ≠ bs "errors=continue").
Proof.
  intros Hcp. split; eexists; (split; [by apply opts_fit|]); unfold options.
  - split.
    + rewrite !elem_of_app, !elem_of_opt_if. intros H.
      repeat destruct H as [[_ H]|H]; try discriminate H. destruct H as [_ H]; discriminate H.
    + intros Hfs. rewrite !elem_of_app, !elem_of_opt_if. rewrite !elem_of_cons in Hfs.
      destruct Hfs as [->|[->|[->|[->|H%not_elem_of_nil]]]]; [..|done].
      1-2: left; right; left; done.
      1-2: right; left; done.
  - intros o. rewrite !elem_of_app, !elem_of_opt_if. cbn [andb]. intros H.
    repeat destruct H as [[Hc ->]|H]; try discriminate Hc;
      try (split_and!; intros Heq; discriminate Heq).
    destruct H as [_ ->]. split_and!; intros Heq; discriminate Heq.
Qed.

Lemma mount_opts_readonly_safe_witness :
  ∃ l, anyfs_mount_opts (Some (bs "ext4")) true 0 true ANYFS_MOUNT_OPTS_MAX = (0, join_commas l) ∧
     bs "errors=remount-ro" ∉ l ∧
     (bs "ext4" ∈ [bs "ext3"; bs "ext4"; bs "xfs"; bs "btrfs"] →
      bs "noload" ∈ l ∨ bs "norecovery" ∈ l).
Proof. apply (mount_opts_readonly_safe (bs "ext4") 0). lia. Defined.

End MountOpts.
