(* ===== verification/Legacy.v ===== *)
(** * Legacy

    src/core/anyfs_legacy.c: the legacy file-name encoding of the command-line
    tools.  In the POSIX build the locale comes from the environment and the
    conversion from iconv, in the Windows build both from the system's code
    pages; all of them are parameters. *)
From S2P Require Import Prelude CLib Name.
Import CLib Name.

Module Legacy.

Definition ANYFS_LEGACY_OFF : Z := 0.
Definition ANYFS_LEGACY_GB18030 : Z := 1.
Definition ANYFS_LEGACY_BIG5 : Z := 2.
Definition ANYFS_LEGACY_SHIFT_JIS : Z := 3.
Definition ANYFS_LEGACY_EUC_KR : Z := 4.
Definition ANYFS_LEGACY_WINDOWS_1252 : Z := 5.

Definition FAT_CP_SHIFT : Z := 8.

Record encoding := mk_enc { e_name : bytes; e_iconv : bytes; win_cp : Z; win_cp_fallback : Z; e_fat_cp : Z }.

Definition encodings : list encoding :=
  [ mk_enc (bs "off") [] 0 0 0;
    mk_enc (bs "gb18030") (bs "GB18030") 54936 936 1;
    mk_enc (bs "big5") (bs "BIG5") 950 0 2;
    mk_enc (bs "shift_jis") (bs "SHIFT_JIS") 932 0 3;
    mk_enc (bs "euc-kr") (bs "EUC-KR") 949 0 4;
    mk_enc (bs "windows-1252") (bs "CP1252") 1252 0 0 ].

Definition N_ENCODINGS : Z := len encodings.

Section Env.
(** [getenv] *)
Variable getenv : bytes → option bytes.

(** [for (i = 0; i < 3 && !(v && *v); i++) v = getenv(vars[i]);] *)
Fixpoint first_set (v : option bytes) (vars : list bytes) : option bytes :=
  match vars with
  | [] => v
  | x :: vars' =>
      match v with
      | Some (_ :: _) => v
      | _ => first_set (getenv x) vars'
      end
  end.

Definition anyfs_legacy_auto : Z :=
  let v := default [] (first_set None [bs "LC_ALL"; bs "LC_CTYPE"; bs "LANG"]) in
  if starts_with (bs "zh") v then
    if strstr (bs "_TW") v || strstr (bs "_HK") v || strstr (bs "_MO") v || strstr (bs "Hant") v
    then ANYFS_LEGACY_BIG5 else ANYFS_LEGACY_GB18030
  else if starts_with (bs "ja") v then ANYFS_LEGACY_SHIFT_JIS
  else if starts_with (bs "ko") v then ANYFS_LEGACY_EUC_KR
  else ANYFS_LEGACY_WINDOWS_1252.

Fixpoint find_enc (name : bytes) (i : Z) (l : list encoding) : Z :=
  match l with
  | [] => -1
  | e :: l' => if streq name (e_name e) then i else find_enc name (i + 1) l'
  end.

Definition anyfs_legacy_parse (name : option bytes) : Z :=
  match name with
  | None => -1
  | Some n => if streq n (bs "auto") then anyfs_legacy_auto else find_enc n 0 encodings
  end.

End Env.

(** The process-wide [g_enc]; -1 until it is set or first used. *)
Definition anyfs_legacy_set (enc : Z) : Z :=
  if (0 <=? enc) && (enc <? N_ENCODINGS) then enc else ANYFS_LEGACY_OFF.

(** The value returned and the new [g_enc]; [auto] is what anyfs_legacy_auto
    returns. *)
Definition get_enc (auto g_enc : Z) : Z * Z := let g := if g_enc <? 0 then auto else g_enc in (g, g).
Definition anyfs_legacy_get (getenv : bytes → option bytes) : Z → Z * Z := get_enc (anyfs_legacy_auto getenv).

Definition anyfs_legacy_fat_flag (enc : Z) : Z :=
  if (enc <? 0) || (N_ENCODINGS <=? enc) then 0
  else match encodings !! Z.to_nat enc with
       | Some e => u32 (Z.shiftl (e_fat_cp e) FAT_CP_SHIFT)
       | None => 0
       end.

(** [for (k = 1; k < n; k++) if ((s[k] & 0xC0) != 0x80) return 0;] *)
Fixpoint conts (s : bytes) (k n : nat) : option bool :=
  match n with
  | O => Some true
  | S n' => c ← rd s k; if cont c then conts s (S k) n' else Some false
  end.

Fixpoint valid_utf8_loop (fuel : nat) (s : bytes) : option bool :=
  match fuel with
  | O => None
  | S f =>
      c ← rd s 0;
      if c =? 0 then Some true
      else
        let n := if c <? 0x80 then 1%nat
                 else if (0xC2 <=? c) && (c <=? 0xDF) then 2%nat
                 else if (0xE0 <=? c) && (c <=? 0xEF) then 3%nat
                 else if (0xF0 <=? c) && (c <=? 0xF4) then 4%nat else 0%nat in
        if Nat.eqb n 0 then Some false
        else
          ok ← (if Nat.leb 3 n then
                  let lo := if c =? 0xE0 then 0xA0 else if c =? 0xF0 then 0x90 else 0x80 in
                  let hi := if c =? 0xED then 0x9F else if c =? 0xF4 then 0x8F else 0xBF in
                  s1 ← rd s 1; Some (negb ((s1 <? lo) || (hi <? s1)))
                else Some true);
          if negb ok then Some false
          else
            all ← conts s 1 (n - 1);
            if (all : bool) then valid_utf8_loop f (drop n s) else Some false
  end.

Definition valid_utf8 (s : bytes) : option bool := valid_utf8_loop (S (length s)) s.

(** The loop that shows undecodable bytes as \xNN. *)
Fixpoint hex_loop (s out : bytes) (cap : Z) : option (Z * bytes) :=
  match s with
  | [] => Some (len out, out)
  | c :: s' =>
      keep ← (if c <? 0x80 then Some true else valid_utf8 [c]);
      if cap <=? len out + (if (keep : bool) then 1 else 4) then Some (-1, [])
      else hex_loop s' (out ++ (if keep then [c] else bs "\x" ++ fmt_X2 c)) cap
  end.

(** The value returned, the text in [out] and the new [g_enc], with the host's
    converter [host]. *)
Definition decode (auto : Z) (host : Z → bytes → Z → option bytes) (g_enc : Z) (s : bytes) (out_ok : bool) (cap : Z) :
    option (Z * bytes * Z) :=
  let '(enc, g) := get_enc auto g_enc in
  if negb out_ok || (cap =? 0) then Some (-1, [], g)
  else
    v ← valid_utf8 s;
    if (v : bool) then
      if cap <=? len s then Some (-1, [], g) else Some (len s, s, g)
    else
      match (if enc =? ANYFS_LEGACY_OFF then None else host enc s cap) with
      | Some t => Some (len (c_str t), c_str t, g)
      | None => r ← hex_loop s [] cap; Some (r.1, r.2, g)
      end.

Section Decode.
Variable getenv : bytes → option bytes.
(** iconv_open("UTF-8", from) succeeds *)
Variable iconv_open : bytes → bool.
(** iconv on the whole input with room for so many bytes: the output and the
    number of input bytes left, or an error *)
Variable iconv : bytes → bytes → Z → option (bytes * Z).
(** the reset sequence iconv(cd, NULL, ...) appends *)
Variable iconv_flush : bytes → bytes → Z → option bytes.

(** The decoded text, or [None] for -1. *)
Definition host_decode (enc : Z) (s : bytes) (cap : Z) : option bytes :=
  e ← encodings !! Z.to_nat enc;
  if negb (iconv_open (e_iconv e)) then None
  else
    r ← iconv (e_iconv e) s (cap - 1);
    let '(out, il) := r in
    fl ← iconv_flush (e_iconv e) s (cap - 1 - len out);
    if negb (il =? 0) then None else Some (out ++ fl).

Definition anyfs_legacy_decode : Z → bytes → bool → Z → option (Z * bytes * Z) := decode (anyfs_legacy_auto getenv) host_decode.
End Decode.

(** *** The Windows build *)
Section Windows.
(** GetACP *)
Variable acp : Z.
(** MultiByteToWideChar with MB_ERR_INVALID_CHARS: the text in UTF-16, or the
    value of GetLastError *)
Variable to_wide : Z → bytes → list Z + Z.
(** WideCharToMultiByte to UTF-8 with room for so many bytes, the terminator
    included *)
Variable to_utf8 : list Z → Z → option bytes.
Variable malloc : Z → bool.

Definition win_legacy_auto : Z :=
  if (acp =? 936) || (acp =? 54936) then ANYFS_LEGACY_GB18030
  else if acp =? 950 then ANYFS_LEGACY_BIG5
  else if acp =? 932 then ANYFS_LEGACY_SHIFT_JIS
  else if acp =? 949 then ANYFS_LEGACY_EUC_KR
  else ANYFS_LEGACY_WINDOWS_1252.

Definition ERROR_INVALID_PARAMETER : Z := 87.
Definition win_host_decode (enc : Z) (s : bytes) (cap : Z) : option bytes :=
  e ← encodings !! Z.to_nat enc;
  let r := match to_wide (win_cp e) s with
           | inr err => if (err =? ERROR_INVALID_PARAMETER) && negb (win_cp_fallback e =? 0) then to_wide (win_cp_fallback e) s else inr err
           | r => r
           end in
  match r with
  | inr _ => None
  | inl w => if negb (malloc ((len w + 1) * 2)) then None else to_utf8 w (i32 cap)
  end.
Definition win_legacy_decode : Z → bytes → bool → Z → option (Z * bytes * Z) := decode win_legacy_auto win_host_decode.
End Windows.

(** ** Lemmas *)

(** One turn of the checker accepts exactly the sequence the name escaper
    accepts. *)
Lemma valid_step a s f : CStr (a :: s) →
  valid_utf8_loop (S f) (a :: s) =
    (n ← utf8_seq (a :: s);
     if Nat.eqb n 0 then Some false else valid_utf8_loop f (drop n (a :: s))).
Proof.
  intros Hs. cbn [valid_utf8_loop]. generalize (valid_utf8_loop f) as k. intros k.
  unfold utf8_seq. apply CStr_cons in Hs as [Ha Hs].
  destruct s as [|b s]; [|apply CStr_cons in Hs as [Hb Hs];
    destruct s as [|c s]; [|apply CStr_cons in Hs as [Hc Hs];
      destruct s as [|d s]; [|apply CStr_cons in Hs as [Hd Hs]]]];
    read_cells; change (rd (a :: _) 0) with (Some a);
    (destruct (Z.eqb_spec a 0); [lia|]); rewrite ?cont_spec by lia;
    split_guards; cbn [conts Nat.sub mbind option_bind]; read_cells;
    rewrite ?cont_spec by lia; split_guards; done.
Qed.

Lemma valid_utf8_spec s : CStr s →
  ∃ b : bool, valid_utf8 s = Some b ∧ (b = true ↔ ∃ us, s = mjoin us ∧ Forall utf8 us).
Proof.
  unfold valid_utf8. intros Hs.
  enough (∀ f s, CStr s → (length s < f)%nat → ∃ b : bool, valid_utf8_loop f s = Some b ∧
    (b = true ↔ ∃ us, s = mjoin us ∧ Forall utf8 us)) as H by (apply H; [done|lia]).
  clear s Hs. induction f as [|f IH]; intros s Hs Hf; [lia|].
  destruct s as [|a s].
  { exists true. split; [done|]. split; [|done]. intros _. by exists []. }
  rewrite valid_step by done. destruct (utf8_seq_total _ Hs) as (n & En & Hn); [done|].
  pose proof (utf8_seq_zero _ Hs) as Hz. rewrite En. cbn [mbind option_bind].
  destruct (Nat.eqb_spec n 0) as [->|Hn0].
  - exists false. split; [done|]. split; [done|]. intros (us & E & Hus).
    destruct Hus as [|u us Hu Hus]; [done|]. rewrite join_cons in E. by destruct (Hz En _ _ E).
  - destruct (Hn Hn0) as [Hu Hl].
    destruct (IH (drop n (a :: s))) as (b & -> & Hb); [auto with anyfs|rewrite length_drop; simpl in *; lia|].
    exists b. split; [done|]. rewrite Hb. split; intros (us & E & Hus).
    + exists (take n (a :: s) :: us). rewrite join_cons, <- E, take_drop, Forall_cons. done.
    + destruct Hus as [|u us Hu' Hus]; [done|]. rewrite join_cons in E.
      exists us. split; [|done]. rewrite E in *.
      rewrite (utf8_seq_unit u (mjoin us) Hu' Hs) in En. simplify_eq. by apply drop_app_len.
Qed.

Lemma hex_loop_fits s out cap : CStr s → len out + 4 * len s < cap →
  ∃ t, hex_loop s out cap = Some (len out + len t, out ++ t) ∧ len t <= 4 * len s.
Proof.
  intros Hs. revert out. induction Hs as [|c s Hc Hs IH]; intros out Ho; cbn [hex_loop].
  { exists []. rewrite app_nil_r. simpl. split; [|lia]. do 2 f_equal. lia. }
  assert (∃ keep, (if c <? 0x80 then Some true else valid_utf8 [c]) = Some keep) as [keep ->].
  { destruct (c <? 0x80); [by exists true|].
    destruct (valid_utf8_spec [c]) as (b & -> & _); [by apply Forall_singleton|by exists b]. }
  cbn [mbind option_bind length] in *.
  set (t1 := if keep then [c] else bs "\x" ++ fmt_X2 c).
  assert (H1 : len t1 = if keep then 1 else 4) by by destruct keep.
  destruct (Z.leb_spec cap (len out + (if keep then 1 else 4))); [destruct keep; lia|].
  destruct (IH (out ++ t1)) as (t & -> & Ht); [rewrite length_app; destruct keep; lia|].
  exists (t1 ++ t). rewrite !length_app, <- app_assoc. split; [|destruct keep; lia]. do 2 f_equal. lia.
Qed.

Lemma find_enc_spec : ∀ i e, encodings !! i = Some e → find_enc (e_name e) 0 encodings = Z.of_nat i.
Proof.
  intros i e H. destruct i as [|[|[|[|[|[|i]]]]]]; simplify_eq/=; done.
Qed.

Lemma legacy_auto_range getenv : 1 <= anyfs_legacy_auto getenv <= 5.
Proof.
  unfold anyfs_legacy_auto. repeat case_if; unfold ANYFS_LEGACY_BIG5, ANYFS_LEGACY_GB18030,
    ANYFS_LEGACY_SHIFT_JIS, ANYFS_LEGACY_EUC_KR, ANYFS_LEGACY_WINDOWS_1252; lia.
Qed.

(** ** Properties *)

(** A text cut into sequences by the recogniser of the name escaper
    ([Name.utf8_seq]): true when every cut is a sequence. *)
Fixpoint all_seqs (fuel : nat) (s : bytes) : option bool :=
  match fuel with
  | O => None
  | S f => match s with [] => Some true | _ => n ← utf8_seq s; if Nat.eqb n 0 then Some false else all_seqs f (drop n s) end
  end.

Lemma valid_all_seqs f s : CStr s → valid_utf8_loop f s = all_seqs f s.
Proof.
  revert s. induction f as [|f IH]; intros s Hs; [done|]. destruct s as [|a s]; [done|]. rewrite valid_step by done. cbn [all_seqs].
  destruct (utf8_seq (a :: s)) as [n|]; [|done]. cbn [mbind option_bind]. destruct (Nat.eqb n 0); [done|]. apply IH. auto with anyfs.
Qed.

(** C35 The escaped form of every file name is valid UTF-8 by the checker the
    command-line tools use, so JavaScript never sees a byte it cannot
    represent.  The checker and the recogniser of the escaper, which the code
    has twice, agree on every text: the checker accepts exactly the texts that
    the recogniser cuts into sequences to their end. *)
Theorem name_escape_valid_utf8 s cap e : CStr s → 0 < cap →
  anyfs_name_escape s true cap = Some (len e, e) →
  valid_utf8 e = Some true ∧ ∀ t, CStr t → valid_utf8 t = all_seqs (S (length t)) t.
Proof.
  intros Hs Hc He. split; [|intros t Ht; by apply valid_all_seqs]. unfold anyfs_name_escape in He. cbn [negb orb] in He.
  destruct (Z.eqb_spec cap 0) as [->|]; [lia|].
  destruct (escape_loop_spec (S (length s)) s Hs) as (e' & He' & Hl); [lia|].
  rewrite Hl in He by (simpl; lia). destruct (_ <? cap); simplify_eq/=.
  destruct (esc_rel_units _ _ He') as (us & -> & Hus).
  destruct (valid_utf8_spec (mjoin us)) as (b & -> & Hb); [by apply units_CStr|].
  f_equal. apply Hb. by exists us.
Qed.

Lemma name_escape_valid_utf8_witness :
  valid_utf8 [0x61; 0xEE; 0xBF; 0xBF] = Some true ∧ ∀ t, CStr t → valid_utf8 t = all_seqs (S (length t)) t.
Proof.
  apply (name_escape_valid_utf8 [0x61; 0xFF] 7 [0x61; 0xEE; 0xBF; 0xBF]);
    [solve_cstr | lia | reflexivity].
Defined.

(** With a converter that stays inside its buffer. *)
Lemma decode_total auto host g s cap :
  0 <= auto → (∀ enc t, host enc s cap = Some t → len t < cap) → CStr s → 4 * len s + 1 <= cap →
  ∃ t g', decode auto host g s true cap = Some (len t, t, g') ∧ len t < cap ∧ 0 <= g' ∧ (valid_utf8 s = Some true → t = s).
Proof.
  intros Ha Hh Hs Hc. unfold decode, get_enc. cbn [negb orb]. set (g' := if g <? 0 then auto else g).
  assert (0 <= g') by (subst g'; destruct (Z.ltb_spec g 0); lia).
  destruct (Z.eqb_spec cap 0); [lia|].
  destruct (valid_utf8_spec s Hs) as ([] & -> & _); cbn [mbind option_bind].
  { destruct (Z.leb_spec cap (len s)); [lia|]. exists s, g'. repeat split; [lia..|done]. }
  destruct (if g' =? ANYFS_LEGACY_OFF then None else _) as [t|] eqn:E.
  - exists (c_str t), g'. repeat split; try done. pose proof (c_str_le t).
    destruct (g' =? ANYFS_LEGACY_OFF); [done|]. apply Hh in E. lia.
  - destruct (hex_loop_fits s [] cap Hs) as (t & -> & Ht); [simpl; lia|].
    exists t, g'. cbn. repeat split; [lia|lia|done].
Qed.

(** Labels and names for display: with four bytes of room per byte (what
    the table printer allocates) the decoder always succeeds, stores a text
    that fits, and shows valid UTF-8 unchanged whatever the encoding set; the
    converter may fail or succeed but is assumed to stay inside its buffer. *)
Theorem legacy_decode_total getenv iconv_open iconv iconv_flush g s cap :
  (∀ cs i ol o il, iconv cs i ol = Some (o, il) → len o <= ol) →
  (∀ cs i ol o, iconv_flush cs i ol = Some o → len o <= ol) →
  CStr s → 4 * len s + 1 <= cap →
  ∃ t g', anyfs_legacy_decode getenv iconv_open iconv iconv_flush g s true cap = Some (len t, t, g') ∧
    len t < cap ∧ 0 <= g' ∧
    (valid_utf8 s = Some true → t = s).
Proof.
  intros Hi Hf. apply decode_total; [pose proof (legacy_auto_range getenv); lia|]. intros enc t E. unfold host_decode in E.
  destruct (encodings !! Z.to_nat enc) as [e|]; [|done]. cbn [mbind option_bind] in E.
  destruct (iconv_open (e_iconv e)); [|done]. cbn [negb] in E.
  destruct (iconv (e_iconv e) s (cap - 1)) as [[o il]|] eqn:Ei; [|done]. apply Hi in Ei.
  cbn [mbind option_bind] in E.
  destruct (iconv_flush (e_iconv e) s (cap - 1 - len o)) as [fl|] eqn:Ef; [|done]. apply Hf in Ef.
  cbn [mbind option_bind] in E. destruct (il =? 0); simplify_eq/=. rewrite length_app in *. lia.
Qed.

(** The same for the Windows build, where the system's conversion to UTF-8
    leaves room for the terminator. *)
Theorem win_decode_total acp to_wide to_utf8 malloc g s cap :
  (∀ w n t, to_utf8 w n = Some t → len t < n) → CStr s → 4 * len s + 1 <= cap < 2 ^ 31 →
  ∃ t g', win_legacy_decode acp to_wide to_utf8 malloc g s true cap = Some (len t, t, g') ∧
    len t < cap ∧ 0 <= g' ∧ (valid_utf8 s = Some true → t = s).
Proof.
  intros Hu Hs Hc. apply decode_total; [unfold win_legacy_auto; by repeat case_if| |done|lia]. intros enc t E. unfold win_host_decode in E.
  destruct (encodings !! Z.to_nat enc) as [e|]; [|done]. cbn [mbind option_bind] in E. rewrite i32_small in E by lia.
  destruct (match to_wide _ s with inl _ => _ | inr _ => _ end) as [w|]; [|done]. destruct (malloc _); [|done]. by apply Hu in E.
Qed.

(** GB18030 where its code page is not installed: the fallback converts. *)
Lemma win_fallback to_utf8 malloc s cap w : (∀ n, malloc n = true) →
  win_host_decode (λ cp _, if cp =? 936 then inl w else inr ERROR_INVALID_PARAMETER) to_utf8 malloc ANYFS_LEGACY_GB18030 s cap = to_utf8 w (i32 cap).
Proof.
  intros Hm. unfold win_host_decode. change (encodings !! _) with (Some (mk_enc (bs "gb18030") (bs "GB18030") 54936 936 1)).
  cbn -[i32 Z.mul]. by rewrite Hm.
Qed.

Lemma legacy_decode_total_witness :
  ∃ t g', anyfs_legacy_decode (λ _, None) (λ _, true) (λ _ _ ol, if 0 <=? ol then Some ([], 0) else None)
            (λ _ _ _, None) (-1) [0x61; 0xFF] true 9 = Some (len t, t, g') ∧
    len t < 9 ∧ 0 <= g' ∧ (valid_utf8 [0x61; 0xFF] = Some true → t = [0x61; 0xFF]).
Proof.
  apply legacy_decode_total; [| done | solve_cstr | simpl; lia].
  intros _ _ ol o il H. destruct (Z.leb_spec 0 ol); simplify_eq/=. lia.
Defined.

(** Every documented encoding name is recognised as its own index, "auto"
    resolves to a real encoding, and any other name is refused. *)
Theorem legacy_parse_spec getenv name :
  (∀ i e, encodings !! i = Some e → name = e_name e →
     anyfs_legacy_parse getenv (Some name) = Z.of_nat i) ∧
  (name = bs "auto" → 1 <= anyfs_legacy_parse getenv (Some name) <= 5) ∧
  (name ≠ bs "auto" → (∀ e, e ∈ encodings → name ≠ e_name e) →
     anyfs_legacy_parse getenv (Some name) = -1).
Proof.
  unfold anyfs_legacy_parse. split_and!.
  - intros i e He ->. rewrite <- (find_enc_spec i e He).
    destruct i as [|[|[|[|[|[|i]]]]]]; simplify_eq/=; done.
  - intros ->. apply legacy_auto_range.
  - intros Hna Hn. destruct (streq name (bs "auto")) eqn:E; [by apply streq_true in E|].
    revert Hn. generalize 0. induction encodings as [|e l IH]; intros i Hn; cbn [find_enc]; [done|].
    destruct (streq name (e_name e)) eqn:Ee.
    + apply streq_true in Ee. by destruct (Hn e); [left|].
    + apply IH. intros e' He'. apply Hn. by right.
Qed.

Lemma legacy_parse_spec_witness :
  anyfs_legacy_parse (λ _, None) (Some (bs "shift_jis")) = 3.
Proof.
  apply (proj1 (legacy_parse_spec (λ _, None) (bs "shift_jis")) 3%nat
           (mk_enc (bs "shift_jis") (bs "SHIFT_JIS") 932 0 3)); reflexivity.
Defined.

End Legacy.
