(* ===== verification/Path.v ===== *)
(** * Path

    src/core/anyfs_path.c: the partition reference
    [[disk<N>/]p<n>[?<query>](/p<m>...)*] every frontend accepts.  The
    percent decoder works in place on memory with a read and a write cursor;
    the parser cuts its private copy of the text at every separator. *)
From S2P Require Import Prelude CLib.
Import CLib.

Module Path.

(** ['%'], ['/'], ['?'] *)
Definition PCT : Z := 37.
Definition SLASH : Z := 47.
Definition QMARK : Z := 63.

Definition hex_nyb (c : Z) : Z :=
  if (48 <=? c) && (c <=? 57) then c - 48
  else if (97 <=? c) && (c <=? 102) then c - 97 + 10
  else if (65 <=? c) && (c <=? 70) then c - 65 + 10
  else -1.

(** [m[i] = c]; stuck out of range. *)
Definition wr (m : bytes) (i : nat) (c : Z) : option bytes :=
  if bool_decide (i < length m)%nat then Some (<[i := c]> m) else None.

(** The decoder's loop: memory [m], cursors [r] and [w]; the value returned and
    the memory left behind. *)
Fixpoint pct_loop (fuel : nat) (m : bytes) (r w : nat) : option (Z * bytes) :=
  match fuel with
  | O => None
  | S f =>
      c ← m !! r;
      if c =? 0 then m' ← wr m w 0; Some (0, m')
      else if c =? PCT then
        c1 ← m !! (r + 1)%nat;
        if c1 =? 0 then Some (-1, m)
        else
          c2 ← m !! (r + 2)%nat;
          if c2 =? 0 then Some (-1, m)
          else
            let hi := hex_nyb c1 in
            let lo := hex_nyb c2 in
            if (hi <? 0) || (lo <? 0) then Some (-1, m)
            else m' ← wr m w (Z.lor (Z.shiftl hi 4) lo); pct_loop f m' (r + 3) (w + 1)
      else m' ← wr m w c; pct_loop f m' (r + 1) (w + 1)
  end.

Definition anyfs_path_pct_decode (m : option bytes) : option (Z * option bytes) :=
  match m with
  | None => Some (0, None)
  | Some m => r ← pct_loop (S (length m)) m 0 0; Some (r.1, Some r.2)
  end.

(** 1 and the index on a match, 0 when there is no prefix, -1 on an error. *)
Definition parse_disk_prefix (seg : bytes) : option (Z * Z) :=
  if negb (starts_with (bs "disk") seg) then Some (0, 0)
  else
    let r := drop 4 seg in
    c ← rd r 0;
    if c =? 0 then Some (-1, 0)
    else if negb (isdigit c) then Some (-1, 0)
    else
      let '(v, end_) := strtol r in
      e ← rd end_ 0;
      if negb (e =? 0) || (v <? 0) then Some (-1, 0)
      else Some (1, i32 v).

Record AnyfsPathComp := mk_comp { p : Z; query : option bytes }.

(** [None]: stuck; [Some None]: -1.  [strchr] cuts the segment at ['?'] as the
    store of NUL there does. *)
Definition parse_component (seg : bytes) : option (option AnyfsPathComp) :=
  c ← rd seg 0;
  if negb (c =? 112) && negb (c =? 80) then Some None
  else
    let '(seg', q) := match strchr QMARK seg with
                      | Some (a, b) => (a, Some b)
                      | None => (seg, None)
                      end in
    let r := drop 1 seg' in
    c1 ← rd r 0;
    if c1 =? 0 then Some None
    else
      let '(v, end_) := strtoul r in
      e ← rd end_ 0;
      if negb (e =? 0) || (v =? 0) then Some None
      else
        match q with
        | None => Some (Some (mk_comp (u32 v) None))
        | Some q =>
            d ← anyfs_path_pct_decode (Some (q ++ [0]));
            let '(rc, m) := d in
            if rc <? 0 then Some None
            else Some (Some (mk_comp (u32 v) (c_str <$> m)))
        end.

Definition ANYFS_PATH_MAX_COMPONENTS : Z := 8.

(** [arena] holds the text the copy was cut from. *)
Record AnyfsPath := mk_path {
  arena : option bytes;
  disk_idx_set : bool;
  disk_idx : Z;
  n_comp : Z;
  comp : list AnyfsPathComp }.

Definition zero_path : AnyfsPath := mk_path None false 0 0 [].

(** free the arena, memset the struct *)
Definition anyfs_path_free (_ : AnyfsPath) : AnyfsPath := zero_path.

Fixpoint skip_slashes (s : bytes) : bytes :=
  match s with
  | c :: s' => if c =? SLASH then skip_slashes s' else s
  | [] => []
  end.

(** [while (L > 0 && arena[L - 1] == '/') arena[--L] = 0] *)
Fixpoint strip_slashes (a : bytes) (L : nat) : nat :=
  match L with
  | S l => match a !! l with
           | Some c => if c =? SLASH then strip_slashes a l else L
           | None => L
           end
  | O => O
  end.

(** The split loop; [Some None] when [segs] is full. *)
Fixpoint split_loop (fuel : nat) (p : option bytes) (segs : list bytes) : option (option (list bytes)) :=
  match p with
  | None | Some [] => Some (Some segs)
  | Some s =>
      match fuel with
      | O => None
      | S f =>
          if ANYFS_PATH_MAX_COMPONENTS + 1 <=? len segs then Some None
          else match strchr SLASH s with
               | Some (a, b) => split_loop f (Some b) (segs ++ [a])
               | None => split_loop f None (segs ++ [s])
               end
      end
  end.

Fixpoint parse_comps (segs : list bytes) (out : list AnyfsPathComp) : option (option (list AnyfsPathComp)) :=
  match segs with
  | [] => Some (Some out)
  | s :: segs' =>
      r ← parse_component s;
      match r with
      | None => Some None
      | Some c => parse_comps segs' (out ++ [c])
      end
  end.

Section Parse.
(** strdup succeeds *)
Variable strdup : bool.

Definition anyfs_path_parse (s : option bytes) (out : AnyfsPath) : option (Z * AnyfsPath) :=
  match s with
  | None => Some (-1, out)
  | Some s =>
      let s := skip_slashes s in
      if negb strdup then Some (-1, zero_path)
      else
        let L := strip_slashes s (length s) in
        let a := take L s in
        let out := mk_path (Some a) false 0 0 [] in
        if Nat.eqb L 0 then Some (-1, anyfs_path_free out)
        else
          sp ← split_loop (S (length a)) (Some a) [];
          match sp with
          | None => Some (-1, anyfs_path_free out)
          | Some segs =>
              if len segs =? 0 then Some (-1, anyfs_path_free out)
              else
                seg0 ← head segs;
                d ← parse_disk_prefix seg0;
                let '(dr, idx) := d in
                if dr <? 0 then Some (-1, anyfs_path_free out)
                else if (dr =? 1) && (len segs =? 1) then Some (-1, anyfs_path_free out)
                else
                  let rest := if dr =? 1 then drop 1 segs else segs in
                  if (len rest =? 0) || (ANYFS_PATH_MAX_COMPONENTS <? len rest)
                  then Some (-1, anyfs_path_free out)
                  else
                    cs ← parse_comps rest [];
                    match cs with
                    | None => Some (-1, anyfs_path_free out)
                    | Some cs =>
                        Some (0, mk_path (Some a) (dr =? 1) (if dr =? 1 then idx else 0) (len cs) cs)
                    end
          end
  end.
End Parse.

(** ** Specifications *)

(** The percent decoding of a text; [None] when an escape is malformed. *)
Fixpoint pct_spec (s : bytes) : option bytes :=
  match s with
  | [] => Some []
  | c :: s' =>
      if c =? PCT then
        match s' with
        | h :: l :: s'' =>
            if (hex_nyb h <? 0) || (hex_nyb l <? 0) then None
            else cons (16 * hex_nyb h + hex_nyb l) <$> pct_spec s''
        | _ => None
        end
      else cons c <$> pct_spec s'
  end.

(** The canonical text of a reference: an encoder that escapes what would cut
    the text, and the printer built on it. *)
Definition pct_enc1 (c : Z) : bytes :=
  if (c =? PCT) || (c =? SLASH) then PCT :: fmt_X2 c else [c].
Definition pct_encode (s : bytes) : bytes := mjoin (pct_enc1 <$> s).

Definition print_comp (c : AnyfsPathComp) : bytes :=
  112 :: fmt_u (p c) ++ match query c with Some q => QMARK :: pct_encode q | None => [] end.
Definition print_segs (disk : option Z) (cs : list AnyfsPathComp) : list bytes :=
  match disk with Some d => [bs "disk" ++ fmt_u d] | None => [] end ++ (print_comp <$> cs).
Fixpoint join_slash (segs : list bytes) : bytes :=
  match segs with
  | [] => []
  | [s] => s
  | s :: segs' => s ++ SLASH :: join_slash segs'
  end.
Definition print_path (disk : option Z) (cs : list AnyfsPathComp) : bytes :=
  join_slash (print_segs disk cs).

Definition comp_ok (c : AnyfsPathComp) : Prop :=
  0 < p c < 2 ^ 32 ∧ match query c with Some q => CStr q | None => True end.

(** ** The decoder *)

Lemma hex_nyb_range c : -1 <= hex_nyb c < 16.
Proof. unfold hex_nyb. case_ifs; lia. Qed.

Lemma lor_nibbles hi lo : 0 <= hi < 16 → 0 <= lo < 16 → Z.lor (Z.shiftl hi 4) lo = 16 * hi + lo.
Proof.
  intros Hh Hl. rewrite Z.shiftl_mul_pow2 by lia. pose proof (Z.add_lor_land (hi * 2 ^ 4) lo) as E.
  enough (Z.land (hi * 2 ^ 4) lo = 0) by lia.
  rewrite <- (Z.mod_small lo (2 ^ 4)) by lia. rewrite <- Z.land_ones by lia.
  rewrite (Z.land_comm lo), Z.land_assoc, Z.land_ones, Z.mod_mul by lia. done.
Qed.

(** A store at the write cursor: the cell after the text already decoded. *)
Lemma wr_cursor d g u r x : u ≠ [] →
  ∃ k, wr (d ++ g ++ u ++ r) (length d) x = Some ((d ++ [x]) ++ k ++ r) ∧
    (length k + 1 = length g + length u)%nat.
Proof.
  intros Hu. destruct (g ++ u) as [|y k] eqn:E; [by apply app_eq_nil in E as [_ ?]|].
  exists k. rewrite (app_assoc g), E. split.
  - unfold wr. rewrite bool_decide_true by (rewrite !length_app; simpl; lia).
    rewrite insert_app_r_alt, Nat.sub_diag by lia. by rewrite <- app_assoc.
  - apply (f_equal length) in E. rewrite length_app in E. simpl in E. lia.
Qed.

Lemma lookup_cursor (d g l : bytes) i :
  (d ++ g ++ l) !! (length d + length g + i)%nat = l !! i.
Proof. rewrite app_assoc, lookup_app_r; rewrite length_app; [|lia]. f_equal. lia. Qed.

(** What one turn consumes, stores and leaves. *)
Definition pct_take (s : bytes) : option (bytes * Z * bytes) :=
  match s with
  | c :: s' =>
      if c =? PCT then
        match s' with
        | h :: l :: s'' =>
            if (hex_nyb h <? 0) || (hex_nyb l <? 0) then None
            else Some ([c; h; l], 16 * hex_nyb h + hex_nyb l, s'')
        | _ => None
        end
      else Some ([c], c, s')
  | [] => None
  end.

Lemma pct_spec_take c s : pct_spec (c :: s) =
  match pct_take (c :: s) with Some (_, x, s') => cons x <$> pct_spec s' | None => None end.
Proof. simpl. destruct (c =? PCT); [|done]. destruct s as [|h [|l s]]; [done..|]. by case_if. Qed.

Lemma pct_take_split s u x s' : pct_take s = Some (u, x, s') → s = u ++ s' ∧ u ≠ [].
Proof.
  destruct s as [|c s]; [done|]. simpl. destruct (c =? PCT); [|by intros [= <- <- <-]].
  destruct s as [|h [|l s]]; [done..|]. case_if; [done|]. by intros [= <- <- <-].
Qed.

Ltac cells := cbn [app lookup list_lookup mbind option_bind].

Lemma pct_turn f d g c s rest : CStr (c :: s) →
  let m := d ++ g ++ (c :: s) ++ 0 :: rest in
  pct_loop (S f) m (length d + length g) (length d) =
    match pct_take (c :: s) with
    | None => Some (-1, m)
    | Some (u, x, _) =>
        m' ← wr m (length d) x; pct_loop f m' (length d + length g + length u) (length d + 1)
    end.
Proof.
  intros Hs m. apply CStr_cons in Hs as [Hc Hs]. cbn [pct_loop pct_take].
  rewrite <- (Nat.add_0_r (length d + length g)) at 1. subst m.
  rewrite !lookup_cursor. cells.
  destruct (Z.eqb_spec c 0); [lia|]. destruct (Z.eqb_spec c PCT); [|done].
  destruct s as [|h s]; [|apply CStr_cons in Hs as [Hh Hs]]; cells; [done|].
  destruct (Z.eqb_spec h 0); [lia|].
  destruct s as [|l s]; [|apply CStr_cons in Hs as [Hl Hs]]; cells; [done|].
  destruct (Z.eqb_spec l 0); [lia|].
  pose proof (hex_nyb_range h); pose proof (hex_nyb_range l).
  destruct (_ || _) eqn:E; [done|]. zify_bools. by rewrite lor_nibbles by lia.
Qed.

Lemma pct_loop_spec f d g s rest : CStr s → (length s < f)%nat →
  ∃ rc m', pct_loop f (d ++ g ++ s ++ 0 :: rest) (length d + length g) (length d) = Some (rc, m') ∧
    match pct_spec s with
    | Some t => rc = 0 ∧ ∃ junk, m' = d ++ t ++ 0 :: junk ++ rest ∧
                  (length t + length junk = length g + length s)%nat
    | None => rc = -1
    end.
Proof.
  revert d g s. induction f as [|f IH]; intros d g s Hs Hf; [lia|].
  destruct s as [|c s].
  { cbn [pct_loop app]. rewrite <- (Nat.add_0_r (length d + length g)), lookup_cursor.
    cbn [lookup list_lookup mbind option_bind].
    destruct (wr_cursor d g [0] rest 0) as (k & E & Hk); [done|]. cbn [app] in E.
    change (0 =? 0) with true. rewrite E. cbn [mbind option_bind].
    do 2 eexists. split; [done|]. split; [done|]. exists k. rewrite <- app_assoc.
    split; [done|]. simpl in *. lia. }
  rewrite pct_turn, pct_spec_take by done.
  destruct (pct_take (c :: s)) as [[[u x] s']|] eqn:Et; [|by do 2 eexists].
  apply pct_take_split in Et as [Es Hu]. rewrite Es in *. apply CStr_app in Hs as [_ Hs].
  rewrite <- (app_assoc u). destruct (wr_cursor d g u (s' ++ 0 :: rest) x Hu) as (k & -> & Hk).
  assert (Hl : (length (c :: s) = length u + length s')%nat) by (rewrite Es; apply length_app).
  rewrite length_app in *. cbn [mbind option_bind].
  destruct (IH (d ++ [x]) k s' Hs) as (rc & m' & E' & H'); [destruct u; simpl in *; [done|lia]|].
  rewrite length_app in E'. cbn [length] in *.
  replace (length d + length g + length u)%nat with (length d + 1 + length k)%nat by lia. rewrite E'.
  do 2 eexists. split; [done|]. destruct (pct_spec s') as [t|]; [|done]. cbn [fmap option_fmap option_map].
  destruct H' as (-> & junk & -> & Hj). split; [done|]. exists junk. rewrite <- app_assoc.
  split; [done|]. simpl. lia.
Qed.

Lemma pct_encode_spec q : CStr q →
  pct_spec (pct_encode q) = Some q ∧ CStr (pct_encode q) ∧ SLASH ∉ pct_encode q.
Proof.
  induction 1 as [|c q Hc Hq (IH1 & IH2 & IH3)].
  { split_and!; [done | by constructor | apply not_elem_of_nil]. }
  change (pct_encode (c :: q)) with (pct_enc1 c ++ pct_encode q).
  unfold pct_enc1. destruct (Z.eqb_spec c PCT) as [->|H1]; [|destruct (Z.eqb_spec c SLASH) as [->|H2]];
    cbn [orb]; split_and!.
  all: try (apply CStr_app; split; [solve_cstr || by apply Forall_singleton|done]).
  all: try (rewrite elem_of_app; intros [H|H]; [|done]; revert H; vm_compute; set_solver).
  - cbn. by rewrite IH1.
  - cbn. by rewrite IH1.
  - cbn [app pct_spec]. destruct (Z.eqb_spec c PCT); [done|]. by rewrite IH1.
Qed.

Lemma pct_decode_query q t : CStr q → pct_spec q = Some t → CStr t →
  ∃ m, anyfs_path_pct_decode (Some (q ++ [0])) = Some (0, Some m) ∧ c_str m = t.
Proof.
  intros Hq Ht Hc. unfold anyfs_path_pct_decode.
  destruct (pct_loop_spec (S (length (q ++ [0]))) [] [] q [] Hq) as (rc & m' & E & H);
    [rewrite length_app; lia|]. rewrite Ht in H. destruct H as (-> & junk & -> & _).
  cbn [app length Nat.add] in E. rewrite E. eexists. split; [done|]. by apply c_str_app.
Qed.

(** ** Segments *)

Lemma rd_0 s : rd s 0 = Some (hd 0 s).
Proof. by destruct s. Qed.

Lemma fmt_u_no_sep n c : 0 <= n < 10 ^ 20 → c ∈ fmt_u n → 48 <= c <= 57.
Proof.
  intros Hn Hc. destruct (fmt_u_spec n Hn) as (_ & H & _). rewrite Forall_forall in H. auto.
Qed.

Lemma parse_component_print c : comp_ok c → parse_component (print_comp c) = Some (Some c).
Proof.
  destruct c as [n q]. intros [Hn Hq]. unfold parse_component, print_comp. cbn [p query] in *.
  change (rd (112 :: _) 0) with (Some 112). cbn [mbind option_bind]. change (112 =? 112) with true.
  cbn [negb andb].
  assert (E : strchr QMARK (112 :: fmt_u n ++ match q with Some q => QMARK :: pct_encode q | None => [] end)
     = match q with Some q => Some (112 :: fmt_u n, pct_encode q) | None => None end).
  { assert (QMARK ∉ 112 :: fmt_u n).
    { rewrite elem_of_cons. intros [?|H]; [done|]. apply fmt_u_no_sep in H; unfold QMARK in *; lia. }
    destruct q as [q|]; [by apply (strchr_app QMARK (112 :: fmt_u n))|].
    rewrite app_nil_r. by apply strchr_None. }
  rewrite E. pose proof (strtoul_fmt_u n [] ltac:(lia) I) as Et. rewrite app_nil_r in Et.
  destruct (fmt_u_head n) as (x & l & Ex & Hx); [lia|].
  assert (u32 n = n) as Eu by (apply u32_small; lia).
  destruct q as [q|]; rewrite ?app_nil_r; change (drop 1 (112 :: fmt_u n)) with (fmt_u n); rewrite rd_0, Et, Ex; cbn [hd mbind option_bind].
  all: destruct (Z.eqb_spec x 0); [lia|]; rewrite rd_0; cbn [hd mbind option_bind Z.eqb negb orb].
  all: destruct (Z.eqb_spec n 0); [lia|]; rewrite ?Eu; try done.
  destruct (pct_encode_spec q Hq) as (Ep & Hc & _).
  by destruct (pct_decode_query _ _ Hc Ep Hq) as (m & -> & <-).
Qed.

Lemma parse_disk_print d : 0 <= d < 2 ^ 31 → parse_disk_prefix (bs "disk" ++ fmt_u d) = Some (1, d).
Proof.
  intros Hd. unfold parse_disk_prefix. rewrite starts_with_app. cbn [negb].
  change (drop 4 (bs "disk" ++ fmt_u d)) with (fmt_u d).
  destruct (fmt_u_head d) as (x & l & Ex & Hx); [lia|].
  pose proof (strtol_fmt_u d [] ltac:(lia) I) as Et. rewrite app_nil_r in Et.
  rewrite rd_0, Et, Ex. cbn [hd mbind option_bind]. destruct (Z.eqb_spec x 0); [lia|].
  rewrite (proj2 (isdigit_spec x)) by lia. cbn [negb]. rewrite rd_0. cbn [hd mbind option_bind Z.eqb negb orb].
  destruct (Z.ltb_spec d 0); [lia|]. by rewrite i32_small by lia.
Qed.

Lemma parse_disk_comp c : parse_disk_prefix (print_comp c) = Some (0, 0).
Proof. done. Qed.

Lemma parse_comps_print cs out : Forall comp_ok cs →
  parse_comps (print_comp <$> cs) out = Some (Some (out ++ cs)).
Proof.
  intros H. revert out. induction H as [|c cs Hc _ IH]; intros out; [by rewrite app_nil_r|].
  cbn [fmap list_fmap parse_comps]. rewrite parse_component_print by done.
  cbn [mbind option_bind]. by rewrite IH, <- app_assoc.
Qed.

Definition seg_ok (s : bytes) : Prop := s ≠ [] ∧ SLASH ∉ s.

Lemma split_join fuel segs acc : Forall seg_ok segs → segs ≠ [] → (length segs <= fuel)%nat →
  len acc + len segs <= 9 →
  split_loop fuel (Some (join_slash segs)) acc = Some (Some (acc ++ segs)).
Proof.
  intros H. revert fuel acc. induction H as [|s segs [Hn Hs] _ IH]; intros fuel acc Hne Hf Hl; [done|].
  destruct fuel as [|fuel]; [simpl in *; lia|]. simpl in Hf, Hl.
  assert (HM : (ANYFS_PATH_MAX_COMPONENTS + 1 <=? len acc) = false)
    by (apply Z.leb_gt; unfold ANYFS_PATH_MAX_COMPONENTS; lia).
  destruct segs as [|s' segs].
  - cbn [join_slash]. destruct s as [|x s]; [done|]. cbn [split_loop]. rewrite HM.
    apply strchr_None in Hs. rewrite Hs. by destruct fuel.
  - change (join_slash _) with (s ++ SLASH :: join_slash (s' :: segs)).
    replace (split_loop _ _ _) with (split_loop fuel (Some (join_slash (s' :: segs))) (acc ++ [s])).
    { rewrite IH; [by rewrite <- app_assoc|done|simpl in *; lia|rewrite length_app; simpl in *; lia]. }
    destruct s as [|x s]; [done|]. cbn [split_loop app]. rewrite HM.
    pose proof (strchr_app SLASH (x :: s) (join_slash (s' :: segs)) Hs) as E. cbn [app] in E. by rewrite E.
Qed.

Lemma skip_replicate n s : hd 0 s ≠ SLASH → skip_slashes (replicate n SLASH ++ s) = s.
Proof.
  intros H. induction n as [|n IH]; [|done]. destruct s as [|c s]; [done|]. simpl in *.
  by destruct (Z.eqb_spec c SLASH).
Qed.

Lemma strip_replicate s m : s = [] ∨ last s ≠ Some SLASH →
  strip_slashes (s ++ replicate m SLASH) (length (s ++ replicate m SLASH)) = length s.
Proof.
  intros H. rewrite length_app, length_replicate.
  assert (∀ k, (k <= m)%nat → strip_slashes (s ++ replicate m SLASH) (length s + k) = length s) as Hk.
  { induction k as [|k IH]; intros Hk.
    - rewrite Nat.add_0_r. destruct (length s) as [|l] eqn:El; [done|]. cbn [strip_slashes].
      destruct s as [|x s]; [done|]. rewrite lookup_app_l by lia.
      rewrite last_lookup, El in H. cbn [Nat.pred] in H. destruct ((x :: s) !! l) as [c|]; [|done].
      destruct (Z.eqb_spec c SLASH) as [->|]; [|done]. by destruct H.
    - rewrite Nat.add_succ_r. cbn [strip_slashes]. rewrite lookup_app_r by lia.
      rewrite lookup_replicate_2 by lia. change (SLASH =? SLASH) with true. apply IH. lia. }
  apply Hk. lia.
Qed.

Lemma print_comp_seg c : comp_ok c → seg_ok (print_comp c).
Proof.
  intros [Hp Hq]. split; [done|]. unfold print_comp. rewrite elem_of_cons, elem_of_app.
  intros [H|[H|H]]; [done|apply fmt_u_no_sep in H; unfold SLASH in *; lia|].
  destruct (query c) as [q|]; [|by apply not_elem_of_nil in H].
  apply elem_of_cons in H as [H|H]; [done|]. by apply (pct_encode_spec q Hq).
Qed.

Lemma print_segs_ok disk cs : Forall comp_ok cs → from_option (λ d, 0 <= d < 2 ^ 31) True disk →
  Forall seg_ok (print_segs disk cs).
Proof.
  intros Hc Hd. unfold print_segs. apply Forall_app. split.
  - destruct disk as [d|]; [|done]. simpl in Hd. apply Forall_singleton. split; [done|].
    rewrite elem_of_app. intros [H|H]; [revert H; vm_compute; set_solver|].
    apply fmt_u_no_sep in H; unfold SLASH in *; lia.
  - apply Forall_fmap. eapply Forall_impl; [done|]. by apply print_comp_seg.
Qed.

Lemma join_ends segs : Forall seg_ok segs → segs ≠ [] →
  join_slash segs ≠ [] ∧ hd 0 (join_slash segs) ≠ SLASH ∧ last (join_slash segs) ≠ Some SLASH ∧
  (length segs <= length (join_slash segs))%nat.
Proof.
  induction 1 as [|s segs [Hn Hs] Hsegs IH]; intros Hne; [done|]. destruct s as [|x s]; [done|].
  assert (x ≠ SLASH) by (intros ->; apply Hs; by left).
  destruct segs as [|s' segs].
  - cbn [join_slash length hd]. split_and!; [done..| |lia]. intros E.
    apply last_Some_elem_of in E. done.
  - destruct IH as (I1 & I2 & I3 & I4); [done|].
    change (join_slash _) with ((x :: s) ++ SLASH :: join_slash (s' :: segs)).
    split_and!; [done..| |rewrite length_app; simpl in *; lia].
    rewrite last_app, last_cons. destruct (last (join_slash _)) eqn:El; [congruence|].
    by apply last_None in El.
Qed.

Lemma split_total fuel p acc : (from_option length O p < fuel)%nat → len acc <= 9 →
  ∃ r, split_loop fuel p acc = Some r ∧
    from_option (λ segs, len segs <= 9 ∧ (from_option length O p ≠ 0%nat → segs ≠ [])) True r.
Proof.
  revert p acc. induction fuel as [|fuel IH]; intros p acc Hf Hl; [lia|].
  destruct p as [[|c s]|]; [by eexists| |by eexists]. cbn [split_loop].
  destruct (Z.leb_spec (ANYFS_PATH_MAX_COMPONENTS + 1) (len acc)) as [|Hm]; [by exists None|].
  unfold ANYFS_PATH_MAX_COMPONENTS in Hm. cbn [from_option] in Hf.
  assert (∀ p' a, (from_option length O p' < fuel)%nat → ∃ r, split_loop fuel p' (acc ++ [a]) = Some r ∧
    from_option (λ segs, len segs <= 9 ∧ segs ≠ []) True r) as H.
  { intros p' a Hp. destruct (IH p' (acc ++ [a])) as (r & E & Hr); [done|rewrite length_app; simpl; lia|].
    exists r. split; [done|]. destruct r as [segs|]; [|done]. destruct Hr as [Hr1 Hr2].
    split; [done|]. intros ->.
    clear -E. revert p' acc a E. induction fuel as [|f IH]; intros p' acc a E.
    - destruct p' as [[|??]|]; simplify_eq/=; by destruct acc.
    - destruct p' as [[|x s]|]; [by destruct acc| |by destruct acc]. cbn [split_loop] in E.
      case_match; [done|]. case_match; [case_match|]; eauto. }
  destruct (strchr SLASH (c :: s)) as [[a b]|] eqn:E.
  - apply strchr_Some in E as [E _]. apply (f_equal length) in E. rewrite length_app in E.
    destruct (H (Some b) a) as (r & -> & Hr); [simpl in *; lia|].
    exists r. split; [done|]. destruct r; naive_solver.
  - destruct (H None (c :: s)) as (r & -> & Hr); [simpl in *; lia|].
    exists r. split; [done|]. destruct r; naive_solver.
Qed.

Lemma split_CStr fuel s acc segs : CStr s → Forall CStr acc →
  split_loop fuel (Some s) acc = Some (Some segs) → Forall CStr segs.
Proof.
  revert s acc. induction fuel as [|fuel IH]; intros s acc Hs Ha; (destruct s as [|c s]; [by intros [= <-]|]); [done|].
  cbn [split_loop]. case_if; [done|].
  destruct (strchr SLASH (c :: s)) as [[a b]|] eqn:E'.
  - apply strchr_Some in E' as [E' _]. rewrite E' in Hs. apply CStr_app in Hs as [Hs1 [_ Hs2]%CStr_cons].
    apply IH; [done|]. by apply Forall_app_2; [|apply Forall_singleton].
  - destruct fuel; intros [= <-]; (by apply Forall_app_2; [|apply Forall_singleton]).
Qed.

Lemma skip_CStr s : CStr s → CStr (skip_slashes s).
Proof.
  induction s as [|c s IH]; [done|]. simpl. intros Hs. destruct (c =? SLASH); [|done].
  apply IH. by apply CStr_cons in Hs as [_ Hs].
Qed.

Lemma parse_component_total seg : CStr seg →
  ∃ r, parse_component seg = Some r ∧ from_option (λ c, 0 <= p c < 2 ^ 32) True r.
Proof.
  intros Hs. unfold parse_component. rewrite rd_0. cbn [mbind option_bind].
  destruct (_ && _); [by exists None|].
  destruct (match strchr QMARK seg with Some _ => _ | None => _ end) as [seg' q] eqn:Eq.
  assert (Hq : from_option CStr True q).
  { destruct (strchr QMARK seg) as [[a b]|] eqn:E; simplify_eq/=; [|done].
    apply strchr_Some in E as [-> _]. by apply CStr_app in Hs as [_ [_ Hs]%CStr_cons]. }
  rewrite rd_0. cbn [mbind option_bind]. destruct (_ =? 0); [by exists None|].
  destruct (strtoul (drop 1 seg')) as [v e]. rewrite rd_0. cbn [mbind option_bind].
  destruct (_ || _); [by exists None|].
  destruct q as [q|]; [|eexists; split; [done|]; apply u32_range].
  unfold anyfs_path_pct_decode.
  destruct (pct_loop_spec (S (length (q ++ [0]))) [] [] q [] Hq) as (rc & m' & E & _);
    [rewrite length_app; lia|]. cbn [app length Nat.add] in E. rewrite E. cbn [mbind option_bind fst snd].
  destruct (rc <? 0); eexists; (split; [done|]); [done|]. apply u32_range.
Qed.

Lemma parse_disk_total seg : ∃ dr i, parse_disk_prefix seg = Some (dr, i) ∧ (dr = 0 ∨ dr = 1 ∨ dr = -1).
Proof.
  unfold parse_disk_prefix. destruct (negb _); [by do 2 eexists; eauto|]. rewrite rd_0.
  cbn [mbind option_bind]. destruct (_ =? 0); [by do 2 eexists; eauto|].
  destruct (negb _); [by do 2 eexists; eauto|]. destruct (strtol _) as [v e]. rewrite rd_0.
  cbn [mbind option_bind]. destruct (_ || _); by do 2 eexists; eauto.
Qed.

Lemma parse_comps_total segs out : Forall CStr segs →
  ∃ r, parse_comps segs out = Some r ∧
    from_option (λ cs, ∃ new, cs = out ++ new ∧ length new = length segs ∧
                   Forall (λ c, 0 <= p c < 2 ^ 32) new) True r.
Proof.
  intros H. revert out. induction H as [|s segs Hs _ IH]; intros out.
  { eexists. split; [done|]. exists []. rewrite app_nil_r. auto. }
  cbn [parse_comps]. destruct (parse_component_total s Hs) as (r & -> & Hr). cbn [mbind option_bind].
  destruct r as [c|]; [|by exists None]. destruct (IH (out ++ [c])) as (r' & -> & Hr').
  exists r'. split; [done|]. destruct r' as [cs|]; [|done]. destruct Hr' as (new & -> & Hl & Hf).
  exists (c :: new). rewrite <- app_assoc. simpl in *. auto.
Qed.

(** Discharge guards that arithmetic refutes. *)
Ltac refute_guards :=
  repeat match goal with
  | |- context [?a =? ?b] => destruct (Z.eqb_spec a b); [exfalso; lia|]
  | |- context [ANYFS_PATH_MAX_COMPONENTS <? ?b] =>
      destruct (Z.ltb_spec ANYFS_PATH_MAX_COMPONENTS b);
        [exfalso; unfold ANYFS_PATH_MAX_COMPONENTS in *; lia|]
  end.

Example parse_1 : anyfs_path_parse true (Some (bs "/disk1/p3?pw=a%2Fb/P2//")) zero_path
  = Some (0, mk_path (Some (bs "disk1/p3?pw=a%2Fb/P2")) true 1 2
       [mk_comp 3 (Some (bs "pw=a/b")); mk_comp 2 None]).
Proof. reflexivity. Qed.

(** ** Properties *)

(** The in-place percent decoder: on every NUL-terminated text, whatever
    follows it in memory, it stays in bounds and returns; it returns 0 exactly
    when every escape is well formed, the text left is then the decoding, the
    write cursor never overtook the read cursor (nothing past the old
    terminator changed), and otherwise it returns -1. *)
Theorem pct_decode_refines s rest : CStr s →
  ∃ rc m', anyfs_path_pct_decode (Some (s ++ 0 :: rest)) = Some (rc, Some m') ∧
    match pct_spec s with
    | Some t => rc = 0 ∧ ∃ junk, m' = t ++ 0 :: junk ++ rest ∧
                  (length t + length junk = length s)%nat
    | None => rc = -1
    end.
Proof.
  intros Hs. unfold anyfs_path_pct_decode.
  destruct (pct_loop_spec (S (length (s ++ 0 :: rest))) [] [] s rest Hs) as (rc & m' & E & H);
    [rewrite length_app; lia|]. cbn [app length Nat.add] in *. rewrite E.
  exists rc, m'. by split.
Qed.

Lemma pct_decode_refines_witness :
  ∃ rc m', anyfs_path_pct_decode (Some (bs "a%2Fb" ++ [0; 7])) = Some (rc, Some m') ∧
    (rc = 0 ∧ ∃ junk, m' = bs "a/b" ++ 0 :: junk ++ [7] ∧ (3 + length junk = 5)%nat).
Proof. apply (pct_decode_refines (bs "a%2Fb") [7]). solve_cstr. Defined.

(** The parser inverts the printer. *)
Lemma path_parse_print disk cs n m out :
  Forall comp_ok cs → from_option (λ d, 0 <= d < 2 ^ 31) True disk → 1 <= len cs <= 8 →
  anyfs_path_parse true (Some (replicate n SLASH ++ print_path disk cs ++ replicate m SLASH)) out
  = Some (0, mk_path (Some (print_path disk cs)) (bool_decide (is_Some disk)) (default 0 disk) (len cs) cs).
Proof.
  intros Hc Hd Hl. pose proof (print_segs_ok disk cs Hc Hd) as Hs.
  assert (Hne : print_segs disk cs ≠ []) by (destruct disk, cs; simpl in *; done || lia).
  destruct (join_ends _ Hs Hne) as (J1 & J2 & J3 & J4). fold (print_path disk cs) in *.
  assert (Hlen : len (print_segs disk cs) <= 9).
  { unfold print_segs. rewrite length_app, length_fmap. destruct disk; simpl; lia. }
  unfold anyfs_path_parse. rewrite skip_replicate by (by destruct (print_path disk cs)).
  cbn [negb]. rewrite strip_replicate by auto. rewrite take_app_length.
  destruct (Nat.eqb_spec (length (print_path disk cs)) 0) as [E|_]; [by apply nil_length_inv in E|].
  pose proof (split_join (S (length (print_path disk cs))) _ [] Hs Hne ltac:(lia) ltac:(simpl; lia)) as Esp.
  fold (print_path disk cs) in Esp. rewrite Esp. clear Esp.
  cbn [app mbind option_bind]. destruct cs as [|c cs]; [simpl in *; lia|].
  pose proof (parse_comps_print (c :: cs) [] Hc) as E. cbn [app fmap list_fmap] in E.
  assert (Hf : length (print_comp <$> cs) = length cs) by apply length_fmap. rewrite length_cons in Hl.
  destruct disk as [d|]; unfold print_segs; cbn [app fmap list_fmap head mbind option_bind].
  - rewrite parse_disk_print by done. cbn [mbind option_bind].
    change (drop 1 (?x :: ?l)) with l. change (1 <? 0) with false. change (1 =? 1) with true.
    cbn [andb]. rewrite E. rewrite !length_cons, Hf. refute_guards. done.
  - rewrite parse_disk_comp. cbn [mbind option_bind].
    change (0 <? 0) with false. change (0 =? 1) with false.
    cbn [andb]. rewrite E. rewrite !length_cons, Hf. refute_guards. done.
Qed.

(** C5 Round trip of partition references: the canonical text of up to eight
    components, with an optional disk index and queries of any bytes, wrapped
    in any number of slashes, parses back to exactly those components. *)
Theorem path_roundtrip disk cs n m out :
  Forall comp_ok cs → from_option (λ d, 0 <= d < 2 ^ 31) True disk → 1 <= len cs <= 8 →
  anyfs_path_parse true (Some (replicate n SLASH ++ print_path disk cs ++ replicate m SLASH)) out
  = Some (0, mk_path (Some (print_path disk cs)) (bool_decide (is_Some disk)) (default 0 disk) (len cs) cs).
Proof. apply path_parse_print. Qed.

Lemma path_roundtrip_witness :
  anyfs_path_parse true (Some (replicate 1 SLASH ++ bs "disk7/p12?k=%2F" ++ replicate 2 SLASH)) zero_path
  = Some (0, mk_path (Some (bs "disk7/p12?k=%2F")) true 7 1 [mk_comp 12 (Some (bs "k=/"))]).
Proof.
  apply (path_roundtrip (Some 7) [mk_comp 12 (Some (bs "k=/"))] 1 2 zero_path).
  - apply Forall_singleton. split; [simpl; lia | solve_cstr].
  - simpl; lia.
  - simpl; lia.
Defined.

Lemma path_parse_ok sd s out : CStr s →
  ∃ rc out', anyfs_path_parse sd (Some s) out = Some (rc, out') ∧
    ((rc = 0 ∧ is_Some (arena out') ∧ 1 <= n_comp out' <= 8 ∧ len (comp out') = n_comp out' ∧
      Forall (λ c, 0 <= p c < 2 ^ 32) (comp out')) ∨
     (rc = -1 ∧ out' = zero_path)).
Proof.
  intros Hs. unfold anyfs_path_parse. set (s' := skip_slashes s).
  destruct sd; cbn [negb]; [|by do 2 eexists; eauto].
  set (a := take (strip_slashes s' (length s')) s').
  destruct (Nat.eqb_spec (strip_slashes s' (length s')) 0) as [|Hn]; [by do 2 eexists; eauto|].
  destruct (split_total (S (length a)) (Some a) []) as (r & Er & Hr); [simpl; lia..|].
  rewrite Er. cbn [mbind option_bind].
  destruct r as [segs|]; [|by do 2 eexists; eauto].
  destruct (Z.eqb_spec (len segs) 0); [by do 2 eexists; eauto|].
  destruct segs as [|seg0 segs]; [done|]. cbn [head mbind option_bind].
  destruct (parse_disk_total seg0) as (dr & i & -> & Hdr). cbn [mbind option_bind].
  destruct (dr <? 0); [by do 2 eexists; eauto|]. destruct (_ && _); [by do 2 eexists; eauto|].
  set (rest := if dr =? 1 then _ else _).
  destruct (_ || _) eqn:Eo; [by do 2 eexists; eauto|]. zify_bools.
  unfold ANYFS_PATH_MAX_COMPONENTS in *.
  assert (Hseg : Forall CStr (seg0 :: segs)).
  { eapply split_CStr; [|constructor|exact Er]. by apply CStr_take, skip_CStr. }
  destruct (parse_comps_total rest []) as (r' & -> & Hr').
  { subst rest. destruct (dr =? 1); [|done]. by inv Hseg. }
  cbn [mbind option_bind]. destruct r' as [cs|]; [|by do 2 eexists; eauto].
  destruct Hr' as (new & -> & Hl & Hf). do 2 eexists. split; [done|]. left. cbn [app arena n_comp comp].
  split_and!; [done|by eexists|lia|lia|done|done].
Qed.

(** Parsing any text terminates without an access out of bounds.  Success
    gives between one and eight components that own the copied text; every
    failure returns -1 and leaves the struct zeroed, so a second release is
    harmless. *)
Theorem path_parse_total sd s out : CStr s →
  ∃ rc out', anyfs_path_parse sd (Some s) out = Some (rc, out') ∧
    ((rc = 0 ∧ is_Some (arena out') ∧ 1 <= n_comp out' <= 8 ∧ len (comp out') = n_comp out' ∧
      Forall (λ c, 0 <= p c < 2 ^ 32) (comp out')) ∨
     (rc = -1 ∧ out' = zero_path)).
Proof. apply path_parse_ok. Qed.

Lemma path_parse_total_witness :
  ∃ rc out', anyfs_path_parse true (Some (bs "p1?a=%zz")) zero_path = Some (rc, out') ∧
    ((rc = 0 ∧ is_Some (arena out') ∧ 1 <= n_comp out' <= 8 ∧ len (comp out') = n_comp out' ∧
      Forall (λ c, 0 <= p c < 2 ^ 32) (comp out')) ∨
     (rc = -1 ∧ out' = zero_path)).
Proof. apply path_parse_total. solve_cstr. Defined.

(** Values past 32 bits wrap silently: partition 2^32 is accepted as partition
    0, and disk 2^31 as a negative disk index. *)
Lemma path_wraps :
  anyfs_path_parse true (Some (bs "disk2147483648/p4294967296")) zero_path
  = Some (0, mk_path (Some (bs "disk2147483648/p4294967296")) true (-2147483648) 1 [mk_comp 0 None]).
Proof. reflexivity. Qed.

End Path.
