(* ===== verification/Lkl.v ===== *)
(** * Lkl

    The Linux kernel library the sources call, which is not part of the
    repository: its system calls are the operations of a class over an
    arbitrary kernel state, and what the sources rely on is a second class of
    laws over a view of that state (open descriptors, mount table, read-only
    flags of block devices).  A small concrete kernel instantiates both for
    the witnesses. *)
From S2P Require Import Prelude CLib.
Import CLib.

Definition LKL_ENOENT : Z := 2.
Definition LKL_ENXIO : Z := 6.
Definition LKL_ENOMEM : Z := 12.
Definition LKL_EBUSY : Z := 16.
Definition LKL_EEXIST : Z := 17.
Definition LKL_EISDIR : Z := 21.
Definition LKL_EINVAL : Z := 22.
Definition LKL_ENOSYS : Z := 38.
Definition LKL_O_RDONLY : Z := 0.
Definition LKL_O_RDWR : Z := 2.
Definition LKL_MS_RDONLY : Z := 1.
Definition LKL_S_IFBLK : Z := 0x6000.
Definition LKL_S_IFCHR : Z := 0x2000.

(** struct dm_ioctl with the target it carries, if any. *)
Record dm_target := mk_target {
  tg_start : Z; tg_length : Z; tg_next : Z; tg_type : bytes; tg_params : bytes }.
Record dm_arg := mk_dm {
  dm_version : Z * Z * Z; dm_data_size : Z; dm_data_start : Z; dm_target_count : Z;
  dm_flags : Z; dm_dev : Z; dm_name : bytes; dm_tgt : option dm_target }.

(** A call on a kernel state: its result and the next state. *)
Abbreviation kcall W A := (W → A * W).

(** Calls that fill a buffer return the value and the bytes stored;
    [sys_opendir] returns the handle of the directory and the names
    [lkl_readdir] will deliver. *)
Class Lkl (W : Type) := {
  sys_open : bytes → Z → kcall W Z;
  sys_close : Z → kcall W Z;
  sys_read : Z → Z → kcall W (Z * bytes);
  sys_pread64 : Z → Z → Z → kcall W (Z * bytes);
  sys_readlink : bytes → Z → kcall W (Z * bytes);
  sys_access : bytes → kcall W Z;
  sys_mkdir : bytes → Z → kcall W Z;
  sys_rmdir : bytes → kcall W Z;
  sys_unlink : bytes → kcall W Z;
  sys_mknod : bytes → Z → Z → kcall W Z;
  sys_blkroset : Z → Z → kcall W Z;
  sys_blkrrpart : Z → kcall W Z;
  sys_dm_ioctl : Z → Z → dm_arg → kcall W (Z * dm_arg);
  sys_mount : bytes → bytes → bytes → Z → option bytes → kcall W Z;
  sys_umount : bytes → kcall W Z;
  sys_sync : kcall W Z;
  sys_nanosleep : Z → kcall W Z;
  sys_opendir : bytes → kcall W (option (Z * list bytes));
  sys_closedir : Z → kcall W Z;
  get_virtio_blkdev : Z → Z → kcall W (Z * Z);
}.

Definition call {W A} (f : kcall W A) : M W A := λ w, Some (f w).

Section Calls.
Context {W} `{!Lkl W}.
Definition lkl_sys_open p f : M W Z := call (sys_open p f).
Definition lkl_sys_close fd : M W Z := call (sys_close fd).
Definition lkl_sys_read fd n : M W (Z * bytes) := call (sys_read fd n).
Definition lkl_sys_pread64 fd n off : M W (Z * bytes) := call (sys_pread64 fd n off).
Definition lkl_sys_readlink p n : M W (Z * bytes) := call (sys_readlink p n).
Definition lkl_sys_access p : M W Z := call (sys_access p).
Definition lkl_sys_mkdir p m : M W Z := call (sys_mkdir p m).
Definition lkl_sys_rmdir p : M W Z := call (sys_rmdir p).
Definition lkl_sys_unlink p : M W Z := call (sys_unlink p).
Definition lkl_sys_mknod p m d : M W Z := call (sys_mknod p m d).
Definition lkl_sys_blkroset fd ro : M W Z := call (sys_blkroset fd ro).
Definition lkl_sys_blkrrpart fd : M W Z := call (sys_blkrrpart fd).
Definition lkl_sys_dm_ioctl fd c a : M W (Z * dm_arg) := call (sys_dm_ioctl fd c a).
Definition lkl_sys_mount d m t f o : M W Z := call (sys_mount d m t f o).
Definition lkl_sys_umount p : M W Z := call (sys_umount p).
Definition lkl_sys_sync : M W Z := call sys_sync.
Definition lkl_sys_nanosleep ms : M W Z := call (sys_nanosleep ms).
Definition lkl_opendir p : M W (option (Z * list bytes)) := call (sys_opendir p).
Definition lkl_closedir h : M W Z := call (sys_closedir h).
Definition lkl_get_virtio_blkdev d p : M W (Z * Z) := call (get_virtio_blkdev d p).
End Calls.

(** ** What the sources rely on *)

Record MountInfo := mk_mi { mi_dev : bytes; mi_fs : bytes; mi_ro : bool; mi_opts : option bytes }.

(** Open descriptors and directories with their paths, the mount table, devices flagged read-only,
    and the disks attached. *)
Record KView := mk_view {
  v_fds : gmap Z bytes;
  v_mnt : gmap bytes MountInfo;
  v_bro : gmap bytes bool;
  v_dsk : gset Z }.

(** Calls that neither open, close, mount nor flag a device keep the view;
    no call of the kernel attaches a disk. *)
Class LklLaws (W : Type) `{!Lkl W} := {
  view : W → KView;
  law_open p f w r w' : sys_open p f w = (r, w') →
    (- 4096 < r < 0 ∧ view w' = view w) ∨
    (0 <= r ∧ v_fds (view w) !! r = None ∧
     view w' = mk_view (<[r := p]> (v_fds (view w))) (v_mnt (view w)) (v_bro (view w)) (v_dsk (view w)));
  law_close fd w : view (sys_close fd w).2
    = mk_view (delete fd (v_fds (view w))) (v_mnt (view w)) (v_bro (view w)) (v_dsk (view w));
  law_read fd n w r d w' : sys_read fd n w = ((r, d), w') →
    view w' = view w ∧ len d = Z.max 0 r ∧ (0 <= n → r <= n);
  law_pread fd n off w r d w' : sys_pread64 fd n off w = ((r, d), w') →
    view w' = view w ∧ len d = Z.max 0 r ∧ (0 <= n → r <= n);
  law_readlink p n w r d w' : sys_readlink p n w = ((r, d), w') →
    view w' = view w ∧ len d = Z.max 0 r ∧ (0 <= n → r <= n);
  law_access p w : view (sys_access p w).2 = view w;
  law_mkdir p m w : view (sys_mkdir p m w).2 = view w;
  law_rmdir p w : view (sys_rmdir p w).2 = view w;
  law_unlink p w : view (sys_unlink p w).2 = view w;
  law_mknod p m d w : view (sys_mknod p m d w).2 = view w;
  law_sync w : view (sys_sync w).2 = view w;
  law_nanosleep ms w : view (sys_nanosleep ms w).2 = view w;
  law_opendir p w r w' : sys_opendir p w = (r, w') →
    match r with
    | None => view w' = view w
    | Some (h, _) => v_fds (view w) !! h = None ∧
        view w' = mk_view (<[h := p]> (v_fds (view w))) (v_mnt (view w)) (v_bro (view w)) (v_dsk (view w))
    end;
  law_closedir h w : view (sys_closedir h w).2
    = mk_view (delete h (v_fds (view w))) (v_mnt (view w)) (v_bro (view w)) (v_dsk (view w));
  law_virtio d p w r w' : get_virtio_blkdev d p w = (r, w') → view w' = view w;
  law_blkrrpart fd w : view (sys_blkrrpart fd w).2 = view w;
  law_dm_ioctl fd c a w r w' : sys_dm_ioctl fd c a w = (r, w') → view w' = view w;
  law_blkroset fd ro w r w' : sys_blkroset fd ro w = (r, w') →
    (- 4096 < r < 0 ∧ view w' = view w) ∨
    (r = 0 ∧ ∃ p, v_fds (view w) !! fd = Some p ∧
       view w' = mk_view (v_fds (view w)) (v_mnt (view w)) (<[p := negb (ro =? 0)]> (v_bro (view w))) (v_dsk (view w)));
  law_mount d m t f o w r w' : sys_mount d m t f o w = (r, w') →
    (- 4096 < r < 0 ∧ view w' = view w) ∨
    (r = 0 ∧ view w' = mk_view (v_fds (view w))
                 (<[m := mk_mi d t (flag f LKL_MS_RDONLY) o]> (v_mnt (view w))) (v_bro (view w)) (v_dsk (view w)));
  law_umount m w r w' : sys_umount m w = (r, w') →
    (- 4096 < r < 0 ∧ view w' = view w) ∨
    (r = 0 ∧ view w' = mk_view (v_fds (view w)) (delete m (v_mnt (view w))) (v_bro (view w)) (v_dsk (view w)));
}.

(** ** The host and libblkid *)

(** Calls of the host and of libblkid.  [blkid_lookup] returns the value and
    its length as a list of bytes. *)
Class Host (W : Type) := {
  host_tmpfile : kcall W Z;          (* open("/tmp", O_TMPFILE ...) *)
  host_mkstemp : kcall W Z;          (* mkstemp + unlink *)
  host_write : Z → bytes → kcall W Z;
  host_lseek0 : Z → kcall W Z;
  host_close : Z → kcall W Z;
  blkid_new_probe_from_filename : bytes → kcall W bool;
  blkid_enable : kcall W Z;
  blkid_do_safeprobe : kcall W Z;
  blkid_probe_lookup_value : bytes → kcall W (option bytes);
  blkid_free_probe : kcall W Z;
}.

(** The host's state: open descriptors and live libblkid probes. *)
Record HView := mk_hview { h_fds : gset Z; h_probes : Z }.

(** The host's calls leave the kernel alone and the other way round. *)
Class HostLaws (W : Type) `{!Lkl W, !LklLaws W, !Host W} := {
  hview : W → HView;
  hlaw_open p f w : hview (sys_open p f w).2 = hview w;
  hlaw_close fd w : hview (sys_close fd w).2 = hview w;
  hlaw_pread fd n o w : hview (sys_pread64 fd n o w).2 = hview w;
  hlaw_tmpfile w r w' : host_tmpfile w = (r, w') →
    view w' = view w ∧
    ((r < 0 ∧ hview w' = hview w) ∨
     (0 <= r ∧ r ∉ h_fds (hview w) ∧ hview w' = mk_hview ({[r]} ∪ h_fds (hview w)) (h_probes (hview w))));
  hlaw_mkstemp w r w' : host_mkstemp w = (r, w') →
    view w' = view w ∧
    ((r < 0 ∧ hview w' = hview w) ∨
     (0 <= r ∧ r ∉ h_fds (hview w) ∧ hview w' = mk_hview ({[r]} ∪ h_fds (hview w)) (h_probes (hview w))));
  hlaw_write fd b w r w' : host_write fd b w = (r, w') →
    view w' = view w ∧ hview w' = hview w ∧ r <= len b;
  hlaw_lseek fd w : view (host_lseek0 fd w).2 = view w ∧ hview (host_lseek0 fd w).2 = hview w;
  hlaw_hclose fd w : view (host_close fd w).2 = view w ∧
    hview (host_close fd w).2 = mk_hview (h_fds (hview w) ∖ {[fd]}) (h_probes (hview w));
  hlaw_new p w r w' : blkid_new_probe_from_filename p w = (r, w') →
    view w' = view w ∧
    hview w' = mk_hview (h_fds (hview w)) (h_probes (hview w) + if (r : bool) then 1 else 0);
  hlaw_enable w : view (blkid_enable w).2 = view w ∧ hview (blkid_enable w).2 = hview w;
  hlaw_probe w : view (blkid_do_safeprobe w).2 = view w ∧ hview (blkid_do_safeprobe w).2 = hview w;
  hlaw_lookup n w : view (blkid_probe_lookup_value n w).2 = view w ∧
    hview (blkid_probe_lookup_value n w).2 = hview w;
  hlaw_free w : view (blkid_free_probe w).2 = view w ∧
    hview (blkid_free_probe w).2 = mk_hview (h_fds (hview w)) (h_probes (hview w) - 1);
}.

(** ** Program state beside the kernel's

    A component with state [S] of its own runs on [S * W]; [lower] runs code
    on the kernel half. *)
Definition lower {S W A} (m : M W A) : M (S * W) A := λ sw,
  match m sw.2 with Some (a, w) => Some (a, (sw.1, w)) | None => None end.

Lemma wp_lower {S W A} (m : M W A) (Q : A → S * W → Prop) sw :
  wp (lower m) Q sw ↔ wp m (λ a w, Q a (sw.1, w)) sw.2.
Proof. unfold wp, lower. by destruct (m sw.2) as [[??]|]. Qed.

(** Everything of a kernel but its descriptors. *)
Definition rest_of {W} `{!Lkl W, !LklLaws W} (w : W) := (v_mnt (view w), v_bro (view w), v_dsk (view w)).

(** ** Weakest preconditions of the calls *)
Section Wp.
Context {W} `{!Lkl W} `{!LklLaws W}.
Implicit Types (w : W).

Lemma wp_call {A} (f : kcall W A) (Q : A → W → Prop) w :
  wp (call f) Q w ↔ Q (f w).1 (f w).2.
Proof. unfold wp, call. by destruct (f w). Qed.

Lemma wp_open p f (Q : Z → W → Prop) w :
  (∀ r w', - 4096 < r < 0 → view w' = view w → Q r w') →
  (∀ r w', 0 <= r → v_fds (view w) !! r = None →
     view w' = mk_view (<[r := p]> (v_fds (view w))) (v_mnt (view w)) (v_bro (view w)) (v_dsk (view w)) → Q r w') →
  wp (lkl_sys_open p f) Q w.
Proof.
  intros H1 H2. apply wp_call. destruct (sys_open p f w) as [r w'] eqn:E.
  apply law_open in E. naive_solver.
Qed.

Lemma wp_close fd (Q : Z → W → Prop) w :
  (∀ r w', view w' = mk_view (delete fd (v_fds (view w))) (v_mnt (view w)) (v_bro (view w)) (v_dsk (view w)) → Q r w') →
  wp (lkl_sys_close fd) Q w.
Proof. intros H. apply wp_call, H, law_close. Qed.

Lemma wp_read fd n (Q : Z * bytes → W → Prop) w :
  (∀ r d w', view w' = view w → len d = Z.max 0 r → (0 <= n → r <= n) → Q (r, d) w') →
  wp (lkl_sys_read fd n) Q w.
Proof.
  intros H. apply wp_call. destruct (sys_read fd n w) as [[r d] w'] eqn:E.
  apply law_read in E. naive_solver.
Qed.

Lemma wp_pread fd n off (Q : Z * bytes → W → Prop) w :
  (∀ r d w', view w' = view w → len d = Z.max 0 r → (0 <= n → r <= n) → Q (r, d) w') →
  wp (lkl_sys_pread64 fd n off) Q w.
Proof.
  intros H. apply wp_call. destruct (sys_pread64 fd n off w) as [[r d] w'] eqn:E.
  apply law_pread in E. naive_solver.
Qed.

Lemma wp_readlink p n (Q : Z * bytes → W → Prop) w :
  (∀ r d w', view w' = view w → len d = Z.max 0 r → (0 <= n → r <= n) → Q (r, d) w') →
  wp (lkl_sys_readlink p n) Q w.
Proof.
  intros H. apply wp_call. destruct (sys_readlink p n w) as [[r d] w'] eqn:E.
  apply law_readlink in E. naive_solver.
Qed.

Lemma wp_virtio d p (Q : Z * Z → W → Prop) w :
  (∀ r w', view w' = view w → Q r w') → wp (lkl_get_virtio_blkdev d p) Q w.
Proof.
  intros H. apply wp_call. destruct (get_virtio_blkdev d p w) as [r w'] eqn:E.
  apply law_virtio in E. naive_solver.
Qed.

Lemma wp_quiet (f : kcall W Z) (Q : Z → W → Prop) w :
  view (f w).2 = view w → (∀ r w', view w' = view w → Q r w') → wp (call f) Q w.
Proof. intros Hf H. apply wp_call. auto. Qed.

Lemma wp_access p (Q : Z → W → Prop) w :
  (∀ r w', view w' = view w → Q r w') → wp (lkl_sys_access p) Q w.
Proof. apply wp_quiet, law_access. Qed.
Lemma wp_mkdir p m (Q : Z → W → Prop) w :
  (∀ r w', view w' = view w → Q r w') → wp (lkl_sys_mkdir p m) Q w.
Proof. apply wp_quiet, law_mkdir. Qed.
Lemma wp_rmdir p (Q : Z → W → Prop) w :
  (∀ r w', view w' = view w → Q r w') → wp (lkl_sys_rmdir p) Q w.
Proof. apply wp_quiet, law_rmdir. Qed.
Lemma wp_unlink p (Q : Z → W → Prop) w :
  (∀ r w', view w' = view w → Q r w') → wp (lkl_sys_unlink p) Q w.
Proof. apply wp_quiet, law_unlink. Qed.
Lemma wp_mknod p m d (Q : Z → W → Prop) w :
  (∀ r w', view w' = view w → Q r w') → wp (lkl_sys_mknod p m d) Q w.
Proof. apply wp_quiet, law_mknod. Qed.
Lemma wp_sync (Q : Z → W → Prop) w :
  (∀ r w', view w' = view w → Q r w') → wp lkl_sys_sync Q w.
Proof. apply wp_quiet, law_sync. Qed.
Lemma wp_nanosleep ms (Q : Z → W → Prop) w :
  (∀ r w', view w' = view w → Q r w') → wp (lkl_sys_nanosleep ms) Q w.
Proof. apply wp_quiet, law_nanosleep. Qed.

Lemma wp_blkrrpart fd (Q : Z → W → Prop) w :
  (∀ r w', view w' = view w → Q r w') → wp (lkl_sys_blkrrpart fd) Q w.
Proof. apply wp_quiet, law_blkrrpart. Qed.
Lemma wp_dm_ioctl fd c a (Q : Z * dm_arg → W → Prop) w :
  (∀ r w', view w' = view w → Q r w') → wp (lkl_sys_dm_ioctl fd c a) Q w.
Proof.
  intros H. apply wp_call. destruct (sys_dm_ioctl fd c a w) as [r w'] eqn:E.
  apply law_dm_ioctl in E. naive_solver.
Qed.

(** Opening a directory, some code that keeps the view, closing it. *)
Lemma dir_closed p h ns w w1 w2 : sys_opendir p w = (Some (h, ns), w1) → view w2 = view w1 → view (sys_closedir h w2).2 = view w.
Proof.
  intros E Hv. apply law_opendir in E as [Hn E]. rewrite law_closedir, Hv, E. cbn. rewrite delete_insert_id by done. by destruct (view w).
Qed.

Lemma wp_blkroset fd ro p (Q : Z → W → Prop) w :
  v_fds (view w) !! fd = Some p →
  (∀ r w', - 4096 < r < 0 → view w' = view w → Q r w') →
  (∀ w', view w' = mk_view (v_fds (view w)) (v_mnt (view w)) (<[p := negb (ro =? 0)]> (v_bro (view w))) (v_dsk (view w)) → Q 0 w') →
  wp (lkl_sys_blkroset fd ro) Q w.
Proof.
  intros Hp H1 H2. apply wp_call. destruct (sys_blkroset fd ro w) as [r w'] eqn:E.
  apply law_blkroset in E as [[??]|(-> & p' & ? & ?)]; simplify_eq/=; auto.
Qed.

Lemma wp_mount d m t f o (Q : Z → W → Prop) w :
  (∀ r w', - 4096 < r < 0 → view w' = view w → Q r w') →
  (∀ w', view w' = mk_view (v_fds (view w)) (<[m := mk_mi d t (flag f LKL_MS_RDONLY) o]> (v_mnt (view w)))
                     (v_bro (view w)) (v_dsk (view w)) → Q 0 w') →
  wp (lkl_sys_mount d m t f o) Q w.
Proof.
  intros H1 H2. apply wp_call. destruct (sys_mount d m t f o w) as [r w'] eqn:E.
  apply law_mount in E as [[??]|[-> ?]]; simpl; auto.
Qed.

Lemma wp_umount m (Q : Z → W → Prop) w :
  (∀ r w', - 4096 < r < 0 → view w' = view w → Q r w') →
  (∀ w', view w' = mk_view (v_fds (view w)) (delete m (v_mnt (view w))) (v_bro (view w)) (v_dsk (view w)) → Q 0 w') →
  wp (lkl_sys_umount m) Q w.
Proof.
  intros H1 H2. apply wp_call. destruct (sys_umount m w) as [r w'] eqn:E.
  apply law_umount in E as [[??]|[-> ?]]; simpl; auto.
Qed.
End Wp.

(** ** A concrete kernel

    Files with contents, directories with names, the filesystem each block
    device carries, and the view kept as it is. *)
Module Toy.
Record toy := mk_toy {
  t_next : Z;
  t_view : KView;
  t_files : gmap bytes bytes;
  t_dirs : gmap bytes (list bytes);
  t_fs : gmap bytes bytes;
  t_dev : Z;
  t_host : HView;
  t_blkid : gmap bytes bytes }.

Definition set_view (w : toy) (v : KView) : toy :=
  mk_toy (t_next w) v (t_files w) (t_dirs w) (t_fs w) (t_dev w) (t_host w) (t_blkid w).

Definition content (w : toy) (fd : Z) : bytes :=
  default [] (v_fds (t_view w) !! fd ≫= λ p, t_files w !! p).

(** At most [n] bytes from [off]. *)
Definition slice (d : bytes) (n off : Z) : Z * bytes :=
  let r := take (Z.to_nat n) (drop (Z.to_nat off) d) in (len r, r).

Definition quiet (r : Z) : kcall toy Z := λ w, (r, w).

#[global] Instance toy_lkl : Lkl toy := {|
  sys_open p f w :=
    match t_files w !! p, v_fds (t_view w) !! t_next w with
    | Some _, None =>
        if 0 <=? t_next w then
          (t_next w, mk_toy (t_next w + 1)
                       (mk_view (<[t_next w := p]> (v_fds (t_view w))) (v_mnt (t_view w)) (v_bro (t_view w)) (v_dsk (t_view w)))
                       (t_files w) (t_dirs w) (t_fs w) (t_dev w) (t_host w) (t_blkid w))
        else (- LKL_ENOENT, w)
    | _, _ => (- LKL_ENOENT, w)
    end;
  sys_close fd w :=
    (0, set_view w (mk_view (delete fd (v_fds (t_view w))) (v_mnt (t_view w)) (v_bro (t_view w)) (v_dsk (t_view w))));
  sys_read fd n w := (slice (content w fd) n 0, w);
  sys_pread64 fd n off w := (slice (content w fd) n off, w);
  sys_readlink p n w := (slice (default [] (t_files w !! p)) n 0, w);
  sys_access p w := (if bool_decide (is_Some (t_files w !! p)) then 0 else - LKL_ENOENT, w);
  sys_mkdir p m := quiet 0;
  sys_rmdir p := quiet 0;
  sys_unlink p := quiet 0;
  sys_mknod p m d := quiet 0;
  sys_blkroset fd ro w :=
    match v_fds (t_view w) !! fd with
    | Some p => (0, set_view w (mk_view (v_fds (t_view w)) (v_mnt (t_view w))
                                  (<[p := negb (ro =? 0)]> (v_bro (t_view w))) (v_dsk (t_view w))))
    | None => (-9, w)
    end;
  sys_blkrrpart fd := quiet 0;
  sys_dm_ioctl fd c a w := ((0, a), w);
  sys_mount d m t f o w :=
    if bool_decide (t_fs w !! d = Some t) then
      if bool_decide (is_Some (v_mnt (t_view w) !! m)) then (- LKL_EBUSY, w)
      else (0, set_view w (mk_view (v_fds (t_view w))
                            (<[m := mk_mi d t (flag f LKL_MS_RDONLY) o]> (v_mnt (t_view w))) (v_bro (t_view w)) (v_dsk (t_view w))))
    else (- LKL_EINVAL, w);
  sys_umount m w :=
    if bool_decide (is_Some (v_mnt (t_view w) !! m)) then
      (0, set_view w (mk_view (v_fds (t_view w)) (delete m (v_mnt (t_view w))) (v_bro (t_view w)) (v_dsk (t_view w))))
    else (- LKL_EINVAL, w);
  sys_sync := quiet 0;
  sys_nanosleep ms := quiet 0;
  sys_opendir p w :=
    match t_dirs w !! p, v_fds (t_view w) !! -1 with
    | Some ns, None => (Some (-1, ns), set_view w (mk_view (<[-1 := p]> (v_fds (t_view w))) (v_mnt (t_view w)) (v_bro (t_view w)) (v_dsk (t_view w))))
    | _, _ => (None, w)
    end;
  sys_closedir h w :=
    (0, set_view w (mk_view (delete h (v_fds (t_view w))) (v_mnt (t_view w)) (v_bro (t_view w)) (v_dsk (t_view w))));
  get_virtio_blkdev d p w := ((0, t_dev w), w);
|}.

Lemma slice_law d n off r o : slice d n off = (r, o) → len o = Z.max 0 r ∧ (0 <= n → r <= n).
Proof.
  unfold slice. intros [= <- <-]. rewrite length_take, length_drop. lia.
Qed.

#[global] Instance toy_laws : LklLaws toy.
Proof.
  refine {| view := t_view |}; try done; cbn -[flag slice].
  - intros p f w r w'. case_match; [|intros [= <- <-]; by left]. case_match; [intros [= <- <-]; by left|].
    destruct (Z.leb_spec 0 (t_next w)); intros [= <- <-]; [right|left]; done.
  - intros fd n w r d w'. destruct (slice _ _ _) eqn:E. intros [= <- <- <-].
    split; [done|]. by eapply slice_law.
  - intros fd n off w r d w'. destruct (slice _ _ _) eqn:E. intros [= <- <- <-].
    split; [done|]. by eapply slice_law.
  - intros p n w r d w'. destruct (slice _ _ _) eqn:E. intros [= <- <- <-].
    split; [done|]. by eapply slice_law.
  - intros p w r w'. case_match; [|by intros [= <- <-]]. case_match; by intros [= <- <-].
  - by intros d p w r w' [= <- <-].
  - by intros fd c a w r w' [= <- <-].
  - intros fd ro w r w'. case_match; intros [= <- <-]; [right|by left]. split; [done|]. by eexists.
  - intros d m t f o w r w'. repeat case_bool_decide; intros [= <- <-]; [by left|by right|by left].
  - intros m w r w'. case_bool_decide; intros [= <- <-]; [by right|by left].
Defined.

Definition empty_view : KView := mk_view ∅ ∅ ∅ ∅.
Definition empty_hview : HView := mk_hview ∅ 0.

Definition set_host (w : toy) (h : HView) : toy :=
  mk_toy (t_next w) (t_view w) (t_files w) (t_dirs w) (t_fs w) (t_dev w) h (t_blkid w).

(** The host descriptor after the largest open one. *)
Definition fresh_fd (h : HView) : Z := 3 + set_fold Z.max 0 (h_fds h).

#[global] Instance toy_host : Host toy := {|
  host_tmpfile w := (-1, w);
  host_mkstemp w :=
    let fd := fresh_fd (t_host w) in
    if bool_decide (0 <= fd ∧ fd ∉ h_fds (t_host w))
    then (fd, set_host w (mk_hview ({[fd]} ∪ h_fds (t_host w)) (h_probes (t_host w)))) else (-1, w);
  host_write fd b w := (len b, w);
  host_lseek0 fd w := (0, w);
  host_close fd w := (0, set_host w (mk_hview (h_fds (t_host w) ∖ {[fd]}) (h_probes (t_host w))));
  blkid_new_probe_from_filename p w :=
    (true, set_host w (mk_hview (h_fds (t_host w)) (h_probes (t_host w) + 1)));
  blkid_enable w := (0, w);
  blkid_do_safeprobe w := (0, w);
  blkid_probe_lookup_value n w := (option_map (map u8) (t_blkid w !! n), w);
  blkid_free_probe w := (0, set_host w (mk_hview (h_fds (t_host w)) (h_probes (t_host w) - 1)));
|}.

#[global] Instance toy_host_laws : HostLaws toy.
Proof.
  refine {| hview := t_host |}; try done; cbn.
  - intros p f w. repeat case_match; done.
  - by intros w r w' [= <- <-]; split; [|left].
  - intros w r w'. case_bool_decide; intros [= <- <-]; (split; [done|]); [right|left]; naive_solver.
  - intros fd b w r w' [= <- <-]. split_and!; [done..|lia].
  - by intros p w r w' [= <- <-].
Defined.
End Toy.

(** Step a [wp] goal over a call whose effect on the view is unconditional. *)
Ltac wp_lkl :=
  match goal with
  | |- wp (lkl_sys_close _) _ _ => apply wp_close; intros ? ? ?
  | |- wp (lkl_sys_read _ _) _ _ => apply wp_read; intros ? ? ? ? ? ?
  | |- wp (lkl_sys_pread64 _ _ _) _ _ => apply wp_pread; intros ? ? ? ? ? ?
  | |- wp (lkl_sys_readlink _ _) _ _ => apply wp_readlink; intros ? ? ? ? ? ?
  | |- wp (lkl_sys_access _) _ _ => apply wp_access; intros ? ? ?
  | |- wp (lkl_sys_mkdir _ _) _ _ => apply wp_mkdir; intros ? ? ?
  | |- wp (lkl_sys_rmdir _) _ _ => apply wp_rmdir; intros ? ? ?
  | |- wp (lkl_sys_unlink _) _ _ => apply wp_unlink; intros ? ? ?
  | |- wp (lkl_sys_blkrrpart _) _ _ => apply wp_blkrrpart; intros ? ? ?
  | |- wp (lkl_sys_dm_ioctl _ _ _) _ _ => apply wp_dm_ioctl; intros ? ? ?
  | |- wp (lkl_sys_mknod _ _ _) _ _ => apply wp_mknod; intros ? ? ?
  | |- wp lkl_sys_sync _ _ => apply wp_sync; intros ? ? ?
  | |- wp (lkl_sys_nanosleep _) _ _ => apply wp_nanosleep; intros ? ? ?
  | |- wp (lkl_get_virtio_blkdev _ _) _ _ => apply wp_virtio; intros ? ? ?
  end.
Ltac wp_auto := repeat (wp_step || wp_lkl).
