(* ===== verification/Probe.v ===== *)
(** * Probe

    src/core/anyfs_probe.c: the classification of a partition by its first
    sectors, the MBR and GPT parsers, and the libblkid enrichment over a
    spooled host file.  The parsers read memory through [rdz], which is stuck
    out of range, and keep the 64-bit wrap-around of their offsets.  libblkid
    and the host's files are a class of calls, like the kernel's. *)
From Stdlib Require Import Sorted.
From S2P Require Import Prelude CLib Lkl.
Import CLib.

Module Probe.

Inductive AnyfsPartKind :=
  | ANYFS_PART_KIND_FS
  | ANYFS_PART_KIND_LVM_PV
  | ANYFS_PART_KIND_LUKS
  | ANYFS_PART_KIND_NESTED_PARTITION_TABLE
  | ANYFS_PART_KIND_UNKNOWN.

#[export] Instance kind_eq : EqDecision AnyfsPartKind.
Proof. solve_decision. Defined.

Definition PROBE_SIZE : Z := 64 * 1024.

(** [memcmp(buf + off, pat, strlen(pat)) == 0] *)
Definition memcmp_eq (buf : bytes) (off : Z) (pat : bytes) : option bool :=
  if (0 <=? off) && (off + len pat <=? len buf)
  then Some (bool_decide (take (length pat) (drop (Z.to_nat off) buf) = pat))
  else None.

Definition mem_match (buf : bytes) (off : Z) (pat : bytes) : option bool :=
  if len buf <? off + len pat then Some false else memcmp_eq buf off pat.

Definition LUKS_MAGIC : bytes := bs "LUKS" ++ [0xBA; 0xBE].

(** The scan of label sectors [s], [s + 1], ... for an LVM2 label. *)
Fixpoint lvm_scan (buf : bytes) (sectors : list Z) : option bool :=
  match sectors with
  | [] => Some false
  | s :: rest =>
      let base := s * 512 in
      if len buf <? base + 64 then Some false
      else
        a ← mem_match buf base (bs "LABELONE");
        b ← (if (a : bool) then mem_match buf (base + 0x20) (bs "LVM2 001") else Some false);
        if (b : bool) then Some true else lvm_scan buf rest
  end.

(** One of the entries [i] has a valid boot flag and a type byte that [ok]
    accepts. *)
Fixpoint mbr_scan (buf : bytes) (ok : Z → bool) (idxs : list Z) : option bool :=
  match idxs with
  | [] => Some false
  | i :: rest =>
      let e := 446 + i * 16 in
      e0 ← rdz buf e;
      e4 ← (if (e0 =? 0x00) || (e0 =? 0x80) then rdz buf (e + 4) else Some 0);
      if ((e0 =? 0x00) || (e0 =? 0x80)) && ok e4 then Some true else mbr_scan buf ok rest
  end.

Definition anyfs_probe_kind_buf (buf : option bytes) : option AnyfsPartKind :=
  match buf with
  | None => Some ANYFS_PART_KIND_FS
  | Some buf =>
      if len buf <? 512 then Some ANYFS_PART_KIND_FS
      else
        luks ← mem_match buf 0 LUKS_MAGIC;
        if (luks : bool) then Some ANYFS_PART_KIND_LUKS
        else
          lvm ← lvm_scan buf [0; 1; 2; 3];
          if (lvm : bool) then Some ANYFS_PART_KIND_LVM_PV
          else
            efi ← mem_match buf 512 (bs "EFI PART");
            if (efi : bool) then Some ANYFS_PART_KIND_NESTED_PARTITION_TABLE
            else
              s0 ← rdz buf 510;
              s1 ← (if s0 =? 0x55 then rdz buf 511 else Some 0);
              if (s0 =? 0x55) && (s1 =? 0xAA) then
                looks_mbr ← mbr_scan buf (λ t, negb (t =? 0)) [0; 1; 2; 3];
                p0 ← rdz buf 0;
                ntfs ← mem_match buf 3 (bs "NTFS    ");
                let looks_fat_ntfs := (p0 =? 0xEB) || (p0 =? 0xE9) || ntfs in
                if (looks_mbr : bool) && negb looks_fat_ntfs
                then Some ANYFS_PART_KIND_NESTED_PARTITION_TABLE
                else Some ANYFS_PART_KIND_FS
              else Some ANYFS_PART_KIND_FS
  end.

(** ** Partition tables *)

Definition le32 (buf : bytes) (p : Z) : option Z :=
  b0 ← rdz buf p; b1 ← rdz buf (p + 1); b2 ← rdz buf (p + 2); b3 ← rdz buf (p + 3);
  Some (Z.lor (Z.lor (Z.lor b0 (u32 (Z.shiftl b1 8))) (u32 (Z.shiftl b2 16))) (u32 (Z.shiftl b3 24))).

Definition le64 (buf : bytes) (p : Z) : option Z :=
  lo ← le32 buf p; hi ← le32 buf (p + 4); Some (Z.lor lo (u64 (Z.shiftl hi 32))).

Record AnyfsInnerPart := mk_inner {
  index : Z; start_bytes : Z; size_bytes : Z; ptype : bytes }.

Fixpoint mbr_loop (buf : bytes) (max : Z) (idxs : list Z) (out : list AnyfsInnerPart) :
    option (list AnyfsInnerPart) :=
  match idxs with
  | [] => Some out
  | i :: rest =>
      if max <=? len out then Some out
      else
        let e := 446 + i * 16 in
        type ← rdz buf (e + 4);
        if (type =? 0x00) || (type =? 0xEE) || (type =? 0x05) || (type =? 0x0F)
        then mbr_loop buf max rest out
        else
          first_lba ← le32 buf (e + 8);
          sectors ← le32 buf (e + 12);
          if (first_lba =? 0) || (sectors =? 0) then mbr_loop buf max rest out
          else mbr_loop buf max rest
                 (out ++ [mk_inner (u32 (i + 1)) (u64 (first_lba * 512)) (u64 (sectors * 512))
                            (snprintf 40 (bs "0x" ++ fmt_x 2 type)).2])
  end.

(** The entries stored in [out]; the value returned is their number. *)
Definition parse_mbr (buf : bytes) (max : Z) : option (list AnyfsInnerPart) :=
  if len buf <? 512 then Some []
  else
    s0 ← rdz buf 510;
    s1 ← (if s0 =? 0x55 then rdz buf 511 else Some 0);
    if negb (s0 =? 0x55) || negb (s1 =? 0xAA) then Some []
    else mbr_loop buf max [0; 1; 2; 3] [].

(** [n] bytes from [e] are all zero; reading stops at the first that is not. *)
Fixpoint all_zero (buf : bytes) (e : Z) (n : nat) : option bool :=
  match n with
  | O => Some true
  | S n' => b ← rdz buf e; if b =? 0 then all_zero buf (e + 1) n' else Some false
  end.

Definition guid_text (buf : bytes) (e : Z) : option bytes :=
  d1 ← le32 buf e;
  b4 ← rdz buf (e + 4); b5 ← rdz buf (e + 5); b6 ← rdz buf (e + 6); b7 ← rdz buf (e + 7);
  b8 ← rdz buf (e + 8); b9 ← rdz buf (e + 9); b10 ← rdz buf (e + 10); b11 ← rdz buf (e + 11);
  b12 ← rdz buf (e + 12); b13 ← rdz buf (e + 13); b14 ← rdz buf (e + 14); b15 ← rdz buf (e + 15);
  let dash := bs "-" in
  Some (snprintf 40 (fmt_x 8 d1 ++ dash ++ fmt_x 4 (Z.lor b4 (Z.shiftl b5 8)) ++ dash ++
                     fmt_x 4 (Z.lor b6 (Z.shiftl b7 8)) ++ dash ++ fmt_x 2 b8 ++ fmt_x 2 b9 ++ dash ++
                     fmt_x 2 b10 ++ fmt_x 2 b11 ++ fmt_x 2 b12 ++ fmt_x 2 b13 ++ fmt_x 2 b14 ++ fmt_x 2 b15)).2.

Fixpoint gpt_loop (buf : bytes) (max arr_off ent_size : Z) (idxs : list Z) (out : list AnyfsInnerPart) :
    option (list AnyfsInnerPart) :=
  match idxs with
  | [] => Some out
  | i :: rest =>
      if max <=? len out then Some out
      else
        let eoff := u64 (arr_off + u64 (i * ent_size)) in
        if len buf <? u64 (eoff + ent_size) then Some out
        else
          empty ← all_zero buf eoff 16;
          if (empty : bool) then gpt_loop buf max arr_off ent_size rest out
          else
            first_lba ← le64 buf (eoff + 32);
            last_lba ← le64 buf (eoff + 40);
            if last_lba <? first_lba then gpt_loop buf max arr_off ent_size rest out
            else
              g ← guid_text buf eoff;
              gpt_loop buf max arr_off ent_size rest
                (out ++ [mk_inner (u32 (i + 1)) (u64 (first_lba * 512))
                           (u64 (u64 (last_lba - first_lba + 1) * 512)) g])
  end.

Definition parse_gpt (buf : bytes) (max : Z) : option (list AnyfsInnerPart) :=
  if len buf <? 16 * 1024 then Some []
  else
    sig ← memcmp_eq buf 512 (bs "EFI PART");
    if negb sig then Some []
    else
      n_entries ← le32 buf (512 + 80);
      ent_size ← le32 buf (512 + 84);
      ent_lba ← le64 buf (512 + 72);
      if ent_size <? 128 then Some []
      else
        let n_entries := if (n_entries =? 0) || (256 <? n_entries) then 128 else n_entries in
        gpt_loop buf max (u64 (ent_lba * 512)) ent_size (seqZ 0 n_entries) [].

Definition anyfs_probe_pt_buf (raw : option bytes) (max : Z) : option (list AnyfsInnerPart) :=
  match raw with
  | None => Some []
  | Some buf =>
      if max <=? 0 then Some []
      else
        g ← parse_gpt buf max;
        if 0 <? len g then Some g else parse_mbr buf max
  end.

Definition anyfs_probe_pttype_buf (raw : option bytes) : option bytes :=
  match raw with
  | None => Some []
  | Some buf =>
      if len buf <? 512 then Some []
      else
        gpt ← (if 520 <=? len buf then memcmp_eq buf 512 (bs "EFI PART") else Some false);
        if (gpt : bool) then Some (bs "gpt")
        else
          s0 ← rdz buf 510;
          s1 ← (if s0 =? 0x55 then rdz buf 511 else Some 0);
          if (s0 =? 0x55) && (s1 =? 0xAA) then
            dos ← mbr_scan buf (λ t, negb (t =? 0) && negb (t =? 0xEE)) [0; 1; 2; 3];
            Some (if (dos : bool) then bs "dos" else [])
          else Some []
  end.

(** ** Reading a device *)

Section Dev.
Context {W : Type} `{!Lkl W}.

(** [while (got < size) ...]: read up to [size] bytes from the start. *)
Fixpoint read_loop (fuel : nat) (fd size : Z) (buf : bytes) : M W bytes :=
  match fuel with
  | O => mstuck
  | S f =>
      if size <=? len buf then mret buf
      else
        r ← lkl_sys_pread64 fd (size - len buf) (len buf);
        if r.1 <=? 0 then mret buf else read_loop f fd size (buf ++ r.2)
  end.
Definition read_prefix (fd size : Z) : M W bytes := read_loop (S (Z.to_nat size)) fd size [].

Definition anyfs_probe_kind_blkdev (path : option bytes) : M W AnyfsPartKind :=
  match path with
  | None => mret ANYFS_PART_KIND_FS
  | Some path =>
      fd ← lkl_sys_open path LKL_O_RDONLY;
      if fd <? 0 then mret ANYFS_PART_KIND_FS
      else
        buf ← read_prefix fd PROBE_SIZE;
        _ ← lkl_sys_close fd;
        if len buf =? 0 then mret ANYFS_PART_KIND_FS
        else mopt (anyfs_probe_kind_buf (Some buf))
  end.

Definition anyfs_probe_pt_blkdev (path : option bytes) (max : Z) : M W (list AnyfsInnerPart) :=
  match path with
  | None => mret []
  | Some path =>
      if max <=? 0 then mret []
      else
        fd ← lkl_sys_open path LKL_O_RDONLY;
        if fd <? 0 then mret []
        else
          buf ← read_prefix fd (64 * 1024);
          _ ← lkl_sys_close fd;
          if len buf <? 512 then mret [] else mopt (anyfs_probe_pt_buf (Some buf) max)
  end.

Definition anyfs_probe_pttype_blkdev (path : option bytes) : M W bytes :=
  match path with
  | None => mret []
  | Some path =>
      fd ← lkl_sys_open path LKL_O_RDONLY;
      if fd <? 0 then mret []
      else
        buf ← read_prefix fd 4096;
        _ ← lkl_sys_close fd;
        mopt (anyfs_probe_pttype_buf (Some buf))
  end.

Context `{!Host W}.

(** Write all of [b]; false when a write stores nothing. *)
Fixpoint write_all (fuel : nat) (hfd : Z) (b : bytes) : M W bool :=
  match b with
  | [] => mret true
  | _ =>
      match fuel with
      | O => mstuck
      | S f =>
          m ← call (host_write hfd b);
          if m <=? 0 then mret false else write_all f hfd (drop (Z.to_nat m) b)
      end
  end.

(** [Some got], or [None] when a write failed. *)
Fixpoint spool_loop (fuel : nat) (lfd hfd spool got : Z) : M W (option Z) :=
  match fuel with
  | O => mstuck
  | S f =>
      if spool <=? got then mret (Some got)
      else
        r ← lkl_sys_pread64 lfd (Z.min (spool - got) (64 * 1024)) got;
        if r.1 <=? 0 then mret (Some got)
        else
          ok ← write_all (S (length r.2)) hfd r.2;
          if negb ok then mret None else spool_loop f lfd hfd spool (got + r.1)
  end.

Definition spool_to_host_tmpfile (path : bytes) (spool : Z) : M W Z :=
  lfd ← lkl_sys_open path LKL_O_RDONLY;
  if lfd <? 0 then mret (-1)
  else
    h0 ← call host_tmpfile;
    hfd ← (if h0 <? 0 then call host_mkstemp else mret h0);
    if hfd <? 0 then _ ← lkl_sys_close lfd; mret (-1)
    else
      g ← spool_loop (S (Z.to_nat spool)) lfd hfd spool 0;
      _ ← lkl_sys_close lfd;
      match g with
      | None => _ ← call (host_close hfd); mret (-1)
      | Some got =>
          if got =? 0 then _ ← call (host_close hfd); mret (-1)
          else _ ← call (host_lseek0 hfd); mret hfd
      end.

(** At most [cap - 1] bytes of the value, read back as a C string. *)
Definition meta_value (name : bytes) (cap : Z) : M W bytes :=
  v ← call (blkid_probe_lookup_value name);
  mret (match v with
        | Some v => c_str (take (Z.to_nat (cap - 1)) v)
        | None => []
        end).

(** The value returned and the three texts (the Linux build). *)
Definition anyfs_probe_meta (path : option bytes) : M W (Z * (bytes * bytes * bytes)) :=
  match path with
  | None => mret (-1, ([], [], []))
  | Some path =>
      hfd ← spool_to_host_tmpfile path (2 * 1024 * 1024);
      if hfd <? 0 then mret (-1, ([], [], []))
      else
        pr ← call (blkid_new_probe_from_filename (snprintf 64 (bs "/proc/self/fd/" ++ fmt_d hfd)).2);
        if negb pr then _ ← call (host_close hfd); mret (-1, ([], [], []))
        else
          _ ← call blkid_enable;
          rc ← call blkid_do_safeprobe;
          out ← (if rc =? 0 then
                   fstype ← meta_value (bs "TYPE") 32;
                   label ← meta_value (bs "LABEL") 64;
                   uuid ← meta_value (bs "UUID") 40;
                   mret (fstype, label, uuid)
                 else mret ([], [], []));
          _ ← call blkid_free_probe;
          _ ← call (host_close hfd);
          mret (0, out)
  end.
End Dev.

(** ** Specification of the tables *)

(** The little-endian value of [n] bytes at [p]. *)
Fixpoint le (buf : bytes) (p : Z) (n : nat) : Z :=
  match n with
  | O => 0
  | S n' => default 0 (rdz buf p) + 256 * le buf (p + 1) n'
  end.

Definition mbr_part (buf : bytes) (i : Z) : option AnyfsInnerPart :=
  let e := 446 + 16 * i in
  let type := le buf (e + 4) 1 in
  let first := le buf (e + 8) 4 in
  let sectors := le buf (e + 12) 4 in
  if bool_decide (type ∈ [0x00; 0xEE; 0x05; 0x0F]) || (first =? 0) || (sectors =? 0) then None
  else Some (mk_inner (i + 1) (first * 512) (sectors * 512) (bs "0x" ++ fmt_x 2 type)).

Definition gpt_part (buf : bytes) (arr_off ent_size i : Z) : option AnyfsInnerPart :=
  let e := arr_off + i * ent_size in
  let first := le buf (e + 32) 8 in
  let last := le buf (e + 40) 8 in
  if (le buf e 16 =? 0) || (last <? first) then None
  else Some (mk_inner (i + 1) (u64 (first * 512)) (u64 ((last - first + 1) * 512))
               (default [] (guid_text buf e))).

(** Entry [i] lies inside the buffer. *)
Definition gpt_fits (buf : bytes) (arr_off ent_size i : Z) : Prop :=
  arr_off + (i + 1) * ent_size <= len buf.

#[export] Instance gpt_fits_dec buf arr es i : Decision (gpt_fits buf arr es i).
Proof. unfold gpt_fits. apply _. Defined.

(** ** Reading numbers *)

Lemma rdz_in buf p : 0 <= p < len buf → ∃ b, rdz buf p = Some b.
Proof.
  intros H. unfold rdz. destruct (Z.leb_spec 0 p), (Z.ltb_spec p (len buf)); try lia. cbn [andb].
  apply lookup_lt_is_Some. lia.
Qed.

Lemma rdz_byte buf p b : Bytes buf → rdz buf p = Some b → 0 <= b < 256.
Proof.
  unfold rdz. intros Hb. destruct (_ && _); [|done]. intros E. eapply Forall_lookup_1 in E; [|exact Hb]. done.
Qed.

(** Read every byte an [option] chain asks for. *)
Ltac read_bytes :=
  repeat match goal with
  | |- context [rdz ?buf ?p] =>
      let b := fresh "b" in let E := fresh "Eb" in
      destruct (rdz_in buf p) as [b E]; [lia|]; rewrite E; cbn [mbind option_bind]
  end.

Lemma lor_shift a b k : 0 <= k → 0 <= a < 2 ^ k → 0 <= b → Z.lor a (Z.shiftl b k) = a + b * 2 ^ k.
Proof.
  intros Hk Ha Hb. rewrite Z.shiftl_mul_pow2 by lia. pose proof (Z.add_lor_land a (b * 2 ^ k)) as E.
  enough (Z.land a (b * 2 ^ k) = 0) by lia.
  rewrite <- (Z.mod_small a (2 ^ k)) by lia. rewrite <- Z.land_ones by lia.
  rewrite <- Z.land_assoc, (Z.land_comm (Z.ones k)), Z.land_ones, Z.mod_mul by lia. apply Z.land_0_r.
Qed.

Lemma le_range buf p n : Bytes buf → 0 <= le buf p n < 256 ^ Z.of_nat n.
Proof.
  intros Hb. revert p. induction n as [|n IH]; intros p; [simpl; lia|]. cbn [le].
  rewrite Nat2Z.inj_succ, Z.pow_succ_r by lia. specialize (IH (p + 1)).
  destruct (rdz buf p) as [b|] eqn:E; [apply rdz_byte in E; [|done]|]; simpl; lia.
Qed.

Lemma le32_spec buf p : Bytes buf → 0 <= p → p + 4 <= len buf → le32 buf p = Some (le buf p 4).
Proof.
  intros Hb Hp Hl. unfold le32, le.
  replace (p + 1 + 1) with (p + 2) by lia. replace (p + 2 + 1) with (p + 3) by lia. read_bytes.
  repeat match goal with E : rdz _ _ = Some _ |- _ => apply rdz_byte in E; [|done] end.
  cbn [default]. f_equal.
  rewrite !u32_small by (rewrite Z.shiftl_mul_pow2 by lia; lia).
  rewrite (lor_shift b2 b1 8), (lor_shift _ b0 16), (lor_shift _ b 24) by lia. unfold id. lia.
Qed.

Lemma le_split buf p n m : le buf p (n + m) = le buf p n + 256 ^ Z.of_nat n * le buf (p + Z.of_nat n) m.
Proof.
  revert p. induction n as [|n IH]; intros p; [simpl; rewrite Z.add_0_r; lia|].
  cbn [le Nat.add]. rewrite IH. rewrite Nat2Z.inj_succ, Z.pow_succ_r by lia.
  replace (p + 1 + Z.of_nat n) with (p + Z.succ (Z.of_nat n)) by lia. lia.
Qed.

Lemma le64_spec buf p : Bytes buf → 0 <= p → p + 8 <= len buf → le64 buf p = Some (le buf p 8).
Proof.
  intros Hb Hp Hl. unfold le64. rewrite !le32_spec by (done || lia). cbn [mbind option_bind]. f_equal.
  pose proof (le_range buf p 4 Hb) as H1. pose proof (le_range buf (p + 4) 4 Hb) as H2.
  change (256 ^ Z.of_nat 4) with (2 ^ 32) in *.
  rewrite u64_small by (rewrite Z.shiftl_mul_pow2 by lia; lia). rewrite lor_shift by lia.
  change 8%nat with (4 + 4)%nat. rewrite le_split. change (256 ^ Z.of_nat 4) with (2 ^ 32). change (Z.of_nat 4) with 4. lia.
Qed.

Lemma all_zero_spec buf p n : Bytes buf → 0 <= p → p + Z.of_nat n <= len buf →
  all_zero buf p n = Some (le buf p n =? 0).
Proof.
  intros Hb. revert p. induction n as [|n IH]; intros p Hp Hl; [done|]. cbn [all_zero le].
  destruct (rdz_in buf p) as [b E]; [lia|]. rewrite E. cbn [mbind option_bind default].
  apply rdz_byte in E; [|done]. pose proof (le_range buf (p + 1) n Hb). unfold id.
  destruct (Z.eqb_spec b 0) as [->|Hz]; [rewrite IH by lia|]; f_equal.
  - destruct (Z.eqb_spec (le buf (p + 1) n) 0) as [->|]; [done|]. symmetry. apply Z.eqb_neq. lia.
  - symmetry. apply Z.eqb_neq. lia.
Qed.

Lemma u64_mul_l a b : u64 (u64 a * b) = u64 (a * b).
Proof. unfold u64. apply Zmult_mod_idemp_l. Qed.

Lemma filter_nil_not_fits {A} (P : A → Prop) `{!∀ x, Decision (P x)} l :
  (∀ x, x ∈ l → ¬ P x) → filter P l = [].
Proof.
  induction l as [|x l IH]; intros Hn; [done|]. rewrite filter_cons_False by (apply Hn; by left).
  apply IH. intros. apply Hn. by right.
Qed.

Lemma guid_text_total buf p : Bytes buf → 0 <= p → p + 16 <= len buf → is_Some (guid_text buf p).
Proof.
  intros Hb Hp Hl. unfold guid_text. rewrite le32_spec by (done || lia). cbn [mbind option_bind].
  read_bytes. by eexists.
Qed.

(** ** The loops *)

Lemma gpt_loop_spec buf max arr es s k out :
  Bytes buf → 0 <= arr < 2 ^ 63 → 128 <= es < 2 ^ 32 → 0 <= s → s + Z.of_nat k <= 256 → len out <= max →
  gpt_loop buf max arr es (seqZ s (Z.of_nat k)) out =
    Some (take (Z.to_nat max) (out ++ omap (gpt_part buf arr es) (filter (gpt_fits buf arr es) (seqZ s (Z.of_nat k))))).
Proof.
  intros Hb Ha He. revert s out. induction k as [|k IH]; intros s out Hs Hk Ho.
  { cbn. rewrite app_nil_r, take_ge by lia. done. }
  rewrite seqZ_cons by lia. replace (Z.pred (Z.of_nat (S k))) with (Z.of_nat k) by lia.
  replace (Z.succ s) with (s + 1) by lia. cbn [gpt_loop].
  destruct (Z.leb_spec max (len out)); [by rewrite take_app_le, take_ge by lia|].
  assert (Hm : 0 <= s * es <= 255 * es) by nia.
  rewrite (u64_small (s * es)), (u64_small (arr + s * es)), (u64_small (arr + s * es + es)) by lia.
  destruct (Z.ltb_spec (len buf) (arr + s * es + es)).
  { rewrite filter_nil_not_fits; [|intros i [->|Hi%elem_of_seqZ]%elem_of_cons; unfold gpt_fits; nia].
    cbn [omap list_omap]. by rewrite app_nil_r, take_ge by lia. }
  rewrite filter_cons_True by (unfold gpt_fits; lia).
  rewrite all_zero_spec by (done || lia). cbn [mbind option_bind omap list_omap].
  unfold gpt_part at 1. destruct (Z.eqb_spec (le buf (arr + s * es) 16) 0); cbn [orb]; [apply IH; lia|].
  rewrite !le64_spec by (done || lia). cbn [mbind option_bind].
  destruct (Z.ltb_spec (le buf (arr + s * es + 40) 8) (le buf (arr + s * es + 32) 8)); [apply IH; lia|].
  destruct (guid_text_total buf (arr + s * es)) as [g Eg]; [done|lia..|]. rewrite Eg. cbn [mbind option_bind].
  rewrite IH by (rewrite ?length_app; simpl; lia). rewrite <- app_assoc. cbn [app default].
  rewrite (u32_small (s + 1)) by lia.
  pose proof (le_range buf (arr + s * es + 40) 8 Hb). pose proof (le_range buf (arr + s * es + 32) 8 Hb).
  change (256 ^ Z.of_nat 8) with (2 ^ 64) in *. by rewrite u64_mul_l.
Qed.

Lemma mbr_loop_spec buf max idxs out : Bytes buf → 512 <= len buf → (∀ i, i ∈ idxs → 0 <= i < 4) →
  len out <= max →
  mbr_loop buf max idxs out = Some (take (Z.to_nat max) (out ++ omap (mbr_part buf) idxs)).
Proof.
  intros Hb Hl. revert out. induction idxs as [|i idxs IH]; intros out Hi Ho.
  { cbn. rewrite app_nil_r, take_ge by lia. done. }
  assert (0 <= i < 4) by (apply Hi; by left).
  assert (∀ i, i ∈ idxs → 0 <= i < 4) by (intros; apply Hi; by right).
  cbn [mbr_loop omap list_omap]. destruct (Z.leb_spec max (len out)); [by rewrite take_app_le, take_ge by lia|].
  replace (446 + i * 16) with (446 + 16 * i) by lia. unfold mbr_part at 1.
  destruct (rdz_in buf (446 + 16 * i + 4)) as [t Et]; [lia|].
  assert (Eq : le buf (446 + 16 * i + 4) 1 = t) by (cbn [le]; rewrite Et; simpl; lia).
  rewrite Et, Eq. cbn [mbind option_bind]. apply rdz_byte in Et; [|done].
  pose proof (le_range buf (446 + 16 * i + 8) 4 Hb). pose proof (le_range buf (446 + 16 * i + 12) 4 Hb).
  change (256 ^ Z.of_nat 4) with (2 ^ 32) in *.
  destruct ((t =? 0) || (t =? 0xEE) || (t =? 0x05) || (t =? 0x0F)) eqn:Eo.
  { rewrite bool_decide_true; [by apply IH|].
    rewrite !elem_of_cons. repeat (apply orb_true_iff in Eo as [Eo|Eo]); zify_bools; auto. }
  rewrite bool_decide_false by (rewrite !elem_of_cons, elem_of_nil; zify_bools; naive_solver).
  rewrite !le32_spec by (done || lia). cbn [mbind option_bind orb].
  destruct ((le buf (446 + 16 * i + 8) 4 =? 0) || _); [by apply IH|].
  rewrite IH by (done || rewrite length_app; simpl; lia).
  rewrite <- app_assoc. cbn [app]. by rewrite u32_small, !u64_small by lia.
Qed.

Lemma mem_match_total buf off pat : 0 <= off → ∃ b, mem_match buf off pat = Some b.
Proof.
  intros Ho. unfold mem_match, memcmp_eq. destruct (Z.ltb_spec (len buf) (off + len pat)); [by eexists|].
  destruct (Z.leb_spec 0 off), (Z.leb_spec (off + len pat) (len buf)); try lia. by eexists.
Qed.

Lemma lvm_scan_total buf idxs : (∀ i, i ∈ idxs → 0 <= i) → ∃ b, lvm_scan buf idxs = Some b.
Proof.
  induction idxs as [|i idxs IH]; intros Hi; [by eexists|]. cbn [lvm_scan].
  assert (0 <= i) by (apply Hi; by left). case_if; [by eexists|].
  destruct (mem_match_total buf (i * 512) (bs "LABELONE")) as [a ->]; [lia|]. cbn [mbind option_bind].
  destruct (mem_match_total buf (i * 512 + 0x20) (bs "LVM2 001")) as [c Ec]; [lia|].
  destruct a; rewrite ?Ec; cbn [mbind option_bind]; [destruct c; [by eexists|]|];
    apply IH; intros; apply Hi; by right.
Qed.

(** The scan finds an entry with a valid boot flag and an accepted type. *)
Definition mbr_hit (buf : bytes) (ok : Z → bool) (i : Z) : Prop :=
  ∃ e0 e4, rdz buf (446 + i * 16) = Some e0 ∧ rdz buf (446 + i * 16 + 4) = Some e4 ∧
    (e0 = 0x00 ∨ e0 = 0x80) ∧ ok e4 = true.

Lemma mbr_scan_spec buf ok idxs : 512 <= len buf → (∀ i, i ∈ idxs → 0 <= i < 4) →
  ∃ b, mbr_scan buf ok idxs = Some b ∧ (b = true ↔ ∃ i, i ∈ idxs ∧ mbr_hit buf ok i).
Proof.
  intros Hl. induction idxs as [|i idxs IH]; intros Hi.
  { exists false. split; [done|]. split; [done|]. intros (i & H & _). by apply not_elem_of_nil in H. }
  cbn [mbr_scan]. assert (0 <= i < 4) by (apply Hi; by left).
  destruct IH as (b & Eb & Hb); [intros; apply Hi; by right|]. rewrite Eb.
  destruct (rdz_in buf (446 + i * 16)) as [e0 E0]; [lia|].
  destruct (rdz_in buf (446 + i * 16 + 4)) as [e4 E4]; [lia|]. rewrite E0, E4. cbn [mbind option_bind].
  assert (Hb0 : (e0 =? 0x00) || (e0 =? 0x80) = true ↔ e0 = 0x00 ∨ e0 = 0x80)
    by (rewrite orb_true_iff, !Z.eqb_eq; done).
  assert (Hh : mbr_hit buf ok i ↔ (e0 = 0x00 ∨ e0 = 0x80) ∧ ok e4 = true).
  { unfold mbr_hit. split; [|by intros []; exists e0, e4]. intros (? & ? & ? & ? & ? & ?). by simplify_eq. }
  destruct (_ || _); cbn [mbind option_bind andb]; [destruct (ok e4)|].
  1: exists true. 2,3: exists b.
  all: split; [done|]; try rewrite Hb; setoid_rewrite elem_of_cons; naive_solver.
Qed.

(** Cases of the classification, every guard read in bounds. *)
Lemma kind_buf_cases buf : 512 <= len buf →
  ∃ k, anyfs_probe_kind_buf (Some buf) = Some k ∧
    ((k = ANYFS_PART_KIND_LUKS ∧ mem_match buf 0 LUKS_MAGIC = Some true) ∨
     (k = ANYFS_PART_KIND_LVM_PV ∧ lvm_scan buf [0; 1; 2; 3] = Some true) ∨
     (k = ANYFS_PART_KIND_NESTED_PARTITION_TABLE ∧
      (mem_match buf 512 (bs "EFI PART") = Some true ∨
       (rdz buf 510 = Some 0x55 ∧ rdz buf 511 = Some 0xAA ∧
        ∃ i, i ∈ [0; 1; 2; 3] ∧ mbr_hit buf (λ t, negb (t =? 0)) i))) ∨
     (k = ANYFS_PART_KIND_FS ∧ mem_match buf 512 (bs "EFI PART") = Some false ∧
      (rdz buf 510 = Some 0x55 → rdz buf 511 = Some 0xAA →
       (∃ i, i ∈ [0; 1; 2; 3] ∧ mbr_hit buf (λ t, negb (t =? 0)) i) →
       rdz buf 0 = Some 0xEB ∨ rdz buf 0 = Some 0xE9 ∨ mem_match buf 3 (bs "NTFS    ") = Some true))).
Proof.
  intros Hl. unfold anyfs_probe_kind_buf. destruct (Z.ltb_spec (len buf) 512); [lia|].
  destruct (mem_match_total buf 0 LUKS_MAGIC) as [[] E1]; [lia| |]; rewrite E1; cbn [mbind option_bind]; [by eauto 10|].
  destruct (lvm_scan_total buf [0; 1; 2; 3]) as [[] E2];
    [by intros i Hi; repeat (apply elem_of_cons in Hi as [->|Hi]; [lia|]); apply not_elem_of_nil in Hi| |];
    rewrite E2; cbn [mbind option_bind]; [by eauto 10|].
  destruct (mem_match_total buf 512 (bs "EFI PART")) as [[] E3]; [lia| |]; rewrite E3; cbn [mbind option_bind]; [by eauto 10|].
  destruct (rdz_in buf 510) as [s0 Es0]; [lia|]. rewrite Es0. cbn [mbind option_bind].
  destruct (Z.eqb_spec s0 0x55) as [->|]; cbn [mbind option_bind andb]; [|eexists; split; [done|]; naive_solver].
  destruct (rdz_in buf 511) as [s1 Es1]; [lia|]. rewrite Es1. cbn [mbind option_bind].
  destruct (Z.eqb_spec s1 0xAA) as [->|]; cbn [mbind option_bind]; [|eexists; split; [done|]; naive_solver].
  destruct (mbr_scan_spec buf (λ t, negb (t =? 0)) [0; 1; 2; 3]) as (b & Eb & Hb); [done| |].
  { intros i Hi; repeat (apply elem_of_cons in Hi as [->|Hi]; [lia|]); by apply not_elem_of_nil in Hi. }
  rewrite Eb. cbn [mbind option_bind]. destruct (rdz_in buf 0) as [p0 Ep0]; [lia|]. rewrite Ep0.
  destruct (mem_match_total buf 3 (bs "NTFS    ")) as [nt En]; [lia|]. rewrite En. cbn [mbind option_bind].
  destruct b; cbn [andb]; [|eexists; split; [done|]; naive_solver].
  assert ((p0 =? 0xEB) || (p0 =? 0xE9) || nt = true → Some p0 = Some 0xEB ∨ Some p0 = Some 0xE9 ∨ Some nt = Some true).
  { rewrite !orb_true_iff, !Z.eqb_eq. naive_solver. }
  destruct (_ || _ || _); cbn [negb]; eexists; (split; [done|]); naive_solver.
Qed.

Lemma pttype_total buf : ∃ t, anyfs_probe_pttype_buf (Some buf) = Some t.
Proof.
  unfold anyfs_probe_pttype_buf. destruct (Z.ltb_spec (len buf) 512); [by eexists|].
  assert (∃ b, (if 520 <=? len buf then memcmp_eq buf 512 (bs "EFI PART") else Some false) = Some b) as [[] ->].
  { destruct (Z.leb_spec 520 (len buf)) as [Hl|]; [|by eexists]. unfold memcmp_eq.
    change (512 + len (bs "EFI PART")) with 520. destruct (Z.leb_spec 520 (len buf)); [by eexists|lia]. }
  { by eexists. }
  cbn [mbind option_bind]. destruct (rdz_in buf 510) as [s0 ->]; [lia|].
  destruct (rdz_in buf 511) as [s1 E1]; [lia|]. cbn [mbind option_bind].
  destruct (s0 =? 0x55); rewrite ?E1; cbn [mbind option_bind andb]; [|by eexists].
  destruct (s1 =? 0xAA); [|by eexists].
  edestruct mbr_scan_spec as (b & -> & _); [done| |by eexists].
  intros i Hi; repeat (apply elem_of_cons in Hi as [->|Hi]; [lia|]); by apply not_elem_of_nil in Hi.
Qed.

(** ** Order of the entries *)

Lemma sorted_omap (f : Z → option AnyfsInnerPart) s k (P : Z → Prop) `{!∀ i, Decision (P i)} :
  (∀ i q, f i = Some q → index q = i + 1) →
  StronglySorted Z.lt (index <$> omap f (filter P (seqZ s (Z.of_nat k)))) ∧
  Forall (λ q, s + 1 <= index q <= s + Z.of_nat k) (omap f (filter P (seqZ s (Z.of_nat k)))).
Proof.
  intros Hf. revert s. induction k as [|k IH]; intros s; [by repeat constructor|].
  rewrite seqZ_cons by lia. replace (Z.pred (Z.of_nat (S k))) with (Z.of_nat k) by lia.
  destruct (IH (Z.succ s)) as [H1 H2].
  assert (H3 : Forall (λ q, s + 1 <= index q <= s + Z.of_nat (S k)) (omap f (filter P (seqZ (Z.succ s) (Z.of_nat k)))))
    by (eapply Forall_impl; [exact H2|]; simpl; lia).
  destruct (decide (P s)); [rewrite filter_cons_True by done|by rewrite filter_cons_False by done].
  cbn [omap list_omap]. destruct (f s) as [q|] eqn:E; [|done]. apply Hf in E.
  cbn [fmap list_fmap]. split; constructor; [done| |lia|done].
  apply Forall_fmap. eapply Forall_impl; [exact H2|]. simpl. lia.
Qed.

Lemma sorted_take (l : list AnyfsInnerPart) n :
  StronglySorted Z.lt (index <$> l) → StronglySorted Z.lt (index <$> take n l).
Proof.
  revert n. induction l as [|q l IH]; intros [|n] H; [constructor..|].
  cbn [fmap list_fmap take] in *. inversion H as [|?? H1 H2]; subst.
  constructor; [by apply IH|]. rewrite fmap_take. by apply Forall_take.
Qed.

(** The entries a table yields: at most [max], numbered upwards from 1. *)
Definition inner_ok (max : Z) (out : list AnyfsInnerPart) : Prop :=
  len out <= max ∧ StronglySorted Z.lt (index <$> out) ∧ Forall (λ q, 1 <= index q <= 256) out.

Lemma inner_ok_take (f : Z → option AnyfsInnerPart) k (P : Z → Prop) `{!∀ i, Decision (P i)} max :
  0 <= max → (k <= 256)%nat → (∀ i q, f i = Some q → index q = i + 1) →
  inner_ok max (take (Z.to_nat max) (omap f (filter P (seqZ 0 (Z.of_nat k))))).
Proof.
  intros Hm Hk Hf. destruct (sorted_omap f 0 k P Hf) as [H1 H2]. split_and!.
  - rewrite length_take. lia.
  - by apply sorted_take.
  - apply Forall_take. eapply Forall_impl; [exact H2|]. simpl. lia.
Qed.

Lemma gpt_part_index buf arr es i q : gpt_part buf arr es i = Some q → index q = i + 1.
Proof. unfold gpt_part. case_if; [done|]. by intros [= <-]. Qed.

Lemma mbr_part_index buf i q : mbr_part buf i = Some q → index q = i + 1.
Proof. unfold mbr_part. case_if; [done|]. by intros [= <-]. Qed.

Lemma filter_all {A} (l : list A) : filter (λ _, True) l = l.
Proof. induction l as [|x l IH]; [done|]. rewrite filter_cons_True by done. by rewrite IH. Qed.

Definition gpt_n (buf : bytes) : Z :=
  let n := le buf 592 4 in if (n =? 0) || (256 <? n) then 128 else n.

Lemma gpt_n_range buf : Bytes buf → 0 < gpt_n buf <= 256.
Proof.
  intros Hb. pose proof (le_range buf 592 4 Hb). unfold gpt_n. cbv zeta.
  destruct (_ || _) eqn:E; zify_bools; lia.
Qed.

(** A GPT header, if the buffer has one, does not put its array beyond sector
    2^54. *)
Definition gpt_tame (buf : bytes) : Prop :=
  16 * 1024 <= len buf → mem_match buf 512 (bs "EFI PART") = Some true → le buf 584 8 < 2 ^ 54.

(** What a GPT and what an MBR say: the first [max] entries that count. *)
Definition gpt_table (buf : bytes) (max : Z) : list AnyfsInnerPart :=
  if bool_decide (16 * 1024 <= len buf ∧ mem_match buf 512 (bs "EFI PART") = Some true ∧ 128 <= le buf 596 4)
  then take (Z.to_nat max) (omap (gpt_part buf (512 * le buf 584 8) (le buf 596 4))
         (filter (gpt_fits buf (512 * le buf 584 8) (le buf 596 4)) (seqZ 0 (gpt_n buf))))
  else [].
Definition mbr_table (buf : bytes) (max : Z) : list AnyfsInnerPart :=
  if bool_decide (512 <= len buf ∧ rdz buf 510 = Some 0x55 ∧ rdz buf 511 = Some 0xAA)
  then take (Z.to_nat max) (omap (mbr_part buf) [0; 1; 2; 3]) else [].

Lemma parse_gpt_spec buf max : Bytes buf → 0 <= max → gpt_tame buf → parse_gpt buf max = Some (gpt_table buf max).
Proof.
  unfold gpt_table.
  intros Hb Hm Ha. unfold parse_gpt. destruct (Z.ltb_spec (len buf) (16 * 1024)).
  { rewrite bool_decide_false; [done|]. lia. }
  specialize (Ha ltac:(lia)). unfold mem_match in *. change (len (bs "EFI PART")) with 8 in Ha. change (len (bs "EFI PART")) with 8.
  destruct (Z.ltb_spec (len buf) (512 + 8)); [lia|]. unfold memcmp_eq in *.
  change (len (bs "EFI PART")) with 8 in *. destruct (Z.leb_spec (512 + 8) (len buf)); [|lia].
  change ((0 <=? 512) && true) with true in *. cbn iota in *.
  destruct (bool_decide (take _ _ = _)); cbn [mbind option_bind negb].
  2:{ rewrite bool_decide_false; [done|]. naive_solver. }
  specialize (Ha eq_refl). rewrite !le32_spec, le64_spec by (done || lia). cbn [mbind option_bind].
  change (512 + 80) with 592. change (512 + 84) with 596. change (512 + 72) with 584.
  pose proof (le_range buf 584 8 Hb). pose proof (le_range buf 596 4 Hb).
  change (256 ^ Z.of_nat 4) with (2 ^ 32) in *.
  destruct (Z.ltb_spec (le buf 596 4) 128).
  { rewrite bool_decide_false; [done|]. lia. }
  rewrite bool_decide_true by done. fold (gpt_n buf). pose proof (gpt_n_range buf Hb).
  replace (le buf 584 8 * 512) with (512 * le buf 584 8) by lia. rewrite u64_small by lia.
  assert (∃ k, gpt_n buf = Z.of_nat k) as [k Ek] by (exists (Z.to_nat (gpt_n buf)); lia). rewrite Ek in *.
  rewrite gpt_loop_spec; [done|done|lia|lia|lia|lia|simpl; lia].
Qed.

Lemma parse_mbr_spec buf max : Bytes buf → 0 <= max → parse_mbr buf max = Some (mbr_table buf max).
Proof.
  intros Hb Hm. unfold parse_mbr, mbr_table. destruct (Z.ltb_spec (len buf) 512).
  { rewrite bool_decide_false; [done|]. lia. }
  destruct (rdz_in buf 510) as [s0 E0]; [lia|]. destruct (rdz_in buf 511) as [s1 E1]; [lia|].
  rewrite E0, E1. cbn [mbind option_bind].
  destruct (Z.eqb_spec s0 0x55) as [->|]; cbn [negb orb mbind option_bind].
  2:{ rewrite bool_decide_false; [done|]. naive_solver. }
  destruct (Z.eqb_spec s1 0xAA) as [->|]; cbn [negb orb].
  2:{ rewrite bool_decide_false; [done|]. naive_solver. }
  rewrite bool_decide_true by done. rewrite mbr_loop_spec; [done|done|done| |simpl; lia].
  intros i Hi; repeat (apply elem_of_cons in Hi as [->|Hi]; [lia|]); by apply not_elem_of_nil in Hi.
Qed.

(** ** Devices *)

Section DevSpec.
Context {W : Type} `{!Lkl W, !LklLaws W}.

Lemma wp_read_loop fuel fd size buf w : len buf <= size → size - len buf < Z.of_nat fuel →
  wp (read_loop fuel fd size buf) (λ b w', view w' = view w ∧ len b <= size) w.
Proof.
  revert buf w. induction fuel as [|f IH]; intros buf w Hb Hf; [lia|]. cbn [read_loop].
  destruct (Z.leb_spec size (len buf)); [done|]. apply wp_bind, wp_pread. intros r d w1 Hv Hd Hr. cbn [fst snd].
  destruct (Z.leb_spec r 0); [done|]. eapply wp_mono; [apply IH; rewrite length_app; lia|].
  cbn. intros b w2 [-> ?]. done.
Qed.

Lemma wp_read_prefix fd size w : 0 <= size →
  wp (read_prefix fd size) (λ b w', view w' = view w ∧ len b <= size) w.
Proof. intros. apply wp_read_loop; simpl; lia. Qed.

(** Open, read a prefix, close: what every device probe does. *)
Lemma wp_open_read_close {A} path size (a0 : A) (k : bytes → M W A) (Q : A → Prop) w :
  0 <= size → Q a0 →
  (∀ b w', len b <= size → wp (k b) (λ a w'', Q a ∧ view w'' = view w') w') →
  wp (fd ← lkl_sys_open path LKL_O_RDONLY;
      if fd <? 0 then mret a0
      else buf ← read_prefix fd size; _ ← lkl_sys_close fd; k buf) (λ a w', Q a ∧ view w' = view w) w.
Proof.
  intros Hs H0 Hk. apply wp_bind, wp_open; intros r w1 Hr.
  - intros Hv. destruct (Z.ltb_spec r 0); [|lia]. done.
  - intros Hn Hv. destruct (Z.ltb_spec r 0); [lia|]. apply wp_bind. eapply wp_mono; [by apply wp_read_prefix|].
    intros b w2 [Hv2 Hb]. apply wp_bind, wp_close. intros r3 w3 Hv3. eapply wp_mono; [by apply Hk|].
    intros a w4 [Ha Hv4]. split; [done|]. rewrite Hv4, Hv3, Hv2, Hv. cbn. rewrite delete_insert_id by done.
    by destruct (view w).
Qed.
End DevSpec.

(** ** Properties *)

Definition put (buf : bytes) (off : Z) (b : bytes) : bytes :=
  take (Z.to_nat off) buf ++ b ++ drop (Z.to_nat off + length b) buf.

(** A table with one entry of type 0xAA.. covering sectors 34 to 2048. *)
Definition gpt_example : bytes :=
  put (put (put (put (put (put (replicate (Z.to_nat 16384) 0) 512 (bs "EFI PART")) 592 [128; 0; 0; 0]) 596 [128; 0; 0; 0])
    584 [2; 0; 0; 0; 0; 0; 0; 0]) 1024 (replicate 16 0xAA)) 1056 [34; 0; 0; 0; 0; 0; 0; 0; 0; 8; 0; 0; 0; 0; 0; 0].

(** C6 The GPT parser equals its specification: on a buffer of at least 16 KiB
    that holds a header whose entries have at least 128 bytes and whose array
    starts below sector 2^54, it returns, in
    table order and at most [max] of them, exactly the entries that lie inside
    the buffer, carry a type and do not end before they start; everything is
    read in bounds.  A header that announces no entry or more than 256 is
    taken to have 128. *)
Theorem gpt_parse_refines buf max : Bytes buf → 0 <= max → 16 * 1024 <= len buf →
  mem_match buf 512 (bs "EFI PART") = Some true → le buf 584 8 < 2 ^ 54 → 128 <= le buf 596 4 →
  let arr := 512 * le buf 584 8 in
  let es := le buf 596 4 in
  parse_gpt buf max = Some (take (Z.to_nat max)
    (omap (gpt_part buf arr es) (filter (gpt_fits buf arr es) (seqZ 0 (gpt_n buf))))).
Proof. intros. rewrite parse_gpt_spec by (done || by intros ? ?). unfold gpt_table. by rewrite bool_decide_true by done. Qed.

Lemma gpt_parse_refines_witness :
  parse_gpt gpt_example 128 = Some (take (Z.to_nat 128)
    (omap (gpt_part gpt_example (512 * 2) 128) (filter (gpt_fits gpt_example (512 * 2) 128) (seqZ 0 128)))) ∧
  (index <$> default [] (parse_gpt gpt_example 128)) = [1].
Proof.
  split; [|vm_compute; reflexivity].
  apply (gpt_parse_refines gpt_example 128);
    [apply Bytes_dec; vm_compute; reflexivity | lia | vm_compute; discriminate | vm_compute; reflexivity
    | vm_compute; reflexivity | vm_compute; discriminate].
Defined.

Lemma gpt_table_ok buf max : Bytes buf → 0 < max → inner_ok max (gpt_table buf max).
Proof.
  intros Hb Hm. unfold gpt_table. case_bool_decide; [|split_and!; [simpl; lia|constructor..]].
  pose proof (gpt_n_range buf Hb). assert (∃ k, gpt_n buf = Z.of_nat k) as [k Ek] by (exists (Z.to_nat (gpt_n buf)); lia).
  rewrite Ek in *. apply inner_ok_take; [lia..|apply gpt_part_index].
Qed.
Lemma mbr_table_ok buf max : 0 < max → inner_ok max (mbr_table buf max).
Proof.
  intros Hm. unfold mbr_table. case_bool_decide; [|split_and!; [simpl; lia|constructor..]].
  rewrite <- (filter_all [0; 1; 2; 3]). apply (inner_ok_take (mbr_part buf) 4); [lia..|apply mbr_part_index].
Qed.

Lemma pt_buf_ok buf max : Bytes buf → 0 < max → gpt_tame buf →
  ∃ out, anyfs_probe_pt_buf (Some buf) max = Some out ∧ inner_ok max out ∧
    out = (if decide (gpt_table buf max = []) then mbr_table buf max else gpt_table buf max).
Proof.
  intros Hb Hm Ha. unfold anyfs_probe_pt_buf. destruct (Z.leb_spec max 0); [lia|].
  rewrite parse_gpt_spec by (done || lia). cbn [mbind option_bind]. pose proof (gpt_table_ok buf max Hb Hm).
  case_decide as Hg.
  - rewrite Hg. cbn. rewrite parse_mbr_spec by (done || lia). eexists. split; [done|]. split; [by apply mbr_table_ok|done].
  - destruct (Z.ltb_spec 0 (len (gpt_table buf max))) as [|Hl]; [by eexists|]. destruct Hg. apply length_zero_iff_nil. lia.
Qed.

(** C32 Partition tables of any image: the parser never reads outside the
    buffer and its result is pinned: the entries of the GPT when it has one
    with an entry that counts, else those of the MBR, in table order; there are
    at most [max] of them, numbered upwards from 1, so the slot numbers the
    session uses are distinct.  Only a buffer with a GPT header is limited: its
    array must start below sector 2^54. *)
Theorem pt_buf_total buf max : Bytes buf → 0 < max → gpt_tame buf →
  ∃ out, anyfs_probe_pt_buf (Some buf) max = Some out ∧ inner_ok max out ∧
    out = (if decide (gpt_table buf max = []) then mbr_table buf max else gpt_table buf max).
Proof. apply pt_buf_ok. Qed.

(** A disk with an MBR only, whose bytes 584 to 591 are all ones, and the GPT
    example. *)
Definition mbr_example : bytes :=
  put (put (put (replicate (Z.to_nat 16384) 0) 446 [0x80; 0; 0; 0; 0x83; 0; 0; 0; 0; 8; 0; 0; 0; 16; 0; 0]) 510 [0x55; 0xAA]) 584 (replicate 8 255).

Lemma pt_buf_total_witness :
  (∃ out, anyfs_probe_pt_buf (Some gpt_example) 4 = Some out ∧ inner_ok 4 out ∧
     out = (if decide (gpt_table gpt_example 4 = []) then mbr_table gpt_example 4 else gpt_table gpt_example 4)) ∧
  (∃ out, anyfs_probe_pt_buf (Some mbr_example) 4 = Some out ∧ inner_ok 4 out ∧
     out = (if decide (gpt_table mbr_example 4 = []) then mbr_table mbr_example 4 else gpt_table mbr_example 4)) ∧
  index <$> default [] (anyfs_probe_pt_buf (Some mbr_example) 4) = [1].
Proof.
  split; [|split; [|vm_compute; reflexivity]].
  - apply pt_buf_total; [apply Bytes_dec; vm_compute; reflexivity | lia | intros _ _; vm_compute; reflexivity].
  - apply pt_buf_total; [apply Bytes_dec; vm_compute; reflexivity | lia | intros _ H; vm_compute in H; discriminate H].
Defined.

(** The two classifiers agree: they never read out of bounds, and a device
    whose table flavour is recognised is never taken for a plain filesystem
    unless it starts with a FAT jump or the NTFS name. *)
Theorem kind_agrees_pttype buf : 512 <= len buf →
  ∃ k t, anyfs_probe_kind_buf (Some buf) = Some k ∧ anyfs_probe_pttype_buf (Some buf) = Some t ∧
    (t = bs "gpt" → k ≠ ANYFS_PART_KIND_FS) ∧
    (t = bs "dos" → k = ANYFS_PART_KIND_FS →
       rdz buf 0 = Some 0xEB ∨ rdz buf 0 = Some 0xE9 ∨ mem_match buf 3 (bs "NTFS    ") = Some true) ∧
    (t = [] ∨ t = bs "gpt" ∨ t = bs "dos").
Proof.
  intros Hl. destruct (kind_buf_cases buf Hl) as (k & Ek & Hk). rewrite Ek. exists k.
  unfold anyfs_probe_pttype_buf. destruct (Z.ltb_spec (len buf) 512); [lia|].
  assert (Eg : (if 520 <=? len buf then memcmp_eq buf 512 (bs "EFI PART") else Some false)
               = mem_match buf 512 (bs "EFI PART")).
  { unfold mem_match. change (len (bs "EFI PART")) with 8. change (512 + 8) with 520.
    destruct (Z.leb_spec 520 (len buf)), (Z.ltb_spec (len buf) 520); done || lia. }
  rewrite Eg. destruct (mem_match_total buf 512 (bs "EFI PART")) as [[] Em]; [lia| |]; rewrite Em in *;
    cbn [mbind option_bind]; [eexists; split; [done|]; split; [done|]; naive_solver|].
  destruct (rdz_in buf 510) as [s0 E0]; [lia|]. destruct (rdz_in buf 511) as [s1 E1]; [lia|].
  rewrite E0, E1 in *. cbn [mbind option_bind].
  destruct (Z.eqb_spec s0 0x55) as [->|]; cbn [mbind option_bind andb]; [|eexists; split; [done|]; split; [done|]; naive_solver].
  destruct (Z.eqb_spec s1 0xAA) as [->|]; [|eexists; split; [done|]; split; [done|]; naive_solver].
  destruct (mbr_scan_spec buf (λ t, negb (t =? 0) && negb (t =? 0xEE)) [0; 1; 2; 3]) as (b & Eb & Hb); [done| |].
  { intros i Hi; repeat (apply elem_of_cons in Hi as [->|Hi]; [lia|]); by apply not_elem_of_nil in Hi. }
  rewrite Eb. cbn [mbind option_bind]. eexists. split; [done|]. split; [done|].
  destruct b; [|split_and!; [done|done|by left]]. split_and!; [done| |by right; right]. intros _ ->.
  destruct (proj1 Hb eq_refl) as (i & Hi & e0 & e4 & H1 & H2 & H3 & H4).
  destruct Hk as [[? _]|[[? _]|[[? _]|(_ & _ & Hk)]]]; [done..|].
  apply Hk; [done..|]. exists i. split; [done|]. exists e0, e4. split_and!; [done..|].
  by apply andb_true_iff in H4 as [? _].
Qed.

Lemma kind_agrees_pttype_witness :
  ∃ k t, anyfs_probe_kind_buf (Some gpt_example) = Some k ∧ anyfs_probe_pttype_buf (Some gpt_example) = Some t ∧
    (t = bs "gpt" → k ≠ ANYFS_PART_KIND_FS) ∧
    (t = bs "dos" → k = ANYFS_PART_KIND_FS →
       rdz gpt_example 0 = Some 0xEB ∨ rdz gpt_example 0 = Some 0xE9 ∨ mem_match gpt_example 3 (bs "NTFS    ") = Some true) ∧
    (t = [] ∨ t = bs "gpt" ∨ t = bs "dos").
Proof. apply kind_agrees_pttype. vm_compute. discriminate. Defined.

(** The 64-bit bounds check of the entry loop wraps: an array at sector
    2^55 - 1 with 512-byte entries passes it and is read out of bounds. *)
Lemma gpt_offset_wraps :
  parse_gpt (put (put gpt_example 596 [0; 2; 0; 0]) 584 [0xFF; 0xFF; 0xFF; 0xFF; 0xFF; 0xFF; 0x7F; 0]) 8 = None.
Proof. vm_compute. reflexivity. Qed.

Section DevSpec.
Context {W : Type} `{!Lkl W, !LklLaws W}.
Implicit Types (w : W).

Lemma wp_kind_blkdev path w : wp (anyfs_probe_kind_blkdev path) (λ _ w', view w' = view w) w.
Proof.
  destruct path as [path|]; [|done]. unfold anyfs_probe_kind_blkdev.
  eapply wp_mono; [apply (wp_open_read_close _ _ _ _ (λ _, True)); [done..|]|by intros ? ? []].
  intros b w' Hb. destruct (Z.eqb_spec (len b) 0); [done|].
  destruct (decide (512 <= len b)) as [Hl|Hl].
  - destruct (kind_buf_cases b Hl) as (k & Ek & _). by eapply wp_opt.
  - eapply (wp_opt _ _ _ ANYFS_PART_KIND_FS); [|done]. unfold anyfs_probe_kind_buf.
    by destruct (Z.ltb_spec (len b) 512); [|lia].
Qed.

Lemma wp_pttype_blkdev path w : wp (anyfs_probe_pttype_blkdev path) (λ _ w', view w' = view w) w.
Proof.
  destruct path as [path|]; [|done]. unfold anyfs_probe_pttype_blkdev.
  eapply wp_mono; [apply (wp_open_read_close _ _ _ _ (λ _, True)); [done..|]|by intros ? ? []].
  intros b w' Hb. destruct (pttype_total b) as (t & Et). by eapply wp_opt.
Qed.

(** The first 64 KiB of every device: bytes, and a GPT header, where there is
    one, does not put its array beyond sector 2^54. *)
Definition tame_disks : Prop := ∀ fd w buf w', read_prefix fd (64 * 1024) w = Some (buf, w') → Bytes buf ∧ gpt_tame buf.

Lemma wp_pt_blkdev path max w : tame_disks → 0 < max →
  wp (anyfs_probe_pt_blkdev path max) (λ l w', view w' = view w ∧ inner_ok max l) w.
Proof.
  intros Ht Hm. assert (H0 : inner_ok max []) by (split_and!; [simpl; lia|constructor..]).
  destruct path as [path|]; [|done]. unfold anyfs_probe_pt_blkdev. rewrite (proj2 (Z.leb_gt max 0)) by done.
  apply wp_bind, wp_open; intros fd w1 Hfd.
  - intros Hv. by rewrite (proj2 (Z.ltb_lt fd 0)) by lia.
  - intros Hn Hv. rewrite (proj2 (Z.ltb_ge fd 0)) by lia. apply wp_bind.
    destruct (wp_elim _ _ _ (wp_read_prefix fd (64 * 1024) w1 ltac:(lia))) as (buf & w2 & E & Hv2 & Hb).
    eapply wp_intro; [exact E|]. destruct (Ht _ _ _ _ E) as [Hby Hg]. apply wp_bind, wp_close. intros _ w3 Hv3.
    assert (Hw : view w3 = view w).
    { rewrite Hv3, Hv2, Hv. cbn [v_fds v_mnt v_bro]. rewrite delete_insert_id by done. by destruct (view w). }
    destruct (Z.ltb_spec (len buf) 512); [done|].
    destruct (pt_buf_ok buf max Hby Hm Hg) as (out & Eo & Ho & _). by eapply wp_opt.
Qed.
End DevSpec.

(** Probing a device by its first sectors always returns, whatever the
    device holds, and leaves the kernel as it was: every descriptor opened is
    closed and neither the mount table nor a device flag changes. *)
Theorem probe_dev_clean {W} `{!Lkl W, !LklLaws W} path (w : W) :
  wp (anyfs_probe_kind_blkdev path) (λ _ w', view w' = view w) w ∧
  wp (anyfs_probe_pttype_blkdev path) (λ _ w', view w' = view w) w.
Proof. split; [apply wp_kind_blkdev|apply wp_pttype_blkdev]. Qed.

(** A kernel whose one device file holds the example table. *)
Definition toy_disk : Toy.toy :=
  Toy.mk_toy 3 Toy.empty_view {[ bs "/dev/vda" := gpt_example ]} ∅ ∅ 0 Toy.empty_hview ∅.

Lemma probe_dev_clean_witness :
  wp (anyfs_probe_kind_blkdev (Some (bs "/dev/vda"))) (λ _ w', view w' = view toy_disk) toy_disk.
Proof. exact (proj1 (probe_dev_clean (Some (bs "/dev/vda")) toy_disk)). Defined.

Example kind_toy :
  fst <$> anyfs_probe_kind_blkdev (Some (bs "/dev/vda")) toy_disk = Some ANYFS_PART_KIND_NESTED_PARTITION_TABLE.
Proof. vm_compute. reflexivity. Qed.

(** ** The libblkid pass *)

Section MetaSpec.
Context {W : Type} `{!Lkl W, !LklLaws W, !Host W, !HostLaws W}.
Implicit Types (w : W).

(** Both views at once. *)
Definition same (w w' : W) : Prop := view w' = view w ∧ hview w' = hview w.

Lemma wp_hquiet {A} (f : kcall W A) (Q : A → W → Prop) w :
  view (f w).2 = view w ∧ hview (f w).2 = hview w →
  (∀ r w', same w w' → Q r w') → wp (call f) Q w.
Proof. intros Hf H. apply wp_call, H, Hf. Qed.

Lemma wp_pread_h fd n off (Q : Z * bytes → W → Prop) w :
  (∀ r d w', same w w' → len d = Z.max 0 r → (0 <= n → r <= n) → Q (r, d) w') →
  wp (lkl_sys_pread64 fd n off) Q w.
Proof.
  intros H. apply wp_call. destruct (sys_pread64 fd n off w) as [[r d] w'] eqn:E.
  pose proof (hlaw_pread fd n off w) as Hh. rewrite E in Hh. apply law_pread in E as (Hv & ? & ?). by apply H.
Qed.

Lemma wp_write_all fuel hfd b w : (length b < fuel)%nat → wp (write_all fuel hfd b) (λ _ w', same w w') w.
Proof.
  revert b w. induction fuel as [|f IH]; intros b w Hf; [lia|].
  destruct b as [|c b]; [done|]. cbn [write_all]. apply wp_bind, wp_call.
  destruct (host_write hfd (c :: b) w) as [m w1] eqn:E. apply hlaw_write in E as (Hv & Hh & Hm). cbn [fst snd].
  destruct (Z.leb_spec m 0); [done|]. eapply wp_mono; [apply IH; rewrite length_drop; lia|].
  cbn. unfold same. intros ? ? [-> ->]. done.
Qed.

Lemma wp_spool_loop fuel lfd hfd spool got w : got <= spool → spool - got < Z.of_nat fuel →
  wp (spool_loop fuel lfd hfd spool got) (λ _ w', same w w') w.
Proof.
  revert got w. induction fuel as [|f IH]; intros got w Hg Hf; [lia|].
  cbn [spool_loop]. destruct (Z.leb_spec spool got); [done|]. apply wp_bind, wp_pread_h.
  intros r d w1 [Hv Hh] Hd Hr. cbn [fst snd]. destruct (Z.leb_spec r 0); [done|]. apply wp_bind.
  eapply wp_mono; [apply wp_write_all; lia|]. intros ok w2 [Hv2 Hh2].
  destruct ok; cbn [negb]; [|apply wp_ret; unfold same; by rewrite Hv2, Hh2].
  eapply wp_mono; [apply IH; lia|]. unfold same. intros _ w3 [-> ->]. by rewrite Hv2, Hh2.
Qed.
Lemma wp_tmp (f : kcall W Z) (Q : Z → W → Prop) w :
  (∀ r w', f w = (r, w') → view w' = view w ∧
    ((r < 0 ∧ hview w' = hview w) ∨
     (0 <= r ∧ r ∉ h_fds (hview w) ∧ hview w' = mk_hview ({[r]} ∪ h_fds (hview w)) (h_probes (hview w))))) →
  (∀ r w', view w' = view w → r < 0 → hview w' = hview w → Q r w') →
  (∀ r w', view w' = view w → 0 <= r → r ∉ h_fds (hview w) →
     hview w' = mk_hview ({[r]} ∪ h_fds (hview w)) (h_probes (hview w)) → Q r w') →
  wp (call f) Q w.
Proof.
  intros Hf H1 H2. apply wp_call. destruct (f w) as [r w'].
  destruct (Hf r w' eq_refl) as [? [[??]|(? & ? & ?)]]; auto.
Qed.

(** What the spool leaves behind: a new host descriptor or nothing. *)
Definition spooled (w : W) (h : Z) (w' : W) : Prop :=
  view w' = view w ∧
  ((h = -1 ∧ hview w' = hview w) ∨
   (0 <= h ∧ h ∉ h_fds (hview w) ∧ hview w' = mk_hview ({[h]} ∪ h_fds (hview w)) (h_probes (hview w)))).

Lemma wp_lkl_close_h fd (Q : Z → W → Prop) w :
  (∀ r w', view w' = mk_view (delete fd (v_fds (view w))) (v_mnt (view w)) (v_bro (view w)) (v_dsk (view w)) →
     hview w' = hview w → Q r w') → wp (lkl_sys_close fd) Q w.
Proof. intros H. apply wp_call, H; [apply law_close|apply hlaw_close]. Qed.

Lemma wp_hclose fd (Q : Z → W → Prop) w :
  (∀ r w', view w' = view w → hview w' = mk_hview (h_fds (hview w) ∖ {[fd]}) (h_probes (hview w)) → Q r w') →
  wp (call (host_close fd)) Q w.
Proof. intros H. apply wp_call, H; apply hlaw_hclose. Qed.

Lemma hfds_drop (X : gset Z) h : h ∉ X → ({[h]} ∪ X) ∖ {[h]} = X.
Proof. set_solver. Qed.

Lemma view_reopen (w : W) fd p : v_fds (view w) !! fd = None →
  mk_view (delete fd (<[fd := p]> (v_fds (view w)))) (v_mnt (view w)) (v_bro (view w)) (v_dsk (view w)) = view w.
Proof. intros H. rewrite delete_insert_id by done. by destruct (view w). Qed.

Lemma hview_eta w : mk_hview (h_fds (hview w)) (h_probes (hview w)) = hview w.
Proof. by destruct (hview w). Qed.

Lemma wp_spool path spool w : 0 <= spool → wp (spool_to_host_tmpfile path spool) (spooled w) w.
Proof.
  intros Hs. unfold spool_to_host_tmpfile. apply wp_bind, wp_call.
  destruct (sys_open path LKL_O_RDONLY w) as [lfd w1] eqn:E.
  pose proof (hlaw_open path LKL_O_RDONLY w) as Hh1. rewrite E in Hh1. cbn [fst snd] in *.
  apply law_open in E as [[Hr Hv1]|(Hr & Hn & Hv1)].
  { destruct (Z.ltb_spec lfd 0); [|lia]. apply wp_ret. split; [done|]. left. done. }
  destruct (Z.ltb_spec lfd 0); [lia|].
  apply wp_bind. apply (wp_mono _ (λ h w2, view w2 = view w1 ∧
    ((h < 0 ∧ hview w2 = hview w1) ∨ (0 <= h ∧ h ∉ h_fds (hview w1) ∧
       hview w2 = mk_hview ({[h]} ∪ h_fds (hview w1)) (h_probes (hview w1)))))).
  { apply (wp_tmp host_tmpfile); [apply hlaw_tmpfile|auto..]. }
  intros h0 w2 [Hv2 H2]. apply wp_bind. apply (wp_mono _ (λ h w3, view w3 = view w1 ∧
    ((h < 0 ∧ hview w3 = hview w1) ∨ (0 <= h ∧ h ∉ h_fds (hview w1) ∧
       hview w3 = mk_hview ({[h]} ∪ h_fds (hview w1)) (h_probes (hview w1)))))).
  { destruct (Z.ltb_spec h0 0); [|apply wp_ret; naive_solver lia].
    destruct H2 as [[_ H2]|[? _]]; [|lia].
    apply (wp_tmp host_mkstemp); [apply hlaw_mkstemp|..]; rewrite ?H2, ?Hv2; auto. }
  intros h w3 [Hv3 H3]. destruct (Z.ltb_spec h 0).
  { destruct H3 as [[_ H3]|[? _]]; [|lia]. apply wp_bind, wp_lkl_close_h. intros _ w4 Hv4 Hh4.
    apply wp_ret. split; [rewrite Hv4, Hv3, Hv1; by apply view_reopen|]. left. by rewrite Hh4, H3, Hh1. }
  destruct H3 as [[? _]|(_ & Hf & H3)]; [lia|]. apply wp_bind.
  eapply wp_mono; [apply wp_spool_loop; lia|]. intros g w4 [Hv4 Hh4].
  apply wp_bind, wp_lkl_close_h. intros _ w5 Hv5 Hh5.
  assert (Hv : view w5 = view w) by (rewrite Hv5, Hv4, Hv3, Hv1; by apply view_reopen).
  assert (Hh : hview w5 = mk_hview ({[h]} ∪ h_fds (hview w)) (h_probes (hview w)))
    by (rewrite Hh5, Hh4, H3, Hh1; done). rewrite Hh1 in Hf.
  destruct g as [got|]; [destruct (got =? 0)|]; apply wp_bind.
  2:{ apply wp_hquiet; [apply hlaw_lseek|]. intros _ w6 [Hv6 Hh6]. apply wp_ret.
      split; [by rewrite Hv6|]. right. by rewrite Hh6. }
  all: apply wp_hclose; intros _ w6 Hv6 Hh6; apply wp_ret; split; [by rewrite Hv6|]; left; split; [done|].
  all: rewrite Hh6, Hh; cbn; rewrite hfds_drop by done; apply hview_eta.
Qed.

Lemma wp_meta_value name cap w : 0 < cap →
  wp (meta_value name cap) (λ v w', same w w' ∧ len v < cap) w.
Proof.
  intros Hc. unfold meta_value. apply wp_bind, wp_hquiet; [apply hlaw_lookup|]. intros r w1 H1.
  apply wp_ret. split; [done|]. destruct r as [v|]; [|simpl; lia].
  pose proof (c_str_le (take (Z.to_nat (cap - 1)) v)). rewrite length_take in *. lia.
Qed.
End MetaSpec.

(** The three texts fit the arrays of the caller. *)
Definition meta_fits (out : bytes * bytes * bytes) : Prop :=
  len out.1.1 < 32 ∧ len out.1.2 < 64 ∧ len out.2 < 40.

Lemma wp_probe_meta {W} `{!Lkl W, !LklLaws W, !Host W, !HostLaws W} path (w : W) :
  wp (anyfs_probe_meta path)
    (λ r w', view w' = view w ∧ hview w' = hview w ∧ meta_fits r.2 ∧
             (r.1 = 0 ∨ (r.1 = -1 ∧ r.2 = ([], [], [])))) w.
Proof.
  assert (H0 : meta_fits ([], [], [])) by (unfold meta_fits; simpl; lia).
  destruct path as [path|]; [|split_and!; [done..|by right]]. unfold anyfs_probe_meta. apply wp_bind.
  eapply wp_mono; [apply wp_spool; lia|]. intros h w1 [Hv1 H1].
  destruct (Z.ltb_spec h 0); [apply wp_ret; destruct H1 as [[-> H1]|[? _]]; [split_and!; [done..|by right]|lia]|].
  destruct H1 as [[-> _]|(_ & Hf & H1)]; [lia|]. apply wp_bind, wp_call.
  destruct (blkid_new_probe_from_filename _ w1) as [pr w2] eqn:E. apply hlaw_new in E as [Hv2 H2]. cbn [fst snd].
  destruct pr; cbn [negb].
  2:{ apply wp_bind, wp_hclose. intros _ w3 Hv3 H3. apply wp_ret. cbn [fst snd].
      rewrite Hv3, Hv2, Hv1, H3, H2, H1. cbn. rewrite hfds_drop, Z.add_0_r, hview_eta by done. split_and!; [done..|by right]. }
  apply wp_bind, wp_hquiet; [apply hlaw_enable|]. intros _ w3 [Hv3 H3].
  apply wp_bind, wp_hquiet; [apply hlaw_probe|]. intros rc w4 [Hv4 H4]. apply wp_bind.
  apply (wp_mono _ (λ out w5, same w4 w5 ∧ meta_fits out)).
  { destruct (rc =? 0); [|by apply wp_ret].
    apply wp_bind. eapply wp_mono; [by apply wp_meta_value|]. intros a w5 [[Hv5 H5] Ha].
    apply wp_bind. eapply wp_mono; [by apply wp_meta_value|]. intros c w6 [[Hv6 H6] Hc].
    apply wp_bind. eapply wp_mono; [by apply wp_meta_value|]. intros d w7 [[Hv7 H7] Hd].
    apply wp_ret. split; [|done]. split; congruence. }
  intros out w5 [[Hv5 H5] Ho]. apply wp_bind, wp_call. destruct (hlaw_free w5) as [Hv6 H6].
  apply wp_bind, wp_hclose. intros _ w7 Hv7 H7. apply wp_ret. cbn [fst snd].
  rewrite Hv7, Hv6, Hv5, Hv4, Hv3, Hv2, Hv1, H7, H6, H5, H4, H3, H2, H1. cbn.
  rewrite hfds_drop by done. replace (h_probes (hview w) + 1 - 1) with (h_probes (hview w)) by lia.
  rewrite hview_eta. auto.
Qed.

(** The libblkid pass always returns, fills texts that fit the caller's
    arrays (empty ones when it returns -1), and leaks nothing on any path:
    the kernel descriptor, the host descriptor of the spool file and the probe
    are all released. *)
Theorem probe_meta_clean {W} `{!Lkl W, !LklLaws W, !Host W, !HostLaws W} path (w : W) :
  wp (anyfs_probe_meta path)
    (λ r w', view w' = view w ∧ hview w' = hview w ∧ meta_fits r.2 ∧
             (r.1 = 0 ∨ (r.1 = -1 ∧ r.2 = ([], [], [])))) w.
Proof. apply wp_probe_meta. Qed.

Lemma probe_meta_clean_witness :
  wp (anyfs_probe_meta (Some (bs "/dev/vda")))
    (λ r w', view w' = view toy_disk ∧ hview w' = hview toy_disk ∧ meta_fits r.2 ∧
             (r.1 = 0 ∨ (r.1 = -1 ∧ r.2 = ([], [], [])))) toy_disk.
Proof. exact (probe_meta_clean (Some (bs "/dev/vda")) toy_disk). Defined.

End Probe.
