(* ===== verification/Sysfs.v ===== *)
(** * Sysfs

    src/core/anyfs_sysfs.c: the partition list of a disk as the kernel shows
    it under /sys, sorted by partition number in the caller's array. *)
From Stdlib Require Import Sorted.
From S2P Require Import Prelude CLib Lkl.
Import CLib.

Module Sysfs.

Record AnyfsSysfsPart := mk_spart {
  sp_index : Z; sp_start : Z; sp_size : Z; sp_ro : bool; sp_name : bytes }.

(** Trailing newlines and spaces, from cell [n - 1] down. *)
Fixpoint trim (buf : bytes) (n : nat) : nat :=
  match n with
  | O => O
  | S k => match buf !! k with
           | Some c => if (c =? 10) || (c =? 13) || (c =? 32) then trim buf k else n
           | None => n
           end
  end.

(** The path is [disk_name] with an optional 'p' and a decimal number above
    0; [unsigned int] keeps 32 bits of it. *)
Definition part_index (disk_name n : bytes) : option Z :=
  if match n with c :: _ => c =? 46 | [] => false end then None
  else if negb (starts_with disk_name n) then None
  else
    let rest := drop (length disk_name) n in
    let rest := match rest with c :: r => if c =? 112 then r else rest | [] => rest end in
    match rest with
    | [] => None
    | _ =>
        let '(idx, end_) := strtoul rest in
        if bool_decide (end_ = []) && negb (idx =? 0) then Some (u32 idx) else None
    end.

Section Walk.
Context {W : Type} `{!Lkl W}.

(** The value returned and the text left in [buf]. *)
Definition read_small (path : bytes) (cap : Z) : M W (Z * bytes) :=
  fd ← lkl_sys_open path LKL_O_RDONLY;
  if fd <? 0 then mret (-1, [])
  else
    r ← lkl_sys_read fd (cap - 1);
    _ ← lkl_sys_close fd;
    if r.1 <? 0 then mret (-1, [])
    else
      let n := trim r.2 (length r.2) in
      mret (Z.of_nat n, c_str (take n r.2)).

(** [Some v] for 0 and [*out = v]; [None] for -1. *)
Definition read_u64 (path : bytes) : M W (option Z) :=
  r ← read_small path 64;
  if r.1 <? 0 then mret None
  else
    let '(v, end_) := strtoul r.2 in
    if bool_decide (end_ = r.2) then mret None else mret (Some v).

Definition anyfs_sysfs_resolve_disk_name (dev : Z) : M W (option bytes) :=
  let major := Z.land (Z.shiftr dev 8) 0xfff in
  let minor := Z.lor (Z.land dev 0xff) (Z.land (Z.shiftr dev 12) 0xfff00) in
  let link_path := (snprintf 64 (bs "/sys/dev/block/" ++ fmt_u major ++ bs ":" ++ fmt_u minor)).2 in
  r ← lkl_sys_readlink link_path 255;
  if r.1 <=? 0 then mret None
  else
    let target := c_str r.2 in
    let name := default target (strrchr 47 target) in
    match name with
    | [] => mret None
    | _ => mret (Some (strncpy 64 name))
    end.

(** [out = None]: how many entries match; [out = Some cap]: 0 and the first
    match.  Negative when the directory cannot be opened. *)
Definition scan_prefix (dir prefix : bytes) (out : option Z) : M W (Z * bytes) :=
  d ← lkl_opendir dir;
  match d with
  | None => mret (-1, [])
  | Some (h, names) =>
      let hits := filter (λ n, starts_with prefix n = true) names in
      let r := match out, hits with
               | None, _ => (i32 (len hits), [])
               | Some cap, [] => (-1, [])
               | Some cap, n :: _ => (0, (snprintf cap n).2)
               end in
      _ ← lkl_closedir h;
      mret r
  end.

Definition anyfs_sysfs_virtio_disk_name (disk_id cap : Z) : M W (Z * bytes) :=
  if (disk_id <? 0) || (cap =? 0) then mret (-1, [])
  else
    r ← scan_prefix (bs "/sys/devices/virtio-mmio-cmdline") (bs "virtio-mmio.") None;
    let nboot := if r.1 <? 0 then 0 else r.1 in
    let path := (snprintf 192
      (if disk_id <? nboot then bs "/sys/devices/virtio-mmio-cmdline/virtio-mmio." ++ fmt_d disk_id
       else bs "/sys/devices/platform/virtio-mmio." ++ fmt_d (disk_id - nboot) ++ bs ".auto")).2 in
    v ← scan_prefix path (bs "virtio") (Some 64);
    if v.1 <? 0 then mret (-1, [])
    else
      let path := path ++ (snprintf (192 - len path) (bs "/" ++ v.2 ++ bs "/block")).2 in
      scan_prefix path (bs "vd") (Some cap).

(** [attr] of partition [n]: its value when the file holds a number. *)
Definition attr (dir_path n name : bytes) : M W (option Z) :=
  read_u64 (snprintf 192 (dir_path ++ bs "/" ++ n ++ bs "/" ++ name)).2.

Definition read_part (dir_path n : bytes) (idx : Z) : M W AnyfsSysfsPart :=
  start ← attr dir_path n (bs "start");
  size ← attr dir_path n (bs "size");
  ro ← attr dir_path n (bs "ro");
  mret (mk_spart idx (default 0 (u64 ∘ Z.mul 512 <$> start)) (default 0 (u64 ∘ Z.mul 512 <$> size))
          (default false ((λ v, negb (v =? 0)) <$> ro)) (strncpy 64 n)).

(** The readdir loop; past [buf_n] entries are only counted. *)
Fixpoint walk_loop (disk_name dir_path : bytes) (buf_n : Z) (names : list bytes)
    (got : Z) (buf : list AnyfsSysfsPart) : M W (Z * list AnyfsSysfsPart) :=
  match names with
  | [] => mret (got, buf)
  | n :: rest =>
      match part_index disk_name n with
      | None => walk_loop disk_name dir_path buf_n rest got buf
      | Some idx =>
          if buf_n <=? got then walk_loop disk_name dir_path buf_n rest (got + 1) buf
          else
            p ← read_part dir_path n idx;
            walk_loop disk_name dir_path buf_n rest (got + 1) (buf ++ [p])
      end
  end.
End Walk.

(** [while (j > 0 && buf[j - 1].index > tmp.index) { buf[j] = buf[j - 1]; j--; }
    buf[j] = tmp;] *)
Fixpoint shift (tmp : AnyfsSysfsPart) (j : nat) (buf : list AnyfsSysfsPart) : list AnyfsSysfsPart :=
  match j with
  | O => <[O := tmp]> buf
  | S j' =>
      match buf !! j' with
      | Some q => if sp_index tmp <? sp_index q then shift tmp j' (<[j := q]> buf) else <[j := tmp]> buf
      | None => buf
      end
  end.

Fixpoint sort_loop (i n : nat) (buf : list AnyfsSysfsPart) : list AnyfsSysfsPart :=
  match n with
  | O => buf
  | S n' => match buf !! i with
            | Some tmp => sort_loop (S i) n' (shift tmp i buf)
            | None => buf
            end
  end.

Definition anyfs_sysfs_walk {W} `{!Lkl W} (disk_name : option bytes) (buf_n : Z) :
    M W (Z * list AnyfsSysfsPart) :=
  match disk_name with
  | None => mret (-1, [])
  | Some disk_name =>
      let dir_path := (snprintf 128 (bs "/sys/block/" ++ disk_name)).2 in
      d ← lkl_opendir dir_path;
      match d with
      | None => mret (-1, [])
      | Some (h, names) =>
          r ← walk_loop disk_name dir_path buf_n names 0 [];
          _ ← lkl_closedir h;
          let '(got, buf) := r in
          let buf := if (1 <? got) && (got <=? buf_n) then sort_loop 1 (Z.to_nat (got - 1)) buf else buf in
          mret (i32 got, buf)
      end
  end.

(** ** The sort *)

Abbreviation by_index := (λ p q : AnyfsSysfsPart, sp_index p <= sp_index q).

Lemma shift_spec tmp l y r : StronglySorted by_index l →
  ∃ l1 l2, l = l1 ++ l2 ∧ shift tmp (length l) (l ++ y :: r) = l1 ++ tmp :: l2 ++ r ∧
    Forall (λ p, sp_index p <= sp_index tmp) l1 ∧ Forall (λ p, sp_index tmp < sp_index p) l2.
Proof.
  revert y r. induction l as [|z l IH] using rev_ind; intros y r Hs.
  { exists [], []. split_and!; [done|done|constructor|constructor]. }
  rewrite length_app, Nat.add_1_r. cbn [shift].
  rewrite <- app_assoc. cbn [app]. rewrite list_lookup_middle by done.
  assert (Hl : StronglySorted by_index l ∧ Forall (λ p, sp_index p <= sp_index z) l).
  { clear -Hs. induction l as [|x l IH]; [split; constructor|]. inversion Hs as [|?? H1 H2]; subst.
    destruct (IH H1) as [? ?]. apply Forall_app in H2 as [H2 H3]. rewrite Forall_singleton in H3.
    split; constructor; first [exact H2 | exact H3 | assumption]. }
  destruct Hl as [Hl Hz]. destruct (Z.ltb_spec (sp_index tmp) (sp_index z)).
  - replace (<[S (length l) := z]> (l ++ z :: y :: r)) with (l ++ z :: z :: r).
    2:{ rewrite insert_app_r_alt by lia. by replace (S (length l) - length l)%nat with 1%nat by lia. }
    destruct (IH z (z :: r) Hl) as (l1 & l2 & E & -> & H1 & H2).
    exists l1, (l2 ++ [z]). rewrite E, <- !app_assoc. split_and!; [done|done|done|].
    apply Forall_app. by rewrite Forall_singleton.
  - exists (l ++ [z]), []. rewrite app_nil_r. split_and!; [done| | |constructor].
    + rewrite insert_app_r_alt by lia. replace (S (length l) - length l)%nat with 1%nat by lia.
      by rewrite <- app_assoc.
    + apply Forall_app. rewrite Forall_singleton. split; [|done].
      eapply Forall_impl; [exact Hz|]. simpl. lia.
Qed.

Lemma sorted_insert tmp l1 l2 : StronglySorted by_index (l1 ++ l2) →
  Forall (λ p, sp_index p <= sp_index tmp) l1 → Forall (λ p, sp_index tmp < sp_index p) l2 →
  StronglySorted by_index (l1 ++ tmp :: l2).
Proof.
  intros Hs H1 H2. induction l1 as [|x l1 IH].
  - constructor; [done|]. eapply Forall_impl; [exact H2|]. simpl. lia.
  - cbn in *. inversion Hs as [|?? Hs1 Hs2]; subst. inversion H1; subst. constructor; [by apply IH|].
    apply Forall_app in Hs2 as [? ?]. apply Forall_app. split; [done|]. by constructor.
Qed.

Lemma sort_loop_spec l r : StronglySorted by_index l →
  StronglySorted by_index (sort_loop (length l) (length r) (l ++ r)) ∧
  sort_loop (length l) (length r) (l ++ r) ≡ₚ l ++ r.
Proof.
  revert l. induction r as [|y r IH]; intros l Hs; [by rewrite app_nil_r|].
  cbn [length sort_loop]. rewrite list_lookup_middle by done.
  destruct (shift_spec y l y r Hs) as (l1 & l2 & -> & -> & H1 & H2).
  pose proof (sorted_insert y l1 l2 Hs H1 H2) as Hs'.
  replace (S (length (l1 ++ l2))) with (length (l1 ++ y :: l2)) by (rewrite !length_app; simpl; lia).
  replace (l1 ++ y :: l2 ++ r) with ((l1 ++ y :: l2) ++ r) by (by rewrite <- app_assoc).
  destruct (IH _ Hs') as [IH1 IH2]. split; [done|]. rewrite IH2.
  rewrite <- !app_assoc. apply Permutation_app_head, Permutation_middle.
Qed.

Lemma sorted_short (l : list AnyfsSysfsPart) : (length l <= 1)%nat → StronglySorted by_index l.
Proof. destruct l as [|y [|z l]]; simpl; intros; [constructor|by repeat constructor|lia]. Qed.

(** ** The walk *)

Section WalkSpec.
Context {W : Type} `{!Lkl W, !LklLaws W}.
Implicit Types (w : W).

Lemma wp_read_u64 path w : wp (read_u64 path) (λ _ w', view w' = view w) w.
Proof.
  unfold read_u64, read_small. apply wp_bind, wp_bind, wp_open; intros fd w1 Hfd.
  - intros Hv. destruct (Z.ltb_spec fd 0); [|lia]. by apply wp_ret, wp_ret.
  - intros Hn Hv. destruct (Z.ltb_spec fd 0); [lia|]. apply wp_bind. wp_lkl. apply wp_bind. wp_lkl.
    assert (view w'0 = view w) as <-.
    { rewrite H3, H0, Hv. cbn. rewrite delete_insert_id by done. by destruct (view w). }
    cbn [fst snd]. destruct (r <? 0); apply wp_ret; cbn [fst snd]; [done|].
    destruct (_ <? 0); [done|]. destruct (strtoul _). by case_bool_decide.
Qed.

Lemma wp_read_part dir n idx w :
  wp (read_part dir n idx) (λ p w', view w' = view w ∧ sp_index p = idx ∧ len (sp_name p) < 64) w.
Proof.
  unfold read_part, attr. apply wp_bind. eapply wp_mono; [apply wp_read_u64|]. intros a w1 H1.
  apply wp_bind. eapply wp_mono; [apply wp_read_u64|]. intros b w2 H2.
  apply wp_bind. eapply wp_mono; [apply wp_read_u64|]. intros c w3 H3.
  apply wp_ret. split_and!; [congruence|done|by apply strncpy_len].
Qed.

(** The entries of the directory that are partitions, in directory order. *)
Definition hits (disk_name : bytes) (names : list bytes) : list Z := omap (part_index disk_name) names.

Lemma wp_walk_loop dn dir bn names got buf w : 0 <= bn → len buf = Z.min got bn → 0 <= got →
  wp (walk_loop dn dir bn names got buf)
    (λ r w', view w' = view w ∧ r.1 = got + len (hits dn names) ∧
       sp_index <$> r.2 = (sp_index <$> buf) ++ take (Z.to_nat (bn - len buf)) (hits dn names)) w.
Proof.
  intros Hb. revert got buf w. induction names as [|n names IH]; intros got buf w Hl Hg.
  { cbn. rewrite take_nil, app_nil_r. split_and!; [done|lia|done]. }
  cbn [walk_loop hits omap list_omap]. fold (hits dn names).
  destruct (part_index dn n) as [idx|]; [|by apply IH].
  destruct (Z.leb_spec bn got).
  - eapply wp_mono; [apply IH; lia|]. intros r w' (H1 & H2 & H3). split_and!; [done| |].
    + rewrite H2. cbn [length]. lia.
    + rewrite H3. by replace (Z.to_nat (bn - len buf)) with O by lia.
  - apply wp_bind. eapply wp_mono; [apply wp_read_part|]. intros p w1 (Hv & Hp & _).
    eapply wp_mono; [apply IH; rewrite ?length_app; simpl; lia|].
    intros r w' (H1 & H2 & H3). split_and!; [by rewrite H1|rewrite H2; cbn [length]; lia|].
    rewrite H3, fmap_app, length_app. cbn [fmap list_fmap length]. rewrite <- app_assoc, Hp. cbn [app].
    replace (Z.to_nat (bn - len buf)) with (S (Z.to_nat (bn - Z.of_nat (length buf + 1)))) by lia. done.
Qed.
End WalkSpec.

(** ** Properties *)

(** The partition list of a disk: when the caller's array holds them all,
    the walk returns one entry per partition directory of the disk, sorted by
    partition number (the in-place insertion sort is a sorted permutation),
    and leaves no descriptor open. *)
Theorem sysfs_walk_sorted {W} `{!Lkl W, !LklLaws W} dn bn (w : W) h names :
  (sys_opendir (snprintf 128 (bs "/sys/block/" ++ dn)).2 w).1 = Some (h, names) →
  len (hits dn names) <= bn → bn < 2 ^ 31 →
  wp (anyfs_sysfs_walk (Some dn) bn)
    (λ r w', view w' = view w ∧ r.1 = len (hits dn names) ∧ len r.2 = r.1 ∧
       StronglySorted by_index r.2 ∧ sp_index <$> r.2 ≡ₚ hits dn names) w.
Proof.
  intros Hd Hl Hb. unfold anyfs_sysfs_walk. apply wp_bind, wp_call.
  destruct (sys_opendir (snprintf 128 (bs "/sys/block/" ++ dn)).2 w) as [d w0] eqn:E. cbn [fst snd] in *. subst d. apply wp_bind.
  eapply wp_mono; [apply wp_walk_loop; simpl; lia|]. intros [got buf] w' (Hv' & Hg & Hi). cbn [fst snd length] in *.
  rewrite take_ge in Hi by lia. cbn [fmap list_fmap app] in Hi.
  assert (Hlen : length buf = length (hits dn names)) by (rewrite <- Hi; by rewrite length_fmap).
  apply wp_bind, wp_call, wp_ret. cbn [fst snd]. rewrite i32_small by lia. pose proof (dir_closed _ _ _ _ _ _ E Hv') as Hv.
  destruct (Z.ltb_spec 1 got), (Z.leb_spec got bn); cbn [andb]; try lia.
  - destruct buf as [|y buf]; [simpl in *; lia|].
    replace (Z.to_nat (got - 1)) with (length buf) by (simpl in *; lia).
    destruct (sort_loop_spec [y] buf) as [H1 H2]; [repeat constructor|]. cbn [length app] in H1, H2.
    split_and!; [done|lia|rewrite H2; simpl in *; lia|done|by rewrite H2, Hi].
  - split_and!; [done|lia|lia|apply sorted_short; lia|by rewrite Hi].
Qed.

(** A disk with partitions 10 and 2, listed in that order. *)
Definition toy_sys : Toy.toy :=
  Toy.mk_toy 3 Toy.empty_view
    {[ bs "/sys/block/vda/vda10/start" := bs "2048" ++ [10];
       bs "/sys/block/vda/vda2/size" := bs "100" ++ [10] ]}
    {[ bs "/sys/block/vda" := [bs "."; bs "size"; bs "vda10"; bs "vda2"] ]} ∅ 0 Toy.empty_hview ∅.

Lemma sysfs_walk_sorted_witness :
  wp (anyfs_sysfs_walk (Some (bs "vda")) 128)
    (λ r w', view w' = view toy_sys ∧ r.1 = 2 ∧ len r.2 = r.1 ∧
       StronglySorted by_index r.2 ∧ sp_index <$> r.2 ≡ₚ [10; 2]) toy_sys.
Proof.
  apply (sysfs_walk_sorted (bs "vda") 128 toy_sys (-1) [bs "."; bs "size"; bs "vda10"; bs "vda2"]);
    [vm_compute; reflexivity | vm_compute; discriminate | lia].
Defined.

Example walk_toy : fst <$> anyfs_sysfs_walk (Some (bs "vda")) 128 toy_sys
  = Some (2, [mk_spart 2 0 51200 false (bs "vda2"); mk_spart 10 1048576 0 false (bs "vda10")]).
Proof. vm_compute. reflexivity. Qed.

End Sysfs.
