(* ===== verification/Mount.v ===== *)
(** * Mount

    src/core/anyfs_mount.c: mounting a block device of the kernel, with the
    filesystem given or tried in turn, and unmounting it. *)
From S2P Require Import Prelude CLib Lkl MountOpts Legacy.
Import CLib MountOpts.

Module Mount.

Definition ANYFS_MOUNT_RDONLY : Z := 1.
Definition ANYFS_MOUNT_REPLACE : Z := 2.
Definition ANYFS_MOUNT_FAT_CP_SHIFT : Z := 8.
Definition ANYFS_MOUNT_FAT_CP_MASK : Z := 0xf00.

Definition MAX_FSTYPES : Z := 128.
Definition MOUNT_DATA_SIZE : Z := 4096.
Definition FSTYPE_MAXLEN : Z := 32.

Record AnyfsMount := mk_mount { mount_point : bytes; fstype : bytes }.

Fixpoint skip_blank (s : bytes) : bytes :=
  match s with
  | c :: s' => if (c =? 9) || (c =? 32) then skip_blank s' else s
  | [] => []
  end.

(** The line loop over the text of /proc/filesystems. *)
Fixpoint fstypes_loop (fuel : nat) (line : option bytes) (max : Z) (out : list bytes) : option (list bytes) :=
  match line with
  | None | Some [] => Some out
  | Some ((c :: _) as l) =>
      match fuel with
      | O => None
      | S f =>
          if max <=? len out then Some out
          else
            let '(text, next) := match strchr 10 l with
                                 | Some (a, b) => (a, Some b)
                                 | None => (l, None)
                                 end in
            let blk := match text with h :: _ => (h =? 9) || (h =? 32) | [] => false end in
            let name := skip_blank text in
            if blk && negb (len name =? 0) && (len name <? FSTYPE_MAXLEN)
            then fstypes_loop f next max (out ++ [strncpy FSTYPE_MAXLEN name])
            else fstypes_loop f next max out
      end
  end.

Definition fat_codepage (flags : Z) : Z :=
  let i := Z.shiftr (Z.land flags ANYFS_MOUNT_FAT_CP_MASK) ANYFS_MOUNT_FAT_CP_SHIFT in
  if i <? 5 then default 0 ([0; 936; 950; 932; 949] !! Z.to_nat i) else 0.

(** /lklmnt/<name> *)
Definition mnt_path (name : bytes) : bytes := (snprintf 64 (bs "/lklmnt/" ++ name)).2.

Section Mount.
Context {W : Type} `{!Lkl W}.

Definition get_block_fstypes (max : Z) : M W (list bytes) :=
  fd ← lkl_sys_open (bs "/proc/filesystems") LKL_O_RDONLY;
  if fd <? 0 then mret []
  else
    r ← lkl_sys_read fd 8191;
    _ ← lkl_sys_close fd;
    if r.1 <=? 0 then mret []
    else mopt (fstypes_loop (S (length r.2)) (Some (c_str r.2)) max []).

Definition set_bdev_ro (dev_str : bytes) (rdonly : bool) : M W Z :=
  fd ← lkl_sys_open dev_str LKL_O_RDONLY;
  if fd <? 0 then mret fd
  else
    ret ← lkl_sys_blkroset fd (if rdonly then 1 else 0);
    _ ← lkl_sys_close fd;
    mret (i32 ret).

Definition opts_arg (opts : bytes) : option bytes := if len opts =? 0 then None else Some opts.

(** The blind probe loop: the first filesystem type that mounts. *)
Fixpoint try_fstypes (dev_str mnt : bytes) (flags mount_flags : Z) (fstypes : list bytes) :
    M W (option AnyfsMount) :=
  match fstypes with
  | [] => mret None
  | fs :: rest =>
      if streq fs (bs "apfs") || streq fs (bs "btrfs")
      then try_fstypes dev_str mnt flags mount_flags rest
      else
        let '(rc, opts) := anyfs_mount_opts (Some fs) (flag flags ANYFS_MOUNT_RDONLY)
                             (fat_codepage flags) true MOUNT_DATA_SIZE in
        if rc <? 0 then try_fstypes dev_str mnt flags mount_flags rest
        else
          ret ← lkl_sys_mount dev_str mnt fs mount_flags (opts_arg opts);
          if ret =? 0 then mret (Some (mk_mount (strncpy 64 mnt) (strncpy 32 fs)))
          else try_fstypes dev_str mnt flags mount_flags rest
  end.

(** The auto-detection half: make sure /proc is there and probe blindly. *)
Definition mount_auto (dev_str mnt : bytes) (flags mount_flags : Z) : M W (Z * option AnyfsMount) :=
  a ← lkl_sys_access (bs "/proc/filesystems");
  _ ← (if a <? 0 then
         _ ← lkl_sys_mkdir (bs "/proc") 0x16d;
         lkl_sys_mount (bs "proc") (bs "/proc") (bs "proc") 0 None
       else mret 0);
  fstypes ← get_block_fstypes MAX_FSTYPES;
  r ← try_fstypes dev_str mnt flags mount_flags fstypes;
  match r with
  | Some m => mret (0, Some m)
  | None => _ ← lkl_sys_rmdir mnt; mret (-1, None)
  end.

(** The value returned and what is stored in [*out]. *)
Definition mount_via_devpath (dev_str : bytes) (fstype : option bytes) (name : bytes) (flags : Z) :
    M W (Z * option AnyfsMount) :=
  let rdonly := flag flags ANYFS_MOUNT_RDONLY in
  ret ← set_bdev_ro dev_str rdonly;
  if ret <? 0 then mret (ret, None)
  else
    _ ← lkl_sys_mkdir (bs "/lklmnt") 0x1ed;
    let mnt := mnt_path name in
    _ ← lkl_sys_mkdir mnt 0x1ed;
    let mount_flags := if rdonly then LKL_MS_RDONLY else 0 in
    match fstype with
    | None => mount_auto dev_str mnt flags mount_flags
    | Some fs =>
        if streq fs (bs "auto") then mount_auto dev_str mnt flags mount_flags
        else
          let '(rc, opts) := anyfs_mount_opts (Some fs) rdonly (fat_codepage flags) true MOUNT_DATA_SIZE in
          if rc <? 0 then _ ← lkl_sys_rmdir mnt; mret (-1, None)
          else
            ret ← lkl_sys_mount dev_str mnt fs mount_flags (opts_arg opts);
            if ret <? 0 then _ ← lkl_sys_rmdir mnt; mret (ret, None)
            else mret (0, Some (mk_mount (strncpy 64 mnt) (strncpy 32 fs)))
    end.

Definition anyfs_mount (disk_id part : Z) (fstype : option bytes) (name : option bytes) (flags : Z) :
    M W (Z * option AnyfsMount) :=
  match name with
  | None => mret (-1, None)
  | Some name =>
      v ← lkl_get_virtio_blkdev disk_id part;
      let '(ret, dev) := v in
      if ret <? 0 then mret (ret, None)
      else
        let dev_str := (snprintf 32 (bs "/dev/" ++ fmt_x 8 dev)).2 in
        a ← lkl_sys_access (bs "/dev");
        _ ← (if a <? 0 then lkl_sys_mkdir (bs "/dev") 0x1c0 else mret 0);
        _ ← lkl_sys_mknod dev_str (Z.lor LKL_S_IFBLK 0x180) dev;
        r ← mount_via_devpath dev_str fstype name flags;
        _ ← (if r.1 <? 0 then lkl_sys_unlink dev_str else mret 0);
        mret r
  end.

Definition anyfs_mount_blkdev (dev_path : option bytes) (fstype : option bytes) (name : option bytes) (flags : Z) :
    M W (Z * option AnyfsMount) :=
  match dev_path, name with
  | Some dev_path, Some name => mount_via_devpath dev_path fstype name flags
  | _, _ => mret (-1, None)
  end.

Definition anyfs_umount (name : option bytes) : M W Z :=
  match name with
  | None => mret (-1)
  | Some name =>
      let mnt := mnt_path name in
      _ ← lkl_sys_sync;
      ret ← lkl_sys_umount mnt;
      if ret <? 0 then mret ret
      else _ ← lkl_sys_rmdir mnt; mret 0
  end.
End Mount.

(** ** Lemmas *)

Lemma fat_codepage_range flags : 0 <= fat_codepage flags < 2 ^ 32.
Proof.
  unfold fat_codepage. case_if; [|lia]. zify_bools.
  destruct ([0; 936; 950; 932; 949] !! _) as [c|] eqn:El; [|simpl; lia]. simpl.
  assert (Forall (λ c, 0 <= c < 2 ^ 32) [0; 936; 950; 932; 949]) as H by (repeat constructor; lia).
  by eapply Forall_lookup_1 in El; [|exact H].
Qed.

Lemma opts_page fs ro flags :
  anyfs_mount_opts (Some fs) ro (fat_codepage flags) true MOUNT_DATA_SIZE
  = (0, join_commas (options fs ro (fat_codepage flags))).
Proof. apply opts_fit; [apply fat_codepage_range|done]. Qed.

Lemma fstypes_total fuel line max out :
  (from_option length O line < fuel)%nat → ∃ r, fstypes_loop fuel line max out = Some r.
Proof.
  revert line out. induction fuel as [|f IH]; intros line out Hf; [lia|].
  destruct line as [[|c l]|]; [by eexists| |by eexists]. cbn [fstypes_loop].
  destruct (max <=? len out); [by eexists|].
  destruct (strchr 10 (c :: l)) as [[a b]|] eqn:E.
  - apply strchr_Some in E as [E _]. apply (f_equal length) in E. rewrite length_app in E.
    destruct (_ && _ && _); apply IH; simpl in *; lia.
  - destruct (_ && _ && _); apply IH; simpl in *; lia.
Qed.

(** What no call here changes: descriptors and disks. *)
Definition kept (v : KView) := (v_fds v, v_dsk v).

(** What a mount call leaves behind.  [m0] is the mount table of the start,
    with /proc added when the kernel did not have it yet. *)
Definition proc_mount : MountInfo := mk_mi (bs "proc") (bs "proc") false None.

Definition with_proc (m m0 : gmap bytes MountInfo) : Prop :=
  m0 = m ∨ m0 = <[bs "/proc" := proc_mount]> m.

Definition mount_rec (dev fs : bytes) (flags : Z) : MountInfo :=
  let ro := flag flags ANYFS_MOUNT_RDONLY in
  mk_mi dev fs ro (opts_arg (join_commas (options fs ro (fat_codepage flags)))).

(** The type used: the one asked for, or when probing blindly any but the two
    that hold the device after a failed mount. *)
Definition fs_allowed (fsty : option bytes) (fs : bytes) : Prop :=
  match fsty with
  | Some t => if streq t (bs "auto") then fs ≠ bs "apfs" ∧ fs ≠ bs "btrfs" else fs = t
  | None => fs ≠ bs "apfs" ∧ fs ≠ bs "btrfs"
  end.

Definition mount_post {W} `{!Lkl W, !LklLaws W} (w : W) (dev : bytes) (fsty : option bytes)
    (mnt : bytes) (flags : Z) (r : Z * option AnyfsMount) (w' : W) : Prop :=
  kept (view w') = kept (view w) ∧
  ∃ m0, with_proc (v_mnt (view w)) m0 ∧
    match r.2 with
    | Some m => r.1 = 0 ∧ mount_point m = strncpy 64 mnt ∧
        v_bro (view w') !! dev = Some (flag flags ANYFS_MOUNT_RDONLY) ∧
        ∃ fs, fs_allowed fsty fs ∧ fstype m = strncpy 32 fs ∧
              v_mnt (view w') = <[mnt := mount_rec dev fs flags]> m0
    | None => r.1 < 0 ∧ v_mnt (view w') = m0
    end.

Section Spec.
Context {W : Type} `{!Lkl W, !LklLaws W}.
Implicit Types (w : W).

Lemma wp_get_block_fstypes max w : wp (get_block_fstypes max) (λ _ w', view w' = view w) w.
Proof.
  unfold get_block_fstypes. apply wp_bind, wp_open; intros fd w1 Hfd.
  - intros Hv. destruct (Z.ltb_spec fd 0); [|lia]. by apply wp_ret.
  - intros Hn Hv. destruct (Z.ltb_spec fd 0); [lia|]. apply wp_bind, wp_read. intros r d w2 Hv2 _ _.
    apply wp_bind, wp_close. intros _ w3 Hv3. cbn [fst snd].
    assert (view w3 = view w) as Hv'.
    { rewrite Hv3, Hv2, Hv. cbn. rewrite delete_insert_id by done. by destruct (view w). }
    destruct (r <=? 0); [by apply wp_ret|].
    destruct (fstypes_total (S (length d)) (Some (c_str d)) max []) as [l El];
      [cbn; pose proof (c_str_le d); lia|]. by eapply wp_opt.
Qed.

Lemma wp_set_bdev_ro dev ro w :
  wp (set_bdev_ro dev ro) (λ r w', kept (view w') = kept (view w) ∧ v_mnt (view w') = v_mnt (view w) ∧
    (- 4096 < r < 0 ∨ (r = 0 ∧ v_bro (view w') !! dev = Some ro))) w.
Proof.
  unfold set_bdev_ro. apply wp_bind, wp_open; intros fd w1 Hfd.
  - intros Hv. destruct (Z.ltb_spec fd 0); [|lia]. apply wp_ret. rewrite Hv. auto.
  - intros Hn Hv. destruct (Z.ltb_spec fd 0); [lia|]. apply wp_bind.
    eapply wp_blkroset; [rewrite Hv; cbn; apply lookup_insert_eq|..].
    + intros r w2 Hr Hv2. apply wp_bind, wp_close. intros _ w3 Hv3. apply wp_ret.
      rewrite Hv3, Hv2, Hv. cbn. rewrite delete_insert_id, i32_small by (done || lia). auto.
    + intros w2 Hv2. apply wp_bind, wp_close. intros _ w3 Hv3. apply wp_ret.
      rewrite Hv3, Hv2, Hv. cbn. rewrite delete_insert_id by done. split_and!; [done..|]. right.
      split; [done|]. rewrite lookup_insert_eq. by destruct ro.
Qed.

Lemma flag_ro ro : flag (if ro : bool then LKL_MS_RDONLY else 0) LKL_MS_RDONLY = ro.
Proof. by destruct ro. Qed.

Lemma wp_try_fstypes dev mnt flags l w :
  wp (try_fstypes dev mnt flags (if flag flags ANYFS_MOUNT_RDONLY then LKL_MS_RDONLY else 0) l)
    (λ r w', match r with
             | Some m => mount_point m = strncpy 64 mnt ∧
                 ∃ fs, fs ≠ bs "apfs" ∧ fs ≠ bs "btrfs" ∧ fstype m = strncpy 32 fs ∧
                   view w' = mk_view (v_fds (view w)) (<[mnt := mount_rec dev fs flags]> (v_mnt (view w)))
                               (v_bro (view w)) (v_dsk (view w))
             | None => view w' = view w
             end) w.
Proof.
  revert w. induction l as [|fs l IH]; intros w; [done|]. cbn [try_fstypes].
  destruct (streq fs (bs "apfs") || streq fs (bs "btrfs")) eqn:E; [apply IH|].
  rewrite opts_page. change (0 <? 0) with false. cbn iota. apply wp_bind, wp_mount.
  - intros r w1 Hr Hv. destruct (Z.eqb_spec r 0); [lia|]. eapply wp_mono; [apply IH|].
    intros [m|] w2; rewrite Hv; done.
  - intros w1 Hv. apply wp_ret. split; [done|]. exists fs. zify_bools.
    split_and!; [by intros ->..|done|]. rewrite Hv, flag_ro. done.
Qed.
Lemma wp_mount_auto dev fsty mnt flags w w3 :
  kept (view w3) = kept (view w) → v_mnt (view w3) = v_mnt (view w) →
  v_bro (view w3) !! dev = Some (flag flags ANYFS_MOUNT_RDONLY) →
  fs_allowed fsty = (λ fs, fs ≠ bs "apfs" ∧ fs ≠ bs "btrfs") →
  wp (mount_auto dev mnt flags (if flag flags ANYFS_MOUNT_RDONLY then LKL_MS_RDONLY else 0))
    (mount_post w dev fsty mnt flags) w3.
Proof.
  intros Hf Hm Hb Hfs. unfold mount_auto. apply wp_bind, wp_access. intros a w4 Hv4. apply wp_bind.
  apply (wp_mono _ (λ _ w5, kept (view w5) = kept (view w3) ∧ v_bro (view w5) = v_bro (view w3) ∧
    with_proc (v_mnt (view w)) (v_mnt (view w5)))).
  { destruct (a <? 0); [|apply wp_ret; rewrite Hv4, Hm; split_and!; [done..|by left]].
    apply wp_bind, wp_mkdir. intros _ w5 Hv5. apply wp_mount.
    - intros r w6 _ Hv6. rewrite Hv6, Hv5, Hv4, Hm. split_and!; [done..|by left].
    - intros w6 Hv6. rewrite Hv6, Hv5, Hv4, Hm. split_and!; [done..|by right]. }
  intros _ w5 (Hf5 & Hb5 & Hp5). apply wp_bind. eapply wp_mono; [apply wp_get_block_fstypes|].
  intros l w6 Hv6. apply wp_bind. eapply wp_mono; [apply wp_try_fstypes|]. intros [m|] w7.
  - intros (Hmp & fs & Hn1 & Hn2 & Hfm & Hv7). apply wp_ret. split; [rewrite Hv7, Hv6; unfold kept in *; cbn; congruence|].
    exists (v_mnt (view w5)). split; [done|]. cbn [fst snd].
    rewrite Hv7, Hv6. cbn. split_and!; [done|done|congruence|]. exists fs. rewrite Hfs. done.
  - intros Hv7. apply wp_bind, wp_rmdir. intros _ w8 Hv8. apply wp_ret.
    split; [rewrite Hv8, Hv7, Hv6; congruence|]. exists (v_mnt (view w5)). cbn [fst snd].
    rewrite Hv8, Hv7, Hv6. split_and!; [done|lia|done].
Qed.

Lemma wp_mount_via_devpath dev fsty name flags w :
  wp (mount_via_devpath dev fsty name flags) (mount_post w dev fsty (mnt_path name) flags) w.
Proof.
  unfold mount_via_devpath. apply wp_bind. eapply wp_mono; [apply wp_set_bdev_ro|].
  intros ret w1 (Hf1 & Hm1 & H1). destruct (Z.ltb_spec ret 0).
  { apply wp_ret. split; [done|]. exists (v_mnt (view w)). split; [by left|]. cbn. done. }
  destruct H1 as [?|[_ Hro]]; [lia|].
  apply wp_bind, wp_mkdir. intros _ w2 Hv2. apply wp_bind, wp_mkdir. intros _ w3 Hv3.
  assert (Hv : view w3 = view w1) by congruence. clear w2 Hv2 Hv3.
  destruct fsty as [fs|]; [|apply wp_mount_auto; congruence || done].
  destruct (streq fs (bs "auto")) eqn:Efs.
  { apply wp_mount_auto; [congruence..|]. unfold fs_allowed. by rewrite Efs. }
  rewrite opts_page. change (0 <? 0) with false. cbn iota. apply wp_bind, wp_mount.
  - intros r w4 Hr Hv4. destruct (Z.ltb_spec r 0); [|lia]. apply wp_bind, wp_rmdir. intros _ w5 Hv5. apply wp_ret.
    split; [rewrite Hv5, Hv4; congruence|]. exists (v_mnt (view w)). split; [by left|]. cbn [fst snd].
    rewrite Hv5, Hv4, Hv. split; [lia|done].
  - intros w4 Hv4. apply wp_ret. split; [rewrite Hv4; unfold kept in *; cbn; congruence|].
    exists (v_mnt (view w)). split; [by left|]. cbn [fst snd]. rewrite Hv4, Hv, flag_ro.
    cbn [v_fds v_mnt v_bro mount_point fstype].
    split_and!; [done..|]. exists fs. unfold fs_allowed. rewrite Efs, Hm1. done.
Qed.

Lemma wp_umount_name name w :
  wp (anyfs_umount (Some name)) (λ r w',
    kept (view w') = kept (view w) ∧ v_bro (view w') = v_bro (view w) ∧
    ((r = 0 ∧ v_mnt (view w') = delete (mnt_path name) (v_mnt (view w))) ∨
     (r < 0 ∧ v_mnt (view w') = v_mnt (view w)))) w.
Proof.
  unfold anyfs_umount. apply wp_bind, wp_sync. intros _ w1 Hv1. apply wp_bind, wp_umount.
  - intros r w2 Hr Hv2. destruct (Z.ltb_spec r 0); [|lia]. apply wp_ret. rewrite Hv2, Hv1.
    split_and!; [done..|]. right. split; [lia|done].
  - intros w2 Hv2. change (0 <? 0) with false. cbn iota. apply wp_bind, wp_rmdir. intros _ w3 Hv3. apply wp_ret.
    rewrite Hv3, Hv2, Hv1. auto.
Qed.
End Spec.

(** The node a top-level partition is mounted through. *)
Definition dev_node (dev : Z) : bytes := (snprintf 32 (bs "/dev/" ++ fmt_x 8 dev)).2.

Section Spec2.
Context {W : Type} `{!Lkl W, !LklLaws W}.
Implicit Types (w : W).

Lemma wp_anyfs_mount disk part fsty name flags w :
  wp (anyfs_mount disk part fsty (Some name) flags)
    (λ r w', ∃ dev, mount_post w (dev_node dev) fsty (mnt_path name) flags r w') w.
Proof.
  unfold anyfs_mount. apply wp_bind, wp_virtio. intros [ret dev] w1 Hv1. cbn [fst snd].
  destruct (Z.ltb_spec ret 0).
  { apply wp_ret. exists dev. split; [by rewrite Hv1|]. exists (v_mnt (view w)). split; [by left|].
    cbn. by rewrite Hv1. }
  apply wp_bind, wp_access. intros a w2 Hv2. apply wp_bind.
  apply (wp_mono _ (λ _ w3, view w3 = view w)).
  { destruct (a <? 0); [apply wp_mkdir; intros ? ? Hv3|apply wp_ret]; congruence. }
  intros _ w3 Hv3. apply wp_bind, wp_mknod. intros _ w4 Hv4. apply wp_bind.
  eapply wp_mono; [apply wp_mount_via_devpath|]. intros r w5 H5.
  assert (Hv : view w4 = view w) by congruence. unfold mount_post in H5. rewrite Hv in H5.
  apply wp_bind. apply (wp_mono _ (λ _ w6, view w6 = view w5)).
  { destruct (r.1 <? 0); [apply wp_unlink; intros ? ? Hv6|apply wp_ret]; done. }
  intros _ w6 Hv6. apply wp_ret. exists dev. unfold mount_post. by rewrite Hv6.
Qed.
End Spec2.

(** ** Properties *)

(** C4 Mounting a device: the call always returns. On success exactly one entry
    is added to the mount table, at /lklmnt/<name>, from that device, read-only
    exactly when asked, with exactly the options of its filesystem, and the
    device itself is flagged to match; a type that was given is the one used,
    and a blind probe never uses apfs or btrfs. On failure nothing is added for
    the device and the caller's struct is untouched. In both cases /proc, which
    the blind probe mounts to read the list of filesystems and leaves there, may
    be in the table besides; every other entry is as before. No descriptor stays
    open either way. *)
Theorem mount_devpath_correct {W} `{!Lkl W, !LklLaws W} dev fsty name flags (w : W) :
  wp (mount_via_devpath dev fsty name flags) (mount_post w dev fsty (mnt_path name) flags) w.
Proof. apply wp_mount_via_devpath. Qed.

(** A kernel with an ext4 device and two filesystem types. *)
Definition toy_mnt : Toy.toy :=
  Toy.mk_toy 3 Toy.empty_view
    {[ bs "/dev/vda1" := []; bs "/proc/filesystems" := bs "nodev" ++ [9] ++ bs "proc" ++ [10; 9] ++ bs "vfat" ++ [10; 9] ++ bs "ext4" ++ [10] ]}
    ∅ {[ bs "/dev/vda1" := bs "ext4" ]} 0 Toy.empty_hview ∅.

Lemma mount_devpath_correct_witness :
  wp (mount_via_devpath (bs "/dev/vda1") None (bs "x") 1)
    (mount_post toy_mnt (bs "/dev/vda1") None (bs "/lklmnt/x") 1) toy_mnt ∧
  (λ r, (r.1, Toy.t_view r.2)) <$> mount_via_devpath (bs "/dev/vda1") None (bs "x") 1 toy_mnt =
    Some ((0, Some (mk_mount (bs "/lklmnt/x") (bs "ext4"))),
          mk_view ∅ {[ bs "/lklmnt/x" := mk_mi (bs "/dev/vda1") (bs "ext4") true (Some (bs "noload,errors=continue")) ]}
            {[ bs "/dev/vda1" := true ]} ∅).
Proof.
  split; [exact (mount_devpath_correct (bs "/dev/vda1") None (bs "x") 1 toy_mnt) | vm_compute; reflexivity].
Defined.

(** Unmounting: it removes exactly the entry of that name, or fails and
    changes nothing. *)
Theorem umount_correct {W} `{!Lkl W, !LklLaws W} name (w : W) :
  wp (anyfs_umount (Some name)) (λ r w',
    kept (view w') = kept (view w) ∧
    ((r = 0 ∧ v_mnt (view w') = delete (mnt_path name) (v_mnt (view w))) ∨
     (r < 0 ∧ v_mnt (view w') = v_mnt (view w)))) w.
Proof. eapply wp_mono; [apply wp_umount_name|]. by intros r w' (? & _ & ?). Qed.

Lemma umount_correct_witness :
  wp (anyfs_umount (Some (bs "x"))) (λ r w',
    kept (view w') = kept (view toy_mnt) ∧
    ((r = 0 ∧ v_mnt (view w') = delete (mnt_path (bs "x")) (v_mnt (view toy_mnt))) ∨
     (r < 0 ∧ v_mnt (view w') = v_mnt (view toy_mnt)))) toy_mnt.
Proof. exact (umount_correct (bs "x") toy_mnt). Defined.

(** The codepage field agrees on both ends: the flag the command line
    builds from an encoding selects, in the mount code, the OEM codepage of
    that encoding (none for "off" and windows-1252, or for a value that is not
    an encoding), whatever the other mount flags are. *)
Theorem fat_cp_agrees enc other : 0 <= other < 256 →
  fat_codepage (Z.lor (Legacy.anyfs_legacy_fat_flag enc) other) =
    default 0 ([0; 936; 950; 932; 949; 0] !! Z.to_nat enc) ∨ enc < 0.
Proof.
  intros Ho. destruct (Z.ltb_spec enc 0) as [|He]; [by right|]. left.
  assert (∀ k, k ∈ [0; 1; 2; 3; 4; 5] → ∀ o, 0 <= o < 256 →
    fat_codepage (Z.lor (Legacy.anyfs_legacy_fat_flag k) o) = default 0 ([0; 936; 950; 932; 949; 0] !! Z.to_nat k)) as H.
  { intros k Hk o Ho'. rewrite !elem_of_cons, elem_of_nil in Hk.
    destruct Hk as [->|[->|[->|[->|[->|[->|[]]]]]]]; by_bytes o. }
  destruct (Z.leb_spec 6 enc).
  - replace (Legacy.anyfs_legacy_fat_flag enc) with (Legacy.anyfs_legacy_fat_flag 0).
    2:{ unfold Legacy.anyfs_legacy_fat_flag at 2. destruct (Z.ltb_spec enc 0); [lia|].
        change Legacy.N_ENCODINGS with 6. by destruct (Z.leb_spec 6 enc); [|lia]. }
    rewrite (H 0) by (done || by left). rewrite (lookup_ge_None_2 _ (Z.to_nat enc)) by (simpl; lia). done.
  - apply H; [|done]. rewrite !elem_of_cons. lia.
Qed.

Lemma fat_cp_agrees_witness :
  fat_codepage (Z.lor (Legacy.anyfs_legacy_fat_flag 3) 1) = 932 ∨ 3 < 0.
Proof. apply (fat_cp_agrees 3 1). lia. Defined.

End Mount.
