(* ===== verification/Dm.v ===== *)
(** * Dm

    src/core/anyfs_dm.c: device-mapper set-up and removal through the control
    node.  The ioctl argument is the header with the one target it carries;
    the sizes it declares are computed as the code computes them. *)
From S2P Require Import Prelude CLib Lkl.
Import CLib.

Module Dm.

Definition DM_NAME_LEN : Z := 128.
Definition DM_MAX_TYPE_NAME : Z := 16.
(** sizeof(struct dm_ioctl_local), sizeof(struct dm_target_spec_local) *)
Definition sizeof_dm_ioctl : Z := 312.
Definition sizeof_dm_target_spec : Z := 40.

Definition DM_VERSION_CMD : Z := 0.
Definition DM_DEV_CREATE_CMD : Z := 3.
Definition DM_DEV_REMOVE_CMD : Z := 4.
Definition DM_DEV_SUSPEND_CMD : Z := 6.
Definition DM_TABLE_LOAD_CMD : Z := 9.
Definition DM_TABLE_CLEAR_CMD : Z := 10.
Definition DM_SUSPEND_FLAG : Z := 2.
Definition DM_SECURE_DATA_FLAG : Z := 0x8000.
Definition ANYFS_MISC_MAJOR : Z := 10.
Definition ANYFS_DM_CONTROL_MINOR : Z := 236.

Definition ctl : bytes := bs "/dev/mapper/control".

Definition dm_fill_header (name : option bytes) (data_size target_count : Z) : dm_arg :=
  mk_dm (4, 0, 0) data_size sizeof_dm_ioctl target_count 0 0
    (match name with Some n => strncpy DM_NAME_LEN n | None => [] end) None.

Definition set_flags (h : dm_arg) (f : Z) : dm_arg :=
  mk_dm (dm_version h) (dm_data_size h) (dm_data_start h) (dm_target_count h) f (dm_dev h) (dm_name h) (dm_tgt h).
Definition set_target (h : dm_arg) (t : dm_target) : dm_arg :=
  mk_dm (dm_version h) (dm_data_size h) (dm_data_start h) (dm_target_count h) (dm_flags h) (dm_dev h) (dm_name h) (Some t).

(** dev_t of major:minor as the device node encodes it. *)
Definition mkdev (major minor : Z) : Z :=
  Z.lor (Z.lor (Z.shiftl (Z.land major 0xfff) 8) (Z.land minor 0xff))
    (u32 (Z.shiftl (Z.land minor 0xffffff00) 12)).

(** The request that loads one target: parameters with their NUL, padded to a
    multiple of 8. *)
Definition load_request (name target_type : bytes) (length_sectors : Z) (params : bytes) (secure : bool) : dm_arg :=
  let params_len := len params + 1 in
  let pad := (8 - (sizeof_dm_ioctl + sizeof_dm_target_spec + params_len) mod 8) mod 8 in
  let total := sizeof_dm_ioctl + sizeof_dm_target_spec + params_len + pad in
  let h := dm_fill_header (Some name) (u32 total) 1 in
  let h := if secure then set_flags h (Z.lor (dm_flags h) DM_SECURE_DATA_FLAG) else h in
  set_target h (mk_target 0 length_sectors (u32 (sizeof_dm_target_spec + params_len + pad))
                  (strncpy DM_MAX_TYPE_NAME target_type) params).

(** The hex digits of a key. *)
Definition hex_key (key : bytes) : bytes := mjoin ((λ k, [hexdig (Z.land (Z.shiftr k 4) 0xf); hexdig (Z.land k 0xf)]) <$> key).

Section Dm.
Context {W : Type} `{!Lkl W}.
(** calloc and malloc succeed *)
Variable alloc_ok : bool.

Definition ensure_dev_dir : M W Z :=
  a ← lkl_sys_access (bs "/dev");
  _ ← (if a <? 0 then lkl_sys_mkdir (bs "/dev") 0x1c0 else mret 0);
  b ← lkl_sys_access (bs "/dev/mapper");
  _ ← (if b <? 0 then lkl_sys_mkdir (bs "/dev/mapper") 0x1ed else mret 0);
  mret 0.

Definition dm_open_control : M W Z :=
  _ ← ensure_dev_dir;
  a ← lkl_sys_access ctl;
  r ← (if a <? 0 then
         lkl_sys_mknod ctl (Z.lor LKL_S_IFCHR 0x180)
           (Z.lor (Z.shiftl (Z.land ANYFS_MISC_MAJOR 0xfff) 8) (Z.land ANYFS_DM_CONTROL_MINOR 0xff))
       else mret 0);
  if (r <? 0) && negb (r =? - LKL_EEXIST) then mret r
  else lkl_sys_open ctl LKL_O_RDWR.

Definition dm_ioctl (fd cmd : Z) (arg : dm_arg) : M W (Z * dm_arg) :=
  r ← lkl_sys_dm_ioctl fd cmd arg;
  mret (i32 r.1, r.2).

Definition dm_version_check (fd : Z) : M W Z :=
  r ← dm_ioctl fd DM_VERSION_CMD (dm_fill_header None sizeof_dm_ioctl 0);
  if r.1 <? 0 then mret r.1
  else if negb ((dm_version r.2).1.1 =? 4) then mret (-1) else mret 0.

(** The value returned and the path stored in [out_blkdev]. *)
Definition dm_publish_dev_node (name : bytes) (dev : Z) : M W (Z * bytes) :=
  let path := (snprintf 80 (bs "/dev/mapper/" ++ name)).2 in
  let major := Z.land (Z.shiftr dev 8) 0xfff in
  let minor := u32 (Z.lor (Z.land dev 0xff) (Z.land (Z.shiftr dev 12) 0xfff00)) in
  let udev := mkdev major minor in
  _ ← lkl_sys_unlink path;
  r ← lkl_sys_mknod path (Z.lor LKL_S_IFBLK 0x180) udev;
  if r <? 0 then mret (r, []) else mret (0, strncpy 64 path).

(** The [out_remove] exit: tear the half-built device down, close. *)
Definition out_remove (fd : Z) (name : bytes) (rc : Z) : M W (Z * bytes) :=
  _ ← dm_ioctl fd DM_DEV_REMOVE_CMD (dm_fill_header (Some name) sizeof_dm_ioctl 0);
  _ ← lkl_sys_close fd;
  mret (rc, []).

Definition dm_setup_one_target (name target_type : bytes) (length_sectors : Z) (params : bytes) (secure : bool) :
    M W (Z * bytes) :=
  fd ← dm_open_control;
  if fd <? 0 then mret (fd, [])
  else
    rc ← dm_version_check fd;
    if rc <? 0 then _ ← lkl_sys_close fd; mret (rc, [])
    else
      c ← dm_ioctl fd DM_DEV_CREATE_CMD (dm_fill_header (Some name) sizeof_dm_ioctl 0);
      if c.1 <? 0 then _ ← lkl_sys_close fd; mret (c.1, [])
      else
        let dev := dm_dev c.2 in
        if negb alloc_ok then out_remove fd name (- LKL_ENOMEM)
        else
          l ← dm_ioctl fd DM_TABLE_LOAD_CMD (load_request name target_type length_sectors params secure);
          if l.1 <? 0 then out_remove fd name l.1
          else
            s ← dm_ioctl fd DM_DEV_SUSPEND_CMD (dm_fill_header (Some name) sizeof_dm_ioctl 0);
            if s.1 <? 0 then out_remove fd name s.1
            else
              p ← dm_publish_dev_node name dev;
              if p.1 <? 0 then out_remove fd name p.1
              else _ ← lkl_sys_close fd; mret (0, p.2).

Definition anyfs_dm_linear (parent_blkdev : bytes) (offset_sectors length_sectors : Z) (name : bytes) :
    M W (Z * bytes) :=
  if length_sectors =? 0 then mret (- LKL_EINVAL, [])
  else
    let '(n, params) := snprintf 256 (parent_blkdev ++ bs " " ++ fmt_u offset_sectors) in
    if 256 <=? n then mret (- LKL_EINVAL, [])
    else dm_setup_one_target name (bs "linear") length_sectors params false.

Definition anyfs_dm_crypt (parent_blkdev : bytes) (offset_sectors length_sectors iv_offset : Z)
    (cipher key name : bytes) : M W (Z * bytes) :=
  if (len key =? 0) || (length_sectors =? 0) then mret (- LKL_EINVAL, [])
  else
    let cap := 256 + 2 * len key in
    if negb alloc_ok then mret (- LKL_ENOMEM, [])
    else
      let head := cipher ++ bs " " ++ hex_key key ++ bs " " in
      (* a header longer than the buffer is written past its end *)
      if cap <=? len head then mstuck
      else
        let tail := fmt_u iv_offset ++ bs " " ++ parent_blkdev ++ bs " " ++ fmt_u offset_sectors in
        dm_setup_one_target name (bs "crypt") length_sectors (head ++ (snprintf (cap - len head) tail).2) true.

Definition anyfs_dm_remove (name : option bytes) : M W Z :=
  match name with
  | None => mret (- LKL_EINVAL)
  | Some name =>
      fd ← dm_open_control;
      if fd <? 0 then mret fd
      else
        rc ← dm_version_check fd;
        if rc <? 0 then _ ← lkl_sys_close fd; mret rc
        else
          let h := dm_fill_header (Some name) sizeof_dm_ioctl 0 in
          _ ← dm_ioctl fd DM_DEV_SUSPEND_CMD (set_flags h DM_SUSPEND_FLAG);
          _ ← dm_ioctl fd DM_TABLE_CLEAR_CMD h;
          r ← dm_ioctl fd DM_DEV_REMOVE_CMD h;
          _ ← lkl_sys_unlink (snprintf 80 (bs "/dev/mapper/" ++ name)).2;
          _ ← lkl_sys_close fd;
          mret (if r.1 =? - LKL_ENXIO then 0 else r.1)
  end.

Definition anyfs_dm_rescan_partitions (blkdev_path : option bytes) : M W Z :=
  match blkdev_path with
  | None => mret (- LKL_EINVAL)
  | Some p =>
      fd ← lkl_sys_open p LKL_O_RDONLY;
      if fd <? 0 then mret fd
      else
        r ← lkl_sys_blkrrpart fd;
        _ ← lkl_sys_close fd;
        mret (i32 r)
  end.
End Dm.

(** ** Lemmas *)

Section Spec.
Context {W : Type} `{!Lkl W, !LklLaws W}.
Implicit Types (w : W).

Lemma wp_dm_ioctl' fd cmd arg w : wp (dm_ioctl fd cmd arg) (λ _ w', view w' = view w) w.
Proof. unfold dm_ioctl. by wp_auto. Qed.

Lemma wp_version fd w : wp (dm_version_check fd) (λ _ w', view w' = view w) w.
Proof.
  unfold dm_version_check. apply wp_bind. wp_use wp_dm_ioctl'. intros r w1 H1.
  destruct (r.1 <? 0); [done|]. by destruct (negb _).
Qed.

(** The control node: a fresh descriptor or an error. *)
Definition opened w fd (w' : W) : Prop :=
  (fd < 0 ∧ view w' = view w) ∨
  (0 <= fd ∧ v_fds (view w) !! fd = None ∧
   view w' = mk_view (<[fd := ctl]> (v_fds (view w))) (v_mnt (view w)) (v_bro (view w)) (v_dsk (view w))).

Lemma wp_if_mkdir (c : bool) p m w : wp (if c then lkl_sys_mkdir p m else mret 0) (λ _ w', view w' = view w) w.
Proof. destruct c; by wp_auto. Qed.

Lemma wp_open_control w : wp dm_open_control (opened w) w.
Proof.
  unfold dm_open_control, ensure_dev_dir. apply wp_bind, wp_bind. wp_lkl. apply wp_bind.
  wp_use wp_if_mkdir. intros _ w2 H2. apply wp_bind. wp_lkl. apply wp_bind.
  wp_use wp_if_mkdir. intros _ w3 H3. apply wp_ret, wp_bind. wp_lkl.
  apply wp_bind. apply (wp_mono _ (λ _ w5, view w5 = view w)).
  { destruct (_ <? 0); wp_auto; congruence. }
  intros r5 w5 H5. destruct (_ && _) eqn:E.
  { apply wp_ret. left. zify_bools. split; [lia|done]. }
  apply wp_open; intros fd w6 Hfd; rewrite H5; [left|right]; split; done || lia.
Qed.

Lemma wp_close_opened fd w w1 (Q : Z → W → Prop) : 0 <= fd → opened w fd w1 →
  (∀ r w', view w' = view w → Q r w') → ∀ w2, view w2 = view w1 → wp (lkl_sys_close fd) Q w2.
Proof.
  intros Hfd [[? _]|(_ & Hn & Hv)] HQ w2 Hv2; [lia|]. apply wp_close. intros r w3 Hv3. apply HQ.
  rewrite Hv3, Hv2, Hv. cbn. rewrite delete_insert_id by done. by destruct (view w).
Qed.

Lemma wp_out_remove fd name rc w w1 w2 : 0 <= fd → opened w fd w1 → view w2 = view w1 →
  wp (out_remove fd name rc) (λ _ w', view w' = view w) w2.
Proof.
  intros Hfd Ho Hv. unfold out_remove. apply wp_bind. wp_use wp_dm_ioctl'. intros _ w3 H3.
  apply wp_bind. eapply wp_close_opened; [done|done| |congruence]. intros _ w4 H4. by apply wp_ret.
Qed.

Lemma wp_publish name dev w : wp (dm_publish_dev_node name dev) (λ _ w', view w' = view w) w.
Proof.
  unfold dm_publish_dev_node. apply wp_bind. wp_lkl. apply wp_bind. wp_lkl. destruct (_ <? 0); apply wp_ret; congruence.
Qed.

Lemma wp_setup_one alloc name ty n params sec w :
  wp (dm_setup_one_target alloc name ty n params sec) (λ _ w', view w' = view w) w.
Proof.
  unfold dm_setup_one_target. apply wp_bind. wp_use wp_open_control. intros fd w1 Ho.
  destruct (Z.ltb_spec fd 0) as [|Hfd]; [apply wp_ret; destruct Ho as [[_ ?]|[? _]]; [done|lia]|].
  apply wp_bind. wp_use wp_version. intros rc w2 H2. cbn in H2.
  destruct (rc <? 0); [apply wp_bind; eapply wp_close_opened; [done|done|by intros; apply wp_ret|congruence]|].
  apply wp_bind. wp_use wp_dm_ioctl'. intros c w3 H3. cbn in H3.
  destruct (c.1 <? 0); [apply wp_bind; eapply wp_close_opened; [done|done|by intros; apply wp_ret|congruence]|].
  destruct alloc; cbn [negb]; [|eapply wp_out_remove; [done|done|congruence]].
  apply wp_bind. wp_use wp_dm_ioctl'. intros l w4 H4. cbn in H4.
  destruct (l.1 <? 0); [eapply wp_out_remove; [done|done|congruence]|].
  apply wp_bind. wp_use wp_dm_ioctl'. intros s w5 H5. cbn in H5.
  destruct (s.1 <? 0); [eapply wp_out_remove; [done|done|congruence]|].
  apply wp_bind. wp_use wp_publish. intros p w6 H6. cbn in H6.
  destruct (p.1 <? 0); [eapply wp_out_remove; [done|done|congruence]|].
  apply wp_bind. eapply wp_close_opened; [done|done|by intros; apply wp_ret|congruence].
Qed.

Lemma wp_dm_remove name w : wp (anyfs_dm_remove name) (λ _ w', view w' = view w) w.
Proof.
  destruct name as [name|]; [|done]. unfold anyfs_dm_remove. apply wp_bind.
  wp_use wp_open_control. intros fd w1 Ho.
  destruct (Z.ltb_spec fd 0) as [|Hfd]; [apply wp_ret; destruct Ho as [[_ ?]|[? _]]; [done|lia]|].
  apply wp_bind. wp_use wp_version. intros rc w2 H2. cbn in H2.
  destruct (rc <? 0); [apply wp_bind; eapply wp_close_opened; [done|done|by intros; apply wp_ret|congruence]|].
  apply wp_bind. wp_use wp_dm_ioctl'. intros _ w3 H3. cbn in H3.
  apply wp_bind. wp_use wp_dm_ioctl'. intros _ w4 H4. cbn in H4.
  apply wp_bind. wp_use wp_dm_ioctl'. intros r w5 H5. cbn in H5.
  apply wp_bind. wp_lkl. apply wp_bind.
  eapply wp_close_opened; [done|done|by intros; apply wp_ret|congruence].
Qed.
End Spec.

(** ** Properties *)

(** Device-mapper calls: every operation returns on every error path with
    the control descriptor closed and the mount table untouched. *)
Theorem dm_clean {W} `{!Lkl W, !LklLaws W} alloc parent off n name (w : W) :
  wp (anyfs_dm_linear alloc parent off n name) (λ _ w', view w' = view w) w ∧
  wp (anyfs_dm_remove (Some name)) (λ _ w', view w' = view w) w ∧
  wp (anyfs_dm_rescan_partitions (Some parent)) (λ _ w', view w' = view w) w.
Proof.
  split_and!; [|apply wp_dm_remove|].
  - unfold anyfs_dm_linear. destruct (n =? 0); [done|]. destruct (snprintf _ _) as [k params].
    destruct (256 <=? k); [done|]. apply wp_setup_one.
  - unfold anyfs_dm_rescan_partitions. apply wp_bind, wp_open; intros fd w1 Hfd.
    + intros Hv. destruct (Z.ltb_spec fd 0); [done|lia].
    + intros Hn Hv. destruct (Z.ltb_spec fd 0); [lia|]. apply wp_bind. wp_lkl. apply wp_bind. wp_lkl. apply wp_ret.
      rewrite H1, H0, Hv. cbn. rewrite delete_insert_id by done. by destruct (view w).
Qed.

Definition toy_dm : Toy.toy := Toy.mk_toy 3 Toy.empty_view {[ ctl := [] ]} ∅ ∅ 0 Toy.empty_hview ∅.

Lemma dm_clean_witness :
  wp (anyfs_dm_linear true (bs "/dev/vda1") 2048 100 (bs "x")) (λ _ w', view w' = view toy_dm) toy_dm ∧
  wp (anyfs_dm_remove (Some (bs "x"))) (λ _ w', view w' = view toy_dm) toy_dm ∧
  wp (anyfs_dm_rescan_partitions (Some (bs "/dev/vda1"))) (λ _ w', view w' = view toy_dm) toy_dm.
Proof. exact (dm_clean true (bs "/dev/vda1") 2048 100 (bs "x") toy_dm). Defined.

(** The device number of a mapped device survives the split into major and
    minor and the re-encoding of the node it is published as, for every 32-bit
    dev_t. *)
Theorem dm_devt_roundtrip dev : 0 <= dev < 2 ^ 32 →
  mkdev (Z.land (Z.shiftr dev 8) 0xfff) (u32 (Z.lor (Z.land dev 0xff) (Z.land (Z.shiftr dev 12) 0xfff00))) = dev.
Proof.
  intros Hd. unfold mkdev, u32. apply Z.bits_inj'. intros i Hi. destruct (Z.leb_spec 32 i); [|by_bits32 i].
  rewrite (bits_above dev 32) by lia. rewrite !Z.lor_spec, !Z.shiftl_spec, !Z.land_spec by lia.
  rewrite (Z.mod_pow2_bits_high (Z.shiftl _ _)), (bits_above 0xfff 12), (bits_above 0xff 8) by lia.
  by rewrite !andb_false_r.
Qed.

Lemma dm_devt_roundtrip_witness :
  mkdev (Z.land (Z.shiftr 0x12345678 8) 0xfff)
    (u32 (Z.lor (Z.land 0x12345678 0xff) (Z.land (Z.shiftr 0x12345678 12) 0xfff00))) = 0x12345678.
Proof. apply dm_devt_roundtrip. lia. Defined.

(** The table-load request is laid out as the kernel walks it: its declared
    size is a multiple of 8 and holds the header, the target and its
    parameters with their terminator, and the link to the next target points
    at its end. *)
Theorem dm_load_layout name ty n params sec : len params < 2 ^ 31 →
  let r := load_request name ty n params sec in
  ∃ t, dm_tgt r = Some t ∧ tg_params t = params ∧ dm_target_count r = 1 ∧
    dm_data_size r mod 8 = 0 ∧ dm_data_size r = dm_data_start r + tg_next t ∧
    sizeof_dm_target_spec + len params + 1 <= tg_next t < sizeof_dm_target_spec + len params + 9 ∧
    len (tg_type t) < DM_MAX_TYPE_NAME.
Proof.
  intros Hp r. subst r. unfold load_request. set (pl := len params + 1).
  set (pad := (8 - (sizeof_dm_ioctl + sizeof_dm_target_spec + pl) mod 8) mod 8).
  assert (0 <= pad < 8) by (apply Z.mod_pos_bound; lia).
  assert ((sizeof_dm_ioctl + sizeof_dm_target_spec + pl + pad) mod 8 = 0).
  { subst pad. unfold sizeof_dm_ioctl, sizeof_dm_target_spec. Z.to_euclidean_division_equations. lia. }
  unfold sizeof_dm_ioctl, sizeof_dm_target_spec in *.
  assert (Eu : u32 (312 + 40 + pl + pad) = 312 + 40 + pl + pad) by (apply u32_small; lia).
  assert (Eu' : u32 (40 + pl + pad) = 40 + pl + pad) by (apply u32_small; lia).
  eexists. split; [by destruct sec|].
  destruct sec; cbn [set_target set_flags dm_fill_header dm_data_size dm_data_start dm_target_count tg_params tg_next tg_type];
    rewrite ?Eu, ?Eu'; unfold sizeof_dm_ioctl; (split_and!; [done|done|done|lia|lia|lia|by apply strncpy_len]).
Qed.

Lemma dm_load_layout_witness :
  ∃ t, dm_tgt (load_request (bs "x") (bs "linear") 8 (bs "/dev/vda1 2048") false) = Some t ∧
    tg_params t = bs "/dev/vda1 2048" ∧ dm_target_count (load_request (bs "x") (bs "linear") 8 (bs "/dev/vda1 2048") false) = 1 ∧
    dm_data_size (load_request (bs "x") (bs "linear") 8 (bs "/dev/vda1 2048") false) mod 8 = 0 ∧
    dm_data_size (load_request (bs "x") (bs "linear") 8 (bs "/dev/vda1 2048") false)
      = dm_data_start (load_request (bs "x") (bs "linear") 8 (bs "/dev/vda1 2048") false) + tg_next t ∧
    sizeof_dm_target_spec + 14 + 1 <= tg_next t < sizeof_dm_target_spec + 14 + 9 ∧
    len (tg_type t) < DM_MAX_TYPE_NAME.
Proof. apply (dm_load_layout (bs "x") (bs "linear") 8 (bs "/dev/vda1 2048") false). vm_compute. reflexivity. Defined.

End Dm.
