(* ===== verification/Session.v ===== *)
(** * Session

    src/core/anyfs_session.c and src/core/anyfs_container.c: one open disk
    image, its partition slots and what is mounted of it.  The state of the
    code is the session record beside the kernel's state.  The disk table and
    the error text are an interface ([Core]) that other components implement.
    The code is run by one thread at a time here: a wait for a slot in state
    MOUNTING, which only another thread can end, is stuck. *)
From S2P Require Import Prelude CLib Lkl Path Probe Sysfs MountOpts Mount Dm.
Import CLib Probe Mount.

Module Session.

(** ** Data *)

Definition MAX_PARTS : Z := 128.
Definition ROOT_PARENT : Z := -1.
Definition ANYFS_LKL_PATH_MAX : Z := 64.
Definition ANYFS_SESSION_READONLY : Z := 1.

Inductive AnyfsPartState :=
  | ANYFS_PART_NEW
  | ANYFS_PART_MOUNTING
  | ANYFS_PART_MOUNTED
  | ANYFS_PART_FAILED.

#[export] Instance state_eq : EqDecision AnyfsPartState.
Proof. solve_decision. Defined.

Record PartSlot := mk_slot {
  slot_id : Z; parent_slot : Z; s_index : Z; offset_bytes : Z; s_size_bytes : Z;
  s_ptype : bytes; blkdev : bytes; s_dm_name : bytes; kind : AnyfsPartKind;
  state : AnyfsPartState; fail_reason : option bytes; fstype_cache : bytes;
  label : bytes; uuid : bytes }.

Record AnyfsSession := mk_session {
  disk_id : Z; open_flags : Z; image_path : bytes; display : bytes; sysfs_name : bytes;
  whole_fstype_hint : bytes; whole_label_hint : bytes; whole_uuid_hint : bytes;
  whole_dev : Z; whole_state : AnyfsPartState; parts : list PartSlot }.

(** Field updates. *)
Definition set_state (x : AnyfsPartState) (p : PartSlot) : PartSlot :=
  mk_slot (slot_id p) (parent_slot p) (s_index p) (offset_bytes p) (s_size_bytes p) (s_ptype p) (blkdev p)
    (s_dm_name p) (kind p) x (fail_reason p) (fstype_cache p) (label p) (uuid p).
Definition set_kind (k : AnyfsPartKind) (p : PartSlot) : PartSlot :=
  mk_slot (slot_id p) (parent_slot p) (s_index p) (offset_bytes p) (s_size_bytes p) (s_ptype p) (blkdev p)
    (s_dm_name p) k (state p) (fail_reason p) (fstype_cache p) (label p) (uuid p).
Definition set_ptype (t : bytes) (p : PartSlot) : PartSlot :=
  mk_slot (slot_id p) (parent_slot p) (s_index p) (offset_bytes p) (s_size_bytes p) t (blkdev p)
    (s_dm_name p) (kind p) (state p) (fail_reason p) (fstype_cache p) (label p) (uuid p).
Definition set_reason (r : option bytes) (p : PartSlot) : PartSlot :=
  mk_slot (slot_id p) (parent_slot p) (s_index p) (offset_bytes p) (s_size_bytes p) (s_ptype p) (blkdev p)
    (s_dm_name p) (kind p) (state p) r (fstype_cache p) (label p) (uuid p).
Definition set_meta (f l u : bytes) (p : PartSlot) : PartSlot :=
  mk_slot (slot_id p) (parent_slot p) (s_index p) (offset_bytes p) (s_size_bytes p) (s_ptype p) (blkdev p)
    (s_dm_name p) (kind p) (state p) (fail_reason p) f l u.
Definition set_parts (l : list PartSlot) (d : AnyfsSession) : AnyfsSession :=
  mk_session (disk_id d) (open_flags d) (image_path d) (display d) (sysfs_name d) (whole_fstype_hint d)
    (whole_label_hint d) (whole_uuid_hint d) (whole_dev d) (whole_state d) l.
Definition set_whole (x : AnyfsPartState) (d : AnyfsSession) : AnyfsSession :=
  mk_session (disk_id d) (open_flags d) (image_path d) (display d) (sysfs_name d) (whole_fstype_hint d)
    (whole_label_hint d) (whole_uuid_hint d) (whole_dev d) x (parts d).
Definition set_hints (f l u : bytes) (dev : Z) (d : AnyfsSession) : AnyfsSession :=
  mk_session (disk_id d) (open_flags d) (image_path d) (display d) (sysfs_name d) f l u dev (whole_state d) (parts d).
Definition set_sysfs (n : bytes) (d : AnyfsSession) : AnyfsSession :=
  mk_session (disk_id d) (open_flags d) (image_path d) (display d) n (whole_fstype_hint d)
    (whole_label_hint d) (whole_uuid_hint d) (whole_dev d) (whole_state d) (parts d).

Definition upd_slot (i : Z) (f : PartSlot → PartSlot) (d : AnyfsSession) : AnyfsSession :=
  set_parts (alter f (Z.to_nat i) (parts d)) d.

(** What the session layer asks of the disk table and of the error text. *)
Class Core (W : Type) := {
  disk_add : bytes → Z → kcall W Z;
  disk_remove : Z → kcall W Z;
  set_last_error : bytes → kcall W Z;
}.

(** The disks attached; nothing else of the kernel changes. *)
Definition with_dsk (D : gset Z) (v : KView) : KView := mk_view (v_fds v) (v_mnt v) (v_bro v) D.

Class CoreLaws (W : Type) `{!Lkl W, !LklLaws W, !Core W} := {
  law_disk_add p f w r w' : disk_add p f w = (r, w') →
    (- 2 ^ 31 <= r < 0 ∧ view w' = view w) ∨
    (0 <= r < 2 ^ 31 ∧ r ∉ v_dsk (view w) ∧ view w' = with_dsk ({[r]} ∪ v_dsk (view w)) (view w));
  law_disk_remove i w : view (disk_remove i w).2 = with_dsk (v_dsk (view w) ∖ {[i]}) (view w);
  law_last_error t w : view (set_last_error t w).2 = view w;
}.

(** ** Pure helpers *)

Definition anyfs_partkind_name (k : AnyfsPartKind) : bytes :=
  match k with
  | ANYFS_PART_KIND_FS => bs "FS"
  | ANYFS_PART_KIND_LVM_PV => bs "LVM_PV"
  | ANYFS_PART_KIND_LUKS => bs "LUKS"
  | ANYFS_PART_KIND_NESTED_PARTITION_TABLE => bs "NESTED"
  | ANYFS_PART_KIND_UNKNOWN => bs "UNKNOWN"
  end.

Definition set_fail (reason : bytes) (p : PartSlot) : PartSlot :=
  set_state ANYFS_PART_FAILED (set_reason (Some reason) p).

(** As compiled on POSIX; the Windows build also takes a backslash. *)
Definition image_basename (path : bytes) : bytes := default path (strrchr 47 path).

(** Index of the new slot; [None] when the table is full. *)
Definition alloc_slot_locked (d : AnyfsSession) (parent index off size : Z) (blk : bytes) (k : AnyfsPartKind) :
    option (Z * AnyfsSession) :=
  if MAX_PARTS <=? len (parts d) then None
  else
    let id := len (parts d) in
    Some (id, set_parts (parts d ++ [mk_slot id parent index off size (bs "?") (strncpy 80 blk) [] k
                                       ANYFS_PART_NEW None [] [] []]) d).

Fixpoint find_slot (l : list PartSlot) (i parent index : Z) : Z :=
  match l with
  | [] => -1
  | p :: l' => if (parent_slot p =? parent) && (s_index p =? index) then i else find_slot l' (i + 1) parent index
  end.
Definition find_slot_by_pair_locked (d : AnyfsSession) (parent index : Z) : Z := find_slot (parts d) 0 parent index.

Record AnyfsPartInfo := mk_info {
  pi_slot : Z; pi_parent : Z; pi_index : Z; pi_offset : Z; pi_size : Z; pi_ptype : bytes;
  pi_kind : AnyfsPartKind; pi_fstype : bytes; pi_label : bytes; pi_uuid : bytes }.

Definition slot_to_info (p : PartSlot) : AnyfsPartInfo :=
  mk_info (slot_id p) (parent_slot p) (s_index p) (offset_bytes p) (s_size_bytes p) (s_ptype p) (kind p)
    (strncpy 32 (fstype_cache p)) (strncpy 64 (label p)) (strncpy 40 (uuid p)).

(** anyfs_d<disk>_p<index> for a top-level slot, anyfs_d<disk>_s<slot> for a
    child, anyfs_d<disk>_whole for the whole disk. *)
Definition slot_name (d : AnyfsSession) (p : PartSlot) : bytes :=
  (snprintf 64 (if parent_slot p =? ROOT_PARENT
                then bs "anyfs_d" ++ fmt_d (disk_id d) ++ bs "_p" ++ fmt_u (s_index p)
                else bs "anyfs_d" ++ fmt_d (disk_id d) ++ bs "_s" ++ fmt_d (slot_id p))).2.
Definition whole_name (d : AnyfsSession) : bytes :=
  (snprintf 64 (bs "anyfs_d" ++ fmt_d (disk_id d) ++ bs "_whole")).2.
Definition whole_devpath (d : AnyfsSession) : bytes :=
  (snprintf 80 (bs "/dev/anyfs_d" ++ fmt_d (disk_id d) ++ bs "_whole")).2.

Definition is_fs (k : AnyfsPartKind) : bool := bool_decide (k = ANYFS_PART_KIND_FS).
Definition is_state (x : AnyfsPartState) (p : PartSlot) : bool := bool_decide (state p = x).

Definition conflict_mounted_locked (d : AnyfsSession) (part : Z) : bool :=
  if negb (part =? 0) then negb (bool_decide (whole_state d = ANYFS_PART_NEW))
  else existsb (λ p, (parent_slot p =? ROOT_PARENT) && is_fs (kind p) &&
                     (is_state ANYFS_PART_MOUNTING p || is_state ANYFS_PART_MOUNTED p)) (parts d).

Section Session.
Context {W : Type} `{!Lkl W, !Host W, !Core W}.
Abbreviation St := (AnyfsSession * W)%type.

Definition ses : M St AnyfsSession := mgets fst.
Definition upd (f : AnyfsSession → AnyfsSession) : M St () := mmod (λ s, (f s.1, s.2)).
Definition slot (i : Z) : M St PartSlot := d ← ses; mopt (if i <? 0 then None else parts d !! Z.to_nat i).

(** Run session code on a session the caller owns. *)
Definition with_session {A} (d : AnyfsSession) (m : M St A) : M W (A * AnyfsSession) := λ w,
  match m (d, w) with Some (a, (d', w')) => Some ((a, d'), w') | None => None end.

(** if (access("/dev") < 0) mkdir("/dev") *)
Definition ensure_dev : M W Z :=
  a ← lkl_sys_access (bs "/dev");
  if a <? 0 then lkl_sys_mkdir (bs "/dev") 0x1c0 else mret 0.

(** The value returned and the device number. *)
Definition get_blkdev_from_sys (vd : bytes) (part : Z) : M W (Z * Z) :=
  let path := (snprintf 128
    (if part =? 0 then bs "/sys/block/" ++ vd ++ bs "/dev"
     else bs "/sys/block/" ++ vd ++ bs "/" ++ vd ++ fmt_d (i32 part) ++ bs "/dev")).2 in
  fd ← lkl_sys_open path LKL_O_RDONLY;
  if fd <? 0 then mret (fd, 0)
  else
    r ← lkl_sys_read fd 15;
    _ ← lkl_sys_close fd;
    if r.1 <=? 0 then mret (-1, 0)
    else
      mret (match (a ← scan_u (c_str r.2);
                   match a.2 with c :: rest => if c =? 58 then b ← scan_u rest; Some (a.1, b.1) else None | [] => None end) with
            | Some (major, minor) =>
                (0, Z.lor (Z.lor (Z.land minor 0xff) (u32 (Z.shiftl major 8)))
                      (u32 (Z.shiftl (Z.land minor 0xffffff00) 12)))
            | None => (-1, 0)
            end).

(** mknod the node of [dev] at [path] when its number is known. *)
Definition mknod_for (vd : bytes) (part : Z) (path : bytes) : M W () :=
  g ← get_blkdev_from_sys vd part;
  if g.1 =? 0 then
    _ ← ensure_dev;
    _ ← lkl_sys_mknod path (Z.lor LKL_S_IFBLK 0x180) g.2;
    mret ()
  else mret ().

(** One partition of the walk; false when the table is full. *)
Definition load_part (pt : list AnyfsInnerPart) (sp : Sysfs.AnyfsSysfsPart) : M St bool :=
  d ← ses;
  let blk := (snprintf 80 (bs "/dev/" ++ Sysfs.sp_name sp)).2 in
  match alloc_slot_locked d ROOT_PARENT (Sysfs.sp_index sp) (Sysfs.sp_start sp) (Sysfs.sp_size sp) blk ANYFS_PART_KIND_FS with
  | None => mret false
  | Some (sid, d') =>
      _ ← upd (λ _, d');
      _ ← match list_find (λ q, index q = Sysfs.sp_index sp) pt with
          | Some (_, q) => upd (upd_slot sid (set_ptype (ptype q)))
          | None => mret ()
          end;
      _ ← lower (mknod_for (sysfs_name d) (Sysfs.sp_index sp) blk);
      k ← lower (anyfs_probe_kind_blkdev (Some blk));
      _ ← upd (upd_slot sid (set_kind k));
      if is_fs k then
        m ← lower (anyfs_probe_meta (Some blk));
        let '(f, l, u) := m.2 in
        _ ← upd (upd_slot sid (set_meta f l u));
        mret true
      else mret true
  end.

Fixpoint load_parts (pt : list AnyfsInnerPart) (l : list Sysfs.AnyfsSysfsPart) : M St () :=
  match l with
  | [] => mret ()
  | sp :: l' => ok ← load_part pt sp; if (ok : bool) then load_parts pt l' else mret ()
  end.

Definition load_top_parts_locked : M St Z :=
  d ← ses;
  r ← lower (Sysfs.anyfs_sysfs_walk (Some (sysfs_name d)) MAX_PARTS);
  let '(n, sbuf) := r in
  if n <? 0 then mret (-1)
  else
    let n := Z.min n MAX_PARTS in
    pt ← (if 0 <? n then
            let disk_dev := (snprintf 80 (bs "/dev/" ++ sysfs_name d)).2 in
            _ ← lower (mknod_for (sysfs_name d) 0 disk_dev);
            lower (anyfs_probe_pt_blkdev (Some disk_dev) MAX_PARTS)
          else mret []);
    _ ← load_parts pt (take (Z.to_nat n) sbuf);
    mret 0.

(** The value returned and [*out].  [calloc1], [calloc2]: the two
    allocations succeed. *)
Definition anyfs_session_open (calloc1 calloc2 : bool) (image : option bytes) (flags : Z) :
    M W (Z * option AnyfsSession) :=
  match image with None => mret (-1, None) | Some image =>
  id ← call (disk_add image flags);
  if id <? 0 then mret (-1, None)
  else if negb (calloc1 && calloc2) then _ ← call (disk_remove id); mret (-1, None)
  else
    let d := mk_session id flags (strncpy 512 image) (strncpy 256 (image_basename image)) [] [] [] [] 0
               ANYFS_PART_NEW [] in
    v ← Sysfs.anyfs_sysfs_virtio_disk_name id 64;
    if v.1 <? 0 then
      _ ← call (set_last_error (bs "cannot find the block device of disk " ++ fmt_d id));
      _ ← call (disk_remove id);
      mret (-1, None)
    else
      r ← with_session (set_sysfs v.2 d) load_top_parts_locked;
      let d := r.2 in
      g ← get_blkdev_from_sys (sysfs_name d) 0;
      if g.1 =? 0 then
        _ ← ensure_dev;
        let tmpdev := (snprintf 80 (bs "/dev/.anyfs_probe_" ++ fmt_d id)).2 in
        _ ← lkl_sys_mknod tmpdev (Z.lor LKL_S_IFBLK 0x180) g.2;
        m ← anyfs_probe_meta (Some tmpdev);
        _ ← lkl_sys_unlink tmpdev;
        let '(f, l, u) := m.2 in
        mret (0, Some (set_hints f l u g.2 d))
      else mret (0, Some (set_hints [] [] [] 0 d))
  end.

(** ** Leaving *)

Definition anyfs_session_leave (part : Z) : M St Z :=
  d ← ses;
  if part =? 0 then
    rc ← lower (anyfs_umount (Some (whole_name d)));
    if rc =? 0 then
      _ ← lower (lkl_sys_unlink (whole_devpath d));
      _ ← upd (set_whole ANYFS_PART_NEW);
      mret rc
    else mret rc
  else
    let sid := find_slot_by_pair_locked d ROOT_PARENT part in
    if sid <? 0 then mret (-1)
    else
      p ← slot sid;
      if negb (is_state ANYFS_PART_MOUNTED p) || negb (is_fs (kind p)) then mret (-1)
      else
        rc ← lower (anyfs_umount (Some (snprintf 64 (bs "anyfs_d" ++ fmt_d (disk_id d) ++ bs "_p" ++ fmt_u part)).2));
        _ ← (if rc =? 0 then upd (upd_slot sid (set_state ANYFS_PART_NEW)) else mret ());
        mret rc.

(** The loop over slots [i], [i + 1], ... reads each slot afresh. *)
Fixpoint release_loop (idx : list nat) : M St () :=
  match idx with
  | [] => mret ()
  | i :: rest =>
      d ← ses;
      match parts d !! i with
      | None => mret ()
      | Some p =>
          _ ← (if (parent_slot p =? ROOT_PARENT) && is_fs (kind p) && is_state ANYFS_PART_MOUNTED p
               then _ ← anyfs_session_leave (s_index p); mret () else mret ());
          release_loop rest
      end
  end.

Definition release_conflicts (part : Z) : M St () :=
  d ← ses;
  if negb (part =? 0) then
    if bool_decide (whole_state d = ANYFS_PART_MOUNTED)
    then _ ← anyfs_session_leave 0; mret () else mret ()
  else release_loop (seq 0 (S (length (parts d)))).

(** ** Entering *)

Definition BUSY_RETRY_TOTAL_MS : Z := 500.
Definition BUSY_RETRY_STEP_MS : Z := 10.

(** The value returned and the new [*waited_ms]. *)
Definition busy_is_transient (part waited : Z) : M St (bool * Z) :=
  if BUSY_RETRY_TOTAL_MS <=? waited then mret (false, waited)
  else
    d ← ses;
    if conflict_mounted_locked d part then mret (false, waited)
    else
      _ ← lower (lkl_sys_nanosleep BUSY_RETRY_STEP_MS);
      mret (true, waited + BUSY_RETRY_STEP_MS).

(** do { rc = mount } while (rc == -EBUSY && busy_is_transient(...)) *)
Fixpoint mount_retry (fuel : nat) (mount : M W (Z * option AnyfsMount)) (part waited : Z) :
    M St (Z * option AnyfsMount) :=
  match fuel with
  | O => mstuck
  | S f =>
      r ← lower mount;
      if r.1 =? - LKL_EBUSY then
        b ← busy_is_transient part waited;
        if (b.1 : bool) then mount_retry f mount part b.2 else mret r
      else mret r
  end.
Definition RETRY_FUEL : nat := 51.

Definition mflags_fs (d : AnyfsSession) (flags : Z) : Z :=
  let m := Z.land flags ANYFS_MOUNT_FAT_CP_MASK in
  if flag (open_flags d) ANYFS_SESSION_READONLY || flag flags ANYFS_MOUNT_RDONLY
  then Z.lor m ANYFS_MOUNT_RDONLY else m.

Definition mflags_whole (d : AnyfsSession) (flags : Z) : Z :=
  let m := Z.land flags (Z.lor ANYFS_MOUNT_RDONLY ANYFS_MOUNT_FAT_CP_MASK) in
  if flag (open_flags d) ANYFS_SESSION_READONLY then Z.lor m ANYFS_MOUNT_RDONLY else m.

(** The mount an FS slot asks for, outside the lock. *)
Definition mount_slot (d : AnyfsSession) (p : PartSlot) (flags : Z) : M St (Z * option AnyfsMount) :=
  let hint := if len (fstype_cache p) =? 0 then bs "auto" else fstype_cache p in
  if parent_slot p =? ROOT_PARENT then
    _ ← (if flag flags ANYFS_MOUNT_REPLACE then release_conflicts (s_index p) else mret ());
    mount_retry RETRY_FUEL (anyfs_mount (disk_id d) (s_index p) (Some hint) (Some (slot_name d p)) (mflags_fs d flags))
      (s_index p) 0
  else lower (anyfs_mount_blkdev (Some (strncpy 80 (blkdev p))) (Some hint) (Some (slot_name d p)) (mflags_fs d flags)).

(** The value returned and the text stored in [lkl_path]. *)
Definition enter_fs_slot (sid flags : Z) : M St (Z * bytes) :=
  d ← ses;
  p ← slot sid;
  match state p with
  | ANYFS_PART_MOUNTING => mstuck
  | ANYFS_PART_MOUNTED => mret (0, (snprintf 64 (bs "/lklmnt/" ++ slot_name d p)).2)
  | ANYFS_PART_FAILED => mret (-3, [])
  | ANYFS_PART_NEW =>
      _ ← upd (upd_slot sid (set_state ANYFS_PART_MOUNTING));
      r ← mount_slot d p flags;
      let '(rc, mnt) := r in
      if rc =? 0 then
        m ← mopt mnt;
        _ ← upd (upd_slot sid (λ q, set_state ANYFS_PART_MOUNTED (set_meta (strncpy 32 (fstype m)) (label q) (uuid q) q)));
        mret (rc, (snprintf 64 (mount_point m)).2)
      else if rc =? - LKL_EBUSY then
        _ ← upd (upd_slot sid (set_state ANYFS_PART_NEW));
        mret (rc, [])
      else
        _ ← upd (upd_slot sid (set_fail (snprintf 64 (bs "mount failed (rc=" ++ fmt_d rc ++ bs ")")).2));
        mret (rc, [])
  end.

Definition enter_whole (flags : Z) : M St (Z * bytes) :=
  d ← ses;
  if whole_dev d =? 0 then mret (-4, [])
  else match whole_state d with
  | ANYFS_PART_MOUNTING => mstuck
  | ANYFS_PART_MOUNTED => mret (0, (snprintf ANYFS_LKL_PATH_MAX (bs "/lklmnt/anyfs_d" ++ fmt_d (disk_id d) ++ bs "_whole")).2)
  | _ =>
      _ ← upd (set_whole ANYFS_PART_MOUNTING);
      _ ← (if flag flags ANYFS_MOUNT_REPLACE then release_conflicts 0 else mret ());
      _ ← lower ensure_dev;
      _ ← lower (lkl_sys_mknod (whole_devpath d) (Z.lor LKL_S_IFBLK 0x180) (whole_dev d));
      let hint := if len (whole_fstype_hint d) =? 0 then None else Some (whole_fstype_hint d) in
      r ← mount_retry RETRY_FUEL
            (anyfs_mount_blkdev (Some (whole_devpath d)) hint (Some (whole_name d)) (mflags_whole d flags)) 0 0;
      let '(rc, mnt) := r in
      _ ← upd (set_whole (if rc =? 0 then ANYFS_PART_MOUNTED else ANYFS_PART_NEW));
      if rc <? 0 then _ ← lower (lkl_sys_unlink (whole_devpath d)); mret (rc, [])
      else m ← mopt mnt; mret (0, (snprintf ANYFS_LKL_PATH_MAX (mount_point m)).2)
  end.
(** ** Containers *)

(** What the host gives to a credential: environment variables, key files
    ([None]: fopen failed), descriptors ([None]: read failed), errno, and
    whether the copy of the query can be allocated. *)
Record Creds := mk_creds {
  c_getenv : bytes → option bytes; c_keyfile : bytes → option bytes;
  c_keyfd : Z → option bytes; c_errno : Z; c_dup : bool }.

(** The loop over the pairs: the value returned and [errstr]. *)
Fixpoint cred_loop (fuel : nat) (c : Creds) (out_cap : Z) (q : bytes) : option (Z * bytes) :=
  match fuel with
  | O => None
  | S f =>
      match q with
      | [] => Some (0, [])
      | _ =>
          let '(kv, amp) := match strchr 38 q with Some (a, b) => (a, Some b) | None => (q, None) end in
          let next := match amp with Some b => cred_loop f c out_cap b | None => Some (0, []) end in
          let err t := Some (-1, (snprintf 160 t).2) in
          match strchr 61 kv with
          | None => next
          | Some (k, v) =>
              if streq k (bs "key") then Some (Z.min (len v) out_cap, [])
              else if streq k (bs "keyref") then
                match c_getenv c v with
                | None => err (bs "keyref=" ++ v ++ bs ": env var not set")
                | Some e => Some (Z.min (len e) out_cap, [])
                end
              else if streq k (bs "keyfile") then
                match c_keyfile c v with
                | None => err (bs "keyfile=" ++ v ++ bs ": open failed (errno=" ++ fmt_d (c_errno c) ++ bs ")")
                | Some b =>
                    let n := Z.min (len b) out_cap in
                    if n =? 0 then err (bs "keyfile=" ++ v ++ bs ": read failed") else Some (n, [])
                end
              else if streq k (bs "keyfd") then
                let '(fd, end_) := strtol v in
                if negb (bool_decide (end_ = [])) || (fd <? 0) then err (bs "keyfd=" ++ v ++ bs ": not a valid fd")
                else match c_keyfd c (i32 fd) with
                     | Some (x :: b) => Some (Z.min (len (x :: b)) out_cap, [])
                     | _ => err (bs "keyfd=" ++ fmt_d fd ++ bs ": read failed")
                     end
              else next
          end
      end
  end.

Definition resolve_luks_credential (c : Creds) (dup_ok : bool) (query : option bytes) (out_cap : Z) :
    option (Z * bytes) :=
  match query with
  | None | Some [] => Some (0, [])
  | Some q => if negb dup_ok then Some (-1, bs "out of memory") else cred_loop (S (length q)) c out_cap q
  end.

Definition container_rc (k : AnyfsPartKind) : Z :=
  match k with
  | ANYFS_PART_KIND_NESTED_PARTITION_TABLE => - LKL_ENOSYS
  | ANYFS_PART_KIND_LUKS => - LKL_ENOSYS
  | ANYFS_PART_KIND_LVM_PV => - LKL_ENOSYS
  | _ => - LKL_EINVAL
  end.

Variable creds : Creds.

(** No container kind can be brought up: [rc] is negative on every path, and
    the code that would append the children is not reached. *)
Definition enter_container_slot (sid : Z) (query : option bytes) (flags : Z) : M St Z :=
  p ← slot sid;
  match state p with
  | ANYFS_PART_MOUNTING => mstuck
  | ANYFS_PART_MOUNTED => mret 0
  | ANYFS_PART_FAILED => mret (-3)
  | ANYFS_PART_NEW =>
      _ ← upd (upd_slot sid (set_state ANYFS_PART_MOUNTING));
      let rc := container_rc (kind p) in
      buf ← match kind p with
            | ANYFS_PART_KIND_LUKS =>
                k ← mopt (resolve_luks_credential creds (c_dup creds) query 128);
                mret (if k.1 <? 0 then (snprintf 200 (bs "LUKS credential: " ++ k.2)).2
                      else if k.1 =? 0 then
                        bs "LUKS: no credential in query; expected keyref=ENV / keyfile=PATH / keyfd=N / key=..."
                      else bs "LUKS: credential resolved (" ++ fmt_d k.1 ++
                           bs " bytes); passphrase->masterkey derivation requires v3 (libcryptsetup not yet linked)")
            | ANYFS_PART_KIND_LVM_PV => mret (bs "LVM2 PV activation requires v3 (LVM metadata parser)")
            | k => mret (bs "dm setup failed (kind=" ++ anyfs_partkind_name k ++ bs ", rc=" ++ fmt_d rc ++ bs ")")
            end;
      _ ← upd (upd_slot sid (set_fail buf));
      mret rc
  end.

(** ** The public operations *)

Definition anyfs_session_enter (part flags : Z) : M St (Z * bytes) :=
  if part =? 0 then enter_whole flags
  else
    d ← ses;
    let sid := find_slot_by_pair_locked d ROOT_PARENT part in
    if sid <? 0 then mret (-2, [])
    else
      p ← slot sid;
      if is_fs (kind p) then enter_fs_slot sid flags
      else rc ← enter_container_slot sid None flags; mret (rc, []).

(** The value returned, the leaf slot and the path. *)
Fixpoint walk_comps (parent : Z) (comp : list Path.AnyfsPathComp) (flags : Z) : M St (Z * Z * bytes) :=
  match comp with
  | [] => mret (- LKL_EINVAL, -1, [])
  | c :: rest =>
      d ← ses;
      let sid := find_slot_by_pair_locked d parent (Path.p c) in
      if sid <? 0 then mret (- LKL_ENOENT, -1, [])
      else
        match rest with
        | [] =>
            p ← slot sid;
            if is_fs (kind p) then r ← enter_fs_slot sid flags; mret (r.1, sid, r.2)
            else rc ← enter_container_slot sid (Path.query c) flags; mret (rc, sid, [])
        | _ =>
            rc ← enter_container_slot sid (Path.query c) flags;
            if rc <? 0 then mret (rc, -1, []) else walk_comps sid rest flags
        end
  end.

Definition anyfs_session_walk (comp : list Path.AnyfsPathComp) (flags : Z) : M St (Z * Z * bytes) :=
  if len comp =? 0 then mret (- LKL_EINVAL, -1, []) else walk_comps ROOT_PARENT comp flags.

Definition anyfs_session_enter_path (comp : list Path.AnyfsPathComp) (flags : Z) : M St (Z * bytes) :=
  if len comp =? 0 then mret (- LKL_EINVAL, [])
  else
    r ← anyfs_session_walk comp flags;
    let '(rc, leaf, path) := r in
    if rc <? 0 then mret (rc, path)
    else if leaf <? 0 then mret (- LKL_EINVAL, path)
    else
      p ← slot leaf;
      if negb (is_fs (kind p)) then mret (- LKL_EISDIR, path) else mret (0, path).

Definition anyfs_session_display (d : option AnyfsSession) : bytes := from_option display [] d.
Definition anyfs_session_id (d : option AnyfsSession) : Z := from_option disk_id (-1) d.
Definition anyfs_session_whole_fstype_hint (d : option AnyfsSession) : option bytes :=
  match d with
  | None => None
  | Some d => match whole_fstype_hint d with [] => None | h => Some h end
  end.

(** The value returned, the entries written and [*got]. *)
Fixpoint list_loop (l : list PartSlot) (parent buf_n : Z) (out : list AnyfsPartInfo) (total : Z) :
    list AnyfsPartInfo * Z :=
  match l with
  | [] => (out, total)
  | p :: l' =>
      if negb (parent_slot p =? parent) then list_loop l' parent buf_n out total
      else list_loop l' parent buf_n (if len out <? buf_n then out ++ [slot_to_info p] else out) (total + 1)
  end.
Definition anyfs_session_list (d : AnyfsSession) (parent : Z) (buf_n : Z) : Z * list AnyfsPartInfo * Z :=
  let '(out, total) := list_loop (parts d) parent buf_n [] 0 in (len out, out, total).

Definition anyfs_session_count (d : AnyfsSession) (parent : Z) : Z :=
  len (filter (λ p, parent_slot p = parent) (parts d)).

Definition anyfs_session_state (d : AnyfsSession) (part : Z) : AnyfsPartState :=
  let sid := find_slot_by_pair_locked d ROOT_PARENT part in
  if 0 <=? sid then default ANYFS_PART_FAILED (state <$> parts d !! Z.to_nat sid) else ANYFS_PART_FAILED.

Definition anyfs_session_fail_reason (d : AnyfsSession) (part : Z) : option bytes :=
  let sid := find_slot_by_pair_locked d ROOT_PARENT part in
  if sid <? 0 then None
  else p ← parts d !! Z.to_nat sid; if is_state ANYFS_PART_FAILED p then fail_reason p else None.

Definition anyfs_session_whole_dev (d : option AnyfsSession) : Z := from_option whole_dev 0 d.

Definition anyfs_session_state_slot (d : AnyfsSession) (slot_id : Z) : AnyfsPartState :=
  if slot_id <? 0 then ANYFS_PART_FAILED
  else default ANYFS_PART_FAILED (state <$> parts d !! Z.to_nat slot_id).

Definition anyfs_session_fail_reason_slot (d : AnyfsSession) (slot_id : Z) : option bytes :=
  if slot_id <? 0 then None
  else p ← parts d !! Z.to_nat slot_id; if is_state ANYFS_PART_FAILED p then fail_reason p else None.

(** fstype, label; "?" when unknown. *)
Definition anyfs_session_probe (d : AnyfsSession) (part : Z) : bytes * bytes :=
  let sid := find_slot_by_pair_locked d ROOT_PARENT part in
  let q := bs "?" in
  if sid <? 0 then (q, q)
  else match parts d !! Z.to_nat sid with
       | None => (q, q)
       | Some p => (match fstype_cache p with [] => q | t => strncpy 32 t end,
                    match label p with [] => q | t => strncpy 64 t end)
       end.

Record AnyfsSessionMeta := mk_meta {
  logical_size : Z; pt_type : bytes; m_fstype : bytes; m_label : bytes; m_uuid : bytes }.

Definition anyfs_session_meta (d : AnyfsSession) : M W AnyfsSessionMeta :=
  fd ← lkl_sys_open (snprintf 128 (bs "/sys/block/" ++ sysfs_name d ++ bs "/size")).2 LKL_O_RDONLY;
  size ← (if fd <? 0 then mret 0
          else
            r ← lkl_sys_read fd 63;
            _ ← lkl_sys_close fd;
            mret (if r.1 <=? 0 then 0
                  else let t := c_str r.2 in
                       let '(sectors, end_) := strtoul t in
                       if bool_decide (end_ = t) then 0 else u64 (sectors * 512)));
  let blk_path := (snprintf 80 (bs "/dev/" ++ sysfs_name d)).2 in
  _ ← mknod_for (sysfs_name d) 0 blk_path;
  pt ← anyfs_probe_pttype_blkdev (Some blk_path);
  mret (mk_meta size (strncpy 16 pt) (strncpy 32 (whole_fstype_hint d)) (strncpy 64 (whole_label_hint d))
          (strncpy 40 (whole_uuid_hint d))).

(** Slots [i - 1], ..., [0]. *)
Fixpoint close_loop (i : nat) : M St () :=
  match i with
  | O => mret ()
  | S i' =>
      d ← ses;
      p ← slot (Z.of_nat i');
      _ ← (if is_state ANYFS_PART_MOUNTED p && is_fs (kind p)
           then _ ← lower (anyfs_umount (Some (slot_name d p))); mret () else mret ());
      _ ← (if len (s_dm_name p) =? 0 then mret ()
           else _ ← lower (Dm.anyfs_dm_remove (Some (s_dm_name p))); mret ());
      close_loop i'
  end.

Definition anyfs_session_close : M St () :=
  d ← ses;
  _ ← (if bool_decide (whole_state d = ANYFS_PART_MOUNTED)
       then _ ← anyfs_session_leave 0; mret () else mret ());
  _ ← close_loop (length (parts d));
  if 0 <=? disk_id d then _ ← lower (call (disk_remove (disk_id d))); mret () else mret ().
End Session.

End Session.
