(* ===== verification/SessionSpec.v ===== *)
(** * SessionSpec

    What makes the session layer correct: the slot table agrees with the
    kernel's mount table.  The invariant, that every operation keeps it, and
    the properties of entering, leaving and closing. *)
From S2P Require Import Prelude CLib Lkl Path Probe Sysfs MountOpts Mount Dm Session.
Import CLib Probe Mount Session.

Module SessionSpec.

(** ** Names *)

Lemma flag_1 x : flag x 1 = Z.testbit x 0.
Proof.
  unfold flag. change 1 with (Z.ones 1) at 1. rewrite Z.land_ones by lia. change (2 ^ 1) with 2.
  rewrite <- Z.bit0_mod. by destruct (Z.testbit x 0).
Qed.

Lemma mflags_fs_ro d flags : flag (mflags_fs d flags) ANYFS_MOUNT_RDONLY
  = flag (open_flags d) ANYFS_SESSION_READONLY || flag flags ANYFS_MOUNT_RDONLY.
Proof.
  unfold mflags_fs, ANYFS_MOUNT_RDONLY, ANYFS_SESSION_READONLY, ANYFS_MOUNT_FAT_CP_MASK.
  destruct (_ || _); rewrite flag_1, ?Z.lor_spec, Z.land_spec; cbn; by rewrite andb_false_r.
Qed.

Lemma mflags_whole_ro d flags : flag (mflags_whole d flags) ANYFS_MOUNT_RDONLY
  = flag (open_flags d) ANYFS_SESSION_READONLY || flag flags ANYFS_MOUNT_RDONLY.
Proof.
  unfold mflags_whole, ANYFS_MOUNT_RDONLY, ANYFS_SESSION_READONLY, ANYFS_MOUNT_FAT_CP_MASK.
  destruct (flag (open_flags d) 1); rewrite !flag_1, ?Z.lor_spec, Z.land_spec; cbn; [|by rewrite andb_true_r].
  by rewrite orb_true_r.
Qed.

(** The two halves of a mount name. *)
Definition prefix (d : AnyfsSession) : bytes := bs "anyfs_d" ++ fmt_d (disk_id d).
Definition suffix (p : PartSlot) : bytes :=
  if parent_slot p =? ROOT_PARENT then bs "_p" ++ fmt_u (s_index p) else bs "_s" ++ fmt_d (slot_id p).

Definition slot_path (d : AnyfsSession) (p : PartSlot) : bytes := bs "/lklmnt/" ++ prefix d ++ suffix p.
Definition whole_path (d : AnyfsSession) : bytes := bs "/lklmnt/" ++ prefix d ++ bs "_whole".

Definition slot_range (p : PartSlot) : Prop := 0 <= s_index p < 2 ^ 32 ∧ 0 <= slot_id p < 2 ^ 31.
Definition disk_range (d : AnyfsSession) : Prop := 0 <= disk_id d < 2 ^ 31.

Lemma prefix_len d : disk_range d → len (prefix d) <= 18.
Proof.
  intros [H1 H2]. unfold prefix. pose proof (fmt_d_len32 (disk_id d)). rewrite length_app.
  change (length (bs "anyfs_d")) with 7%nat. lia.
Qed.

Lemma suffix_len p : slot_range p → len (suffix p) <= 13.
Proof.
  intros [H1 H2]. unfold suffix. pose proof (fmt_d_len32 (slot_id p)). pose proof (fmt_u_len32 (s_index p)).
  destruct (_ =? _); rewrite length_app; [change (length (bs "_p")) with 2%nat|change (length (bs "_s")) with 2%nat]; lia.
Qed.

Lemma slot_name_eq d p : disk_range d → slot_range p → slot_name d p = prefix d ++ suffix p.
Proof.
  intros Hd Hp. pose proof (prefix_len d Hd). pose proof (suffix_len p Hp).
  unfold slot_name. unfold suffix, prefix in *. destruct (parent_slot p =? ROOT_PARENT);
    rewrite <- app_assoc; apply snprintf_fits; rewrite !length_app in *; lia.
Qed.

Lemma whole_name_eq d : disk_range d → whole_name d = prefix d ++ bs "_whole".
Proof.
  intros Hd. pose proof (prefix_len d Hd). unfold whole_name. unfold prefix in *. rewrite <- app_assoc.
  apply snprintf_fits. rewrite !length_app in *. change (length (bs "_whole")) with 6%nat. lia.
Qed.

Lemma mnt_path_eq name : len name <= 40 → mnt_path name = bs "/lklmnt/" ++ name.
Proof.
  intros H. apply snprintf_fits. rewrite length_app. change (length (bs "/lklmnt/")) with 8%nat. lia.
Qed.

Lemma slot_mnt_path d p : disk_range d → slot_range p → mnt_path (slot_name d p) = slot_path d p.
Proof.
  intros Hd Hp. pose proof (prefix_len d Hd). pose proof (suffix_len p Hp). rewrite slot_name_eq by done.
  rewrite mnt_path_eq; [done|]. rewrite length_app. lia.
Qed.

Lemma whole_mnt_path d : disk_range d → mnt_path (whole_name d) = whole_path d.
Proof.
  intros Hd. pose proof (prefix_len d Hd). rewrite whole_name_eq by done. rewrite mnt_path_eq; [done|].
  rewrite length_app. change (length (bs "_whole")) with 6%nat. lia.
Qed.

Lemma slot_path_len d p : disk_range d → slot_range p → len (slot_path d p) < 64.
Proof.
  intros Hd Hp. pose proof (prefix_len d Hd). pose proof (suffix_len p Hp). unfold slot_path.
  rewrite !length_app. change (length (bs "/lklmnt/")) with 8%nat. lia.
Qed.

Lemma whole_path_len d : disk_range d → len (whole_path d) < 64.
Proof.
  intros Hd. pose proof (prefix_len d Hd). unfold whole_path.
  rewrite !length_app. change (length (bs "/lklmnt/")) with 8%nat. change (length (bs "_whole")) with 6%nat. lia.
Qed.

Lemma slot_path_inj d p q : slot_range p → slot_range q → slot_path d p = slot_path d q →
  (parent_slot p = ROOT_PARENT ∧ parent_slot q = ROOT_PARENT ∧ s_index p = s_index q) ∨
  (parent_slot p ≠ ROOT_PARENT ∧ parent_slot q ≠ ROOT_PARENT ∧ slot_id p = slot_id q).
Proof.
  intros [Hp1 Hp2] [Hq1 Hq2] E. unfold slot_path in E. apply app_inv_head, app_inv_head in E.
  unfold suffix in E. destruct (Z.eqb_spec (parent_slot p) ROOT_PARENT), (Z.eqb_spec (parent_slot q) ROOT_PARENT);
    try discriminate E; apply app_inv_head in E; [left|right]; (split; [done|split; [done|]]).
  - apply fmt_u_inj in E; [done|lia..].
  - unfold fmt_d in E. destruct (Z.ltb_spec (slot_id p) 0), (Z.ltb_spec (slot_id q) 0); try lia.
    apply fmt_u_inj in E; [done|lia..].
Qed.

Lemma slot_path_whole d p : slot_path d p ≠ whole_path d.
Proof.
  unfold slot_path, whole_path. intros E. apply app_inv_head, app_inv_head in E. unfold suffix in E.
  destruct (_ =? _); discriminate E.
Qed.

Lemma slot_path_proc d p : slot_path d p ≠ bs "/proc".
Proof. intros E. discriminate E. Qed.
Lemma whole_path_proc d : whole_path d ≠ bs "/proc".
Proof. intros E. discriminate E. Qed.

(** ** The invariant *)

(** The part of the table no operation changes. *)
Definition static_slot (p : PartSlot) := (slot_id p, parent_slot p, s_index p, kind p, blkdev p).
Definition static (d : AnyfsSession) := (disk_id d, open_flags d, static_slot <$> parts d).

(** The table is well formed: slot ids are positions, parents come before
    their children, partition numbers under one parent are distinct and a
    top-level one is never 0 (the whole disk). *)
Record table_ok (d : AnyfsSession) : Prop := {
  ok_disk : disk_range d;
  ok_cap : len (parts d) <= MAX_PARTS;
  ok_slot i p : parts d !! i = Some p →
    slot_id p = Z.of_nat i ∧ -1 <= parent_slot p < Z.of_nat i ∧ 0 <= s_index p < 2 ^ 32 ∧
    (parent_slot p = ROOT_PARENT → s_index p ≠ 0);
  ok_pair i j p q : parts d !! i = Some p → parts d !! j = Some q →
    parent_slot p = parent_slot q → s_index p = s_index q → i = j }.

(** The mount recorded at [path]; read-only when the session is. *)
Definition mounted_at (d : AnyfsSession) (m : gmap bytes MountInfo) (path : bytes) : Prop :=
  ∃ mi, m !! path = Some mi ∧ (flag (open_flags d) ANYFS_SESSION_READONLY = true → mi_ro mi = true).

(** [mx] is the slot being mounted: its index, [-1] for the whole disk, [-2]
    for none. *)
Record SInv (mx : Z) (d : AnyfsSession) (m : gmap bytes MountInfo) : Prop := {
  inv_table : table_ok d;
  inv_slot i p : parts d !! i = Some p → state p = ANYFS_PART_MOUNTING → mx = Z.of_nat i;
  inv_whole : whole_state d ≠ ANYFS_PART_FAILED ∧ (whole_state d = ANYFS_PART_MOUNTING → mx = -1);
  inv_mnt i p : parts d !! i = Some p → state p = ANYFS_PART_MOUNTED →
    kind p = ANYFS_PART_KIND_FS ∧ mounted_at d m (slot_path d p);
  inv_wmnt : whole_state d = ANYFS_PART_MOUNTED → mounted_at d m (whole_path d) }.

Definition mnts {W} `{!Lkl W, !LklLaws W} (w : W) := v_mnt (view w).

Lemma ok_range d i p : table_ok d → parts d !! i = Some p → slot_range p.
Proof.
  intros H Hp. destruct (ok_slot d H i p Hp) as (H1 & H2 & H3 & _). split; [done|].
  pose proof (ok_cap d H). apply lookup_lt_Some in Hp. unfold MAX_PARTS in *. lia.
Qed.

Lemma static_lookup d d' i p : static d' = static d → parts d !! i = Some p →
  ∃ p', parts d' !! i = Some p' ∧ static_slot p' = static_slot p.
Proof.
  intros [= _ _ E] Hp. assert ((static_slot <$> parts d') !! i = Some (static_slot p)) as H.
  { rewrite E, list_lookup_fmap, Hp. done. }
  rewrite list_lookup_fmap in H. destruct (parts d' !! i) as [p'|]; [|done]. exists p'. split; [done|].
  by apply (inj Some) in H.
Qed.

Lemma static_sym_lookup d d' i p : static d' = static d → parts d' !! i = Some p →
  ∃ p', parts d !! i = Some p' ∧ static_slot p = static_slot p'.
Proof. intros E Hp. destruct (static_lookup d' d i p (eq_sym E) Hp) as (p' & ? & ?). eauto. Qed.

Lemma table_ok_static d d' : static d' = static d → table_ok d → table_ok d'.
Proof.
  intros E H. assert (Ed : disk_id d' = disk_id d) by by injection E.
  assert (El : length (parts d') = length (parts d)).
  { injection E as _ _ E3. apply (f_equal length) in E3. by rewrite !length_fmap in E3. }
  split.
  - unfold disk_range. rewrite Ed. apply H.
  - rewrite El. apply H.
  - intros i p Hp. destruct (static_sym_lookup d d' i p E Hp) as (q & Hq & Es). injection Es as -> -> -> _ _.
    by apply H.
  - intros i j p q Hp Hq. destruct (static_sym_lookup d d' i p E Hp) as (p' & Hp' & Es).
    destruct (static_sym_lookup d d' j q E Hq) as (q' & Hq' & Es').
    injection Es as _ -> -> _ _. injection Es' as _ -> -> _ _. by apply (ok_pair d H).
Qed.

Lemma slot_path_static d d' p q : static d' = static d → static_slot q = static_slot p →
  slot_path d' q = slot_path d p.
Proof.
  intros [= Ed _ _] [= E1 E2 E3 _ _]. unfold slot_path, prefix, suffix. by rewrite Ed, E1, E2, E3.
Qed.

Lemma whole_path_static d d' : static d' = static d → whole_path d' = whole_path d.
Proof. intros [= Ed _ _]. unfold whole_path, prefix. by rewrite Ed. Qed.

(** Slots of one table with the same mount point are the same slot. *)
Lemma slot_path_slot d i j p q : table_ok d → parts d !! i = Some p → parts d !! j = Some q →
  slot_path d p = slot_path d q → i = j.
Proof.
  intros H Hp Hq E. pose proof (ok_slot d H i p Hp) as (Ei & _). pose proof (ok_slot d H j q Hq) as (Ej & _).
  destruct (slot_path_inj d p q) as [(? & ? & ?)|(_ & _ & ?)];
    [by eapply ok_range..|done| |lia]. eapply (ok_pair d H); [done..|congruence|done].
Qed.

(** The invariant only looks at the mount points of what is mounted. *)
Lemma SInv_mnts mx d m m' :
  (∀ i p, parts d !! i = Some p → state p = ANYFS_PART_MOUNTED → m' !! slot_path d p = m !! slot_path d p) →
  (whole_state d = ANYFS_PART_MOUNTED → m' !! whole_path d = m !! whole_path d) →
  SInv mx d m → SInv mx d m'.
Proof.
  intros H1 H2 H. split; [apply H..| |].
  - intros i p Hp Hs. destruct (inv_mnt mx d m H i p Hp Hs) as [Hk (mi & Hm & Hr)]. split; [done|].
    exists mi. by rewrite (H1 i p).
  - intros Hs. destruct (inv_wmnt mx d m H Hs) as (mi & Hm & Hr). exists mi. by rewrite H2.
Qed.

Lemma SInv_with_proc mx d m m0 : with_proc m m0 → SInv mx d m → SInv mx d m0.
Proof.
  intros [->| ->]; [done|]. apply SInv_mnts; intros.
  - by rewrite lookup_insert_ne by (apply not_eq_sym, slot_path_proc).
  - by rewrite lookup_insert_ne by (apply not_eq_sym, whole_path_proc).
Qed.

(** A mount at the path of a slot that is not MOUNTED disturbs nobody. *)
Lemma SInv_insert_slot mx d m i p mi : parts d !! i = Some p → state p ≠ ANYFS_PART_MOUNTED →
  SInv mx d m → SInv mx d (<[slot_path d p := mi]> m).
Proof.
  intros Hp Hs H. eapply SInv_mnts; [..|exact H].
  - intros j q Hq Hq'. apply lookup_insert_ne. intros E.
    assert (i = j) as -> by (eapply slot_path_slot; [apply H|done..]). congruence.
  - intros _. apply lookup_insert_ne, slot_path_whole.
Qed.

Lemma SInv_insert_whole mx d m mi : whole_state d ≠ ANYFS_PART_MOUNTED →
  SInv mx d m → SInv mx d (<[whole_path d := mi]> m).
Proof.
  intros Hs H. eapply SInv_mnts; [..|exact H]; [|done].
  intros j q Hq Hq'. apply lookup_insert_ne, not_eq_sym, slot_path_whole.
Qed.

(** Changing the dynamic part of one slot. *)
Lemma static_upd d i f : (∀ p, static_slot (f p) = static_slot p) → static (upd_slot i f d) = static d.
Proof.
  intros Hf. unfold static, upd_slot. cbn. f_equal. apply list_eq. intros j. rewrite !list_lookup_fmap.
  destruct (decide (Z.to_nat i = j)) as [->|]; [rewrite list_lookup_alter_eq|by rewrite list_lookup_alter_ne].
  destruct (parts d !! j); simpl; [by rewrite Hf|done].
Qed.

Lemma lookup_upd d i f j : parts (upd_slot i f d) !! j =
  if decide (Z.to_nat i = j) then f <$> parts d !! j else parts d !! j.
Proof.
  unfold upd_slot. cbn. destruct (decide (Z.to_nat i = j)) as [->|];
    [apply list_lookup_alter_eq|by apply list_lookup_alter_ne].
Qed.

Lemma SInv_upd mx mx' d m i f :
  (∀ p, static_slot (f p) = static_slot p) → SInv mx d m →
  (∀ p, parts d !! i = Some p →
     (state (f p) = ANYFS_PART_MOUNTING → mx' = Z.of_nat i) ∧
     (state (f p) = ANYFS_PART_MOUNTED → kind p = ANYFS_PART_KIND_FS ∧ mounted_at d m (slot_path d p))) →
  (mx' = mx ∨ mx = Z.of_nat i ∨ mx = -2) →
  SInv mx' (upd_slot (Z.of_nat i) f d) m.
Proof.
  intros Hf H Hi Hmx. pose proof (static_upd d (Z.of_nat i) f Hf) as Es.
  assert (Ho : open_flags (upd_slot (Z.of_nat i) f d) = open_flags d) by done.
  split.
  - eapply table_ok_static; [exact Es|apply H].
  - intros j p Hp Hs. rewrite lookup_upd, Nat2Z.id in Hp. case_decide as Ed; subst.
    + destruct (parts d !! j) as [q|] eqn:Eq; simplify_eq/=. by apply (Hi q).
    + pose proof (inv_slot mx d m H j p Hp Hs). destruct Hmx as [->|[?|?]]; lia.
  - destruct (inv_whole mx d m H) as [Hw1 Hw2]. split; [done|]. intros Hw. apply Hw2 in Hw.
    destruct Hmx as [->|[?|?]]; lia.
  - intros j p Hp Hs. rewrite lookup_upd, Nat2Z.id in Hp. unfold mounted_at. rewrite Ho. case_decide as Ed; subst.
    + destruct (parts d !! j) as [q|] eqn:Eq; [|done]. injection Hp as <-.
      rewrite (slot_path_static d _ q (f q) Es) by done. destruct (Hi q eq_refl) as [_ Hq].
      pose proof (Hf q) as Hfq. injection Hfq as _ _ _ -> _. by apply Hq.
    + rewrite (slot_path_static d _ p p Es) by done. by apply (inv_mnt mx d m H j p).
  - intros Hw. unfold mounted_at. rewrite Ho, (whole_path_static d _ Es). by apply (inv_wmnt mx d m H).
Qed.

Lemma SInv_set_whole mx mx' d m x : SInv mx d m → x ≠ ANYFS_PART_FAILED →
  (x = ANYFS_PART_MOUNTING → mx' = -1) → (x = ANYFS_PART_MOUNTED → mounted_at d m (whole_path d)) →
  (mx' = mx ∨ mx = -1 ∨ mx = -2) →
  SInv mx' (set_whole x d) m.
Proof.
  intros H Hx H1 H2 Hmx. split; cbn.
  - eapply table_ok_static; [|apply H]. done.
  - intros i p Hp Hs. pose proof (inv_slot mx d m H i p Hp Hs). destruct Hmx as [->|[?|?]]; lia.
  - done.
  - intros i p Hp Hs. by apply (inv_mnt mx d m H i p).
  - intros Hs. by apply H2.
Qed.

Lemma SInv_delete_slot mx d m i p : parts d !! i = Some p → state p ≠ ANYFS_PART_MOUNTED →
  SInv mx d m → SInv mx d (delete (slot_path d p) m).
Proof.
  intros Hp Hs H. eapply SInv_mnts; [..|exact H].
  - intros j q Hq Hq'. apply lookup_delete_ne. intros E.
    assert (i = j) as -> by (eapply slot_path_slot; [apply H|done..]). congruence.
  - intros _. apply lookup_delete_ne, slot_path_whole.
Qed.

Lemma SInv_delete_whole mx d m : whole_state d ≠ ANYFS_PART_MOUNTED →
  SInv mx d m → SInv mx d (delete (whole_path d) m).
Proof.
  intros Hs H. eapply SInv_mnts; [..|exact H]; [|done].
  intros j q Hq Hq'. apply lookup_delete_ne, not_eq_sym, slot_path_whole.
Qed.

(** What an unmount keeps: everything that was not MOUNTED. *)
Definition frame (d d' : AnyfsSession) : Prop :=
  static d' = static d ∧
  (∀ i p, parts d !! i = Some p → state p ≠ ANYFS_PART_MOUNTED → parts d' !! i = Some p) ∧
  (whole_state d ≠ ANYFS_PART_MOUNTED → whole_state d' = whole_state d).

#[export] Instance frame_preorder : PreOrder frame.
Proof.
  split; [done|]. intros d1 d2 d3 (H1 & H2 & H3) (H4 & H5 & H6).
  split_and!; [congruence|auto|]. intros Hw. rewrite H6; [auto|]. rewrite H3; auto.
Qed.

Lemma find_slot_spec l i parent index : 0 <= i →
  (find_slot l i parent index = -1 ∧ ∀ p, p ∈ l → ¬ (parent_slot p = parent ∧ s_index p = index)) ∨
  (∃ k p, find_slot l i parent index = i + Z.of_nat k ∧ l !! k = Some p ∧
          parent_slot p = parent ∧ s_index p = index).
Proof.
  revert i. induction l as [|p l IH]; intros i Hi; cbn [find_slot].
  { left. split; [done|]. intros p Hp. by apply not_elem_of_nil in Hp. }
  destruct (Z.eqb_spec (parent_slot p) parent), (Z.eqb_spec (s_index p) index); cbn [andb].
  1: right; exists 0%nat, p; split_and!; [lia|done..].
  all: destruct (IH (i + 1) ltac:(lia)) as [[-> Hn]|(k & q & -> & Hq & Hr)];
    [left; split; [done|]; intros q [->|Hq]%elem_of_cons; [naive_solver|by apply Hn]
    |right; exists (S k), q; split_and!; [lia|done..|apply Hr|apply Hr]].
Qed.

Section Ops.
Context {W : Type} `{!Lkl W, !LklLaws W, !Host W, !HostLaws W, !Core W, !CoreLaws W}.
Implicit Types (d : AnyfsSession) (w : W).
Abbreviation St := (AnyfsSession * W)%type.

Lemma wp_ses (Q : AnyfsSession → St → Prop) s : wp ses Q s ↔ Q s.1 s.
Proof. done. Qed.
Lemma wp_upd f (Q : () → St → Prop) s : wp (upd f) Q s ↔ Q () (f s.1, s.2).
Proof. done. Qed.
Lemma wp_slot i p (Q : PartSlot → St → Prop) d w : parts d !! i = Some p → Q p (d, w) →
  wp (slot (Z.of_nat i)) Q (d, w).
Proof.
  intros Hp HQ. unfold slot. apply wp_bind, wp_ses. cbn [fst].
  destruct (Z.ltb_spec (Z.of_nat i) 0); [lia|]. rewrite Nat2Z.id. by eapply wp_opt.
Qed.

(** Lowered triples keep the session. *)
Lemma wp_low {A} (m : M W A) (P : A → W → Prop) (Q : A → St → Prop) d w :
  wp m P w → (∀ a w', P a w' → Q a (d, w')) → wp (lower m) Q (d, w).
Proof. intros Hm HQ. apply wp_lower. cbn. eapply wp_mono; [exact Hm|]. auto. Qed.

Lemma wp_low_quiet {A} (m : M W A) (Q : A → St → Prop) d w :
  (∀ (Q : A → W → Prop) w, (∀ r w', view w' = view w → Q r w') → wp m Q w) →
  (∀ a w', view w' = view w → Q a (d, w')) → wp (lower m) Q (d, w).
Proof. intros Hm HQ. apply wp_lower, Hm. cbn. auto. Qed.

Lemma wp_leave_whole mx d w : SInv mx d (mnts w) → mx ≠ -1 →
  wp (anyfs_session_leave 0) (λ rc s', SInv mx s'.1 (mnts s'.2) ∧ frame d s'.1 ∧
    (rc = 0 ∧ whole_state s'.1 = ANYFS_PART_NEW ∧ mnts s'.2 = delete (whole_path d) (mnts w) ∨
     rc < 0 ∧ s'.1 = d ∧ mnts s'.2 = mnts w)) (d, w).
Proof.
  intros H Hmx. unfold anyfs_session_leave. apply wp_bind, wp_ses. cbn [fst].
  change (0 =? 0) with true. cbn iota. apply wp_bind.
  eapply wp_low; [apply wp_umount_name|]. intros rc w1 (_ & _ & [[-> Hm]|[Hr Hm]]).
  - change (0 =? 0) with true. cbn iota. apply wp_bind. apply wp_low_quiet; [intros; by apply wp_unlink|].
    intros _ w2 H2. apply wp_bind, wp_upd, wp_ret. cbn [fst snd].
    rewrite whole_mnt_path in Hm by apply H. unfold mnts. rewrite H2. fold (mnts w1) in Hm |- *. fold (mnts w) in Hm.
    assert (Hw : whole_state d ≠ ANYFS_PART_MOUNTED → whole_state d = ANYFS_PART_NEW).
    { intros Hn. destruct (inv_whole _ _ _ H) as [H1 H3]. destruct (whole_state d); [done| |done..]. by destruct H3. }
    split_and!; [rewrite Hm|split_and!; [done|done|cbn; intros; symmetry; auto]|by left].
    change (whole_path d) with (whole_path (set_whole ANYFS_PART_NEW d)).
    apply SInv_delete_whole; [done|]. eapply SInv_set_whole; [exact H|done..|by left].
  - destruct (Z.eqb_spec rc 0); [lia|]. apply wp_ret. cbn. unfold mnts in *. rewrite Hm.
    split_and!; [done|done|by right].
Qed.

(** The first slot with the number, or none. *)
Lemma find_cases d parent part :
  (find_slot_by_pair_locked d parent part = -1 ∧
     ∀ i p, parts d !! i = Some p → ¬ (parent_slot p = parent ∧ s_index p = part)) ∨
  (∃ i p, find_slot_by_pair_locked d parent part = Z.of_nat i ∧ parts d !! i = Some p ∧
          parent_slot p = parent ∧ s_index p = part).
Proof.
  unfold find_slot_by_pair_locked.
  destruct (find_slot_spec (parts d) 0 parent part) as [[-> Hn]|(k & p & -> & ? & ? & ?)]; [lia| |].
  - left. split; [done|]. intros i p Hp. apply Hn. by eapply list_elem_of_lookup_2.
  - right. exists k, p. split_and!; [lia|done..].
Qed.

Lemma wp_leave_part mx d w part : SInv mx d (mnts w) → part ≠ 0 →
  wp (anyfs_session_leave part) (λ rc s', SInv mx s'.1 (mnts s'.2) ∧ frame d s'.1 ∧
    (rc = 0 ∧ (∃ i p, parts d !! i = Some p ∧ parent_slot p = ROOT_PARENT ∧ s_index p = part ∧
                 state p = ANYFS_PART_MOUNTED ∧ s'.1 = upd_slot (Z.of_nat i) (set_state ANYFS_PART_NEW) d ∧
                 mnts s'.2 = delete (slot_path d p) (mnts w)) ∨
     rc < 0 ∧ s'.1 = d ∧ mnts s'.2 = mnts w)) (d, w).
Proof.
  intros H Hp0. unfold anyfs_session_leave. apply wp_bind, wp_ses. cbn [fst].
  destruct (Z.eqb_spec part 0); [done|].
  destruct (find_cases d ROOT_PARENT part) as [[-> _]|(i & p & -> & Hp & Hpar & Hidx)].
  { cbn. split_and!; [done|done|]. by right. }
  destruct (Z.ltb_spec (Z.of_nat i) 0); [lia|]. apply wp_bind. eapply wp_slot; [done|].
  unfold is_state. case_bool_decide as Hs; cbn [negb orb]; [|cbn; split_and!; [done|done|by right]].
  destruct (inv_mnt _ _ _ H i p Hp Hs) as [Hk _].
  unfold is_fs. rewrite bool_decide_true by done. cbn [negb].
  assert (Hr : slot_range p) by (eapply ok_range; [apply H|done]).
  replace (snprintf 64 (bs "anyfs_d" ++ fmt_d (disk_id d) ++ bs "_p" ++ fmt_u part)).2 with (slot_name d p)
    by (unfold slot_name; rewrite Hpar, Hidx; done).
  apply wp_bind. eapply wp_low; [apply wp_umount_name|]. intros rc w1 (_ & _ & [[-> Hm]|[Hrc Hm]]).
  - change (0 =? 0) with true. cbn iota. apply wp_bind, wp_upd, wp_ret. cbn [fst snd].
    rewrite slot_mnt_path in Hm by (done || apply H). unfold mnts. rewrite Hm. fold (mnts w).
    set (d' := upd_slot _ _ d). assert (Es : static d' = static d) by by apply static_upd.
    assert (Hp' : parts d' !! i = Some (set_state ANYFS_PART_NEW p)).
    { subst d'. rewrite lookup_upd, Nat2Z.id, decide_True, Hp by done. done. }
    split_and!.
    + rewrite <- (slot_path_static d d' p (set_state ANYFS_PART_NEW p) Es eq_refl).
      eapply SInv_delete_slot; [exact Hp'|done|]. eapply SInv_upd; [done|exact H| |by left]. done.
    + split_and!; [done| |done]. intros j q Hq Hq'. subst d'. rewrite lookup_upd, Nat2Z.id.
      case_decide; subst; [congruence|done].
    + left. split; [done|]. by exists i, p.
  - destruct (Z.eqb_spec rc 0); [lia|]. apply wp_bind, wp_ret, wp_ret. cbn. unfold mnts in *. rewrite Hm.
    split_and!; [done|done|by right].
Qed.
Lemma wp_release_loop mx idx d w : SInv mx d (mnts w) →
  wp (release_loop idx) (λ _ s', SInv mx s'.1 (mnts s'.2) ∧ frame d s'.1) (d, w).
Proof.
  revert d w. induction idx as [|i idx IH]; intros d w H; [done|]. cbn [release_loop].
  apply wp_bind, wp_ses. cbn [fst]. destruct (parts d !! i) as [p|] eqn:Hp; [|done]. apply wp_bind.
  apply (wp_mono _ (λ _ s', SInv mx s'.1 (mnts s'.2) ∧ frame d s'.1)).
  { destruct (_ && _ && _) eqn:E; [|done]. zify_bools. apply wp_bind.
    wp_use wp_leave_part; [done|by apply (ok_slot d (inv_table _ _ _ H) i p Hp)|]. intros rc s' (Hi & Hf & _). done. }
  intros _ [d1 w1] [H1 H2]. cbn [fst snd] in *. wp_use IH; [done|]. intros _ s' [H3 H4].
  split; [done|]. by etrans.
Qed.

Lemma wp_release mx part d w : SInv mx d (mnts w) → (part ≠ 0 → mx ≠ -1) →
  wp (release_conflicts part) (λ _ s', SInv mx s'.1 (mnts s'.2) ∧ frame d s'.1) (d, w).
Proof.
  intros H Hmx. unfold release_conflicts. apply wp_bind, wp_ses. cbn [fst].
  destruct (Z.eqb_spec part 0); cbn [negb]; [by apply wp_release_loop|].
  case_bool_decide; [|done]. apply wp_bind. wp_use wp_leave_whole; [done|auto|]. by intros rc s' (Hi & Hf & _).
Qed.

(** A mount attempt seen from the mount table. *)
Definition attempt (path : bytes) (ro : bool) (m : gmap bytes MountInfo) (r : Z * option AnyfsMount)
    (m' : gmap bytes MountInfo) : Prop :=
  ∃ m0, with_proc m m0 ∧
    match r.2 with
    | Some mm => r.1 = 0 ∧ mount_point mm = path ∧ ∃ mi, m' = <[path := mi]> m0 ∧ mi_ro mi = ro
    | None => r.1 < 0 ∧ m' = m0
    end.

Lemma attempt_post w dev fsty mnt flags r w' : len mnt < 64 →
  mount_post w dev fsty mnt flags r w' → attempt mnt (flag flags ANYFS_MOUNT_RDONLY) (mnts w) r (mnts w').
Proof.
  intros Hl (_ & m0 & Hp & Hr). exists m0. split; [done|]. destruct (r.2) as [mm|]; [|done].
  destruct Hr as (-> & -> & _ & fs & _ & _ & Hm). split_and!; [done|by apply strncpy_fits|].
  exists (mount_rec dev fs flags). split; [done|]. done.
Qed.

Lemma with_proc_trans m1 m2 m3 : with_proc m1 m2 → with_proc m2 m3 → with_proc m1 m3.
Proof.
  intros [->| ->] [->| ->]; [by left|by right|by right|right]. apply insert_insert_eq.
Qed.

(** At most 51 attempts: fifty sleeps of 10 ms use up the budget. *)
Lemma wp_mount_retry path ro fuel mount part k d w :
  (∀ w, wp mount (λ r w', attempt path ro (mnts w) r (mnts w')) w) →
  0 <= k <= 50 → 51 - k <= Z.of_nat fuel →
  wp (mount_retry fuel mount part (10 * k)) (λ r s', s'.1 = d ∧ attempt path ro (mnts w) r (mnts s'.2)) (d, w).
Proof.
  intros Hm. revert k w. induction fuel as [|f IH]; intros k w Hk Hf; [lia|]. cbn [mount_retry].
  apply wp_bind. eapply wp_low; [apply Hm|]. intros r w1 Ha. cbn beta in Ha.
  destruct (Z.eqb_spec r.1 (- LKL_EBUSY)) as [Er|]; [|done]. apply wp_bind. unfold busy_is_transient.
  unfold BUSY_RETRY_TOTAL_MS. destruct (Z.leb_spec 500 (10 * k)); [done|].
  apply wp_bind, wp_ses. cbn [fst]. destruct (conflict_mounted_locked d part); [done|].
  apply wp_bind, wp_low_quiet; [intros; by apply wp_nanosleep|]. intros _ w2 H2. apply wp_ret. cbn [fst snd].
  unfold BUSY_RETRY_STEP_MS. replace (10 * k + 10) with (10 * (k + 1)) by lia.
  wp_use IH; [lia..|]. intros r' s' [-> (m0 & Hp & Hr)]. split; [done|].
  destruct Ha as (m1 & Hp1 & Ha). destruct (r.2) as [mm|]; [destruct Ha as [Ha _]; unfold LKL_EBUSY in *; lia|].
  destruct Ha as [_ Ha]. exists m0. split; [|done]. eapply with_proc_trans; [exact Hp1|].
  unfold mnts in *. rewrite H2, Ha in Hp. done.
Qed.

(** The mount of slot [i], asked for while it is MOUNTING. *)
Lemma wp_mount_slot d i p flags w : table_ok d → parts d !! i = Some p → 
  let d1 := upd_slot (Z.of_nat i) (set_state ANYFS_PART_MOUNTING) d in
  SInv (Z.of_nat i) d1 (mnts w) →
  wp (mount_slot d p flags) (λ r s', ∃ m2, SInv (Z.of_nat i) s'.1 m2 ∧ frame d1 s'.1 ∧
    attempt (slot_path d p) (flag (mflags_fs d flags) ANYFS_MOUNT_RDONLY) m2 r (mnts s'.2)) (d1, w).
Proof.
  intros Hok Hp d1 H. assert (Hr : slot_range p) by by eapply ok_range. assert (Hd : disk_range d) by apply Hok.
  pose proof (slot_path_len d p Hd Hr) as Hl. unfold mount_slot. destruct (parent_slot p =? ROOT_PARENT).
  - apply wp_bind. apply (wp_mono _ (λ _ s', SInv (Z.of_nat i) s'.1 (mnts s'.2) ∧ frame d1 s'.1)).
    { destruct (flag flags ANYFS_MOUNT_REPLACE); [|done]. apply wp_release; [done|lia]. }
    intros _ [d2 w2] [H2 Hf]. cbn [fst snd] in *.
    wp_use (wp_mount_retry (slot_path d p) (flag (mflags_fs d flags) ANYFS_MOUNT_RDONLY) RETRY_FUEL _ _ 0); [|lia|done|].
    + intros w3. wp_use wp_anyfs_mount. intros r w4 [dev Hm]. rewrite slot_mnt_path in Hm by done.
      by apply attempt_post in Hm.
    + intros r s' [-> Ha]. exists (mnts w2). done.
  - eapply wp_low; [apply wp_mount_via_devpath|]. intros r w2 Hm. rewrite slot_mnt_path in Hm by done.
    apply attempt_post in Hm; [|done]. exists (mnts w). done.
Qed.
(** What entering a filesystem slot guarantees. *)
Definition entered d (i : nat) (p : PartSlot) (flags : Z) (r : Z * bytes) d' (m' : gmap bytes MountInfo) : Prop :=
  SInv (-2) d' m' ∧ static d' = static d ∧
  ∃ p', parts d' !! i = Some p' ∧
    match state p with
    | ANYFS_PART_MOUNTED => r = (0, slot_path d p) ∧ d' = d
    | ANYFS_PART_FAILED => r = (-3, []) ∧ d' = d
    | _ =>
        (r = (0, slot_path d p) ∧ state p' = ANYFS_PART_MOUNTED ∧
           ∃ mi, m' !! slot_path d p = Some mi ∧
             mi_ro mi = flag (open_flags d) ANYFS_SESSION_READONLY || flag flags ANYFS_MOUNT_RDONLY) ∨
        (r = (- LKL_EBUSY, []) ∧ state p' = ANYFS_PART_NEW) ∨
        (r.1 < 0 ∧ r.1 ≠ - LKL_EBUSY ∧ r.2 = [] ∧ state p' = ANYFS_PART_FAILED ∧ is_Some (fail_reason p'))
    end.

(** The commit at the end of an enter: slot [i] leaves MOUNTING. *)
Lemma commit_slot d d2 m2 i p f :
  frame (upd_slot (Z.of_nat i) (set_state ANYFS_PART_MOUNTING) d) d2 → parts d !! i = Some p →
  (∀ q, static_slot (f q) = static_slot q) → state (f (set_state ANYFS_PART_MOUNTING p)) ≠ ANYFS_PART_MOUNTING →
  (state (f (set_state ANYFS_PART_MOUNTING p)) = ANYFS_PART_MOUNTED →
     kind p = ANYFS_PART_KIND_FS ∧ mounted_at d m2 (slot_path d p)) →
  SInv (Z.of_nat i) d2 m2 →
  SInv (-2) (upd_slot (Z.of_nat i) f d2) m2 ∧ static (upd_slot (Z.of_nat i) f d2) = static d ∧
  parts (upd_slot (Z.of_nat i) f d2) !! i = Some (f (set_state ANYFS_PART_MOUNTING p)).
Proof.
  intros (Es & Hk & _) Hp Hf Hn Hm H. rewrite static_upd in Es by done.
  assert (Hp2 : parts d2 !! i = Some (set_state ANYFS_PART_MOUNTING p)).
  { apply Hk; [|done]. by rewrite lookup_upd, Nat2Z.id, decide_True, Hp by done. }
  split_and!.
  - eapply SInv_upd; [done|exact H| |by right; left]. intros q Hq. rewrite Hp2 in Hq. injection Hq as <-.
    split; [done|]. intros Hs. destruct (Hm Hs) as [? (mi & ? & ?)]. split; [done|].
    rewrite (slot_path_static d d2 p) by done. exists mi. split; [done|].
    by injection Es as _ -> _.
  - by rewrite static_upd.
  - by rewrite lookup_upd, Nat2Z.id, decide_True, Hp2 by done.
Qed.

Lemma wp_enter_fs d i p flags w : SInv (-2) d (mnts w) → parts d !! i = Some p → kind p = ANYFS_PART_KIND_FS →
  wp (enter_fs_slot (Z.of_nat i) flags) (λ r s', entered d i p flags r s'.1 (mnts s'.2)) (d, w).
Proof.
  intros H Hp Hk. pose proof (inv_table _ _ _ H) as Hok. assert (Hr : slot_range p) by by eapply ok_range.
  assert (Hd : disk_range d) by apply Hok. pose proof (slot_path_len d p Hd Hr) as Hl.
  unfold enter_fs_slot. apply wp_bind, wp_ses, wp_bind. eapply wp_slot; [done|]. cbn [fst].
  unfold entered. destruct (state p) eqn:Hs.
  2:{ pose proof (inv_slot _ _ _ H i p Hp Hs). lia. }
  2:{ apply wp_ret. split_and!; [done..|]. exists p. split; [done|]. split; [|done]. f_equal.
      rewrite slot_name_eq by done. by apply snprintf_fits. }
  2:{ apply wp_ret. split_and!; [done..|]. by exists p. }
  set (d1 := upd_slot (Z.of_nat i) (set_state ANYFS_PART_MOUNTING) d).
  assert (H1 : SInv (Z.of_nat i) d1 (mnts w)) by (eapply SInv_upd; [done|exact H|done|by right; right]).
  apply wp_bind, wp_upd, wp_bind. cbn [fst snd]. wp_use wp_mount_slot; [done..|].
  intros [rc mnt] [d2 w2] (m2 & H2 & Hf & m0 & Hproc & Ha). cbn [fst snd] in *.
  assert (Es : static d2 = static d) by (destruct Hf as [-> _]; by apply static_upd).
  apply (SInv_with_proc _ _ _ _ Hproc) in H2. destruct mnt as [mm|].
  - destruct Ha as (-> & Hmp & mi & Hm & Hro). change (0 =? 0) with true. cbn iota.
    apply wp_bind, wp_ret, wp_bind, wp_upd, wp_ret. cbn [fst snd].
    assert (H2' : SInv (Z.of_nat i) d2 (mnts w2)).
    { rewrite Hm, <- (slot_path_static d d2 p (set_state ANYFS_PART_MOUNTING p)) by done.
      eapply SInv_insert_slot; [|done|done]. apply Hf; [|done].
      by rewrite lookup_upd, Nat2Z.id, decide_True, Hp by done. }
    edestruct (commit_slot d d2 (mnts w2) i p) as (Ha & Hb & Hc); [exact Hf|done| | | |exact H2'|];
      [| |  |split_and!; [exact Ha|exact Hb|]]; [done|done| |].
    + intros _. split; [done|]. exists mi. rewrite Hm, lookup_insert_eq. split; [done|].
      intros Hro'. by rewrite Hro, mflags_fs_ro, Hro'.
    + eexists. split; [exact Hc|]. left. split_and!; [|done|].
      * f_equal. by rewrite Hmp, snprintf_fits.
      * exists mi. by rewrite Hm, lookup_insert_eq, Hro, mflags_fs_ro.
  - destruct Ha as [Hneg Hm]. rewrite <- Hm in H2. destruct (Z.eqb_spec rc 0); [lia|].
    destruct (Z.eqb_spec rc (- LKL_EBUSY)) as [->|Hnb]; apply wp_bind, wp_upd, wp_ret; cbn [fst snd].
    + edestruct (commit_slot d d2 (mnts w2) i p (set_state ANYFS_PART_NEW)) as (Ha & Hb & Hc); [exact Hf|done..|exact H2|].
      split_and!; [exact Ha|exact Hb|]. eexists. split; [exact Hc|]. right. left. done.
    + edestruct (commit_slot d d2 (mnts w2) i p (set_fail (snprintf 64 (bs "mount failed (rc=" ++ fmt_d rc ++ bs ")")).2)) as (Ha & Hb & Hc);
        [exact Hf|done..|exact H2|].
      split_and!; [exact Ha|exact Hb|]. eexists. split; [exact Hc|]. right. right. split_and!; [done..|by eexists].
Qed.
Lemma wp_ensure_dev (Q : Z → W → Prop) w : (∀ r w', view w' = view w → Q r w') → wp ensure_dev Q w.
Proof.
  intros HQ. unfold ensure_dev. apply wp_bind, wp_access. intros a w1 H1.
  destruct (a <? 0); [apply wp_mkdir; intros r w2 H2|apply wp_ret]; apply HQ; congruence.
Qed.

(** What entering the whole disk guarantees. *)
Definition entered_whole d (flags : Z) (r : Z * bytes) d' (m' : gmap bytes MountInfo) : Prop :=
  SInv (-2) d' m' ∧ static d' = static d ∧
  ((r = (-4, []) ∧ whole_dev d = 0 ∧ d' = d) ∨
   (r = (0, whole_path d) ∧ whole_state d = ANYFS_PART_MOUNTED ∧ d' = d) ∨
   (r = (0, whole_path d) ∧ whole_state d' = ANYFS_PART_MOUNTED ∧
      ∃ mi, m' !! whole_path d = Some mi ∧
        mi_ro mi = flag (open_flags d) ANYFS_SESSION_READONLY || flag flags ANYFS_MOUNT_RDONLY) ∨
   (r.1 < 0 ∧ r.2 = [] ∧ whole_state d' = ANYFS_PART_NEW)).

Lemma wp_enter_whole d flags w : SInv (-2) d (mnts w) →
  wp (enter_whole flags) (λ r s', entered_whole d flags r s'.1 (mnts s'.2)) (d, w).
Proof.
  intros H. assert (Hd : disk_range d) by apply H. pose proof (whole_path_len d Hd) as Hl.
  unfold enter_whole. apply wp_bind, wp_ses. cbn [fst]. unfold entered_whole.
  destruct (Z.eqb_spec (whole_dev d) 0); [apply wp_ret; split_and!; [done|done|by left]|].
  destruct (inv_whole _ _ _ H) as [Hw1 Hw2]. destruct (whole_state d) eqn:Hs; [|by specialize (Hw2 eq_refl)| |done].
  2:{ apply wp_ret. split_and!; [done|done|]. right. left. split; [|done]. f_equal.
      change (snprintf ANYFS_LKL_PATH_MAX (bs "/lklmnt/anyfs_d" ++ fmt_d (disk_id d) ++ bs "_whole")).2
        with (snprintf 64 (whole_path d)).2. by apply snprintf_fits. }
  set (d1 := set_whole ANYFS_PART_MOUNTING d).
  assert (H1 : SInv (-1) d1 (mnts w)) by (eapply SInv_set_whole; [exact H|done..|by right; right]).
  apply wp_bind, wp_upd, wp_bind. cbn [fst snd]. fold d1.
  apply (wp_mono _ (λ _ s', SInv (-1) s'.1 (mnts s'.2) ∧ frame d1 s'.1)).
  { destruct (flag flags ANYFS_MOUNT_REPLACE); [|done]. apply wp_release; done. }
  intros _ [d2 w2] [H2 Hf]. cbn [fst snd] in *.
  assert (Es : static d2 = static d) by (by destruct Hf as [-> _]).
  assert (Hs2 : whole_state d2 = ANYFS_PART_MOUNTING) by (by apply Hf).
  apply wp_bind, wp_low_quiet; [intros; by apply wp_ensure_dev|]. intros _ w3 Hv3.
  apply wp_bind, wp_low_quiet; [intros; by apply wp_mknod|]. intros _ w4 Hv4. apply wp_bind.
  wp_use (wp_mount_retry (whole_path d) (flag (mflags_whole d flags) ANYFS_MOUNT_RDONLY) RETRY_FUEL _ _ 0); [|lia|done|].
  { intros w5. wp_use wp_mount_via_devpath. intros r w6 Hm. rewrite whole_mnt_path in Hm by done.
    by apply attempt_post in Hm. }
  intros [rc mnt] [d5 w5] (Ed & m0 & Hproc & Ha). cbn [fst snd] in *. subst d5.
  assert (Hmn : mnts w4 = mnts w2) by (unfold mnts; congruence). rewrite Hmn in Hproc.
  apply (SInv_with_proc _ _ _ _ Hproc) in H2. destruct mnt as [mm|].
  - destruct Ha as (-> & Hmp & mi & Hm & Hro). change (0 =? 0) with true. change (0 <? 0) with false. cbn iota.
    apply wp_bind, wp_upd, wp_bind, wp_ret, wp_ret. cbn [fst snd].
    assert (H2' : SInv (-1) d2 (mnts w5)).
    { rewrite Hm, <- (whole_path_static d d2 Es). apply SInv_insert_whole; [congruence|done]. }
    split_and!; [eapply SInv_set_whole; [exact H2'|done|done| |by right; left]|done|].
    + intros _. rewrite (whole_path_static d d2 Es). exists mi. rewrite Hm, lookup_insert_eq. split; [done|].
      injection Es as _ -> _. intros Hro'. by rewrite Hro, mflags_whole_ro, Hro'.
    + right. right. left. split_and!; [|done|].
      * f_equal. rewrite Hmp. by apply snprintf_fits.
      * exists mi. by rewrite Hm, lookup_insert_eq, Hro, mflags_whole_ro.
  - destruct Ha as [Hneg Hm]. rewrite <- Hm in H2. destruct (Z.eqb_spec rc 0), (Z.ltb_spec rc 0); try lia.
    apply wp_bind, wp_upd, wp_bind, wp_low_quiet; [intros; by apply wp_unlink|]. intros _ w6 Hv6. apply wp_ret.
    cbn [fst snd]. unfold mnts. rewrite Hv6. fold (mnts w5).
    split_and!; [eapply SInv_set_whole; [exact H2|done..|by right; left]|done|]. right. right. right. done.
Qed.

(** ** Containers *)

Lemma cred_loop_total fuel c cap q : (length q < fuel)%nat → ∃ r, cred_loop fuel c cap q = Some r.
Proof.
  revert q. induction fuel as [|f IH]; intros q Hf; [lia|]. cbn [cred_loop]. destruct q as [|x q]; [by eexists|].
  assert (∃ kv amp, match strchr 38 (x :: q) with Some (a, b) => (a, Some b) | None => (x :: q, None) end = (kv, amp) ∧
    ∃ r, match amp with Some b => cred_loop f c cap b | None => Some (0, []) end = Some r) as (kv & amp & -> & nx & En).
  { destruct (strchr 38 (x :: q)) as [[a b]|] eqn:E; do 2 eexists; (split; [done|]); [|by eexists].
    apply IH. apply strchr_Some in E as [E _]. apply (f_equal length) in E. rewrite length_app in E. simpl in *. lia. }
  rewrite En. destruct (strchr 61 kv) as [[k v]|]; [|by eexists].
  repeat (case_match; try by eexists).
Qed.

(** What trying to bring up a container guarantees: it always fails, for
    good, unless it was mounted as a plain filesystem before. *)
Definition entered_container d (i : nat) (p : PartSlot) (rc : Z) d' : Prop :=
  static d' = static d ∧ ∃ p', parts d' !! i = Some p' ∧
  match state p with
  | ANYFS_PART_MOUNTED => rc = 0 ∧ d' = d
  | ANYFS_PART_FAILED => rc = -3 ∧ d' = d
  | _ => rc < 0 ∧ state p' = ANYFS_PART_FAILED ∧ is_Some (fail_reason p')
  end.

Lemma wp_enter_container c d i p query flags w : SInv (-2) d (mnts w) → parts d !! i = Some p →
  wp (enter_container_slot c (Z.of_nat i) query flags) (λ rc s', SInv (-2) s'.1 (mnts s'.2) ∧
    entered_container d i p rc s'.1 ∧ s'.2 = w) (d, w).
Proof.
  intros H Hp. unfold enter_container_slot. apply wp_bind. eapply wp_slot; [done|]. unfold entered_container.
  destruct (state p) eqn:Hs.
  2:{ pose proof (inv_slot _ _ _ H i p Hp Hs). lia. }
  2,3: apply wp_ret; (split_and!; [done|done| |done]); by exists p.
  apply wp_bind, wp_upd, wp_bind. cbn [fst snd]. set (d1 := upd_slot _ _ d).
  assert (H1 : SInv (Z.of_nat i) d1 (mnts w)) by (eapply SInv_upd; [done|exact H|done|by right; right]).
  assert (container_rc (kind p) < 0) by (by destruct (kind p)).
  apply (wp_mono _ (λ _ s', s' = (d1, w))).
  { destruct (kind p); [done|done| |done|done]. apply wp_bind. unfold resolve_luks_credential.
    assert (∃ k, match query with None | Some [] => Some (0, []) | Some q =>
      if negb (c_dup c) then Some (-1, bs "out of memory") else cred_loop (S (length q)) c 128 q end = Some k) as [k Ek].
    { destruct query as [[|x q]|]; [by eexists| |by eexists]. destruct (c_dup c); [apply cred_loop_total; lia|by eexists]. }
    by eapply wp_opt. }
  intros buf s' ->. apply wp_bind, wp_upd, wp_ret. cbn [fst snd].
  destruct (commit_slot d d1 (mnts w) i p (set_fail buf)) as (Ha & Hb & Hc); [done..|].
  split_and!; [exact Ha|exact Hb| |done]. eexists. split; [exact Hc|]. split_and!; [done|done|by eexists].
Qed.
(** ** The public operations *)

Lemma wp_enter c part flags d w : SInv (-2) d (mnts w) → part ≠ 0 →
  wp (anyfs_session_enter c part flags) (λ r s',
    SInv (-2) s'.1 (mnts s'.2) ∧ static s'.1 = static d ∧
    ((r = (-2, []) ∧ s' = (d, w) ∧
        ∀ i p, parts d !! i = Some p → ¬ (parent_slot p = ROOT_PARENT ∧ s_index p = part)) ∨
     ∃ i p, parts d !! i = Some p ∧ parent_slot p = ROOT_PARENT ∧ s_index p = part ∧
       if is_fs (kind p) then entered d i p flags r s'.1 (mnts s'.2)
       else entered_container d i p r.1 s'.1 ∧ r.2 = [] ∧ s'.2 = w)) (d, w).
Proof.
  intros H H0. unfold anyfs_session_enter. destruct (Z.eqb_spec part 0); [done|].
  apply wp_bind, wp_ses. cbn [fst].
  destruct (find_cases d ROOT_PARENT part) as [[-> Hn]|(i & p & -> & Hp & Hpar & Hidx)].
  { apply wp_ret. split_and!; [done|done|by left]. }
  destruct (Z.ltb_spec (Z.of_nat i) 0); [lia|]. apply wp_bind. eapply wp_slot; [done|].
  destruct (is_fs (kind p)) eqn:Ek.
  - wp_use wp_enter_fs; [done|done|by apply bool_decide_eq_true in Ek|]. intros r s' He.
    split_and!; [apply He|apply He|]. right. exists i, p. by rewrite Ek.
  - apply wp_bind. wp_use wp_enter_container; [done..|]. intros rc s' (Hi & He & Hw). apply wp_ret.
    split_and!; [done|apply He|]. right. exists i, p. by rewrite Ek.
Qed.

(** A walk that returns 0 ends on a mounted filesystem and its path. *)
Definition walked d (r : Z * Z * bytes) (s' : St) : Prop :=
  SInv (-2) s'.1 (mnts s'.2) ∧ static s'.1 = static d ∧ r.1.1 <= 0 ∧
  (r.1.1 = 0 → ∃ i p, r.1.2 = Z.of_nat i ∧ parts s'.1 !! i = Some p ∧ state p = ANYFS_PART_MOUNTED ∧
     kind p = ANYFS_PART_KIND_FS ∧ r.2 = slot_path d p).

Lemma entered_zero d i p flags r d' m' : parts d !! i = Some p →
  entered d i p flags r d' m' →
  r.1 <= 0 ∧ (r.1 = 0 → ∃ p', parts d' !! i = Some p' ∧ state p' = ANYFS_PART_MOUNTED ∧
    static_slot p' = static_slot p ∧ r.2 = slot_path d p).
Proof.
  intros Hp (_ & Es & p' & Hp' & Hc). destruct (static_lookup d d' i p Es Hp) as (q & Hq & Hs).
  rewrite Hp' in Hq. injection Hq as <-.
  destruct (state p) eqn:E.
  3:{ destruct Hc as [-> ->]. split; [done|]. intros _. exists p'. rewrite Hp in Hp'. injection Hp' as ->. done. }
  3:{ destruct Hc as [-> _]. cbn. split; [lia|]. lia. }
  all: destruct Hc as [(-> & Hst & _)|[[-> _]|(Hr & _)]];
    [cbn; split; [lia|]; intros _; by exists p'|cbn; unfold LKL_EBUSY; split; lia|split; lia].
Qed.

Lemma wp_walk_comps c parent comp flags d w : SInv (-2) d (mnts w) →
  wp (walk_comps c parent comp flags) (walked d) (d, w).
Proof.
  revert parent d w. induction comp as [|x rest IH]; intros parent d w H; [done|].
  cbn [walk_comps]. apply wp_bind, wp_ses. cbn [fst].
  destruct (find_cases d parent (Path.p x)) as [[-> _]|(i & p & -> & Hp & _)]; [done|].
  destruct (Z.ltb_spec (Z.of_nat i) 0); [lia|].
  destruct rest as [|y rest].
  - apply wp_bind. eapply wp_slot; [done|]. destruct (is_fs (kind p)) eqn:Ek; apply wp_bind.
    + apply bool_decide_eq_true in Ek. wp_use wp_enter_fs; [done..|]. intros r s' He. apply wp_ret.
      destruct (entered_zero _ _ _ _ _ _ _ Hp He) as [Hr Hz].
      split_and!; [apply He|apply He|done|]. cbn [fst snd]. intros E.
      destruct (Hz E) as (p' & Hp' & Hs & Hst & ->). exists i, p'.
      pose proof Hst as Hst'. injection Hst' as _ _ _ -> _.
      split_and!; [done..|]. symmetry. by apply slot_path_static.
    + wp_use wp_enter_container; [done..|]. intros rc s' (Hi & (Es & p' & Hp' & Hc) & Hw). apply wp_ret.
      split_and!; [done|done|..]; cbn [fst snd].
      * destruct (state p); naive_solver lia.
      * intros ->. destruct (state p) eqn:Est; [naive_solver lia..| |naive_solver lia].
        destruct (inv_mnt _ _ _ H i p Hp Est) as [Hk _]. unfold is_fs in Ek. by rewrite bool_decide_true in Ek.
  - apply wp_bind. wp_use wp_enter_container; [done..|]. intros rc [d1 w1] (Hi & (Es & _) & Hw). cbn [fst snd] in *.
    destruct (Z.ltb_spec rc 0).
    + apply wp_ret. split_and!; [done|done|cbn; lia|cbn; lia].
    + wp_use IH; [done|]. intros r s' (Ha & Hb & Hc & Hz). split_and!; [done|congruence|done|].
      intros E. destruct (Hz E) as (j & q & ? & ? & ? & ? & ->). exists j, q. split_and!; [done..|].
      by apply slot_path_static.
Qed.

Lemma wp_walk c comp flags d w : SInv (-2) d (mnts w) → wp (anyfs_session_walk c comp flags) (walked d) (d, w).
Proof. intros H. unfold anyfs_session_walk. destruct (_ =? 0); [done|]. by apply wp_walk_comps. Qed.

Lemma wp_enter_path c comp flags d w : SInv (-2) d (mnts w) →
  wp (anyfs_session_enter_path c comp flags) (λ r s',
    SInv (-2) s'.1 (mnts s'.2) ∧ static s'.1 = static d ∧ r.1 <= 0 ∧
    (r.1 = 0 → ∃ i p, parts s'.1 !! i = Some p ∧ state p = ANYFS_PART_MOUNTED ∧ r.2 = slot_path d p)) (d, w).
Proof.
  intros H. unfold anyfs_session_enter_path. destruct (_ =? 0); [done|]. apply wp_bind.
  wp_use wp_walk; [done|]. intros [[rc leaf] path] [d1 w1] (H1 & H2 & H3 & H4). cbn [fst snd] in *.
  destruct (Z.ltb_spec rc 0); [apply wp_ret; split_and!; [done|done|cbn; lia|cbn; lia]|].
  destruct H4 as (i & p & -> & Hp & Hs & Hk & ->); [lia|].
  destruct (Z.ltb_spec (Z.of_nat i) 0); [lia|]. apply wp_bind. eapply wp_slot; [done|].
  unfold is_fs. rewrite bool_decide_true by done. cbn [negb]. apply wp_ret. split_and!; [done..|].
  intros _. by exists i, p.
Qed.
(** Slots already in their final state answer from the table alone. *)
Lemma enter_cached c part flags d w i p : table_ok d → parts d !! i = Some p →
  parent_slot p = ROOT_PARENT → s_index p = part → kind p = ANYFS_PART_KIND_FS →
  (state p = ANYFS_PART_MOUNTED → anyfs_session_enter c part flags (d, w) = Some ((0, slot_path d p), (d, w))) ∧
  (state p = ANYFS_PART_FAILED → anyfs_session_enter c part flags (d, w) = Some ((-3, []), (d, w))).
Proof.
  intros Hok Hp Hpar Hidx Hk. assert (Hr : slot_range p) by by eapply ok_range.
  assert (part ≠ 0) by (intros E; apply (ok_slot d Hok i p Hp); [done|congruence]).
  assert (Hf : find_slot_by_pair_locked d ROOT_PARENT part = Z.of_nat i).
  { destruct (find_cases d ROOT_PARENT part) as [[_ Hn]|(j & q & -> & Hq & ? & ?)]; [by destruct (Hn i p Hp)|].
    f_equal. eapply (ok_pair d Hok); [done..|congruence|congruence]. }
  assert (Hs : slot (Z.of_nat i) (d, w) = Some (p, (d, w))).
  { unfold slot, mbind, M_bind, ses, mgets, mopt. cbn [fst]. destruct (Z.ltb_spec (Z.of_nat i) 0); [lia|].
    by rewrite Nat2Z.id, Hp. }
  assert (E : anyfs_session_enter c part flags (d, w) = enter_fs_slot (Z.of_nat i) flags (d, w)).
  { unfold anyfs_session_enter. destruct (Z.eqb_spec part 0); [done|]. unfold mbind, M_bind, ses, mgets.
    cbn [fst]. rewrite Hf. destruct (Z.ltb_spec (Z.of_nat i) 0); [lia|]. rewrite Hs.
    unfold is_fs. by rewrite bool_decide_true by done. }
  rewrite E. clear E. unfold enter_fs_slot, mbind, M_bind, ses, mgets. rewrite !Hs. cbn [fst].
  destruct (state p); (split; [try done|try done]). intros _. unfold mret, M_ret. do 3 f_equal.
  rewrite slot_name_eq by (done || apply Hok). apply snprintf_fits. by apply slot_path_len; [apply Hok|].
Qed.

(** ** Closing *)

(** No mount is busy. *)
Definition umount_works : Prop :=
  ∀ path w, is_Some (mnts w !! path) → (sys_umount path w).1 = 0.

Lemma wp_umount_ok name w : umount_works → is_Some (mnts w !! mnt_path name) →
  wp (anyfs_umount (Some name)) (λ r w', r = 0 ∧ mnts w' = delete (mnt_path name) (mnts w)) w.
Proof.
  intros Hu Hm. unfold anyfs_umount. apply wp_bind, wp_sync. intros _ w1 H1. apply wp_bind, wp_call.
  assert (Hm1 : mnts w1 = mnts w) by (unfold mnts; by rewrite H1). rewrite <- Hm1 in Hm.
  pose proof (Hu _ _ Hm) as Hr. destruct (sys_umount (mnt_path name) w1) as [r w2] eqn:E. cbn in Hr. subst r.
  apply law_umount in E as [[? _]|[_ Hv]]; [lia|]. cbn [fst snd]. change (0 <? 0) with false. cbn iota.
  apply wp_bind, wp_rmdir. intros _ w3 H3. apply wp_ret. split; [done|]. unfold mnts. rewrite H3, Hv. cbn.
  by fold (mnts w1); rewrite Hm1.
Qed.

(** [path] is the mount point of one of these slots. *)
Definition path_of d (l : list PartSlot) (path : bytes) : Prop :=
  Exists (λ p, state p = ANYFS_PART_MOUNTED ∧ slot_path d p = path) l.
#[local] Instance path_of_dec d l path : Decision (path_of d l path).
Proof. unfold path_of. apply _. Defined.

Lemma wp_close_loop n d w : umount_works → table_ok d → (n <= length (parts d))%nat →
  (∀ i p, (i < n)%nat → parts d !! i = Some p → state p = ANYFS_PART_MOUNTED →
     kind p = ANYFS_PART_KIND_FS ∧ is_Some (mnts w !! slot_path d p)) →
  wp (close_loop n) (λ _ s', s'.1 = d ∧ ∀ path, mnts s'.2 !! path =
    if decide (path_of d (take n (parts d)) path) then None else mnts w !! path) (d, w).
Proof.
  intros Hu Hok. revert w. induction n as [|n IH]; intros w Hn Hm.
  { split; [done|]. intros path. by rewrite decide_False by (by intros H; inversion H). }
  cbn [close_loop]. destruct (lookup_lt_is_Some_2 (parts d) n) as [p Hp]; [lia|].
  apply wp_bind, wp_ses, wp_bind. eapply wp_slot; [done|]. cbn [fst]. apply wp_bind.
  apply (wp_mono _ (λ _ s', s'.1 = d ∧ mnts s'.2 =
    if decide (state p = ANYFS_PART_MOUNTED) then delete (slot_path d p) (mnts w) else mnts w)).
  { unfold is_state, is_fs. case_bool_decide as Hs; [|by rewrite decide_False]. rewrite decide_True by done.
    destruct (Hm n p ltac:(lia) Hp Hs) as [Hk Hmp]. rewrite bool_decide_true by done. cbn [andb]. apply wp_bind.
    assert (Hr : slot_range p) by by eapply ok_range.
    eapply wp_low; [apply wp_umount_ok; [done|]|]; rewrite slot_mnt_path by (done || apply Hok); [done|].
    intros r w1 [_ Hd1]. apply wp_ret. split; [done|]. exact Hd1. }
  intros _ [d1 w1] [Hd1 Hw1]. cbn [fst snd] in Hd1, Hw1. subst d1. apply wp_bind.
  apply (wp_mono _ (λ _ s', s'.1 = d ∧ mnts s'.2 = mnts w1)).
  { destruct (_ =? 0); [done|]. apply wp_bind. eapply wp_low; [apply Dm.wp_dm_remove|].
    intros ? w2 H2. apply wp_ret. split; [done|]. cbn [snd]. unfold mnts. by rewrite H2. }
  intros _ [d2 w2] [Hd2 Hw2]. cbn [fst snd] in *. subst d2.
  wp_use IH; [lia| |].
  - intros i q Hi Hq Hqs. destruct (Hm i q ltac:(lia) Hq Hqs) as [? Hs]. split; [done|]. rewrite Hw2, Hw1.
    case_decide; [|done]. rewrite lookup_delete_ne; [done|]. intros Hpp.
    assert (n = i) by (by eapply slot_path_slot). lia.
  - intros _ [d3 w3] [Hd3 Hw3]. cbn [fst snd] in *. split; [done|]. intros path. rewrite Hw3, Hw2, Hw1.
    unfold path_of. rewrite (take_S_r _ _ p) by done.
    destruct (decide (Exists _ (take n (parts d)))) as [He|He].
    { by rewrite decide_True by (apply Exists_app; by left). }
    case_decide as Hs; [destruct (decide (slot_path d p = path)) as [<-|Hne]|].
    + rewrite decide_True; [apply lookup_delete_eq|]. apply Exists_app. right. by apply Exists_cons_hd.
    + rewrite lookup_delete_ne, decide_False; [done| |done].
      intros [H|H]%Exists_app; [done|]. apply Exists_cons in H as [[_ ?]|H]; [done|inversion H].
    + rewrite decide_False; [done|]. intros [H|H]%Exists_app; [done|].
      apply Exists_cons in H as [[? _]|H]; [done|inversion H].
Qed.
Lemma wp_session_close d w : umount_works → SInv (-2) d (mnts w) →
  wp anyfs_session_close (λ _ s', ∀ path, mnts s'.2 !! path =
    if decide (path_of d (parts d) path ∨ (whole_state d = ANYFS_PART_MOUNTED ∧ path = whole_path d))
    then None else mnts w !! path) (d, w).
Proof.
  intros Hu H. unfold anyfs_session_close. apply wp_bind, wp_ses. cbn [fst]. apply wp_bind.
  apply (wp_mono _ (λ _ s', SInv (-2) s'.1 (mnts s'.2) ∧ parts s'.1 = parts d ∧ disk_id s'.1 = disk_id d ∧
    mnts s'.2 = if decide (whole_state d = ANYFS_PART_MOUNTED) then delete (whole_path d) (mnts w) else mnts w)).
  { case_bool_decide as Hs; [|by rewrite decide_False]. rewrite decide_True by done. apply wp_bind.
    unfold anyfs_session_leave. apply wp_bind, wp_ses. cbn [fst]. change (0 =? 0) with true. cbn iota.
    apply wp_bind. destruct (inv_wmnt _ _ _ H Hs) as (mi & Hmi & _).
    eapply wp_low; [apply wp_umount_ok; [done|]|]; rewrite whole_mnt_path by apply H; [by eexists|].
    intros rc w1 [-> Hm]. change (0 =? 0) with true. cbn iota.
    apply wp_bind, wp_low_quiet; [intros; by apply wp_unlink|]. intros _ w2 H2.
    apply wp_bind, wp_upd, wp_ret, wp_ret. cbn [fst snd].
    assert (Hm2 : mnts w2 = delete (whole_path d) (mnts w)) by (unfold mnts in *; by rewrite H2, Hm).
    split_and!; [|done..]. rewrite Hm2. change (whole_path d) with (whole_path (set_whole ANYFS_PART_NEW d)).
    apply SInv_delete_whole; [done|]. eapply SInv_set_whole; [exact H|done..|by left]. }
  intros _ [d1 w1] (H1 & Hp & Hd & Hm1). cbn [fst snd] in *. apply wp_bind.
  replace (length (parts d)) with (length (parts d1)) by by rewrite Hp.
  wp_use wp_close_loop; [done|apply H1|done| |].
  { intros i p _ Hi Hs. destruct (inv_mnt _ _ _ H1 i p Hi Hs) as [? (mi & Hmi & _)]. split; [done|by eexists]. }
  intros _ [d2 w2] [Hd2 Hw2]. cbn [fst snd] in *. subst d2. rewrite firstn_all in Hw2.
  assert (Hpo : ∀ path, path_of d1 (parts d1) path ↔ path_of d (parts d) path).
  { intros path. unfold path_of, slot_path, prefix. by rewrite Hp, Hd. }
  assert (Hfin : ∀ path, mnts w2 !! path =
    if decide (path_of d (parts d) path ∨ (whole_state d = ANYFS_PART_MOUNTED ∧ path = whole_path d))
    then None else mnts w !! path).
  { intros path. rewrite Hw2. destruct (decide (path_of d1 _ path)) as [Hy|Hy]; rewrite Hpo in Hy.
    { by rewrite decide_True by (by left). }
    rewrite Hm1. case_decide as Hs; [destruct (decide (whole_path d = path)) as [<-|Hne]|].
    - rewrite decide_True by (by right). apply lookup_delete_eq.
    - rewrite lookup_delete_ne, decide_False by (done || naive_solver). done.
    - rewrite decide_False by naive_solver. done. }
  destruct (0 <=? disk_id d); [|exact Hfin]. apply wp_bind.
  apply wp_lower, wp_call, wp_ret. cbn [snd]. intros path. unfold mnts. rewrite law_disk_remove. apply Hfin.
Qed.

(** A sequence of operations, in any order and with any arguments. *)
Inductive op :=
  | OpEnter (part flags : Z)
  | OpLeave (part : Z)
  | OpPath (comp : list Path.AnyfsPathComp) (flags : Z).

Definition run_op (c : Creds) (o : op) : M St () :=
  match o with
  | OpEnter part flags => _ ← anyfs_session_enter c part flags; mret ()
  | OpLeave part => _ ← anyfs_session_leave part; mret ()
  | OpPath comp flags => _ ← anyfs_session_enter_path c comp flags; mret ()
  end.

Lemma wp_run_op c o d w : SInv (-2) d (mnts w) →
  wp (run_op c o) (λ _ s', SInv (-2) s'.1 (mnts s'.2) ∧ static s'.1 = static d) (d, w).
Proof.
  intros H. destruct o as [part flags|part|comp flags]; cbn [run_op]; apply wp_bind.
  - destruct (decide (part = 0)) as [->|Hp].
    + unfold anyfs_session_enter. cbn [Z.eqb]. wp_use wp_enter_whole; [done|]. by intros r s' (? & ? & _).
    + wp_use wp_enter; [done..|]. by intros r s' (? & ? & _).
  - destruct (decide (part = 0)) as [->|Hp].
    + wp_use wp_leave_whole; [done..|]. by intros r s' (? & [? _] & _).
    + wp_use wp_leave_part; [done..|]. by intros r s' (? & [? _] & _).
  - wp_use wp_enter_path; [done|]. by intros r s' (? & ? & _).
Qed.

Lemma wp_run_ops c ops d w : SInv (-2) d (mnts w) →
  wp (mfor ops (run_op c)) (λ _ s', SInv (-2) s'.1 (mnts s'.2) ∧ static s'.1 = static d) (d, w).
Proof.
  intros H. apply (wp_for (λ s', SInv (-2) s'.1 (mnts s'.2) ∧ static s'.1 = static d)); [done|].
  intros o [d1 w1] _ [H1 Hs]. wp_use wp_run_op; [done|]. intros _ s' [? E]. split; [done|].
  cbn [fst] in *. congruence.
Qed.
End Ops.

(** ** A concrete session

    Disk 0 with an ext4 partition 1 and a LUKS partition 2, opened read-only. *)
#[export] Instance toy_core : Core Toy.toy := {|
  disk_add p f w :=
    match list_find (λ i, i ∉ v_dsk (Toy.t_view w)) (seqZ 0 16) with
    | Some (_, i) => (i, Toy.set_view w (with_dsk ({[i]} ∪ v_dsk (Toy.t_view w)) (Toy.t_view w)))
    | None => (-1, w)
    end;
  disk_remove i w := (0, Toy.set_view w (with_dsk (v_dsk (Toy.t_view w) ∖ {[i]}) (Toy.t_view w)));
  set_last_error t w := (0, w) |}.
#[export] Instance toy_core_laws : CoreLaws Toy.toy.
Proof.
  split; [|done..]. intros p f w r w'. unfold disk_add, toy_core.
  destruct (list_find _ _) as [[j i]|] eqn:E; intros [= <- <-]; [|by left]. right.
  apply list_find_Some in E as (Hi & Hn & _). apply list_elem_of_lookup_2, elem_of_seqZ in Hi. split; [lia|done].
Defined.

Definition toy_k : Toy.toy :=
  Toy.mk_toy 3 Toy.empty_view {[ bs "/dev/0000fe01" := []; bs "/dev/anyfs_d0_whole" := [] ]} ∅
    {[ bs "/dev/0000fe01" := bs "ext4"; bs "/dev/anyfs_d0_whole" := bs "iso9660" ]} 0xfe01 Toy.empty_hview ∅.

Definition slot1 : PartSlot :=
  mk_slot 0 ROOT_PARENT 1 1048576 1000 (bs "0x83") (bs "/dev/vda1") [] ANYFS_PART_KIND_FS ANYFS_PART_NEW None (bs "ext4") [] [].
Definition slot2 : PartSlot :=
  mk_slot 1 ROOT_PARENT 2 2097152 1000 (bs "0x83") (bs "/dev/vda2") [] ANYFS_PART_KIND_LUKS ANYFS_PART_NEW None [] [] [].
Definition ses0 : AnyfsSession :=
  mk_session 0 1 (bs "a.img") (bs "a.img") (bs "vda") (bs "iso9660") [] [] 0xfe00 ANYFS_PART_NEW [slot1; slot2].
Definition no_creds : Creds := mk_creds (λ _, None) (λ _, None) (λ _, None) 2 true.

Lemma ses0_inv : SInv (-2) ses0 (mnts toy_k).
Proof.
  split; [split| | | |].
  - unfold disk_range. cbn. lia.
  - vm_compute. discriminate.
  - intros [|[|i]] p; cbn; intros Hp; simplify_eq/=; unfold ROOT_PARENT; cbn; split_and!; lia || done.
  - intros [|[|i]] [|[|j]] p q; cbn; intros Hp Hq; simplify_eq/=; done.
  - intros [|[|i]] p; cbn; intros Hp; simplify_eq/=; done.
  - done.
  - intros [|[|i]] p; cbn; intros Hp; simplify_eq/=; done.
  - done.
Qed.

(** The same session with partition 1 mounted, and its kernel. *)
Definition ses_m : AnyfsSession := upd_slot 0 (set_state ANYFS_PART_MOUNTED) ses0.
Definition toy_m : Toy.toy :=
  Toy.mk_toy 3 (mk_view ∅ {[ bs "/lklmnt/anyfs_d0_p1" := mk_mi (bs "/dev/0000fe01") (bs "ext4") true None;
                             bs "/other" := mk_mi (bs "/dev/b") (bs "tmpfs") true None ]} ∅ ∅)
    ∅ ∅ ∅ 0xfe01 Toy.empty_hview ∅.

Lemma ses_m_inv : SInv (-2) ses_m (mnts toy_m).
Proof.
  split; [apply (table_ok_static ses0); [reflexivity|apply ses0_inv]| | | |].
  - intros [|[|i]] p; cbn; intros Hp; simplify_eq/=; done.
  - done.
  - intros [|[|i]] p; cbn; intros Hp; simplify_eq/=; [|done]. intros _. split; [done|].
    exists (mk_mi (bs "/dev/0000fe01") (bs "ext4") true None). split; vm_compute; reflexivity.
  - done.
Qed.

Lemma toy_umount_works : umount_works (W := Toy.toy).
Proof. intros path w H. unfold mnts in H. cbn in *. by rewrite bool_decide_true. Qed.

(** The mount points a session holds. *)
Definition owned (d : AnyfsSession) (path : bytes) : Prop :=
  (∃ p, p ∈ parts d ∧ state p = ANYFS_PART_MOUNTED ∧ slot_path d p = path) ∨
  (whole_state d = ANYFS_PART_MOUNTED ∧ path = whole_path d).

(** ** Properties *)



Example enter_toy : (λ r, (r.1, mnts (W := Toy.toy) r.2.2)) <$> anyfs_session_enter no_creds 1 0 (ses0, toy_k) =
  Some ((0, bs "/lklmnt/anyfs_d0_p1"),
        {[ bs "/lklmnt/anyfs_d0_p1" := mk_mi (bs "/dev/0000fe01") (bs "ext4") true (Some (bs "noload,errors=continue")) ]}).
Proof. vm_compute. reflexivity. Qed.

(** Entering the whole disk: the same guarantees for part 0, which has no
    sticky failure: an error leaves it NEW. *)
Theorem session_enter_whole_correct {W} `{!Lkl W, !LklLaws W, !Host W, !HostLaws W, !Core W, !CoreLaws W}
    c flags d (w : W) : SInv (-2) d (mnts w) →
  wp (anyfs_session_enter c 0 flags) (λ r s', entered_whole d flags r s'.1 (mnts s'.2)) (d, w).
Proof. intros H. by apply wp_enter_whole. Qed.

Lemma session_enter_whole_correct_witness :
  wp (anyfs_session_enter no_creds 0 2) (λ r s', entered_whole ses0 2 r s'.1 (mnts s'.2)) (ses0, toy_k).
Proof. exact (session_enter_whole_correct no_creds 2 ses0 toy_k ses0_inv). Defined.

(** C1 Any sequence of enters, leaves and path walks, with any arguments,
    returns: no slot is ever left MOUNTING, so no later call can wait for
    ever.  At every point the slot table and the kernel agree: a MOUNTED slot
    is a filesystem whose mount point is in the mount table, and in a session
    opened read-only every such mount is read-only. *)
Theorem session_history_safe {W} `{!Lkl W, !LklLaws W, !Host W, !HostLaws W, !Core W, !CoreLaws W}
    c ops d (w : W) : SInv (-2) d (mnts w) →
  wp (mfor ops (run_op c)) (λ _ s', static s'.1 = static d ∧
    ∀ i p, parts s'.1 !! i = Some p →
      state p ≠ ANYFS_PART_MOUNTING ∧
      (state p = ANYFS_PART_MOUNTED → kind p = ANYFS_PART_KIND_FS ∧
         ∃ mi, mnts s'.2 !! slot_path d p = Some mi ∧
           (flag (open_flags d) ANYFS_SESSION_READONLY = true → mi_ro mi = true))) (d, w).
Proof.
  intros H. wp_use wp_run_ops; [done|]. intros _ s' [H' Hs]. split; [done|]. intros i p Hp. split.
  - intros E. pose proof (inv_slot _ _ _ H' i p Hp E). lia.
  - intros E. destruct (inv_mnt _ _ _ H' i p Hp E) as [? (mi & Hm & Hr)]. split; [done|]. exists mi.
    rewrite <- (slot_path_static d s'.1 p p Hs eq_refl). split; [done|]. by injection Hs as _ <- _.
Qed.

Lemma session_history_safe_witness :
  wp (mfor [OpEnter 1 0; OpEnter 0 2; OpLeave 1; OpPath [Path.mk_comp 2 None] 0] (run_op no_creds))
    (λ _ s', static s'.1 = static ses0 ∧
    ∀ i p, parts s'.1 !! i = Some p →
      state p ≠ ANYFS_PART_MOUNTING ∧
      (state p = ANYFS_PART_MOUNTED → kind p = ANYFS_PART_KIND_FS ∧
         ∃ mi, mnts s'.2 !! slot_path ses0 p = Some mi ∧
           (flag (open_flags ses0) ANYFS_SESSION_READONLY = true → mi_ro mi = true))) (ses0, toy_k).
Proof.
  exact (session_history_safe no_creds [OpEnter 1 0; OpEnter 0 2; OpLeave 1; OpPath [Path.mk_comp 2 None] 0]
           ses0 toy_k ses0_inv).
Defined.

(** Entering is idempotent and failure is sticky: a slot that is MOUNTED
    returns the same path again, one that FAILED returns -3, and in both cases
    neither the session nor the kernel changes. *)
Theorem session_enter_idempotent {W} `{!Lkl W, !LklLaws W, !Host W, !HostLaws W, !Core W, !CoreLaws W}
    c part flags d (w : W) i p : table_ok d → parts d !! i = Some p →
  parent_slot p = ROOT_PARENT → s_index p = part → kind p = ANYFS_PART_KIND_FS →
  (state p = ANYFS_PART_MOUNTED → anyfs_session_enter c part flags (d, w) = Some ((0, slot_path d p), (d, w))) ∧
  (state p = ANYFS_PART_FAILED → anyfs_session_enter c part flags (d, w) = Some ((-3, []), (d, w))).
Proof. apply enter_cached. Qed.


Lemma session_enter_idempotent_witness :
  anyfs_session_enter no_creds 1 0 (ses_m, toy_k) = Some ((0, bs "/lklmnt/anyfs_d0_p1"), (ses_m, toy_k)).
Proof.
  refine (proj1 (session_enter_idempotent no_creds 1 0 ses_m toy_k 0%nat (set_state ANYFS_PART_MOUNTED slot1)
                   _ eq_refl eq_refl eq_refl eq_refl) eq_refl).
  eapply table_ok_static; [|apply ses0_inv]. reflexivity.
Defined.

(** Entering a path of components: it always returns, keeps the table and
    the kernel in agreement, and succeeds only with the mount path of a slot
    that is mounted. *)
Theorem session_enter_path_correct {W} `{!Lkl W, !LklLaws W, !Host W, !HostLaws W, !Core W, !CoreLaws W}
    c comp flags d (w : W) : SInv (-2) d (mnts w) →
  wp (anyfs_session_enter_path c comp flags) (λ r s',
    SInv (-2) s'.1 (mnts s'.2) ∧ static s'.1 = static d ∧ r.1 <= 0 ∧
    (r.1 = 0 → ∃ i p, parts s'.1 !! i = Some p ∧ state p = ANYFS_PART_MOUNTED ∧ r.2 = slot_path d p)) (d, w).
Proof. apply wp_enter_path. Qed.

Lemma session_enter_path_correct_witness :
  wp (anyfs_session_enter_path no_creds [Path.mk_comp 1 None] 0) (λ r s',
    SInv (-2) s'.1 (mnts s'.2) ∧ static s'.1 = static ses0 ∧ r.1 <= 0 ∧
    (r.1 = 0 → ∃ i p, parts s'.1 !! i = Some p ∧ state p = ANYFS_PART_MOUNTED ∧ r.2 = slot_path ses0 p)) (ses0, toy_k).
Proof. exact (session_enter_path_correct no_creds [Path.mk_comp 1 None] 0 ses0 toy_k ses0_inv). Defined.

Example close_toy : (λ r, mnts (W := Toy.toy) r.2.2) <$> anyfs_session_close (ses_m, toy_m) =
  Some {[ bs "/other" := mk_mi (bs "/dev/b") (bs "tmpfs") true None ]}.
Proof. vm_compute. reflexivity. Qed.

(** Walking through a filesystem as if it were a container marks it FAILED:
    the partition cannot be entered any more. *)
Lemma walk_poisons_partition :
  fst <$> anyfs_session_enter no_creds 1 0 (ses0, toy_k) = Some (0, bs "/lklmnt/anyfs_d0_p1") ∧
  fst <$> (anyfs_session_enter_path no_creds [Path.mk_comp 1 None; Path.mk_comp 2 None] 0 ≫= λ r,
           anyfs_session_enter no_creds 1 0 ≫= λ r', mret (r, r')) (ses0, toy_k)
    = Some ((- LKL_EINVAL, []), (-3, [])).
Proof. vm_compute. done. Qed.

End SessionSpec.
