(* ===== verification/Threads.v ===== *)
(** * Threads

    Interleavings of threads: a pool is the list of the threads' program
    counters, and a step moves one of them.  Lemmas on counting the threads in
    a given phase, on invariants of runs and on runs that must end, shared by
    the step relations of the concurrent components. *)
From stdpp Require Export relations.
From S2P Require Import Prelude.
#[global] Open Scope Z_scope.

(** ** Counting the threads of a pool *)
Section Pool.
Context {A : Type}.
Implicit Types (f g : A → nat) (l : list A).

Lemma sum_insert f l i x y : l !! i = Some x →
  (sum_list_with f (<[i := y]> l) + f x = sum_list_with f l + f y)%nat.
Proof.
  revert i. induction l as [|a l IH]; intros [|i] H; try done; cbn in *.
  - injection H as ->. lia.
  - apply IH, (f_equal (Nat.add (f a))) in H. rewrite !Nat.add_assoc in H. exact H.
Qed.

Lemma sum_lookup f l i x : l !! i = Some x → (f x <= sum_list_with f l)%nat.
Proof.
  revert i. induction l as [|a l IH]; intros [|i] H; try done; cbn in *.
  - injection H as ->. lia.
  - specialize (IH _ H). lia.
Qed.

Lemma sum_two f l i j x y : i ≠ j → l !! i = Some x → l !! j = Some y → (f x + f y <= sum_list_with f l)%nat.
Proof.
  revert i j. induction l as [|a l IH]; intros [|i] [|j] Hn Hi Hj; try done; cbn in *.
  - injection Hi as ->. apply (sum_lookup f) in Hj. lia.
  - injection Hj as ->. apply (sum_lookup f) in Hi. lia.
  - specialize (IH i j ltac:(congruence) Hi Hj). lia.
Qed.

(** A property of every thread of a pool survives a step of thread [i]. *)
Lemma Forall_step (P Q : A → Prop) l i x y : l !! i = Some x → Forall P l →
  (∀ j z, i ≠ j → l !! j = Some z → P z → Q z) → Q y → Forall Q (<[i := y]> l).
Proof.
  intros Hi Hf H Hy. apply Forall_lookup. intros j z Hj. destruct (decide (i = j)) as [<-|Hn].
  - rewrite list_lookup_insert_eq in Hj by by eapply lookup_lt_Some. by injection Hj as <-.
  - rewrite list_lookup_insert_ne in Hj by done. apply (H j z Hn Hj). by eapply Forall_lookup_1.
Qed.

Lemma sum_pos f l : (0 < sum_list_with f l)%nat → ∃ i x, l !! i = Some x ∧ (0 < f x)%nat.
Proof.
  induction l as [|a l IH]; cbn; [lia|]. intros H. destruct (decide (0 < f a)%nat) as [Ha|Ha].
  - by exists 0%nat, a.
  - destruct IH as (i & x & Hi & Hx); [lia|]. by exists (S i), x.
Qed.

Lemma sum_bound_all f l k : Forall (λ x, f x <= k)%nat l → (sum_list_with f l <= k * length l)%nat.
Proof. induction 1 as [|a l Ha _ IH]; cbn; lia. Qed.

Lemma sum_fmap f g (h : A → A) l : (∀ x, f (h x) = g x) → sum_list_with f (h <$> l) = sum_list_with g l.
Proof. intros H. induction l as [|a l IH]; cbn; [done|]. by rewrite H, IH. Qed.

Lemma sum_zero f l : Forall (λ x, f x = 0%nat) l → sum_list_with f l = 0%nat.
Proof. induction 1 as [|a l Ha _ IH]; cbn; lia. Qed.
End Pool.

(** ** Runs *)
Section Runs.
Context {C : Type} (R : C → C → Prop) (Inv : C → Prop).
Hypothesis Inv_step : ∀ c c', Inv c → R c c' → Inv c'.

Lemma run_inv c c' : rtc R c c' → Inv c → Inv c'.
Proof. induction 1; eauto. Qed.

(** A measure that every step decreases bounds the length of every run. *)
Context (measure : C → nat).
Hypothesis step_decreases : ∀ c c', Inv c → R c c' → (measure c' < measure c)%nat.

Lemma run_bounded n c c' : Inv c → nsteps R n c c' → (n + measure c' <= measure c)%nat.
Proof.
  intros I H. revert I. induction H as [c|n c c1 c' Hs _ IH]; intros I; [lia|].
  specialize (IH (Inv_step _ _ I Hs)). pose proof (step_decreases _ _ I Hs). lia.
Qed.

(** When a run that is not final can go on, every run can be completed. *)
Context (final : C → Prop).
Hypothesis progress : ∀ c, Inv c → final c ∨ ∃ c', R c c'.

Lemma run_ends c : Inv c → ∃ c', rtc R c c' ∧ final c'.
Proof.
  intros I. remember (measure c) as n eqn:E. assert (measure c <= n)%nat as Hn by lia. clear E.
  revert c I Hn. induction n as [|n IH]; intros c I Hn; destruct (progress c I) as [Hf|[c' Hs]].
  - by exists c.
  - pose proof (step_decreases _ _ I Hs). lia.
  - by exists c.
  - pose proof (step_decreases _ _ I Hs).
    destruct (IH c' (Inv_step _ _ I Hs) ltac:(lia)) as (c'' & Hr & Hf).
    exists c''. split; [by eapply rtc_l|done].
Qed.

(** A run that cannot go on is final. *)
Lemma run_stops c c' : Inv c → rtc R c c' → nf R c' → final c'.
Proof.
  intros I Hr Hn. destruct (progress c' (run_inv _ _ Hr I)) as [Hf|[c'' Hs]]; [done|].
  destruct Hn. by exists c''.
Qed.
End Runs.

(** ** Requests run one after the other

    What a serial execution of numbered requests gives: the results in order
    and the last state.  Concurrent components are compared with it. *)
Section Replay.
Context {N Q S R : Type} (exec : Q → M S R).

Fixpoint replay (l : list (N * Q)) (s : S) : option (list (N * R) * S) :=
  match l with
  | [] => Some ([], s)
  | (r, req) :: l' =>
      x ← exec req s;
      y ← replay l' x.2;
      Some ((r, x.1) :: y.1, y.2)
  end.

Lemma replay_snoc l r req s rs s1 ret s2 : replay l s = Some (rs, s1) → exec req s1 = Some (ret, s2) →
  replay (l ++ [(r, req)]) s = Some (rs ++ [(r, ret)], s2).
Proof.
  revert s rs. induction l as [|[x xr] l IH]; intros s rs; cbn [replay app].
  - intros [= <- <-] ->. done.
  - intros H E. destruct (exec xr s) as [[y s']|]; [|done]. cbn in *. destruct (replay l s') as [[rs' s'']|] eqn:El; [|done].
    cbn in H. injection H as <- <-. by rewrite (IH s' rs' El E).
Qed.

Lemma replay_ids l s rs s' : replay l s = Some (rs, s') → rs.*1 = l.*1.
Proof.
  revert s rs. induction l as [|[x xr] l IH]; intros s rs; cbn [replay]; [by intros [= <- <-]|].
  destruct (exec xr s) as [[y s1]|]; [|done]. cbn. destruct (replay l s1) as [[rs' s'']|] eqn:E; [|done].
  intros [= <- <-]. cbn. by rewrite (IH _ _ E).
Qed.
Lemma replay_length l s rs s' : replay l s = Some (rs, s') → length rs = length l.
Proof. intros H%replay_ids%(f_equal length). by rewrite !length_fmap in H. Qed.
End Replay.
