(* ===== verification/FastSync.v ===== *)
(** * FastSync

    src/ksmbd/fastsync_win.c: the semaphore that replaces the kernel library's
    own on Windows, a counter with WaitOnAddress and WakeByAddressSingle, for
    any number of threads that call sem_up and sem_down.  The steps are the
    atomic accesses of the code; WaitOnAddress compares and goes to sleep in
    one step, and may return without cause. *)
From S2P Require Import Prelude Threads.

Module FastSync.

(** A thread outside, in fs_sem_up before WakeByAddressSingle, or in
    fs_sem_down: about to read the counter, to exchange, to wait, asleep. *)
Inductive spc := SIdle | UWake | DRead | DTry (cur : Z) | DWait (cur : Z) | DAsleep.

(** struct lkl_sem; how often sem_up has counted and sem_down has returned. *)
Record sem := mk_sem { count : Z; ups : Z; downs : Z; pool : list spc }.

Definition fs_sem_alloc (n : nat) (c : Z) : sem := mk_sem c 0 0 (replicate n SIdle).
Definition at_pc (i : nat) (p : spc) (s : sem) : sem := mk_sem (count s) (ups s) (downs s) (<[i := p]> (pool s)).

(** InterlockedIncrement *)
Definition increment (s : sem) : sem := mk_sem (i32 (count s + 1)) (ups s + 1) (downs s) (pool s).
(** The exchange that succeeds. *)
Definition take (s : sem) : sem := mk_sem (i32 (count s - 1)) (ups s) (downs s + 1) (pool s).

Inductive step : sem → sem → Prop :=
  (* fs_sem_up *)
  | u_count s i : pool s !! i = Some SIdle → step s (at_pc i UWake (increment s))
  | u_wake s i j : pool s !! i = Some UWake → pool s !! j = Some DAsleep → step s (at_pc i SIdle (at_pc j DRead s))
  | u_nobody s i : pool s !! i = Some UWake → (∀ j, pool s !! j ≠ Some DAsleep) → step s (at_pc i SIdle s)
  (* fs_sem_down *)
  | d_start s i : pool s !! i = Some SIdle → step s (at_pc i DRead s)
  | d_read s i : pool s !! i = Some DRead → step s (at_pc i (if 0 <? count s then DTry (count s) else DWait (count s)) s)
  | d_try s i cur : pool s !! i = Some (DTry cur) → step s (if count s =? cur then at_pc i SIdle (take s) else at_pc i DRead s)
  | d_wait s i cur : pool s !! i = Some (DWait cur) → step s (at_pc i (if count s =? cur then DAsleep else DRead) s)
  | d_spurious s i : pool s !! i = Some DAsleep → step s (at_pc i DRead s).

(** ** Invariant *)

(** A thread that will look at the counter, or will wake one that does. *)
Definition awake (p : spc) : nat := match p with UWake | DRead | DTry _ | DWait _ => 1 | _ => 0 end.
Definition sleeps (p : spc) : nat := match p with DAsleep => 1 | _ => 0 end.
Definition sane (p : spc) : Prop := match p with DTry cur => 0 < cur | DWait cur => cur <= 0 | _ => True end.

Record SInv (c : Z) (s : sem) : Prop := {
  si_count : count s = c + ups s - downs s;
  si_ups : 0 <= ups s;
  si_downs : 0 <= downs s;
  si_pos : 0 <= count s;
  si_sane : Forall sane (pool s);
  si_wake : (0 < sum_list_with sleeps (pool s))%nat → count s <= Z.of_nat (sum_list_with awake (pool s)) }.

Definition fits (c : Z) (s : sem) : Prop := c + ups s < 2 ^ 31.

Lemma sane_at i p s : Forall sane (pool s) → sane p → Forall sane (<[i := p]> (pool s)).
Proof. intros Hs Hp. by apply Forall_insert. Qed.

Ltac count_at H p := pose proof (sum_insert awake _ _ _ p H); pose proof (sum_insert sleeps _ _ _ p H).

Lemma sem_step c s s' : fits c s' → SInv c s → step s s' → SInv c s'.
Proof.
  intros Hf [Hc Hu Hd Hp Hs Hw] St. unfold fits in Hf.
  destruct St as [s i Hi|s i j Hi Hj|s i Hi Hn|s i Hi|s i Hi|s i cur Hi|s i cur Hi|s i Hi]; cbn [count ups downs pool at_pc increment take] in *.
  - count_at Hi UWake. split; cbn; rewrite ?i32_small by lia; [lia|lia|lia|lia|by apply sane_at|cbn in *; lia].
  - assert (Hij : i ≠ j) by congruence. count_at Hj DRead. assert (Hi' : <[j := DRead]> (pool s) !! i = Some UWake) by by rewrite list_lookup_insert_ne.
    count_at Hi' SIdle. split; cbn; [lia|lia|lia|lia|apply Forall_insert; [by apply sane_at|done]|]. cbn in *. lia.
  - assert (Hz : sum_list_with sleeps (pool s) = 0%nat).
    { apply sum_zero, Forall_lookup. intros j p Hj. destruct p; try done. by destruct (Hn j). }
    count_at Hi SIdle. split; cbn; [lia|lia|lia|lia|by apply sane_at|cbn in *; lia].
  - count_at Hi DRead. split; cbn; [lia|lia|lia|lia|by apply sane_at|cbn in *; lia].
  - destruct (Z.ltb_spec 0 (count s)).
    + count_at Hi (DTry (count s)). split; cbn; [lia|lia|lia|lia|by apply sane_at|cbn in *; lia].
    + count_at Hi (DWait (count s)). split; cbn; [lia|lia|lia|lia|by apply sane_at|cbn in *; lia].
  - destruct (Z.eqb_spec (count s) cur) as [E|_]; cbn [count ups downs pool at_pc take] in *.
    + pose proof (Forall_lookup_1 _ _ _ _ Hs Hi) as Hcur. cbn in Hcur. count_at Hi SIdle.
      split; cbn; rewrite ?i32_small by lia; [lia|lia|lia|lia|by apply sane_at|cbn in *; lia].
    + count_at Hi DRead. split; cbn; [lia|lia|lia|lia|by apply sane_at|cbn in *; lia].
  - destruct (Z.eqb_spec (count s) cur) as [E|_].
    + pose proof (Forall_lookup_1 _ _ _ _ Hs Hi) as Hcur. cbn in Hcur. split; cbn; [lia|lia|lia|lia|by apply sane_at|lia].
    + count_at Hi DRead. split; cbn; [lia|lia|lia|lia|by apply sane_at|cbn in *; lia].
  - count_at Hi DRead. split; cbn; [lia|lia|lia|lia|by apply sane_at|cbn in *; lia].
Qed.

Lemma ups_mono s s' : step s s' → ups s <= ups s'.
Proof. intros []; cbn; try lia. destruct (_ =? _); cbn; lia. Qed.

Lemma sem_run c s s' : rtc step s s' → SInv c s → fits c s' → SInv c s'.
Proof.
  intros H. induction H as [s|s s1 s' St Hr IH]; intros HI Hf; [done|].
  apply IH; [|done]. eapply sem_step; [|exact HI|exact St]. clear IH HI. unfold fits in *.
  assert (ups s1 <= ups s'); [|lia]. clear - Hr. induction Hr as [|x y z S _ IH]; [done|]. apply ups_mono in S. lia.
Qed.

(** ** Properties *)

(** The semaphore of the Windows build: for any number of threads in any
    interleaving, with wakeups that have no cause, sem_down never returns more
    often than the initial count and the calls of sem_up allow, the counter is
    exactly what is left, and no wakeup is lost: whenever a thread sleeps
    although the counter is positive, as many threads as it counts are awake
    and about to look at it or to wake one, so nobody sleeps on a positive
    counter for good.  The counter stays below 2^31. *)
Theorem sem_counts n c s : 0 <= c → rtc step (fs_sem_alloc n c) s → c + ups s < 2 ^ 31 →
  downs s <= c + ups s ∧ count s = c + ups s - downs s ∧
  ((∃ i, pool s !! i = Some DAsleep) → count s <= Z.of_nat (sum_list_with awake (pool s))) ∧
  (Forall (λ p, p = SIdle ∨ p = DAsleep) (pool s) → DAsleep ∈ pool s → count s = 0).
Proof.
  intros Hc Hr Hf. destruct (sem_run c _ _ Hr) as [H1 H2 H3 H4 _ H5]; [|done|].
  { split; cbn; [lia|lia|lia|lia|by apply Forall_replicate|]. rewrite sum_zero; [lia|by apply Forall_replicate]. }
  split; [lia|]. split; [done|]. assert (Hs : (∃ i, pool s !! i = Some DAsleep) → count s <= Z.of_nat (sum_list_with awake (pool s))).
  { intros [i Hi]. apply H5. apply (sum_lookup sleeps) in Hi. cbn in Hi. lia. }
  split; [done|]. intros Hq [i Hi]%list_elem_of_lookup. assert (Hz : sum_list_with awake (pool s) = 0%nat).
  { apply sum_zero. eapply Forall_impl; [exact Hq|]. by intros p [->| ->]. }
  specialize (Hs (ex_intro _ i Hi)). lia.
Qed.

(** A thread sleeps, another counts up and wakes it, a third takes the count. *)
Definition sem1 : sem := mk_sem 0 1 1 [DWait 0; SIdle; SIdle].
Lemma sem1_reached : rtc step (fs_sem_alloc 3 0) sem1.
Proof.
  do 2 (eapply rtc_l; [first [by apply (d_start _ 0%nat)|by apply (d_read _ 0%nat)]|cbn]).
  eapply rtc_l; [by apply (d_wait _ 0%nat 0)|cbn]. eapply rtc_l; [by apply (u_count _ 1%nat)|cbn].
  eapply rtc_l; [by apply (u_wake _ 1%nat 0%nat)|cbn]. eapply rtc_l; [by apply (d_start _ 2%nat)|cbn].
  eapply rtc_l; [by apply (d_read _ 2%nat)|cbn]. eapply rtc_l; [by apply (d_try _ 2%nat 1)|cbn].
  eapply rtc_l; [by apply (d_read _ 0%nat)|cbn]. apply rtc_refl.
Qed.

Lemma sem_counts_witness :
  downs sem1 <= 0 + ups sem1 ∧ count sem1 = 0 + ups sem1 - downs sem1 ∧
  ((∃ i, pool sem1 !! i = Some DAsleep) → count sem1 <= Z.of_nat (sum_list_with awake (pool sem1))) ∧
  (Forall (λ p, p = SIdle ∨ p = DAsleep) (pool sem1) → DAsleep ∈ pool sem1 → count sem1 = 0).
Proof. apply (sem_counts 3 0 sem1); [lia|apply sem1_reached|cbn; lia]. Defined.
End FastSync.
