(* ===== verification/SessionThreads.v ===== *)
(** * SessionThreads

    Threads that enter and leave the same slot of a session at once
    (enter_fs_slot, the whole-disk half of anyfs_session_enter and
    anyfs_session_leave of src/core/anyfs_session.c).  A step is what a thread
    does between two points where the session lock is taken or released, or
    one call into the kernel; pthread_cond_wait releases the lock and sleeps
    until the broadcast.  [whole] selects the code of the whole disk. *)
From S2P Require Import Prelude Threads Lkl Probe Mount Session SessionSpec.
Import Probe Session.

Module SessionThreads.

(** Where a thread is: at the lock, asleep on the condition variable, in the
    mount loop (with [waited_ms]), before the commit of its result; the same
    for leaving; returned. *)
Inductive pc :=
  | EStart | EWait | EMount (waited : Z) | ECommit (rc : Z)
  | LStart | LUmount | LCommit (rc : Z)
  | Done (rc : Z).

(** The slot's state and whether its mount point is in the kernel's table. *)
Record shared := mk_shared { st : AnyfsPartState; in_kernel : bool }.

Section Code.
Context (whole : bool).

(** Under the lock, before the mount: the new state and where to go. *)
Definition enter_check (s : AnyfsPartState) : AnyfsPartState * pc :=
  match s with
  | ANYFS_PART_MOUNTING => (s, EWait)
  | ANYFS_PART_MOUNTED => (s, Done 0)
  | ANYFS_PART_FAILED => if whole then (ANYFS_PART_MOUNTING, EMount 0) else (s, Done (-3))
  | ANYFS_PART_NEW => (ANYFS_PART_MOUNTING, EMount 0)
  end.

(** Under the lock, after the mount. *)
Definition enter_commit (rc : Z) : AnyfsPartState :=
  if rc =? 0 then ANYFS_PART_MOUNTED
  else if whole || (rc =? - LKL_EBUSY) then ANYFS_PART_NEW
  else ANYFS_PART_FAILED.

(** pthread_cond_broadcast: every sleeper takes the lock again and looks. *)
Definition broadcast (p : pc) : pc := match p with EWait => EStart | _ => p end.

(** Leaving a partition looks at the state, leaving the whole disk does not. *)
Definition leave_check (s : AnyfsPartState) : pc :=
  if whole || bool_decide (s = ANYFS_PART_MOUNTED) then LUmount else Done (-1).

Definition leave_commit (rc : Z) (s : AnyfsPartState) : AnyfsPartState :=
  if rc =? 0 then ANYFS_PART_NEW else s.

Inductive step : list pc * shared → list pc * shared → Prop :=
  | step_check ts s i st' p : ts !! i = Some EStart → enter_check (st s) = (st', p) →
      step (ts, s) (<[i := p]> ts, mk_shared st' (in_kernel s))
  | step_mount ts s i w : ts !! i = Some (EMount w) →
      step (ts, s) (<[i := ECommit 0]> ts, mk_shared (st s) true)
  | step_mount_fails ts s i w rc : ts !! i = Some (EMount w) → rc < 0 →
      step (ts, s) (<[i := ECommit rc]> ts, s)
  | step_mount_again ts s i w : ts !! i = Some (EMount w) → w < BUSY_RETRY_TOTAL_MS →
      step (ts, s) (<[i := EMount (w + BUSY_RETRY_STEP_MS)]> ts, s)
  | step_commit ts s i rc : ts !! i = Some (ECommit rc) →
      step (ts, s) (<[i := Done rc]> (broadcast <$> ts), mk_shared (enter_commit rc) (in_kernel s))
  | step_leave ts s i : ts !! i = Some LStart →
      step (ts, s) (<[i := leave_check (st s)]> ts, s)
  | step_umount ts s i : ts !! i = Some LUmount → in_kernel s = true →
      step (ts, s) (<[i := LCommit 0]> ts, mk_shared (st s) false)
  | step_umount_fails ts s i rc : ts !! i = Some LUmount → rc < 0 →
      step (ts, s) (<[i := LCommit rc]> ts, s)
  | step_left ts s i rc : ts !! i = Some (LCommit rc) →
      step (ts, s) (<[i := Done rc]> ts, mk_shared (leave_commit rc (st s)) (in_kernel s)).

(** ** The invariant: one thread mounts, sleepers wait for it, and with at most
    one thread that leaves the table never lags behind the kernel unseen *)

Definition mounting (p : pc) : nat := match p with EMount _ | ECommit _ => 1 | _ => 0 end.
Definition leaving (p : pc) : nat := match p with LStart | LUmount | LCommit _ => 1 | _ => 0 end.
Definition unmounting (p : pc) : nat := match p with LUmount | LCommit _ => 1 | _ => 0 end.
Definition sleeping (p : pc) : nat := match p with EWait => 1 | _ => 0 end.
Definition all_done (ts : list pc) : Prop := Forall (λ p, ∃ rc, p = Done rc) ts.

(** What a program counter knows of the shared state. *)
Definition knows (s : shared) (p : pc) : Prop :=
  match p with
  | EMount w => 0 <= w <= BUSY_RETRY_TOTAL_MS ∧ w mod BUSY_RETRY_STEP_MS = 0 ∧ in_kernel s = false
  | ECommit rc => rc <= 0 ∧ (rc = 0 ↔ in_kernel s = true)
  | LUmount => st s = ANYFS_PART_MOUNTED ∧ in_kernel s = true
  | LCommit rc => rc <= 0 ∧ st s = ANYFS_PART_MOUNTED ∧ (rc = 0 ↔ in_kernel s = false)
  | _ => True
  end.

Record Inv (c : list pc * shared) : Prop := {
  inv_one : sum_list_with mounting c.1 = if bool_decide (st c.2 = ANYFS_PART_MOUNTING) then 1%nat else 0%nat;
  inv_sleep : (0 < sum_list_with sleeping c.1)%nat → st c.2 = ANYFS_PART_MOUNTING;
  inv_leave : (sum_list_with leaving c.1 <= if whole then 0 else 1)%nat;
  inv_knows : Forall (knows c.2) c.1;
  inv_agree : sum_list_with unmounting c.1 = 0%nat → st c.2 ≠ ANYFS_PART_MOUNTING →
              (st c.2 = ANYFS_PART_MOUNTED ↔ in_kernel c.2 = true) }.

(** Thread [i] is the one that mounts, or leaves: no other does. *)
Lemma only_one (f : pc → nat) ts i j x z : (sum_list_with f ts <= 1)%nat → ts !! i = Some x → f x = 1%nat →
  i ≠ j → ts !! j = Some z → f z = 0%nat.
Proof. intros H Hi Hx Hn Hj. pose proof (sum_two f ts i j x z Hn Hi Hj). lia. Qed.

Lemma none_of (f : pc → nat) ts j z : sum_list_with f ts = 0%nat → ts !! j = Some z → f z = 0%nat.
Proof. intros H Hj. pose proof (sum_lookup f ts j z Hj). lia. Qed.

Lemma idle_knows s p : mounting p = 0%nat → unmounting p = 0%nat → knows s p.
Proof. by destruct p. Qed.

Lemma mounting_now ts s i x : Inv (ts, s) → ts !! i = Some x → mounting x = 1%nat →
  st s = ANYFS_PART_MOUNTING ∧ sum_list_with mounting ts = 1%nat.
Proof.
  intros I Hi Hx. pose proof (sum_lookup mounting ts i x Hi). pose proof (inv_one _ I) as H1. cbn in H1.
  rewrite H1 in *. case_bool_decide; [done|lia].
Qed.

Lemma no_unmount ts s : Inv (ts, s) → st s ≠ ANYFS_PART_MOUNTED → sum_list_with unmounting ts = 0%nat.
Proof.
  intros I Hs. destruct (decide (sum_list_with unmounting ts = 0%nat)) as [|Hn]; [done|].
  destruct (sum_pos unmounting ts ltac:(lia)) as (i & x & Hi & Hx).
  pose proof (Forall_lookup_1 _ _ _ _ (inv_knows _ I) Hi) as Hk. destruct x; cbn in Hx, Hk; try lia; tauto.
Qed.

Lemma no_mount ts s : Inv (ts, s) → st s ≠ ANYFS_PART_MOUNTING → sum_list_with mounting ts = 0%nat.
Proof. intros I Hs. pose proof (inv_one _ I) as H. cbn in H. by rewrite bool_decide_false in H. Qed.

Lemma unmounting_leaving ts : (sum_list_with unmounting ts <= sum_list_with leaving ts)%nat.
Proof. induction ts as [|p ts IH]; [done|]. cbn [sum_list_with]. destruct p; cbn; lia. Qed.

(** While thread [i] mounts or unmounts, what it does to the shared state
    concerns no other thread. *)
Lemma others_idle ts s s' i x y : Inv (ts, s) → ts !! i = Some x →
  (mounting x = 1%nat ∨ unmounting x = 1%nat) → knows s' y → Forall (knows s') (<[i := y]> ts).
Proof.
  intros I Hi Hx Hy. eapply Forall_step; [done|apply (inv_knows _ I)| |done]. cbn. intros j z Hn Hj _.
  destruct Hx as [Hx|Hx].
  - destruct (mounting_now _ _ _ _ I Hi Hx) as [Hs Hm]. apply idle_knows.
    + eapply (only_one mounting ts i j); [by rewrite Hm|done..].
    + eapply none_of; [|done]. apply (no_unmount _ _ I). by rewrite Hs.
  - assert (Hs : st s = ANYFS_PART_MOUNTED).
    { pose proof (Forall_lookup_1 _ _ _ _ (inv_knows _ I) Hi) as Hk. destruct x; cbn in Hx, Hk; try lia; tauto. }
    pose proof (unmounting_leaving ts). pose proof (inv_leave _ I) as Hl. cbn in Hl. apply idle_knows.
    + eapply none_of; [|done]. apply (no_mount _ _ I). by rewrite Hs.
    + eapply (only_one unmounting ts i j); [|done..]. destruct whole; lia.
Qed.

(** The thread that moved, in one lemma: the counts follow from the counts of
    its old and new program counter. *)
Lemma Inv_move ts s i x y s' : Inv (ts, s) → ts !! i = Some x →
  (mounting y + (if bool_decide (st s = ANYFS_PART_MOUNTING) then 1 else 0) =
   mounting x + (if bool_decide (st s' = ANYFS_PART_MOUNTING) then 1 else 0))%nat →
  (leaving y <= leaving x)%nat →
  (sleeping y = 1%nat ∨ st s = ANYFS_PART_MOUNTING → st s' = ANYFS_PART_MOUNTING) →
  Forall (knows s') (<[i := y]> ts) →
  (sum_list_with unmounting (<[i := y]> ts) = 0%nat → st s' ≠ ANYFS_PART_MOUNTING →
     (st s' = ANYFS_PART_MOUNTED ↔ in_kernel s' = true)) →
  Inv (<[i := y]> ts, s').
Proof.
  intros [H1 H2 H3 H4 H5] Hi Hm Hl Hs Hk Ha. cbn [fst snd] in *.
  pose proof (sum_insert mounting ts i x y Hi). pose proof (sum_insert leaving ts i x y Hi).
  pose proof (sum_insert sleeping ts i x y Hi) as Hsl.
  split; cbn [fst snd]; [lia| |lia|done|done].
  intros Hp. apply Hs. destruct y; [|by left|..]; right; apply H2; cbn in Hsl; lia.
Qed.

Lemma agree_now ts s : Inv (ts, s) → st s = ANYFS_PART_NEW ∨ st s = ANYFS_PART_FAILED → in_kernel s = false.
Proof.
  intros I Hs. destruct (in_kernel s) eqn:E; [|done].
  pose proof (no_unmount _ _ I) as Hu. pose proof (inv_agree _ I) as Ha. cbn in *.
  destruct Hs as [Hs|Hs]; rewrite Hs in *; by pose proof (proj2 (Ha (Hu ltac:(done)) ltac:(done)) E).
Qed.

(** The checks under the lock that change nothing shared. *)
Lemma Inv_look ts s i x y : Inv (ts, s) → ts !! i = Some x → mounting y = mounting x →
  (leaving y <= leaving x)%nat → unmounting y = unmounting x →
  (sleeping y = 1%nat → st s = ANYFS_PART_MOUNTING) → knows s y → Inv (<[i := y]> ts, s).
Proof.
  intros I Hi Hm Hl Hu Hs Hk. eapply Inv_move; [done..|lia|done|naive_solver| |].
  - by apply Forall_insert; [apply (inv_knows _ I)|].
  - intros H0. apply (inv_agree _ I). cbn. pose proof (sum_insert unmounting ts i x y Hi). lia.
Qed.

Lemma Inv_begin ts s i : Inv (ts, s) → ts !! i = Some EStart → st s = ANYFS_PART_NEW ∨ st s = ANYFS_PART_FAILED →
  Inv (<[i := EMount 0]> ts, mk_shared ANYFS_PART_MOUNTING (in_kernel s)).
Proof.
  intros I Hi Hs. pose proof (agree_now _ _ I Hs) as Hf.
  eapply Inv_move; [done..| |done|done| |by intros _ []].
  - cbn. by destruct Hs as [-> | ->].
  - eapply Forall_step; [done|apply (inv_knows _ I)| |done]. intros j z _ Hj _. apply idle_knows.
    + eapply none_of; [|done]. apply (no_mount _ _ I). by destruct Hs as [-> | ->].
    + eapply none_of; [|done]. apply (no_unmount _ _ I). by destruct Hs as [-> | ->].
Qed.

Lemma Inv_commit ts s i rc : Inv (ts, s) → ts !! i = Some (ECommit rc) →
  Inv (<[i := Done rc]> (broadcast <$> ts), mk_shared (enter_commit rc) (in_kernel s)).
Proof.
  intros I Hi. destruct (mounting_now _ _ _ _ I Hi eq_refl) as [Hs Hm].
  pose proof (Forall_lookup_1 _ _ _ _ (inv_knows _ I) Hi) as [Hr Hk]. cbn [snd] in *.
  assert (Hu : sum_list_with unmounting ts = 0%nat) by (apply (no_unmount _ _ I); by rewrite Hs).
  assert (Hb : (broadcast <$> ts) !! i = Some (ECommit rc)) by by rewrite list_lookup_fmap, Hi.
  assert (He : enter_commit rc ≠ ANYFS_PART_MOUNTING) by (unfold enter_commit; repeat case_match; done).
  pose proof (sum_insert mounting _ _ _ (Done rc) Hb) as S1. pose proof (sum_insert leaving _ _ _ (Done rc) Hb) as S2.
  pose proof (sum_insert sleeping _ _ _ (Done rc) Hb) as S3.
  rewrite (sum_fmap mounting mounting) in S1 by by intros []. rewrite (sum_fmap leaving leaving) in S2 by by intros [].
  rewrite (sum_fmap sleeping (λ _, 0%nat)) in S3 by by intros [].
  rewrite (sum_zero (λ _, 0%nat)) in S3 by by apply Forall_forall.
  cbn [mounting leaving sleeping] in *. pose proof (inv_leave _ I) as Hl. cbn in Hl.
  split; cbn [fst snd st in_kernel].
  - rewrite bool_decide_false by done. lia.
  - lia.
  - lia.
  - apply Forall_lookup. intros j z Hj. destruct (decide (i = j)) as [<-|Hn].
    { rewrite list_lookup_insert_eq in Hj by by eapply lookup_lt_Some. by injection Hj as <-. }
    rewrite list_lookup_insert_ne, list_lookup_fmap in Hj by done.
    destruct (ts !! j) as [z'|] eqn:Ez; [|done]. injection Hj as <-.
    pose proof (only_one mounting ts i j _ z' ltac:(lia) Hi eq_refl Hn Ez). pose proof (none_of _ _ _ _ Hu Ez).
    apply idle_knows; by destruct z'.
  - intros _ _. unfold enter_commit. destruct (Z.eqb_spec rc 0); [tauto|].
    split; [by destruct (whole || _)|]. intros H. by apply Hk in H.
Qed.

Lemma Inv_left ts s i rc : Inv (ts, s) → ts !! i = Some (LCommit rc) →
  Inv (<[i := Done rc]> ts, mk_shared (leave_commit rc (st s)) (in_kernel s)).
Proof.
  intros I Hi. pose proof (Forall_lookup_1 _ _ _ _ (inv_knows _ I) Hi) as (Hr & Hs & Hk). cbn [snd] in *.
  eapply Inv_move; [done..| |cbn; lia| | |].
  - rewrite Hs. unfold leave_commit. by destruct (rc =? 0).
  - rewrite Hs. by intros [].
  - eapply others_idle; [done..|by right|done].
  - intros _ _. cbn. unfold leave_commit. rewrite Hs. destruct (Z.eqb_spec rc 0) as [E|E].
    + apply Hk in E. rewrite E. done.
    + split; [intros _|done]. destruct (in_kernel s); [done|]. tauto.
Qed.

Lemma Inv_check ts s i st' p : Inv (ts, s) → ts !! i = Some EStart → enter_check (st s) = (st', p) →
  Inv (<[i := p]> ts, mk_shared st' (in_kernel s)).
Proof.
  intros I Hi He. unfold enter_check in He. destruct s as [z k]. cbn [st in_kernel] in *.
  destruct z; [| | |destruct whole]; injection He as <- <-;
    [by apply (Inv_begin ts (mk_shared ANYFS_PART_NEW k)); [..|left]
    |by eapply Inv_look|by eapply Inv_look|by apply (Inv_begin ts (mk_shared ANYFS_PART_FAILED k)); [..|right]|by eapply Inv_look].
Qed.

Lemma Inv_leave ts s i : Inv (ts, s) → ts !! i = Some LStart → Inv (<[i := leave_check (st s)]> ts, s).
Proof.
  intros I Hi. pose proof (sum_lookup leaving ts i _ Hi) as Hl. pose proof (inv_leave _ I) as H1. cbn in Hl, H1.
  unfold leave_check. destruct whole; [lia|]. cbn [orb]. case_bool_decide as Hs; [|by eapply Inv_look; [..|cbn; lia| | |]].
  assert (Hu : sum_list_with unmounting ts = 0%nat).
  { apply sum_zero, Forall_lookup. intros j z Hj. destruct (decide (i = j)) as [<-|Hn]; [by rewrite Hi in Hj; injection Hj as <-|].
    pose proof (sum_two leaving ts i j _ _ Hn Hi Hj). destruct z; cbn in *; lia. }
  pose proof (inv_agree _ I Hu) as Ha. cbn in Ha. rewrite Hs in Ha.
  eapply Inv_move; [done..|cbn; lia| | |].
  - rewrite Hs. by intros [].
  - apply Forall_insert; [apply (inv_knows _ I)|]. cbn. split; [done|]. by apply Ha.
  - intros H0. pose proof (sum_insert unmounting ts i _ LUmount Hi) as S1. cbn in S1. lia.
Qed.

Lemma threads_step c c' : Inv c → step c c' → Inv c'.
Proof.
  intros I Hs. destruct Hs as [ts s i st' p Hi He|ts s i w Hi|ts s i w rc Hi Hr|ts s i w Hi Hw|ts s i rc Hi|ts s i Hi
    |ts s i Hi Hm|ts s i rc Hi Hr|ts s i rc Hi];
    [by eapply Inv_check| | | |by apply Inv_commit|by apply Inv_leave| | |by apply Inv_left];
    pose proof (Forall_lookup_1 _ _ _ _ (inv_knows _ I) Hi) as Hk; cbn in Hk.
  - destruct (mounting_now _ _ _ _ I Hi eq_refl) as [Hs _].
    eapply Inv_move; [done..|cbn; lia|done| |by intros _ []]. eapply others_idle; [done..|by left|]. by split.
  - eapply Inv_look; [done..|]. cbn. destruct Hk as (_ & _ & ->). split; [lia|]. split; [lia|done].
  - eapply Inv_look; [done..|]. cbn. destruct Hk as (H1 & H2 & H3). unfold BUSY_RETRY_TOTAL_MS, BUSY_RETRY_STEP_MS in *.
    apply Z.div_exact in H2; [|done]. split_and!; [lia|lia| |done].
    replace (w + 10) with ((w / 10 + 1) * 10) by lia. by apply Z.mod_mul.
  - destruct Hk as [Hs Hk]. eapply Inv_move; [done..|cbn; lia| | |].
    + by intros [].
    + eapply others_idle; [done..|by right|]. cbn. done.
    + intros H0. pose proof (sum_lookup unmounting (<[i := LCommit 0]> ts) i (LCommit 0)) as Hl. cbn in Hl.
      rewrite list_lookup_insert_eq in Hl by by eapply lookup_lt_Some. specialize (Hl eq_refl). lia.
  - destruct Hk as [Hs Hk]. eapply Inv_look; [done..|]. cbn. rewrite Hk. split; [lia|]. split; [done|]. split; [lia|done].
Qed.

(** ** Every run ends *)

Definition live (p : pc) : nat := match p with Done _ => 0 | _ => 1 end.
Definition left_of (p : pc) : nat :=
  match p with
  | EStart => 54 | EWait => 53
  | EMount w => 2 + Z.to_nat ((BUSY_RETRY_TOTAL_MS - w) / BUSY_RETRY_STEP_MS)
  | ECommit _ => 1
  | LStart => 3 | LUmount => 2 | LCommit _ => 1
  | Done _ => 0
  end.
(** A commit wakes every sleeper, but it also retires its thread. *)
Definition measure (c : list pc * shared) : nat :=
  ((54 * length c.1 + 1) * sum_list_with live c.1 + sum_list_with left_of c.1)%nat.

Lemma left_bound s p : knows s p → (left_of p <= 54)%nat.
Proof.
  destruct p as [| |w| | | | |]; cbn; try lia. intros (Hw & _). unfold BUSY_RETRY_TOTAL_MS, BUSY_RETRY_STEP_MS in *.
  assert ((500 - w) / 10 <= 50) by (apply Z.div_le_upper_bound; lia). lia.
Qed.

Lemma measure_move ts i x y s s' : ts !! i = Some x → (live y <= live x)%nat → (left_of y < left_of x)%nat →
  (measure (<[i := y]> ts, s') < measure (ts, s))%nat.
Proof.
  intros Hi Hl Hm. unfold measure. cbn [fst]. rewrite length_insert.
  pose proof (sum_insert live ts i x y Hi). pose proof (sum_insert left_of ts i x y Hi). nia.
Qed.

Lemma enter_check_live z st' p : enter_check z = (st', p) → (left_of p < 54)%nat.
Proof. unfold enter_check. destruct z; [| | |destruct whole]; intros [= <- <-]; by apply Nat.ltb_lt. Qed.

Lemma left_mount s w : knows s (EMount w) → w < BUSY_RETRY_TOTAL_MS →
  (left_of (EMount (w + BUSY_RETRY_STEP_MS)) < left_of (EMount w))%nat.
Proof.
  intros (Hw & Hm & _) Hl. cbn. unfold BUSY_RETRY_TOTAL_MS, BUSY_RETRY_STEP_MS in *.
  replace (500 - w) with ((500 - (w + 10)) + 1 * 10) by lia. rewrite Z.div_add by done.
  apply Z.div_exact in Hm; [|done].
  assert (0 <= (500 - (w + 10)) / 10) by (apply Z.div_pos; lia). lia.
Qed.

Lemma measure_commit ts s i rc s' : Inv (ts, s) → ts !! i = Some (ECommit rc) →
  (measure (<[i := Done rc]> (broadcast <$> ts), s') < measure (ts, s))%nat.
Proof.
  intros I Hi. unfold measure. cbn [fst]. rewrite length_insert, length_fmap.
  assert (Hb : (broadcast <$> ts) !! i = Some (ECommit rc)) by by rewrite list_lookup_fmap, Hi.
  pose proof (sum_insert live _ _ _ (Done rc) Hb) as S1. rewrite (sum_fmap live live) in S1 by by intros [].
  pose proof (sum_insert left_of _ _ _ (Done rc) Hb) as S2. cbn [live left_of] in *.
  pose proof (sum_bound_all left_of (broadcast <$> ts) 54) as Hall. rewrite length_fmap in Hall.
  assert (Hk : Forall (λ p, left_of p <= 54)%nat (broadcast <$> ts)).
  { apply Forall_fmap. eapply Forall_impl; [apply (inv_knows _ I)|]. intros p Hp. apply left_bound in Hp.
    destruct p; cbn in *; lia. }
  specialize (Hall Hk). nia.
Qed.

Lemma step_decreases c c' : Inv c → step c c' → (measure c' < measure c)%nat.
Proof.
  intros I Hs. destruct Hs as [ts s i st' p Hi He|ts s i w Hi|ts s i w rc Hi Hr|ts s i w Hi Hw|ts s i rc Hi|ts s i Hi
    |ts s i Hi Hm|ts s i rc Hi Hr|ts s i rc Hi]; [..|by eapply measure_commit| | | |];
    (eapply measure_move; [done| |]); try (cbn; lia).
  - destruct p; cbn; lia.
  - by eapply enter_check_live.
  - pose proof (Forall_lookup_1 _ _ _ _ (inv_knows _ I) Hi) as Hk. by eapply left_mount.
  - unfold leave_check. destruct (whole || _); cbn; lia.
  - unfold leave_check. destruct (whole || _); cbn; lia.
Qed.

(** A pool that has not finished can go on: a sleeper waits for a thread that
    is mounting. *)
Lemma can_step ts s i p : Inv (ts, s) → ts !! i = Some p → sleeping p = 0%nat → live p = 1%nat → ∃ c', step (ts, s) c'.
Proof.
  intros I Hi Hs Hl. destruct p as [| |w|rc| | |rc|]; try done.
  - destruct (enter_check (st s)) as [st' p] eqn:He. eexists. by eapply step_check.
  - eexists. by eapply step_mount.
  - eexists. by eapply step_commit.
  - eexists. by eapply step_leave.
  - eexists. eapply (step_umount_fails _ _ _ (-1)); [done|lia].
  - eexists. by eapply step_left.
Qed.

Lemma threads_progress c : Inv c → all_done c.1 ∨ ∃ c', step c c'.
Proof.
  destruct c as [ts s]. intros I. cbn [fst]. destruct (decide (sum_list_with live ts = 0%nat)) as [H0|H0].
  { left. apply Forall_lookup. intros i p Hi. pose proof (none_of live ts i p H0 Hi). destruct p; try done. by eexists. }
  right. destruct (sum_pos live ts ltac:(lia)) as (i & p & Hi & Hp).
  assert (live p = 1%nat) by (destruct p; cbn in *; lia).
  destruct (decide (sleeping p = 0%nat)) as [|Hs]; [by eapply can_step|].
  pose proof (sum_lookup sleeping ts i p Hi). pose proof (inv_sleep _ I) as Hm. pose proof (inv_one _ I) as Ho. cbn in Hm, Ho.
  rewrite bool_decide_true in Ho by (apply Hm; lia).
  destruct (sum_pos mounting ts ltac:(lia)) as (j & q & Hj & Hq).
  eapply (can_step ts s j q); [done..| |]; destruct q; cbn in *; lia.
Qed.

(** ** Without a thread that leaves, MOUNTED is stable *)
Record Stays (c : list pc * shared) : Prop := {
  stays_inv : Inv c;
  stays_enter : sum_list_with leaving c.1 = 0%nat;
  stays_ok : Done 0 ∈ c.1 → st c.2 = ANYFS_PART_MOUNTED }.

Lemma elem_move (ts : list pc) (i : nat) (x y z : pc) : ts !! i = Some x → z ∈ <[i := y]> ts → z = y ∨ z ∈ ts.
Proof.
  intros Hi Hz. apply list_elem_of_lookup in Hz as [j Hj]. destruct (decide (i = j)) as [<-|Hn].
  - rewrite list_lookup_insert_eq in Hj by by eapply lookup_lt_Some. left. congruence.
  - rewrite list_lookup_insert_ne in Hj by done. right. by eapply list_elem_of_lookup_2.
Qed.

Lemma Stays_step c c' : Stays c → step c c' → Stays c'.
Proof.
  intros [I H0 Hok] Hs. pose proof (threads_step _ _ I Hs) as I'.
  destruct Hs as [ts s i st' p Hi He|ts s i w Hi|ts s i w rc Hi Hr|ts s i w Hi Hw|ts s i rc Hi|ts s i Hi
    |ts s i Hi Hm|ts s i rc Hi Hr|ts s i rc Hi]; cbn [fst snd] in *;
    try (pose proof (none_of leaving _ _ _ H0 Hi); done); split; cbn [fst snd]; try done.
  - pose proof (sum_insert leaving ts i _ p Hi) as Hl. cbn in Hl. enough (leaving p = 0%nat) by lia.
    unfold enter_check in He. destruct (st s); [| | |destruct whole]; by injection He as <- <-.
  - intros [<-|Hd]%(elem_move _ _ _ _ _ Hi); unfold enter_check in He; cbn [st].
    + destruct (st s); [| | |destruct whole]; by injection He as <-.
    + rewrite (Hok Hd) in He. by injection He as <- <-.
  - pose proof (sum_insert leaving ts i _ (ECommit 0) Hi) as Hl. cbn in Hl. lia.
  - intros [?|Hd]%(elem_move _ _ _ _ _ Hi); [done|by apply Hok].
  - pose proof (sum_insert leaving ts i _ (ECommit rc) Hi) as Hl. cbn in Hl. lia.
  - intros [?|Hd]%(elem_move _ _ _ _ _ Hi); [done|by apply Hok].
  - pose proof (sum_insert leaving ts i _ (EMount (w + BUSY_RETRY_STEP_MS)) Hi) as Hl. cbn in Hl. lia.
  - intros [?|Hd]%(elem_move _ _ _ _ _ Hi); [done|by apply Hok].
  - assert (Hb : (broadcast <$> ts) !! i = Some (ECommit rc)) by by rewrite list_lookup_fmap, Hi.
    pose proof (sum_insert leaving _ i _ (Done rc) Hb) as Hl. rewrite (sum_fmap leaving leaving) in Hl by by intros [].
    cbn in Hl. lia.
  - assert (Hb : (broadcast <$> ts) !! i = Some (ECommit rc)) by by rewrite list_lookup_fmap, Hi.
    intros [[= <-]|Hd]%(elem_move _ _ _ _ _ Hb); [done|].
    apply list_elem_of_fmap in Hd as (q & Hq & Hd). destruct q; try done. injection Hq as <-.
    destruct (mounting_now _ _ _ _ I Hi eq_refl) as [Hs _]. by rewrite (Hok Hd) in Hs.
Qed.

(** Threads about to enter or leave a slot whose table entry agrees with the
    kernel; at most one of them leaves, none if the slot is the whole disk. *)
Record starting (ts : list pc) (s : shared) : Prop := {
  start_pc : Forall (λ p, p = EStart ∨ p = LStart) ts;
  start_leave : (sum_list_with leaving ts <= if whole then 0 else 1)%nat;
  start_quiet : st s ≠ ANYFS_PART_MOUNTING;
  start_agree : st s = ANYFS_PART_MOUNTED ↔ in_kernel s = true }.

Lemma threads_start ts s : starting ts s → Inv (ts, s).
Proof.
  intros [Hp Hl Hq Ha]. split; cbn [fst snd]; [| |done| |done].
  - rewrite bool_decide_false by done. apply sum_zero. eapply Forall_impl; [done|]. by intros p [-> | ->].
  - rewrite sum_zero; [lia|]. eapply Forall_impl; [done|]. by intros p [-> | ->].
  - eapply Forall_impl; [done|]. by intros p [-> | ->].
Qed.
End Code.

(** C9 Threads that enter a slot at once, with at most one that leaves it, in
    every interleaving: one thread mounts at a time; a sleeper is never
    forgotten, for a run that can do no more has returned from every call;
    runs are finite; and when all have returned the table and the kernel
    agree: the slot is MOUNTED exactly when its mount exists, and never left
    MOUNTING.  If no thread leaves, a call that returned 0 means that the slot
    is and stays mounted. *)
Theorem session_threads_safe whole ts s ts' s' : starting whole ts s → rtc (step whole) (ts, s) (ts', s') →
  (sum_list_with mounting ts' <= 1)%nat ∧
  (nf (step whole) (ts', s') → all_done ts') ∧
  (∀ n c, nsteps (step whole) n (ts', s') c → n <= measure (ts', s'))%nat ∧
  (all_done ts' → st s' ≠ ANYFS_PART_MOUNTING ∧ (st s' = ANYFS_PART_MOUNTED ↔ in_kernel s' = true)) ∧
  (sum_list_with leaving ts = 0%nat → Done 0 ∈ ts' → st s' = ANYFS_PART_MOUNTED).
Proof.
  intros Hst Hr. pose proof (threads_start _ _ _ Hst) as I0. pose proof (run_inv _ _ (threads_step whole) _ _ Hr I0) as I.
  split_and!.
  - pose proof (inv_one _ _ I) as H1. cbn in H1. rewrite H1. case_bool_decide; lia.
  - intros Hn. by apply (run_stops _ _ (threads_step whole) _ (threads_progress whole) _ _ I0 Hr Hn).
  - intros n c Hn. pose proof (run_bounded _ _ (threads_step whole) _ (step_decreases whole) _ _ _ I Hn). lia.
  - intros Hd. assert (Hz : ∀ f : pc → nat, (∀ rc, f (Done rc) = 0%nat) → sum_list_with f ts' = 0%nat).
    { intros f Hf. apply sum_zero. eapply Forall_impl; [done|]. intros p [rc ->]. apply Hf. }
    pose proof (inv_one _ _ I) as H1. cbn in H1. rewrite (Hz mounting) in H1 by done.
    assert (Hm : st s' ≠ ANYFS_PART_MOUNTING) by (intros E; by rewrite bool_decide_true in H1).
    split; [done|]. apply (inv_agree _ _ I); [by apply Hz|done].
  - intros Hl Hd. assert (Hs0 : Stays whole (ts, s)).
    { split; [done|done|]. intros Hx. eapply Forall_forall in Hx; [|apply Hst]. by destruct Hx. }
    apply (stays_ok _ _ (run_inv _ _ (Stays_step whole) _ _ Hr Hs0)). done.
Qed.

(** One step of a concrete pool: thread [i] moves by rule [r]. *)
Ltac go r i := eapply rtc_l; [eapply (r _ _ _ i); (reflexivity || done || lia)|]; cbn [insert list_insert fmap list_fmap
  broadcast st in_kernel leave_check leave_commit enter_commit orb Z.eqb bool_decide].

(** Two threads enter while a third leaves: one mounts, the other sleeps and
    is woken, the third finds nothing to leave. *)
Lemma demo_run : rtc (step false) ([EStart; EStart; LStart], mk_shared ANYFS_PART_NEW false)
  ([Done 0; Done 0; Done (-1)], mk_shared ANYFS_PART_MOUNTED true).
Proof.
  go step_check 0%nat. go step_check 1%nat. go step_leave 2%nat. go step_mount 0%nat. go step_commit 0%nat.
  go step_check 1%nat. apply rtc_refl.
Qed.

Lemma demo_starts : starting false [EStart; EStart; LStart] (mk_shared ANYFS_PART_NEW false).
Proof. split; cbn; [|lia|done|done]. repeat (apply Forall_cons_2; [auto|]). constructor. Qed.

Lemma session_threads_safe_witness :
  ANYFS_PART_MOUNTED ≠ ANYFS_PART_MOUNTING ∧ (ANYFS_PART_MOUNTED = ANYFS_PART_MOUNTED ↔ true = true).
Proof.
  refine (proj1 (proj2 (proj2 (proj2 (session_threads_safe false _ _ _ _ demo_starts demo_run)))) _).
  repeat constructor; eauto.
Defined.

(** ** Where the locking is not enough *)

(** Two threads that leave a partition and one that enters it: the second
    leaver has looked before the first unmounted, unmounts what the third has
    just mounted, and the slot ends MOUNTED without a mount. *)
Lemma two_leaves_race : rtc (step false) ([LStart; LStart; EStart], mk_shared ANYFS_PART_MOUNTED true)
  ([Done 0; Done 0; Done 0], mk_shared ANYFS_PART_MOUNTED false).
Proof.
  go step_leave 0%nat. go step_leave 1%nat. go step_umount 0%nat. go step_left 0%nat.
  go step_check 2%nat. go step_mount 2%nat. go step_umount 1%nat. go step_left 1%nat. go step_commit 2%nat.
  apply rtc_refl.
Qed.

(** Leaving the whole disk does not look at its state: one thread that leaves
    while another enters is enough. *)
Lemma whole_leave_race : rtc (step true) ([EStart; LStart], mk_shared ANYFS_PART_NEW false)
  ([Done 0; Done 0], mk_shared ANYFS_PART_MOUNTED false).
Proof.
  go step_check 0%nat. go step_mount 0%nat. go step_leave 1%nat. go step_umount 1%nat. go step_left 1%nat.
  go step_commit 0%nat. apply rtc_refl.
Qed.

(** ** One thread alone: the model of Session *)
Import SessionSpec.

(** The call that Session models is a run of one thread here, with the same
    result and the same state of the slot. *)
Lemma enter_fs_is_run {W} `{!Lkl W, !LklLaws W, !Host W, !HostLaws W, !Core W, !CoreLaws W}
    d i p flags (w : W) k : SInv (-2) d (mnts w) → parts d !! i = Some p → kind p = ANYFS_PART_KIND_FS →
  wp (enter_fs_slot (Z.of_nat i) flags) (λ r s', ∃ p' k', parts s'.1 !! i = Some p' ∧
    rtc (step false) ([EStart], mk_shared (state p) k) ([Done r.1], mk_shared (state p') k')) (d, w).
Proof.
  intros I Hp Hk. eapply wp_mono; [by apply wp_enter_fs|]. cbn beta.
  intros r [d' w'] (_ & _ & p' & Hp' & H). cbn [fst] in *. destruct (state p) eqn:Es.
  - destruct H as [(-> & E' & _)|[[-> E']|(Hr & Hb & _ & E' & _)]].
    + exists p', true. split; [done|]. rewrite E'.
      go step_check 0%nat. go step_mount 0%nat. go step_commit 0%nat. apply rtc_refl.
    + exists p', k. split; [done|]. rewrite E'. go step_check 0%nat.
      eapply rtc_l; [by eapply (step_mount_fails _ _ _ 0%nat _ (- LKL_EBUSY))|]. go step_commit 0%nat. apply rtc_refl.
    + exists p', k. split; [done|]. rewrite E'. go step_check 0%nat.
      eapply rtc_l; [by eapply (step_mount_fails _ _ _ 0%nat _ r.1)|].
      assert (Ec : enter_commit false r.1 = ANYFS_PART_FAILED).
      { unfold enter_commit. by rewrite (proj2 (Z.eqb_neq r.1 0)), (proj2 (Z.eqb_neq r.1 (- LKL_EBUSY))) by lia. }
      rewrite <- Ec. apply rtc_once. by eapply (step_commit _ [ECommit r.1] (mk_shared ANYFS_PART_MOUNTING k) 0%nat).
  - pose proof (inv_slot _ _ _ I i p Hp Es). lia.
  - destruct H as [-> ->]. exists p, k. split; [done|]. rewrite Es. go step_check 0%nat. apply rtc_refl.
  - destruct H as [-> ->]. exists p, k. split; [done|]. rewrite Es. go step_check 0%nat. apply rtc_refl.
Qed.
End SessionThreads.
