(* ===== verification/SessionFrame.v ===== *)
(** * SessionFrame

    Sessions do not interfere: whatever is done to one disk image, the mounts
    of every other one stay as they are.  A partial-correctness calculus over
    the code of Session: the session keeps its disk id, and the mount table
    is unchanged at every path that is not under the disk's own prefix. *)
From S2P Require Import Prelude CLib Lkl Path Probe Sysfs MountOpts Mount Dm Session SessionSpec.
Import CLib Probe Mount Session SessionSpec.

Module SessionFrame.

(** Every mount point of disk [id] starts with this. *)
Definition own_prefix (id : Z) : bytes := bs "/lklmnt/anyfs_d" ++ fmt_d id ++ [95].

(** A path that disk [id] has nothing to do with. *)
Definition foreign (id : Z) (q : bytes) : Prop := starts_with (own_prefix id) q = false ∧ q ≠ bs "/proc".

Lemma starts_take p s n : starts_with p s = true → (length p <= n)%nat → starts_with p (take n s) = true.
Proof.
  revert s n. induction p as [|a p IH]; intros s n H Hn; [done|]. destruct s as [|b s]; [done|].
  destruct n as [|n]; [cbn in Hn; lia|]. cbn [take starts_with] in *. apply andb_true_iff in H as [-> H]. cbn.
  apply IH; [done|cbn in Hn; lia].
Qed.

Lemma own_mnt_path id rest : 0 <= id < 2 ^ 31 →
  starts_with (own_prefix id) (mnt_path (snprintf 64 (bs "anyfs_d" ++ fmt_d id ++ 95 :: rest)).2) = true.
Proof.
  intros Hd. pose proof (fmt_d_len32 id ltac:(lia)) as Hl. unfold mnt_path. cbn [snprintf snd].
  assert (Hp : length (own_prefix id) = (16 + length (fmt_d id))%nat).
  { unfold own_prefix. rewrite !length_app. change (length (bs "/lklmnt/anyfs_d")) with 15%nat. cbn [length]. lia. }
  apply starts_take; [|rewrite Hp; lia].
  assert (E : ∀ n, (9 + length (fmt_d id) <= n)%nat →
    starts_with (own_prefix id) (bs "/lklmnt/" ++ take n (bs "anyfs_d" ++ fmt_d id ++ 95 :: rest)) = true).
  { intros n Hn. unfold own_prefix. change (bs "/lklmnt/anyfs_d") with (bs "/lklmnt/" ++ bs "anyfs_d").
    rewrite take_app_ge by (change (length (bs "anyfs_d")) with 7%nat; lia).
    rewrite take_app_ge by (change (length (bs "anyfs_d")) with 7%nat; lia).
    change (length (bs "anyfs_d")) with 7%nat.
    destruct (n - 7 - length (fmt_d id))%nat as [|k] eqn:Ek; [lia|]. cbn [take].
    apply starts_with_spec. exists (take k rest). by rewrite <- !app_assoc. }
  apply E. lia.
Qed.

(** The texts of the table, which no operation changes. *)
Definition names (d : AnyfsSession) := (whole_label_hint d, label <$> parts d).

Lemma names_upd d i f : (∀ p, label (f p) = label p) → names (upd_slot i f d) = names d.
Proof.
  intros Hf. unfold names, upd_slot. cbn. f_equal. apply list_eq. intros j. rewrite !list_lookup_fmap.
  destruct (decide (Z.to_nat i = j)) as [->|]; [rewrite list_lookup_alter_eq|by rewrite list_lookup_alter_ne].
  destruct (parts d !! j); simpl; [by rewrite Hf|done].
Qed.

Section Frame.
Context {W : Type} `{!Lkl W, !LklLaws W, !Host W, !HostLaws W, !Core W, !CoreLaws W}.
Context (id : Z) (L : bytes * list bytes) (D : gset Z) (q : bytes) (v : option MountInfo).
Hypothesis Hid : 0 <= id < 2 ^ 31.
Hypothesis Hq : foreign id q.
Notation St := (AnyfsSession * W)%type.

(** Kernel code that leaves the entry of [q] and the disks alone; session code
    that does and keeps the disk's id and its texts. *)
Definition K (w : W) : Prop := mnts w !! q = v ∧ v_dsk (view w) = D.
Definition kq {A} (m : M W A) : Prop := ∀ w, K w → wp m (λ _ w', K w') w.
Definition P (s : St) : Prop := (disk_id s.1 = id ∧ names s.1 = L) ∧ K s.2.
Definition kp {A} (m : M St A) : Prop := ∀ s a s', P s → m s = Some (a, s') → P s'.

Lemma kq_view {A} (m : M W A) : (∀ w, wp m (λ _ w', view w' = view w) w) → kq m.
Proof. intros H w Hw. eapply wp_mono; [apply H|]. intros a w' E. cbn beta in E. unfold K, mnts in *. by rewrite E. Qed.

Lemma kq_quiet {A} (m : M W A) :
  (∀ (Q : A → W → Prop) w, (∀ r w', view w' = view w → Q r w') → wp m Q w) → kq m.
Proof. intros H. apply kq_view. intros w. by apply H. Qed.

Lemma own_not_q name rest : name = (snprintf 64 (bs "anyfs_d" ++ fmt_d id ++ 95 :: rest)).2 → mnt_path name ≠ q.
Proof. intros -> E. destruct Hq as [Hf _]. rewrite <- E, own_mnt_path in Hf by done. done. Qed.

Lemma mount_post_q w dev fsty mnt flags r w' : mnt ≠ q → K w → mount_post w dev fsty mnt flags r w' → K w'.
Proof.
  intros Hm [Hw Hd] (Hk & m0 & Hp & Hr). destruct Hq as [_ Hproc]. split; [|injection Hk as _ ->; done].
  assert (H0 : m0 !! q = v) by (unfold mnts in Hw; destruct Hp as [->| ->]; [done|by rewrite lookup_insert_ne]).
  destruct (r.2) as [mm|].
  - destruct Hr as (_ & _ & _ & fs & _ & _ & E). unfold mnts. by rewrite E, lookup_insert_ne.
  - destruct Hr as [_ E]. unfold mnts. by rewrite E.
Qed.

Lemma kq_mount disk part fsty name flags : mnt_path name ≠ q → kq (anyfs_mount disk part fsty (Some name) flags).
Proof.
  intros Hn w Hw. eapply wp_mono; [apply wp_anyfs_mount|]. intros r w' [dev Hp]. by eapply mount_post_q.
Qed.
Lemma kq_mount_blkdev dev fsty name flags : mnt_path name ≠ q → kq (anyfs_mount_blkdev (Some dev) fsty (Some name) flags).
Proof. intros Hn w Hw. eapply wp_mono; [apply wp_mount_via_devpath|]. intros r w' Hp. by eapply mount_post_q. Qed.
Lemma kq_umount name : mnt_path name ≠ q → kq (anyfs_umount (Some name)).
Proof.
  intros Hn w Hw. eapply wp_mono; [apply wp_umount_name|]. intros r w' (Hk & _ & He). destruct Hw as [Hw Hd].
  split; [|injection Hk as _ ->; done]. unfold mnts in *.
  destruct He as [[_ E]|[_ E]]; rewrite E; [by rewrite lookup_delete_ne|done].
Qed.

Lemma kp_ret {A} (a : A) : kp (mret a).
Proof. by intros s b s' Hs [= <- <-]. Qed.
Lemma kp_stuck {A} : kp (mstuck (A := A)).
Proof. by intros s b s' Hs. Qed.
Lemma kp_opt {A} (o : option A) : kp (mopt o).
Proof. intros s b s' Hs. unfold mopt. destruct o; [|done]. by intros [= <- <-]. Qed.
Lemma kp_bind {A B} (m : M St A) (k : A → M St B) : kp m → (∀ a, kp (k a)) → kp (m ≫= k).
Proof.
  intros Hm Hk s b s' Hs. unfold mbind, M_bind. destruct (m s) as [[a s1]|] eqn:E; [|done].
  intros H. eapply Hk; [|exact H]. by eapply Hm.
Qed.
(** What is read of the session carries its id. *)
Lemma kp_ses {B} (k : AnyfsSession → M St B) : (∀ d, disk_id d = id → kp (k d)) → kp (ses ≫= k).
Proof. intros Hk [d w] b s' Hs H. eapply (Hk d); [apply Hs|exact Hs|exact H]. Qed.
Lemma kp_upd f : (∀ d, disk_id (f d) = disk_id d ∧ names (f d) = names d) → kp (upd f).
Proof. intros Hf [d w] [] s' [[Hd Hn] Hw] [= <-]. destruct (Hf d). split; [|done]. cbn in *. split; congruence. Qed.
Ltac kp_upd := apply kp_upd; intros ?; (split; [done|first [done|by apply names_upd]]).
Lemma kp_slot i : kp (slot i).
Proof. apply kp_ses. intros d _. apply kp_opt. Qed.
Lemma kp_lower {A} (m : M W A) : kq m → kp (lower m).
Proof.
  intros Hm [d w] a [d' w'] [Hd Hw] E. specialize (Hm w Hw). unfold lower in E. cbn [fst snd] in *.
  unfold wp in Hm. destruct (m w) as [[b w1]|]; [|done]. injection E as <- <- <-. by split.
Qed.


Lemma kp_low_quiet {A} (m : M W A) :
  (∀ (Q : A → W → Prop) w, (∀ r w', view w' = view w → Q r w') → wp m Q w) → kp (lower m).
Proof. intros H. by apply kp_lower, kq_quiet. Qed.

(** The structure of the code: binds, branches, results. *)
Ltac kp_step := first
  [ apply kp_ret | apply kp_stuck | apply kp_opt | apply kp_slot
  | apply kp_ses; intros ? ? | kp_upd
  | apply kp_low_quiet; intros; (by apply wp_unlink) || (by apply wp_mknod) || (by apply wp_nanosleep)
      || (by apply wp_ensure_dev)
  | apply kp_bind; [|intros ?] | case_match ].

Lemma slot_name_own d p : disk_id d = id → mnt_path (slot_name d p) ≠ q.
Proof.
  intros Hd. unfold slot_name. rewrite Hd. destruct (parent_slot p =? ROOT_PARENT).
  - by apply (own_not_q _ (112 :: fmt_u (s_index p))).
  - by apply (own_not_q _ (115 :: fmt_d (slot_id p))).
Qed.
Lemma whole_name_own d : disk_id d = id → mnt_path (whole_name d) ≠ q.
Proof. intros Hd. unfold whole_name. rewrite Hd. by apply (own_not_q _ (bs "whole")). Qed.

Lemma kp_leave part : kp (anyfs_session_leave part).
Proof.
  unfold anyfs_session_leave. apply kp_ses. intros d Hd. destruct (part =? 0).
  - apply kp_bind; [by apply kp_lower, kq_umount, whole_name_own|]. intros rc. repeat kp_step.
  - destruct (find_slot_by_pair_locked d ROOT_PARENT part <? 0); [apply kp_ret|]. apply kp_bind; [apply kp_slot|].
    intros p. destruct (negb _ || negb _); [apply kp_ret|].
    apply kp_bind; [|intros rc; repeat kp_step].
    apply kp_lower, kq_umount. rewrite Hd. by apply (own_not_q _ (112 :: fmt_u part)).
Qed.

Lemma kp_release_loop idx : kp (release_loop idx).
Proof.
  induction idx as [|i idx IH]; cbn [release_loop]; [apply kp_ret|]. apply kp_ses. intros d Hd.
  destruct (parts d !! i); [|apply kp_ret]. apply kp_bind; [|intros _; exact IH].
  case_match; [|apply kp_ret]. apply kp_bind; [apply kp_leave|intros ?; apply kp_ret].
Qed.

Lemma kp_release part : kp (release_conflicts part).
Proof.
  unfold release_conflicts. apply kp_ses. intros d Hd. case_match; [|apply kp_release_loop].
  case_match; [|apply kp_ret]. apply kp_bind; [apply kp_leave|intros ?; apply kp_ret].
Qed.

Lemma kp_mount_retry fuel mount part waited : kq mount → kp (mount_retry fuel mount part waited).
Proof.
  intros Hm. revert waited. induction fuel as [|f IH]; intros waited; cbn [mount_retry]; [apply kp_stuck|].
  apply kp_bind; [by apply kp_lower|]. intros r. case_match; [|apply kp_ret].
  apply kp_bind; [unfold busy_is_transient; repeat kp_step|]. intros b. destruct (b.1); [apply IH|apply kp_ret].
Qed.

Lemma kp_mount_slot d p flags : disk_id d = id → kp (mount_slot d p flags).
Proof.
  intros Hd. unfold mount_slot. pose proof (slot_name_own d p Hd). case_match.
  - apply kp_bind; [case_match; [apply kp_release|apply kp_ret]|]. intros _. by apply kp_mount_retry, kq_mount.
  - by apply kp_lower, kq_mount_blkdev.
Qed.

Lemma kp_enter_fs sid flags : kp (enter_fs_slot sid flags).
Proof.
  unfold enter_fs_slot. apply kp_ses. intros d Hd. apply kp_bind; [apply kp_slot|]. intros p.
  destruct (state p); [|repeat kp_step..]. apply kp_bind; [kp_upd|]. intros _.
  apply kp_bind; [by apply kp_mount_slot|]. intros [rc mnt]. repeat kp_step.
Qed.

Lemma kp_enter_whole flags : kp (enter_whole flags).
Proof.
  unfold enter_whole. apply kp_ses. intros d Hd. case_match; [apply kp_ret|].
  assert (Hgo : kp (
      _ ← upd (set_whole ANYFS_PART_MOUNTING);
      _ ← (if flag flags ANYFS_MOUNT_REPLACE then release_conflicts 0 else mret ());
      _ ← lower ensure_dev;
      _ ← lower (lkl_sys_mknod (whole_devpath d) (Z.lor LKL_S_IFBLK 0x180) (whole_dev d));
      let hint := if len (whole_fstype_hint d) =? 0 then None else Some (whole_fstype_hint d) in
      r ← mount_retry RETRY_FUEL
            (anyfs_mount_blkdev (Some (whole_devpath d)) hint (Some (whole_name d)) (mflags_whole d flags)) 0 0;
      let '(rc, mnt) := r in
      _ ← upd (set_whole (if rc =? 0 then ANYFS_PART_MOUNTED else ANYFS_PART_NEW));
      if rc <? 0 then _ ← lower (lkl_sys_unlink (whole_devpath d)); mret (rc, [])
      else m ← mopt mnt; mret (0, (snprintf ANYFS_LKL_PATH_MAX (mount_point m)).2))).
  { apply kp_bind; [kp_upd|]. intros _. apply kp_bind; [case_match; [apply kp_release|apply kp_ret]|]. intros _.
    apply kp_bind; [kp_step|]. intros _. apply kp_bind; [kp_step|]. intros _.
    apply kp_bind; [by apply kp_mount_retry, kq_mount_blkdev, whole_name_own|]. intros [rc mnt]. repeat kp_step. }
  destruct (whole_state d); [exact Hgo|apply kp_stuck|apply kp_ret|exact Hgo].
Qed.

Lemma kp_enter_container c sid query flags : kp (enter_container_slot c sid query flags).
Proof. unfold enter_container_slot. repeat kp_step. Qed.

Lemma kp_enter c part flags : kp (anyfs_session_enter c part flags).
Proof.
  unfold anyfs_session_enter. case_match; [apply kp_enter_whole|]. apply kp_ses. intros d Hd. case_match; [apply kp_ret|].
  apply kp_bind; [apply kp_slot|]. intros p. case_match; [apply kp_enter_fs|].
  apply kp_bind; [apply kp_enter_container|intros ?; apply kp_ret].
Qed.

Lemma kp_walk_comps c parent comp flags : kp (walk_comps c parent comp flags).
Proof.
  revert parent. induction comp as [|x rest IH]; intros parent; cbn [walk_comps]; [apply kp_ret|].
  apply kp_ses. intros d Hd. case_match; [apply kp_ret|]. destruct rest as [|y rest].
  - apply kp_bind; [apply kp_slot|]. intros p. case_match; (apply kp_bind; [|intros ?; apply kp_ret]);
      [apply kp_enter_fs|apply kp_enter_container].
  - apply kp_bind; [apply kp_enter_container|]. intros rc. case_match; [apply kp_ret|apply IH].
Qed.

Lemma kp_walk c comp flags : kp (anyfs_session_walk c comp flags).
Proof. unfold anyfs_session_walk. case_match; [apply kp_ret|apply kp_walk_comps]. Qed.

Lemma kp_enter_path c comp flags : kp (anyfs_session_enter_path c comp flags).
Proof.
  unfold anyfs_session_enter_path. case_match; [apply kp_ret|]. apply kp_bind; [apply kp_walk|].
  intros [[rc leaf] path]. repeat kp_step.
Qed.

Lemma kp_close_loop n : kp (close_loop n).
Proof.
  induction n as [|n IH]; cbn [close_loop]; [apply kp_ret|]. apply kp_ses. intros d Hd.
  apply kp_bind; [apply kp_slot|]. intros p. apply kp_bind.
  { case_match; [|apply kp_ret]. apply kp_bind; [by apply kp_lower, kq_umount, slot_name_own|intros ?; apply kp_ret]. }
  intros _. apply kp_bind; [|intros _; exact IH]. case_match; [apply kp_ret|].
  apply kp_bind; [by apply kp_lower, kq_view, Dm.wp_dm_remove|intros ?; apply kp_ret].
Qed.

(** Closing detaches the disk at the end. *)
Definition closed (s : St) : Prop := mnts s.2 !! q = v ∧ v_dsk (view s.2) = D ∖ {[id]}.
Definition kc {A} (m : M St A) : Prop := ∀ s a s', P s → m s = Some (a, s') → closed s'.
Lemma kc_bind {A B} (m : M St A) (k : A → M St B) : kp m → (∀ a, kc (k a)) → kc (m ≫= k).
Proof.
  intros Hm Hk s b s' Hs. unfold mbind, M_bind. destruct (m s) as [[a s1]|] eqn:E; [|done].
  intros H. eapply Hk; [|exact H]. by eapply Hm.
Qed.

Lemma kc_ses {B} (k : AnyfsSession → M St B) : (∀ d, disk_id d = id → kc (k d)) → kc (ses ≫= k).
Proof. intros Hk [d w] b s' Hs H. eapply (Hk d); [apply Hs|exact Hs|exact H]. Qed.

Lemma kc_close : kc anyfs_session_close.
Proof.
  unfold anyfs_session_close. apply kc_ses. intros d Hd. apply kc_bind.
  { case_match; [|apply kp_ret]. apply kp_bind; [apply kp_leave|intros ?; apply kp_ret]. }
  intros _. apply kc_bind; [apply kp_close_loop|]. intros _. rewrite Hd. destruct (Z.leb_spec 0 id); [|lia].
  intros [d1 w1] [] s' [_ [Hm HD]]. unfold mbind, M_bind, lower, call. cbn [fst snd].
  pose proof (law_disk_remove id w1) as E. destruct (disk_remove id w1) as [r w2]. intros [= <-].
  unfold closed, mnts in *. cbn [snd] in *. rewrite E. cbn. by rewrite HD.
Qed.
End Frame.

(** ** Other sessions *)

Lemma own_foreign id id2 rest : 0 <= id < 2 ^ 31 → 0 <= id2 < 2 ^ 31 → id2 ≠ id →
  foreign id (bs "/lklmnt/" ++ (bs "anyfs_d" ++ fmt_d id2) ++ 95 :: rest).
Proof.
  intros H1 H2 Hn. split; [|discriminate]. destruct (starts_with (own_prefix id) _) eqn:E; [|done].
  apply starts_with_spec in E as [r E]. unfold own_prefix in E. change (bs "/lklmnt/anyfs_d") with (bs "/lklmnt/" ++ bs "anyfs_d") in E.
  rewrite <- !app_assoc in E. apply app_inv_head, app_inv_head in E. unfold fmt_d in E.
  rewrite (proj2 (Z.ltb_ge id 0)), (proj2 (Z.ltb_ge id2 0)) in E by lia.
  apply digits_split in E as [E _]; [done|lia|lia|done|done].
Qed.

Lemma slot_path_foreign d d2 p : disk_range d → disk_range d2 → disk_id d2 ≠ disk_id d → foreign (disk_id d) (slot_path d2 p).
Proof.
  intros H1 H2 Hn. unfold slot_path, prefix, suffix. destruct (parent_slot p =? ROOT_PARENT).
  - apply (own_foreign (disk_id d) (disk_id d2) (112 :: fmt_u (s_index p))); done.
  - apply (own_foreign (disk_id d) (disk_id d2) (115 :: fmt_d (slot_id p))); done.
Qed.
Lemma whole_path_foreign d d2 : disk_range d → disk_range d2 → disk_id d2 ≠ disk_id d → foreign (disk_id d) (whole_path d2).
Proof. intros H1 H2 Hn. apply (own_foreign (disk_id d) (disk_id d2) (bs "whole")); done. Qed.

(** The mount tables agree outside disk [id]. *)
Definition same_outside (id : Z) (m m' : gmap bytes MountInfo) : Prop := ∀ q, foreign id q → m' !! q = m !! q.

Lemma SInv_outside d mx d2 m m' : disk_range d → disk_id d2 ≠ disk_id d → same_outside (disk_id d) m m' →
  SInv mx d2 m → SInv mx d2 m'.
Proof.
  intros Hd Hn Hs H. assert (Hd2 : disk_range d2) by apply H. eapply SInv_mnts; [| |exact H].
  - intros i p Hp _. apply Hs. by apply slot_path_foreign.
  - intros _. apply Hs. by apply whole_path_foreign.
Qed.

Section Isolation.
Context {W : Type} `{!Lkl W, !LklLaws W, !Host W, !HostLaws W, !Core W, !CoreLaws W}.
Notation St := (AnyfsSession * W)%type.

(** Session code that returns and that the calculus covers leaves the rest of
    the mount table alone. *)
Lemma wp_outside {A} (m : M St A) (Q : A → St → Prop) d w : disk_range d →
  (∀ D q v, foreign (disk_id d) q → kp (disk_id d) (names d) D q v m) → wp m Q (d, w) →
  wp m (λ a s', Q a s' ∧ same_outside (disk_id d) (mnts w) (mnts s'.2) ∧
    v_dsk (view s'.2) = v_dsk (view w) ∧ disk_id s'.1 = disk_id d ∧ names s'.1 = names d) (d, w).
Proof.
  intros Hd Hk Hw. unfold wp in *. destruct (m (d, w)) as [[a s']|] eqn:E; [|done]. split; [done|].
  assert (H : ∀ q, foreign (disk_id d) q → P (disk_id d) (names d) (v_dsk (view w)) q (mnts w !! q) s').
  { intros q Hq. eapply (Hk _ q (mnts w !! q) Hq (d, w)); [|exact E]. done. }
  split; [intros q Hq; by destruct (H q Hq) as [_ [? _]]|]. assert (Hf : foreign (disk_id d) []) by (by split).
  by destruct (H [] Hf) as [[? ?] [_ ?]].
Qed.

Lemma wp_close_outside (Q : () → St → Prop) d w : disk_range d → wp anyfs_session_close Q (d, w) →
  wp anyfs_session_close (λ a s', Q a s' ∧ same_outside (disk_id d) (mnts w) (mnts s'.2) ∧
    v_dsk (view s'.2) = v_dsk (view w) ∖ {[disk_id d]}) (d, w).
Proof.
  intros Hd Hw. unfold wp in *. destruct (anyfs_session_close (d, w)) as [[a s']|] eqn:E; [|done]. split; [done|].
  assert (H : ∀ q, foreign (disk_id d) q → closed (disk_id d) (v_dsk (view w)) q (mnts w !! q) s').
  { intros q Hq. eapply (kc_close _ (names d)); [exact Hd|exact Hq| |exact E]. done. }
  split; [intros q Hq; by destruct (H q Hq)|]. assert (Hf : foreign (disk_id d) []) by (by split). apply (H [] Hf).
Qed.

Lemma kp_run_op id L D q v c o : 0 <= id < 2 ^ 31 → foreign id q → kp (W := W) id L D q v (run_op c o).
Proof.
  intros Hi Hq. destruct o; cbn [run_op]; (apply kp_bind; [|intros ?; apply kp_ret]);
    [by apply kp_enter|by apply kp_leave|by apply kp_enter_path].
Qed.

Lemma kp_run_ops id L D q v c ops : 0 <= id < 2 ^ 31 → foreign id q → kp (W := W) id L D q v (mfor ops (run_op c)).
Proof.
  intros Hi Hq. induction ops as [|o ops IH]; cbn [mfor]; [apply kp_ret|]. apply kp_bind; [by apply kp_run_op|]. intros _. exact IH.
Qed.
End Isolation.

(** ** Properties *)

(** C26 Disks do not interfere: any sequence of enters, leaves and path walks
    on one session, with any arguments, leaves the invariant of every other
    session in force and changes the kernel's mount table only under the
    disk's own prefix (and at /proc, which a first mount may add). *)
Theorem session_isolated {W} `{!Lkl W, !LklLaws W, !Host W, !HostLaws W, !Core W, !CoreLaws W} c ops d d2 (w : W) :
  SInv (-2) d (mnts w) → SInv (-2) d2 (mnts w) → disk_id d2 ≠ disk_id d →
  wp (mfor ops (run_op c)) (λ _ s',
    SInv (-2) s'.1 (mnts s'.2) ∧ SInv (-2) d2 (mnts s'.2) ∧ same_outside (disk_id d) (mnts w) (mnts s'.2)) (d, w).
Proof.
  intros H H2 Hn. assert (Hd : disk_range d) by apply H. eapply wp_mono.
  { eapply wp_outside; [done| |by apply wp_run_ops]. intros D q v Hq. by apply kp_run_ops. }
  intros _ s' ([Hi _] & Hs & _). split; [done|]. split; [|done]. by eapply SInv_outside.
Qed.

(** A second disk beside [ses0]. *)
Definition ses1 : AnyfsSession := mk_session 1 0 (bs "b.img") (bs "b.img") (bs "vdb") [] [] [] 0 ANYFS_PART_NEW [].
Lemma ses1_inv : SInv (-2) ses1 (mnts toy_k).
Proof. split; try done. Qed.

Lemma session_isolated_witness :
  wp (mfor [OpEnter 1 0; OpLeave 1; OpEnter 0 0] (run_op no_creds)) (λ _ s',
    SInv (-2) s'.1 (mnts s'.2) ∧ SInv (-2) ses1 (mnts s'.2) ∧ same_outside (disk_id ses0) (mnts toy_k) (mnts s'.2)) (ses0, toy_k).
Proof. apply (session_isolated no_creds _ ses0 ses1 toy_k ses0_inv ses1_inv). discriminate. Defined.
End SessionFrame.
