(* ===== verification/SessionOpen.v ===== *)
(** * SessionOpen

    Opening a session (anyfs_session_open of src/core/anyfs_session.c): the
    partition table it loads from sysfs satisfies the invariant that the
    session's operations keep. *)
From S2P Require Import Prelude CLib Lkl Path Probe Sysfs MountOpts Mount Dm Session SessionSpec.
Import CLib Probe Mount Session SessionSpec.

Module SessionOpen.

Section Open.
Context {W : Type} `{!Lkl W, !LklLaws W, !Host W, !HostLaws W, !Core W, !CoreLaws W}.
Implicit Types (w : W) (d : AnyfsSession).

(** The kernel numbers the partitions of a disk from 1 and does not use a
    number twice. *)
Definition sysfs_sane : Prop := ∀ dn w h names,
  (sys_opendir (snprintf 128 (bs "/sys/block/" ++ dn)).2 w).1 = Some (h, names) → NoDup (Sysfs.hits dn names) ∧ Forall (λ i, i ≠ 0) (Sysfs.hits dn names).

(** ** Calls that leave the kernel's view alone *)

Lemma wp_get_blkdev vd part w : wp (get_blkdev_from_sys vd part) (λ _ w', view w' = view w) w.
Proof.
  unfold get_blkdev_from_sys. apply wp_bind, wp_open; intros fd w1 Hfd.
  - intros Hv. by rewrite (proj2 (Z.ltb_lt fd 0)) by lia.
  - intros Hn Hv. rewrite (proj2 (Z.ltb_ge fd 0)) by lia.
    apply wp_bind, wp_read. intros r b w2 Hv2 _ _. apply wp_bind, Lkl.wp_close. intros _ w3 Hv3.
    assert (Hw : view w3 = view w).
    { rewrite Hv3, Hv2, Hv. cbn [v_fds v_mnt v_bro]. rewrite delete_insert_id by done. by destruct (view w). }
    by case_if.
Qed.

Lemma wp_mknod_for vd part path w : wp (mknod_for vd part path) (λ _ w', view w' = view w) w.
Proof.
  unfold mknod_for. apply wp_bind. wp_use wp_get_blkdev. intros g w1 H1. case_if; [|done].
  apply wp_bind, wp_ensure_dev. intros _ w2 H2. apply wp_bind, wp_mknod. intros _ w3 H3. apply wp_ret. congruence.
Qed.

Lemma wp_scan_prefix dir pre out w : wp (Sysfs.scan_prefix dir pre out) (λ _ w', view w' = view w) w.
Proof.
  unfold Sysfs.scan_prefix. apply wp_bind, wp_call. destruct (sys_opendir dir w) as [[[h names]|] w1] eqn:E; cbn [fst snd].
  - apply wp_bind, wp_call, wp_ret. by eapply dir_closed.
  - by apply (law_opendir dir w None) in E.
Qed.

Lemma wp_disk_name id cap w : wp (Sysfs.anyfs_sysfs_virtio_disk_name id cap) (λ _ w', view w' = view w) w.
Proof.
  unfold Sysfs.anyfs_sysfs_virtio_disk_name. case_if; [done|].
  apply wp_bind. wp_use wp_scan_prefix. intros r w1 H1. apply wp_bind. wp_use wp_scan_prefix. intros v w2 H2.
  case_if; [apply wp_ret; congruence|]. wp_use wp_scan_prefix. intros _ w3 H3. congruence.
Qed.

Lemma hits_range dn names : Forall (λ i, 0 <= i < 2 ^ 32) (Sysfs.hits dn names).
Proof.
  apply Forall_forall. intros i. unfold Sysfs.hits. rewrite list_elem_of_omap. intros (n & _ & H).
  unfold Sysfs.part_index in H. repeat case_match; simplify_eq; apply u32_range.
Qed.

(** ** The walk, whether or not the caller's array holds all of it *)
Lemma wp_walk_indices dn w : sysfs_sane →
  wp (Sysfs.anyfs_sysfs_walk (Some dn) MAX_PARTS) (λ r w', view w' = view w ∧ len r.2 <= MAX_PARTS ∧
    NoDup (Sysfs.sp_index <$> r.2) ∧ Forall (λ p, 0 < Sysfs.sp_index p < 2 ^ 32) r.2) w.
Proof.
  intros Hs. unfold Sysfs.anyfs_sysfs_walk. apply wp_bind, wp_call. set (dir := (snprintf _ _).2).
  destruct (sys_opendir dir w) as [[[h names]|] w1] eqn:E; cbn [fst snd] in *.
  2: { apply wp_ret. split_and!; [by apply (law_opendir dir w None) in E|cbn; unfold MAX_PARTS; lia|constructor|constructor]. }
  destruct (Hs dn w h names) as [Hnd Hnz]; [fold dir; by rewrite E|]. apply wp_bind.
  wp_use Sysfs.wp_walk_loop; [unfold MAX_PARTS; cbn; lia..|]. intros [got buf] w2 (Hv2 & Hg & Hi).
  cbn [fst snd fmap list_fmap app length] in *. rewrite Z.sub_0_r in Hi. apply wp_bind, wp_call, wp_ret. cbn [fst snd].
  pose proof (dir_closed _ _ _ _ _ _ E Hv2) as Hv.
  match goal with |- context [len ?x <= MAX_PARTS] => set (out := x) end. assert (Hp : out ≡ₚ buf).
  { unfold out. case_if; [|done]. zify_bools. destruct buf as [|y buf]; [cbn in *|].
    - assert (got = 0); [|lia]. rewrite Hg. destruct (Sysfs.hits dn names); [done|].
      unfold MAX_PARTS in Hi. cbn in Hi. discriminate.
    - replace (Z.to_nat (got - 1)) with (length buf).
      + by destruct (Sysfs.sort_loop_spec [y] buf) as [_ ?]; [repeat constructor|].
      + apply (f_equal length) in Hi. rewrite length_fmap, length_take in Hi. cbn in Hi. lia. }
  assert (Hl : len buf <= MAX_PARTS).
  { apply (f_equal length) in Hi. rewrite length_fmap, length_take in Hi. unfold MAX_PARTS in *. lia. }
  assert (Hin : ∀ i, i ∈ Sysfs.sp_index <$> buf → i ∈ Sysfs.hits dn names).
  { intros i. rewrite Hi, elem_of_take. intros (k & Hk & _). by eapply list_elem_of_lookup_2. }
  split_and!; [congruence|by rewrite Hp| |].
  - rewrite Hp, Hi. eapply sublist_NoDup; [done|apply sublist_take].
  - rewrite Hp. apply Forall_forall. intros p Hpin. assert (H : Sysfs.sp_index p ∈ Sysfs.hits dn names).
    { apply Hin, list_elem_of_fmap. by exists p. }
    pose proof (hits_range dn names). rewrite Forall_forall in *. specialize (Hnz _ H). cbn in Hnz. specialize (H0 _ H). cbn in H0. lia.
Qed.

(** ** Loading the table *)

(** What matters of a table while it is loaded. *)
Definition slot_shape (p : PartSlot) := (slot_id p, parent_slot p, s_index p, state p).
Definition shape d := (disk_id d, open_flags d, whole_state d, slot_shape <$> parts d).

(** A table of new top-level slots with the numbers [l]. *)
Definition fresh_slots (l : list Z) := imap (λ i x, (Z.of_nat i, ROOT_PARENT, x, ANYFS_PART_NEW)) l.

Lemma shape_upd d i f : (∀ p, slot_shape (f p) = slot_shape p) → shape (upd_slot i f d) = shape d.
Proof.
  intros H. unfold shape, upd_slot. cbn [parts set_parts disk_id open_flags whole_state]. f_equal. apply list_eq. intros j. rewrite !list_lookup_fmap, list_lookup_alter.
  case_decide; [subst j|done]. destruct (parts d !! _) as [p|]; [|done]. change (Some (slot_shape (f p)) = Some (slot_shape p)). by rewrite H.
Qed.

Lemma fresh_table d id flags l m : shape d = (id, flags, ANYFS_PART_NEW, fresh_slots l) →
  0 <= id < 2 ^ 31 → len l <= MAX_PARTS → NoDup l → Forall (λ i, 0 < i < 2 ^ 32) l → SInv (-2) d m.
Proof.
  intros Hs Hid Hl Hnd Hr. injection Hs as Hd _ Hw Hp.
  assert (Hlen : length (parts d) = length l).
  { apply (f_equal length) in Hp. unfold fresh_slots in Hp. by rewrite length_fmap, length_imap in Hp. }
  assert (Hat : ∀ i p, parts d !! i = Some p → ∃ x, l !! i = Some x ∧ slot_shape p = (Z.of_nat i, ROOT_PARENT, x, ANYFS_PART_NEW)).
  { intros i p Hi. apply (f_equal (.!! i)) in Hp. unfold fresh_slots in Hp.
    rewrite list_lookup_fmap, Hi, list_lookup_imap in Hp. cbn in Hp. destruct (l !! i) as [x|]; [|done].
    exists x. split; [done|]. exact (inj Some _ _ Hp). }
  split; [split| | | |].
  - unfold disk_range. by rewrite Hd.
  - by rewrite Hlen.
  - intros i p Hi. destruct (Hat i p Hi) as (x & Hx & E). injection E as -> -> -> _.
    pose proof (Forall_lookup_1 _ _ _ _ Hr Hx). cbn in *. unfold ROOT_PARENT. split_and!; lia.
  - intros i j p q Hi Hj _ E. destruct (Hat i p Hi) as (x & Hx & E1), (Hat j q Hj) as (y & Hy & E2).
    injection E1 as _ _ E1 _. injection E2 as _ _ E2 _. rewrite E1, E2 in E. subst y. by eapply NoDup_lookup.
  - intros i p Hi. destruct (Hat i p Hi) as (x & _ & E). injection E as _ _ _ E. by rewrite E.
  - by rewrite Hw.
  - intros i p Hi. destruct (Hat i p Hi) as (x & _ & E). injection E as _ _ _ E. by rewrite E.
  - by rewrite Hw.
Qed.

Lemma wp_upd_shape i f (Q : () → AnyfsSession * W → Prop) d w :
  (∀ p, slot_shape (f p) = slot_shape p) →
  (∀ d', shape d' = shape d → Q () (d', w)) → wp (upd (upd_slot i f)) Q (d, w).
Proof. intros Hf H. apply wp_upd, H. by apply shape_upd. Qed.

Lemma wp_low_view {A} (m : M W A) (Q : A → AnyfsSession * W → Prop) d w :
  (∀ w, wp m (λ _ w', view w' = view w) w) → (∀ a w', view w' = view w → Q a (d, w')) → wp (lower m) Q (d, w).
Proof. intros Hm HQ. apply wp_lower. wp_use Hm. auto. Qed.

Lemma wp_load_part pt sp d w id flags l : shape d = (id, flags, ANYFS_PART_NEW, fresh_slots l) → len l < MAX_PARTS →
  wp (load_part pt sp) (λ r s', r = true ∧ view s'.2 = view w ∧
    shape s'.1 = (id, flags, ANYFS_PART_NEW, fresh_slots (l ++ [Sysfs.sp_index sp]))) (d, w).
Proof.
  intros Hs Hl. unfold load_part. apply wp_bind, wp_ses. cbn [fst]. unfold alloc_slot_locked.
  injection Hs as Hid Hfl Hw Hp. assert (Hlen : length (parts d) = length l).
  { apply (f_equal length) in Hp. unfold fresh_slots in Hp. by rewrite length_fmap, length_imap in Hp. }
  rewrite (proj2 (Z.leb_gt MAX_PARTS (len (parts d)))) by lia. apply wp_bind, wp_upd. cbn [fst snd].
  match goal with |- wp _ _ (?x, _) => set (d1 := x) end.
  assert (H1 : shape d1 = (id, flags, ANYFS_PART_NEW, fresh_slots (l ++ [Sysfs.sp_index sp]))).
  { unfold shape, d1, fresh_slots in *. cbn. rewrite Hid, Hfl, Hw, fmap_app, Hp, imap_app. cbn.
    by rewrite Nat.add_0_r, Hlen. }
  clearbody d1. apply wp_bind.
  apply (wp_mono _ (λ _ s', s'.2 = w ∧ shape s'.1 = shape d1)).
  { destruct (list_find _ pt) as [[? q]|]; [|done]. apply wp_upd_shape; [done|]. by intros d2 H2. }
  intros _ [d2 w2] [Hw2 H2]. cbn [fst snd] in *. subst w2.
  apply wp_bind, wp_low_view; [intros; apply wp_mknod_for|]. intros _ w3 H3.
  apply wp_bind, wp_low_view; [intros; apply wp_kind_blkdev|]. intros k w4 H4.
  apply wp_bind, wp_upd_shape; [done|]. intros d3 H5. destruct (is_fs k).
  - apply wp_bind, wp_low_view; [intros; eapply wp_mono; [apply wp_probe_meta|]; by intros ? ? [? _]|].
    intros [m [[f la] u]] w5 H6. cbn [snd]. apply wp_bind, wp_upd_shape; [done|]. intros d4 H7.
    apply wp_ret. cbn [fst snd]. split_and!; [done|congruence|congruence].
  - apply wp_ret. cbn [fst snd]. split_and!; [done|congruence|congruence].
Qed.

Lemma wp_load_parts pt l0 d w id flags l : shape d = (id, flags, ANYFS_PART_NEW, fresh_slots l) →
  len l + len l0 <= MAX_PARTS →
  wp (load_parts pt l0) (λ _ s', view s'.2 = view w ∧
    shape s'.1 = (id, flags, ANYFS_PART_NEW, fresh_slots (l ++ (Sysfs.sp_index <$> l0)))) (d, w).
Proof.
  revert d w l. induction l0 as [|sp l0 IH]; intros d w l Hs Hl; cbn [load_parts length] in *.
  { rewrite fmap_nil, app_nil_r. done. }
  apply wp_bind. wp_use wp_load_part; [done|lia|]. intros r [d1 w1] (-> & Hv & H1). cbn [fst snd] in *.
  wp_use IH; [done|rewrite length_app; cbn [length]; lia|]. intros _ s' [Hv' H2].
  rewrite fmap_cons, (cons_middle (Sysfs.sp_index sp)), app_assoc. split; [congruence|done].
Qed.

(** The numbers of a loaded table are distinct and not 0. *)
Definition loaded id flags d : Prop := ∃ l, shape d = (id, flags, ANYFS_PART_NEW, fresh_slots l) ∧
  len l <= MAX_PARTS ∧ NoDup l ∧ Forall (λ i, 0 < i < 2 ^ 32) l.

Lemma loaded_inv id flags d m : 0 <= id < 2 ^ 31 → loaded id flags d → SInv (-2) d m.
Proof. intros Hid (l & ? & ? & ? & ?). by eapply fresh_table. Qed.

Lemma wp_load_top d w id flags : sysfs_sane → tame_disks (W := W) →
  shape d = (id, flags, ANYFS_PART_NEW, fresh_slots []) →
  wp load_top_parts_locked (λ _ s', view s'.2 = view w ∧ loaded id flags s'.1) (d, w).
Proof.
  intros Hsane Htame Hs. unfold load_top_parts_locked. apply wp_bind, wp_ses. cbn [fst]. apply wp_bind, wp_lower.
  wp_use wp_walk_indices; [done|]. intros [n sbuf] w1 (Hv & Hl & Hnd & Hr). cbn [fst snd] in *.
  assert (H0 : loaded id flags d).
  { exists []. split_and!; [done|cbn; unfold MAX_PARTS; lia|constructor|constructor]. }
  case_if; [done|]. apply wp_bind.
  apply (wp_mono _ (λ _ s', s'.1 = d ∧ view s'.2 = view w)).
  { case_if; [|done]. apply wp_bind, wp_low_view; [intros; apply wp_mknod_for|]. intros _ w2 H2.
    apply wp_low_view; [intros; eapply wp_mono; [by apply wp_pt_blkdev|]; by intros ? ? [? _]|].
    intros _ w3 H3. cbn [fst snd]. split; [done|congruence]. }
  intros pt [d1 w2] [Hd1 Hv2]. cbn [fst snd] in *. subst d1. apply wp_bind.
  set (k := Z.to_nat (Z.min n MAX_PARTS)).
  wp_use wp_load_parts; [done|rewrite length_take; cbn [length]; lia|]. intros _ s' [Hv3 H3]. apply wp_ret.
  split; [congruence|]. eexists. split; [exact H3|]. rewrite app_nil_l, fmap_take. split_and!.
  - rewrite length_take, length_fmap. lia.
  - eapply sublist_NoDup; [done|apply sublist_take].
  - apply Forall_take, Forall_fmap. done.
Qed.

(** What opening returns: an error, no session and the kernel as it was; or a
    session in its initial state, with the flags of the caller, on a disk that
    was not attached before and now is. *)
Definition open_result flags w (r : Z * option AnyfsSession) w' : Prop :=
  (r = (-1, None) ∧ view w' = view w) ∨
  ∃ d, r = (0, Some d) ∧ SInv (-2) d (mnts w') ∧ open_flags d = flags ∧
    whole_state d = ANYFS_PART_NEW ∧ Forall (λ p, state p = ANYFS_PART_NEW) (parts d) ∧
    disk_id d ∉ v_dsk (view w) ∧ view w' = with_dsk ({[disk_id d]} ∪ v_dsk (view w)) (view w).

Lemma loaded_hints f l u dev id flags d : loaded id flags d → loaded id flags (set_hints f l u dev d).
Proof. done. Qed.

Lemma loaded_result flags w w' id d : 0 <= id < 2 ^ 31 → id ∉ v_dsk (view w) →
  view w' = with_dsk ({[id]} ∪ v_dsk (view w)) (view w) → loaded id flags d → open_result flags w (0, Some d) w'.
Proof.
  intros Hid Hn Hv Hl. right. exists d. split; [done|]. split; [by eapply loaded_inv|].
  destruct Hl as (l & Hs & _). injection Hs as Hd Hf Hw Hp. rewrite Hd. split_and!; [done..| |done|done].
  apply Forall_lookup. intros i p Hi. apply (f_equal (λ x, x !! i)) in Hp. unfold fresh_slots in Hp.
  rewrite list_lookup_fmap, Hi, list_lookup_imap in Hp. destruct (l !! i); [|done]. by injection Hp.
Qed.

Lemma wp_set_error t w : wp (call (set_last_error t)) (λ _ w', view w' = view w) w.
Proof. apply wp_call, law_last_error. Qed.

(** Giving up after the disk was attached. *)
Lemma attach_undone flags id w w1 : id ∉ v_dsk (view w) → view w1 = with_dsk ({[id]} ∪ v_dsk (view w)) (view w) →
  wp (_ ← call (disk_remove id); mret (-1, None)) (open_result flags w) w1.
Proof.
  intros Hn Hv. apply wp_bind, wp_call, wp_ret. left. split; [done|]. rewrite law_disk_remove, Hv. cbn.
  replace (({[id]} ∪ v_dsk (view w)) ∖ {[id]}) with (v_dsk (view w)) by set_solver. by destruct (view w).
Qed.

Lemma wp_session_open c1 c2 image flags w : sysfs_sane → tame_disks (W := W) →
  wp (anyfs_session_open c1 c2 image flags) (open_result flags w) w.
Proof.
  intros Hsane Htame. destruct image as [image|]; [|by left]. unfold anyfs_session_open.
  apply wp_bind, wp_call. destruct (disk_add image flags w) as [id w0] eqn:Ea. cbn [fst snd].
  apply law_disk_add in Ea as [[Hr Hv0]|(Hid & Hn & Hv0)]; destruct (Z.ltb_spec id 0); try lia; [by left|].
  case_if; [by apply attach_undone|].
  apply wp_bind. wp_use wp_disk_name. intros v w1 H1. case_if.
  { apply wp_bind. wp_use wp_set_error. intros _ w2 H2. apply attach_undone; [done|congruence]. }
  match goal with |- context [with_session ?x _] => set (d0 := x) end.
  apply wp_bind. unfold with_session.
  destruct (wp_elim _ _ _ (wp_load_top d0 w1 id flags Hsane Htame eq_refl)) as (a & [d1 w2] & El & Hv2 & Hl).
  eapply wp_intro; [by rewrite El|]. cbn [fst snd] in *.
  apply wp_bind. wp_use wp_get_blkdev. intros g w3 H3. case_if.
  2: { apply wp_ret, (loaded_result _ _ _ id); [lia|done|congruence|by apply loaded_hints]. }
  apply wp_bind, wp_ensure_dev. intros _ w4 H4. apply wp_bind, wp_mknod. intros _ w5 H5.
  apply wp_bind. wp_use wp_probe_meta. intros [m [[f l] u]] w6 [H6 _]. apply wp_bind, wp_unlink. intros _ w7 H7.
  apply wp_ret, (loaded_result _ _ _ id); [lia|done|congruence|by apply loaded_hints].
Qed.
End Open.

(** ** A concrete kernel

    The disks "vda" and "vdb", each with partitions 2 and 1; a device can be
    opened and mounted, and reading it gives nothing. *)
Definition rig : Type := Toy.toy.
#[global] Typeclasses Opaque rig.

Definition sysfs_dir (p : bytes) : option (list bytes) :=
  if bool_decide (p = bs "/sys/devices/platform/virtio-mmio.0.auto") then Some [bs "virtio0"]
  else if bool_decide (p = bs "/sys/devices/platform/virtio-mmio.0.auto/virtio0/block") then Some [bs "vda"]
  else if bool_decide (p = bs "/sys/devices/platform/virtio-mmio.1.auto") then Some [bs "virtio1"]
  else if bool_decide (p = bs "/sys/devices/platform/virtio-mmio.1.auto/virtio1/block") then Some [bs "vdb"]
  else if bool_decide (p = bs "/sys/block/vda") then Some [bs "."; bs "size"; bs "vda2"; bs "vda1"]
  else if bool_decide (p = bs "/sys/block/vdb") then Some [bs "vdb1"]
  else None.

#[export] Instance rig_lkl : Lkl rig := {|
  sys_open := sys_open (W := Toy.toy); sys_close := sys_close (W := Toy.toy); sys_read := sys_read (W := Toy.toy);
  sys_pread64 fd n off w := ((-9, []), w); sys_readlink := sys_readlink (W := Toy.toy); sys_access := sys_access (W := Toy.toy);
  sys_mkdir := sys_mkdir (W := Toy.toy); sys_rmdir := sys_rmdir (W := Toy.toy); sys_unlink := sys_unlink (W := Toy.toy);
  sys_mknod := sys_mknod (W := Toy.toy); sys_blkroset := sys_blkroset (W := Toy.toy); sys_blkrrpart := sys_blkrrpart (W := Toy.toy);
  sys_dm_ioctl := sys_dm_ioctl (W := Toy.toy); sys_mount := sys_mount (W := Toy.toy); sys_umount := sys_umount (W := Toy.toy);
  sys_sync := sys_sync (W := Toy.toy); sys_nanosleep := sys_nanosleep (W := Toy.toy);
  sys_opendir p w :=
    match sysfs_dir p, v_fds (Toy.t_view w) !! -1 with
    | Some ns, None => (Some (-1, ns), Toy.set_view w (mk_view (<[-1 := p]> (v_fds (Toy.t_view w))) (v_mnt (Toy.t_view w)) (v_bro (Toy.t_view w)) (v_dsk (Toy.t_view w))))
    | _, _ => (None, w)
    end;
  sys_closedir := sys_closedir (W := Toy.toy);
  get_virtio_blkdev := get_virtio_blkdev (W := Toy.toy) |}.

#[export] Instance rig_laws : LklLaws rig.
Proof.
  refine {| view := view (W := Toy.toy) |}; try done.
  - exact (law_open (W := Toy.toy)).
  - exact (law_read (W := Toy.toy)).
  - intros fd n off w r d w' [= <- <- <-]. split_and!; [done..|lia].
  - exact (law_readlink (W := Toy.toy)).
  - intros p w r w'. cbn -[sysfs_dir]. case_match; [|by intros [= <- <-]]. case_match; by intros [= <- <-].
  - exact (law_virtio (W := Toy.toy)).
  - exact (law_dm_ioctl (W := Toy.toy)).
  - exact (law_blkroset (W := Toy.toy)).
  - exact (law_mount (W := Toy.toy)).
  - exact (law_umount (W := Toy.toy)).
Defined.

#[export] Instance rig_host : Host rig := Toy.toy_host.
#[export] Instance rig_host_laws : HostLaws rig.
Proof.
  refine {| hview := hview (W := Toy.toy) |}; try done.
  - exact (hlaw_open (W := Toy.toy)).
  - exact (hlaw_tmpfile (W := Toy.toy)).
  - exact (hlaw_mkstemp (W := Toy.toy)).
  - exact (hlaw_write (W := Toy.toy)).
  - exact (hlaw_new (W := Toy.toy)).
Defined.
#[export] Instance rig_core : Core rig := toy_core.
#[export] Instance rig_core_laws : CoreLaws rig.
Proof. split; [exact (@law_disk_add Toy.toy _ _ toy_core toy_core_laws)|done..]. Defined.

Definition rig0 : rig :=
  Toy.mk_toy 3 Toy.empty_view {[ bs "/dev/0000fe01" := []; bs "/proc/filesystems" := [9] ++ bs "ext4" ++ [10] ]} ∅ {[ bs "/dev/0000fe01" := bs "ext4" ]} 0xfe01 Toy.empty_hview ∅.

(** A directory that opens is one of those. *)
Lemma rig_dirs p (w : rig) h names : (sys_opendir p w).1 = Some (h, names) → sysfs_dir p = Some names.
Proof. intros Hd. cbn -[sysfs_dir] in Hd. destruct (sysfs_dir p); [|discriminate Hd]. case_match; by simplify_eq/=. Qed.

Lemma rig_sane : sysfs_sane (W := rig).
Proof.
  intros dn w h names Hd%rig_dirs. revert Hd.
  assert (Hdn : ∀ n, length n = 3%nat → (snprintf 128 (bs "/sys/block/" ++ dn)).2 = bs "/sys/block/" ++ n → dn = n).
  { intros n Hn Hd. apply (app_inv_head (bs "/sys/block/")). rewrite <- Hd. apply (f_equal length) in Hd.
    unfold snprintf in *. cbn [snd] in *. rewrite take_ge; [done|]. rewrite length_take, !length_app, Hn in Hd.
    change (length (bs "/sys/block/")) with 11%nat in Hd. rewrite length_app. change (length (bs "/sys/block/")) with 11%nat. lia. }
  unfold sysfs_dir. do 4 (case_bool_decide as H1; [discriminate H1|clear H1]).
  case_bool_decide as Ha; [|case_bool_decide as Hb]; intros E; [..|discriminate E]; injection E as <-.
  - apply (Hdn (bs "vda") eq_refl) in Ha as ->. vm_compute. split; repeat constructor; set_solver.
  - apply (Hdn (bs "vdb") eq_refl) in Hb as ->. vm_compute. split; repeat constructor; set_solver.
Qed.

Lemma rig_tame : tame_disks (W := rig).
Proof. intros fd w buf w' [= <- <-]. split; [constructor|unfold gpt_tame; cbn; lia]. Qed.

Lemma rig_umounts : umount_works (W := rig).
Proof. exact toy_umount_works. Qed.

(** ** Properties *)

(** C13 Opening an image always returns and leaves the kernel's descriptors,
    mounts and device flags as they were; on failure the disk is detached again,
    on success exactly one disk was attached. On success the new session
    satisfies the invariant of the session layer, so that every theorem about
    its operations applies: slot ids are positions, partition numbers are
    distinct and not 0, at most 128 slots, nothing is mounted yet. The kernel
    must number the partitions of a disk from 1 without repeating a number, and
    where a disk starts with a GPT header (16 KiB read, signature EFI PART) its
    array must not be put beyond sector 2^54; a disk without that signature is
    not restricted. *)
Theorem session_open_correct {W} `{!Lkl W, !LklLaws W, !Host W, !HostLaws W, !Core W, !CoreLaws W}
    c1 c2 image flags (w : W) : sysfs_sane → tame_disks (W := W) →
  wp (anyfs_session_open c1 c2 image flags) (open_result flags w) w.
Proof. apply wp_session_open. Qed.

Lemma session_open_correct_witness :
  wp (anyfs_session_open true true (Some (bs "/tmp/a.img")) 1) (open_result 1 rig0) rig0.
Proof. exact (session_open_correct true true (Some (bs "/tmp/a.img")) 1 rig0 rig_sane rig_tame). Defined.

Example open_toy_session :
  match anyfs_session_open true true (Some (bs "/tmp/a.img")) 1 rig0 with
  | Some ((r, Some d), _) => Some (r, display d, sysfs_name d, map s_index (parts d))
  | _ => None
  end = Some (0, bs "a.img", bs "vda", [1; 2]).
Proof. vm_compute. reflexivity. Qed.

End SessionOpen.
