(* ===== verification/Container.v ===== *)
(** * Container

    src/core/anyfs_container.c, enter_container_slot to its end: with the part
    behind the refusal of every container kind, which would parse the inner
    partition table, make a dm-linear device for every inner partition and
    append a slot for each.  No kind gets there: the function is the one that
    the session layer uses ([Session.enter_container_slot]).  The part itself
    keeps the table within its bounds and leaves descriptors, mounts and disks
    of the kernel alone.  The source's field children_loaded is set here and
    read nowhere; the model of a slot leaves it out. *)
From S2P Require Import Prelude CLib Lkl Path Probe Sysfs MountOpts Mount Dm Session SessionSpec SessionOpen.
Import CLib Probe Mount Session SessionSpec SessionOpen.

Module Container.

Definition set_dm (name pt : bytes) (p : PartSlot) : PartSlot :=
  mk_slot (slot_id p) (parent_slot p) (s_index p) (offset_bytes p) (s_size_bytes p) pt (blkdev p) (strncpy 64 name) (kind p) (state p)
    (fail_reason p) (fstype_cache p) (label p) (uuid p).
Definition set_probed (k : AnyfsPartKind) (fst lbl uid : bytes) (p : PartSlot) : PartSlot :=
  mk_slot (slot_id p) (parent_slot p) (s_index p) (offset_bytes p) (s_size_bytes p) (s_ptype p) (blkdev p) (s_dm_name p) k (state p)
    (fail_reason p) (strncpy 32 fst) (strncpy 64 lbl) (strncpy 40 uid).
Definition set_node (dm_name out_blk : bytes) (p : PartSlot) : PartSlot :=
  mk_slot (slot_id p) (parent_slot p) (s_index p) (offset_bytes p) (s_size_bytes p) (s_ptype p) (strncpy 80 out_blk) (strncpy 64 dm_name) (kind p) (state p)
    (fail_reason p) (fstype_cache p) (label p) (uuid p).

Section Code.
Context {W : Type} `{!Lkl W, !Host W, !Core W} (alloc : bool) (creds : Creds).
Notation St := (AnyfsSession * W)%type.

Definition child_name (d : AnyfsSession) (sid : Z) (i : AnyfsInnerPart) : bytes :=
  (snprintf 64 (bs "anyfs_d" ++ fmt_d (disk_id d) ++ bs "_s" ++ fmt_d sid ++ bs "_p" ++ fmt_u (index i))).2.

(** One inner partition. *)
Definition nested_child (sid : Z) (parent_blkdev : bytes) (i : AnyfsInnerPart) : M St () :=
  d ← ses;
  let cname := child_name d sid i in
  r ← lower (Dm.anyfs_dm_linear alloc parent_blkdev (start_bytes i / 512) (size_bytes i / 512) cname);
  let '(crc, cout) := r in
  if crc <? 0 then mret ()
  else
    d ← ses;
    match alloc_slot_locked d sid (index i) (start_bytes i) (size_bytes i) cout ANYFS_PART_KIND_FS with
    | None => _ ← lower (Dm.anyfs_dm_remove (Some cname)); mret ()
    | Some (cid, d') =>
        _ ← upd (λ _, d');
        _ ← upd (upd_slot cid (set_dm cname (ptype i)));
        ck ← lower (anyfs_probe_kind_blkdev (Some cout));
        m ← (if is_fs ck then r ← lower (anyfs_probe_meta (Some cout)); mret r.2 else mret ([], [], []));
        let '(fst, lbl, uid) := m in
        upd (upd_slot cid (set_probed ck fst lbl uid))
    end.

Definition is_nested (k : AnyfsPartKind) : bool := bool_decide (k = ANYFS_PART_KIND_NESTED_PARTITION_TABLE).
Definition is_luks (k : AnyfsPartKind) : bool := bool_decide (k = ANYFS_PART_KIND_LUKS).
Definition is_lvm (k : AnyfsPartKind) : bool := bool_decide (k = ANYFS_PART_KIND_LVM_PV).

(** rc and the inner partitions, up to fail_locked. *)
Definition inner_parts (k : AnyfsPartKind) (parent_blkdev : bytes) : M St (Z * list AnyfsInnerPart) :=
  if is_nested k then mret (- LKL_ENOSYS, [])
  else if is_nested k then
    inners ← lower (anyfs_probe_pt_blkdev (Some parent_blkdev) MAX_PARTS);
    mret (if 0 <? len inners then 0 else - LKL_ENOENT, inners)
  else if is_luks k then mret (- LKL_ENOSYS, [])
  else if is_lvm k then mret (- LKL_ENOSYS, [])
  else mret (- LKL_EINVAL, []).

(** The reason recorded for a failure. *)
Definition fail_text (k : AnyfsPartKind) (query : option bytes) (rc : Z) : M St bytes :=
  if is_luks k then
    r ← mopt (resolve_luks_credential creds (c_dup creds) query 128);
    mret (if r.1 <? 0 then (snprintf 200 (bs "LUKS credential: " ++ r.2)).2
          else if r.1 =? 0 then bs "LUKS: no credential in query; expected keyref=ENV / keyfile=PATH / keyfd=N / key=..."
          else bs "LUKS: credential resolved (" ++ fmt_d r.1 ++
               bs " bytes); passphrase->masterkey derivation requires v3 (libcryptsetup not yet linked)")
  else if is_lvm k then mret (bs "LVM2 PV activation requires v3 (LVM metadata parser)")
  else mret (bs "dm setup failed (kind=" ++ anyfs_partkind_name k ++ bs ", rc=" ++ fmt_d rc ++ bs ")").

(** The whole of the function. *)
Definition enter_container_slot (sid : Z) (query : option bytes) (flags : Z) : M St Z :=
  p ← slot sid;
  match state p with
  | ANYFS_PART_MOUNTING => mstuck
  | ANYFS_PART_MOUNTED => mret 0
  | ANYFS_PART_FAILED => mret (-3)
  | ANYFS_PART_NEW =>
      _ ← upd (upd_slot sid (set_state ANYFS_PART_MOUNTING));
      d ← ses;
      let k := kind p in
      let parent_blkdev := strncpy 80 (blkdev p) in
      let dm_name := (snprintf 64 (bs "anyfs_d" ++ fmt_d (disk_id d) ++ bs "_s" ++ fmt_d (slot_id p) ++ bs "_dm")).2 in
      r ← inner_parts k parent_blkdev;
      let '(rc, inners) := r in
      if rc <? 0 then
        buf ← fail_text k query rc;
        _ ← upd (upd_slot sid (set_fail buf));
        mret rc
      else
        _ ← (if is_nested k then mfor inners (nested_child sid parent_blkdev) else upd (upd_slot sid (set_node dm_name [])));
        _ ← upd (upd_slot sid (set_state ANYFS_PART_MOUNTED));
        mret 0
  end.
End Code.

Section Spec.
Context {W : Type} `{!Lkl W, !LklLaws W, !Host W, !HostLaws W, !Core W}.
Notation St := (AnyfsSession * W)%type.

(** Every kind is refused before a device is made: the whole function does
    what the session layer's does. *)
Theorem container_refuses alloc creds sid query flags (s : St) :
  enter_container_slot alloc creds sid query flags s = Session.enter_container_slot creds sid query flags s.
Proof.
  unfold enter_container_slot, Session.enter_container_slot, mbind, M_bind. destruct (slot sid s) as [[p s1]|]; [|done].
  destruct (state p); [|done..]. unfold inner_parts, fail_text, is_nested, is_luks, is_lvm. by destruct (kind p).
Qed.

(** What the loop over the inner partitions has done: slots of the parent's
    children at the end of the table, not mounted yet, and nothing else. *)
Definition children (d : AnyfsSession) (sid : Z) (d' : AnyfsSession) : Prop :=
  disk_id d' = disk_id d ∧ ∃ new, parts d' = parts d ++ new ∧ len (parts d') <= MAX_PARTS ∧
    Forall (λ p, parent_slot p = sid ∧ state p = ANYFS_PART_NEW ∧ slot_id p < MAX_PARTS) new.

Lemma alter_last (l : list PartSlot) p f : alter f (length l) (l ++ [p]) = l ++ [f p].
Proof. induction l as [|x l IH]; [done|]. cbn. f_equal. exact IH. Qed.

Lemma wp_nested_child alloc sid blk i d w : len (parts d) <= MAX_PARTS →
  wp (nested_child alloc sid blk i) (λ _ s', children d sid s'.1 ∧ view s'.2 = view w) (d, w).
Proof.
  intros Hl. assert (Hnone : children d sid d) by (split; [done|]; exists []; rewrite app_nil_r; by split_and!).
  unfold nested_child. apply wp_bind, wp_ses, wp_bind. cbn [fst].
  apply wp_low_view; [intros w'; apply Dm.dm_clean; exact []|]. intros [crc cout] w1 E1. case_if; [by apply wp_ret|].
  apply wp_bind, wp_ses. cbn [fst]. unfold alloc_slot_locked. case_if.
  { apply wp_bind, wp_low_view; [intros w'; apply Dm.wp_dm_remove|]. intros _ w2 E2. apply wp_ret. split; [done|cbn; congruence]. }
  zify_bools. set (p0 := mk_slot _ _ _ _ _ _ _ _ _ _ _ _ _ _). apply wp_bind, wp_upd, wp_bind, wp_upd. cbn [fst snd].
  assert (Ep : ∀ f x, upd_slot (len (parts d)) f (set_parts (parts d ++ [x]) d) = set_parts (parts d ++ [f x]) d).
  { intros f x. unfold upd_slot, set_parts. cbn [parts disk_id open_flags image_path display sysfs_name whole_fstype_hint whole_label_hint whole_uuid_hint whole_dev whole_state].
    rewrite Nat2Z.id, alter_last. done. }
  rewrite Ep. apply wp_bind, wp_low_view; [intros w'; apply wp_kind_blkdev|]. intros ck w2 E2. apply wp_bind.
  apply (wp_mono _ (λ _ s', s'.1 = set_parts (parts d ++ [set_dm (child_name d sid i) (ptype i) p0]) d ∧ view s'.2 = view w)).
  { destruct (is_fs ck); [|apply wp_ret; split; [done|cbn; congruence]]. apply wp_bind, wp_low_view; [|].
    - intros w'. eapply wp_mono; [apply wp_probe_meta|]. by intros r w'' (H & _).
    - intros m w3 E3. apply wp_ret. split; [done|cbn; congruence]. }
  intros [[fst lbl] uid] [d3 w3] [E3 Ev]. cbn [Datatypes.fst snd] in *. subst d3. apply wp_upd. cbn [Datatypes.fst snd]. rewrite Ep.
  split; [|done]. split; [done|]. eexists. split; [done|]. cbn [parts set_parts]. split.
  - rewrite length_app. cbn [length]. lia.
  - apply Forall_singleton. cbn. split_and!; [done|done|lia].
Qed.

Lemma children_trans d d1 d2 sid : children d sid d1 → children d1 sid d2 → children d sid d2.
Proof.
  intros (E1 & n1 & P1 & _ & F1) (E2 & n2 & P2 & L2 & F2). split; [congruence|]. exists (n1 ++ n2).
  split_and!; [by rewrite P2, P1, <- app_assoc|done|by apply Forall_app].
Qed.

(** The loop over the inner partitions, were it reached: it returns for every
    table and every answer of the device mapper; the slot table only grows, at
    its end and within its bounds, by children of the slot that were not
    mounted; and no descriptor, mount or disk of the kernel is left changed. *)
Theorem nested_children_bounded alloc sid blk inners d (w : W) : len (parts d) <= MAX_PARTS →
  wp (mfor inners (nested_child alloc sid blk)) (λ _ s', children d sid s'.1 ∧ view s'.2 = view w) (d, w).
Proof.
  intros Hl. apply (wp_for (λ s', children d sid s'.1 ∧ view s'.2 = view w)).
  - split; [|done]. split; [done|]. exists []. rewrite app_nil_r. by split_and!.
  - intros i [d1 w1] _ (Hc & Ev). cbn [fst snd] in *. eapply wp_mono; [apply wp_nested_child; destruct Hc as (_ & n & _ & H & _); exact H|].
    intros _ s' (Hc' & Ev'). split; [by eapply children_trans|congruence].
Qed.
End Spec.

End Container.
