(* ===== verification/SessionHold.v ===== *)
(** * SessionHold

    Entering never takes a mount away: without ANYFS_MOUNT_REPLACE every
    partition, and the whole disk, that is mounted stays mounted whatever else
    of the session is entered.  A second calculus over the code of Session, for
    predicates of the session's table. *)
From S2P Require Import Prelude CLib Lkl Path Probe Sysfs MountOpts Mount Dm Session SessionSpec.
Import CLib Probe Mount Session SessionSpec.

Module SessionHold.

(** Slot [i] is mounted; [None] is the whole disk. *)
Definition holds (x : option nat) (d : AnyfsSession) : Prop :=
  match x with
  | None => whole_state d = ANYFS_PART_MOUNTED
  | Some i => state <$> parts d !! i = Some ANYFS_PART_MOUNTED
  end.

Section Hold.
Context {W : Type} `{!Lkl W, !Host W, !Core W} (x : option nat).
Notation St := (AnyfsSession * W)%type.

Definition keep {A} (m : M St A) : Prop := ∀ s a s', holds x s.1 → m s = Some (a, s') → holds x s'.1.

Lemma keep_ret {A} (a : A) : keep (mret a).
Proof. by intros s b s' H [= <- <-]. Qed.
Lemma keep_stuck {A} : keep (mstuck (A := A)).
Proof. by intros s b s' H. Qed.
Lemma keep_opt {A} (o : option A) : keep (mopt o).
Proof. intros s b s' H. unfold mopt. destruct o; [|done]. by intros [= <- <-]. Qed.
Lemma keep_bind {A B} (m : M St A) (k : A → M St B) : keep m → (∀ a, keep (k a)) → keep (m ≫= k).
Proof.
  intros Hm Hk s b s' H. unfold mbind, M_bind. destruct (m s) as [[a s1]|] eqn:E; [|done].
  apply Hk. by eapply Hm.
Qed.
Lemma keep_ses : keep ses.
Proof. by intros s b s' H [= <- <-]. Qed.
Lemma keep_slot i : keep (slot i).
Proof. apply keep_bind; [apply keep_ses|intros ?; apply keep_opt]. Qed.
Lemma keep_lower {A} (m : M W A) : keep (lower m).
Proof. intros s b s' H. unfold lower. destruct (m s.2) as [[a w]|]; [|done]. by intros [= <- <-]. Qed.
Lemma keep_upd f : (∀ d, holds x d → holds x (f d)) → keep (upd f).
Proof. intros Hf s b s' H [= <- <-]. by apply Hf. Qed.
Lemma keep_upd_slot j f : x ≠ Some (Z.to_nat j) → keep (upd (upd_slot j f)).
Proof.
  intros Hj. apply keep_upd. intros d. destruct x as [i|]; cbn [holds]; [|done]. unfold upd_slot. cbn [parts set_parts].
  by rewrite list_lookup_alter_ne by congruence.
Qed.

Ltac step := first
  [ apply keep_ret | apply keep_stuck | apply keep_opt | apply keep_slot | apply keep_ses | apply keep_lower
  | by apply keep_upd_slot | apply keep_bind; [|intros ?] | case_match ].

Lemma keep_retry fuel mount part waited : keep (mount_retry fuel mount part waited).
Proof.
  revert waited. induction fuel as [|f IH]; intros waited; cbn [mount_retry]; [apply keep_stuck|].
  unfold busy_is_transient. repeat first [apply IH|step].
Qed.

(** Code that first looks at a slot and returns when it is mounted. *)
Lemma keep_at {B} sid (k : PartSlot → M St B) :
  (∀ p, state p = ANYFS_PART_MOUNTED → keep (k p)) → (x ≠ Some (Z.to_nat sid) → ∀ p, keep (k p)) → keep (slot sid ≫= k).
Proof.
  intros Hm Hk. destruct (decide (x = Some (Z.to_nat sid))) as [Hx|]; [|apply keep_bind; [apply keep_slot|by apply Hk]].
  intros [d w] b s' H. unfold slot, mopt, ses, mgets, mbind, M_bind. cbn [fst]. rewrite Hx in H.
  destruct (sid <? 0); [done|]. cbn [holds fst] in H. destruct (parts d !! Z.to_nat sid) as [p|] eqn:Hp; [|done].
  apply (inj Some) in H. apply (Hm p H (d, w) b s'). by rewrite Hx; cbn; rewrite Hp; cbn; rewrite H.
Qed.

Lemma keep_enter_fs sid flags : flag flags ANYFS_MOUNT_REPLACE = false → keep (enter_fs_slot sid flags).
Proof.
  intros Hf. unfold enter_fs_slot. apply keep_bind; [apply keep_ses|]. intros d. apply keep_at; [intros p ->; apply keep_ret|].
  intros Hx p. destruct (state p); [|repeat step..]. apply keep_bind; [by apply keep_upd_slot|]. intros _.
  apply keep_bind; [|intros [rc mnt]; repeat step]. unfold mount_slot. rewrite Hf. case_match; [|apply keep_lower].
  apply keep_bind; [apply keep_ret|intros _; apply keep_retry].
Qed.

Lemma keep_enter_container c sid query flags : keep (enter_container_slot c sid query flags).
Proof. unfold enter_container_slot. apply keep_at; [intros p ->; apply keep_ret|]. intros Hx p. repeat step. Qed.

Lemma keep_upd_whole v : x ≠ None → keep (upd (set_whole v)).
Proof. intros Hx. apply keep_upd. intros d. by destruct x. Qed.

Lemma keep_enter_whole flags : flag flags ANYFS_MOUNT_REPLACE = false → keep (enter_whole flags).
Proof.
  intros Hf. destruct (decide (x = None)) as [Hx|Hx].
  - intros [d w] b s' H. unfold enter_whole, mbind, M_bind, ses, mgets. cbn [fst]. rewrite Hx in *. cbn [holds fst] in H. rewrite H.
    destruct (whole_dev d =? 0); by intros [= <- <-].
  - unfold enter_whole. rewrite Hf. repeat first [by apply keep_upd_whole|apply keep_retry|step].
Qed.

Lemma keep_enter c part flags : flag flags ANYFS_MOUNT_REPLACE = false → keep (anyfs_session_enter c part flags).
Proof.
  intros Hf. unfold anyfs_session_enter. case_match; [by apply keep_enter_whole|].
  repeat first [by apply keep_enter_fs|apply keep_enter_container|step].
Qed.

Lemma keep_walk_comps c parent comp flags : flag flags ANYFS_MOUNT_REPLACE = false → keep (walk_comps c parent comp flags).
Proof.
  intros Hf. revert parent. induction comp as [|y rest IH]; intros parent; cbn [walk_comps]; [apply keep_ret|].
  destruct rest as [|z rest]; repeat first [apply IH|by apply keep_enter_fs|apply keep_enter_container|step].
Qed.

Lemma keep_enter_path c comp flags : flag flags ANYFS_MOUNT_REPLACE = false → keep (anyfs_session_enter_path c comp flags).
Proof.
  intros Hf. unfold anyfs_session_enter_path, anyfs_session_walk. repeat first [by apply keep_walk_comps|step].
Qed.
End Hold.

(** The mount points a session holds are those of the slots it holds. *)
Lemma owned_holds d path : owned d path ↔
  ∃ x, holds x d ∧ match x with None => path = whole_path d | Some i => slot_path d <$> parts d !! i = Some path end.
Proof.
  split.
  - intros [(p & Hp & Hm & <-)|[Hm ->]]; [|by exists None]. apply list_elem_of_lookup in Hp as [i Hi]. exists (Some i).
    cbn [holds]. by rewrite Hi; cbn; rewrite Hm.
  - intros ([i|] & Hx & Hp); [left|by right]. cbn [holds] in Hx. destruct (parts d !! i) as [p|] eqn:Hi; [|done].
    exists p. split; [by eapply list_elem_of_lookup_2|]. by split; apply (inj Some).
Qed.

Lemma owned_kept {W A} (m : M (AnyfsSession * W) A) d w a d' w' : (∀ x, keep x m) → m (d, w) = Some (a, (d', w')) →
  static d' = static d → ∀ path, owned d path → owned d' path.
Proof.
  intros Hk E Hs path. rewrite !owned_holds. intros (x & Hx & Hp). exists x. split; [by eapply (Hk x (d, w)) in E|].
  destruct x as [i|]; [|by rewrite (whole_path_static d d')]. destruct (parts d !! i) as [p|] eqn:Hi; [|done].
  destruct (static_lookup d d' i p Hs Hi) as (p' & -> & Es). cbn [fmap option_fmap option_map] in *. by rewrite (slot_path_static d d' p p').
Qed.
End SessionHold.
