(* ===== verification/Raw.v ===== *)
(** * Raw

    src/core/raw_backend.c (POSIX): the block device over a plain file or a
    host block device.  The host's file calls are a class over an arbitrary
    state; what the code relies on are laws over a view of it: the open
    descriptors and the bytes of each file. *)
From S2P Require Import Prelude CLib Lkl.
Import CLib.

(** ** Host file calls *)

Record stat := mk_stat { st_blk : bool; st_size : Z }.

(** [h_open p rw]; a call that returns -1 in C returns a negative number or
    [None] here.  [h_error] is strerror(errno), [h_calloc] whether the
    allocation succeeded. *)
Class HostIO (W : Type) := {
  h_open : bytes → bool → kcall W Z;
  h_fstat : Z → kcall W (option stat);
  h_getsize64 : Z → kcall W (option Z);
  h_pread : Z → Z → Z → kcall W (Z * bytes);
  h_pwrite : Z → bytes → Z → kcall W Z;
  h_fsync : Z → kcall W Z;
  h_close : Z → kcall W Z;
  h_calloc : kcall W bool;
  h_error : kcall W bytes;
}.

Record IoView := mk_io {
  io_fds : gmap Z (bytes * bool);
  io_data : gmap bytes bytes }.

(** The bytes [b] written at [off] of [d]; a gap is filled with zeros. *)
Definition splice (off : nat) (b d : bytes) : bytes :=
  take off d ++ replicate (off - length d) 0 ++ b ++ drop (off + length b) d.

(** The bytes behind a descriptor. *)
Definition file_of (v : IoView) (fd : Z) : option bytes :=
  io_fds v !! fd ≫= λ e, io_data v !! e.1.

Class HostIOLaws (W : Type) `{!HostIO W} := {
  iov : W → IoView;
  io_open p rw w r w' : h_open p rw w = (r, w') →
    (r < 0 ∧ iov w' = iov w) ∨
    (0 <= r ∧ io_fds (iov w) !! r = None ∧ is_Some (io_data (iov w) !! p) ∧
     iov w' = mk_io (<[r := (p, rw)]> (io_fds (iov w))) (io_data (iov w)));
  io_fstat fd w r w' : h_fstat fd w = (r, w') → iov w' = iov w ∧
    ∀ st d, r = Some st → file_of (iov w) fd = Some d → st_blk st = false → st_size st = len d;
  io_getsize fd w r w' : h_getsize64 fd w = (r, w') → iov w' = iov w ∧
    ∀ n d, r = Some n → file_of (iov w) fd = Some d → n = len d;
  io_pread fd n off w r d w' : h_pread fd n off w = ((r, d), w') → iov w' = iov w ∧
    len d = Z.max 0 r ∧ r <= Z.max 0 n ∧
    (0 <= r → ∀ c, file_of (iov w) fd = Some c → d = take (Z.to_nat r) (drop (Z.to_nat off) c));
  io_pwrite fd b off w r w' : h_pwrite fd b off w = (r, w') →
    (r < 0 ∧ iov w' = iov w) ∨
    (0 <= r <= len b ∧ 0 <= off ∧ ∃ p c, io_fds (iov w) !! fd = Some (p, true) ∧ io_data (iov w) !! p = Some c ∧
       iov w' = mk_io (io_fds (iov w)) (<[p := splice (Z.to_nat off) (take (Z.to_nat r) b) c]> (io_data (iov w))));
  io_fsync fd w : iov (h_fsync fd w).2 = iov w;
  io_close fd w : iov (h_close fd w).2 = mk_io (delete fd (io_fds (iov w))) (io_data (iov w));
  io_calloc w : iov (h_calloc w).2 = iov w;
  io_error w : iov (h_error w).2 = iov w;
}.

Module Raw.

(** ** The code *)

Definition ANYFS_SESSION_READONLY : Z := 1.
Definition LKL_DEV_BLK_TYPE_READ : Z := 0.
Definition LKL_DEV_BLK_TYPE_WRITE : Z := 1.
Definition LKL_DEV_BLK_TYPE_FLUSH : Z := 4.
Definition LKL_DEV_BLK_TYPE_FLUSH_OUT : Z := 5.
Definition LKL_DEV_BLK_STATUS_OK : Z := 0.
Definition LKL_DEV_BLK_STATUS_IOERR : Z := 1.
Definition LKL_DEV_BLK_STATUS_UNSUP : Z := 2.

Record raw_blk_ctx := mk_ctx { c_fd : Z; capacity : Z }.

(** struct lkl_blk_req: the buffers with their contents. *)
Record lkl_blk_req := mk_req { rq_type : Z; rq_sector : Z; rq_buf : list bytes }.

Definition raw_get_capacity (ctx : raw_blk_ctx) : Z * Z := (0, capacity ctx).

(** [set_last_error] of anyfs_kernel.c is an argument. *)
Section Code.
Context {W} `{!HostIO W}.

(** offset += iov_len: the sum is unsigned. *)
Definition advance (offset n : Z) : Z := i64 (u64 (offset + n)).

(** The loop over the buffers: the status and the buffers afterwards. *)
Fixpoint request_loop (fd ty offset : Z) (buf : list bytes) : M W (Z * list bytes) :=
  match buf with
  | [] => mret (LKL_DEV_BLK_STATUS_OK, [])
  | b :: rest =>
      if ty =? LKL_DEV_BLK_TYPE_READ then
        r ← call (h_pread fd (len b) offset);
        if r.1 <? 0 then mret (LKL_DEV_BLK_STATUS_IOERR, b :: rest)
        else s ← request_loop fd ty (advance offset (len b)) rest;
             mret (s.1, (r.2 ++ drop (length r.2) b) :: s.2)
      else if ty =? LKL_DEV_BLK_TYPE_WRITE then
        r ← call (h_pwrite fd b offset);
        if r <? 0 then mret (LKL_DEV_BLK_STATUS_IOERR, b :: rest)
        else s ← request_loop fd ty (advance offset (len b)) rest;
             mret (s.1, b :: s.2)
      else if (ty =? LKL_DEV_BLK_TYPE_FLUSH) || (ty =? LKL_DEV_BLK_TYPE_FLUSH_OUT) then
        r ← call (h_fsync fd);
        mret (if r <? 0 then LKL_DEV_BLK_STATUS_IOERR else LKL_DEV_BLK_STATUS_OK, b :: rest)
      else mret (LKL_DEV_BLK_STATUS_UNSUP, b :: rest)
  end.

(** The product is signed: beyond the range of off_t there is no value. *)
Definition raw_request (ctx : raw_blk_ctx) (req : lkl_blk_req) : M W (Z * list bytes) :=
  let s := i64 (rq_sector req) * 512 in
  if (- 2 ^ 63 <=? s) && (s <? 2 ^ 63) then request_loop (c_fd ctx) (rq_type req) s (rq_buf req)
  else mstuck.

Definition raw_blk_open (set_last_error : bytes → M W ()) (path : bytes) (flags : Z) : M W (option raw_blk_ctx) :=
  let readonly := flag flags ANYFS_SESSION_READONLY in
  fd ← call (h_open path (negb readonly));
  if fd <? 0 then
    e ← call h_error;
    _ ← set_last_error (bs "cannot open " ++ path ++ bs ": " ++ e);
    mret None
  else
    st ← call (h_fstat fd);
    match st with
    | None =>
        e ← call h_error;
        _ ← set_last_error (bs "cannot stat " ++ path ++ bs ": " ++ e);
        _ ← call (h_close fd);
        mret None
    | Some st =>
        cap ← (if st_blk st then call (h_getsize64 fd) else mret (Some (u64 (st_size st))));
        match cap with
        | None =>
            e ← call h_error;
            _ ← set_last_error (bs "cannot size " ++ path ++ bs ": " ++ e);
            _ ← call (h_close fd);
            mret None
        | Some cap =>
            ok ← call h_calloc;
            if (ok : bool) then mret (Some (mk_ctx fd cap))
            else _ ← call (h_close fd); mret None
        end
    end.

(** The handle is NULL after a first call. *)
Definition raw_blk_destroy (handle : option raw_blk_ctx) : M W (option raw_blk_ctx) :=
  match handle with
  | Some ctx => _ ← call (h_close (c_fd ctx)); mret None
  | None => mret None
  end.
End Code.

(** ** Written bytes *)
Lemma splice_nil off c : (off <= length c)%nat → splice off [] c = c.
Proof.
  intros H. unfold splice. rewrite Nat.add_0_r, app_nil_l.
  replace (off - length c)%nat with 0%nat by lia. by rewrite app_nil_l, take_drop.
Qed.

Lemma splice_length off b c : (off <= length c)%nat → length (splice off b c) = Nat.max (length c) (off + length b).
Proof. intros H. unfold splice. rewrite !length_app, length_replicate, length_take, length_drop. lia. Qed.

(** Two adjacent writes are one. *)
Lemma splice_splice off a b c : (off <= length c)%nat →
  splice (off + length a) b (splice off a c) = splice off (a ++ b) c.
Proof.
  intros H. assert (Hs := splice_length off a c H). unfold splice at 1. rewrite Hs.
  replace (off + length a - Nat.max (length c) (off + length a))%nat with 0%nat by lia. cbn [replicate app].
  unfold splice. replace (off - length c)%nat with 0%nat by lia. cbn [replicate app].
  assert (Ht : length (take off c) = off) by (rewrite length_take; lia).
  rewrite !app_assoc, take_app_length', <- !app_assoc by (rewrite length_app; lia).
  rewrite length_app. do 3 f_equal. rewrite drop_app_ge, drop_app_ge, drop_drop by lia. rewrite Ht. f_equal. lia.
Qed.

Lemma read_splice off b c : (off <= length c)%nat → take (length b) (drop off (splice off b c)) = b.
Proof.
  intros H. unfold splice. replace (off - length c)%nat with 0%nat by lia. cbn [replicate app].
  rewrite drop_app_len by (rewrite length_take; lia). by rewrite take_app_length.
Qed.

(** ** Requests *)
Section Requests.
Context {W} `{!HostIO W, !HostIOLaws W}.
Implicit Types (w : W) (c : bytes) (buf : list bytes).

(** The host does not cut a transfer short, as on a regular file. *)
Definition full_read : Prop := ∀ fd n off w r d w' c,
  h_pread fd n off w = ((r, d), w') → file_of (iov w) fd = Some c →
  0 <= r → 0 <= n → 0 <= off → off + n <= len c → r = n.
Definition full_write : Prop := ∀ fd b off w r w',
  h_pwrite fd b off w = (r, w') → 0 <= r → r = len b.

Lemma advance_small off n : 0 <= off → 0 <= n → off + n < 2 ^ 63 → advance off n = off + n.
Proof. intros. unfold advance, i64. rewrite u64_small by lia. rewrite Z.mod_small; lia. Qed.

(** What a read returns: the status, the host unchanged, and on success
    buffers of the same lengths that hold the file's bytes. *)
Definition read_post off c buf w (r : Z * list bytes) w' : Prop :=
  iov w' = iov w ∧ (r.1 = LKL_DEV_BLK_STATUS_OK ∨ r.1 = LKL_DEV_BLK_STATUS_IOERR) ∧
  length <$> r.2 = length <$> buf ∧
  (r.1 = LKL_DEV_BLK_STATUS_OK → mjoin r.2 = take (length (mjoin buf)) (drop (Z.to_nat off) c)).

Lemma wp_request_read fd buf off c w : full_read → file_of (iov w) fd = Some c →
  0 <= off → off + len (mjoin buf) <= len c → len c < 2 ^ 63 →
  wp (request_loop fd LKL_DEV_BLK_TYPE_READ off buf) (read_post off c buf w) w.
Proof.
  intros Hfull. revert off w. induction buf as [|b buf IH]; intros off w Hf Hoff Hlen Hc.
  { split_and!; [done|by left|done|]. done. }
  cbn [request_loop]. change (LKL_DEV_BLK_TYPE_READ =? LKL_DEV_BLK_TYPE_READ) with true. cbn iota.
  rewrite join_cons, length_app in Hlen.
  apply wp_bind, wp_call. destruct (h_pread fd (len b) off w) as [[r d] w1] eqn:E. cbn [fst snd].
  destruct (io_pread _ _ _ _ _ _ _ E) as (Hv & Hd & Hr & Hdat).
  destruct (Z.ltb_spec r 0) as [Hneg|Hpos]; [by split_and!; [|right| |]|].
  assert (r = len b) as -> by (eapply Hfull; [done..|lia|lia|lia]).
  specialize (Hdat Hpos c Hf). rewrite Nat2Z.id in Hdat.
  rewrite advance_small by lia. apply wp_bind. wp_use IH; [by rewrite Hv|lia..|].
  intros [s l] w2 (Hv2 & Hs & Hl & Hok). cbn [fst snd] in *. split_and!; cbn [fst snd]; [by rewrite Hv2|done| |].
  - rewrite !fmap_cons, Hl, length_app, length_drop. f_equal. lia.
  - intros E2. rewrite drop_ge, app_nil_r, !join_cons, length_app, Hok by (done || lia).
    rewrite Hdat, <- take_take_drop, drop_drop. do 2 f_equal. f_equal. lia.
Qed.

(** What a write does: it stores a prefix of the buffers, all of them when
    the status is OK. *)
Definition write_post p off c buf w (r : Z * list bytes) w' : Prop :=
  r.2 = buf ∧ ∃ k, iov w' = mk_io (io_fds (iov w))
    (<[p := splice (Z.to_nat off) (mjoin (take k buf)) c]> (io_data (iov w))) ∧
  (r.1 = LKL_DEV_BLK_STATUS_IOERR ∨ (r.1 = LKL_DEV_BLK_STATUS_OK ∧ k = length buf)).

Lemma io_eta v : v = mk_io (io_fds v) (io_data v).
Proof. by destruct v. Qed.

Lemma wp_write_loop fd p buf off c w : full_write → io_fds (iov w) !! fd = Some (p, true) →
  io_data (iov w) !! p = Some c → 0 <= off <= len c → off + len (mjoin buf) < 2 ^ 63 →
  wp (request_loop fd LKL_DEV_BLK_TYPE_WRITE off buf) (write_post p off c buf w) w.
Proof.
  intros Hfull. revert off c w. induction buf as [|b buf IH]; intros off c w Hfd Hp Hoff Hlen.
  { split; [done|]. exists 0%nat. rewrite splice_nil by lia. rewrite insert_id by done.
    split; [apply io_eta|]. by right. }
  cbn [request_loop]. change (LKL_DEV_BLK_TYPE_WRITE =? LKL_DEV_BLK_TYPE_READ) with false.
  change (LKL_DEV_BLK_TYPE_WRITE =? LKL_DEV_BLK_TYPE_WRITE) with true. cbn iota. rewrite join_cons, length_app in Hlen.
  apply wp_bind, wp_call. destruct (h_pwrite fd b off w) as [r w1] eqn:E. cbn [fst snd].
  destruct (io_pwrite _ _ _ _ _ _ E) as [[Hneg Hv]|(Hr & _ & p' & c' & Hfd' & Hp' & Hv)].
  { rewrite (proj2 (Z.ltb_lt r 0)) by done. split; [done|]. exists 0%nat. cbn [take].
    rewrite splice_nil, insert_id by (done || lia). split; [by rewrite Hv; apply io_eta|by left]. }
  simplify_eq. rewrite (proj2 (Z.ltb_ge r 0)) by lia.
  assert (r = len b) as -> by (eapply Hfull; [done|lia]). rewrite Nat2Z.id, firstn_all in Hv.
  rewrite advance_small by lia. apply wp_bind.
  wp_use (IH (off + len b) (splice (Z.to_nat off) b c)); rewrite ?Hv; cbn [io_fds io_data];
    [done|by rewrite lookup_insert_eq|rewrite splice_length; lia|lia|].
  intros [s l] w2 (-> & k & Hv2 & Hs). cbn [fst snd] in *. split; [done|]. exists (S k).
  rewrite Hv2, Hv. cbn [io_fds io_data take]. rewrite insert_insert_eq, join_cons.
  rewrite Z2Nat.inj_add, Nat2Z.id, splice_splice by lia. split; [done|]. cbn [length]. naive_solver.
Qed.

(** Over a descriptor that is not writable. *)
Lemma wp_write_refused fd p buf off w : io_fds (iov w) !! fd = Some (p, false) →
  wp (request_loop fd LKL_DEV_BLK_TYPE_WRITE off buf) (λ r w', iov w' = iov w ∧
    r = (if decide (buf = []) then LKL_DEV_BLK_STATUS_OK else LKL_DEV_BLK_STATUS_IOERR, buf)) w.
Proof.
  intros Hfd. destruct buf as [|b buf]; [done|]. cbn [request_loop]. change (LKL_DEV_BLK_TYPE_WRITE =? LKL_DEV_BLK_TYPE_READ) with false.
  change (LKL_DEV_BLK_TYPE_WRITE =? LKL_DEV_BLK_TYPE_WRITE) with true. cbn iota.
  apply wp_bind, wp_call. destruct (h_pwrite fd b off w) as [r w1] eqn:E. cbn [fst snd].
  destruct (io_pwrite _ _ _ _ _ _ E) as [[Hneg Hv]|(_ & _ & p' & c' & Hfd' & _)]; [|by simplify_eq].
  rewrite (proj2 (Z.ltb_lt r 0)) by done. done.
Qed.

Lemma sector_small s : 0 <= s → s * 512 < 2 ^ 63 → i64 s = s.
Proof. intros. unfold i64. rewrite Z.mod_small; lia. Qed.

Lemma wp_request ctx req (Q : Z * list bytes → W → Prop) w : 0 <= rq_sector req → rq_sector req * 512 < 2 ^ 63 →
  wp (request_loop (c_fd ctx) (rq_type req) (rq_sector req * 512) (rq_buf req)) Q w →
  wp (raw_request ctx req) Q w.
Proof.
  intros H1 H2 H. unfold raw_request. rewrite sector_small by done.
  rewrite (proj2 (Z.leb_le _ _)), (proj2 (Z.ltb_lt _ _)) by lia. done.
Qed.

Lemma file_of_open v fd p rw : io_fds v !! fd = Some (p, rw) → file_of v fd = io_data v !! p.
Proof. unfold file_of. by intros ->. Qed.

(** ** Opening and closing *)
Section Open.
Context (set_last_error : bytes → M W ()).
Context (Herr : ∀ t w, wp (set_last_error t) (λ _ w', iov w' = iov w) w).

Lemma wp_fail t fd (w w0 : W) p rw : io_fds (iov w0) !! fd = None →
  iov w = mk_io (<[fd := (p, rw)]> (io_fds (iov w0))) (io_data (iov w0)) →
  wp (e ← call h_error; _ ← set_last_error (t e); _ ← call (h_close fd); mret (@None raw_blk_ctx))
    (λ r w', r = None ∧ iov w' = iov w0) w.
Proof.
  intros Hn Hv. apply wp_bind, wp_call, wp_bind. wp_use Herr. intros _ w1 H1. cbn beta in H1.
  apply wp_bind, wp_call. split; [done|]. rewrite io_close, H1, io_error, Hv. cbn [io_fds io_data].
  rewrite delete_insert_id by done. symmetry. apply io_eta.
Qed.

(** What opening leaves behind: nothing on an error; one descriptor with
    the access that was asked for and the size of the file otherwise. *)
Definition opened path flags (r : option raw_blk_ctx) w w' : Prop :=
  match r with
  | None => iov w' = iov w
  | Some ctx => io_fds (iov w) !! c_fd ctx = None ∧ 0 <= c_fd ctx ∧
      iov w' = mk_io (<[c_fd ctx := (path, negb (flag flags ANYFS_SESSION_READONLY))]> (io_fds (iov w)))
                 (io_data (iov w)) ∧
      ∀ c, io_data (iov w) !! path = Some c → len c < 2 ^ 63 → capacity ctx = len c
  end.

Lemma wp_blk_open path flags w : wp (raw_blk_open set_last_error path flags) (λ r, opened path flags r w) w.
Proof.
  unfold raw_blk_open. apply wp_bind, wp_call. destruct (h_open _ _ w) as [fd w1] eqn:E. cbn [fst snd].
  destruct (io_open _ _ _ _ _ E) as [[Hneg Hv]|(Hge & Hn & _ & Hv)].
  { rewrite (proj2 (Z.ltb_lt fd 0)) by done. apply wp_bind, wp_call, wp_bind. wp_use Herr.
    intros _ w2 H2. cbn in *. by rewrite H2, io_error, Hv. }
  rewrite (proj2 (Z.ltb_ge fd 0)) by lia. apply wp_bind, wp_call.
  destruct (h_fstat fd w1) as [st w2] eqn:E2. cbn [fst snd]. destruct (io_fstat _ _ _ _ E2) as [Hv2 Hst].
  rewrite Hv in Hv2. assert (Hf : file_of (iov w1) fd = io_data (iov w) !! path).
  { rewrite Hv. by erewrite file_of_open by apply lookup_insert_eq. }
  destruct st as [st|]; [|eapply wp_mono; [eapply wp_fail|]; cbn beta; [done..|]; by intros r w3 [-> ?]].
  apply wp_bind.
  apply (wp_mono _ (λ r w3, iov w3 = iov w2 ∧ ∀ n c, r = Some n → io_data (iov w) !! path = Some c →
                     len c < 2 ^ 63 → n = len c)).
  { destruct (st_blk st) eqn:Eb.
    - apply wp_call. destruct (h_getsize64 fd w2) as [n w3] eqn:E3. destruct (io_getsize _ _ _ _ E3) as [Hv3 Hn3].
      split; [done|]. intros m c Hm Hc _. eapply Hn3; [done|]. by rewrite Hv2, <- Hv, Hf.
    - split; [done|]. intros n c [= <-] Hc Hlt.
      rewrite (Hst st c); [apply u64_small; lia|done|by rewrite Hf|done]. }
  intros [cap|] w3 [Hv3 Hcap]; [|eapply wp_mono; [eapply wp_fail|]; cbn beta; [done|by rewrite Hv3|]; by intros r w4 [-> ?]].
  rewrite Hv2 in Hv3. apply wp_bind, wp_call. destruct (h_calloc w3) as [ok w4] eqn:E4. cbn [fst snd].
  assert (Hv4 : iov w4 = iov w3) by (by pose proof (io_calloc w3) as H4; rewrite E4 in H4).
  destruct ok.
  - split_and!; [done..|by rewrite Hv4|]. cbn [capacity]. intros c Hc. by apply Hcap.
  - apply wp_bind, wp_call. cbn. rewrite io_close, Hv4, Hv3. cbn [io_fds io_data].
    rewrite delete_insert_id by done. symmetry. apply io_eta.
Qed.
End Open.
End Requests.

(** ** A concrete host

    [L] bounds the bytes of one transfer; [None] does not cut them. *)
Record toy_io := mk_tio { ti_next : Z; ti_view : IoView; ti_syncs : Z }.

Section ToyIo.
Context (L : option Z).
Definition cut (n : Z) : Z := match L with Some k => Z.max 0 (Z.min k n) | None => n end.

Definition toy_hostio : HostIO toy_io := {|
  h_open p rw w :=
    if bool_decide (0 <= ti_next w ∧ io_fds (ti_view w) !! ti_next w = None ∧ is_Some (io_data (ti_view w) !! p))
    then (ti_next w, mk_tio (ti_next w + 1)
            (mk_io (<[ti_next w := (p, rw)]> (io_fds (ti_view w))) (io_data (ti_view w))) (ti_syncs w))
    else (-1, w);
  h_fstat fd w := ((λ c, mk_stat false (len c)) <$> file_of (ti_view w) fd, w);
  h_getsize64 fd w := (None, w);
  h_pread fd n off w :=
    match file_of (ti_view w) fd with
    | Some c => let d := take (Z.to_nat (cut n)) (drop (Z.to_nat off) c) in ((len d, d), w)
    | None => ((-1, []), w)
    end;
  h_pwrite fd b off w :=
    match io_fds (ti_view w) !! fd with
    | Some (p, true) =>
        match io_data (ti_view w) !! p with
        | Some c =>
            if 0 <=? off then
              (cut (len b), mk_tio (ti_next w) (mk_io (io_fds (ti_view w))
                (<[p := splice (Z.to_nat off) (take (Z.to_nat (cut (len b))) b) c]> (io_data (ti_view w)))) (ti_syncs w))
            else (-1, w)
        | None => (-1, w)
        end
    | _ => (-1, w)
    end;
  h_fsync fd w := (0, mk_tio (ti_next w) (ti_view w) (ti_syncs w + 1));
  h_close fd w := (0, mk_tio (ti_next w) (mk_io (delete fd (io_fds (ti_view w))) (io_data (ti_view w))) (ti_syncs w));
  h_calloc w := (true, w);
  h_error w := (bs "error", w) |}.

Lemma cut_range n : 0 <= n → 0 <= cut n <= n.
Proof. unfold cut. destruct L; lia. Qed.

Definition toy_hostio_laws : @HostIOLaws toy_io toy_hostio.
Proof.
  refine {| iov := ti_view |}; try done; cbn.
  - intros p rw w r w'. case_bool_decide as H; intros [= <- <-]; [right|by left]. naive_solver.
  - intros fd w r w' [= <- <-]. split; [done|]. intros st d Hr Hd. rewrite Hd in Hr. by simplify_eq/=.
  - by intros fd w r w' [= <- <-].
  - intros fd n off w r d w'. destruct (file_of _ _) as [c|] eqn:E; intros [= <- <- <-];
      (split; [done|]); [|split_and!; [done|lia|lia]].
    split_and!; [lia| |].
    + rewrite length_take. destruct (Z.leb_spec 0 n); [pose proof (cut_range n); lia|].
      replace (Z.to_nat (cut n)) with 0%nat; [lia|]. unfold cut. destruct L; lia.
    + intros _ c' [= <-]. rewrite Nat2Z.id, length_take.
      destruct (Nat.le_gt_cases (Z.to_nat (cut n)) (length (drop (Z.to_nat off) c))).
      * f_equal. lia.
      * rewrite !take_ge by lia. done.
  - intros fd b off w r w'. destruct (io_fds _ !! fd) as [[p [|]]|] eqn:E1; [|intros [= <- <-]; by left..].
    destruct (io_data _ !! p) as [c|] eqn:E2; [|intros [= <- <-]; by left].
    destruct (Z.leb_spec 0 off); intros [= <- <-]; [right|by left].
    split; [apply cut_range; lia|]. split; [done|]. by exists p, c.
Defined.
End ToyIo.

Lemma toy_full : @full_read toy_io (toy_hostio None) (toy_hostio_laws None) ∧ @full_write toy_io (toy_hostio None).
Proof.
  split.
  - intros fd n off w r d w' c. cbn. intros H Hf. rewrite Hf in H. injection H as <- <- <-.
    intros. rewrite length_take, length_drop. lia.
  - intros fd b off w r w'. cbn. repeat case_match; intros [= <- <-]; lia.
Qed.

(** A 1024-byte image "a", open for writing as descriptor 3. *)
Definition host0 : toy_io :=
  mk_tio 4 (mk_io {[ 3 := (bs "a", true) ]} {[ bs "a" := replicate 1024 7 ]}) 0.
Definition ctx0 : raw_blk_ctx := mk_ctx 3 1024.

(** ** Properties *)

(** C28 Read and write requests inside the image, on a host that does not cut
    transfers short, over a descriptor open for reading and writing or for
    reading only.  A read leaves the host unchanged and, when it reports OK,
    the buffers keep their lengths and hold exactly the image's bytes from
    sector * 512 on.  A write over a writable descriptor stores a prefix of the
    buffers there, all of them when it reports OK, and no other byte of any
    file changes; over a read-only one (a read-only session) it changes nothing
    and reports an error unless there are no buffers. *)
Theorem raw_request_correct {W} `{!HostIO W, !HostIOLaws W} fd p (rw : bool) cap s buf c (w : W) :
  full_read → full_write → io_fds (iov w) !! fd = Some (p, rw) → io_data (iov w) !! p = Some c →
  0 <= s → s * 512 + len (mjoin buf) <= len c → len c < 2 ^ 63 →
  wp (raw_request (mk_ctx fd cap) (mk_req LKL_DEV_BLK_TYPE_READ s buf)) (read_post (s * 512) c buf w) w ∧
  wp (raw_request (mk_ctx fd cap) (mk_req LKL_DEV_BLK_TYPE_WRITE s buf))
    (if rw then write_post p (s * 512) c buf w
     else λ r w', iov w' = iov w ∧ r = (if decide (buf = []) then LKL_DEV_BLK_STATUS_OK else LKL_DEV_BLK_STATUS_IOERR, buf)) w.
Proof.
  intros Hr Hw Hfd Hp Hs Hlen Hc. split; (apply wp_request; [done|cbn [rq_sector]; lia|]).
  - apply wp_request_read; [done|by erewrite file_of_open|lia..].
  - destruct rw; [apply wp_write_loop; [done..|lia|lia]|by eapply wp_write_refused].
Qed.

Lemma raw_request_correct_witness :
  let buf := [[1; 2]; [3; 4; 5]] in
  wp (S := toy_io) (raw_request (HostIO0 := toy_hostio None) ctx0 (mk_req LKL_DEV_BLK_TYPE_READ 1 buf))
    (read_post (HostIO0 := toy_hostio None) (HostIOLaws0 := toy_hostio_laws None) (1 * 512) (replicate 1024 7) buf host0) host0.
Proof.
  refine (proj1 (@raw_request_correct toy_io (toy_hostio None) (toy_hostio_laws None) 3 (bs "a") true 1024 1
    [[1; 2]; [3; 4; 5]] (replicate 1024 7) host0 (proj1 toy_full) (proj2 toy_full) _ _ _ _ _));
    [reflexivity|reflexivity|lia|rewrite length_replicate; cbn; lia|rewrite length_replicate; lia].
Defined.

(** What was written is read back: after a write that reports OK, a read of
    the same sector with buffers of the same total length, split in any way,
    returns the written bytes if it reports OK. *)
Theorem raw_roundtrip {W} `{!HostIO W, !HostIOLaws W} fd p cap s buf buf' c (w : W) :
  full_read → full_write → io_fds (iov w) !! fd = Some (p, true) → io_data (iov w) !! p = Some c →
  0 <= s → s * 512 + len (mjoin buf) <= len c → len c < 2 ^ 63 → length (mjoin buf') = length (mjoin buf) →
  wp (x ← raw_request (mk_ctx fd cap) (mk_req LKL_DEV_BLK_TYPE_WRITE s buf);
      y ← raw_request (mk_ctx fd cap) (mk_req LKL_DEV_BLK_TYPE_READ s buf'); mret (x, y))
    (λ r _, r.1.1 = LKL_DEV_BLK_STATUS_OK → r.2.1 = LKL_DEV_BLK_STATUS_OK → mjoin r.2.2 = mjoin buf) w.
Proof.
  intros Hr Hw Hfd Hp Hs Hlen Hc Hb. apply wp_bind, wp_request; [done|cbn [rq_sector]; lia|].
  wp_use wp_write_loop; [done..|cbn [rq_sector]; lia|cbn [rq_sector rq_buf]; lia|].
  intros x w1 (_ & k & Hv & Hk). cbn [rq_sector rq_buf] in *.
  set (c1 := splice (Z.to_nat (s * 512)) (mjoin (take k buf)) c) in *.
  assert (Hk' : (length (mjoin (take k buf)) <= length (mjoin buf))%nat).
  { rewrite <- (take_drop k buf) at 2. rewrite join_app, length_app. lia. }
  assert (Hc1 : length c1 = length c) by (unfold c1; rewrite splice_length; lia).
  apply wp_bind, wp_request; [done|cbn [rq_sector]; lia|].
  wp_use (wp_request_read fd buf' (s * 512) c1 w1);
    [done|by rewrite (file_of_open _ _ p true), Hv by (by rewrite Hv); cbn; rewrite lookup_insert_eq|lia|lia|lia|].
  intros y w2 (_ & _ & _ & Hok). apply wp_ret. cbn [fst snd]. intros Hx Hy. rewrite Hok, Hb by done.
  destruct Hk as [Hk|[_ ->]]; [rewrite Hx in Hk; discriminate|].
  unfold c1. rewrite firstn_all. apply read_splice. lia.
Qed.

Lemma raw_roundtrip_witness :
  wp (S := toy_io) (x ← raw_request (HostIO0 := toy_hostio None) ctx0 (mk_req LKL_DEV_BLK_TYPE_WRITE 1 [[1; 2]; [3]]);
      y ← raw_request (HostIO0 := toy_hostio None) ctx0 (mk_req LKL_DEV_BLK_TYPE_READ 1 [[0; 0; 0]]); mret (x, y))
    (λ r _, r.1.1 = LKL_DEV_BLK_STATUS_OK → r.2.1 = LKL_DEV_BLK_STATUS_OK → mjoin r.2.2 = mjoin [[1; 2]; [3]]) host0.
Proof.
  refine (@raw_roundtrip toy_io (toy_hostio None) (toy_hostio_laws None) 3 (bs "a") 1024 1
    [[1; 2]; [3]] [[0; 0; 0]] (replicate 1024 7) host0 (proj1 toy_full) (proj2 toy_full) _ _ _ _ _ _);
    [reflexivity|reflexivity|lia|rewrite length_replicate; cbn; lia|rewrite length_replicate; lia|reflexivity].
Defined.

Example write_toy :
  (λ r, (r.1.1, take 5 (drop 510 (default [] (io_data (ti_view r.2) !! bs "a"))))) <$>
    raw_request (HostIO0 := toy_hostio None) ctx0 (mk_req LKL_DEV_BLK_TYPE_WRITE 1 [[1; 2]]) host0 =
  Some (LKL_DEV_BLK_STATUS_OK, [7; 7; 1; 2; 7]).
Proof. vm_compute. reflexivity. Qed.

(** A transfer the host cuts short is reported as a success: the tail of the
    buffer is not stored, or keeps what it held. *)
Lemma short_transfer_reported_ok :
  (λ r, (r.1.1, take 4 (drop 512 (default [] (io_data (ti_view r.2) !! bs "a"))))) <$>
    raw_request (HostIO0 := toy_hostio (Some 2)) ctx0 (mk_req LKL_DEV_BLK_TYPE_WRITE 1 [[1; 2; 3; 4]]) host0
    = Some (LKL_DEV_BLK_STATUS_OK, [1; 2; 7; 7]) ∧
  fst <$> raw_request (HostIO0 := toy_hostio (Some 2)) ctx0 (mk_req LKL_DEV_BLK_TYPE_READ 1 [[1; 2; 3; 4]]) host0
    = Some (LKL_DEV_BLK_STATUS_OK, [[7; 7; 3; 4]]).
Proof. split; vm_compute; reflexivity. Qed.

(** A flush without data buffers does not reach fsync. *)
Lemma flush_without_buffers {W} `{!HostIO W} ctx (w : W) :
  raw_request ctx (mk_req LKL_DEV_BLK_TYPE_FLUSH 0 []) w = Some ((LKL_DEV_BLK_STATUS_OK, []), w).
Proof. done. Qed.

(** Opening an image: on every error path no descriptor stays open and the
    host is unchanged; on success exactly one new descriptor is open, writable
    only if the session is not read-only, and the capacity is the size of the
    file. *)
Theorem raw_open_correct {W} `{!HostIO W, !HostIOLaws W} (set_last_error : bytes → M W ()) path flags (w : W) :
  (∀ t w, wp (set_last_error t) (λ _ w', iov w' = iov w) w) →
  wp (raw_blk_open set_last_error path flags) (λ r w', opened path flags r w w') w.
Proof. intros H. by apply wp_blk_open. Qed.

Lemma raw_open_correct_witness :
  wp (S := toy_io) (raw_blk_open (HostIO0 := toy_hostio None) (λ _, mret ()) (bs "a") 1)
    (λ r w', opened (HostIO0 := toy_hostio None) (HostIOLaws0 := toy_hostio_laws None) (bs "a") 1 r host0 w') host0.
Proof. exact (@raw_open_correct toy_io (toy_hostio None) (toy_hostio_laws None) (λ _, mret ()) (bs "a") 1 host0 (λ t w, eq_refl)). Defined.

Example open_toy :
  fst <$> raw_blk_open (HostIO0 := toy_hostio None) (λ _, mret ()) (bs "a") 1 host0 = Some (Some (mk_ctx 4 1024)) ∧
  fst <$> raw_blk_open (HostIO0 := toy_hostio None) (λ _, mret ()) (bs "b") 1 host0 = Some None.
Proof. split; vm_compute; reflexivity. Qed.

End Raw.
