(* ===== verification/Backend.v ===== *)
(** * Backend

    src/core/anyfs_backend.c and the error text of src/core/anyfs_kernel.c:
    the backend registry and the table of attached disks.  The state of the
    code is [Globals] beside the state of the host and of the kernel.  The GIO
    and QEMU backends, which are thin layers over libraries, and the virtio
    bus of the kernel are interfaces. *)
From S2P Require Import Prelude CLib Lkl Raw.
Import CLib.

(** ** Data *)

Inductive backend_ops := raw_backend_ops | gio_backend_ops | qemu_backend_ops.
#[export] Instance backend_eq : EqDecision backend_ops.
Proof. solve_decision. Defined.

(** The private data of an open disk: the raw backend's, or a handle of one of
    the other two. *)
Inductive handle := HRaw (ctx : Raw.raw_blk_ctx) | HExt (h : Z).
#[export] Instance ctx_eq : EqDecision Raw.raw_blk_ctx.
Proof. solve_decision. Defined.
#[export] Instance handle_eq : EqDecision handle.
Proof. solve_decision. Defined.

Record lkl_disk := mk_disk { d_handle : option handle; d_dev : Z }.

Record disk_slot := mk_dslot {
  in_use : bool; sl_disk_id : Z; sl_disk : lkl_disk; sl_backend : backend_ops }.

Record Globals := mk_globals {
  g_last_error : bytes;
  anyfs_backends : list backend_ops;
  g_disks : list disk_slot }.

Definition set_disks (l : list disk_slot) (g : Globals) : Globals :=
  mk_globals (g_last_error g) (anyfs_backends g) l.

(** ** Interfaces: the virtio bus, and the backends that wrap a library *)

Class Disks (W : Type) := {
  lkl_disk_add : lkl_disk → kcall W (Z * lkl_disk);
  lkl_disk_remove : lkl_disk → kcall W ();
  ext_open : backend_ops → bytes → Z → kcall W (option Z);
  ext_close : backend_ops → Z → kcall W ();
}.

(** The disks on the bus and the handles the other backends have open. *)
Record DView := mk_dview { attached : gmap Z lkl_disk; ext_handles : gset Z }.

(** The host's file calls leave [R] alone. *)
Class HostKeeps {W X} `{!HostIO W} (R : W → X) := {
  keep_open p rw w : R (h_open p rw w).2 = R w;
  keep_fstat fd w : R (h_fstat fd w).2 = R w;
  keep_getsize fd w : R (h_getsize64 fd w).2 = R w;
  keep_close fd w : R (h_close fd w).2 = R w;
  keep_calloc w : R (h_calloc w).2 = R w;
  keep_error w : R (h_error w).2 = R w;
}.

Class DiskKeeps {W X} `{!Disks W} (R : W → X) := {
  keep_add d w : R (lkl_disk_add d w).2 = R w;
  keep_remove d w : R (lkl_disk_remove d w).2 = R w;
  keep_ext_open b p f w : R (ext_open b p f w).2 = R w;
  keep_ext_close b h w : R (ext_close b h w).2 = R w;
}.

Class DisksLaws (W : Type) `{!HostIO W, !HostIOLaws W, !Disks W} := {
  dview : W → DView;
  dl_host :: HostKeeps dview;
  dl_iov :: DiskKeeps iov;
  dl_add d w r d' w' : lkl_disk_add d w = ((r, d'), w') →
    d_handle d' = d_handle d ∧
    ((r < 0 ∧ dview w' = dview w) ∨
     (0 <= r < 2 ^ 31 ∧ d_dev d' = r ∧ attached (dview w) !! r = None ∧
      dview w' = mk_dview (<[r := d']> (attached (dview w))) (ext_handles (dview w))));
  dl_remove d w : attached (dview w) !! d_dev d = Some d →
    dview (lkl_disk_remove d w).2 = mk_dview (delete (d_dev d) (attached (dview w))) (ext_handles (dview w));
  dl_ext_open b p f w r w' : ext_open b p f w = (r, w') →
    match r with
    | None => dview w' = dview w
    | Some h => h ∉ ext_handles (dview w) ∧
        dview w' = mk_dview (attached (dview w)) ({[h]} ∪ ext_handles (dview w))
    end;
  dl_ext_close b h w :
    dview (ext_close b h w).2 = mk_dview (attached (dview w)) (ext_handles (dview w) ∖ {[h]});
}.

(** ** Code with state of its own beside the host's *)
Definition klift {S W A} (f : kcall W A) : kcall (S * W) A := λ sw,
  ((f sw.2).1, (sw.1, (f sw.2).2)).

#[export] Instance lift_hostio {S W} `{!HostIO W} : HostIO (S * W) := {|
  h_open p rw := klift (h_open p rw);
  h_fstat fd := klift (h_fstat fd);
  h_getsize64 fd := klift (h_getsize64 fd);
  h_pread fd n off := klift (h_pread fd n off);
  h_pwrite fd b off := klift (h_pwrite fd b off);
  h_fsync fd := klift (h_fsync fd);
  h_close fd := klift (h_close fd);
  h_calloc := klift h_calloc;
  h_error := klift h_error |}.

Ltac unlift H :=
  unfold klift in H;
  match type of H with
  | (?x.1, (_, ?x.2)) = _ => let E := fresh "E" in destruct x as [? ?] eqn:E; cbn [fst snd] in H; simplify_eq
  end.

#[export] Instance lift_hostio_laws {S W} `{!HostIO W, !HostIOLaws W} : HostIOLaws (S * W).
Proof.
  refine {| iov := λ sw, iov sw.2 |}; intros; cbn [h_open h_fstat h_getsize64 h_pread h_pwrite h_fsync h_close
    h_calloc h_error lift_hostio] in *; try match goal with H : klift _ _ = _ |- _ => unlift H end; cbn [fst snd].
  - by eapply io_open.
  - by eapply io_fstat.
  - by eapply io_getsize.
  - by eapply io_pread.
  - by eapply io_pwrite.
  - apply io_fsync.
  - apply io_close.
  - apply io_calloc.
  - apply io_error.
Defined.

#[export] Instance lift_keeps {S W X Y} `{!HostIO W} (R : W → X) (F : S → Y) `{!HostKeeps R} :
  HostKeeps (W := S * W) (λ sw, (F sw.1, R sw.2)).
Proof.
  split; intros; cbn [h_open h_fstat h_getsize64 h_close h_calloc h_error lift_hostio klift fst snd]; f_equal;
    first [apply keep_open | apply keep_fstat | apply keep_getsize | apply keep_close | apply keep_calloc | apply keep_error].
Qed.

Module Backend.

Definition ANYFS_MAX_BACKENDS : Z := 8.
Definition ANYFS_MAX_DISKS : Z := 16.
Definition ANYFS_BACKEND_RAW : Z := 2.
Definition ANYFS_BACKEND_GIO : Z := 4.
Definition ANYFS_BACKEND_QEMU : Z := 8.

(** ** The code *)

Definition backend_name (b : backend_ops) : bytes :=
  match b with
  | raw_backend_ops => bs "raw"
  | gio_backend_ops => bs "gio"
  | qemu_backend_ops => bs "qemu"
  end.

Definition anyfs_register_backend (ops : backend_ops) (g : Globals) : Globals :=
  if len (anyfs_backends g) <? ANYFS_MAX_BACKENDS
  then mk_globals (g_last_error g) (anyfs_backends g ++ [ops]) (g_disks g) else g.

Definition anyfs_find_backend (name : bytes) (g : Globals) : option backend_ops :=
  snd <$> list_find (λ b, backend_name b = name) (anyfs_backends g).

(** vsnprintf into a buffer of 512. *)
Definition anyfs_set_last_error {W} (text : bytes) : M (Globals * W) () :=
  mmod (λ gw, (mk_globals (snprintf 512 text).2 (anyfs_backends gw.1) (g_disks gw.1), gw.2)).

Definition anyfs_get_last_error (g : Globals) : option bytes :=
  match g_last_error g with [] => None | e => Some e end.

(** The backend a flag word and ANYFS_BACKEND pick, for a build with or
    without the optional backends, as compiled on Linux: the builds for macOS
    and Windows have one more test, between the environment and the default,
    that sends the path of a raw device to the raw backend. *)
Definition select_backend (has_qemu has_gio : bool) (env : option bytes) (flags : Z) : backend_ops :=
  let ops : option backend_ops :=
    if has_qemu && flag flags ANYFS_BACKEND_QEMU then Some qemu_backend_ops else None in
  let ops := match ops with
    | Some _ => ops
    | None => if has_gio && flag flags ANYFS_BACKEND_GIO then Some gio_backend_ops else None end in
  let ops := match ops with
    | Some _ => ops
    | None => if flag flags ANYFS_BACKEND_RAW then Some raw_backend_ops else None end in
  let ops := match ops with
    | Some _ => ops
    | None => if bool_decide (env = Some (bs "raw")) then Some raw_backend_ops else None end in
  let ops := match ops with
    | Some _ => ops
    | None => if has_qemu && bool_decide (env = Some (bs "qemu")) then Some qemu_backend_ops else None end in
  match ops with
  | Some b => b
  | None => if has_qemu then qemu_backend_ops else raw_backend_ops
  end.

Section Code.
Context {W} `{!HostIO W, !Disks W} (has_qemu has_gio : bool) (env : option bytes).
Notation St := (Globals * W)%type.

Definition ops_open (b : backend_ops) (path : bytes) (flags : Z) : M St (option handle) :=
  match b with
  | raw_backend_ops =>
      r ← Raw.raw_blk_open (W := St) anyfs_set_last_error path flags;
      mret (HRaw <$> r)
  | _ => r ← lower (call (ext_open b path flags)); mret (HExt <$> r)
  end.

(** Closing sets the handle to NULL; a handle of another backend is misread. *)
Definition ops_close (b : backend_ops) (d : lkl_disk) : M St lkl_disk :=
  _ ← match b, d_handle d with
      | _, None => mret ()
      | raw_backend_ops, Some (HRaw ctx) => _ ← Raw.raw_blk_destroy (W := St) (Some ctx); mret ()
      | gio_backend_ops, Some (HExt h) | qemu_backend_ops, Some (HExt h) => lower (call (ext_close b h))
      | _, _ => mstuck
      end;
  mret (mk_disk None (d_dev d)).

Definition free_slot (l : list disk_slot) : option nat :=
  fst <$> list_find (λ s, in_use s = false) l.

Definition anyfs_disk_add (image_path : option bytes) (flags : Z) : M St Z :=
  match image_path with
  | None => mret (-1)
  | Some path =>
      g ← mgets fst;
      match free_slot (g_disks g) with
      | None => mret (-1)
      | Some slot =>
          let ops := select_backend has_qemu has_gio env flags in
          h ← ops_open ops path flags;
          match h with
          | None => mret (-1)
          | Some h =>
              r ← lower (call (lkl_disk_add (mk_disk (Some h) 0)));
              if r.1 <? 0 then _ ← ops_close ops r.2; mret (-1)
              else
                _ ← mmod (λ gw, (set_disks (<[slot := mk_dslot true r.1 r.2 ops]> (g_disks gw.1)) gw.1, gw.2));
                mret r.1
          end
      end
  end.

(** lkl_disk_remove, close, in_use = 0: one slot. *)
Definition release_slot (i : nat) (s : disk_slot) : M St () :=
  _ ← lower (call (lkl_disk_remove (sl_disk s)));
  d ← ops_close (sl_backend s) (sl_disk s);
  mmod (λ gw, (set_disks (<[i := mk_dslot false (sl_disk_id s) d (sl_backend s)]> (g_disks gw.1)) gw.1, gw.2)).

Definition anyfs_disk_remove (disk_id : Z) : M St Z :=
  g ← mgets fst;
  match list_find (λ s, in_use s = true ∧ sl_disk_id s = disk_id) (g_disks g) with
  | Some (i, s) => _ ← release_slot i s; mret 0
  | None => mret (-1)
  end.
End Code.

(** ** What opening and closing do *)

(** A resource of the host that a disk holds: a descriptor, or a handle of
    another backend. *)
Definition res (h : handle) : Z + Z :=
  match h with HRaw ctx => inl (Raw.c_fd ctx) | HExt h => inr h end.

(** The handle is one of the backend's. *)
Definition fits (b : backend_ops) (h : handle) : Prop :=
  match b, h with raw_backend_ops, HRaw _ => True | gio_backend_ops, HExt _ | qemu_backend_ops, HExt _ => True | _, _ => False end.

Section Effects.
Context {W} `{!HostIO W, !HostIOLaws W, !Disks W, !DisksLaws W}.
Notation St := (Globals * W)%type.
Implicit Types (g : Globals) (w : W).

Definition held w (r : Z + Z) : Prop :=
  match r with inl fd => is_Some (io_fds (iov w) !! fd) | inr h => h ∈ ext_handles (dview w) end.

(** The part of the globals that only the disk table's code changes. *)
Definition tables g := (anyfs_backends g, g_disks g).

Lemma wp_raw_frame {X} (R : St → X) `{!HostKeeps R} path flags s :
  (∀ t s, wp (anyfs_set_last_error t) (λ _ s', R s' = R s) s) →
  wp (Raw.raw_blk_open anyfs_set_last_error path flags) (λ _ s', R s' = R s) s.
Proof.
  intros He. unfold Raw.raw_blk_open.
  assert (Herr : ∀ {A} (k : M St A) t s0 s1, R s1 = R s0 → (∀ s2, R s2 = R s0 → wp k (λ _ s', R s' = R s0) s2) →
    wp (e ← call h_error; _ ← anyfs_set_last_error (t e); k) (λ _ s', R s' = R s0) s1).
  { intros A k t s0 s1 H1 Hk. apply wp_bind, wp_call, wp_bind. wp_use He. intros [] s2 H2.
    apply Hk. by rewrite H2, keep_error. }
  apply wp_bind, wp_call. case_if; [apply (Herr _ _ (λ e, _)); [apply keep_open|done]|].
  apply wp_bind, wp_call. case_match.
  2: { apply (Herr _ _ (λ e, _)); [by rewrite keep_fstat, keep_open|]. intros s2 H2.
       apply wp_bind, wp_call, wp_ret. by rewrite keep_close. }
  apply wp_bind. apply (wp_mono _ (λ _ s', R s' = R s)).
  { case_if; [apply wp_call; by rewrite keep_getsize, keep_fstat, keep_open|apply wp_ret; by rewrite keep_fstat, keep_open]. }
  intros [cap|] s2 H2.
  2: { apply (Herr _ _ (λ e, _)); [done|]. intros s3 H3. apply wp_bind, wp_call, wp_ret. by rewrite keep_close. }
  apply wp_bind, wp_call. case_if; [apply wp_ret; by rewrite keep_calloc|].
  apply wp_bind, wp_call, wp_ret. by rewrite keep_close, keep_calloc.
Qed.

(** [held] as it is and [held] with [x] added or taken away. *)
Definition same_held w w' : Prop := ∀ x, held w' x ↔ held w x.

Lemma held_views w w' : iov w' = iov w → dview w' = dview w → same_held w w'.
Proof. intros H1 H2 x. unfold held. by rewrite H1, H2. Qed.

(** The result of opening with backend [b]. *)
Definition open_post b g w (r : option handle) (s' : St) : Prop :=
  tables s'.1 = tables g ∧ attached (dview s'.2) = attached (dview w) ∧
  match r with
  | None => same_held w s'.2
  | Some h => fits b h ∧ ¬ held w (res h) ∧ ∀ x, held s'.2 x ↔ x = res h ∨ held w x
  end.

Lemma wp_ext_open b path flags g w : b ≠ raw_backend_ops →
  wp (r ← lower (call (ext_open b path flags)); mret (HExt <$> r)) (open_post b g w) (g, w).
Proof.
  intros Hb. apply wp_bind, wp_lower, wp_call. cbn [fst snd]. pose proof (keep_ext_open (R := iov) b path flags w) as Hk.
  destruct (ext_open b path flags w) as [r w'] eqn:E. apply dl_ext_open in E. cbn [fst snd] in *. apply wp_ret.
  split; [done|]. destruct r as [h|]; cbn [fmap option_fmap option_map].
  - destruct E as [Hn E]. cbn [snd]. rewrite E. split_and!; [done|by destruct b|done|].
    intros [fd|h']; cbn [held res]; rewrite ?Hk, ?E; cbn [ext_handles]; set_solver.
  - cbn [snd]. rewrite E. split; [done|by apply held_views].
Qed.

Lemma wp_ops_open b path flags g w : wp (ops_open b path flags) (open_post b g w) (g, w).
Proof.
  destruct b; cbn [ops_open]; [|by apply wp_ext_open..].
  apply wp_bind. eapply wp_mono; [apply wp_and; [apply (Raw.wp_blk_open anyfs_set_last_error)|]|].
  - done.
  - apply (wp_raw_frame (λ sw, (tables sw.1, dview sw.2))); done.
  - intros r [g' w'] [Ho Hf]. cbn in Hf. injection Hf as Ht1 Ht2 Hd. apply wp_ret.
    split; [unfold tables; cbn [fst]; congruence|]. split; [by cbn [snd]; rewrite Hd|].
    destruct r as [ctx|]; cbn [Raw.opened fmap option_fmap option_map iov lift_hostio_laws fst snd] in *.
    + destruct Ho as (Hn & _ & Hv & _). split; [done|]. split; [unfold held, res; rewrite Hn; by intros []|].
      intros [fd|h]; cbn [held res]; rewrite ?Hv, ?Hd; [|naive_solver]. cbn [io_fds].
      rewrite lookup_insert_is_Some'. naive_solver.
    + by apply held_views.
Qed.

Lemma wp_ops_close b d h g w : d_handle d = Some h → fits b h →
  wp (ops_close b d) (λ d' s', s'.1 = g ∧ d' = mk_disk None (d_dev d) ∧
    attached (dview s'.2) = attached (dview w) ∧ ∀ x, held s'.2 x ↔ held w x ∧ x ≠ res h) (g, w).
Proof.
  intros Hh Hb. unfold ops_close. rewrite Hh. destruct b, h as [ctx|h]; try done; apply wp_bind; cbn [Raw.raw_blk_destroy].
  - apply wp_bind, wp_bind, wp_call, wp_ret. cbn. split_and!; [done..|by rewrite keep_close|].
    intros [fd|h]; cbn; rewrite ?io_close, ?keep_close; [|naive_solver].
    cbn. rewrite lookup_delete_is_Some. naive_solver.
  - apply wp_lower, wp_call, wp_ret. cbn. split_and!; [done..|by rewrite dl_ext_close|].
    intros [fd|h']; cbn; rewrite ?keep_ext_close, ?dl_ext_close; cbn; set_solver.
  - apply wp_lower, wp_call, wp_ret. cbn. split_and!; [done..|by rewrite dl_ext_close|].
    intros [fd|h']; cbn; rewrite ?keep_ext_close, ?dl_ext_close; cbn; set_solver.
Qed.

(** ** The invariant of the disk table *)

Definition used g (i : nat) (s : disk_slot) : Prop := g_disks g !! i = Some s ∧ in_use s = true.
Definition owns g (x : Z + Z) : Prop :=
  ∃ i s h, used g i s ∧ d_handle (sl_disk s) = Some h ∧ res h = x.

(** The table and the bus agree, and the resources of the host that are
    held are those of the used slots and [base]. *)
Record DInv (base : Z + Z → Prop) g w : Prop := mk_dinv {
  di_len : len (g_disks g) = ANYFS_MAX_DISKS;
  di_slot i s : used g i s → sl_disk_id s = d_dev (sl_disk s) ∧
    attached (dview w) !! sl_disk_id s = Some (sl_disk s) ∧
    ∃ h, d_handle (sl_disk s) = Some h ∧ fits (sl_backend s) h ∧ ¬ base (res h);
  di_bus id d : attached (dview w) !! id = Some d → ∃ i s, used g i s ∧ sl_disk_id s = id;
  di_ids i j s t : used g i s → used g j t → sl_disk_id s = sl_disk_id t → i = j;
  di_res i j s t h k : used g i s → used g j t → d_handle (sl_disk s) = Some h →
    d_handle (sl_disk t) = Some k → res h = res k → i = j;
  di_held x : held w x ↔ base x ∨ owns g x }.

(** Only the disk table, the bus and the held resources matter. *)
Lemma DInv_proper base g w g' w' : DInv base g w → g_disks g' = g_disks g →
  attached (dview w') = attached (dview w) → same_held w w' → DInv base g' w'.
Proof.
  intros I Hg Ha Hh. assert (Hu : ∀ i s, used g' i s = used g i s) by (intros; unfold used; by rewrite Hg).
  split; [by rewrite Hg; apply I|..]; repeat setoid_rewrite Hu; rewrite ?Ha; try apply I.
  intros x. rewrite (Hh x), (di_held _ _ _ I x). unfold owns. by repeat setoid_rewrite Hu.
Qed.

Lemma used_insert g i s j t : (i < length (g_disks g))%nat →
  used (set_disks (<[i := s]> (g_disks g)) g) j t ↔
  (j = i ∧ t = s ∧ in_use s = true) ∨ (j ≠ i ∧ used g j t).
Proof.
  intros Hi. unfold used. cbn [set_disks g_disks]. destruct (decide (j = i)) as [->|Hne].
  - rewrite list_lookup_insert_eq by done. naive_solver.
  - rewrite list_lookup_insert_ne by done. naive_solver.
Qed.

(** A new disk enters a slot that was free. *)
Lemma DInv_add base g w w' i r d b h : DInv base g w → (i < length (g_disks g))%nat →
  (∀ s, ¬ used g i s) → fits b h → ¬ held w (res h) → (∀ x, held w' x ↔ x = res h ∨ held w x) →
  d_handle d = Some h → d_dev d = r → attached (dview w) !! r = None →
  attached (dview w') = <[r := d]> (attached (dview w)) →
  DInv base (set_disks (<[i := mk_dslot true r d b]> (g_disks g)) g) w'.
Proof.
  intros I Hi Hfree Hf Hnh Hh Hd Hr Hna Ha.
  assert (Hnb : ¬ base (res h)) by (intros Hb; apply Hnh, (di_held _ _ _ I); by left).
  assert (Hnr : ∀ j t, used g j t → sl_disk_id t ≠ r).
  { intros j t Ht <-. destruct (di_slot _ _ _ I _ _ Ht) as (_ & Hat & _). congruence. }
  assert (Hno : ∀ j t k, used g j t → d_handle (sl_disk t) = Some k → res k ≠ res h).
  { intros j t k Ht Hk E. apply Hnh, (di_held _ _ _ I). right. exists j, t, k. done. }
  split.
  - cbn. rewrite length_insert. apply I.
  - intros j t. rewrite used_insert by done. intros [(-> & -> & _)|[Hne Hu]]; cbn [sl_disk_id sl_disk sl_backend].
    + rewrite Ha, lookup_insert_eq. split_and!; [done..|]. by exists h.
    + rewrite Ha, lookup_insert_ne by (by apply not_eq_sym, (Hnr j t)). by apply (di_slot _ _ _ I j).
  - intros id d'. rewrite Ha. intros [[<- <-]|[Hne Hl]]%lookup_insert_Some.
    + exists i, (mk_dslot true r d b). rewrite used_insert by done. split; [by left|done].
    + destruct (di_bus _ _ _ I _ _ Hl) as (j & t & Hu & <-). exists j, t. split; [|done].
      rewrite used_insert by done. right. split; [|done]. intros ->. by apply (Hfree t).
  - intros j k t u. rewrite !used_insert by done.
    intros [(-> & -> & _)|[Hne Hu]] [(-> & -> & _)|[Hne' Hu']]; cbn [sl_disk_id]; try done.
    + intros E. by destruct (Hnr _ _ Hu').
    + intros E. by destruct (Hnr _ _ Hu).
    + by apply (di_ids _ _ _ I).
  - intros j k t u h1 h2. rewrite !used_insert by done.
    intros [(-> & -> & _)|[Hne Hu]] [(-> & -> & _)|[Hne' Hu']]; cbn [sl_disk]; try done.
    + intros E1 E2 E. simplify_eq. by destruct (Hno _ _ _ Hu' E2).
    + intros E1 E2 E. simplify_eq. by destruct (Hno _ _ _ Hu E1).
    + by apply (di_res _ _ _ I).
  - intros x. rewrite (Hh x), (di_held _ _ _ I x). split.
    + intros [->|[?|(j & t & k & Hu & Hk & Hx)]]; [right| by left|right].
      * exists i, (mk_dslot true r d b), h. rewrite used_insert by done. split; [by left|done].
      * exists j, t, k. rewrite used_insert by done. split; [right; split; [|done]|done].
        intros ->. by apply (Hfree t).
    + intros [?|(j & t & k & Hu & Hk & Hx)]; [by right; left|]. rewrite used_insert in Hu by done.
      destruct Hu as [(-> & -> & _)|[_ Hu]]; [cbn in Hk; simplify_eq; by left|right; right; by exists j, t, k].
Qed.

(** A disk leaves its slot. *)
Lemma DInv_remove base g w w' i s t h : DInv base g w → used g i s → in_use t = false →
  d_handle (sl_disk s) = Some h → (∀ x, held w' x ↔ held w x ∧ x ≠ res h) →
  attached (dview w') = delete (sl_disk_id s) (attached (dview w)) →
  DInv base (set_disks (<[i := t]> (g_disks g)) g) w'.
Proof.
  intros I Hu Ht Hh Hheld Ha. assert (Hi : (i < length (g_disks g))%nat) by (by eapply lookup_lt_Some, Hu).
  assert (Hin : ∀ j u, used (set_disks (<[i := t]> (g_disks g)) g) j u ↔ j ≠ i ∧ used g j u).
  { intros j u. rewrite used_insert by done. split; [intros [(_ & _ & E)|?]; [congruence|done]|by right]. }
  split.
  - cbn. rewrite length_insert. apply I.
  - intros j u. rewrite Hin. intros [Hne Hj]. rewrite Ha, lookup_delete_ne; [by apply (di_slot _ _ _ I j)|].
    intros E. by apply Hne, (di_ids _ _ _ I j i u s).
  - intros id d. rewrite Ha. intros [Hne Hl]%lookup_delete_Some.
    destruct (di_bus _ _ _ I _ _ Hl) as (j & u & Hj & <-). exists j, u. rewrite Hin. split; [split; [|done]|done].
    intros ->. destruct Hu, Hj. by simplify_eq.
  - intros j k u v. rewrite !Hin. intros [_ ?] [_ ?]. by apply (di_ids _ _ _ I).
  - intros j k u v h1 h2. rewrite !Hin. intros [_ ?] [_ ?]. by apply (di_res _ _ _ I).
  - intros x. rewrite (Hheld x), (di_held _ _ _ I x). destruct (di_slot _ _ _ I i s Hu) as (_ & _ & h' & Hh' & _ & Hb).
    simplify_eq. split.
    + intros [[?|(j & u & k & Hj & Hk & Hx)] Hne]; [by left|]. right. exists j, u, k. rewrite Hin.
      split; [split; [|done]|done]. intros ->. destruct Hu, Hj. by simplify_eq.
    + intros [?|(j & u & k & Hj & Hk & Hx)]; [split; [by left|congruence]|]. rewrite Hin in Hj. destruct Hj as [Hne Hj].
      split; [right; by exists j, u, k|]. rewrite <- Hx. intros E. by apply Hne, (di_res _ _ _ I j i u s k h).
Qed.

(** ** The operations *)

Lemma wp_release_slot base g w i s : DInv base g w → used g i s →
  wp (release_slot i s) (λ _ s', DInv base s'.1 s'.2 ∧
    g_disks s'.1 = <[i := mk_dslot false (sl_disk_id s) (mk_disk None (d_dev (sl_disk s))) (sl_backend s)]> (g_disks g) ∧
    attached (dview s'.2) = delete (sl_disk_id s) (attached (dview w)) ∧
    ∀ h, d_handle (sl_disk s) = Some h → ¬ held s'.2 (res h)) (g, w).
Proof.
  intros I Hu. destruct (di_slot _ _ _ I i s Hu) as (Hid & Hat & h & Hh & Hf & _).
  unfold release_slot. apply wp_bind, wp_lower, wp_call. cbn [fst snd].
  rewrite Hid in Hat. pose proof (dl_remove _ _ Hat) as Hd. pose proof (keep_remove (R := iov) (sl_disk s) w) as Hv.
  destruct (lkl_disk_remove (sl_disk s) w) as [[] w1]. cbn [fst snd] in *.
  apply wp_bind. wp_use wp_ops_close; [done..|]. intros d [g2 w2] (Hg & -> & Ha & Hheld). cbn [fst snd] in *. subst g2.
  assert (Hh1 : ∀ x, held w1 x ↔ held w x) by (intros [|]; unfold held; by rewrite ?Hv, ?Hd).
  apply wp_mod. cbn [fst snd]. split_and!; [|done|by rewrite Ha, Hd, Hid|].
  - eapply DInv_remove; [done..| |by rewrite Ha, Hd, Hid]. intros x. by rewrite Hheld, Hh1.
  - intros h' ?. simplify_eq. rewrite Hheld. by intros [_ []].
Qed.

(** Removing: the disk leaves the bus, its slot and its host resource are
    free; an unknown id is an error and changes nothing. *)
Definition removed g w id (r : Z) (s' : St) : Prop :=
  (r = -1 ∧ s' = (g, w) ∧ attached (dview w) !! id = None) ∨
  (r = 0 ∧ attached (dview s'.2) = delete id (attached (dview w)) ∧
   ∃ i s h, used g i s ∧ sl_disk_id s = id ∧ d_handle (sl_disk s) = Some h ∧
     held w (res h) ∧ ¬ held s'.2 (res h) ∧
     g_disks s'.1 = <[i := mk_dslot false id (mk_disk None (d_dev (sl_disk s))) (sl_backend s)]> (g_disks g)).

Lemma wp_disk_remove base g w id : DInv base g w →
  wp (anyfs_disk_remove id) (λ r s', DInv base s'.1 s'.2 ∧ removed g w id r s') (g, w).
Proof.
  intros I. unfold anyfs_disk_remove. apply wp_bind, wp_gets. cbn [fst].
  destruct (list_find _ (g_disks g)) as [[i s]|] eqn:E.
  - apply list_find_Some in E as (Hi & [Hin Hid] & _). assert (Hu : used g i s) by done.
    apply wp_bind. wp_use wp_release_slot; [done..|]. intros _ s' (I' & Hg & Ha & Hh). apply wp_ret.
    split; [done|]. right. split; [done|]. rewrite <- Hid. split; [done|].
    destruct (di_slot _ _ _ I i s Hu) as (_ & _ & h & Hd & _ & _).
    exists i, s, h. split_and!; [apply Hu..|done|done| |by apply Hh|done].
    apply (di_held _ _ _ I). right. by exists i, s, h.
  - split; [done|]. left. split_and!; [done..|]. apply list_find_None in E.
    destruct (attached (dview w) !! id) as [d|] eqn:Ha; [|done].
    destruct (di_bus _ _ _ I _ _ Ha) as (i & s & [Hi Hs] & Hid).
    rewrite Forall_lookup in E. by destruct (E i s Hi).
Qed.

(** Adding: an error changes neither the table nor the bus and holds
    nothing; a success takes the lowest free slot. *)
Definition added g w ops (r : Z) (s' : St) : Prop :=
  (r = -1 ∧ g_disks s'.1 = g_disks g ∧ attached (dview s'.2) = attached (dview w) ∧ same_held w s'.2) ∨
  (0 <= r < 2 ^ 31 ∧ attached (dview w) !! r = None ∧
   ∃ i s d, g_disks g !! i = Some s ∧ in_use s = false ∧
     (∀ j t, (j < i)%nat → g_disks g !! j = Some t → in_use t = true) ∧
     g_disks s'.1 = <[i := mk_dslot true r d ops]> (g_disks g) ∧
     attached (dview s'.2) = <[r := d]> (attached (dview w))).

Lemma held_add w w1 w2 x : (∀ y, held w1 y ↔ y = x ∨ held w y) → ¬ held w x →
  (∀ y, held w2 y ↔ held w1 y ∧ y ≠ x) → same_held w w2.
Proof. intros H1 Hn H2 y. rewrite (H2 y), (H1 y). naive_solver. Qed.

Lemma wp_disk_add q gio env base g w path flags : DInv base g w →
  wp (anyfs_disk_add q gio env path flags)
    (λ r s', DInv base s'.1 s'.2 ∧ added g w (select_backend q gio env flags) r s') (g, w).
Proof.
  intros I. unfold anyfs_disk_add. destruct path as [path|]; [|by split; [|left]].
  apply wp_bind, wp_gets. cbn [fst]. unfold free_slot.
  destruct (list_find _ (g_disks g)) as [[i s]|] eqn:E; cbn [fmap option_fmap option_map fst]; [|by split; [|left]].
  apply list_find_Some in E as (Hi & Hfree & Hlow). set (ops := select_backend q gio env flags).
  assert (Hlt : (i < length (g_disks g))%nat) by by eapply lookup_lt_Some.
  apply wp_bind. wp_use wp_ops_open. intros h [g1 w1] (Ht & Ha & Hh). cbn [fst snd] in *.
  injection Ht as _ Ht. destruct h as [h|].
  2: { apply wp_ret. split; [by eapply DInv_proper|by left]. }
  destruct Hh as (Hf & Hn & Hh). apply wp_bind, wp_lower, wp_call. cbn [fst snd].
  pose proof (keep_add (R := iov) (mk_disk (Some h) 0) w1) as Hv.
  destruct (lkl_disk_add (mk_disk (Some h) 0) w1) as [[r d] w2] eqn:E. cbn [fst snd] in *.
  apply dl_add in E as [Hd [[Hneg Hdv]|(Hge & Hdev & Hna & Hdv)]].
  - rewrite (proj2 (Z.ltb_lt r 0)) by done. apply wp_bind. wp_use wp_ops_close; [by rewrite Hd|done|].
    intros d' [g3 w3] (Hg & _ & Ha3 & Hh3). cbn [fst snd] in *. subst g3. apply wp_ret.
    assert (Hs : same_held w w3).
    { eapply (held_add w w2); [|done..]. intros y. rewrite <- (Hh y). apply held_views; done. }
    assert (Ha' : attached (dview w3) = attached (dview w)) by (rewrite Ha3, Hdv; done).
    split; [by eapply DInv_proper|by left].
  - rewrite (proj2 (Z.ltb_ge r 0)) by lia. apply wp_bind, wp_mod, wp_ret. cbn [fst snd]. rewrite Ha in Hna.
    assert (Hh2 : ∀ y, held w2 y ↔ y = res h ∨ held w y).
    { intros y. rewrite <- (Hh y). unfold held. rewrite Hv, Hdv. done. }
    assert (Hat : attached (dview w2) = <[r := d]> (attached (dview w))) by (rewrite Hdv, <- Ha; done).
    split.
    + apply (DInv_proper base (set_disks (<[i := mk_dslot true r d ops]> (g_disks g)) g) w2);
        [|cbn; by rewrite Ht|done|done].
      eapply DInv_add; [done..| |done|done|done|done|done|done|done]. intros t [Ht' ?]. congruence.
    + right. split; [done|]. split; [done|]. exists i, s, d. split_and!; [done..| |cbn; by rewrite Ht|done].
      intros j t Hj Hjt. destruct (in_use t) eqn:Et; [done|]. by destruct (Hlow j t Hjt Hj).
Qed.

(** ** Histories *)
Inductive disk_op := DAdd (path : option bytes) (flags : Z) | DRemove (id : Z).

Definition run_disk_op q gio env (o : disk_op) : M St () :=
  match o with
  | DAdd p f => _ ← anyfs_disk_add q gio env p f; mret ()
  | DRemove id => _ ← anyfs_disk_remove id; mret ()
  end.

Lemma wp_disk_ops q gio env base ops g w : DInv base g w →
  wp (mfor ops (run_disk_op q gio env)) (λ _ s', DInv base s'.1 s'.2) (g, w).
Proof.
  intros I. apply (wp_for (λ s', DInv base s'.1 s'.2)); [done|]. intros o [g1 w1] _ I1.
  destruct o as [p f|id]; cbn [run_disk_op]; apply wp_bind.
  - wp_use wp_disk_add; [done|]. by intros r s' [? _].
  - wp_use wp_disk_remove; [done|]. by intros r s' [? _].
Qed.

(** ** Frames

    The disk table's code leaves alone what the calls it makes leave alone,
    if it returns. *)
Section Frame.
Context {X} (R : W → X) `{!HostKeeps R, !DiskKeeps R}.
Implicit Types (s : St).

Definition keeps {A} (m : M St A) : Prop := ∀ s a s', m s = Some (a, s') → R s'.2 = R s.2.

Lemma keeps_ret {A} (a : A) : keeps (mret a).
Proof. by intros s b s' [= <- <-]. Qed.
Lemma keeps_stuck {A} : keeps (mstuck (A := A)).
Proof. by intros s b s' [=]. Qed.
Lemma keeps_gets {A} (f : St → A) : keeps (mgets f).
Proof. by intros s b s' [= <- <-]. Qed.
Lemma keeps_mod f : (∀ s, (f s).2 = s.2) → keeps (mmod f).
Proof. intros H s b s' [= <- <-]. by rewrite H. Qed.
Lemma keeps_bind {A B} (m : M St A) (k : A → M St B) : keeps m → (∀ a, keeps (k a)) → keeps (m ≫= k).
Proof.
  intros Hm Hk s b s'. unfold mbind, M_bind. destruct (m s) as [[a s1]|] eqn:E; [|done].
  intros E1. rewrite (Hk a s1 b s' E1). by eapply Hm.
Qed.
Lemma keeps_call {A} (f : kcall W A) : (∀ w, R (f w).2 = R w) → keeps (lower (call f)).
Proof. intros H [g w] a s'. unfold lower, call. cbn. destruct (f w) eqn:E. intros [= <- <-]. cbn. by rewrite <- (H w), E. Qed.
Lemma keeps_raw_open p f : keeps (Raw.raw_blk_open anyfs_set_last_error p f).
Proof.
  intros s a s' E. pose proof (wp_raw_frame (λ sw, ((λ _, ()) sw.1, R sw.2)) p f s) as H.
  unfold wp in H. rewrite E in H. cbn in H. by injection H.
Qed.
Lemma keeps_raw_close fd : keeps (call (h_close fd)).
Proof. intros [g w] a s'. cbn. intros [= <- <-]. apply keep_close. Qed.

Ltac keeps := repeat first
  [ apply keeps_ret | apply keeps_stuck | apply keeps_gets | apply keeps_raw_open | apply keeps_raw_close
  | apply keeps_call; intros; first [apply keep_ext_open | apply keep_ext_close | apply keep_add | apply keep_remove]
  | apply keeps_mod; done | apply keeps_bind; [|intros ?] | case_match ].

Lemma keeps_disk_add q gio env p f : keeps (anyfs_disk_add q gio env p f).
Proof. unfold anyfs_disk_add, ops_open, ops_close. keeps. Qed.

Lemma keeps_release i sl : keeps (release_slot i sl).
Proof. unfold release_slot, ops_close. keeps. Qed.

Lemma keeps_disk_remove id : keeps (anyfs_disk_remove id).
Proof. unfold anyfs_disk_remove, release_slot, ops_close. keeps. Qed.
End Frame.
End Effects.

(** ** A concrete host with a bus *)
Definition toy_bus : Type := DView * Raw.toy_io.
#[local] Existing Instance Raw.toy_hostio.
#[local] Existing Instance Raw.toy_hostio_laws.
Definition toy_bus_io : HostIO toy_bus := @lift_hostio DView Raw.toy_io (Raw.toy_hostio None).
Definition toy_bus_io_laws : @HostIOLaws toy_bus toy_bus_io :=
  @lift_hostio_laws DView Raw.toy_io (Raw.toy_hostio None) (Raw.toy_hostio_laws None).
#[export] Existing Instance toy_bus_io.
#[export] Existing Instance toy_bus_io_laws.

(** The next disk gets the number of disks as its id. *)
#[export] Instance toy_disks : Disks toy_bus := {|
  lkl_disk_add d w :=
    let r := Z.of_nat (size (attached w.1)) in
    let d' := mk_disk (d_handle d) r in
    if bool_decide (attached w.1 !! r = None ∧ r < 2 ^ 31)
    then ((r, d'), (mk_dview (<[r := d']> (attached w.1)) (ext_handles w.1), w.2))
    else ((-1, d), w);
  lkl_disk_remove d w := ((), (mk_dview (delete (d_dev d) (attached w.1)) (ext_handles w.1), w.2));
  ext_open b p f w := (None, w);
  ext_close b h w := ((), (mk_dview (attached w.1) (ext_handles w.1 ∖ {[h]}), w.2)) |}.

#[export] Instance toy_disks_laws : DisksLaws toy_bus.
Proof.
  refine {| dview := fst |}.
  - split; intros; done.
  - split; intros; cbn; try case_bool_decide; done.
  - intros d w r d' w'. cbn. case_bool_decide as H; intros [= <- <- <-]; (split; [done|]); [right|by left].
    destruct H. split_and!; [lia|done..].
  - done.
  - by intros b p f w r w' [= <- <-].
  - done.
Defined.

Definition empty_slot : disk_slot := mk_dslot false 0 (mk_disk None 0) raw_backend_ops.
Definition globals0 : Globals := mk_globals [] [] (replicate 16 empty_slot).
Definition bus0 : toy_bus :=
  (mk_dview ∅ ∅, Raw.mk_tio 3 (mk_io ∅ {[ bs "a.img" := replicate 1024 0 ]}) 0).

(** The zeroed table holds nothing. *)
Lemma DInv_empty {W} `{!HostIO W, !HostIOLaws W, !Disks W, !DisksLaws W} (g : Globals) (w : W) :
  g_disks g = replicate 16 empty_slot → attached (dview w) = ∅ → DInv (held w) g w.
Proof.
  intros Hg Ha. assert (Hu : ∀ i s, ¬ used g i s).
  { intros i s [Hi Hs]. rewrite Hg in Hi. apply lookup_replicate in Hi as [-> _]. done. }
  split.
  - by rewrite Hg.
  - intros i s H. by destruct (Hu i s).
  - intros id d. by rewrite Ha, lookup_empty.
  - intros i j s t H. by destruct (Hu i s).
  - intros i j s t h k H. by destruct (Hu i s).
  - intros x. split; [by left|]. intros [?|(i & s & _ & H & _)]; [done|by destruct (Hu i s)].
Qed.

(** ** Properties *)

(** C31 Attaching an image.  Every error (no path, no free slot, the backend
    cannot open, the bus refuses) returns -1 and leaves the table, the bus and
    the host's resources as they were: in particular a disk the bus refused
    is closed again.  A success returns a new id and stores the disk in the
    lowest free slot.  The invariant of the table is kept. *)
Theorem disk_add_correct {W} `{!HostIO W, !HostIOLaws W, !Disks W, !DisksLaws W} q gio env base g (w : W) path flags :
  DInv base g w →
  wp (anyfs_disk_add q gio env path flags)
    (λ r s', DInv base s'.1 s'.2 ∧ added g w (select_backend q gio env flags) r s') (g, w).
Proof. apply wp_disk_add. Qed.

Lemma disk_add_correct_witness :
  wp (anyfs_disk_add (W := toy_bus) false false None (Some (bs "a.img")) 1)
    (λ r s', DInv (held bus0) s'.1 s'.2 ∧ added globals0 bus0 raw_backend_ops r s') (globals0, bus0).
Proof.
  exact (disk_add_correct false false None (held bus0) globals0 bus0 (Some (bs "a.img")) 1
           (DInv_empty globals0 bus0 eq_refl eq_refl)).
Defined.

Example add_toy :
  (λ r, (r.1, anyfs_get_last_error r.2.1)) <$> anyfs_disk_add (W := toy_bus) false false None (Some (bs "a.img")) 1 (globals0, bus0)
    = Some (0, None) ∧
  (λ r, (r.1, anyfs_get_last_error r.2.1)) <$> anyfs_disk_add (W := toy_bus) false false None (Some (bs "b.img")) 1 (globals0, bus0)
    = Some (-1, Some (bs "cannot open b.img: error")).
Proof. split; vm_compute; reflexivity. Qed.

(** Detaching a disk: a known id leaves the bus, its slot becomes free and
    the descriptor or handle it held is closed; an unknown id returns -1 and
    changes nothing. *)
Theorem disk_remove_correct {W} `{!HostIO W, !HostIOLaws W, !Disks W, !DisksLaws W} base g (w : W) id :
  DInv base g w →
  wp (anyfs_disk_remove id) (λ r s', DInv base s'.1 s'.2 ∧ removed g w id r s') (g, w).
Proof. apply wp_disk_remove. Qed.

Lemma disk_remove_correct_witness :
  wp (anyfs_disk_remove (W := toy_bus) 5) (λ r s', DInv (held bus0) s'.1 s'.2 ∧ removed globals0 bus0 5 r s') (globals0, bus0).
Proof. exact (disk_remove_correct (held bus0) globals0 bus0 5 (DInv_empty globals0 bus0 eq_refl eq_refl)). Defined.

(** C12 Nothing leaks and nothing is used after it was freed, over any sequence
    of attachments and detachments with any arguments, successful or not:
    starting from the zeroed table, at every point the disks on the bus are
    exactly the used slots, ids and host resources are not shared, and the
    host resources that are open are those open at the start and those of the
    used slots. *)
Theorem disk_history_safe {W} `{!HostIO W, !HostIOLaws W, !Disks W, !DisksLaws W} q gio env ops g (w : W) :
  g_disks g = replicate 16 empty_slot → attached (dview w) = ∅ →
  wp (mfor ops (run_disk_op q gio env)) (λ _ s', DInv (held w) s'.1 s'.2) (g, w).
Proof. intros Hg Ha. by apply wp_disk_ops, DInv_empty. Qed.

Lemma disk_history_safe_witness :
  wp (mfor [DAdd (Some (bs "a.img")) 0; DAdd None 0; DRemove 0; DRemove 7] (run_disk_op (W := toy_bus) false false None))
    (λ _ s', DInv (held bus0) s'.1 s'.2) (globals0, bus0).
Proof.
  exact (disk_history_safe false false None [DAdd (Some (bs "a.img")) 0; DAdd None 0; DRemove 0; DRemove 7]
           globals0 bus0 eq_refl eq_refl).
Defined.

(** Attaching and then detaching restores the bus, frees the slot and
    leaves exactly the host resources that were open before. *)
Theorem disk_add_remove {W} `{!HostIO W, !HostIOLaws W, !Disks W, !DisksLaws W} q gio env base g (w : W) path flags :
  DInv base g w →
  wp (id ← anyfs_disk_add q gio env path flags; r ← anyfs_disk_remove id; mret (id, r)) (λ r s',
    r.1 < 0 ∨ (r.2 = 0 ∧ attached (dview s'.2) = attached (dview w) ∧ same_held w s'.2 ∧
      in_use <$> g_disks s'.1 = in_use <$> g_disks g)) (g, w).
Proof.
  intros I. apply wp_bind. wp_use wp_disk_add; [done|]. intros id [g1 w1] [I1 A]. cbn [fst snd] in *.
  apply wp_bind. wp_use wp_disk_remove; [done|]. intros r [g2 w2] [I2 B]. apply wp_ret. cbn [fst snd] in *.
  destruct A as [[-> _]|(Hge & Hn & i & s & d & Hi & Hs & _ & Hg1 & Ha1)]; [by left|right].
  cbn [fst snd] in *. destruct B as [(_ & _ & Hid)|(-> & Ha & j & t & h & Hu & Hid & Hh & Hw & Hh2 & Hg2)].
  { rewrite Ha1, lookup_insert_eq in Hid. done. }
  cbn [fst snd] in *. assert (Hj : j = i).
  { apply (di_ids _ _ _ I1 j i t (mk_dslot true id d (select_backend q gio env flags))); [done| |done].
    unfold used. rewrite Hg1, list_lookup_insert_eq; [done|]. by eapply lookup_lt_Some. }
  subst j. split_and!; [done|rewrite Ha, Ha1; by apply delete_insert_id| |].
  - intros x. rewrite (di_held _ _ _ I2 x), (di_held _ _ _ I x). apply or_iff_compat_l.
    unfold owns, used. rewrite Hg2, Hg1, list_insert_insert_eq. split; intros (k & u & h' & [Hk Hku] & Hr).
    + destruct (decide (k = i)) as [->|Hne].
      * apply lookup_lt_Some in Hi. rewrite list_lookup_insert_eq in Hk by done. by simplify_eq.
      * rewrite list_lookup_insert_ne in Hk by done. by exists k, u, h'.
    + destruct (decide (k = i)) as [->|Hne]; [congruence|]. exists k, u, h'. by rewrite list_lookup_insert_ne.
  - rewrite Hg2, Hg1, list_insert_insert_eq, list_fmap_insert. apply list_insert_id.
    rewrite list_lookup_fmap, Hi. cbn. by rewrite Hs.
Qed.

Lemma disk_add_remove_witness :
  wp (id ← anyfs_disk_add (W := toy_bus) false false None (Some (bs "a.img")) 1; r ← anyfs_disk_remove id; mret (id, r)) (λ r s',
    r.1 < 0 ∨ (r.2 = 0 ∧ attached (dview s'.2) = attached (dview bus0) ∧ same_held bus0 s'.2 ∧
      in_use <$> g_disks s'.1 = in_use <$> g_disks globals0)) (globals0, bus0).
Proof.
  exact (disk_add_remove false false None (held bus0) globals0 bus0 (Some (bs "a.img")) 1
           (DInv_empty globals0 bus0 eq_refl eq_refl)).
Defined.

End Backend.
