(* ===== verification/Gio.v ===== *)
(** * Gio

    src/core/gio_backend.c: the block device over GLib's streams.  GLib is not
    part of the repository: its calls are a class over an arbitrary state, and
    what the code relies on are laws over the objects that are alive; the size
    of a block device comes from the host's file calls of Raw. *)
From S2P Require Import Prelude CLib Lkl Raw Backend.
Import CLib Raw.

(** ** GLib *)

(** Objects that are alive, each with one reference. *)
Inductive gobject := OFile (path : bytes) | OInfo (path : bytes) | OStream (path : bytes) (pos : Z).

Class Gio (W : Type) := {
  g_file_new_for_path : bytes → kcall W Z;
  g_file_query_info : Z → kcall W (option Z);
  g_file_info_get_size : Z → W → Z;
  g_file_read : Z → kcall W (option Z);
  g_seekable_seek : Z → Z → kcall W bool;
  g_input_stream_read_all : Z → Z → kcall W (bool * bytes);
  g_input_stream_close : Z → kcall W ();
  g_object_unref : Z → kcall W () }.

(** The size of a block device is 0.  Reading to the end gives what there is,
    and succeeds. *)
Class GioLaws (W : Type) `{!HostIO W, !HostIOLaws W, !Gio W} := {
  objs : W → gmap Z gobject;
  gl_host :: HostKeeps objs;
  gl_new p w r w' : g_file_new_for_path p w = (r, w') → iov w' = iov w ∧ objs w !! r = None ∧ objs w' = <[r := OFile p]> (objs w);
  gl_info f p w r w' : g_file_query_info f w = (r, w') → objs w !! f = Some (OFile p) → iov w' = iov w ∧
    match r with None => objs w' = objs w | Some i => objs w !! i = None ∧ objs w' = <[i := OInfo p]> (objs w) end;
  gl_size i p c w : objs w !! i = Some (OInfo p) → io_data (iov w) !! p = Some c → g_file_info_get_size i w = len c ∨ g_file_info_get_size i w = 0;
  gl_read f p w r w' : g_file_read f w = (r, w') → objs w !! f = Some (OFile p) → iov w' = iov w ∧
    match r with None => objs w' = objs w | Some s => objs w !! s = None ∧ objs w' = <[s := OStream p 0]> (objs w) ∧ is_Some (io_data (iov w) !! p) end;
  gl_seek s off w r w' p pos : g_seekable_seek s off w = (r, w') → objs w !! s = Some (OStream p pos) → iov w' = iov w ∧
    ∃ pos', objs w' = <[s := OStream p pos']> (objs w) ∧ (r = true → pos' = off);
  gl_read_all s n w r d w' p pos c : g_input_stream_read_all s n w = ((r, d), w') → objs w !! s = Some (OStream p pos) →
    io_data (iov w) !! p = Some c → 0 <= pos → iov w' = iov w ∧ len d <= Z.max 0 n ∧
    ∃ pos', objs w' = <[s := OStream p pos']> (objs w) ∧ (r = true → d = take (Z.to_nat n) (drop (Z.to_nat pos) c));
  gl_close s w : iov (g_input_stream_close s w).2 = iov w ∧ objs (g_input_stream_close s w).2 = objs w;
  gl_unref o w : iov (g_object_unref o w).2 = iov w ∧ objs (g_object_unref o w).2 = delete o (objs w) }.

Module Gio.

Record gio_blk_ctx := mk_ctx { c_file : Z; c_stream : Z; c_capacity : Z }.

Definition gio_get_capacity (ctx : gio_blk_ctx) : Z * Z := (0, c_capacity ctx).

Section Code.
Context {W : Type} `{!HostIO W, !Gio W}.

(** The loop under ctx->lock; a sum beyond the range of goffset has no
    value. *)
Fixpoint read_loop (stream offset : Z) (buf : list bytes) : M W (Z * list bytes) :=
  match buf with
  | [] => mret (LKL_DEV_BLK_STATUS_OK, [])
  | b :: rest =>
      ok ← call (g_seekable_seek stream offset);
      if negb ok then mret (LKL_DEV_BLK_STATUS_IOERR, b :: rest)
      else
        r ← call (g_input_stream_read_all stream (len b));
        let b' := r.2 ++ drop (length r.2) b in
        if negb r.1 then mret (LKL_DEV_BLK_STATUS_IOERR, b' :: rest)
        else if 2 ^ 63 <=? offset + len b then mstuck
        else
          s ← read_loop stream (offset + len b) rest;
          mret (s.1, b' :: s.2)
  end.

Definition gio_request (ctx : gio_blk_ctx) (req : lkl_blk_req) : M W (Z * list bytes) :=
  let offset := i64 (rq_sector req) * 512 in
  if negb ((- 2 ^ 63 <=? offset) && (offset <? 2 ^ 63)) then mstuck
  else if (rq_type req =? LKL_DEV_BLK_TYPE_FLUSH) || (rq_type req =? LKL_DEV_BLK_TYPE_FLUSH_OUT) then mret (LKL_DEV_BLK_STATUS_OK, rq_buf req)
  else if rq_type req =? LKL_DEV_BLK_TYPE_WRITE then mret (LKL_DEV_BLK_STATUS_IOERR, rq_buf req)
  else read_loop (c_stream ctx) offset (rq_buf req).

(** BLKGETSIZE64 leaves the size alone when it fails. *)
Definition device_size (path : bytes) : M W Z :=
  fd ← call (h_open path false);
  if 0 <=? fd then
    n ← call (h_getsize64 fd);
    _ ← call (h_close fd);
    mret (default 0 n)
  else mret 0.

Definition gio_blk_open (path : bytes) (flags : Z) : M W (option gio_blk_ctx) :=
  file ← call (g_file_new_for_path path);
  info ← call (g_file_query_info file);
  match info with
  | None => _ ← call (g_object_unref file); mret None
  | Some info =>
      size ← mgets (g_file_info_get_size info);
      _ ← call (g_object_unref info);
      capacity ← (if u64 size =? 0 then device_size path else mret (u64 size));
      stream ← call (g_file_read file);
      match stream with
      | None => _ ← call (g_object_unref file); mret None
      | Some stream => mret (Some (mk_ctx file stream capacity))
      end
  end.

(** The handle is NULL after a first call. *)
Definition gio_blk_destroy (handle : option gio_blk_ctx) : M W (option gio_blk_ctx) :=
  match handle with
  | Some ctx =>
      _ ← call (g_input_stream_close (c_stream ctx));
      _ ← call (g_object_unref (c_stream ctx));
      _ ← call (g_object_unref (c_file ctx));
      mret None
  | None => mret None
  end.
End Code.

(** ** Requests *)
Section Spec.
Context {W : Type} `{!HostIO W, !HostIOLaws W, !Gio W, !GioLaws W}.
Implicit Types (w : W) (c : bytes) (buf : list bytes).

(** The stream [s] of the file [p], wherever it is. *)
Definition streaming (s : Z) (p : bytes) (w : W) : Prop := ∃ pos, objs w !! s = Some (OStream p pos).
Lemma wp_gio_read_loop s p c buf off w : streaming s p w → io_data (iov w) !! p = Some c → 0 <= off →
  off + len (mjoin buf) <= len c → len c < 2 ^ 63 →
  wp (read_loop s off buf) (λ r w', read_post off c buf w r w' ∧ delete s (objs w') = delete s (objs w) ∧ streaming s p w') w.
Proof.
  revert off w. induction buf as [|b buf IH]; intros off w [pos Hs] Hc Hoff Hlen Hsz; cbn [read_loop].
  { split; [by split_and!; [|left| |]|]. split; [done|by exists pos]. }
  rewrite join_cons, length_app in Hlen. apply wp_bind, wp_call. destruct (g_seekable_seek s off w) as [ok w1] eqn:E1. cbn [fst snd].
  destruct (gl_seek _ _ _ _ _ _ _ E1 Hs) as (Hv1 & pos1 & Ho1 & Hpos1). assert (Hd1 : delete s (objs w1) = delete s (objs w)) by (rewrite Ho1; apply delete_insert_eq).
  assert (Hs1 : objs w1 !! s = Some (OStream p pos1)) by (rewrite Ho1; apply lookup_insert_eq).
  destruct ok; cbn [negb]; [|split; [by split_and!; [|right| |]|split; [done|by exists pos1]]]. rewrite (Hpos1 eq_refl) in *. clear Hpos1.
  apply wp_bind, wp_call. destruct (g_input_stream_read_all s (len b) w1) as [[r d] w2] eqn:E2. cbn [fst snd]. rewrite <- Hv1 in Hc.
  destruct (gl_read_all _ _ _ _ _ _ _ _ _ E2 Hs1 Hc Hoff) as (Hv2 & Hd & pos2 & Ho2 & Hdat).
  assert (Hd2 : delete s (objs w2) = delete s (objs w)) by (rewrite Ho2, <- Hd1; apply delete_insert_eq).
  assert (Hs2 : streaming s p w2) by (exists pos2; rewrite Ho2; apply lookup_insert_eq).
  assert (Hlb : length (d ++ drop (length d) b) = length b) by (rewrite length_app, length_drop; lia).
  destruct r; cbn [negb]; [|split; [|done]; split_and!; cbn [fst snd]; [congruence|by right|by rewrite !fmap_cons, Hlb|done]].
  specialize (Hdat eq_refl). rewrite Nat2Z.id in Hdat. destruct (Z.leb_spec (2 ^ 63) (off + len b)); [lia|].
  apply wp_bind. wp_use IH; [done|by rewrite Hv2|lia..|]. intros [st l] w3 ((Hv3 & Hst & Hl & Hok) & Hd3 & Hs3). cbn [fst snd] in *. apply wp_ret.
  split; [|split; [congruence|done]]. split_and!; cbn [fst snd]; [congruence|done|by rewrite !fmap_cons, Hl, Hlb|].
  intros Est. assert (length d = length b) by (rewrite Hdat, length_take, length_drop; lia).
  rewrite drop_ge, app_nil_r, !join_cons, length_app, Hok by (done || lia). rewrite Hdat, <- take_take_drop, drop_drop. do 2 f_equal. f_equal. lia.
Qed.

Lemma wp_gio_read ctx req p c w : rq_type req = LKL_DEV_BLK_TYPE_READ → streaming (c_stream ctx) p w → io_data (iov w) !! p = Some c →
  0 <= rq_sector req → rq_sector req * 512 + len (mjoin (rq_buf req)) <= len c → len c < 2 ^ 63 →
  wp (gio_request ctx req) (λ r w', read_post (rq_sector req * 512) c (rq_buf req) w r w' ∧
    delete (c_stream ctx) (objs w') = delete (c_stream ctx) (objs w) ∧ streaming (c_stream ctx) p w') w.
Proof.
  intros Ht Hs Hc H0 Hl Hsz. unfold gio_request. rewrite sector_small by lia. rewrite (proj2 (Z.leb_le _ _)), (proj2 (Z.ltb_lt _ _)) by lia.
  rewrite Ht. cbn [negb andb]. apply wp_gio_read_loop; [done..|lia|lia|lia].
Qed.

(** Every request of a list, in order. *)
Fixpoint requests (ctx : gio_blk_ctx) (reqs : list lkl_blk_req) : M W (list (Z * list bytes)) :=
  match reqs with
  | [] => mret []
  | q :: reqs => r ← gio_request ctx q; rs ← requests ctx reqs; mret (r :: rs)
  end.

Definition inside (c : bytes) (req : lkl_blk_req) : Prop :=
  0 <= rq_sector req ∧ rq_sector req * 512 + len (mjoin (rq_buf req)) <= len c.

(** The device is read only: a flush has nothing to do, a write fails, any
    other request is a read. *)
Definition answers (c : bytes) (req : lkl_blk_req) (r : Z * list bytes) : Prop :=
  if (rq_type req =? LKL_DEV_BLK_TYPE_FLUSH) || (rq_type req =? LKL_DEV_BLK_TYPE_FLUSH_OUT) then r = (LKL_DEV_BLK_STATUS_OK, rq_buf req)
  else if rq_type req =? LKL_DEV_BLK_TYPE_WRITE then r = (LKL_DEV_BLK_STATUS_IOERR, rq_buf req)
  else (r.1 = LKL_DEV_BLK_STATUS_OK ∨ r.1 = LKL_DEV_BLK_STATUS_IOERR) ∧ length <$> r.2 = length <$> rq_buf req ∧
    (r.1 = LKL_DEV_BLK_STATUS_OK → mjoin r.2 = take (length (mjoin (rq_buf req))) (drop (Z.to_nat (rq_sector req * 512)) c)).

(** Only the position of [s] has changed. *)
Definition same_but (s : Z) (p : bytes) w w' : Prop :=
  iov w' = iov w ∧ delete s (objs w') = delete s (objs w) ∧ streaming s p w'.

Lemma wp_gio_request ctx req p c w : streaming (c_stream ctx) p w → io_data (iov w) !! p = Some c → len c < 2 ^ 63 → inside c req →
  wp (gio_request ctx req) (λ r w', answers c req r ∧ same_but (c_stream ctx) p w w') w.
Proof.
  intros Hs Hc Hsz [H0 Hl]. unfold gio_request, answers. rewrite sector_small by lia. rewrite (proj2 (Z.leb_le _ _)), (proj2 (Z.ltb_lt _ _)) by lia.
  cbn [negb andb]. case_match; [by apply wp_ret|]. case_match; [by apply wp_ret|].
  eapply wp_mono; [apply (wp_gio_read_loop _ p c); first [done|lia]|]. intros r w' ((? & ? & ? & ?) & ? & ?). by split_and!.
Qed.

Lemma wp_gio_requests ctx reqs p c w : streaming (c_stream ctx) p w → io_data (iov w) !! p = Some c → len c < 2 ^ 63 → Forall (inside c) reqs →
  wp (requests ctx reqs) (λ rs w', Forall2 (answers c) reqs rs ∧ same_but (c_stream ctx) p w w') w.
Proof.
  intros Hs Hc Hsz HF. revert w Hs Hc. induction HF as [|q reqs Hq _ IH]; intros w Hs Hc; cbn [requests]; [by apply wp_ret|].
  apply wp_bind. wp_use (wp_gio_request ctx q p c); [done..|]. intros r w1 (Ha & Hv & Ho & Hs1). apply wp_bind. wp_use IH; [done|by rewrite Hv|].
  intros rs w2 (HA & Hv2 & Ho2 & Hs2). apply wp_ret. split; [by constructor|]. split_and!; [congruence..|done].
Qed.

(** ** Opening and closing *)

(** What opening leaves behind: nothing on an error; the file and its stream
    otherwise, with the size of the file or no size. *)
Definition opened path (r : option gio_blk_ctx) w w' : Prop :=
  iov w' = iov w ∧
  match r with
  | None => objs w' = objs w
  | Some ctx => objs w !! c_file ctx = None ∧ objs w !! c_stream ctx = None ∧ c_file ctx ≠ c_stream ctx ∧
      objs w' = <[c_stream ctx := OStream path 0]> (<[c_file ctx := OFile path]> (objs w)) ∧
      ∃ c, io_data (iov w) !! path = Some c ∧ (len c < 2 ^ 63 → c_capacity ctx = len c ∨ c_capacity ctx = 0)
  end.

Lemma wp_device_size path w : wp (device_size path) (λ n w', iov w' = iov w ∧ objs w' = objs w ∧
  ∀ c, io_data (iov w) !! path = Some c → n = len c ∨ n = 0) w.
Proof.
  unfold device_size. apply wp_bind, wp_call. pose proof (keep_open (R := objs) path false w) as Ho.
  destruct (h_open path false w) as [fd w1] eqn:E. cbn [fst snd] in *.
  destruct (io_open _ _ _ _ _ E) as [[Hneg Hv]|(Hge & Hn & _ & Hv)]; [rewrite (proj2 (Z.leb_gt 0 fd)) by done; apply wp_ret; auto|].
  rewrite (proj2 (Z.leb_le 0 fd)) by done. apply wp_bind, wp_call. pose proof (keep_getsize (R := objs) fd w1) as Ho2.
  destruct (h_getsize64 fd w1) as [n w2] eqn:E2. cbn [fst snd] in *. destruct (io_getsize _ _ _ _ E2) as [Hv2 Hsz].
  apply wp_bind, wp_call, wp_ret. rewrite (keep_close (R := objs)), Ho2, Ho, io_close, Hv2, Hv. cbn [io_fds io_data].
  rewrite delete_insert_id by done. split_and!; [by destruct (iov w)|done|]. intros c Hc. destruct n as [n|]; [left|by right].
  apply (Hsz n c); [done|]. rewrite Hv. by erewrite file_of_open by apply lookup_insert_eq.
Qed.

Lemma wp_unref o w (Q : unit → W → Prop) : (∀ w', iov w' = iov w → objs w' = delete o (objs w) → Q () w') → wp (call (g_object_unref o)) Q w.
Proof. intros H. apply wp_call. destruct (gl_unref o w). destruct (g_object_unref o w) as [[] w']. by apply H. Qed.

Lemma wp_gio_open path flags w : wp (gio_blk_open path flags) (λ r, opened path r w) w.
Proof.
  unfold gio_blk_open. apply wp_bind, wp_call. destruct (g_file_new_for_path path w) as [f w1] eqn:E1. cbn [fst snd].
  destruct (gl_new _ _ _ _ E1) as (Hv1 & Hf & Ho1). assert (Hf1 : objs w1 !! f = Some (OFile path)) by (rewrite Ho1; apply lookup_insert_eq).
  apply wp_bind, wp_call. destruct (g_file_query_info f w1) as [i w2] eqn:E2. cbn [fst snd]. destruct (gl_info _ _ _ _ _ E2 Hf1) as [Hv2 Hi].
  destruct i as [i|]; [|apply wp_bind, wp_unref; intros w3 Hv3 Ho3; split; [congruence|by rewrite Ho3, Hi, Ho1, delete_insert_id]].
  destruct Hi as [Hni Ho2]. apply wp_bind, wp_gets, wp_bind, wp_unref. intros w3 Hv3 Ho3. rewrite Ho2, delete_insert_id in Ho3 by done.
  set (size := g_file_info_get_size i w2). apply wp_bind.
  apply (wp_mono _ (λ n w4, iov w4 = iov w3 ∧ objs w4 = objs w3 ∧ ∀ c, io_data (iov w) !! path = Some c → len c < 2 ^ 63 → n = len c ∨ n = 0)).
  { destruct (Z.eqb_spec (u64 size) 0).
    - eapply wp_mono; [apply wp_device_size|]. intros n w4 (? & ? & H4). split_and!; [done..|]. intros c Hc _. apply H4. by rewrite Hv3, Hv2, Hv1.
    - apply wp_ret. split_and!; [done..|]. intros c Hc Hsz. destruct (gl_size i path c w2) as [Es|Es]; [rewrite Ho2; apply lookup_insert_eq|congruence|..];
        unfold size; rewrite Es; [left; apply u64_small; lia|by right]. }
  intros n w4 (Hv4 & Ho4 & Hn). apply wp_bind, wp_call. destruct (g_file_read f w4) as [s w5] eqn:E5. cbn [fst snd].
  assert (Hf4 : objs w4 !! f = Some (OFile path)) by (by rewrite Ho4, Ho3). destruct (gl_read _ _ _ _ _ E5 Hf4) as [Hv5 Hs].
  destruct s as [s|]; [|apply wp_bind, wp_unref; intros w6 Hv6 Ho6; split; [congruence|by rewrite Ho6, Hs, Ho4, Ho3, Ho1, delete_insert_id]].
  destruct Hs as (Hns & Ho5 & [c Hc]). apply wp_ret. split; [congruence|]. cbn [c_file c_stream c_capacity].
  assert (f ≠ s) by (intros ->; congruence). rewrite Ho4, Ho3, Ho1, lookup_insert_ne in Hns by done.
  split_and!; [done..|by rewrite Ho5, Ho4, Ho3, Ho1|]. exists c. assert (io_data (iov w) !! path = Some c) by congruence. split; [done|]. by apply Hn.
Qed.

Lemma wp_gio_destroy ctx w : wp (gio_blk_destroy (Some ctx))
  (λ r w', r = None ∧ iov w' = iov w ∧ objs w' = delete (c_file ctx) (delete (c_stream ctx) (objs w))) w.
Proof.
  cbn [gio_blk_destroy]. apply wp_bind, wp_call. destruct (gl_close (c_stream ctx) w) as [Hv Ho]. set (w1 := (g_input_stream_close _ w).2) in *.
  apply wp_bind, wp_unref. intros w2 Hv2 Ho2. apply wp_bind, wp_unref. intros w3 Hv3 Ho3. apply wp_ret. split_and!; [done|congruence|].
  by rewrite Ho3, Ho2, Ho.
Qed.
End Spec.

(** ** A concrete GLib beside the host of Raw *)
Definition toy_gio_state : Type := gmap Z gobject * toy_io.

Definition alloc (o : gobject) (w : toy_gio_state) : Z * toy_gio_state :=
  let r := fresh (dom w.1) in (r, (<[r := o]> w.1, w.2)).

(** The file [p] is missing, or its size is 0 when [blk]. *)
Definition toy_gio (blk : bool) : Gio toy_gio_state := {|
  g_file_new_for_path p := alloc (OFile p);
  g_file_query_info f w :=
    match w.1 !! f with
    | Some (OFile p) => match io_data (ti_view w.2) !! p with Some _ => let x := alloc (OInfo p) w in (Some x.1, x.2) | None => (None, w) end
    | _ => (None, w)
    end;
  g_file_info_get_size i w :=
    match w.1 !! i with Some (OInfo p) => if blk then 0 else default 0 ((λ c, len c) <$> io_data (ti_view w.2) !! p) | _ => 0 end;
  g_file_read f w :=
    match w.1 !! f with
    | Some (OFile p) => match io_data (ti_view w.2) !! p with Some _ => let x := alloc (OStream p 0) w in (Some x.1, x.2) | None => (None, w) end
    | _ => (None, w)
    end;
  g_seekable_seek s off w :=
    match w.1 !! s with Some (OStream p pos) => if off <? 0 then (false, w) else (true, (<[s := OStream p off]> w.1, w.2)) | _ => (false, w) end;
  g_input_stream_read_all s n w :=
    match w.1 !! s with
    | Some (OStream p pos) =>
        match io_data (ti_view w.2) !! p with
        | Some c => let d := take (Z.to_nat n) (drop (Z.to_nat pos) c) in ((true, d), (<[s := OStream p (pos + len d)]> w.1, w.2))
        | None => ((false, []), w)
        end
    | _ => ((false, []), w)
    end;
  g_input_stream_close s w := ((), w);
  g_object_unref o w := ((), (delete o w.1, w.2)) |}.

Lemma fresh_none (m : gmap Z gobject) : m !! fresh (dom m) = None.
Proof. apply not_elem_of_dom, is_fresh. Qed.

Definition toy_gio_laws (L : option Z) (blk : bool) :
  @GioLaws toy_gio_state (@lift_hostio _ _ (toy_hostio L)) (@lift_hostio_laws _ _ (toy_hostio L) (toy_hostio_laws L)) (toy_gio blk).
Proof.
  refine {| objs := fst : toy_gio_state → _ |}; cbn [g_file_new_for_path g_file_query_info g_file_info_get_size g_file_read g_seekable_seek
    g_input_stream_read_all g_input_stream_close g_object_unref toy_gio]; unfold alloc.
  - by split.
  - intros p w r w' [= <- <-]. split_and!; [done|apply fresh_none|done].
  - intros f p w r w' E Hf. rewrite Hf in E. destruct (io_data (ti_view w.2) !! p); injection E as <- <-; [|done]. split_and!; [done|apply fresh_none|done].
  - intros i p c w Hi Hc. rewrite Hi. destruct blk; [by right|]. left. change (io_data (ti_view w.2) !! p = Some c) in Hc. by rewrite Hc.
  - intros f p w r w' E Hf. rewrite Hf in E. destruct (io_data (ti_view w.2) !! p) eqn:Ed; injection E as <- <-; [|done].
    split_and!; [done|apply fresh_none|done|]. change (is_Some (io_data (ti_view w.2) !! p)). by rewrite Ed.
  - intros s off w r w' p pos E Hs. rewrite Hs in E. destruct (off <? 0); injection E as <- <-; (split; [done|]).
    + exists pos. by rewrite insert_id.
    + by exists off.
  - intros s n w r d w' p pos c E Hs Hc Hpos. change (io_data (ti_view w.2) !! p = Some c) in Hc. rewrite Hs, Hc in E. injection E as <- <- <-.
    split_and!; [done|rewrite length_take; lia|]. eexists. by split.
  - done.
  - done.
Defined.

(** A 1024-byte image "a". *)
Definition gio0 : toy_gio_state := (∅, host0).

(** ** Properties *)

(** The life of a GIO device.  Opening either fails and leaves no GLib
    object and no descriptor behind, or gives a device; then every request of
    any list inside the image is answered (a read that reports OK holds the
    image's bytes from sector * 512 on in buffers of the same lengths, a flush
    does nothing, a write is refused), and destroying the device releases
    every object: the host and the objects are what they were. *)
Theorem gio_lifecycle {W} `{!HostIO W, !HostIOLaws W, !Gio W, !GioLaws W} path flags reqs c (w : W) :
  io_data (iov w) !! path = Some c → len c < 2 ^ 63 → Forall (inside c) reqs →
  wp (h ← gio_blk_open path flags;
      match h with
      | None => mret None
      | Some ctx => rs ← requests ctx reqs; _ ← gio_blk_destroy (Some ctx); mret (Some (gio_get_capacity ctx, rs))
      end)
    (λ r w', iov w' = iov w ∧ objs w' = objs w ∧
       match r with
       | None => True
       | Some (cap, rs) => (cap = (0, len c) ∨ cap = (0, 0)) ∧ Forall2 (answers c) reqs rs
       end) w.
Proof.
  intros Hc Hsz HF. apply wp_bind. wp_use wp_gio_open. intros [ctx|] w1 [Hv Ho]; [|by apply wp_ret].
  destruct Ho as (Hf & Hs & Hne & Ho & c' & Hc' & Hcap). simplify_eq. apply wp_bind.
  wp_use (wp_gio_requests ctx reqs path c); [exists 0; rewrite Ho; apply lookup_insert_eq|congruence|done..|].
  intros rs w2 (HA & Hv2 & Ho2 & _). apply wp_bind. wp_use wp_gio_destroy. intros _ w3 (_ & Hv3 & Ho3). apply wp_ret.
  split_and!; [congruence| |unfold gio_get_capacity; destruct (Hcap Hsz) as [-> | ->]; auto|done].
  rewrite Ho3, Ho2, Ho, delete_insert_id by (by rewrite lookup_insert_ne). by apply delete_insert_id.
Qed.

Definition gio_reqs : list lkl_blk_req :=
  [mk_req LKL_DEV_BLK_TYPE_READ 1 [[1; 2]; [3; 4; 5]]; mk_req LKL_DEV_BLK_TYPE_FLUSH 0 []; mk_req LKL_DEV_BLK_TYPE_WRITE 0 [[1]]].

Lemma gio_lifecycle_witness :
  let Hio := @lift_hostio (gmap Z gobject) toy_io (toy_hostio None) in
  wp (S := toy_gio_state) (h ← gio_blk_open (HostIO0 := Hio) (Gio0 := toy_gio false) (bs "a") 0;
      match h with
      | None => mret None
      | Some ctx => rs ← requests (Gio0 := toy_gio false) ctx gio_reqs; _ ← gio_blk_destroy (Gio0 := toy_gio false) (Some ctx); mret (Some (gio_get_capacity ctx, rs))
      end)
    (λ r w', ti_view w'.2 = ti_view host0 ∧ w'.1 = ∅ ∧
       match r with
       | None => True
       | Some (cap, rs) => (cap = (0, len (replicate 1024 7)) ∨ cap = (0, 0)) ∧ Forall2 (answers (replicate 1024 7)) gio_reqs rs
       end) gio0.
Proof.
  refine (@gio_lifecycle toy_gio_state _ (@lift_hostio_laws _ _ (toy_hostio None) (toy_hostio_laws None)) (toy_gio false)
    (toy_gio_laws None false) (bs "a") 0 gio_reqs (replicate 1024 7) gio0 _ _ _).
  - reflexivity.
  - rewrite length_replicate. lia.
  - repeat constructor; cbn; lia.
Defined.

Lemma join_lengths_eq (l k : list bytes) : length <$> l = length <$> k → mjoin l = mjoin k → l = k.
Proof.
  revert k. induction l as [|a l IH]; intros [|b k] Hl Hj; try done. injection Hl as Hab Hl. rewrite !join_cons in Hj.
  apply app_inj_1 in Hj as [-> Hj]; [|done]. f_equal. by apply IH.
Qed.

(** C33 The GIO device and the raw device are interchangeable for reads that lie
    inside the image: on the same image and the same request, when the host does
    not cut the transfers of the raw device short, two answers that report OK
    hold the same bytes in every buffer. The image is below 2^63 bytes. (With
    short transfers either device may report OK for a buffer it did not fill:
    [short_transfer_reported_ok], [gio_short_read_ok].) *)
Theorem gio_agrees_raw {W} `{!HostIO W, !HostIOLaws W, !Gio W, !GioLaws W} path rw fd cap ctx s buf c (w : W) :
  full_read → io_fds (iov w) !! fd = Some (path, rw) → streaming (c_stream ctx) path w → io_data (iov w) !! path = Some c →
  0 <= s → s * 512 + len (mjoin buf) <= len c → len c < 2 ^ 63 →
  let req := mk_req LKL_DEV_BLK_TYPE_READ s buf in
  wp (raw_request (Raw.mk_ctx fd cap) req) (λ r1 _, wp (gio_request ctx req) (λ r2 _,
    r1.1 = LKL_DEV_BLK_STATUS_OK → r2.1 = LKL_DEV_BLK_STATUS_OK → r1.2 = r2.2) w) w.
Proof.
  intros Hfull Hfd Hs Hc H0 Hl Hsz req. apply wp_request; [done|cbn [req rq_sector]; lia|].
  wp_use (wp_request_read fd buf (s * 512) c w); [done|by erewrite file_of_open|lia..|]. intros r1 _ (_ & _ & L1 & B1).
  wp_use (wp_gio_read ctx req path c w); [done..|cbn [req rq_sector rq_buf]; lia|]. intros r2 _ ((_ & _ & L2 & B2) & _) E1 E2.
  apply join_lengths_eq; [by rewrite L1, L2|]. by rewrite B1, B2.
Qed.

(** The stream is object 1, the raw device is descriptor 3. *)
Definition gio1 : toy_gio_state := ({[ 1 := OStream (bs "a") 0 ]}, host0).

Lemma gio_agrees_raw_witness :
  let Hio := @lift_hostio (gmap Z gobject) toy_io (toy_hostio None) in let req := mk_req LKL_DEV_BLK_TYPE_READ 1 [[1; 2]; [3]] in
  wp (S := toy_gio_state) (raw_request (HostIO0 := Hio) ctx0 req) (λ r1 _, wp (S := toy_gio_state) (gio_request (Gio0 := toy_gio false) (mk_ctx 0 1 1024) req)
    (λ r2 _, r1.1 = LKL_DEV_BLK_STATUS_OK → r2.1 = LKL_DEV_BLK_STATUS_OK → r1.2 = r2.2) gio1) gio1.
Proof.
  refine (@gio_agrees_raw toy_gio_state _ (@lift_hostio_laws _ _ (toy_hostio None) (toy_hostio_laws None)) (toy_gio false)
    (toy_gio_laws None false) (bs "a") true 3 1024 (mk_ctx 0 1 1024) 1 [[1; 2]; [3]] (replicate 1024 7) gio1 _ _ _ _ _ _ _);
    [|reflexivity|by exists 0|reflexivity|lia|rewrite length_replicate; cbn; lia|rewrite length_replicate; lia].
  intros fd n off w r d w' c' E Hf. refine (proj1 toy_full fd n off w.2 r d w.2 c' _ Hf).
  revert E. cbn. unfold klift. cbn. destruct (file_of (ti_view w.2) fd); cbn; by intros [= <- <- _].
Defined.

(** A read that reaches the end of the file is reported as a success, and the
    tail of the buffer keeps what it held. *)
Lemma gio_short_read_ok :
  fst <$> gio_request (Gio0 := toy_gio false) (mk_ctx 0 1 1024) (mk_req LKL_DEV_BLK_TYPE_READ 2 [[1; 2]]) gio1 = Some (LKL_DEV_BLK_STATUS_OK, [[1; 2]]).
Proof. vm_compute. reflexivity. Qed.

(** A session that asked for writing gets a device whose writes fail. *)
Lemma gio_never_writes {W} `{!Gio W} ctx buf (w : W) :
  gio_request ctx (mk_req LKL_DEV_BLK_TYPE_WRITE 0 buf) w = Some ((LKL_DEV_BLK_STATUS_IOERR, buf), w).
Proof. done. Qed.

Example gio_toy :
  fst <$> gio_blk_open (HostIO0 := @lift_hostio (gmap Z gobject) toy_io (toy_hostio None)) (Gio0 := toy_gio false) (bs "a") 0 gio0 = Some (Some (mk_ctx 0 1 1024)) ∧
  fst <$> gio_blk_open (HostIO0 := @lift_hostio (gmap Z gobject) toy_io (toy_hostio None)) (Gio0 := toy_gio false) (bs "b") 0 gio0 = Some None.
Proof. split; vm_compute; reflexivity. Qed.
End Gio.
