(* ===== verification/SessionClose.v ===== *)
(** * SessionClose

    anyfs_session_close of src/core/anyfs_session.c: what it unmounts, and in
    which order.  The order is read off a kernel that keeps, beside its state, a
    log of the paths it was asked to unmount. *)
From S2P Require Import Prelude CLib Lkl Probe Mount Dm Session SessionSpec Backend.
Import CLib Probe Mount Session SessionSpec.

Module SessionClose.

(** ** The log *)
Section Log.
Context {W : Type} `{!Lkl W}.
Notation L := (list bytes * W)%type.

#[export] Instance log_lkl : Lkl L := {|
  sys_open p f := klift (sys_open p f);
  sys_close fd := klift (sys_close fd);
  sys_read fd n := klift (sys_read fd n);
  sys_pread64 fd n off := klift (sys_pread64 fd n off);
  sys_readlink p n := klift (sys_readlink p n);
  sys_access p := klift (sys_access p);
  sys_mkdir p m := klift (sys_mkdir p m);
  sys_rmdir p := klift (sys_rmdir p);
  sys_unlink p := klift (sys_unlink p);
  sys_mknod p m d := klift (sys_mknod p m d);
  sys_blkroset fd ro := klift (sys_blkroset fd ro);
  sys_blkrrpart fd := klift (sys_blkrrpart fd);
  sys_dm_ioctl fd c a := klift (sys_dm_ioctl fd c a);
  sys_mount d m t f o := klift (sys_mount d m t f o);
  sys_umount p w := ((sys_umount p w.2).1, (w.1 ++ [p], (sys_umount p w.2).2));
  sys_sync := klift sys_sync;
  sys_nanosleep ms := klift (sys_nanosleep ms);
  sys_opendir p := klift (sys_opendir p);
  sys_closedir h := klift (sys_closedir h);
  get_virtio_blkdev d p := klift (get_virtio_blkdev d p) |}.
#[export] Instance log_core `{!Core W} : Core L := {|
  disk_add p f := klift (disk_add p f); disk_remove i := klift (disk_remove i); set_last_error t := klift (set_last_error t) |}.

(** Programs that unmount nothing. *)
Definition silent {A} (m : M L A) : Prop := ∀ s, wp m (λ _ s', s'.1 = s.1) s.
Lemma silent_ret {A} (a : A) : silent (mret a).
Proof. by intros s. Qed.
Lemma silent_bind {A B} (m : M L A) (f : A → M L B) : silent m → (∀ a, silent (f a)) → silent (m ≫= f).
Proof. intros Hm Hf s. apply wp_bind. eapply wp_mono; [apply Hm|]. intros a s' E. eapply wp_mono; [apply Hf|]. cbn. intros _ s'' ->. exact E. Qed.
Lemma silent_call {A} (f : kcall W A) : silent (call (klift f)).
Proof. by intros s. Qed.
Lemma silent_if {A} (b : bool) (m m' : M L A) : silent m → silent m' → silent (if b then m else m').
Proof. by destruct b. Qed.

Ltac quiet := repeat first [apply silent_ret | apply silent_call | apply silent_if | apply silent_bind; [|intros ?]].

Lemma silent_dm_remove name : silent (Dm.anyfs_dm_remove (W := L) name).
Proof.
  destruct name as [name|]; [|apply silent_ret]. unfold Dm.anyfs_dm_remove, Dm.dm_open_control, Dm.ensure_dev_dir, Dm.dm_version_check, Dm.dm_ioctl.
  cbv zeta. quiet.
Qed.

(** One unmount is one entry of the log, whether it succeeds or not. *)
Lemma log_umount name (s : L) : wp (anyfs_umount (Some name)) (λ _ s', s'.1 = s.1 ++ [mnt_path name]) s.
Proof.
  unfold anyfs_umount. apply wp_bind. eapply wp_mono; [apply silent_call|]. intros ? s1 E1. apply wp_bind, wp_call. cbn.
  case_if; [apply wp_ret; cbn; congruence|]. apply wp_bind. eapply wp_mono; [apply silent_call|]. intros ? s2 E2. apply wp_ret. cbn in *. congruence.
Qed.
End Log.

(** ** The order of a close *)
Section Order.
Context {W : Type} `{!Lkl W, !Host W, !Core W}.
Notation L := (list bytes * W)%type.

Definition is_mounted (p : PartSlot) : Prop := state p = ANYFS_PART_MOUNTED.
#[export] Instance is_mounted_dec p : Decision (is_mounted p).
Proof. unfold is_mounted. apply _. Defined.

(** What a close unmounts: the whole disk, then the slots from the last one
    down. *)
Definition closing (d : AnyfsSession) : list bytes :=
  (if bool_decide (whole_state d = ANYFS_PART_MOUNTED) then [whole_path d] else []) ++
  reverse (slot_path d <$> filter is_mounted (parts d)).

Lemma log_close_loop n d l (w : W) : table_ok d → (n <= length (parts d))%nat →
  (∀ i p, parts d !! i = Some p → is_mounted p → kind p = ANYFS_PART_KIND_FS) →
  wp (close_loop n) (λ _ s', s'.1 = d ∧ s'.2.1 = l ++ reverse (slot_path d <$> filter is_mounted (take n (parts d)))) (d, (l, w)).
Proof.
  intros Hok. revert l w. induction n as [|n IH]; intros l w Hn Hk; [by cbn; rewrite app_nil_r|].
  cbn [close_loop]. destruct (lookup_lt_is_Some_2 (parts d) n) as [p Hp]; [lia|].
  apply wp_bind, wp_ses, wp_bind. eapply wp_slot; [done|]. cbn [fst]. apply wp_bind.
  apply (wp_mono _ (λ _ s', s'.1 = d ∧ s'.2.1 = l ++ (slot_path d <$> filter is_mounted [p]))).
  { unfold is_state, is_fs. rewrite filter_cons. case_bool_decide as Hs; [rewrite decide_True by done|rewrite decide_False by done].
    - rewrite bool_decide_true by by eapply Hk. cbn [andb]. apply wp_bind, wp_lower. eapply wp_mono; [apply log_umount|].
      intros ? s1 E1. apply wp_ret. cbn [fst snd] in *. split; [done|]. rewrite slot_mnt_path in E1; [exact E1|apply Hok|by eapply ok_range].
    - cbn. by rewrite app_nil_r. }
  intros _ [d1 [l1 w1]] [E1 E2]. cbn [fst snd] in E1, E2. subst d1. apply wp_bind.
  apply (wp_mono _ (λ _ s', s'.1 = d ∧ s'.2.1 = l1)).
  { case_if; [done|]. apply wp_bind, wp_lower. eapply wp_mono; [apply silent_dm_remove|]. intros ? s2 E3. by apply wp_ret. }
  intros _ [d2 [l2 w2]] [E3 E4]. cbn [fst snd] in E3, E4. subst d2 l2. eapply wp_mono; [apply IH; [lia|done]|].
  intros _ s' [-> ->]. split; [done|]. rewrite (take_S_r _ _ p) by done. rewrite filter_app, fmap_app, reverse_app, E2, <- app_assoc. f_equal.
  f_equal. rewrite filter_cons. by case_decide.
Qed.

Lemma log_close d m l (w : W) : SInv (-2) d m → wp anyfs_session_close (λ _ s', s'.2.1 = l ++ closing d) (d, (l, w)).
Proof.
  intros H. unfold anyfs_session_close, closing. apply wp_bind, wp_ses. cbn [fst]. apply wp_bind.
  apply (wp_mono _ (λ _ s', parts s'.1 = parts d ∧ disk_id s'.1 = disk_id d ∧ table_ok s'.1 ∧
    s'.2.1 = l ++ (if bool_decide (whole_state d = ANYFS_PART_MOUNTED) then [whole_path d] else []))).
  { case_bool_decide as Hs; [|cbn; rewrite app_nil_r; split_and!; [done..|apply H|done]]. apply wp_bind. unfold anyfs_session_leave.
    apply wp_bind, wp_ses. cbn [fst]. change (0 =? 0) with true. cbn iota. apply wp_bind, wp_lower. eapply wp_mono; [apply log_umount|].
    intros rc s1 E1. cbn [fst snd] in *. rewrite whole_mnt_path in E1 by apply H. case_if.
    - apply wp_bind, wp_lower. eapply wp_mono; [apply silent_call|]. intros ? s2 E2. apply wp_bind, wp_upd, wp_ret, wp_ret. cbn [fst snd].
      split_and!; [done|done| |etransitivity; [exact E2|exact E1]]. eapply table_ok_static; [|apply H]. done.
    - apply wp_ret, wp_ret. split_and!; [done..|apply H|done]. }
  intros _ [d1 [l1 w1]] (Ep & Ei & Hok & E1). cbn [fst snd] in *. apply wp_bind.
  replace (length (parts d)) with (length (parts d1)) by by rewrite Ep.
  eapply wp_mono; [apply log_close_loop; [done|done|]|].
  { intros i p Hi Hm. rewrite Ep in Hi. by apply (inv_mnt _ _ _ H i p Hi Hm). }
  intros _ [d2 [l2 w2]] [_ E2]. cbn [fst snd] in *. rewrite firstn_all, Ep in E2.
  assert (E3 : l2 = l ++ (if bool_decide (whole_state d = ANYFS_PART_MOUNTED) then [whole_path d] else []) ++
    reverse (slot_path d <$> filter is_mounted (parts d))).
  { rewrite E2, E1, <- app_assoc. unfold slot_path, prefix. by rewrite Ei. }
  case_if; [apply wp_bind, wp_lower|]; exact E3.
Qed.
End Order.

(** ** Properties *)



(** A partition inside a partition, both mounted, and the whole disk. *)
Definition ses_nested : AnyfsSession :=
  mk_session 0 1 (bs "a.img") (bs "a.img") (bs "vda") [] [] [] 0 ANYFS_PART_MOUNTED
    [set_state ANYFS_PART_MOUNTED slot1;
     mk_slot 1 0 1 0 1000 [] (bs "/dev/mapper/x") [] ANYFS_PART_KIND_FS ANYFS_PART_MOUNTED None [] [] []].
Example closing_order : (λ r, r.2.2.1) <$> anyfs_session_close (W := list bytes * Toy.toy) (ses_nested, ([], toy_m)) =
  Some [bs "/lklmnt/anyfs_d0_whole"; bs "/lklmnt/anyfs_d0_s1"; bs "/lklmnt/anyfs_d0_p1"].
Proof. vm_compute. reflexivity. Qed.

End SessionClose.
