(* ===== verification/Lift.v ===== *)
(** * Lift

    A component with state of its own beside the kernel's: the kernel's calls
    and the host's, with their laws, on the product of the two states. *)
From S2P Require Import Prelude CLib Lkl Raw Backend.
Import CLib.

Section Lift.
Context {S W : Type} `{!Lkl W}.

#[export] Instance lift_lkl : Lkl (S * W) := {|
  sys_open p f := klift (sys_open p f);
  sys_close fd := klift (sys_close fd);
  sys_read fd n := klift (sys_read fd n);
  sys_pread64 fd n off := klift (sys_pread64 fd n off);
  sys_readlink p n := klift (sys_readlink p n);
  sys_access p := klift (sys_access p);
  sys_mkdir p m := klift (sys_mkdir p m);
  sys_rmdir p := klift (sys_rmdir p);
  sys_unlink p := klift (sys_unlink p);
  sys_mknod p m d := klift (sys_mknod p m d);
  sys_blkroset fd ro := klift (sys_blkroset fd ro);
  sys_blkrrpart fd := klift (sys_blkrrpart fd);
  sys_dm_ioctl fd c a := klift (sys_dm_ioctl fd c a);
  sys_mount d m t f o := klift (sys_mount d m t f o);
  sys_umount p := klift (sys_umount p);
  sys_sync := klift sys_sync;
  sys_nanosleep ms := klift (sys_nanosleep ms);
  sys_opendir p := klift (sys_opendir p);
  sys_closedir h := klift (sys_closedir h);
  get_virtio_blkdev d p := klift (get_virtio_blkdev d p) |}.

#[export] Instance lift_lkl_laws `{!LklLaws W} : LklLaws (S * W).
Proof.
  refine {| view := λ sw, view sw.2 |}; intros;
    cbn [sys_open sys_close sys_read sys_pread64 sys_readlink sys_access sys_mkdir sys_rmdir sys_unlink sys_mknod
      sys_blkroset sys_blkrrpart sys_dm_ioctl sys_mount sys_umount sys_sync sys_nanosleep sys_opendir sys_closedir
      get_virtio_blkdev lift_lkl] in *;
    try match goal with H : klift _ _ = _ |- _ => unlift H end; cbn [klift fst snd].
  - by eapply law_open.
  - apply law_close.
  - by eapply law_read.
  - by eapply law_pread.
  - by eapply law_readlink.
  - apply law_access.
  - apply law_mkdir.
  - apply law_rmdir.
  - apply law_unlink.
  - apply law_mknod.
  - apply law_sync.
  - apply law_nanosleep.
  - by eapply law_opendir.
  - apply law_closedir.
  - by eapply law_virtio.
  - apply law_blkrrpart.
  - by eapply law_dm_ioctl.
  - by eapply law_blkroset.
  - by eapply law_mount.
  - by eapply law_umount.
Defined.

Context `{!Host W}.

#[export] Instance lift_host : Host (S * W) := {|
  host_tmpfile := klift host_tmpfile;
  host_mkstemp := klift host_mkstemp;
  host_write fd b := klift (host_write fd b);
  host_lseek0 fd := klift (host_lseek0 fd);
  host_close fd := klift (host_close fd);
  blkid_new_probe_from_filename p := klift (blkid_new_probe_from_filename p);
  blkid_enable := klift blkid_enable;
  blkid_do_safeprobe := klift blkid_do_safeprobe;
  blkid_probe_lookup_value n := klift (blkid_probe_lookup_value n);
  blkid_free_probe := klift blkid_free_probe |}.

#[export] Instance lift_host_laws `{!LklLaws W, !HostLaws W} : HostLaws (S * W).
Proof.
  refine {| hview := λ sw, hview sw.2 |}; intros;
    cbn [sys_open sys_close sys_pread64 lift_lkl host_tmpfile host_mkstemp host_write host_lseek0 host_close
      blkid_new_probe_from_filename blkid_enable blkid_do_safeprobe blkid_probe_lookup_value blkid_free_probe
      lift_host view lift_lkl_laws] in *;
    try match goal with H : klift _ _ = _ |- _ => unlift H end; cbn [klift fst snd].
  - apply hlaw_open.
  - apply hlaw_close.
  - apply hlaw_pread.
  - by eapply hlaw_tmpfile.
  - by eapply hlaw_mkstemp.
  - by eapply hlaw_write.
  - apply hlaw_lseek.
  - apply hlaw_hclose.
  - by eapply hlaw_new.
  - apply hlaw_enable.
  - apply hlaw_probe.
  - apply hlaw_lookup.
  - apply hlaw_free.
Defined.
End Lift.
