(* ===== verification/Kernel.v ===== *)
(** * Kernel

    src/core/anyfs_kernel.c: starting and stopping the kernel, the report of
    a fatal error, and the cleanup at process exit. *)
From S2P Require Import Prelude CLib Lkl Raw Backend Lift.
Import CLib Backend.

(** ** Interface: the lifecycle calls of the kernel library and of QEMU *)
Class KernelOps (W : Type) := {
  lkl_init : kcall W Z;
  lkl_change_tls_mode : kcall W ();
  lkl_start_kernel : bytes → kcall W Z;
  lkl_sysctl : bytes → bytes → kcall W Z;
  lkl_sys_halt : kcall W Z;
  lkl_cleanup : kcall W ();
  qemu_backend_shutdown : kcall W ();
}.

(** The calls of the exit path that leave [R] alone. *)
Class LklKeeps {W X} `{!Lkl W} (R : W → X) := {
  lk_sync w : R (sys_sync w).2 = R w;
  lk_open p f w : R (sys_open p f w).2 = R w;
  lk_read fd n w : R (sys_read fd n w).2 = R w;
  lk_close fd w : R (sys_close fd w).2 = R w;
  lk_umount p w : R (sys_umount p w).2 = R w;
}.
Class ExitKeeps {W X} `{!KernelOps W} (R : W → X) := {
  ek_halt w : R (lkl_sys_halt w).2 = R w;
  ek_cleanup w : R (lkl_cleanup w).2 = R w;
  ek_qemu w : R (qemu_backend_shutdown w).2 = R w;
}.

Module Kernel.

(** ** Fatal errors *)

(** What the world sees of a report: the hook called with the reason, or the
    message on stderr and the end of the process. *)
Inductive fatal_event := HookCalled (fn : Z) (reason : bytes) | PrintedAndExited (reason : bytes).

Record Fatal := mk_fatal {
  g_fatal_hook : option Z; g_fatal_reported : bool; f_events : list fatal_event }.

(** vsnprintf into reason[512]. *)
Definition fatal_reason (text : bytes) : bytes := (snprintf 512 text).2.

Definition anyfs_set_fatal_hook (fn : option Z) (s : Fatal) : Fatal :=
  mk_fatal fn (g_fatal_reported s) (f_events s).

(** The three atomic steps of anyfs_fatal: the exchange, the load of the hook,
    the report.  A thread that lost the exchange is done. *)
Inductive fatal_pc :=
  | FExchange (text : bytes)
  | FLoad (reason : bytes)
  | FReport (reason : bytes) (fn : option Z)
  | FDone.

Definition fatal_step (pc : fatal_pc) (s : Fatal) : fatal_pc * Fatal :=
  match pc with
  | FExchange text =>
      (if g_fatal_reported s then FDone else FLoad (fatal_reason text),
       mk_fatal (g_fatal_hook s) true (f_events s))
  | FLoad reason => (FReport reason (g_fatal_hook s), s)
  | FReport reason (Some fn) => (FDone, mk_fatal (g_fatal_hook s) (g_fatal_reported s) (f_events s ++ [HookCalled fn reason]))
  | FReport reason None => (FDone, mk_fatal (g_fatal_hook s) (g_fatal_reported s) (f_events s ++ [PrintedAndExited reason]))
  | FDone => (FDone, s)
  end.

(** A call that runs alone. *)
Definition anyfs_fatal (text : bytes) (s : Fatal) : Fatal :=
  let '(p1, s1) := fatal_step (FExchange text) s in
  let '(p2, s2) := fatal_step p1 s1 in
  (fatal_step p2 s2).2.

(** Threads that report, interleaved with changes of the hook. *)
Inductive fatal_run : list fatal_pc * Fatal → list fatal_pc * Fatal → Prop :=
  | run_refl c : fatal_run c c
  | run_step ts s ts' s' i pc pc' s1 : fatal_run (ts, s) (ts', s') → ts' !! i = Some pc →
      fatal_step pc s' = (pc', s1) → fatal_run (ts, s) (<[i := pc']> ts', s1)
  | run_hook ts s ts' s' fn : fatal_run (ts, s) (ts', s') → fatal_run (ts, s) (ts', anyfs_set_fatal_hook fn s').

(** ** The lifecycle *)

Record AnyfsKernelOpts := mk_opts { mem_mb : Z; loglevel : Z }.

Record KG := mk_kg { kg : Globals; g_kernel_started : bool; atexit_n : nat }.

Definition map_kg (f : Globals → Globals) (k : KG) : KG := mk_kg (f (kg k)) (g_kernel_started k) (atexit_n k).

(** The mount points under /lklmnt/ that the line loop finds in one buffer:
    the second blank-separated field of each line. *)
Definition line_target (line : bytes) : option bytes :=
  match strchr 32 line with
  | Some (_, mp) =>
      let mp := match strchr 32 mp with Some (m, _) => m | None => mp end in
      if starts_with (bs "/lklmnt/") mp then Some mp else None
  | None => None
  end.

Fixpoint line_loop (fuel : nat) (line : bytes) : list bytes :=
  match fuel, line with
  | O, _ | _, [] => []
  | S f, _ =>
      match strchr 10 line with
      | Some (l, rest) => option_list (line_target l) ++ line_loop f rest
      | None => option_list (line_target line)
      end
  end.
Definition targets (buf : bytes) : list bytes := line_loop (length buf) buf.

Section Code.
Context {W} `{!Lkl W, !HostIO W, !Disks W, !KernelOps W} (has_qemu has_gio : bool).
Notation St := (KG * W)%type.

Definition on_globals {A} (m : M (Globals * W) A) : M St A := λ s,
  match m (kg s.1, s.2) with
  | Some (a, (g, w)) => Some (a, (map_kg (λ _, g) s.1, w))
  | None => None
  end.
Definition set_started (b : bool) : M St () := mmod (λ s, (mk_kg (kg s.1) b (atexit_n s.1), s.2)).

Fixpoint mounts_loop (fuel : nat) (fd : Z) : M W () :=
  match fuel with
  | O => mstuck
  | S f =>
      r ← lkl_sys_read fd 4095;
      if 0 <? r.1 then
        _ ← mfor (targets (c_str r.2)) (λ mp, _ ← lkl_sys_umount mp; mret ());
        mounts_loop f fd
      else mret ()
  end.

Definition umount_all (fuel : nat) : M W () :=
  fd ← lkl_sys_open (bs "/proc/mounts") LKL_O_RDONLY;
  if 0 <=? fd then _ ← mounts_loop fuel fd; _ ← lkl_sys_close fd; mret () else mret ().

(** Remove all disk devices: slot by slot, whatever earlier ones did. *)
Definition remove_disks : M St () :=
  mfor (seq 0 16) (λ i,
    k ← mgets fst;
    match g_disks (kg k) !! i with
    | Some s => if in_use s then on_globals (release_slot i s) else mret ()
    | None => mstuck
    end).

Definition anyfs_atexit_cleanup (fuel : nat) : M St () :=
  k ← mgets fst;
  if negb (g_kernel_started k) then mret ()
  else
    _ ← lower lkl_sys_sync;
    _ ← lower (umount_all fuel);
    _ ← remove_disks;
    _ ← lower (call lkl_sys_halt);
    _ ← lower (call lkl_cleanup);
    _ ← (if has_qemu then lower (call qemu_backend_shutdown) else mret ());
    set_started false.

Definition boot_args (mem log : Z) : bytes :=
  (snprintf 128 (bs "mem=" ++ fmt_u mem ++ bs "M loglevel=" ++ fmt_u log)).2.

Definition tcp_caps : list (bytes * bytes) :=
  [(bs "net.ipv4.tcp_wmem", bs "4096 16384 65536"); (bs "net.ipv4.tcp_rmem", bs "4096 16384 65536");
   (bs "net.ipv4.tcp_mem", bs "8192 16384 32768"); (bs "net.core.wmem_default", bs "16384");
   (bs "net.core.rmem_default", bs "16384"); (bs "net.core.wmem_max", bs "65536"); (bs "net.core.rmem_max", bs "65536")].

Definition register_all (g : Globals) : Globals :=
  let g := anyfs_register_backend raw_backend_ops g in
  let g := if has_gio then anyfs_register_backend gio_backend_ops g else g in
  if has_qemu then anyfs_register_backend qemu_backend_ops g else g.

Definition anyfs_kernel_init (opts : option AnyfsKernelOpts) : M St Z :=
  k ← mgets fst;
  if g_kernel_started k then mret 0
  else
    let mem := match opts with Some o => if mem_mb o =? 0 then 32 else mem_mb o | None => 32 end in
    let log := match opts with Some o => loglevel o | None => 0 end in
    _ ← mmod (λ s, (map_kg register_all s.1, s.2));
    ret ← lower (call lkl_init);
    if negb (ret =? 0) then mret (-1)
    else
      _ ← lower (call lkl_change_tls_mode);
      ret ← lower (call (lkl_start_kernel (boot_args mem log)));
      if negb (ret =? 0) then mret (-1)
      else
        _ ← set_started true;
        _ ← mfor tcp_caps (λ kv, _ ← lower (call (lkl_sysctl kv.1 kv.2)); mret ());
        _ ← lower (lkl_sys_mkdir (bs "/sys") 0x16d);
        _ ← lower (lkl_sys_mount (bs "sysfs") (bs "/sys") (bs "sysfs") 0 None);
        _ ← lower (lkl_sys_mkdir (bs "/proc") 0x16d);
        _ ← lower (lkl_sys_mount (bs "proc") (bs "/proc") (bs "proc") 0 None);
        _ ← mmod (λ s, (mk_kg (kg s.1) (g_kernel_started s.1) (S (atexit_n s.1)), s.2));
        mret 0.

Definition anyfs_kernel_halt : M St () :=
  k ← mgets fst;
  if negb (g_kernel_started k) then mret ()
  else
    _ ← lower (call lkl_sys_halt);
    _ ← lower (call lkl_cleanup);
    _ ← (if has_qemu then lower (call qemu_backend_shutdown) else mret ());
    set_started false.
End Code.

(** ** At most one report *)

(** A thread between the exchange it won and its report. *)
Definition reporting (pc : fatal_pc) : nat := match pc with FLoad _ | FReport _ _ => 1 | _ => 0 end.
Fixpoint reporters (ts : list fatal_pc) : nat :=
  match ts with [] => 0 | pc :: ts' => reporting pc + reporters ts' end.

Definition event_reason (e : fatal_event) : bytes :=
  match e with HookCalled _ r | PrintedAndExited r => r end.

Lemma reporters_insert ts i a b : ts !! i = Some a →
  (reporters (<[i := b]> ts) + reporting a = reporters ts + reporting b)%nat.
Proof.
  revert i. induction ts as [|t ts IH]; intros [|i] H; [done..| |].
  - injection H as ->. cbn [insert list_insert reporters]. lia.
  - apply IH in H. change (<[S i := b]> (t :: ts)) with (t :: <[i := b]> ts). cbn [reporters]. lia.
Qed.

(** The reasons in flight and reported come from the calls [texts]. *)
Definition from_calls (texts : list bytes) (pc : fatal_pc) : Prop :=
  match pc with
  | FExchange t => t ∈ texts
  | FLoad r | FReport r _ => r ∈ fatal_reason <$> texts
  | FDone => True
  end.

Record FInv (texts : list bytes) (ts : list fatal_pc) (s : Fatal) : Prop := {
  fi_fresh : g_fatal_reported s = false → f_events s = [] ∧ Forall (λ pc, ∃ t, pc = FExchange t) ts;
  fi_once : g_fatal_reported s = true → (reporters ts + length (f_events s) = 1)%nat;
  fi_pc : Forall (from_calls texts) ts;
  fi_ev : Forall (λ e, event_reason e ∈ fatal_reason <$> texts) (f_events s) }.

Lemma reporters_fresh ts : Forall (λ pc, ∃ t, pc = FExchange t) ts → reporters ts = 0%nat.
Proof. induction 1 as [|? ts [t ->] _ IH]; [done|]. cbn. lia. Qed.

Lemma FInv_step texts ts s i pc pc' s' : FInv texts ts s → ts !! i = Some pc → fatal_step pc s = (pc', s') →
  FInv texts (<[i := pc']> ts) s'.
Proof.
  intros I Hi Hs. pose proof (reporters_insert ts i pc pc' Hi) as Hsum.
  pose proof (Forall_lookup_1 _ _ _ _ (fi_pc _ _ _ I) Hi) as Hpc.
  assert (Hnew : reporting pc = 1%nat → g_fatal_reported s = true).
  { intros H1. destruct (g_fatal_reported s) eqn:E; [done|]. destruct (fi_fresh _ _ _ I E) as [_ Hf].
    destruct (Forall_lookup_1 _ _ _ _ Hf Hi) as [t ->]. done. }
  destruct pc as [t|r|r fn|]; cbn [fatal_step] in Hs.
  - injection Hs as <- <-. split; cbn [g_fatal_reported f_events]; [done| | |apply I].
    + intros _. destruct (g_fatal_reported s) eqn:E; cbn [reporting] in Hsum.
      * pose proof (fi_once _ _ _ I E). lia.
      * destruct (fi_fresh _ _ _ I E) as [-> Hf]. apply reporters_fresh in Hf. cbn [length]. lia.
    + apply Forall_insert; [apply I|]. destruct (g_fatal_reported s); [done|]. cbn. by apply list_elem_of_fmap_2.
  - injection Hs as <- <-. split; [by rewrite Hnew| | |apply I].
    + intros E. cbn [reporting] in Hsum. pose proof (fi_once _ _ _ I E). lia.
    + apply Forall_insert; [apply I|done].
  - assert (∃ e, event_reason e = r ∧ (pc', s') = (FDone, mk_fatal (g_fatal_hook s) (g_fatal_reported s) (f_events s ++ [e])))
      as (e & He & [= -> ->]) by (destruct fn; [eexists (HookCalled _ r)|exists (PrintedAndExited r)]; split; done).
    split; cbn [g_fatal_reported f_events].
    + by rewrite Hnew.
    + intros E. rewrite length_app. cbn [reporting length] in *. pose proof (fi_once _ _ _ I E). lia.
    + apply Forall_insert; [apply I|done].
    + apply Forall_app. split; [apply I|]. apply Forall_singleton. by rewrite He.
  - injection Hs as <- <-. by rewrite list_insert_id.
Qed.

Lemma FInv_run texts c c' : fatal_run c c' → FInv texts c.1 c.2 → FInv texts c'.1 c'.2.
Proof.
  induction 1 as [c|ts s ts' s' i pc pc' s1 _ IH Hi Hs|ts s ts' s' fn _ IH]; intros I; [done| |].
  - cbn in *. eapply FInv_step; [by apply IH|done..].
  - cbn in *. destruct (IH I). by split.
Qed.

Lemma FInv_init texts h : FInv texts (FExchange <$> texts) (mk_fatal h false []).
Proof.
  split; cbn; [|done| |constructor].
  - intros _. split; [done|]. apply Forall_fmap, Forall_forall. intros t _. by exists t.
  - apply Forall_fmap, Forall_forall. done.
Qed.

(** ** The mount table as text *)

(** One line of /proc/mounts: device, mount point, the rest. *)
Record mount_line := mk_line { ml_dev : bytes; ml_mp : bytes; ml_rest : bytes }.

Definition clean_line (l : mount_line) : Prop :=
  32 ∉ ml_dev l ∧ 10 ∉ ml_dev l ∧ 32 ∉ ml_mp l ∧ 10 ∉ ml_mp l ∧ 10 ∉ ml_rest l.

Definition body (l : mount_line) : bytes := ml_dev l ++ 32 :: ml_mp l ++ 32 :: ml_rest l.
Definition render (ls : list mount_line) : bytes := mjoin ((λ l, body l ++ [10]) <$> ls).

Definition ours (path : bytes) : Prop := starts_with (bs "/lklmnt/") path = true.

Lemma target_line l : clean_line l → line_target (body l) = if starts_with (bs "/lklmnt/") (ml_mp l) then Some (ml_mp l) else None.
Proof.
  intros (H1 & _ & H2 & _). unfold line_target, body. rewrite strchr_app by done. by rewrite strchr_app by done.
Qed.

Lemma line_loop_render ls fuel : Forall clean_line ls → (length (render ls) <= fuel)%nat →
  line_loop fuel (render ls) = filter ours (ml_mp <$> ls).
Proof.
  intros Hc. revert fuel. induction Hc as [|l ls Hl _ IH]; intros fuel Hf; [by destruct fuel|].
  unfold render in *. rewrite fmap_cons, join_cons, <- app_assoc in *. cbn [app] in *.
  assert (Hn : 10 ∉ body l).
  { destruct Hl as (_ & H1 & _ & H2 & H3). unfold body. rewrite !elem_of_app, elem_of_cons, elem_of_app, elem_of_cons.
    intros [?|[?|[?|[?|?]]]]; done. }
  rewrite length_app in Hf. cbn [length] in Hf. destruct fuel as [|f]; [lia|]. cbn [line_loop].
  assert (∃ c t, body l ++ 10 :: mjoin ((λ l, body l ++ [10]) <$> ls) = c :: t) as (c & t & E).
  { unfold body. destruct (ml_dev l); eexists _, _; reflexivity. }
  rewrite E. rewrite <- E, strchr_app, target_line, IH by (done || lia). rewrite fmap_cons, filter_cons.
  unfold ours. destruct (starts_with _ (ml_mp l)) eqn:Es; [by rewrite decide_True|].
  by rewrite decide_False.
Qed.

(** ** The exit path *)
Section Exit.
Context {W} `{!Lkl W, !LklLaws W, !HostIO W, !HostIOLaws W, !Disks W, !DisksLaws W, !KernelOps W}.
Context `{!LklKeeps (dview (W := W)), !LklKeeps (iov (W := W)), !ExitKeeps (dview (W := W)), !ExitKeeps (iov (W := W)),
          !ExitKeeps (view (W := W)), !HostKeeps (view (W := W)), !DiskKeeps (view (W := W))}.
Notation St := (KG * W)%type.
Implicit Types (w : W) (k : KG).

Lemma wp_on_globals {A} (m : M (Globals * W) A) (Q : A → St → Prop) k w :
  wp m (λ a gw, Q a (map_kg (λ _, gw.1) k, gw.2)) (kg k, w) → wp (on_globals m) Q (k, w).
Proof. unfold wp, on_globals. cbn. by destruct (m (kg k, w)) as [[a [g w']]|]. Qed.

Lemma wp_keeps {X} (R : W → X) {A} (m : M (Globals * W) A) Q s : keeps R m → wp m Q s →
  wp m (λ a s', Q a s' ∧ R s'.2 = R s.2) s.
Proof. unfold wp. intros H. destruct (m s) as [[a s']|] eqn:E; [|done]. intros HQ. split; [done|by eapply H]. Qed.

(** Every slot below [i] is free. *)
Lemma wp_remove_from base i n k w : (i + n = 16)%nat → DInv base (kg k) w →
  (∀ j s, (j < i)%nat → ¬ used (kg k) j s) →
  wp (mfor (seq i n) (λ i, k ← mgets fst;
    match g_disks (kg k) !! i with
    | Some s => if in_use s then on_globals (release_slot i s) else mret ()
    | None => mstuck
    end)) (λ _ s', DInv base (kg s'.1) s'.2 ∧ view s'.2 = view w ∧ ∀ j s, ¬ used (kg s'.1) j s) (k, w).
Proof.
  revert i k w. induction n as [|n IH]; intros i k w Hin I Hfree; cbn [mfor seq].
  { apply wp_ret. split; [done|]. split; [done|]. intros j s Hu. destruct (decide (j < i)%nat); [by eapply Hfree|].
    destruct Hu as [Hj _]. cbn [fst] in Hj. apply lookup_lt_Some in Hj. pose proof (di_len _ _ _ I). unfold ANYFS_MAX_DISKS in *. lia. }
  apply wp_bind, wp_bind, wp_gets. cbn [fst]. destruct (lookup_lt_is_Some_2 (g_disks (kg k)) i) as [s Hs].
  { pose proof (di_len _ _ _ I). unfold ANYFS_MAX_DISKS in *. lia. }
  rewrite Hs. destruct (in_use s) eqn:Eu.
  - apply wp_on_globals. eapply wp_mono; [apply (wp_keeps view); [apply (keeps_release view)|by apply (wp_release_slot base)]|].
    intros _ [g1 w1] [(I1 & Hg & _) Hv]. cbn [fst snd] in *.
    eapply wp_mono; [apply IH; [lia|done|]|].
    + cbn [map_kg kg]. intros j t Hj [Hl Hu]. rewrite Hg in Hl. destruct (decide (j = i)) as [->|].
      * rewrite list_lookup_insert_eq in Hl by (by eapply lookup_lt_Some). by simplify_eq.
      * rewrite list_lookup_insert_ne in Hl by done. by apply (Hfree j t ltac:(lia)).
    + intros _ s' (? & Hv' & ?). split_and!; [done|congruence|done].
  - apply wp_ret. apply IH; [lia|done|]. intros j t Hj [Hl Hu]. destruct (decide (j = i)) as [->|]; [congruence|].
    by apply (Hfree j t ltac:(lia)).
Qed.

Lemma no_slots base g w : DInv base g w → (∀ j s, ¬ used g j s) →
  attached (dview w) = ∅ ∧ ∀ x, held w x ↔ base x.
Proof.
  intros I H. split.
  - apply map_empty. intros id. destruct (attached (dview w) !! id) as [d|] eqn:E; [|done].
    destruct (di_bus _ _ _ I _ _ E) as (i & s & Hu & _). by destruct (H i s).
  - intros x. rewrite (di_held _ _ _ I x). split; [|by left]. intros [?|(i & s & _ & Hu & _)]; [done|by destruct (H i s)].
Qed.

(** *** Unmounting *)

(** A mount that is there can be unmounted. *)
Definition umount_ok : Prop := ∀ p w, is_Some (v_mnt (view w) !! p) → (sys_umount p w).1 = 0.

Definition views w := (dview w, iov w).

(** [m'] lacks what [l] names and perhaps more of ours; the rest is as in [m]. *)
Definition unmounted (l : list bytes) (m m' : gmap bytes MountInfo) : Prop :=
  (∀ p, p ∈ l → m' !! p = None) ∧ (∀ p, m !! p = None → m' !! p = None) ∧ (∀ p, ¬ ours p → m' !! p = m !! p).

Lemma unmounted_refl m : unmounted [] m m.
Proof. split; [|done]. intros p H. by apply not_elem_of_nil in H. Qed.

Lemma unmounted_trans l l' m1 m2 m3 : unmounted l m1 m2 → unmounted l' m2 m3 → unmounted (l ++ l') m1 m3.
Proof.
  intros (A1 & A2 & A3) (B1 & B2 & B3). split_and!.
  - intros p [H|H]%elem_of_app; [by apply B2, A1|by apply B1].
  - intros p H. by apply B2, A2.
  - intros p H. by rewrite B3, A3.
Qed.

Lemma unmounted_sub l l' m m' : unmounted l m m' → (∀ p, p ∈ l' → p ∈ l) → unmounted l' m m'.
Proof. intros (A1 & A2 & A3) H. split_and!; [|done..]. intros p Hp. by apply A1, H. Qed.

Lemma wp_umount_one p w : umount_ok → ours p →
  wp (lkl_sys_umount p) (λ _ w', views w' = views w ∧ unmounted [p] (v_mnt (view w)) (v_mnt (view w'))) w.
Proof.
  intros Hok Ho. apply wp_call. pose proof (lk_umount (R := dview) p w) as H1. pose proof (lk_umount (R := iov) p w) as H2.
  pose proof (Hok p w) as H3. destruct (sys_umount p w) as [r w'] eqn:E. cbn [fst snd] in *.
  split; [unfold views; by rewrite H1, H2|].
  apply law_umount in E as [[Hr ->]|[-> ->]]; cbn [v_mnt].
  - assert (Hn : v_mnt (view w) !! p = None).
    { destruct (v_mnt (view w) !! p) eqn:E; [|done]. specialize (H3 ltac:(by eexists)). lia. }
    split_and!; [|done..]. intros q Hq%list_elem_of_singleton. by subst q.
  - split_and!.
    + intros q ->%list_elem_of_singleton. apply lookup_delete_eq.
    + intros q Hq. apply lookup_delete_None. by right.
    + intros q Hq. apply lookup_delete_ne. by intros ->.
Qed.

Lemma wp_umounts l w : umount_ok → Forall ours l →
  wp (mfor l (λ mp, _ ← lkl_sys_umount mp; mret ())) (λ _ w', views w' = views w ∧
    unmounted l (v_mnt (view w)) (v_mnt (view w'))) w.
Proof.
  intros Hok Hl. revert w. induction Hl as [|p l Hp _ IH]; intros w; cbn [mfor].
  { split; [done|apply unmounted_refl]. }
  apply wp_bind, wp_bind. wp_use wp_umount_one; [done..|]. intros _ w1 [H1 U1]. apply wp_ret.
  wp_use IH. intros _ w2 [H2 U2]. split; [congruence|]. by eapply (unmounted_trans [p]).
Qed.

Lemma targets_ours fuel s : Forall ours (line_loop fuel s).
Proof.
  assert (Ht : ∀ l, Forall ours (option_list (line_target l))).
  { intros l. unfold line_target. repeat case_match; by repeat constructor. }
  revert s. induction fuel as [|f IH]; intros s; [constructor|]. cbn [line_loop]. destruct s; [constructor|].
  case_match; [|apply Ht]. case_match. apply Forall_app. split; [apply Ht|apply IH].
Qed.

(** *** Reading the mount table *)
Context (left : W → nat).

(** Reading makes progress: [left] bounds the reads that return something. *)
Definition reads_end : Prop :=
  (∀ fd n w, 0 < (sys_read fd n w).1.1 → (left (sys_read fd n w).2 < left w)%nat) ∧
  (∀ p w, (left (sys_umount p w).2 <= left w)%nat).

Lemma wp_left {A} (m : M W A) Q w : wp m Q w → (∀ a w', m w = Some (a, w') → (left w' <= left w)%nat) →
  wp m (λ a w', Q a w' ∧ (left w' <= left w)%nat) w.
Proof. unfold wp. destruct (m w) as [[a w']|]; [|done]. intros HQ H. split; [done|by eapply H]. Qed.

Lemma umounts_left l w a w' : reads_end →
  mfor l (λ mp, _ ← lkl_sys_umount mp; mret ()) w = Some (a, w') → (left w' <= left w)%nat.
Proof.
  intros [_ Hu]. revert w. induction l as [|p l IH]; intros w; cbn [mfor]; [by intros [= _ <-]|].
  unfold mbind, M_bind, lkl_sys_umount, call. specialize (Hu p w). destruct (sys_umount p w) as [r w1]. cbn in *.
  intros H. apply IH in H. lia.
Qed.

Lemma wp_mounts_loop fuel fd w : umount_ok → reads_end → (left w < fuel)%nat →
  wp (mounts_loop fuel fd) (λ _ w', views w' = views w ∧
    unmounted (let r := (sys_read fd 4095 w).1 in if 0 <? r.1 then targets (c_str r.2) else [])
      (v_mnt (view w)) (v_mnt (view w'))) w.
Proof.
  intros Hok He. revert w. induction fuel as [|f IH]; intros w Hf; [lia|]. cbn [mounts_loop].
  apply wp_bind, wp_call. pose proof (lk_read (R := dview) fd 4095 w) as H1. pose proof (lk_read (R := iov) fd 4095 w) as H2.
  pose proof (proj1 He fd 4095 w) as H3. destruct (sys_read fd 4095 w) as [[r b] w1] eqn:E.
  apply law_read in E as [Hv _]. cbn [fst snd] in *. rewrite <- Hv.
  destruct (Z.ltb_spec 0 r); [|split; [unfold views; congruence|apply unmounted_refl]].
  apply wp_bind. eapply wp_mono; [apply wp_left; [apply (wp_umounts _ _ Hok)|]|].
  - apply targets_ours.
  - intros a w2. by apply umounts_left.
  - intros _ w2 [[Hs2 U2] Hl]. wp_use IH; [specialize (H3 H); lia|]. intros _ w3 [Hs3 U3].
    split; [unfold views in *; congruence|]. eapply unmounted_sub; [by eapply unmounted_trans|].
    intros p Hp. apply elem_of_app. by left.
Qed.

(** The first read of the mount table gives all of it, in whole lines. *)
Definition table_fits w : Prop := ∀ fd w', sys_open (bs "/proc/mounts") LKL_O_RDONLY w = (fd, w') → 0 <= fd ∧
  ∃ ls, (sys_read fd 4095 w').1 = (len (render ls), render ls) ∧ Forall clean_line ls ∧ CStr (render ls) ∧
    ∀ p, is_Some (v_mnt (view w') !! p) → p ∈ ml_mp <$> ls.

(** The kernel stops: no disk, no descriptor and no mount of ours is left. *)
Definition cleaned (base : Z + Z → Prop) (m : gmap bytes MountInfo) (s' : St) : Prop :=
  g_kernel_started s'.1 = false ∧ attached (dview s'.2) = ∅ ∧ (∀ x, held s'.2 x ↔ base x) ∧
  (∀ j s, ¬ used (kg s'.1) j s) ∧
  ∀ p, v_mnt (view s'.2) !! p = if decide (ours p) then None else m !! p.

Lemma first_read fd w ls p : (sys_read fd 4095 w).1 = (len (render ls), render ls) → Forall clean_line ls →
  CStr (render ls) → p ∈ ml_mp <$> ls → ours p →
  p ∈ (let r := (sys_read fd 4095 w).1 in if 0 <? r.1 then targets (c_str r.2) else []).
Proof.
  intros E Hc Hs Hp Ho. rewrite E. cbn [fst snd].
  assert (Hcs : c_str (render ls) = render ls).
  { clear -Hs. induction Hs as [|c s H _ IH]; [done|]. cbn. rewrite (proj2 (Z.eqb_neq c 0)) by lia. by rewrite IH. }
  destruct (Z.ltb_spec 0 (len (render ls))) as [Hl|Hl].
  - rewrite Hcs. unfold targets. rewrite line_loop_render by done. by apply list_elem_of_filter.
  - destruct ls as [|l ls]; [done|]. exfalso. unfold render in Hl. rewrite fmap_cons, join_cons, !length_app in Hl.
    cbn [length] in Hl. lia.
Qed.

Lemma ours_elsewhere l m m' p : unmounted l m m' → (∀ q, is_Some (m !! q) → ours q → q ∈ l) →
  m' !! p = if decide (ours p) then None else m !! p.
Proof.
  intros (A1 & A2 & A3) H. case_decide as Ho; [|by apply A3].
  destruct (m !! p) eqn:E; [|by apply A2]. apply A1, H; [by eexists|done].
Qed.

Lemma wp_umount_all fuel w : umount_ok → reads_end → table_fits w →
  (∀ fd w', sys_open (bs "/proc/mounts") LKL_O_RDONLY w = (fd, w') → (left w' < fuel)%nat) →
  wp (umount_all fuel)
    (λ _ w', views w' = views w ∧ ∀ p, v_mnt (view w') !! p = if decide (ours p) then None else v_mnt (view w) !! p) w.
Proof.
  intros Hok He Ht Hf. apply wp_bind, wp_call.
  pose proof (lk_open (R := dview) (bs "/proc/mounts") LKL_O_RDONLY w) as H1.
  pose proof (lk_open (R := iov) (bs "/proc/mounts") LKL_O_RDONLY w) as H2.
  unfold table_fits in Ht. destruct (sys_open (bs "/proc/mounts") LKL_O_RDONLY w) as [fd w1] eqn:E. cbn [fst snd] in *.
  destruct (Ht _ _ eq_refl) as (Hge & ls & Hr & Hc & Hs & Hall). specialize (Hf _ _ eq_refl).
  assert (Hm : v_mnt (view w1) = v_mnt (view w)) by (apply law_open in E as [[_ ->]|(_ & _ & ->)]; done).
  rewrite (proj2 (Z.leb_le 0 fd)) by done. apply wp_bind. wp_use wp_mounts_loop; [done..|]. intros _ w2 [Hs2 U2].
  apply wp_bind, wp_call, wp_ret. cbn [fst snd]. unfold views in *.
  rewrite (lk_close (R := dview)), (lk_close (R := iov)), law_close. cbn [v_mnt]. split; [congruence|].
  intros p. rewrite <- Hm. eapply ours_elsewhere; [done|]. intros q Hq Ho. eapply first_read; [done..|by apply Hall|done].
Qed.

Lemma views_inv base g w w' : views w' = views w → DInv base g w → DInv base g w'.
Proof.
  intros Hv I. injection Hv as H1 H2. eapply DInv_proper; [exact I|done|by rewrite H1|by apply held_views].
Qed.

Lemma wp_stop q (m : St → Prop) k w : (∀ w', views w' = views w → view w' = view w → m (mk_kg (kg k) false (atexit_n k), w')) →
  wp (_ ← lower (call lkl_sys_halt); _ ← lower (call lkl_cleanup);
      _ ← (if q : bool then lower (call qemu_backend_shutdown) else mret ()); set_started false) (λ _, m) (k, w).
Proof.
  intros H. apply wp_bind, wp_lower, wp_call. cbn [fst snd]. apply wp_bind, wp_lower, wp_call. cbn [fst snd].
  apply wp_bind. unfold views in H.
  destruct q; [apply wp_lower, wp_call|apply wp_ret]; cbn [fst snd]; apply wp_mod, H; cbn [fst snd];
    rewrite ?(ek_qemu (R := dview)), ?(ek_qemu (R := iov)), ?(ek_qemu (R := view)),
      ?(ek_cleanup (R := dview)), ?(ek_cleanup (R := iov)), ?(ek_cleanup (R := view)),
      ?(ek_halt (R := dview)), ?(ek_halt (R := iov)), ?(ek_halt (R := view)); done.
Qed.

Lemma wp_atexit q fuel base k w : umount_ok → reads_end → table_fits (sys_sync w).2 → DInv base (kg k) w → g_kernel_started k = true →
  (∀ fd w', sys_open (bs "/proc/mounts") LKL_O_RDONLY (sys_sync w).2 = (fd, w') → (left w' < fuel)%nat) →
  wp (anyfs_atexit_cleanup q fuel) (λ _, cleaned base (v_mnt (view w))) (k, w).
Proof.
  intros Hok He Ht I Hst Hf. unfold anyfs_atexit_cleanup. apply wp_bind, wp_gets. cbn [fst]. rewrite Hst. cbn [negb].
  apply wp_bind, wp_lower, wp_call. cbn [fst snd]. apply wp_bind, wp_lower.
  wp_use wp_umount_all; [done..|]. intros _ w1 [Hs1 Hm1]. cbn [fst snd] in *.
  rewrite law_sync in Hm1. unfold views in Hs1. rewrite (lk_sync (R := dview)), (lk_sync (R := iov)) in Hs1.
  apply wp_bind. unfold remove_disks. wp_use (wp_remove_from base 0 16); [done|by eapply views_inv|lia|].
  intros _ [k2 w2] (I2 & Hv2 & Hno). cbn [fst snd] in *. apply wp_stop. intros w3 Hs3 Hv3.
  destruct (no_slots base (kg k2) w3) as [Ha Hh]; [by eapply views_inv|done|].
  split_and!; [done..|]. intros p. cbn [snd]. by rewrite Hv3, Hv2, Hm1.
Qed.
End Exit.

(** ** Starting the kernel *)
Section Init.
Context {W} `{!Lkl W, !KernelOps W}.
Implicit Types (w : W) (k : KG).

Lemma boot_args_fit mem log : 0 <= mem < 2 ^ 32 → 0 <= log < 2 ^ 32 →
  boot_args mem log = bs "mem=" ++ fmt_u mem ++ bs "M loglevel=" ++ fmt_u log.
Proof.
  intros H1 H2. apply snprintf_fits. pose proof (fmt_u_len32 mem). pose proof (fmt_u_len32 log).
  rewrite !length_app. change (length (bs "mem=")) with 4%nat. change (length (bs "M loglevel=")) with 11%nat. lia.
Qed.

Lemma wp_unit_call {A} (m : M W A) (Q : A → KG * W → Prop) k w :
  (∀ w, is_Some (m w)) → (∀ a w', Q a (k, w')) → wp (lower m) Q (k, w).
Proof. intros Hm H. apply wp_lower. unfold wp. destruct (Hm w) as [[a w'] E]. cbn. by rewrite E. Qed.

(** After a start: running, one more exit handler; after a failure: not
    running.  The disk table is not touched. *)
Definition started q gio k (r : Z) (k' : KG) : Prop :=
  g_disks (kg k') = g_disks (kg k) ∧ anyfs_backends (kg k') = anyfs_backends (register_all q gio (kg k)) ∧
  ((r = 0 ∧ g_kernel_started k' = true ∧ atexit_n k' = S (atexit_n k)) ∨
   (r = -1 ∧ g_kernel_started k' = false ∧ atexit_n k' = atexit_n k)).

Lemma register_disks q gio g : g_disks (register_all q gio g) = g_disks g.
Proof. unfold register_all, anyfs_register_backend. repeat case_match; done. Qed.

Lemma wp_init q gio opts k w :
  wp (anyfs_kernel_init q gio opts) (λ r s',
    if g_kernel_started k then r = 0 ∧ s' = (k, w) else started q gio k r s'.1) (k, w).
Proof.
  unfold anyfs_kernel_init. apply wp_bind, wp_gets. cbn [fst]. destruct (g_kernel_started k) eqn:Es; [done|].
  assert (Hc : ∀ A (f : kcall W A) w, is_Some (call f w)) by (intros; by eexists).
  assert (H0 : g_disks (kg (map_kg (register_all q gio) k)) = g_disks (kg k)) by apply register_disks.
  apply wp_bind, wp_mod, wp_bind, wp_unit_call; [apply Hc|]. intros r1 w1.
  destruct (negb _); [apply wp_ret; split_and!; [done|done|by right]|].
  apply wp_bind, wp_unit_call; [apply Hc|]. intros _ w2. apply wp_bind, wp_unit_call; [apply Hc|]. intros r2 w3.
  destruct (negb _); [apply wp_ret; split_and!; [done|done|by right]|].
  apply wp_bind, wp_mod. cbn [fst snd]. apply wp_bind.
  eapply wp_mono; [apply (wp_for (λ s', s'.1 = mk_kg (register_all q gio (kg k)) true (atexit_n k)))|].
  - done.
  - intros kv [k' w'] _ E. cbn in E. subst k'. apply wp_bind, wp_unit_call; [apply Hc|]. by intros _ w''.
  - intros _ [k' w'] E. cbn in E. subst k'. do 4 (apply wp_bind, wp_unit_call; [apply Hc|intros _ ?]).
    apply wp_bind, wp_mod, wp_ret. cbn [fst snd]. split_and!; [done|done|by left].
Qed.
End Init.

(** ** A concrete kernel with a mount table that can be read once *)
Record pk := mk_pk { pk_fds : gmap Z bytes; pk_mnt : gmap bytes MountInfo; pk_done : bool }.

Definition pk_text (w : pk) : bytes :=
  render ((λ e, mk_line (mi_dev e.2) e.1 (mi_fs e.2)) <$> map_to_list (pk_mnt w)).

#[export] Instance pk_lkl : Lkl pk := {|
  sys_open p f w :=
    if bool_decide (pk_fds w !! 3 = None) then (3, mk_pk (<[3 := p]> (pk_fds w)) (pk_mnt w) false) else (- LKL_ENOENT, w);
  sys_close fd w := (0, mk_pk (delete fd (pk_fds w)) (pk_mnt w) (pk_done w));
  sys_read fd n w :=
    if pk_done w then ((0, []), w)
    else if len (pk_text w) <=? n then ((len (pk_text w), pk_text w), mk_pk (pk_fds w) (pk_mnt w) true)
    else ((- LKL_EINVAL, []), w);
  sys_pread64 fd n off w := ((-9, []), w); sys_readlink p n w := ((-2, []), w); sys_access p w := (0, w);
  sys_mkdir p m w := (0, w); sys_rmdir p w := (0, w); sys_unlink p w := (0, w); sys_mknod p m d w := (0, w);
  sys_blkroset fd ro w := (-9, w); sys_blkrrpart fd w := (-9, w); sys_dm_ioctl fd c a w := ((-9, a), w);
  sys_mount d m t f o w := (- LKL_ENXIO, w);
  sys_umount m w :=
    if bool_decide (is_Some (pk_mnt w !! m)) then (0, mk_pk (pk_fds w) (delete m (pk_mnt w)) (pk_done w))
    else (- LKL_EINVAL, w);
  sys_sync w := (0, w); sys_nanosleep ms w := (0, w); sys_opendir p w := (None, w); sys_closedir h w := (0, mk_pk (delete h (pk_fds w)) (pk_mnt w) (pk_done w)); get_virtio_blkdev d p w := ((-1, 0), w) |}.

#[export] Instance pk_laws : LklLaws pk.
Proof.
  refine {| view := λ w, mk_view (pk_fds w) (pk_mnt w) ∅ ∅ |}; intros; cbn -[pk_text] in *; simplify_eq; try done;
    try (by split_and!; [| |lia]); try (by left).
  - case_bool_decide; simplify_eq; [right|by left]. done.
  - repeat case_match; simplify_eq; (split; [done|]); zify_bools; unfold LKL_EINVAL; cbn [length]; lia.
  - case_bool_decide; simplify_eq; [by right|by left].
Defined.

(** Beside it a host with a bus. *)
Definition world : Type := toy_bus * pk.
Definition kleft {A} (f : kcall toy_bus A) : kcall world A := λ sw, ((f sw.1).1, ((f sw.1).2, sw.2)).

#[export] Instance world_lkl : Lkl world := lift_lkl.
#[export] Instance world_laws : LklLaws world := lift_lkl_laws.
#[export] Instance world_io : HostIO world := {|
  h_open p rw := kleft (h_open p rw); h_fstat fd := kleft (h_fstat fd); h_getsize64 fd := kleft (h_getsize64 fd);
  h_pread fd n off := kleft (h_pread fd n off); h_pwrite fd b off := kleft (h_pwrite fd b off);
  h_fsync fd := kleft (h_fsync fd); h_close fd := kleft (h_close fd); h_calloc := kleft h_calloc; h_error := kleft h_error |}.
#[export] Instance world_disks : Disks world := {|
  lkl_disk_add d := kleft (lkl_disk_add d); lkl_disk_remove d := kleft (lkl_disk_remove d);
  ext_open b p f := kleft (ext_open b p f); ext_close b h := kleft (ext_close b h) |}.
#[export] Instance world_ops : KernelOps world := {|
  lkl_init w := (0, w); lkl_change_tls_mode w := ((), w); lkl_start_kernel a w := (0, w); lkl_sysctl k v w := (0, w);
  lkl_sys_halt w := (0, w); lkl_cleanup w := ((), w); qemu_backend_shutdown w := ((), w) |}.

Ltac unleft H :=
  unfold kleft in H;
  match type of H with
  | (?x.1, (?x.2, _)) = _ => let E := fresh "E" in destruct x as [? ?] eqn:E; cbn [fst snd] in H; simplify_eq
  end.

#[export] Instance world_io_laws : HostIOLaws world.
Proof.
  refine {| iov := λ sw, iov sw.1 |}; intros; cbn [h_open h_fstat h_getsize64 h_pread h_pwrite h_fsync h_close
    h_calloc h_error world_io] in *; try match goal with H : kleft _ _ = _ |- _ => unleft H end; cbn [fst snd].
  - by eapply io_open.
  - by eapply io_fstat.
  - by eapply io_getsize.
  - by eapply io_pread.
  - by eapply io_pwrite.
  - apply (io_fsync fd w.1).
  - apply (io_close fd w.1).
  - apply (io_calloc w.1).
  - apply (io_error w.1).
Defined.

#[export] Instance world_disks_laws : DisksLaws world.
Proof.
  refine {| dview := λ sw, dview sw.1 |}.
  - split; intros; [apply (keep_open (R := dview) p rw w.1)|apply (keep_fstat (R := dview) fd w.1)
      |apply (keep_getsize (R := dview) fd w.1)|apply (keep_close (R := dview) fd w.1)
      |apply (keep_calloc (R := dview) w.1)|apply (keep_error (R := dview) w.1)].
  - split; intros; [apply (keep_add (R := iov) d w.1)|apply (keep_remove (R := iov) d w.1)
      |apply (keep_ext_open (R := iov) b p f w.1)|apply (keep_ext_close (R := iov) b h w.1)].
  - intros d w r d' w' H. cbn [lkl_disk_add world_disks] in H. unleft H. by eapply dl_add.
  - intros d w H. by apply (dl_remove d w.1).
  - intros b p f w r w' H. cbn [ext_open world_disks] in H. unleft H. by eapply dl_ext_open in E.
  - intros b h w. apply (dl_ext_close b h w.1).
Defined.

#[export] Instance world_k1 : LklKeeps (dview (W := world)).
Proof. by split. Qed.
#[export] Instance world_k2 : LklKeeps (iov (W := world)).
Proof. by split. Qed.
#[export] Instance world_k3 {X} (R : world → X) : ExitKeeps R.
Proof. by split. Qed.
#[export] Instance world_k4 : HostKeeps (view (W := world)).
Proof. by split. Qed.
#[export] Instance world_k5 : DiskKeeps (view (W := world)).
Proof. split; intros; cbn; try case_bool_decide; done. Qed.

(** A running kernel: one image attached, one mount of ours and one other. *)
Definition pk0 : pk :=
  mk_pk ∅ {[ bs "/lklmnt/a" := mk_mi (bs "/dev/vda1") (bs "ext4") true None;
             bs "/proc" := mk_mi (bs "proc") (bs "proc") false None ]} false.
Definition world0 : world := (bus0, pk0).
Definition kg0 : KG := mk_kg globals0 true 1.
Definition pk_left (w : world) : nat := if pk_done w.2 then 0 else 1.

Lemma world_umount : umount_ok (W := world).
Proof. intros p w H. cbn in *. by rewrite bool_decide_true. Qed.

Lemma world_reads : reads_end (W := world) pk_left.
Proof.
  split.
  - intros fd n w. unfold pk_left. cbn -[pk_text]. destruct (pk_done w.2) eqn:E; [cbn; lia|]. case_if; unfold LKL_EINVAL; cbn; lia.
  - intros p w. unfold pk_left. cbn. case_bool_decide; cbn; lia.
Qed.

Lemma world_fits : table_fits (sys_sync world0).2.
Proof.
  intros fd w' H. change ((3, (bus0, mk_pk (<[3 := bs "/proc/mounts"]> ∅) (pk_mnt pk0) false)) = (fd, w')) in H.
  injection H as <- <-. split; [lia|].
  exists ((λ e, mk_line (mi_dev e.2) e.1 (mi_fs e.2)) <$> map_to_list (pk_mnt pk0)). split_and!.
  - vm_compute. reflexivity.
  - vm_compute. repeat constructor; set_solver.
  - apply CStr_bs_dec. vm_compute. reflexivity.
  - intros p [mi H]. cbn in H. rewrite <- list_fmap_compose. apply list_elem_of_fmap.
    exists (p, mi). split; [done|]. by apply elem_of_map_to_list.
Qed.

(** ** Properties *)

(** A fatal error is reported exactly once, whatever the threads do: for
    any number of threads that call anyfs_fatal, in any interleaving of their
    atomic steps and with the hook changing at any time, at most one report is
    made, its reason (cut to 511 bytes) is one of the callers', and when all
    calls have returned there was one. *)
Theorem fatal_reported_once texts hook ts s :
  fatal_run (FExchange <$> texts, mk_fatal hook false []) (ts, s) →
  (length (f_events s) <= 1)%nat ∧
  Forall (λ e, event_reason e ∈ fatal_reason <$> texts) (f_events s) ∧
  (texts ≠ [] → Forall (λ pc, pc = FDone) ts → length (f_events s) = 1%nat).
Proof.
  intros Hr. assert (I := FInv_run texts _ _ Hr (FInv_init texts hook)). cbn in I.
  assert (Hl : length ts = length texts).
  { assert (Hg : ∀ c c', fatal_run c c' → length c'.1 = length c.1).
    { induction 1; cbn in *; [done|by rewrite length_insert|done]. }
    apply Hg in Hr. cbn in Hr. by rewrite length_fmap in Hr. }
  split_and!; [|apply I|].
  - destruct (g_fatal_reported s) eqn:E; [pose proof (fi_once _ _ _ I E); lia|]. destruct (fi_fresh _ _ _ I E) as [-> _]. cbn; lia.
  - intros Hne Hd. destruct (g_fatal_reported s) eqn:E.
    + pose proof (fi_once _ _ _ I E). assert (reporters ts = 0%nat); [|lia]. clear -Hd.
      induction Hd as [|? ? -> _ IH]; [done|]. cbn. lia.
    + destruct (fi_fresh _ _ _ I E) as [_ Hf]. destruct ts as [|t ts]; [by destruct texts|].
      apply Forall_cons in Hd as [-> _]. apply Forall_cons in Hf as [[? ?] _]. done.
Qed.

Lemma fatal_reported_once_witness :
  (length (f_events (mk_fatal None true [PrintedAndExited (bs "b")])) <= 1)%nat ∧
  Forall (λ e, event_reason e ∈ fatal_reason <$> [bs "a"; bs "b"]) (f_events (mk_fatal None true [PrintedAndExited (bs "b")])) ∧
  ([bs "a"; bs "b"] ≠ [] → Forall (λ pc, pc = FDone) [FDone; FDone] →
   length (f_events (mk_fatal None true [PrintedAndExited (bs "b")])) = 1%nat).
Proof.
  apply (fatal_reported_once [bs "a"; bs "b"] None [FDone; FDone]).
  apply (run_step _ _ [FDone; FReport (bs "b") None] (mk_fatal None true []) 1%nat (FReport (bs "b") None) FDone); [|reflexivity..].
  apply (run_step _ _ [FDone; FLoad (bs "b")] (mk_fatal None true []) 1%nat (FLoad (bs "b")) (FReport (bs "b") None)); [|reflexivity..].
  apply (run_step _ _ [FExchange (bs "a"); FLoad (bs "b")] (mk_fatal None true []) 0%nat (FExchange (bs "a")) FDone); [|reflexivity..].
  apply (run_step _ _ [FExchange (bs "a"); FExchange (bs "b")] (mk_fatal None false []) 1%nat (FExchange (bs "b")) (FLoad (bs "b"))); [|reflexivity..].
  apply run_refl.
Defined.

(** C15 The exit handler: with a running kernel it unmounts everything under
    /lklmnt/ and nothing else, detaches every disk and closes what its backend
    held, leaves the table of disks empty and the flag of a started kernel
    cleared, and returns.  The disk table agrees with the bus at the start; the
    mount table must fit one read, a mount must not be busy, and a read must
    make progress. *)
Theorem atexit_cleans {W} `{!Lkl W, !LklLaws W, !HostIO W, !HostIOLaws W, !Disks W, !DisksLaws W, !KernelOps W}
    `{!LklKeeps (dview (W := W)), !LklKeeps (iov (W := W)), !ExitKeeps (dview (W := W)), !ExitKeeps (iov (W := W)),
      !ExitKeeps (view (W := W)), !HostKeeps (view (W := W)), !DiskKeeps (view (W := W))}
    (left : W → nat) q fuel base k (w : W) :
  umount_ok (W := W) → reads_end left → table_fits (sys_sync w).2 → DInv base (kg k) w → g_kernel_started k = true →
  (∀ fd w', sys_open (bs "/proc/mounts") LKL_O_RDONLY (sys_sync w).2 = (fd, w') → (left w' < fuel)%nat) →
  wp (anyfs_atexit_cleanup q fuel) (λ _, cleaned base (v_mnt (view w))) (k, w).
Proof. intros. by eapply wp_atexit. Qed.

Lemma atexit_cleans_witness :
  wp (anyfs_atexit_cleanup false 3) (λ _, cleaned (held world0) (v_mnt (view world0))) (kg0, world0).
Proof.
  refine (atexit_cleans pk_left false 3 (held world0) kg0 world0 world_umount world_reads world_fits
            (DInv_empty globals0 world0 eq_refl eq_refl) eq_refl _).
  intros fd w' H. change ((3, (bus0, mk_pk (<[3 := bs "/proc/mounts"]> ∅) (pk_mnt pk0) false)) = (fd, w')) in H.
  injection H as <- <-. cbn. lia.
Defined.

Example atexit_toy :
  match anyfs_atexit_cleanup false 3 (kg0, world0) with
  | Some (_, (k, w)) => Some (g_kernel_started k, map fst (map_to_list (pk_mnt w.2)))
  | None => None
  end = Some (false, [bs "/proc"]).
Proof. vm_compute. reflexivity. Qed.

(** Starting the kernel: a second start is a no-op; a first one ends
    running with one more exit handler, or returns -1 and is not running; the
    backends of the build are registered and no disk is touched. *)
Theorem kernel_init_correct {W} `{!Lkl W, !KernelOps W} q gio opts k (w : W) :
  wp (anyfs_kernel_init q gio opts) (λ r s',
    if g_kernel_started k then r = 0 ∧ s' = (k, w) else started q gio k r s'.1) (k, w).
Proof. apply wp_init. Qed.

Example init_toy :
  match anyfs_kernel_init true false (Some (mk_opts 0 7)) (mk_kg globals0 false 0, world0) with
  | Some (r, (k, _)) => Some (r, g_kernel_started k, anyfs_find_backend (bs "qemu") (kg k), anyfs_find_backend (bs "gio") (kg k))
  | None => None
  end = Some (0, true, Some qemu_backend_ops, None).
Proof. vm_compute. reflexivity. Qed.

End Kernel.
