(* ===== verification/Ring.v ===== *)
(** * Ring

    src/host_proxy/host_proxy.c: the single-producer single-consumer ring
    between the host thread and the LKL thread.  The four helpers are the
    code's; the two threads are a step relation whose steps are one atomic
    access or one byte copied, so that every interleaving is covered.  The
    counters are 64-bit and wrap around. *)
From S2P Require Import Prelude.

Module Ring.

(** ** The code *)

(** The capacity is 2^c; RING_CAP has c = 22. *)
Definition RING_SHIFT : Z := 22.

Record ring := mk_ring { buf : bytes; head : Z; tail : Z }.

Section Code.
Context (c : Z).
Definition RING_CAP : Z := 2 ^ c.
Definition RING_MASK : Z := RING_CAP - 1.

(** From the loaded counters: the length and the offset. *)
Definition ring_writable (h t : Z) : Z * Z :=
  let freeb := u64 (RING_CAP - u64 (h - t)) in
  let off := Z.land h RING_MASK in
  let until := RING_CAP - off in
  (if freeb <? until then freeb else until, off).

Definition ring_readable (h t : Z) : Z * Z :=
  let avail := u64 (h - t) in
  let off := Z.land t RING_MASK in
  let until := RING_CAP - off in
  (if avail <? until then avail else until, off).

Definition ring_pcommit (n : Z) (r : ring) : ring := mk_ring (buf r) (u64 (head r + n)) (tail r).
Definition ring_ccommit (n : Z) (r : ring) : ring := mk_ring (buf r) (head r) (u64 (tail r + n)).
Definition ring_empty (r : ring) : bool := head r =? tail r.
(** The reset of a ring whose reader and writer are both gone, at a forced close
    ([HostProxy.force_close]); it is no access of the two threads. *)
Definition ring_drain (r : ring) : ring := mk_ring (buf r) (head r) (head r).

(** ** The two threads

    The producer loads head and tail, lets the kernel store up to k bytes
    in the ring and commits what it got; the consumer loads head and tail,
    lets the kernel take up to k bytes and commits those. *)
Inductive ppc :=
  | PIdle
  | PTail (h : Z)
  | PReady (k off : Z)
  | PCopy (off : Z) (j : nat) (data : bytes).
Inductive cpc :=
  | CIdle
  | CHead (h : Z)
  | CReady (k off : Z)
  | CCopy (off : Z) (n : nat) (acc : bytes).

(** [sent] is what the producer has committed, [got] what the consumer has. *)
Record conf := mk_conf { ring_of : ring; pc : ppc; cc : cpc; sent : bytes; got : bytes }.

Inductive step : conf → conf → Prop :=
  | p_load_head r q s g : step (mk_conf r PIdle q s g) (mk_conf r (PTail (head r)) q s g)
  | p_load_tail r h q s g :
      let '(k, off) := ring_writable h (tail r) in
      step (mk_conf r (PTail h) q s g) (mk_conf r (if k =? 0 then PIdle else PReady k off) q s g)
  | p_nothing r k off q s g : step (mk_conf r (PReady k off) q s g) (mk_conf r PIdle q s g)
  | p_read r k off data q s g : 0 < len data <= k →
      step (mk_conf r (PReady k off) q s g) (mk_conf r (PCopy off 0 data) q s g)
  | p_copy r off j data x q s g : data !! j = Some x →
      step (mk_conf r (PCopy off j data) q s g)
           (mk_conf (mk_ring (<[Z.to_nat off + j := x]>%nat (buf r)) (head r) (tail r)) (PCopy off (S j) data) q s g)
  | p_commit r off data q s g :
      step (mk_conf r (PCopy off (length data) data) q s g)
           (mk_conf (ring_pcommit (len data) r) PIdle q (s ++ data) g)
  | c_load_head r p s g : step (mk_conf r p CIdle s g) (mk_conf r p (CHead (head r)) s g)
  | c_load_tail r h p s g :
      let '(k, off) := ring_readable h (tail r) in
      step (mk_conf r p (CHead h) s g) (mk_conf r p (if k =? 0 then CIdle else CReady k off) s g)
  | c_nothing r k off p s g : step (mk_conf r p (CReady k off) s g) (mk_conf r p CIdle s g)
  | c_write r k off n p s g : 0 < Z.of_nat n <= k →
      step (mk_conf r p (CReady k off) s g) (mk_conf r p (CCopy off n []) s g)
  | c_copy r off n acc x p s g : (length acc < n)%nat → buf r !! (Z.to_nat off + length acc)%nat = Some x →
      step (mk_conf r p (CCopy off n acc) s g) (mk_conf r p (CCopy off n (acc ++ [x])) s g)
  | c_commit r off n acc p s g : length acc = n →
      step (mk_conf r p (CCopy off n acc) s g)
           (mk_conf (ring_ccommit (Z.of_nat n) r) p CIdle s (g ++ acc)).

Definition start : conf := mk_conf (mk_ring (replicate (Z.to_nat RING_CAP) 0) 0 0) PIdle CIdle [] [].

Inductive reachable : conf → Prop :=
  | reach_start : reachable start
  | reach_step x y : reachable x → step x y → reachable y.
End Code.

(** ** Counters that wrap *)
Section Counters.
Context (c : Z) (Hc : 0 <= c < 64).
Notation cap := (RING_CAP c).

Lemma cap_pos : 0 < cap.
Proof. apply Z.pow_pos_nonneg; lia. Qed.

Lemma cap_div : (cap | 2 ^ 64).
Proof. exists (2 ^ (64 - c)). unfold RING_CAP. rewrite <- Z.pow_add_r by lia. f_equal. lia. Qed.

Lemma cap_lt : cap < 2 ^ 64.
Proof. unfold RING_CAP. apply Z.pow_lt_mono_r; lia. Qed.

Lemma mask_u64 x : Z.land (u64 x) (RING_MASK c) = x mod cap.
Proof.
  unfold RING_MASK, RING_CAP. rewrite Z.sub_1_r, <- Z.ones_equiv, Z.land_ones by lia. unfold u64.
  symmetry. apply Znumtheory.Zmod_div_mod; [apply cap_pos|lia|apply cap_div].
Qed.

Lemma u64_diff H T : 0 <= H - T <= cap → u64 (u64 H - u64 T) = H - T.
Proof.
  intros Hd. unfold u64. rewrite <- Zminus_mod. apply Z.mod_small. pose proof cap_lt. lia.
Qed.

Lemma writable_spec H T : 0 <= H - T <= cap →
  ring_writable c (u64 H) (u64 T) = (Z.min (cap - (H - T)) (cap - H mod cap), H mod cap).
Proof.
  intros Hd. unfold ring_writable. rewrite u64_diff, mask_u64 by done. pose proof cap_lt.
  rewrite u64_small by lia. f_equal. case_if; zify_bools; lia.
Qed.

Lemma readable_spec H T : 0 <= H - T <= cap →
  ring_readable c (u64 H) (u64 T) = (Z.min (H - T) (cap - T mod cap), T mod cap).
Proof. intros Hd. unfold ring_readable. rewrite u64_diff, mask_u64 by done. f_equal. case_if; zify_bools; lia. Qed.

Lemma u64_add x n : u64 (u64 x + n) = u64 (x + n).
Proof. unfold u64. by rewrite Zplus_mod_idemp_l. Qed.

(** Positions less than a capacity apart have different cells. *)
Lemma cell_ne i j : 0 <= i → i < j < i + cap → (Z.to_nat (i mod cap) ≠ Z.to_nat (j mod cap))%nat.
Proof.
  intros Hi Hj E. pose proof cap_pos. pose proof (Z.mod_pos_bound i cap). pose proof (Z.mod_pos_bound j cap).
  assert (Em : i mod cap = j mod cap) by lia.
  pose proof (Z.div_mod i cap ltac:(lia)) as Di. pose proof (Z.div_mod j cap ltac:(lia)) as Dj.
  assert (Hq : j - i = cap * (j / cap - i / cap)) by lia. destruct (Z.le_gt_cases (j / cap - i / cap) 0); nia.
Qed.

Lemma cell_add x j : 0 <= x → 0 <= j → x mod cap + j < cap → (x + j) mod cap = x mod cap + j.
Proof.
  intros Hx Hj Hl. pose proof cap_pos. pose proof (Z.mod_pos_bound x cap).
  rewrite <- (Zplus_mod_idemp_l x j cap). apply Z.mod_small. lia.
Qed.
End Counters.

(** ** The invariant *)
Section Fifo.
Context (c : Z) (Hc : 0 <= c < 64).
Notation cap := (RING_CAP c).

(** The cell of position [i] holds the byte sent at [i]. *)
Definition holds (b s : bytes) (i : Z) : Prop := b !! Z.to_nat (i mod cap) = s !! Z.to_nat i.

(** The room of the producer: [k] bytes from position [H]. *)
Definition room (H T k off : Z) : Prop := off = H mod cap ∧ 0 <= k ∧ off + k <= cap ∧ H + k <= T + cap.
Definition stock (H T k off : Z) : Prop := off = T mod cap ∧ 0 <= k ∧ off + k <= cap ∧ T + k <= H.

Definition producer_ok (H T : Z) (b : bytes) (p : ppc) : Prop :=
  match p with
  | PIdle => True
  | PTail h => h = u64 H
  | PReady k off => room H T k off
  | PCopy off j data => room H T (len data) off ∧ (j <= length data)%nat ∧
      ∀ i, (i < j)%nat → b !! Z.to_nat ((H + Z.of_nat i) mod cap) = data !! i
  end.

Definition consumer_ok (H T : Z) (s : bytes) (q : cpc) : Prop :=
  match q with
  | CIdle => True
  | CHead h => ∃ H0, h = u64 H0 ∧ T <= H0 <= H
  | CReady k off => stock H T k off
  | CCopy off n acc => stock H T (Z.of_nat n) off ∧ (length acc <= n)%nat ∧
      acc = take (length acc) (drop (Z.to_nat T) s)
  end.

Record Inv (x : conf) : Prop := {
  inv_len : len (buf (ring_of x)) = cap;
  inv_head : head (ring_of x) = u64 (len (sent x));
  inv_tail : tail (ring_of x) = u64 (len (got x));
  inv_room : len (got x) <= len (sent x) <= len (got x) + cap;
  inv_got : got x = take (length (got x)) (sent x);
  inv_cells i : len (got x) <= i < len (sent x) → holds (buf (ring_of x)) (sent x) i;
  inv_p : producer_ok (len (sent x)) (len (got x)) (buf (ring_of x)) (pc x);
  inv_c : consumer_ok (len (sent x)) (len (got x)) (sent x) (cc x) }.

Lemma Inv_start : Inv (start c).
Proof.
  pose proof (cap_pos c Hc). split; cbn; try done.
  - rewrite length_replicate. lia.
  - lia.
  - intros i Hi. lia.
Qed.

(** The consumer never sees a position the producer is writing. *)
Lemma holds_insert b s H T i j x : 0 <= T → T <= i < H → 0 <= j → H + j < T + cap → H mod cap + j < cap →
  holds b s i → holds (<[(Z.to_nat (H mod cap) + Z.to_nat j)%nat := x]> b) s i.
Proof.
  intros HT Hi Hj Hr Hk Hh. unfold holds in *. rewrite list_lookup_insert_ne; [done|].
  pose proof (cell_ne c Hc i (H + j)). pose proof (Z.mod_pos_bound H cap (cap_pos c Hc)).
  rewrite (cell_add c Hc) in * by lia. rewrite Z2Nat.inj_add in * by lia. intros E. by apply H0; [lia..|].
Qed.

Ltac open_inv I := destruct I as [Hl Hh Ht Hr Hg Hcell Hp Hq];
  cbn [ring_of pc cc sent got buf head tail producer_ok consumer_ok] in *.

Lemma Inv_p_load r h q s g : Inv (mk_conf r (PTail h) q s g) →
  Inv (mk_conf r (let '(k, off) := ring_writable c h (tail r) in if k =? 0 then PIdle else PReady k off) q s g).
Proof.
  intros I. pose proof (cap_pos c Hc). open_inv I.
  rewrite Hp, Ht, (writable_spec c Hc) by lia.
  pose proof (Z.mod_pos_bound (len s) cap ltac:(lia)).
  split; cbn [ring_of pc cc sent got]; try done. case_if; [done|]. cbn [producer_ok]. unfold room. split_and!; [done|lia..].
Qed.

Lemma Inv_c_load r h p s g : Inv (mk_conf r p (CHead h) s g) →
  Inv (mk_conf r p (let '(k, off) := ring_readable c h (tail r) in if k =? 0 then CIdle else CReady k off) s g).
Proof.
  intros I. pose proof (cap_pos c Hc). open_inv I. destruct Hq as (H0 & -> & HH).
  rewrite Ht, (readable_spec c Hc) by lia.
  pose proof (Z.mod_pos_bound (len g) cap ltac:(lia)).
  split; cbn [ring_of pc cc sent got]; try done. case_if; [done|]. cbn [consumer_ok]. unfold stock. split_and!; [done|lia..].
Qed.

Lemma Inv_p_copy r off j data x q s g : data !! j = Some x → Inv (mk_conf r (PCopy off j data) q s g) →
  Inv (mk_conf (mk_ring (<[(Z.to_nat off + j)%nat := x]> (buf r)) (head r) (tail r)) (PCopy off (S j) data) q s g).
Proof.
  intros Hx I. pose proof (cap_pos c Hc). open_inv I. destruct Hp as ((-> & _ & Hk & Hroom) & Hj & Hd).
  apply lookup_lt_Some in Hx as Hlt. pose proof (Z.mod_pos_bound (len s) cap ltac:(lia)).
  assert (Hcl : (Z.to_nat (len s mod cap) + j)%nat = Z.to_nat ((len s + Z.of_nat j) mod cap))
    by (rewrite (cell_add c Hc) by lia; lia).
  split; cbn [ring_of pc cc sent got buf head tail producer_ok]; try done.
  - by rewrite length_insert.
  - intros i Hi. replace j with (Z.to_nat (Z.of_nat j)) at 1 by lia.
    apply (holds_insert _ _ _ (len g)); [lia..|by apply Hcell].
  - split; [unfold room; split_and!; [done|lia..]|]. split; [lia|]. intros i Hi. rewrite Hcl. destruct (decide (i = j)) as [->|].
    + rewrite list_lookup_insert_eq; [done|]. pose proof (Z.mod_pos_bound (len s + Z.of_nat j) cap ltac:(lia)). lia.
    + rewrite list_lookup_insert_ne; [apply Hd; lia|]. apply not_eq_sym, (cell_ne c Hc); lia.
Qed.

Lemma Inv_p_commit r off data q s g : Inv (mk_conf r (PCopy off (length data) data) q s g) →
  Inv (mk_conf (ring_pcommit (len data) r) PIdle q (s ++ data) g).
Proof.
  intros I. pose proof (cap_pos c Hc). open_inv I. destruct Hp as ((-> & _ & Hk & Hroom) & _ & Hd).
  assert (Hlg : (length g <= length s)%nat) by lia.
  split; cbn [ring_of pc cc sent got buf head tail ring_pcommit producer_ok]; try done.
  - rewrite Hh, u64_add, length_app. f_equal. lia.
  - rewrite length_app. lia.
  - rewrite take_app_le by done. done.
  - intros i Hi. rewrite length_app in Hi. unfold holds in *. destruct (Z.lt_ge_cases i (len s)).
    + rewrite lookup_app_l by lia. apply Hcell. lia.
    + rewrite lookup_app_r by lia. rewrite <- (Hd (Z.to_nat i - length s)%nat) by lia. do 3 f_equal. lia.
  - destruct q as [|h|k off|off n acc]; cbn [consumer_ok] in *; [done| | |].
    + destruct Hq as (H0 & ? & ?). exists H0. rewrite length_app. split; [done|lia].
    + destruct Hq as (? & ? & ? & ?). unfold stock. rewrite length_app. split_and!; [done|lia..].
    + destruct Hq as ((? & ? & ? & Hs) & ? & Ha). unfold stock. rewrite length_app. split_and!; [done|lia..|].
      rewrite Nat2Z.id in *. rewrite drop_app_le, take_app_le; [done|rewrite length_drop; lia|lia].
Qed.

Lemma Inv_c_copy r off n acc x p s g : (length acc < n)%nat → buf r !! (Z.to_nat off + length acc)%nat = Some x →
  Inv (mk_conf r p (CCopy off n acc) s g) → Inv (mk_conf r p (CCopy off n (acc ++ [x])) s g).
Proof.
  intros Hn Hx I. pose proof (cap_pos c Hc). open_inv I. destruct Hq as ((-> & Hk0 & Hk & Hs) & _ & Ha).
  split; cbn [ring_of pc cc sent got consumer_ok]; try done.
  split; [done|]. rewrite length_app. cbn [length]. split; [lia|]. rewrite Nat.add_1_r. rewrite (take_S_r _ _ x); [by rewrite <- Ha|].
  pose proof (Z.mod_pos_bound (len g) cap ltac:(lia)).
  rewrite lookup_drop, Nat2Z.id. specialize (Hcell (len g + len acc) ltac:(lia)). unfold holds in Hcell.
  rewrite (cell_add c Hc) in Hcell by lia. rewrite !Z2Nat.inj_add, !Nat2Z.id in Hcell by lia. by rewrite <- Hcell.
Qed.

Lemma Inv_c_commit r off acc p s g : Inv (mk_conf r p (CCopy off (length acc) acc) s g) →
  Inv (mk_conf (ring_ccommit (len acc) r) p CIdle s (g ++ acc)).
Proof.
  intros I. pose proof (cap_pos c Hc). open_inv I. destruct Hq as ((-> & Hk0 & Hk & Hs) & _ & Ha).
  rewrite Nat2Z.id in Ha.
  split; cbn [ring_of pc cc sent got buf head tail ring_ccommit consumer_ok]; try done.
  - rewrite Ht, u64_add, length_app. f_equal. lia.
  - rewrite length_app. lia.
  - rewrite length_app. rewrite Hg at 1. rewrite Ha at 1. by rewrite take_take_drop.
  - intros i Hi. apply Hcell. rewrite length_app in Hi. lia.
  - destruct p as [|h|k off|off j data]; cbn [producer_ok] in *; [done|done| |].
    + destruct Hp as (? & ? & ? & ?). unfold room. rewrite length_app. split_and!; [done|lia..].
    + destruct Hp as ((? & ? & ? & ?) & ? & ?). unfold room. rewrite length_app. split_and!; [done|lia..|done].
Qed.

Lemma Inv_step x y : Inv x → step c x y → Inv y.
Proof.
  intros I Hs. destruct Hs.
  - open_inv I. by split.
  - by apply Inv_p_load in I.
  - open_inv I. by split.
  - open_inv I. split; cbn [ring_of pc cc sent got producer_ok]; try done. unfold room in *.
    split_and!; [apply Hp|lia|lia|lia|lia|lia].
  - by apply Inv_p_copy.
  - by eapply Inv_p_commit.
  - open_inv I. split; try done. cbn. exists (len s). split; [done|lia].
  - by apply Inv_c_load in I.
  - open_inv I. by split.
  - open_inv I. split; cbn [ring_of pc cc sent got consumer_ok]; try done. unfold stock in *.
    split_and!; [apply Hq|lia|lia|lia|cbn; lia|done].
  - by apply Inv_c_copy.
  - subst n. by eapply Inv_c_commit.
Qed.

Lemma Inv_reachable x : reachable c x → Inv x.
Proof. induction 1 as [|x y _ IH Hs]; [apply Inv_start|by eapply Inv_step]. Qed.
End Fifo.

(** ** Properties *)

(** C7 The ring is a FIFO channel of RING_CAP bytes, in every interleaving of
    the producer and the consumer and however long they run: what the consumer
    has taken is a prefix of what the producer has committed, at most
    RING_CAP bytes are in between, and [ring_empty] holds exactly when nothing
    is.  The 64-bit counters may wrap around. *)
Theorem ring_fifo c x : 0 <= c < 64 → reachable c x →
  got x `prefix_of` sent x ∧ 0 <= len (sent x) - len (got x) <= RING_CAP c ∧
  (ring_empty (ring_of x) = true ↔ got x = sent x).
Proof.
  intros Hc Hx. destruct (Inv_reachable c Hc x Hx) as [_ Hh Ht Hr Hg _ _ _].
  split; [rewrite Hg; apply prefix_take|]. split; [lia|].
  unfold ring_empty. rewrite Hh, Ht, Z.eqb_eq. split.
  - intros E. pose proof (u64_diff c Hc (len (sent x)) (len (got x))) as Hd. rewrite E, Z.sub_diag in Hd.
    change (u64 0) with 0 in Hd. rewrite Hg. apply take_ge. lia.
  - by intros ->.
Qed.

(** The ring never blocks for nothing and never touches memory outside its
    buffer: the producer is offered room unless the ring is full, the consumer
    is offered data unless it is empty, and the ranges offered lie in the
    buffer; a copy in progress always has its next byte. *)
Theorem ring_progress c x : 0 <= c < 64 → reachable c x →
  let H := len (sent x) in
  let T := len (got x) in
  (∀ k off, ring_writable c (head (ring_of x)) (tail (ring_of x)) = (k, off) →
     0 <= off ∧ 0 <= k ∧ off + k <= len (buf (ring_of x)) ∧ (k = 0 ↔ H - T = RING_CAP c)) ∧
  (∀ k off, ring_readable c (head (ring_of x)) (tail (ring_of x)) = (k, off) →
     0 <= off ∧ 0 <= k ∧ off + k <= len (buf (ring_of x)) ∧ (k = 0 ↔ H = T)) ∧
  (∀ off j data, pc x = PCopy off j data → (j < length data)%nat → Z.to_nat off + j < length (buf (ring_of x)))%nat ∧
  (∀ off n acc, cc x = CCopy off n acc → (length acc < n)%nat →
     is_Some (buf (ring_of x) !! (Z.to_nat off + length acc)%nat)).
Proof.
  intros Hc Hx H T. pose proof (cap_pos c Hc). destruct (Inv_reachable c Hc x Hx) as [Hl Hh Ht Hr Hg _ Hp Hq].
  pose proof (Z.mod_pos_bound H (RING_CAP c) ltac:(lia)). pose proof (Z.mod_pos_bound T (RING_CAP c) ltac:(lia)).
  split_and!.
  - intros k off. rewrite Hh, Ht, (writable_spec c Hc) by lia. intros [= <- <-]. fold H T. lia.
  - intros k off. rewrite Hh, Ht, (readable_spec c Hc) by lia. intros [= <- <-]. fold H T. lia.
  - intros off j data E Hj. rewrite E in Hp. destruct Hp as ((-> & _ & Hk & _) & _). fold H in Hk |- *. lia.
  - intros off n acc E Hn. rewrite E in Hq. destruct Hq as ((-> & _ & Hk & _) & _). apply lookup_lt_is_Some_2.
    fold T in Hk |- *. lia.
Qed.

(** A run of a ring of 4 bytes: two bytes are written, one is taken. *)
Definition demo : conf :=
  mk_conf (mk_ring [7; 8; 0; 0] 2 1) PIdle CIdle [7; 8] [7].

Lemma demo_reachable : reachable 2 demo.
Proof.
  pose (r0 := mk_ring [0; 0; 0; 0] 0 0). pose (r1 := mk_ring [7; 0; 0; 0] 0 0). pose (r2 := mk_ring [7; 8; 0; 0] 0 0).
  pose (r3 := mk_ring [7; 8; 0; 0] 2 0).
  assert (H1 : reachable 2 (mk_conf r0 (PTail 0) CIdle [] [])).
  { eapply reach_step; [apply reach_start|]. exact (p_load_head 2 r0 CIdle [] []). }
  assert (H2 : reachable 2 (mk_conf r0 (PReady 4 0) CIdle [] [])).
  { eapply reach_step; [exact H1|]. exact (p_load_tail 2 r0 0 CIdle [] []). }
  assert (H3 : reachable 2 (mk_conf r0 (PCopy 0 0 [7; 8]) CIdle [] [])).
  { eapply reach_step; [exact H2|]. apply p_read. cbn; lia. }
  assert (H4 : reachable 2 (mk_conf r1 (PCopy 0 1 [7; 8]) CIdle [] [])).
  { eapply reach_step; [exact H3|]. exact (p_copy 2 r0 0 0 [7; 8] 7 CIdle [] [] eq_refl). }
  assert (H5 : reachable 2 (mk_conf r2 (PCopy 0 2 [7; 8]) CIdle [] [])).
  { eapply reach_step; [exact H4|]. exact (p_copy 2 r1 0 1 [7; 8] 8 CIdle [] [] eq_refl). }
  assert (H6 : reachable 2 (mk_conf r3 PIdle CIdle [7; 8] [])).
  { eapply reach_step; [exact H5|]. exact (p_commit 2 r2 0 [7; 8] CIdle [] []). }
  assert (H7 : reachable 2 (mk_conf r3 PIdle (CHead 2) [7; 8] [])).
  { eapply reach_step; [exact H6|]. exact (c_load_head 2 r3 PIdle [7; 8] []). }
  assert (H8 : reachable 2 (mk_conf r3 PIdle (CReady 2 0) [7; 8] [])).
  { eapply reach_step; [exact H7|]. exact (c_load_tail 2 r3 2 PIdle [7; 8] []). }
  assert (H9 : reachable 2 (mk_conf r3 PIdle (CCopy 0 1 []) [7; 8] [])).
  { eapply reach_step; [exact H8|]. apply c_write. lia. }
  assert (H10 : reachable 2 (mk_conf r3 PIdle (CCopy 0 1 [7]) [7; 8] [])).
  { eapply reach_step; [exact H9|]. exact (c_copy 2 r3 0 1 [] 7 PIdle [7; 8] [] ltac:(cbn; lia) eq_refl). }
  eapply reach_step; [exact H10|]. exact (c_commit 2 r3 0 1 [7] PIdle [7; 8] [] eq_refl).
Qed.

Lemma ring_fifo_witness :
  got demo `prefix_of` sent demo ∧ 0 <= len (sent demo) - len (got demo) <= RING_CAP 2 ∧
  (ring_empty (ring_of demo) = true ↔ got demo = sent demo).
Proof. exact (ring_fifo 2 demo ltac:(lia) demo_reachable). Defined.

Lemma ring_progress_witness :
  let w := ring_writable 2 (head (ring_of demo)) (tail (ring_of demo)) in
  0 <= w.2 ∧ 0 <= w.1 ∧ w.2 + w.1 <= len (buf (ring_of demo)) ∧
  (w.1 = 0 ↔ len (sent demo) - len (got demo) = RING_CAP 2).
Proof. exact (proj1 (ring_progress 2 demo ltac:(lia) demo_reachable) _ _ (surjective_pairing _)). Defined.

(** Counters that have wrapped: three bytes are in the ring, two of them before
    the end of the buffer. *)
Example wrap_example : ring_writable RING_SHIFT 1 (2 ^ 64 - 2) = (4194301, 1) ∧
  ring_readable RING_SHIFT 1 (2 ^ 64 - 2) = (2, 4194302).
Proof. split; vm_compute; reflexivity. Qed.

End Ring.
