(* ===== verification/Pipe.v ===== *)
(** * Pipe

    src/host_proxy/host_proxy.c: one direction of a proxied connection with
    its data: the thread that reads a socket into the ring and the thread
    that writes the other socket from it (the two halves of host_io and
    lkl_io), up to the half close.  A step is one access to shared memory or
    one system call; Ring shows that the ring is a queue, so here it is the
    bytes that went in and came out. *)
From S2P Require Import Prelude Threads Ring.

Module Pipe.

(** The reading thread (host_io for host to LKL, lkl_io for LKL to host): at
    the test of its end-of-file flag, with [k] bytes of room, with data read
    and not yet committed, at the store of the flag. *)
Inductive ppc := PTop | PRead (k : Z) | PCommit (d : bytes) | PEof.
(** The writing thread: at the test of its shut flag, with [k] bytes to
    write, after a write; then the half close: at the second test of the
    flag, at the load of end-of-file, at the loads of ring_empty, at the
    shutdown, at the store of the flag. *)
Inductive cpc := CTop | CWrite (k : Z) | CCommit (w : nat) | CShut | CEof | CHead | CTail (h : Z) | CDown | CStore.

(** [src] is what the first socket will give before it ends; [taken] counts
    what was read of it, [sent] went through the ring's head, [got] was
    written to the second socket and [freed] of it was released. *)
Record pipe := mk_pipe {
  taken : bytes; sent : bytes; got : bytes; freed : Z; read_eof : bool; wr_shut : bool; down : bool; pp : ppc; cp : cpc }.

Definition start : pipe := mk_pipe [] [] [] 0 false false false PTop CTop.

Section Code.
Context (cap : Z) (src : bytes).

Inductive step : pipe → pipe → Prop :=
  | p_room t s g f e w d c k : e = false → 0 < k <= cap - (len s - f) →
      step (mk_pipe t s g f e w d PTop c) (mk_pipe t s g f e w d (PRead k) c)
  | p_again t s g f e w d c k : step (mk_pipe t s g f e w d (PRead k) c) (mk_pipe t s g f e w d PTop c)
  | p_data t s g f e w d c k x rest : src = t ++ x ++ rest → 0 < len x <= k →
      step (mk_pipe t s g f e w d (PRead k) c) (mk_pipe (t ++ x) s g f e w d (PCommit x) c)
  | p_end t s g f e w d c k : src = t →
      step (mk_pipe t s g f e w d (PRead k) c) (mk_pipe t s g f e w d PEof c)
  | p_commit t s g f e w d c x : step (mk_pipe t s g f e w d (PCommit x) c) (mk_pipe t (s ++ x) g f e w d PTop c)
  | p_eof t s g f e w d c : step (mk_pipe t s g f e w d PEof c) (mk_pipe t s g f true w d PTop c)
  | c_stock t s g f e w d p k : w = false → 0 < k <= len s - f →
      step (mk_pipe t s g f e w d p CTop) (mk_pipe t s g f e w d p (CWrite k))
  | c_idle t s g f e w d p : step (mk_pipe t s g f e w d p CTop) (mk_pipe t s g f e w d p CShut)
  | c_again t s g f e w d p k : step (mk_pipe t s g f e w d p (CWrite k)) (mk_pipe t s g f e w d p CShut)
  | c_wrote t s g f e w d p k n : 0 < Z.of_nat n <= k →
      step (mk_pipe t s g f e w d p (CWrite k)) (mk_pipe t s (g ++ take n (drop (length g) s)) f e w d p (CCommit n))
  | c_commit t s g f e w d p n : step (mk_pipe t s g f e w d p (CCommit n)) (mk_pipe t s g (f + Z.of_nat n) e w d p CTop)
  | c_shut t s g f e w d p : step (mk_pipe t s g f e w d p CShut) (mk_pipe t s g f e w d p (if w then CTop else CEof))
  | c_eof t s g f e w d p : step (mk_pipe t s g f e w d p CEof) (mk_pipe t s g f e w d p (if e then CHead else CTop))
  | c_head t s g f e w d p : step (mk_pipe t s g f e w d p CHead) (mk_pipe t s g f e w d p (CTail (len s)))
  | c_tail t s g f e w d p h : step (mk_pipe t s g f e w d p (CTail h)) (mk_pipe t s g f e w d p (if h =? f then CDown else CTop))
  | c_down t s g f e w d p : step (mk_pipe t s g f e w d p CDown) (mk_pipe t s g f e w true p CStore)
  | c_store t s g f e w d p : step (mk_pipe t s g f e w d p CStore) (mk_pipe t s g f e true d p CTop).

(** What the threads know. *)
Definition p_knows (x : pipe) : Prop :=
  match pp x with
  | PTop | PRead _ => taken x = sent x
  | PCommit d => taken x = sent x ++ d ∧ read_eof x = false
  | PEof => taken x = sent x ∧ taken x = src
  end ∧ (match pp x with PRead _ => read_eof x = false | _ => True end).
Definition c_knows (x : pipe) : Prop :=
  match cp x with
  | CWrite k => len (got x) = freed x ∧ k <= len (sent x) - freed x ∧ wr_shut x = false
  | CCommit n => len (got x) = freed x + Z.of_nat n
  | CHead => len (got x) = freed x ∧ read_eof x = true
  | CTail h => len (got x) = freed x ∧ read_eof x = true ∧ h = len (sent x)
  | CDown | CStore => len (got x) = freed x ∧ read_eof x = true ∧ freed x = len (sent x)
  | _ => len (got x) = freed x
  end.

Record Inv (x : pipe) : Prop := {
  inv_src : ∃ rest, src = taken x ++ rest;
  inv_p : p_knows x;
  inv_eof : read_eof x = true → sent x = src;
  inv_got : ∃ rest, sent x = got x ++ rest;
  inv_c : c_knows x;
  inv_down : down x = true ∨ wr_shut x = true → read_eof x = true ∧ got x = src }.

Lemma pipe_start : Inv start.
Proof. split; cbn; try done; [by exists src|by exists []|by intros []]. Qed.

(** A prefix of full length is the whole. *)
Lemma prefix_all (g r l : bytes) : l = g ++ r → len g = len l → g = l.
Proof. intros -> Hl. rewrite length_app in Hl. assert (r = []) as -> by (apply nil_length_inv; lia). by rewrite app_nil_r. Qed.

Lemma Inv_producer x y : Inv x → step x y → cp y = cp x → got y = got x → freed y = freed x → down y = down x → wr_shut y = wr_shut x →
  (∃ rest, src = taken y ++ rest) → p_knows y → (read_eof y = true → sent y = src) →
  (read_eof x = true → read_eof y = true ∧ sent y = sent x) → (∃ d, sent y = sent x ++ d) → Inv y.
Proof.
  intros [_ _ He [rg Hg] Hc Hd] _ E1 E2 E3 E4 E5 H1 H2 H3 H4 [d Hdd]. split; [done|done|done| | |].
  - exists (rg ++ d). rewrite E2, Hdd, Hg. by rewrite <- app_assoc.
  - unfold c_knows in *. rewrite E1, E2, E3, E5. assert (Hle : len (sent x) <= len (sent y)) by (rewrite Hdd, length_app; clear; lia).
    destruct (cp x); try done; [destruct Hc as (?&?&?); split_and!; [done|lia|done]|naive_solver congruence..].
  - rewrite E2, E4, E5. intros H. destruct (Hd H) as [He' Hgs]. split; [by apply H4|done].
Qed.

(** A step of the writing thread: what is as before. *)
Ltac keep := split; cbn; try done; eauto; unfold c_knows; cbn; try done.

Lemma pipe_step x y : Inv x → step x y → Inv y.
Proof.
  intros H St. pose proof H as [[rs Hs] [Hp Hpe] He [rg Hg] Hc Hd]. pose proof St as St'. unfold c_knows in Hc.
  destruct St; cbn in *.
  - eapply Inv_producer; [exact H|exact St'|done..| | | | |]; cbn; [by exists rs|by split|done|done|exists []; by rewrite app_nil_r].
  - eapply Inv_producer; [exact H|exact St'|done..| | | | |]; cbn; [by exists rs|by split|done|done|exists []; by rewrite app_nil_r].
  - eapply Inv_producer; [exact H|exact St'|done..| | | | |]; cbn; [exists rest; by rewrite <- app_assoc|split; [|done]; by subst t|done|done|exists []; by rewrite app_nil_r].
  - eapply Inv_producer; [exact H|exact St'|done..| | | | |]; cbn; [by exists rs|by split|done|done|exists []; by rewrite app_nil_r].
  - destruct Hp as [-> ->]. eapply Inv_producer; [exact H|exact St'|done..| | | | |]; cbn; [by exists rs|by split|done|done|by exists x].
  - destruct Hp as [-> Et]. eapply Inv_producer; [exact H|exact St'|done..| | | | |]; cbn; [by exists rs|by split|by rewrite <- Et|done|exists []; by rewrite app_nil_r].
  - keep. split_and!; [done|lia|done].
  - keep.
  - keep. apply Hc.
  - destruct Hc as (Hf & Hk & Hw). assert (Hl : len s = len g + len rg) by (rewrite Hg, length_app; lia). keep.
    + rewrite Hg, drop_app_length. exists (drop n rg). by rewrite <- app_assoc, take_drop.
    + rewrite Hg, drop_app_length, length_app, length_take. lia.
    + intros Hdw. destruct (Hd Hdw) as [He' Hgs]. assert (len s = len g) by (by rewrite (He He'), Hgs). lia.
  - keep.
  - keep. by destruct w.
  - keep. destruct e; cbn; tauto.
  - keep. tauto.
  - destruct Hc as (Hf & -> & ->). keep. destruct (Z.eqb_spec (len s) f); cbn; auto.
  - destruct Hc as (Hf & -> & Hl). keep. intros _. split; [done|]. rewrite <- (He eq_refl). eapply prefix_all; [exact Hg|lia].
  - destruct Hc as (Hf & -> & Hl). keep. intros _. split; [done|]. rewrite <- (He eq_refl). eapply prefix_all; [exact Hg|lia].
Qed.
End Code.

(** C25 A half close loses nothing: in every interleaving of the two threads
    of a direction, with any splitting of reads and writes, what the second
    socket was given is a prefix of what the first one gave, and when the
    second socket has been shut down it has been given all of it. *)
Theorem half_close_delivers cap src x : rtc (step cap src) start x →
  (∃ rest, src = got x ++ rest) ∧ (down x = true → got x = src ∧ read_eof x = true).
Proof.
  intros Hr. pose proof (run_inv (step cap src) (Inv src) (λ c c' H St, pipe_step cap src c c' H St) _ _ Hr (pipe_start src)) as H.
  destruct (inv_src _ _ H) as [rs Hs], (inv_got _ _ H) as [rg Hg], (inv_p _ _ H) as [Hp _]. split.
  - assert (∃ d, taken x = sent x ++ d) as [d Hd].
    { destruct (pp x); [by exists []; rewrite app_nil_r|by exists []; rewrite app_nil_r|by eexists; apply Hp|exists []; rewrite app_nil_r; apply Hp]. }
    exists (rg ++ d ++ rs). rewrite Hs, Hd, Hg. by rewrite <- !app_assoc.
  - intros Hdn. destruct (inv_down _ _ H (or_introl Hdn)). by split.
Qed.

Lemma half_close_delivers_witness :
  (∃ rest, bs "abc" = got (mk_pipe (bs "abc") (bs "abc") (bs "abc") 3 true true true PTop CTop) ++ rest) ∧
  (true = true → got (mk_pipe (bs "abc") (bs "abc") (bs "abc") 3 true true true PTop CTop) = bs "abc" ∧ true = true).
Proof.
  apply (half_close_delivers 4 (bs "abc") (mk_pipe (bs "abc") (bs "abc") (bs "abc") 3 true true true PTop CTop)). unfold start.
  eapply rtc_l; [by apply (p_room _ _ _ _ _ _ _ _ _ _ 4)|]. eapply rtc_l; [by apply (p_data _ _ _ _ _ _ _ _ _ _ _ (bs "ab") (bs "c"))|].
  eapply rtc_l; [apply p_commit|]. eapply rtc_l; [by apply (c_stock _ _ _ _ _ _ _ _ _ _ 2)|]. eapply rtc_l; [by apply (c_wrote _ _ _ _ _ _ _ _ _ _ _ 1)|].
  eapply rtc_l; [apply c_commit|]. eapply rtc_l; [by apply (p_room _ _ _ _ _ _ _ _ _ _ 3)|].
  eapply rtc_l; [by apply (p_data _ _ _ _ _ _ _ _ _ _ _ (bs "c") [])|]. eapply rtc_l; [apply p_commit|].
  eapply rtc_l; [by apply (p_room _ _ _ _ _ _ _ _ _ _ 1)|]. eapply rtc_l; [by apply p_end|]. eapply rtc_l; [apply p_eof|].
  eapply rtc_l; [by apply (c_stock _ _ _ _ _ _ _ _ _ _ 2)|]. eapply rtc_l; [by apply (c_wrote _ _ _ _ _ _ _ _ _ _ _ 2)|]. eapply rtc_l; [apply c_commit|].
  eapply rtc_l; [apply c_idle|]. eapply rtc_l; [apply c_shut|]. eapply rtc_l; [apply c_eof|]. eapply rtc_l; [apply c_head|]. eapply rtc_l; [apply c_tail|].
  eapply rtc_l; [apply c_down|]. eapply rtc_l; [apply c_store|]. apply rtc_refl.
Defined.
End Pipe.
