(* ===== verification/Conn.v ===== *)
(** * Conn

    src/host_proxy/host_proxy.c: the life of a proxied connection as both
    threads see it: flags, descriptors, the close requested after an error,
    the release.  The data of each direction is in Pipe; here a ring is the
    number of bytes in it. *)
From S2P Require Import Prelude Threads.

Module Conn.

(** The host thread: at the top of its loop, in the error branch after poll
    (three stores and a load), in host_io (with the branch after a failed
    send), at conn_done, in conn_free, out of the loop. *)
Inductive hpc := HTop | HErr1 | HErr2 | HErr3 | HErr4 | HSweep | HIo | HFail1 | HFail2 | HFail3 | HDone
  | HFree1 | HFree2 | HFree3 | HFree4 | HEnd | HStop.
(** The LKL thread: in lkl_connect_new (after its snapshot; the stores of the
    failure branch), in lkl_do_force_close, at the close after it, at the
    snapshot of the poll set, in poll, after it, in lkl_io, out of the loop. *)
Inductive lpc := LTop | LConn | LF1 | LF2 | LF3 | LF4 | LForce | LClose | LSnap | LPoll | LErr | LIo | LStop.

(** struct conn: in G.conns, released, lkl_fd >= 0, the flags, the bytes in
    the rings; how often the two descriptors were opened and closed, and
    whether a released connection was used; G.running. *)
Record life := mk_life {
  attached : bool; released : bool; lkl_fd : bool;
  host_read_eof : bool; host_wr_shut : bool; lkl_read_eof : bool; lkl_wr_shut : bool; lkl_close_req : bool;
  h2l : nat; l2h : nat; host_closes : nat; lkl_opens : nat; lkl_closes : nat; used_after_free : bool; running : bool; hp : hpc; lp : lpc }.

(** host_accept: calloc and conn_attach. *)
Definition accepted : life := mk_life true false false false false false false false 0 0 0 0 0 false true HTop LTop.

Definition at_h p x := mk_life (attached x) (released x) (lkl_fd x) (host_read_eof x) (host_wr_shut x) (lkl_read_eof x) (lkl_wr_shut x)
  (lkl_close_req x) (h2l x) (l2h x) (host_closes x) (lkl_opens x) (lkl_closes x) (used_after_free x) (running x) p (lp x).
Definition at_l p x := mk_life (attached x) (released x) (lkl_fd x) (host_read_eof x) (host_wr_shut x) (lkl_read_eof x) (lkl_wr_shut x)
  (lkl_close_req x) (h2l x) (l2h x) (host_closes x) (lkl_opens x) (lkl_closes x) (used_after_free x) (running x) (hp x) p.
Definition set_hre x := mk_life (attached x) (released x) (lkl_fd x) true (host_wr_shut x) (lkl_read_eof x) (lkl_wr_shut x)
  (lkl_close_req x) (h2l x) (l2h x) (host_closes x) (lkl_opens x) (lkl_closes x) (used_after_free x) (running x) (hp x) (lp x).
Definition set_hws x := mk_life (attached x) (released x) (lkl_fd x) (host_read_eof x) true (lkl_read_eof x) (lkl_wr_shut x)
  (lkl_close_req x) (h2l x) (l2h x) (host_closes x) (lkl_opens x) (lkl_closes x) (used_after_free x) (running x) (hp x) (lp x).
Definition set_lre x := mk_life (attached x) (released x) (lkl_fd x) (host_read_eof x) (host_wr_shut x) true (lkl_wr_shut x)
  (lkl_close_req x) (h2l x) (l2h x) (host_closes x) (lkl_opens x) (lkl_closes x) (used_after_free x) (running x) (hp x) (lp x).
Definition set_lws x := mk_life (attached x) (released x) (lkl_fd x) (host_read_eof x) (host_wr_shut x) (lkl_read_eof x) true
  (lkl_close_req x) (h2l x) (l2h x) (host_closes x) (lkl_opens x) (lkl_closes x) (used_after_free x) (running x) (hp x) (lp x).
Definition set_req x := mk_life (attached x) (released x) (lkl_fd x) (host_read_eof x) (host_wr_shut x) (lkl_read_eof x) (lkl_wr_shut x)
  true (h2l x) (l2h x) (host_closes x) (lkl_opens x) (lkl_closes x) (used_after_free x) (running x) (hp x) (lp x).
Definition set_rings a b x := mk_life (attached x) (released x) (lkl_fd x) (host_read_eof x) (host_wr_shut x) (lkl_read_eof x) (lkl_wr_shut x)
  (lkl_close_req x) a b (host_closes x) (lkl_opens x) (lkl_closes x) (used_after_free x) (running x) (hp x) (lp x).
Definition set_fd fd o c x := mk_life (attached x) (released x) fd (host_read_eof x) (host_wr_shut x) (lkl_read_eof x) (lkl_wr_shut x)
  (lkl_close_req x) (h2l x) (l2h x) (host_closes x) (lkl_opens x + o) (lkl_closes x + c) (used_after_free x) (running x) (hp x) (lp x).
Definition detach x := mk_life false (released x) (lkl_fd x) (host_read_eof x) (host_wr_shut x) (lkl_read_eof x) (lkl_wr_shut x)
  (lkl_close_req x) (h2l x) (l2h x) (host_closes x) (lkl_opens x) (lkl_closes x) (used_after_free x) (running x) (hp x) (lp x).
Definition close_host x := mk_life (attached x) (released x) (lkl_fd x) (host_read_eof x) (host_wr_shut x) (lkl_read_eof x) (lkl_wr_shut x)
  (lkl_close_req x) (h2l x) (l2h x) (host_closes x + 1) (lkl_opens x) (lkl_closes x) (used_after_free x) (running x) (hp x) (lp x).
Definition release x := mk_life (attached x) true (lkl_fd x) (host_read_eof x) (host_wr_shut x) (lkl_read_eof x) (lkl_wr_shut x)
  (lkl_close_req x) (h2l x) (l2h x) (host_closes x) (lkl_opens x) (lkl_closes x) (used_after_free x) (running x) (hp x) (lp x).
(** The LKL thread reads the connection it holds a pointer to. *)
Definition touch x := mk_life (attached x) (released x) (lkl_fd x) (host_read_eof x) (host_wr_shut x) (lkl_read_eof x) (lkl_wr_shut x)
  (lkl_close_req x) (h2l x) (l2h x) (host_closes x) (lkl_opens x) (lkl_closes x) (used_after_free x || released x) (running x) (hp x) (lp x).

Definition stop x := mk_life (attached x) (released x) (lkl_fd x) (host_read_eof x) (host_wr_shut x) (lkl_read_eof x) (lkl_wr_shut x)
  (lkl_close_req x) (h2l x) (l2h x) (host_closes x) (lkl_opens x) (lkl_closes x) (used_after_free x) false (hp x) (lp x).

Definition conn_done (x : life) : bool :=
  host_read_eof x && host_wr_shut x && lkl_read_eof x && lkl_wr_shut x && (h2l x =? 0)%nat && (l2h x =? 0)%nat.

(** lkl_connect_new takes a connection without a descriptor that has not
    ended; lkl_do_force_close one with a descriptor and a request. *)
Definition to_connect (x : life) : bool := attached x && negb (lkl_fd x) && negb (lkl_read_eof x).
Definition to_close (x : life) : bool := attached x && lkl_fd x && lkl_close_req x.
Definition force_close (x : life) : life := set_rings 0 0 (set_lws (set_lre (set_fd false 0 0 x))).

Inductive step : life → life → Prop :=
  (* host_thread_fn *)
  | h_quiet x : hp x = HTop → running x = true → step x (at_h HSweep x)
  | h_error x : hp x = HTop → running x = true → step x (at_h HErr1 x)
  | h_err1 x : hp x = HErr1 → step x (at_h HErr2 (set_hre x))
  | h_err2 x : hp x = HErr2 → step x (at_h HErr3 (set_hws x))
  | h_err3 x : hp x = HErr3 → step x (at_h (if lkl_read_eof x then HSweep else HErr4) x)
  | h_err4 x : hp x = HErr4 → step x (at_h HSweep (set_req x))
  | h_sweep x : hp x = HSweep → step x (at_h (if lkl_fd x then HIo else HDone) x)
  (* host_io *)
  | h_recv x n : hp x = HIo → host_read_eof x = false → step x (set_rings (h2l x + n) (l2h x) x)
  | h_eof x : hp x = HIo → host_read_eof x = false → step x (set_hre x)
  | h_send x n : hp x = HIo → host_wr_shut x = false → (n <= l2h x)%nat → step x (set_rings (h2l x) (l2h x - n) x)
  | h_send_fails x : hp x = HIo → host_wr_shut x = false → l2h x ≠ 0%nat → step x (at_h HFail1 (set_hws x))
  | h_fail1 x : hp x = HFail1 → step x (at_h HFail2 (set_hre x))
  | h_fail2 x : hp x = HFail2 → step x (at_h (if lkl_read_eof x then HIo else HFail3) x)
  | h_fail3 x : hp x = HFail3 → step x (at_h HIo (set_req x))
  | h_shut x : hp x = HIo → host_wr_shut x = false → lkl_read_eof x = true → l2h x = 0%nat → step x (set_hws x)
  | h_io_end x : hp x = HIo → step x (at_h HDone x)
  (* conn_done and conn_free *)
  | h_done x : hp x = HDone → step x (at_h (if conn_done x then HFree1 else HTop) x)
  | h_free1 x : hp x = HFree1 → step x (at_h HFree2 (detach x))
  | h_free2 x : hp x = HFree2 → step x (at_h HFree3 (close_host x))
  | h_free3 x : hp x = HFree3 → step x (at_h HFree4 (if lkl_fd x then set_fd false 0 1 x else x))
  | h_free4 x : hp x = HFree4 → step x (at_h HEnd (release x))
  (* lkl_connect_new *)
  | l_take x : lp x = LTop → running x = true → step x (at_l (if to_connect x then LConn else LForce) x)
  | l_connect x : lp x = LConn → step x (at_l LForce (set_fd true 1 0 x))
  | l_connect_fails x : lp x = LConn → step x (at_l LF1 x)
  | l_f1 x : lp x = LF1 → step x (at_l LF2 (set_hre x))
  | l_f2 x : lp x = LF2 → step x (at_l LF3 (set_hws x))
  | l_f3 x : lp x = LF3 → step x (at_l LF4 (set_lre x))
  | l_f4 x : lp x = LF4 → step x (at_l LForce (set_lws x))
  (* lkl_do_force_close *)
  | l_force x : lp x = LForce → step x (if to_close x then at_l LClose (force_close x) else at_l LSnap x)
  | l_close x : lp x = LClose → step x (at_l LSnap (set_fd (lkl_fd x) 0 1 x))
  (* lkl_thread_fn *)
  | l_snap x : lp x = LSnap → step x (at_l (if attached x && lkl_fd x then LPoll else LTop) x)
  | l_poll x : lp x = LPoll → step x (at_l LErr (touch x))
  | l_polled x : lp x = LErr → step x (at_l LIo (touch x))
  | l_error x : lp x = LErr → step x (at_l LIo (touch (set_lws (set_lre x))))
  (* lkl_io *)
  | l_read x n : lp x = LIo → lkl_read_eof x = false → step x (touch (set_rings (h2l x) (l2h x + n) x))
  | l_eof x : lp x = LIo → lkl_read_eof x = false → step x (touch (set_lre x))
  | l_write x n : lp x = LIo → lkl_wr_shut x = false → (n <= h2l x)%nat → step x (touch (set_rings (h2l x - n) (l2h x) x))
  | l_write_fails x : lp x = LIo → lkl_wr_shut x = false → h2l x ≠ 0%nat → step x (touch (set_lws x))
  | l_shut x : lp x = LIo → lkl_wr_shut x = false → host_read_eof x = true → h2l x = 0%nat → step x (touch (set_lws x))
  | l_io_end x : lp x = LIo → step x (at_l LTop (touch x))
  (* host_proxy_stop *)
  | stopped x : running x = true → step x (stop x)
  | h_stops x : hp x = HTop → running x = false → step x (at_h HStop x)
  | l_stops x : lp x = LTop → running x = false → step x (at_l LStop x).

(** ** Descriptors *)

Definition freeing (p : hpc) : bool := match p with HFree1 | HFree2 | HFree3 | HFree4 | HEnd => true | _ => false end.
Definition gone (p : hpc) : bool := match p with HFree2 | HFree3 | HFree4 | HEnd => true | _ => false end.
Definition host_closed (p : hpc) : nat := match p with HFree3 | HFree4 | HEnd => 1 | _ => 0 end.
Definition lkl_gone (p : hpc) : bool := match p with HFree4 | HEnd => true | _ => false end.
Definition ended (p : hpc) : bool := match p with HEnd => true | _ => false end.
Definition num (b : bool) : nat := if b then 1 else 0.
Definition closing (p : lpc) : nat := match p with LClose => 1 | _ => 0 end.
Definition told (p : lpc) : bool := match p with LF4 => true | _ => false end.
Definition polling (p : lpc) : bool := match p with LPoll | LErr | LIo => true | _ => false end.
Definition connecting (p : lpc) : bool := match p with LConn | LF1 | LF2 | LF3 | LF4 => true | _ => false end.

Record Inv (x : life) : Prop := {
  inv_host : host_closes x = host_closed (hp x);
  inv_lkl : (lkl_closes x + num (lkl_fd x) + closing (lp x) = lkl_opens x)%nat;
  inv_once : (lkl_opens x <= 1)%nat;
  inv_again : lkl_opens x = 1%nat → lkl_fd x = false → lkl_read_eof x = true;
  inv_lws : lkl_opens x = 0%nat → lkl_wr_shut x = true → lkl_read_eof x = true;
  inv_connect : connecting (lp x) = true → lkl_opens x = 0%nat ∧ lkl_wr_shut x = false ∧ lkl_read_eof x = told (lp x);
  inv_poll : polling (lp x) = true → lkl_opens x = 1%nat;
  inv_done : freeing (hp x) = true → conn_done x = true;
  inv_attached : attached x = negb (gone (hp x));
  inv_fd : lkl_gone (hp x) = true → lkl_fd x = false;
  inv_released : released x = ended (hp x) }.

Lemma Inv_accepted : Inv accepted.
Proof. split; cbn; try done; try lia; by intros []. Qed.

Lemma done_flags x : conn_done x = true ↔ host_read_eof x = true ∧ host_wr_shut x = true ∧ lkl_read_eof x = true ∧
  lkl_wr_shut x = true ∧ h2l x = 0%nat ∧ l2h x = 0%nat.
Proof. unfold conn_done. rewrite !andb_true_iff, !Nat.eqb_eq. tauto. Qed.

Lemma not_freeing x : Inv x → lkl_wr_shut x = false ∨ lkl_read_eof x = false → freeing (hp x) = false.
Proof.
  intros H Hf. destruct (freeing (hp x)) eqn:E; [|done]. apply (inv_done x H), done_flags in E. destruct Hf; naive_solver congruence.
Qed.
Lemma gone_freeing p : freeing p = false → gone p = false ∧ lkl_gone p = false ∧ ended p = false ∧ host_closed p = 0%nat.
Proof. by destruct p. Qed.

Ltac at_pc := repeat match goal with E : hp _ = _ |- _ => rewrite !E | E : lp _ = _ |- _ => rewrite !E end.
Ltac keep_inv := split; rewrite ?done_flags; cbn; at_pc; cbn; try first [done|lia|tauto|congruence].

(** Steps of the LKL thread while it connects. *)
Lemma Inv_connecting x : Inv x → connecting (lp x) = true →
  lkl_opens x = 0%nat ∧ lkl_wr_shut x = false ∧ lkl_read_eof x = told (lp x) ∧ lkl_fd x = false ∧ lkl_closes x = 0%nat ∧
  freeing (hp x) = false ∧ gone (hp x) = false ∧ lkl_gone (hp x) = false.
Proof.
  intros H Hc. destruct (inv_connect x H Hc) as (E1 & E2 & E3). pose proof (inv_lkl x H) as E4. rewrite E1 in E4.
  pose proof (not_freeing x H (or_introl E2)) as Hf. destruct (gone_freeing _ Hf) as (? & ? & _).
  split_and!; try done; [|lia]. destruct (lkl_fd x); [cbn in E4; lia|done].
Qed.

Lemma life_step x y : Inv x → step x y → Inv y.
Proof.
  intros H St. pose proof H as [H1 H2 H3 H4 H5 H6 Hpo H7 H8 H9 H10]. rewrite done_flags in H7.
  pose proof (Inv_connecting x H) as HC. pose proof (not_freeing x H) as HF.
  destruct St as [x Hp|x Hp|x Hp|x Hp|x Hp|x Hp|x Hp|x n Hp|x Hp|x n Hp|x Hp|x Hp|x Hp|x Hp|x Hp|x Hp|
    x Hp|x Hp|x Hp|x Hp|x Hp|x Hp|x Hp|x Hp|x Hp|x Hp|x Hp|x Hp|x Hp|x Hp|x Hp|x Hp|x Hp|x Hp|x n Hp Hr|x Hp|x n Hp Hr|x Hp Hr|
    x Hp Hr|x Hp|x Hp|x Hp|x Hp].
  all: rewrite ?Hp in *; cbn in *.
  all: try (split; rewrite ?done_flags; cbn; at_pc; cbn; first [done|lia|tauto]).
  - case_eq (lkl_read_eof x); intros E; keep_inv.
  - case_eq (lkl_fd x); intros E; keep_inv.
  - case_eq (lkl_read_eof x); intros E; keep_inv.
  - case_eq (conn_done x); intros E; [apply done_flags in E|]; keep_inv.
  - assert (Hc : connecting (lp x) = true → False) by (intros Hc; by destruct (HC Hc) as (_ & _ & _ & _ & _ & ? & _)).
    case_eq (lkl_fd x); intros E; rewrite ?E in H2; cbn in H2; keep_inv. by rewrite E.
  - unfold to_connect. case_eq (attached x && negb (lkl_fd x) && negb (lkl_read_eof x)); intros E; keep_inv. zify_bools. intros _.
    assert (lkl_opens x = 0%nat) as Eo by (destruct (lkl_opens x) as [|[]]; [done| |lia]; rewrite H4 in *; done).
    split; [done|]. split; [|done]. destruct (lkl_wr_shut x); [|done]. rewrite H5 in *; done.
  - destruct (HC eq_refl) as (? & ? & ? & ? & ? & E & ? & Eg). keep_inv.
  - unfold to_close, force_close. case_eq (attached x && lkl_fd x && lkl_close_req x); intros E; [|keep_inv].
    apply andb_true_iff in E as [[Ea Ef]%andb_true_iff _]. rewrite Ef in H2. cbn in H2. keep_inv.
  - keep_inv; rewrite Nat.add_0_r; done.
  - case_eq (attached x && lkl_fd x); intros E; [|keep_inv]. apply andb_true_iff in E as [Ea Ef]. rewrite Ef in H2. cbn in H2. keep_inv.
    rewrite Ef. cbn. lia.
  - keep_inv. intros Ef. destruct (H7 Ef). naive_solver congruence.
  - keep_inv. intros Ef. destruct (H7 Ef). naive_solver lia.
Qed.

(** C11 Descriptors of a connection are closed exactly once: in every
    interleaving of the host thread and the LKL thread, with errors and
    forced closes anywhere, the LKL socket is opened at most once, neither
    socket is closed twice, and once the connection is released both sides
    have ended, both rings are empty, the host socket is closed and the LKL
    socket is closed or about to be by the thread that took it. *)
Theorem conn_closed_once x : rtc step accepted x →
  (host_closes x <= 1 ∧ lkl_closes x <= lkl_opens x <= 1)%nat ∧
  (released x = true → conn_done x = true ∧ host_closes x = 1%nat ∧ lkl_fd x = false ∧
     (lkl_closes x + closing (lp x) = lkl_opens x)%nat).
Proof.
  intros Hr. pose proof (run_inv step Inv life_step _ _ Hr Inv_accepted) as H.
  pose proof (inv_host x H) as H1. pose proof (inv_lkl x H) as H2. pose proof (inv_once x H) as H3. split.
  - split; [destruct (hp x); cbn in H1; lia|lia].
  - rewrite (inv_released x H). intros He. assert (Hh : hp x = HEnd) by (by destruct (hp x)). rewrite Hh in H1.
    pose proof (inv_fd x H) as Hf. pose proof (inv_done x H) as Hd. rewrite Hh in Hf, Hd. specialize (Hf eq_refl). rewrite Hf in H2.
    split_and!; [by apply Hd|done|done|cbn in H2; lia].
Qed.

Ltac go c := eapply rtc_l; [c|cbn].

(** A connection both ends close: the LKL thread is in poll when the host
    thread releases it. *)
Definition in_poll : life := mk_life true false true true false true true false 0 0 0 1 0 false true HDone LPoll.
Lemma to_in_poll : rtc step accepted in_poll.
Proof.
  unfold accepted, in_poll. go ltac:(by apply l_take). go ltac:(by apply l_connect). go ltac:(by apply l_force). go ltac:(by apply l_snap).
  go ltac:(by apply h_quiet). go ltac:(by apply h_sweep). go ltac:(by apply h_eof). go ltac:(by apply h_io_end).
  go ltac:(by apply l_poll). go ltac:(by apply l_polled). go ltac:(by apply l_eof). go ltac:(by apply l_shut). go ltac:(by apply l_io_end).
  go ltac:(by apply l_take). go ltac:(by apply l_force). go ltac:(by apply l_snap). apply rtc_refl.
Qed.

Definition ended_well : life := mk_life false true false true true true true false 0 0 1 1 1 false true HEnd LPoll.
Lemma to_ended : rtc step in_poll ended_well.
Proof.
  unfold in_poll, ended_well. go ltac:(by apply h_done). go ltac:(by apply h_quiet). go ltac:(by apply h_sweep). go ltac:(by apply h_shut).
  go ltac:(by apply h_io_end). go ltac:(by apply h_done). go ltac:(by apply h_free1). go ltac:(by apply h_free2). go ltac:(by apply h_free3).
  go ltac:(by apply h_free4). apply rtc_refl.
Qed.

Lemma conn_closed_once_witness :
  (host_closes ended_well <= 1 ∧ lkl_closes ended_well <= lkl_opens ended_well <= 1)%nat ∧
  (true = true → conn_done ended_well = true ∧ 1%nat = 1%nat ∧ false = false ∧ (1 + 0 = 1)%nat).
Proof. exact (conn_closed_once ended_well (transitivity to_in_poll to_ended)). Defined.

(** ** Where the code departs from its intention *)

(** The poll set holds pointers to connections: one that is released while
    the LKL thread is in poll is used after it.  An orderly close of both ends
    is enough. *)
Lemma used_after_release : ∃ x, rtc step accepted x ∧ used_after_free x = true.
Proof.
  eexists. split.
  - etrans; [apply to_in_poll|]. etrans; [apply to_ended|]. eapply rtc_l; [by apply l_poll|]. apply rtc_refl.
  - done.
Qed.

(** After an error on the host side of a connection whose LKL side has ended
    but whose data is not all delivered, no close is requested, nothing
    empties the ring, and the connection is never released. *)
Definition leaked (x : life) : Prop :=
  host_read_eof x = true ∧ host_wr_shut x = true ∧ lkl_read_eof x = true ∧ lkl_close_req x = false ∧ l2h x ≠ 0%nat ∧
  released x = false ∧ freeing (hp x) = false ∧ hp x ≠ HErr4 ∧ hp x ≠ HFail3.
Lemma leaked_step x y : leaked x → step x y → leaked y.
Proof.
  intros (H1 & H2 & H3 & H4 & H5 & H6 & H7 & H8 & H9) St. unfold leaked.
  destruct St; repeat match goal with E : hp _ = _ |- _ => rewrite E in * end; cbn in *; try congruence; try (split_and!; done).
  - rewrite H3. split_and!; done.
  - destruct (lkl_fd x); split_and!; done.
  - rewrite H3. split_and!; done.
  - assert (conn_done x = false) as ->.
    { destruct (conn_done x) eqn:E; [|done]. apply done_flags in E. naive_solver. }
    split_and!; done.
  - unfold to_close. rewrite H4, andb_false_r. split_and!; done.
Qed.

Lemma connection_leaks : ∃ x, rtc step accepted x ∧ ∀ y, rtc step x y → released y = false.
Proof.
  eexists. split.
  - unfold accepted. go ltac:(by apply l_take). go ltac:(by apply l_connect). go ltac:(by apply l_force). go ltac:(by apply l_snap).
    go ltac:(by apply l_poll). go ltac:(by apply l_polled). go ltac:(by apply (l_read _ 5)). go ltac:(by apply l_eof).
    go ltac:(by apply h_error). go ltac:(by apply h_err1). go ltac:(by apply h_err2). go ltac:(by apply h_err3). apply rtc_refl.
  - intros y Hy. assert (leaked y) as (_ & _ & _ & _ & _ & E & _); [|done]. eapply (run_inv step leaked leaked_step); [exact Hy|].
    unfold leaked. cbn. split_and!; done.
Qed.

(** host_proxy_stop abandons the connections: both threads end and nothing
    serves or releases what is open. *)
Lemma stop_abandons : ∃ x, rtc step accepted x ∧ nf step x ∧ released x = false ∧ lkl_fd x = true ∧ conn_done x = false.
Proof.
  eexists. split; [|split].
  - unfold accepted. go ltac:(by apply l_take). go ltac:(by apply l_connect). go ltac:(by apply l_force). go ltac:(by apply l_snap).
    go ltac:(by apply l_poll). go ltac:(by apply l_polled). go ltac:(by apply l_io_end). go ltac:(by apply stopped).
    go ltac:(by apply h_stops). go ltac:(by apply l_stops). apply rtc_refl.
  - intros [y St]. inversion St; subst; done.
  - done.
Qed.
End Conn.
