(* ===== verification/QemuThread.v ===== *)
(** * QemuThread

    src/core/qemu_thread.c: the thread that owns QEMU, and the threads that
    start it, call functions on it and stop it.  A step is one access to the
    shared state: an atomic variable, the start lock with what is done under
    it up to the next wait, a semaphore, the list of bottom halves, or one
    bottom half run.  aio_poll takes the bottom halves that are scheduled and
    runs them in any order; a coroutine ends in some later turn of the loop. *)
From S2P Require Import Prelude CLib Threads.
Import CLib.

Module QemuThread.

(** ** Data *)

Inductive qt_state := QT_IDLE | QT_RUNNING | QT_FAILED | QT_STOPPED.
#[export] Instance qt_state_eq : EqDecision qt_state.
Proof. solve_decision. Defined.

Definition QEMU_THREAD_DEFAULT_TIMEOUT_MS : Z := 120000.
Definition INT_MAX : Z := 2 ^ 31 - 1.
(** [env] is ANYFS_QEMU_TIMEOUT_MS. *)
Definition timeout_ms (env : option bytes) : Z :=
  let parsed := match env with Some e => (strtol e).1 | None => 0 end in
  if (0 <? parsed) && (parsed <? INT_MAX) then parsed else QEMU_THREAD_DEFAULT_TIMEOUT_MS.

(** A thread inside qemu_thread_start, qemu_thread_call or _co_call ([co]),
    qemu_thread_stop: at its first access, about to schedule, waiting, waiting
    after the watchdog has reported, returned. *)
Inductive pc :=
  | SBegin | SWait | SLate | SDone (rc : Z)
  | CBegin (co : bool) | CSched (co : bool) | CWait | CLate | CDone (rc : Z)
  | PBegin | PSched | PWait | PLate | PDone.

(** A bottom half: the call of thread [i], or the stop. *)
Inductive bh := BCall (i : nat) (co : bool) | BStop.

(** The QEMU thread: not created, initialising, about to post g_ready, at the
    test of the loop, in aio_poll with what is left to run, past the loop,
    ended. *)
Inductive qpc := QNone | QInit | QReady (ok : bool) | QLoop | QRun (batch : list bh) | QExit | QDead.

(** g_state, the holder of g_start_lock, the semaphores g_ready and
    g_stopped, the scheduled bottom halves, the coroutines that have started,
    g_stop_requested, the QEMU thread; the calls whose function has returned
    (their semaphore is posted) and the threads that reported a fatal error. *)
Record shared := mk_shared {
  st : qt_state; lock : option nat; ready : bool; stopped : bool; bhs : list bh; inflight : list nat;
  stop_req : bool; q : qpc; ran : list nat; fatals : list nat }.

Definition set_st x s := mk_shared x (lock s) (ready s) (stopped s) (bhs s) (inflight s) (stop_req s) (q s) (ran s) (fatals s).
Definition set_lock x s := mk_shared (st s) x (ready s) (stopped s) (bhs s) (inflight s) (stop_req s) (q s) (ran s) (fatals s).
Definition set_ready x s := mk_shared (st s) (lock s) x (stopped s) (bhs s) (inflight s) (stop_req s) (q s) (ran s) (fatals s).
Definition set_stopped x s := mk_shared (st s) (lock s) (ready s) x (bhs s) (inflight s) (stop_req s) (q s) (ran s) (fatals s).
Definition set_bhs x s := mk_shared (st s) (lock s) (ready s) (stopped s) x (inflight s) (stop_req s) (q s) (ran s) (fatals s).
Definition set_inflight x s := mk_shared (st s) (lock s) (ready s) (stopped s) (bhs s) x (stop_req s) (q s) (ran s) (fatals s).
Definition set_stop_req x s := mk_shared (st s) (lock s) (ready s) (stopped s) (bhs s) (inflight s) x (q s) (ran s) (fatals s).
Definition set_q x s := mk_shared (st s) (lock s) (ready s) (stopped s) (bhs s) (inflight s) (stop_req s) x (ran s) (fatals s).
Definition set_ran x s := mk_shared (st s) (lock s) (ready s) (stopped s) (bhs s) (inflight s) (stop_req s) (q s) x (fatals s).
Definition set_fatals x s := mk_shared (st s) (lock s) (ready s) (stopped s) (bhs s) (inflight s) (stop_req s) (q s) (ran s) x.

(** ** Operations *)

(** What start returns once it has read the state. *)
Definition start_rc (x : qt_state) : Z := if decide (x = QT_RUNNING) then 0 else -1.

(** Under the lock: the first start creates the thread and keeps the lock
    while it waits. *)
Definition start_begin (i : nat) (s : shared) : shared * pc :=
  match st s with
  | QT_IDLE => (set_q QInit (set_lock (Some i) s), SWait)
  | x => (s, SDone (start_rc x))
  end.
(** g_ready was posted. *)
Definition start_end (s : shared) : shared * pc := (set_lock None (set_ready false s), SDone (start_rc (st s))).

Definition call_begin (co : bool) (s : shared) : pc := if decide (st s = QT_RUNNING) then CSched co else CDone (-1).
Definition schedule (b : bh) (s : shared) : shared := set_bhs (bhs s ++ [b]) s.

Definition stop_begin (i : nat) (s : shared) : shared * pc :=
  match st s with
  | QT_RUNNING => (set_st QT_STOPPED (set_lock (Some i) s), PSched)
  | QT_IDLE => (set_st QT_STOPPED s, PDone)
  | _ => (s, PDone)
  end.
Definition stop_end (s : shared) : shared := set_lock None (set_stopped false s).

(** qt_call_bh, qt_stop_bh, and the end of qt_call_co. *)
Definition run_bh (b : bh) (s : shared) : shared :=
  match b with
  | BCall i false => set_ran (i :: ran s) s
  | BCall i true => set_inflight (i :: inflight s) s
  | BStop => set_stop_req true s
  end.
Definition complete (k i : nat) (s : shared) : shared := set_ran (i :: ran s) (set_inflight (delete k (inflight s)) s).

(** The watchdog of wait_done: report once, then wait on. *)
Definition late (p : pc) : option pc :=
  match p with SWait => Some SLate | CWait => Some CLate | PWait => Some PLate | _ => None end.

Inductive step : list pc * shared → list pc * shared → Prop :=
  | step_start ts s i s' p : ts !! i = Some SBegin → lock s = None → start_begin i s = (s', p) →
      step (ts, s) (<[i := p]> ts, s')
  | step_started ts s i w s' p : ts !! i = Some w → w = SWait ∨ w = SLate → ready s = true → start_end s = (s', p) →
      step (ts, s) (<[i := p]> ts, s')
  | step_call ts s i co : ts !! i = Some (CBegin co) → step (ts, s) (<[i := call_begin co s]> ts, s)
  | step_schedule ts s i co : ts !! i = Some (CSched co) → step (ts, s) (<[i := CWait]> ts, schedule (BCall i co) s)
  | step_called ts s i w : ts !! i = Some w → w = CWait ∨ w = CLate → i ∈ ran s → step (ts, s) (<[i := CDone 0]> ts, s)
  | step_stop ts s i s' p : ts !! i = Some PBegin → lock s = None → stop_begin i s = (s', p) →
      step (ts, s) (<[i := p]> ts, s')
  | step_stop_bh ts s i : ts !! i = Some PSched → step (ts, s) (<[i := PWait]> ts, schedule BStop s)
  | step_stopped ts s i w : ts !! i = Some w → w = PWait ∨ w = PLate → stopped s = true →
      step (ts, s) (<[i := PDone]> ts, stop_end s)
  | step_watchdog ts s i w w' : ts !! i = Some w → late w = Some w' →
      step (ts, s) (<[i := w']> ts, set_fatals (i :: fatals s) s)
  | step_init ts s ok : q s = QInit →
      step (ts, s) (ts, set_q (QReady ok) (set_st (if ok : bool then QT_RUNNING else QT_FAILED) s))
  | step_ready ts s ok : q s = QReady ok → step (ts, s) (ts, set_q (if ok : bool then QLoop else QDead) (set_ready true s))
  | step_poll ts s : q s = QLoop → stop_req s = false → bhs s ≠ [] →
      step (ts, s) (ts, set_q (QRun (bhs s)) (set_bhs [] s))
  | step_complete ts s k i : q s = QLoop → stop_req s = false → inflight s !! k = Some i → step (ts, s) (ts, complete k i s)
  | step_run ts s batch k b : q s = QRun batch → batch !! k = Some b →
      step (ts, s) (ts, run_bh b (set_q (QRun (delete k batch)) s))
  | step_ran ts s : q s = QRun [] → step (ts, s) (ts, set_q QLoop s)
  | step_leave ts s : q s = QLoop → stop_req s = true → step (ts, s) (ts, set_q QExit s)
  | step_exit ts s : q s = QExit → step (ts, s) (ts, set_q QDead (set_stopped true s)).

Ltac step_cases Hs :=
  destruct Hs as [ts s i s' p Hi Hl E|ts s i w s' p Hi Hw Hr E|ts s i co Hi|ts s i co Hi|ts s i w Hi Hw Hr|ts s i s' p Hi Hl E|
    ts s i Hi|ts s i w Hi Hw Hr|ts s i w w' Hi Hw|ts s ok Hq|ts s ok Hq|ts s Hq Hr Hb|ts s k i Hq Hr Hk|ts s batch k b Hq Hk|
    ts s Hq|ts s Hq Hr|ts s Hq].

Definition idle : shared := mk_shared QT_IDLE None false false [] [] false QNone [] [].

(** ** A call runs its function exactly once *)

Definition is_it (i j : nat) : nat := if decide (j = i) then 1 else 0.
Definition is_call (i : nat) (b : bh) : nat := match b with BCall j _ => is_it i j | BStop => 0 end.
Definition batch_of (x : qpc) : list bh := match x with QRun b => b | _ => [] end.

(** The call of [i] scheduled, taken or started; its function returned. *)
Definition pending (i : nat) (s : shared) : nat :=
  sum_list_with (is_call i) (bhs s) + sum_list_with (is_call i) (batch_of (q s)) + sum_list_with (is_it i) (inflight s).
Definition runs (i : nat) (s : shared) : nat := sum_list_with (is_it i) (ran s).

Definition once (s : shared) (i : nat) (p : pc) : Prop :=
  match p with
  | CWait | CLate => (pending i s + runs i s = 1)%nat
  | CDone rc => pending i s = 0%nat ∧ (rc = 0 ∧ runs i s = 1%nat ∨ rc = -1 ∧ runs i s = 0%nat)
  | _ => pending i s = 0%nat ∧ runs i s = 0%nat
  end.
Definition Once (c : list pc * shared) : Prop := ∀ i p, c.1 !! i = Some p → once c.2 i p.

Lemma sum_delete {A} (f : A → nat) l k x : l !! k = Some x → (sum_list_with f (delete k l) + f x = sum_list_with f l)%nat.
Proof.
  revert k. induction l as [|a l IH]; intros [|k] H; try done.
  - injection H as ->. change (sum_list_with f l + f x = f x + sum_list_with f l)%nat. lia.
  - specialize (IH k H). change (f a + sum_list_with f (delete k l) + f x = f a + sum_list_with f l)%nat. lia.
Qed.

Lemma runs_pos i s : i ∈ ran s → (0 < runs i s)%nat.
Proof.
  unfold runs. induction (ran s) as [|j l IH]; [by intros ?%elem_of_nil|]. intros [->|H]%elem_of_cons; cbn.
  - unfold is_it at 1. rewrite decide_True by done. lia.
  - specialize (IH H). lia.
Qed.

(** Thread [i] moves and its tokens fit; the tokens of the others are as they
    were. *)
Lemma Once_move ts s i x y s' : Once (ts, s) → ts !! i = Some x → once s' i y →
  (∀ j, j ≠ i → pending j s' = pending j s ∧ runs j s' = runs j s) → Once (<[i := y]> ts, s').
Proof.
  intros H Hi Hy Ho j p. cbn. destruct (decide (i = j)) as [<-|Hn].
  - rewrite list_lookup_insert_eq by (by eapply lookup_lt_Some). by intros [= <-].
  - rewrite list_lookup_insert_ne by done. intros Hj. specialize (H j p Hj). cbn in H. destruct (Ho j ltac:(done)) as [E1 E2].
    unfold once in *. by rewrite E1, E2.
Qed.

(** A step of the QEMU thread moves tokens or runs a call. *)
Lemma Once_quiet ts s s' : Once (ts, s) → (∀ i, pending i s' + runs i s' = pending i s + runs i s ∧ runs i s <= runs i s')%nat →
  (∀ i, pending i s = 0 → pending i s' = 0)%nat → Once (ts, s').
Proof.
  intros H Hm Hz i p Hi. specialize (H i p Hi). cbn in *. specialize (Hm i). specialize (Hz i). unfold once in *.
  destruct p; lia.
Qed.

Ltac tokens := unfold pending, runs in *; cbn -[Nat.add] in *; rewrite ?sum_list_with_app in *; cbn -[Nat.add] in *.

(** Steps that touch no token. *)
Lemma Once_skip ts s i x y s' : Once (ts, s) → ts !! i = Some x → (once s i x → once s i y) →
  (∀ j, pending j s' = pending j s ∧ runs j s' = runs j s) → Once (<[i := y]> ts, s').
Proof.
  intros H Hi Hy Hs. eapply Once_move; [done..| |intros j _; apply Hs]. specialize (Hs i) as [E1 E2]. unfold once in *.
  rewrite E1, E2. by apply Hy, (H i).
Qed.

Lemma pending_schedule i b s : pending i (schedule b s) = (pending i s + is_call i b)%nat.
Proof. tokens. lia. Qed.

(** ** The phases of the QEMU thread *)

Definition phase (s : shared) : Prop :=
  match q s with
  | QNone => (st s = QT_IDLE ∨ st s = QT_STOPPED) ∧ ready s = false ∧ stopped s = false
  | QInit => st s = QT_IDLE ∧ lock s ≠ None ∧ ready s = false ∧ stopped s = false
  | QReady ok => st s = (if ok then QT_RUNNING else QT_FAILED) ∧ lock s ≠ None ∧ ready s = false ∧ stopped s = false
  | QLoop | QRun _ => (st s = QT_RUNNING ∨ st s = QT_STOPPED) ∧ stopped s = false
  | QExit => st s = QT_STOPPED ∧ stopped s = false
  | QDead => st s = QT_FAILED ∨ st s = QT_STOPPED
  end.

Definition is_stop (b : bh) : nat := match b with BStop => 1 | _ => 0 end.
Definition stops (s : shared) : nat :=
  (if stop_req s then 1 else 0) + sum_list_with is_stop (bhs s) + sum_list_with is_stop (batch_of (q s)).
Definition stopping (p : pc) : nat := match p with PSched => 1 | _ => 0 end.

(** A stop on its way means that the state already says so. *)
Record Ph (c : list pc * shared) : Prop := {
  ph_phase : phase c.2;
  ph_stop : (0 < stops c.2 + sum_list_with stopping c.1)%nat → st c.2 = QT_STOPPED }.

Lemma Ph_idle ts s : Ph (ts, s) → st s = QT_IDLE → lock s = None → q s = QNone.
Proof. intros [Hp _] Hs Hl. unfold phase in Hp. cbn in Hp. destruct (q s); try destruct ok; naive_solver congruence. Qed.

Lemma Ph_running ts s : Ph (ts, s) → st s = QT_RUNNING → lock s = None → q s = QLoop ∨ ∃ b, q s = QRun b.
Proof. intros [Hp _] Hs Hl. unfold phase in Hp. cbn in Hp. destruct (q s); try destruct ok; naive_solver congruence. Qed.

Lemma Ph_thread ts s i x y s' : Ph (ts, s) → ts !! i = Some x → phase s' → (st s = QT_STOPPED → st s' = QT_STOPPED) →
  (st s' ≠ QT_STOPPED → stopping y = 0 ∧ stops s' <= stops s)%nat → Ph (<[i := y]> ts, s').
Proof.
  intros [_ Hs] Hi Hp Hst Hy. split; cbn in *; [done|]. pose proof (sum_insert stopping ts i x y Hi).
  intros Hpos. destruct (decide (st s' = QT_STOPPED)) as [|Hn]; [done|]. destruct (Hy Hn). apply Hst, Hs. lia.
Qed.

Ltac stop_tokens := unfold stops in *; cbn -[Nat.add] in *; rewrite ?sum_list_with_app in *; cbn -[Nat.add] in *.

Lemma Ph_step c c' : Ph c → step c c' → Ph c'.
Proof.
  intros H Hs. step_cases Hs;
    pose proof (ph_phase _ H) as Hp; pose proof (ph_stop _ H) as Hst; cbn [fst snd] in Hp, Hst; unfold phase in Hp.
  - unfold start_begin in E. destruct (st s) eqn:Es; injection E as <- <-;
      [|eapply Ph_thread; [done..|exact (ph_phase _ H)|done|done]..]. pose proof (Ph_idle _ _ H Es Hl) as Eq. rewrite Eq in Hp.
    eapply Ph_thread; [done..| | |]; [by unfold phase; cbn; naive_solver|by rewrite Es|]. intros _. stop_tokens. rewrite Eq. done.
  - unfold start_end in E. injection E as <- <-. eapply Ph_thread; [done..| |done|by destruct Hw as [-> | ->]].
    unfold phase. cbn. destruct (q s); naive_solver congruence.
  - eapply Ph_thread; [done..|exact (ph_phase _ H)|done|]. unfold call_begin. by destruct (decide _).
  - eapply Ph_thread; [done..|exact Hp|done|]. intros _. stop_tokens. lia.
  - eapply Ph_thread; [done..|exact (ph_phase _ H)|done|done].
  - unfold stop_begin in E. destruct (st s) eqn:Es; injection E as <- <-;
      (eapply Ph_thread; [done..| |done|done]); unfold phase; cbn [st set_st set_lock q lock ready stopped]; rewrite ?Es.
    + rewrite (Ph_idle _ _ H Es Hl) in *. naive_solver.
    + destruct (Ph_running _ _ H Es Hl) as [Eq|[b Eq]]; rewrite Eq in *; naive_solver.
    + exact Hp.
    + exact Hp.
  - assert (st s = QT_STOPPED) as Es. { apply Hst. pose proof (sum_lookup stopping ts i _ Hi). cbn in *. lia. }
    eapply Ph_thread; [done..|exact Hp|done|done].
  - eapply Ph_thread; [done..| |done|]; [|by intros _; destruct Hw as [-> | ->]].
    unfold phase. cbn. destruct (q s); naive_solver congruence.
  - eapply Ph_thread; [done..|exact Hp|done|]. by destruct w; simplify_eq/=.
  - rewrite Hq in Hp. destruct Hp as (Es & Hl & Hr & Hst'). split; cbn [fst snd].
    + unfold phase. cbn. by destruct ok.
    + intros Hpos. exfalso. stop_tokens. rewrite Hq in Hst. specialize (Hst Hpos). congruence.
  - rewrite Hq in Hp. destruct Hp as (Es & Hl & Hr & Hst'). split; cbn [fst snd].
    + unfold phase. cbn. destruct ok; naive_solver.
    + intros Hpos. apply Hst. stop_tokens. rewrite Hq. by destruct ok.
  - rewrite Hq in Hp. split; [exact Hp|]. intros Hpos. apply Hst. stop_tokens. rewrite Hq. cbn -[Nat.add]. lia.
  - rewrite Hq in Hp. split; [unfold phase; cbn; by rewrite Hq|]. intros Hpos. apply Hst. exact Hpos.
  - rewrite Hq in Hp. split; cbn [fst snd].
    + unfold phase. destruct b as [i []|]; exact Hp.
    + intros Hpos. destruct b as [i co|].
      * assert (st (run_bh (BCall i co) (set_q (QRun (delete k batch)) s)) = st s) as -> by (by destruct co).
        apply Hst. pose proof (sum_delete is_stop batch k _ Hk) as Hd. cbn in Hd.
        destruct co; stop_tokens; rewrite Hq; cbn -[Nat.add]; lia.
      * cbn. apply Hst. pose proof (sum_delete is_stop batch k _ Hk) as Hd. stop_tokens. rewrite Hq. cbn -[Nat.add]. lia.
  - rewrite Hq in Hp. split; [exact Hp|]. intros Hpos. apply Hst. stop_tokens. by rewrite Hq.
  - rewrite Hq in Hp. assert (st s = QT_STOPPED) as Es by (apply Hst; stop_tokens; rewrite Hr; lia).
    split; [unfold phase; cbn; naive_solver|done].
  - rewrite Hq in Hp. split; [unfold phase; cbn; naive_solver|]. intros _. apply Hp.
Qed.

Lemma Once_step c c' : Ph c → Once c → step c c' → Once c'.
Proof.
  intros Hph H Hs. step_cases Hs.
  - unfold start_begin in E. destruct (st s) eqn:Es; injection E as <- <-; (eapply Once_skip; [done..|]); intros j; [|done..].
    unfold pending. cbn [bhs inflight q set_q set_lock]. by rewrite (Ph_idle _ _ Hph Es Hl).
  - unfold start_end in E. injection E as <- <-. eapply Once_skip; [done..| |done]. by destruct Hw as [-> | ->].
  - eapply Once_skip; [done..| |done]. unfold call_begin. destruct (decide _); cbn; tauto.
  - pose proof (H i _ Hi) as [H1 H2]. cbn [snd] in H1, H2. eapply Once_move; [done..| |].
    + unfold once. rewrite pending_schedule. cbn [is_call]. unfold is_it at 1. rewrite decide_True by done. change (runs i (schedule (BCall i co) s)) with (runs i s). lia.
    + intros j Hj. rewrite pending_schedule. cbn [is_call]. unfold is_it at 1. rewrite decide_False by done. split; [lia|done].
  - eapply Once_skip; [done..| |done]. pose proof (runs_pos i s Hr). destruct Hw as [-> | ->]; unfold once; intros; (split; [lia|left; split; [done|lia]]).
  - unfold stop_begin in E. destruct (st s); injection E as <- <-; eapply Once_skip; done.
  - eapply Once_skip; [done..|]. intros j. rewrite pending_schedule. cbn [is_call]. split; [lia|done].
  - eapply Once_skip; [done..| |done]. by destruct Hw as [-> | ->].
  - eapply Once_skip; [done..| |done]. by destruct w; simplify_eq/=.
  - eapply Once_quiet; [done|..]; intros i; tokens; rewrite Hq; cbn -[Nat.add]; lia.
  - eapply Once_quiet; [done|..]; intros i; destruct ok; tokens; rewrite Hq; cbn -[Nat.add]; lia.
  - eapply Once_quiet; [done|..]; intros i; tokens; rewrite Hq; cbn -[Nat.add]; lia.
  - eapply Once_quiet; [done|..]; intros j; pose proof (sum_delete (is_it j) _ k i Hk); tokens; rewrite Hq; cbn -[Nat.add]; lia.
  - eapply Once_quiet; [done|..]; intros j; pose proof (sum_delete (is_call j) _ k b Hk) as Hd; unfold pending, runs;
      rewrite Hq; destruct b as [i []|]; cbn [run_bh bhs q inflight ran set_q set_inflight set_ran set_stop_req batch_of sum_list_with is_call] in *; lia.
  - eapply Once_quiet; [done|..]; intros i; tokens; rewrite Hq; cbn -[Nat.add]; lia.
  - eapply Once_quiet; [done|..]; intros i; tokens; rewrite Hq; cbn -[Nat.add]; lia.
  - eapply Once_quiet; [done|..]; intros i; tokens; rewrite Hq; cbn -[Nat.add]; lia.
Qed.

(** ** Every operation returns *)

Definition holds (p : pc) : Prop := match p with SWait | SLate | PSched | PWait | PLate => True | _ => False end.
Definition calling (p : pc) : Prop := match p with CBegin _ | CSched _ | CWait | CLate => True | _ => False end.
Definition stopper (p : pc) : Prop := match p with PBegin | PSched | PWait | PLate => True | _ => False end.
Definition returned (p : pc) : Prop := match p with SDone _ | CDone _ | PDone => True | _ => False end.
Definition live (x : qpc) : Prop := match x with QReady true | QLoop | QRun _ => True | _ => False end.
Definition looping (x : qpc) : Prop := match x with QLoop | QRun _ => True | _ => False end.

(** What a waiting thread waits for is on its way. *)
Definition served (s : shared) (p : pc) : Prop :=
  match p with
  | SWait | SLate => q s = QInit ∨ (∃ ok, q s = QReady ok) ∨ ready s = true
  | CSched _ => st s = QT_RUNNING
  | PSched => stops s = 0%nat ∧ looping (q s)
  | PWait | PLate => (0 < stops s)%nat ∧ looping (q s) ∨ q s = QExit ∨ stopped s = true
  | _ => True
  end.

(** No thread calls, or no thread stops. *)
Definition quiet (c : list pc * shared) : Prop :=
  (Forall (λ p, ¬ calling p) c.1 ∧ ∀ i, pending i c.2 = 0%nat) ∨ (Forall (λ p, ¬ stopper p) c.1 ∧ stops c.2 = 0%nat).

Record Lv (c : list pc * shared) : Prop := {
  lv_ph : Ph c;
  lv_once : Once c;
  lv_lock i : lock c.2 = Some i ↔ ∃ p, c.1 !! i = Some p ∧ holds p;
  lv_served : Forall (served c.2) c.1;
  lv_pending i : (0 < pending i c.2)%nat → live (q c.2);
  lv_quiet : quiet c }.

(** Threads that have not begun. *)
Definition begins (p : pc) : Prop := match p with SBegin | CBegin _ | PBegin => True | _ => False end.

Lemma start_ph ts : Forall begins ts → Ph (ts, idle) ∧ Once (ts, idle).
Proof.
  intros Ht. pose proof (proj1 (Forall_lookup _ _) Ht) as Hc. split.
  - split; cbn; [split; [by left|done]|]. intros H. destruct (sum_pos stopping ts ltac:(exact H)) as (i & x & Hi & Hx).
    specialize (Hc i x Hi). destruct x; cbn in *; lia || done.
  - intros i p Hi. specialize (Hc i p Hi). by destruct p.
Qed.

Lemma Lv_start ts : Forall begins ts → Forall (λ p, ¬ calling p) ts ∨ Forall (λ p, ¬ stopper p) ts → Lv (ts, idle).
Proof.
  intros Ht Hq. pose proof (proj1 (Forall_lookup _ _) Ht) as Hc. destruct (start_ph ts Ht) as [HP HO]. split; [done|done|cbn..].
  - intros i. split; [done|]. intros (p & Hi & Hh). specialize (Hc i p Hi). by destruct p.
  - apply Forall_lookup. intros i p Hi. specialize (Hc i p Hi). by destruct p.
  - intros i H. cbn in H. lia.
  - destruct Hq; [left|right]; done.
Qed.

(** What a step of a thread has to show. *)
Lemma Lv_thread ts s i x y s' : Lv (ts, s) → step (ts, s) (<[i := y]> ts, s') → ts !! i = Some x →
  (lock s' = lock s ∧ (holds x ↔ holds y) ∨ lock s = None ∧ ¬ holds x ∧ (lock s' = Some i ∧ holds y ∨ lock s' = None ∧ ¬ holds y) ∨
   holds x ∧ lock s' = None ∧ ¬ holds y) →
  (calling y → calling x) → (stopper y → stopper x) →
  served s' y → (∀ p, ¬ (holds p ∧ lock s = None) → ¬ (holds p ∧ holds x) → ¬ (calling p ∧ stopper x) → served s p → served s' p) →
  (∀ j, pending j s' = pending j s ∨ calling x ∧ live (q s')) → (live (q s) → live (q s')) → (stops s' = stops s ∨ stopper x) →
  Lv (<[i := y]> ts, s').
Proof.
  intros H Hs Hi Hlock Hca Hstp Hy Hsv Hpe Hlive Hsto. pose proof (Ph_step _ _ (lv_ph _ H) Hs) as HP.
  pose proof (Once_step _ _ (lv_ph _ H) (lv_once _ H) Hs) as HO. pose proof (lv_lock _ H) as HL. cbn in HL.
  assert (Hlt : (i < length ts)%nat) by (by eapply lookup_lt_Some). split; cbn [fst snd]; [done|done|..].
  - intros j. destruct (decide (i = j)) as [<-|Hn].
    + rewrite list_lookup_insert_eq by done. destruct (HL i) as [L1 L2].
      destruct Hlock as [[-> Hh]|[(E & Hh & [[E2 H2]|[E2 H2]])|(Hh & E & H2)]]; rewrite ?E2, ?E.
      * split; [intros (p & Hp & Hp2)%L1|intros (p & [= <-] & Hp2); apply L2]; [|by exists x; split; [|apply Hh]].
        exists y. split; [done|]. apply Hh. congruence.
      * split; [by exists y|done].
      * split; [done|]. by intros (p & [= <-] & ?).
      * split; [done|]. by intros (p & [= <-] & ?).
    + rewrite list_lookup_insert_ne by done. rewrite <- HL.
      destruct Hlock as [[-> _]|[(E & _ & [[E2 _]|[E2 _]])|(Hh & E & _)]]; rewrite ?E2, ?E; [done|split; congruence|split; congruence|].
      split; [done|]. intros Ej. exfalso. apply Hn. assert (lock s = Some i) by (apply HL; eauto). congruence.
  - apply Forall_lookup. intros j p. destruct (decide (i = j)) as [<-|Hn]; [rewrite list_lookup_insert_eq by done; by intros [= <-]|].
    rewrite list_lookup_insert_ne by done. intros Hj. apply Hsv; [| | |by eapply Forall_lookup_1; [apply (lv_served _ H)|]].
    + intros [Hh E]. assert (lock s = Some j) by (apply HL; eauto). congruence.
    + intros [Hh Hx]. assert (lock s = Some j) by (apply HL; eauto). assert (lock s = Some i) by (apply HL; eauto). congruence.
    + intros [Hc Hx]. destruct (lv_quiet _ H) as [[Hf _]|[Hf _]]; cbn in Hf;
        [exact (Forall_lookup_1 _ _ _ _ Hf Hj Hc)|exact (Forall_lookup_1 _ _ _ _ Hf Hi Hx)].
  - intros j Hj. destruct (Hpe j) as [E|[_ ?]]; [|done]. apply Hlive, (lv_pending _ H j). cbn. lia.
  - destruct (lv_quiet _ H) as [[Hf Hz]|[Hf Hz]]; cbn in Hf, Hz; [left|right]; cbn; pose proof (Forall_lookup_1 _ _ _ _ Hf Hi) as Hx; cbn beta in Hx.
    + split; [|intros j; destruct (Hpe j) as [->|[? _]]; done]. apply Forall_insert; tauto.
    + split; [apply Forall_insert; tauto|]. destruct Hsto as [->|]; done.
Qed.

(** What a step of the QEMU thread has to show. *)
Lemma Lv_qemu ts s s' : Lv (ts, s) → step (ts, s) (ts, s') → lock s' = lock s → (∀ p, served s p → served s' p) →
  (∀ i, pending i s' <= pending i s)%nat → (live (q s) → live (q s') ∨ (0 < stops s)%nat) → (stops s = 0 → stops s' = 0)%nat → Lv (ts, s').
Proof.
  intros H Hs El Hsv Hpe Hl Hst. pose proof (Ph_step _ _ (lv_ph _ H) Hs) as HP.
  pose proof (Once_step _ _ (lv_ph _ H) (lv_once _ H) Hs) as HO. split; cbn [fst snd]; [done|done|..].
  - intros i. rewrite El. apply (lv_lock _ H).
  - eapply Forall_impl; [apply (lv_served _ H)|done].
  - intros i Hi. specialize (Hpe i). destruct (lv_quiet _ H) as [[_ Hz]|[_ Hz]]; cbn in Hz; [specialize (Hz i); lia|].
    destruct Hl as [|?]; [|done|lia]. apply (lv_pending _ H i). cbn. lia.
  - destruct (lv_quiet _ H) as [[Hf Hz]|[Hf Hz]]; cbn in Hf, Hz; [left|right]; cbn; split; try done; [|by apply Hst].
    intros i. specialize (Hpe i). specialize (Hz i). lia.
Qed.

(** The case of a step that changes nothing but the program counter and the
    reports. *)
Ltac lv_same := eapply Lv_thread; [done..|by left|done|done|assumption || done|by intros|by intros; left|done|by left].

Lemma Lv_step_thread ts s i x y s' : Lv (ts, s) → step (ts, s) (<[i := y]> ts, s') → ts !! i = Some x →
  match x with
  | SBegin => lock s = None ∧ start_begin i s = (s', y)
  | SWait | SLate => ready s = true ∧ start_end s = (s', y) ∨ late x = Some y ∧ s' = set_fatals (i :: fatals s) s
  | CBegin co => y = call_begin co s ∧ s' = s
  | CSched co => y = CWait ∧ s' = schedule (BCall i co) s
  | CWait | CLate => y = CDone 0 ∧ s' = s ∨ late x = Some y ∧ s' = set_fatals (i :: fatals s) s
  | PBegin => lock s = None ∧ stop_begin i s = (s', y)
  | PSched => y = PWait ∧ s' = schedule BStop s
  | PWait | PLate => stopped s = true ∧ y = PDone ∧ s' = stop_end s ∨ late x = Some y ∧ s' = set_fatals (i :: fatals s) s
  | _ => False
  end → Lv (<[i := y]> ts, s').
Proof.
  intros H Hs Hi. pose proof (lv_ph _ H) as HP. pose proof (ph_phase _ HP) as Hph. cbn in Hph.
  pose proof (Forall_lookup_1 _ _ _ _ (lv_served _ H) Hi) as Hsv. cbn [snd] in Hsv.
  destruct x; try done.
  - intros [El E]. unfold start_begin in E. destruct (st s) eqn:Es; injection E as <- <-.
    2-4: lv_same.
    pose proof (Ph_idle _ _ HP Es El) as Eq. eapply Lv_thread; [done..| |done|done|by left| | | |].
    + right; left. split; [done|]. split; [cbn; tauto|]. left. done.
    + intros p Hp _ _. destruct p; cbn in *; try done; try naive_solver.
    + intros j. left. unfold pending. cbn. by rewrite Eq.
    + by rewrite Eq.
    + left. unfold stops. cbn. by rewrite Eq.
  - intros [[Er E]|[[= <-] ->]]; [unfold start_end in E; injection E as <- <-|].
    + eapply Lv_thread; [done..|right; right; cbn; tauto|done|done|done|intros p _ Hp _; by destruct p; cbn in *; try tauto|by intros; left|done|by left].
    + lv_same.
  - intros [[Er E]|[[=] _]]. unfold start_end in E; injection E as <- <-.
    eapply Lv_thread; [done..|right; right; cbn; tauto|done|done|done|intros p _ Hp _; by destruct p; cbn in *; try tauto|by intros; left|done|by left].
  - intros [-> ->]. unfold call_begin in *. destruct (decide (st s = QT_RUNNING)) as [Er|Er]; lv_same.
  - intros [-> ->]. cbn in Hsv. assert (Hl : live (q s)) by (unfold phase in Hph; destruct (q s); try destruct ok; naive_solver congruence).
    assert (Hst : stops (schedule (BCall i co) s) = stops s) by (stop_tokens; lia).
    eapply Lv_thread; [done..|by left|done|done|done| |by intros; right|done|by left].
    intros p _ _ _. destruct p; cbn [served]; rewrite ?Hst; done.
  - intros [[-> ->]|[[= <-] ->]]; lv_same.
  - intros [[-> ->]|[[=] _]]; lv_same.
  - intros [El E]. unfold stop_begin in E. destruct (st s) eqn:Es; injection E as <- <-.
    3-4: lv_same.
    + eapply Lv_thread; [done..|by left|done|done|done| |by intros; left|done|by left].
      intros p Hp _ Hc. destruct p; cbn in *; try done; tauto.
    + assert (Hz : stops s = 0%nat).
      { destruct (decide (stops s = 0%nat)) as [|Hz]; [done|]. pose proof (ph_stop _ HP ltac:(cbn; lia)) as E. cbn in E. congruence. }
      assert (Hlo : looping (q s)) by (by destruct (Ph_running _ _ HP Es El) as [-> |[b ->]]).
      eapply Lv_thread; [done..|right; left; cbn; tauto|done|done|done| |by intros; left|done|by left].
      intros p Hp _ Hc. destruct p; cbn in *; try done; tauto.
  - intros [-> ->]. destruct Hsv as [Hz Hlo]. assert (Hst : (0 < stops (schedule BStop s))%nat) by (stop_tokens; lia).
    eapply Lv_thread; [done..|by left|done|done|by left| |intros j; left; rewrite pending_schedule; cbn; lia|done|by right].
    intros p _ Hh Hc. destruct p; cbn in *; try done; tauto.
  - intros [(Er & -> & ->)|[[= <-] ->]].
    + eapply Lv_thread; [done..|right; right; cbn; tauto|done|done|done|intros p _ Hp _; by destruct p; cbn in *; try tauto|by intros; left|done|by left].
    + lv_same.
  - intros [(Er & -> & ->)|[[=] _]].
    eapply Lv_thread; [done..|right; right; cbn; tauto|done|done|done|intros p _ Hp _; by destruct p; cbn in *; try tauto|by intros; left|done|by left].
Qed.

(** A bottom half is run. *)
Lemma Lv_run ts s batch k b : Lv (ts, s) → q s = QRun batch → batch !! k = Some b →
  step (ts, s) (ts, run_bh b (set_q (QRun (delete k batch)) s)) → Lv (ts, run_bh b (set_q (QRun (delete k batch)) s)).
Proof.
  intros H Hq Hk Hs'.
  set (s' := run_bh b (set_q (QRun (delete k batch)) s)). assert (Est : (stops s = 0 ↔ stops s' = 0)%nat).
  { pose proof (sum_delete is_stop _ k b Hk). unfold stops, s'. rewrite Hq.
    destruct b as [i []|]; cbn [run_bh stop_req bhs q set_q set_ran set_inflight set_stop_req batch_of is_stop] in *; lia. }
  assert (Eq : q s' = QRun (delete k batch)) by (by destruct b as [i []|]).
  eapply Lv_qemu; [exact H|exact Hs'|by destruct b as [i []|]|..]; fold s'.
  - assert (E1 : st s' = st s ∧ ready s' = ready s ∧ stopped s' = stopped s) by (by destruct b as [i []|]). destruct E1 as (E1 & E2 & E3).
    intros p. destruct p; cbn [served]; rewrite ?Eq, ?Hq, ?E1, ?E2, ?E3; try done; [naive_solver..|tauto| |];
      (intros [[Hz Hlo]|[?|?]]; [left; split; [lia|done]|done|by right; right]).
  - intros j. pose proof (sum_delete (is_call j) _ k b Hk). unfold pending. rewrite Eq, Hq. unfold s'.
    destruct b as [i []|]; cbn [run_bh bhs q inflight set_q set_ran set_inflight set_stop_req batch_of is_call sum_list_with] in *; lia.
  - rewrite Eq. by left.
  - tauto.
Qed.

Lemma Lv_step c c' : Lv c → step c c' → Lv c'.
Proof.
  intros H Hs. pose proof Hs as Hs'. pose proof (lv_ph _ H) as HP. pose proof (ph_phase _ HP) as Hph. pose proof (ph_stop _ HP) as Hpst.
  step_cases Hs.
  1-9: eapply Lv_step_thread; [exact H|exact Hs'|exact Hi|].
  - done.
  - destruct Hw as [-> | ->]; by left.
  - done.
  - done.
  - destruct Hw as [-> | ->]; by left.
  - done.
  - done.
  - destruct Hw as [-> | ->]; by left.
  - destruct w; try done; by right.
  - unfold phase in Hph. cbn in Hph. rewrite Hq in Hph. destruct Hph as (Es & _ & _ & Ez). eapply Lv_qemu; [exact H|exact Hs'|done|..].
    + intros p. destruct p; cbn; rewrite ?Hq, ?Es, ?Ez; naive_solver.
    + intros i. unfold pending. cbn. by rewrite Hq.
    + by rewrite Hq.
    + unfold stops. cbn. by rewrite Hq.
  - unfold phase in Hph. cbn in Hph. rewrite Hq in Hph. destruct Hph as (Es & _ & _ & Ez). eapply Lv_qemu; [exact H|exact Hs'|done|..].
    + intros p. destruct p; cbn; rewrite ?Hq, ?Es, ?Ez; naive_solver.
    + intros i. unfold pending. cbn. rewrite Hq. by destruct ok.
    + rewrite Hq. cbn. destruct ok; by left || done.
    + unfold stops. cbn. rewrite Hq. by destruct ok.
  - assert (Est : stops (set_q (QRun (bhs s)) (set_bhs [] s)) = stops s) by (stop_tokens; rewrite Hq; cbn -[Nat.add]; lia).
    eapply Lv_qemu; [exact H|exact Hs'|done|..].
    + intros p. destruct p; cbn [served]; rewrite ?Est; cbn; rewrite ?Hq; naive_solver.
    + intros i. tokens. rewrite Hq. cbn -[Nat.add]. lia.
    + by left.
    + by rewrite Est.
  - eapply Lv_qemu; [exact H|exact Hs'|done|by intros []| |by left|done].
    intros j. pose proof (sum_delete (is_it j) _ k i Hk). unfold pending. cbn [complete set_ran set_inflight bhs q inflight]. lia.
  - by eapply Lv_run.
  - eapply Lv_qemu; [exact H|exact Hs'|done|..].
    + intros p. unfold served, stops. cbn. rewrite Hq. destruct p; naive_solver.
    + intros i. unfold pending. cbn. by rewrite Hq.
    + by left.
    + unfold stops. cbn. by rewrite Hq.
  - assert (Hz : (0 < stops s)%nat) by (unfold stops; rewrite Hr; lia). assert (Es : st s = QT_STOPPED) by (apply Hpst; cbn; lia).
    eapply Lv_qemu; [exact H|exact Hs'|done|..].
    + intros p. destruct p; cbn [served]; cbn; rewrite ?Hq; try done; naive_solver lia.
    + intros i. unfold pending. cbn. by rewrite Hq.
    + by right.
    + lia.
  - unfold phase in Hph. cbn in Hph. rewrite Hq in Hph. destruct Hph as [Es _]. eapply Lv_qemu; [exact H|exact Hs'|done|..].
    + intros p. destruct p; cbn [served]; cbn; rewrite ?Hq; naive_solver.
    + intros i. unfold pending. cbn. by rewrite Hq.
    + by rewrite Hq.
    + unfold stops. cbn. by rewrite Hq.
Qed.

(** *** Progress *)

Definition all_returned (ts : list pc) : Prop := Forall returned ts.

(** The bottom halves of a loop that has some, or of a turn, can be run. *)
Lemma turn ts s : looping (q s) → stop_req s = false → bhs s ≠ [] ∨ (∃ b, q s = QRun b) → ∃ c', step (ts, s) c'.
Proof.
  intros Hl Hr Hb. destruct (q s) as [| | | |[|b batch]| |] eqn:Eq; try done.
  - destruct Hb as [|[? ?]]; [|done]. eexists. by eapply step_poll.
  - eexists. by eapply step_ran.
  - eexists. by eapply (step_run _ _ _ 0).
Qed.
Lemma turn_batch ts s b : q s = QRun b → ∃ c', step (ts, s) c'.
Proof. intros Eq. destruct b as [|b batch]; eexists; [by eapply step_ran|by eapply (step_run _ _ _ 0)]. Qed.

Lemma progress_holder ts s i p : Lv (ts, s) → ts !! i = Some p → holds p → ∃ c', step (ts, s) c'.
Proof.
  intros H Hi Hh. pose proof (Forall_lookup_1 _ _ _ _ (lv_served _ H) Hi) as Hsv. cbn [snd] in Hsv.
  destruct p; try done; cbn in Hsv.
  1-2: destruct Hsv as [Eq|[[ok Eq]|Er]]; eexists;
    [by apply (step_init _ _ true)|by eapply step_ready|eapply step_started; [done|by (left + right)|done|reflexivity]].
  - eexists. by eapply step_stop_bh.
  - destruct Hsv as [[Hz Hl]|[Eq|Er]]; [|eexists; by eapply step_exit|eexists; eapply step_stopped; [done|by left|done]].
    destruct (q s) eqn:Eq; try done; [|by eapply turn_batch]. destruct (stop_req s) eqn:Er; [eexists; by eapply step_leave|].
    eexists. eapply step_poll; [done|done|]. intros Eb. unfold stops in Hz. rewrite Er, Eb, Eq in Hz. cbn in Hz. lia.
  - destruct Hsv as [[Hz Hl]|[Eq|Er]]; [|eexists; by eapply step_exit|eexists; eapply step_stopped; [done|by right|done]].
    destruct (q s) eqn:Eq; try done; [|by eapply turn_batch]. destruct (stop_req s) eqn:Er; [eexists; by eapply step_leave|].
    eexists. eapply step_poll; [done|done|]. intros Eb. unfold stops in Hz. rewrite Er, Eb, Eq in Hz. cbn in Hz. lia.
Qed.

Lemma runs_in i s : (0 < runs i s)%nat → i ∈ ran s.
Proof.
  unfold runs. induction (ran s) as [|j l IH]; cbn -[Nat.add]; [lia|]. unfold is_it at 1. destruct (decide (j = i)) as [->|]; intros; [by left|].
  right. apply IH. lia.
Qed.

Lemma progress_call ts s i p : Lv (ts, s) → ts !! i = Some p → p = CWait ∨ p = CLate → ∃ c', step (ts, s) c'.
Proof.
  intros H Hi Hw. pose proof (lv_once _ H i p Hi) as Ho. cbn [snd] in Ho.
  assert (Hsum : (pending i s + runs i s = 1)%nat) by (by destruct Hw as [-> | ->]).
  destruct (decide (runs i s = 0)%nat) as [Hz|Hz]; [|eexists; eapply step_called; [done|done|apply runs_in; lia]].
  assert (Hn : stop_req s = false).
  { destruct (lv_quiet _ H) as [[Hf _]|[_ Hst]]; cbn in *; [|unfold stops in Hst; by destruct (stop_req s)].
    destruct (Forall_lookup_1 _ _ _ _ Hf Hi). by destruct Hw as [-> | ->]. }
  pose proof (lv_pending _ H i) as Hl. cbn in Hl. specialize (Hl ltac:(lia)).
  destruct (q s) as [| |ok| |b| |] eqn:Eq; try done; [eexists; by eapply step_ready| |by eapply turn_batch].
  destruct (bhs s) as [|b l] eqn:Eb; [|eexists; eapply step_poll; [done|done|by rewrite Eb]].
  destruct (inflight s) as [|j l] eqn:Ei; [|eexists; by eapply (step_complete _ _ 0 j); [| |rewrite Ei]].
  unfold pending in Hsum. rewrite Eq, Eb, Ei in Hsum. cbn in Hsum. lia.
Qed.

#[export] Instance returned_dec p : Decision (returned p).
Proof. destruct p; cbn; apply _. Defined.

Lemma qemu_progress c : Lv c → all_returned c.1 ∨ ∃ c', step c c'.
Proof.
  destruct c as [ts s]. intros H. cbn [fst]. destruct (decide (Forall returned ts)) as [|Hn]; [by left|right].
  apply not_Forall_Exists, Exists_exists in Hn as (p & Hp & Hr); [|apply _]. apply list_elem_of_lookup in Hp as [i Hi].
  assert (Hlock : lock s = None ∨ ∃ c', step (ts, s) c').
  { destruct (lock s) as [j|] eqn:El; [right|by left]. destruct (proj1 (lv_lock _ H j) El) as (w & Hj & Hh). by eapply progress_holder. }
  destruct p; try (by destruct Hr); try (by eapply progress_holder).
  - destruct Hlock as [El|]; [|done]. destruct (start_begin i s) as [s' p] eqn:E. eexists. by eapply step_start.
  - eexists. by eapply step_call.
  - eexists. by eapply step_schedule.
  - by eapply progress_call; [| |left].
  - by eapply progress_call; [| |right].
  - destruct Hlock as [El|]; [|done]. destruct (stop_begin i s) as [s' p] eqn:E. eexists. by eapply step_stop.
Qed.

(** *** Runs end *)
Definition weight (p : pc) : nat :=
  match p with
  | SBegin | CBegin _ | PBegin => 9 | CSched _ | PSched => 8
  | SWait | CWait | PWait => 2 | SLate | CLate | PLate => 1 | _ => 0
  end.
Definition qweight (x : qpc) : nat :=
  match x with QNone => 0 | QInit => 5 | QReady _ => 4 | QLoop => 2 | QRun b => 3 + 3 * length b | QExit => 1 | QDead => 0 end.
Definition work (c : list pc * shared) : nat :=
  sum_list_with weight c.1 + qweight (q c.2) + 5 * length (bhs c.2) + length (inflight c.2).

Lemma work_thread ts s i x y s' : ts !! i = Some x →
  (weight y + qweight (q s') + 5 * length (bhs s') + length (inflight s') <
   weight x + qweight (q s) + 5 * length (bhs s) + length (inflight s))%nat → (work (<[i := y]> ts, s') < work (ts, s))%nat.
Proof. intros Hi H. unfold work. cbn [fst snd]. pose proof (sum_insert weight ts i x y Hi). lia. Qed.

Lemma work_step c c' : Lv c → step c c' → (work c' < work c)%nat.
Proof.
  intros H Hs. pose proof (lv_ph _ H) as HP.
  step_cases Hs.
  1-9: eapply work_thread; [done|].
  - unfold start_begin in E. destruct (st s) eqn:Es; injection E as <- <-; cbn; [rewrite (Ph_idle _ _ HP Es Hl); cbn|..]; lia.
  - unfold start_end in E. injection E as <- <-. destruct Hw as [-> | ->]; cbn; lia.
  - unfold call_begin. destruct (decide _); cbn; lia.
  - cbn. rewrite length_app. cbn. lia.
  - destruct Hw as [-> | ->]; cbn; lia.
  - unfold stop_begin in E. destruct (st s); injection E as <- <-; cbn; lia.
  - cbn. rewrite length_app. cbn. lia.
  - destruct Hw as [-> | ->]; cbn; lia.
  - destruct w; simplify_eq/=; lia.
  - unfold work. cbn. rewrite Hq. cbn. lia.
  - unfold work. cbn. rewrite Hq. destruct ok; cbn; lia.
  - unfold work. cbn. rewrite Hq. cbn. destruct (bhs s); [done|]. cbn. lia.
  - unfold work. cbn. rewrite Hq. pose proof (length_delete (inflight s) k ltac:(eauto)). apply lookup_lt_Some in Hk. lia.
  - pose proof (length_delete batch k ltac:(eauto)). apply lookup_lt_Some in Hk. unfold work.
    destruct b as [i []|]; cbn -[Nat.mul]; rewrite Hq; cbn -[Nat.mul]; lia.
  - unfold work. cbn. rewrite Hq. cbn. lia.
  - unfold work. cbn. rewrite Hq. cbn. lia.
  - unfold work. cbn. rewrite Hq. cbn. lia.
Qed.

(** The state only moves forward. *)
Definition follows (x y : qt_state) : Prop :=
  match x with
  | QT_IDLE => True
  | QT_RUNNING => y = QT_RUNNING ∨ y = QT_STOPPED
  | _ => y = x
  end.
Lemma follows_refl x : follows x x.
Proof. destruct x; cbn; auto. Qed.
Lemma state_follows c c' : Ph c → step c c' → follows (st c.2) (st c'.2).
Proof.
  intros H Hs. pose proof (ph_phase _ H) as Hph. unfold phase in Hph. step_cases Hs; cbn [fst snd] in *.
  1: unfold start_begin in E; destruct (st s) eqn:Es; injection E as <- <-; rewrite ?Es; cbn; auto.
  1: unfold start_end in E; injection E as <- <-.
  5: unfold stop_begin in E; destruct (st s) eqn:Es; injection E as <- <-; rewrite ?Es; cbn; auto.
  8: rewrite Hq in Hph; by destruct Hph as [-> _].
  all: try exact (follows_refl (st s)). destruct b as [? []|]; exact (follows_refl (st s)).
Qed.

(** ** Properties *)

(** C10 A call on the QEMU thread runs its function exactly once: in every
    interleaving of any number of starts, calls and stops, a call that has
    returned 0 has had its function run once, one that has returned -1 never
    had it run and has it nowhere pending, and no function runs twice. *)
Theorem qemu_call_once ts c : Forall begins ts → rtc step (ts, idle) c → ∀ i p, c.1 !! i = Some p →
  (runs i c.2 <= 1)%nat ∧
  (p = CDone 0 → runs i c.2 = 1%nat ∧ pending i c.2 = 0%nat) ∧ (p = CDone (-1) → runs i c.2 = 0%nat ∧ pending i c.2 = 0%nat).
Proof.
  intros Ht Hr i p Hi. destruct (start_ph ts Ht) as [HP HO].
  destruct (run_inv step (λ c, Ph c ∧ Once c) ltac:(intros ?? [] ?; split; [by eapply Ph_step|by eapply Once_step]) _ _ Hr (conj HP HO)) as [_ H].
  specialize (H i p Hi). cbn in H. split; [|split; intros ->; cbn in H; lia]. destruct p; cbn in H; lia.
Qed.

(** A run of one start and one call. *)
Definition called : shared := mk_shared QT_RUNNING None false false [] [] false (QRun []) [1%nat] [].
Lemma call_run : rtc step ([SBegin; CBegin false], idle) ([SDone 0; CDone 0], called).
Proof.
  eapply rtc_l; [by eapply (step_start _ _ 0)|cbn]. eapply rtc_l; [by apply (step_init _ _ true)|cbn].
  eapply rtc_l; [by eapply step_ready|cbn]. eapply rtc_l; [by eapply (step_started _ _ 0 SWait); [|left| |]|cbn].
  eapply rtc_l; [by apply (step_call _ _ 1 false)|cbn]. eapply rtc_l; [by apply (step_schedule _ _ 1 false)|cbn].
  eapply rtc_l; [by apply step_poll|cbn]. eapply rtc_l; [by eapply (step_run _ _ _ 0)|cbn].
  eapply rtc_l; [by eapply (step_called _ _ 1 CWait); [|left|left]|cbn]. apply rtc_refl.
Qed.

Lemma qemu_call_once_witness :
  (runs 1 called <= 1)%nat ∧
  (CDone 0 = CDone 0 → runs 1 called = 1%nat ∧ pending 1 called = 0%nat) ∧
  (CDone 0 = CDone (-1) → runs 1 called = 0%nat ∧ pending 1 called = 0%nat).
Proof. exact (qemu_call_once [SBegin; CBegin false] _ ltac:(repeat constructor) call_run 1 (CDone 0) eq_refl). Defined.

(** C24 Nobody waits for ever: among any number of threads that start and
    call, or start and stop, every run has at most nine steps per thread, and
    a run that cannot go on has every operation returned. *)
Theorem qemu_threads_return ts : Forall begins ts → Forall (λ p, ¬ calling p) ts ∨ Forall (λ p, ¬ stopper p) ts →
  (∀ n c, nsteps step n (ts, idle) c → (n <= 9 * length ts)%nat) ∧
  (∀ c, rtc step (ts, idle) c → nf step c → all_returned c.1).
Proof.
  intros Ht Hq. pose proof (Lv_start ts Ht Hq) as H. split.
  - intros n c Hn. pose proof (run_bounded step Lv Lv_step work work_step n _ _ H Hn) as Hb.
    assert (work (ts, idle) <= 9 * length ts)%nat; [|lia]. unfold work. cbn -[Nat.mul]. rewrite !Nat.add_0_r.
    apply (sum_bound_all weight ts 9). eapply Forall_impl; [exact Ht|]. intros []; cbn; lia.
  - intros c Hr Hn. eapply (run_stops step Lv Lv_step (λ c, all_returned c.1) qemu_progress); done.
Qed.

Lemma qemu_threads_return_witness :
  (∀ n c, nsteps step n ([SBegin; SBegin; CBegin true; CBegin false], idle) c → (n <= 36)%nat) ∧
  (∀ c, rtc step ([SBegin; SBegin; CBegin true; CBegin false], idle) c → nf step c → all_returned c.1).
Proof.
  refine (qemu_threads_return [SBegin; SBegin; CBegin true; CBegin false] ltac:(repeat constructor) (or_intror _)).
  repeat (apply Forall_cons; split; [by intros []|]). apply Forall_nil_2.
Defined.

(** A call that reads the state just before a stop changes it schedules its
    bottom half when the loop has ended, and waits for ever. *)
Lemma call_stop_race : ∃ s, rtc step ([SBegin; CBegin false; PBegin], idle) ([SDone 0; CLate; PDone], s) ∧
  nf step ([SDone 0; CLate; PDone], s).
Proof.
  eexists. split.
  - eapply rtc_l; [by eapply (step_start _ _ 0)|cbn]. eapply rtc_l; [by apply (step_init _ _ true)|cbn].
    eapply rtc_l; [by eapply step_ready|cbn]. eapply rtc_l; [by eapply (step_started _ _ 0 SWait); [|left| |]|cbn].
    eapply rtc_l; [by apply (step_call _ _ 1 false)|cbn]. eapply rtc_l; [by eapply (step_stop _ _ 2)|cbn].
    eapply rtc_l; [by apply (step_stop_bh _ _ 2)|cbn]. eapply rtc_l; [by apply step_poll|cbn].
    eapply rtc_l; [by eapply (step_run _ _ _ 0)|cbn]. eapply rtc_l; [by apply step_ran|cbn].
    eapply rtc_l; [by apply step_leave|cbn]. eapply rtc_l; [by apply step_exit|cbn].
    eapply rtc_l; [by eapply (step_stopped _ _ 2 PWait); [|left|]|cbn]. eapply rtc_l; [by apply (step_schedule _ _ 1 false)|cbn].
    eapply rtc_l; [by apply (step_watchdog _ _ 1 CWait CLate)|cbn]. apply rtc_refl.
  - intros [c' Hs]. inversion Hs as [? ? i ? ? Hi|? ? i ? ? ? Hi Hw|? ? i ? Hi|? ? i ? Hi|? ? i ? Hi Hw Hr|? ? i ? ? Hi|? ? i Hi|? ? i ? Hi Hw|? ? i ? ? Hi Hw|
      | | | | | | |]; subst; cbn in *; try done; destruct i as [|[|[|i]]]; cbn in *; simplify_eq/=; try done; try (by destruct Hw).
    by apply not_elem_of_nil in Hr.
Qed.
End QemuThread.
