(* ===== verification/QemuBlk.v ===== *)
(** * QemuBlk

    src/core/qemu_backend.c and src/core/anyfs_tls.c: the block device over
    QEMU's block layer, with the thread of qemu_thread.c as one caller sees it
    (what QemuThread shows of its callers).  QEMU is not part of the
    repository: its calls are a class over an arbitrary state, and what the
    code relies on are laws over the block backends that are open and the
    images beneath them. *)
From S2P Require Import Prelude CLib Lkl Raw QemuThread.
Import CLib Raw.

(** ** QEMU's block layer *)

(** An open block backend: how it was opened, and the bytes it shows. *)
Inductive qvalue := QStr (s : bytes) | QInt (n : Z).
Record blkb := mk_blkb { b_name : option bytes; b_options : list (bytes * qvalue); b_flags : Z; b_data : bytes }.
Record QView := mk_qview { q_blks : gmap Z blkb; q_images : gmap bytes bytes }.

Definition BDRV_O_RDWR : Z := 2.
Definition BDRV_O_SNAPSHOT : Z := 8.

(** [qemu_init] is the initialisation of qemu_thread_fn with the text of its
    error; a read leaves [len] bytes in the buffer whether it fails or not;
    [q_access] is access(path, R_OK) == 0. *)
Class Qemu (W : Type) := {
  qemu_init : kcall W (option bytes);
  blk_new_open : option bytes → list (bytes * qvalue) → Z → kcall W (bytes + Z);
  blk_getlength : Z → kcall W Z;
  blk_unref : Z → kcall W ();
  blk_co_pread : Z → Z → bytes → kcall W (Z * bytes);
  blk_co_pwrite : Z → Z → bytes → kcall W Z;
  blk_co_flush : Z → kcall W Z;
  q_strerror : Z → bytes;
  q_calloc : kcall W bool;
  q_access : bytes → kcall W bool }.

(** A transfer is whole or fails; one that fails may have changed the bytes,
    not the size.  An image is written through a backend opened for writing
    only. *)
Class QemuLaws (W : Type) `{!Qemu W} := {
  qview : W → QView;
  ql_init w : qview (qemu_init w).2 = qview w;
  ql_open n o f w r w' : blk_new_open n o f w = (r, w') →
    match r with
    | inl _ => qview w' = qview w
    | inr b => q_blks (qview w) !! b = None ∧ ∃ d, qview w' = mk_qview (<[b := mk_blkb n o f d]> (q_blks (qview w))) (q_images (qview w))
    end;
  ql_length b x w r w' : blk_getlength b w = (r, w') → q_blks (qview w) !! b = Some x → qview w' = qview w ∧ r < 2 ^ 63 ∧ (0 <= r → r = len (b_data x));
  ql_unref b w : qview (blk_unref b w).2 = mk_qview (delete b (q_blks (qview w))) (q_images (qview w));
  ql_pread b off d x w r d' w' : blk_co_pread b off d w = ((r, d'), w') → q_blks (qview w) !! b = Some x →
    qview w' = qview w ∧ length d' = length d ∧
    (0 <= r → 0 <= off ∧ off + len d <= len (b_data x) ∧ d' = take (length d) (drop (Z.to_nat off) (b_data x)));
  ql_pwrite b off d x w r w' : blk_co_pwrite b off d w = (r, w') → q_blks (qview w) !! b = Some x →
    ∃ c, q_blks (qview w') = <[b := mk_blkb (b_name x) (b_options x) (b_flags x) c]> (q_blks (qview w)) ∧ length c = length (b_data x) ∧
      (0 <= r → 0 <= off ∧ off + len d <= len (b_data x) ∧ c = splice (Z.to_nat off) d (b_data x)) ∧
      (b_flags x ≠ BDRV_O_RDWR → q_images (qview w') = q_images (qview w));
  ql_flush b w : qview (blk_co_flush b w).2 = qview w;
  ql_calloc w : qview (q_calloc w).2 = qview w;
  ql_access p w : qview (q_access p w).2 = qview w }.

Module QemuBlk.
Import QemuThread.

Definition ANYFS_SESSION_SNAPSHOT : Z := 16.

(** g_state and g_start_err, the last error, the environment. *)
Record Qst := mk_qst { qs_state : qt_state; qs_err : bytes; qs_last_error : bytes; qs_env : gmap bytes bytes }.
Record qemu_blk_ctx := mk_ctx { c_blk : Z; c_capacity : Z }.

Definition qemu_get_capacity (ctx : qemu_blk_ctx) : Z * Z := (0, u64 (c_capacity ctx)).

(** What open_image hands to blk_new_open: the name, the options, the flags. *)
Definition bdrv_flags (flags : Z) : Z :=
  if flag flags ANYFS_SESSION_SNAPSHOT then BDRV_O_SNAPSHOT
  else if flag flags ANYFS_SESSION_READONLY then 0
  else BDRV_O_RDWR.

Definition open_args (image_path : bytes) : option bytes * list (bytes * qvalue) :=
  if starts_with (bs "nbd-fd:") image_path then
    (None, [(bs "driver", QStr (bs "nbd")); (bs "server.type", QStr (bs "fd")); (bs "server.str", QStr (drop 7 image_path))])
  else if starts_with (bs "nbd-port:") image_path then
    (None, [(bs "driver", QStr (bs "nbd")); (bs "server.type", QStr (bs "inet")); (bs "server.host", QStr (bs "127.0.0.1"));
            (bs "server.port", QStr (drop 9 image_path))])
  else if strstr (bs "://") image_path then (Some image_path, [(bs "file.timeout", QInt 20)])
  else (Some image_path, []).

Definition bundles : list bytes :=
  [bs "/etc/ssl/certs/ca-certificates.crt"; bs "/etc/pki/tls/certs/ca-bundle.crt"; bs "/etc/ssl/ca-bundle.pem"].

Section Code.
Context {W : Type} `{!Qemu W}.
Notation St := (Qst * W)%type.

Definition set_last_error (t : bytes) : M St () := mmod (λ s, (mk_qst (qs_state s.1) (qs_err s.1) (snprintf 512 t).2 (qs_env s.1), s.2)).
Definition set_state (x : qt_state) (e : bytes) : M St () := mmod (λ s, (mk_qst x e (qs_last_error s.1) (qs_env s.1), s.2)).

(** *** anyfs_tls.c *)
Fixpoint first_readable (candidates : list bytes) : M W (option bytes) :=
  match candidates with
  | [] => mret None
  | c :: rest => ok ← call (q_access c); if (ok : bool) then mret (Some c) else first_readable rest
  end.

Definition anyfs_tls_ca_pick (candidates : list bytes) : M St (option bytes) :=
  e ← mgets (λ s, qs_env s.1 !! bs "SSL_CERT_FILE");
  match e with Some _ => mret None | None => lower (first_readable candidates) end.

(** setenv with overwrite 0. *)
Definition setenv (k v : bytes) : M St () := mmod (λ s,
  (mk_qst (qs_state s.1) (qs_err s.1) (qs_last_error s.1) (match qs_env s.1 !! k with Some _ => qs_env s.1 | None => <[k := v]> (qs_env s.1) end), s.2)).

Definition anyfs_tls_ca_init : M St () :=
  ca ← anyfs_tls_ca_pick bundles;
  match ca with Some ca => setenv (bs "SSL_CERT_FILE") ca | None => mret () end.

(** *** qemu_thread.c, as its caller sees it *)
Definition qemu_thread_start : M St (Z * bytes) :=
  x ← mgets (λ s, qs_state s.1);
  _ ← (if decide (x = QT_IDLE) then
         _ ← anyfs_tls_ca_init;
         r ← lower (call qemu_init);
         e ← mgets (λ s, qs_err s.1);
         match r with
         | None => set_state QT_RUNNING e
         | Some m => set_state QT_FAILED (snprintf 256 (bs "qemu_init_main_loop failed: " ++ m)).2
         end
       else mret ());
  s ← mgets fst;
  if decide (qs_state s = QT_RUNNING) then mret (0, [])
  else mret (-1, (snprintf 256 (if decide (qs_state s = QT_STOPPED) then bs "QEMU thread already stopped" else qs_err s)).2).

(** qemu_thread_call and qemu_thread_co_call of [f]. *)
Definition run_on_thread {A} (f : M St A) : M St (option A) :=
  x ← mgets (λ s, qs_state s.1);
  if decide (x = QT_RUNNING) then a ← f; mret (Some a) else mret None.

Definition qemu_thread_stop : M St () :=
  x ← mgets fst;
  match qs_state x with QT_RUNNING | QT_IDLE => set_state QT_STOPPED (qs_err x) | _ => mret () end.

(** *** qemu_backend.c *)
Definition open_image (image_path : bytes) (flags : Z) : M St (bytes + Z) :=
  lower (call (blk_new_open (open_args image_path).1 (open_args image_path).2 (bdrv_flags flags))).

Definition open_fn (path : bytes) (flags : Z) : M St (bytes + (Z * Z)) :=
  r ← open_image path flags;
  match r with
  | inl e => mret (inl (snprintf 256 e).2)
  | inr blk =>
      n ← lower (call (blk_getlength blk));
      if n <? 0 then
        _ ← lower (call (blk_unref blk));
        mret (inl (snprintf 256 (bs "blk_getlength failed: " ++ q_strerror (- n))).2)
      else mret (inr (blk, n))
  end.

Definition close_fn (blk : Z) : M St () := lower (call (blk_unref blk)).

(** The loop of io_co: the status and the buffers afterwards. *)
Fixpoint io_loop (blk ty offset : Z) (buf : list bytes) : M W (Z * list bytes) :=
  match buf with
  | [] => mret (LKL_DEV_BLK_STATUS_OK, [])
  | b :: rest =>
      if (ty =? LKL_DEV_BLK_TYPE_READ) || (ty =? LKL_DEV_BLK_TYPE_WRITE) || (ty =? LKL_DEV_BLK_TYPE_FLUSH) then
        r ← (if ty =? LKL_DEV_BLK_TYPE_READ then call (blk_co_pread blk offset b)
             else if ty =? LKL_DEV_BLK_TYPE_WRITE then x ← call (blk_co_pwrite blk offset b); mret (x, b)
             else x ← call (blk_co_flush blk); mret (x, b));
        if r.1 <? 0 then mret (LKL_DEV_BLK_STATUS_IOERR, r.2 :: rest)
        else s ← io_loop blk ty (advance offset (len b)) rest; mret (s.1, r.2 :: s.2)
      else mret (LKL_DEV_BLK_STATUS_IOERR, b :: rest)
  end.

(** The product is signed. *)
Definition io_co (blk : Z) (req : lkl_blk_req) : M St (Z * list bytes) :=
  let offset := i64 (rq_sector req) * 512 in
  if (- 2 ^ 63 <=? offset) && (offset <? 2 ^ 63) then lower (io_loop blk (rq_type req) offset (rq_buf req)) else mstuck.

Definition qemu_request (ctx : qemu_blk_ctx) (req : lkl_blk_req) : M St (Z * list bytes) :=
  r ← run_on_thread (io_co (c_blk ctx) req);
  mret (match r with None => (LKL_DEV_BLK_STATUS_IOERR, rq_buf req) | Some r => r end).

(** A failed calloc is not checked: the store through it has no value. *)
Definition qemu_blk_open (image_path : bytes) (flags : Z) : M St (option qemu_blk_ctx) :=
  t ← qemu_thread_start;
  if t.1 <? 0 then _ ← set_last_error t.2; mret None
  else
    r ← run_on_thread (open_fn image_path flags);
    match r with
    | None => _ ← set_last_error (bs "QEMU thread is not running"); mret None
    | Some (inl e) => _ ← set_last_error e; mret None
    | Some (inr (blk, n)) => ok ← lower (call q_calloc); if (ok : bool) then mret (Some (mk_ctx blk n)) else mstuck
    end.

Definition qemu_blk_close (handle : option qemu_blk_ctx) : M St (option qemu_blk_ctx) :=
  match handle with
  | Some ctx => _ ← run_on_thread (close_fn (c_blk ctx)); mret None
  | None => mret None
  end.

Definition qemu_backend_shutdown : M St () := qemu_thread_stop.
End Code.

(** ** The device it promises *)

Definition transfers (ty : Z) : Prop := ty = LKL_DEV_BLK_TYPE_READ ∨ ty = LKL_DEV_BLK_TYPE_WRITE.

(** A device with the bytes [c] answers a request at byte [off] and then has
    the bytes [c']: OK means that the whole transfer lies inside and was done;
    only a write changes the bytes, never their number. *)
Record answer (ty off : Z) (buf : list bytes) (c : bytes) (r : Z * list bytes) (c' : bytes) : Prop := {
  an_status : r.1 = LKL_DEV_BLK_STATUS_OK ∨ r.1 = LKL_DEV_BLK_STATUS_IOERR;
  an_buf : length <$> r.2 = length <$> buf;
  an_kept : ty ≠ LKL_DEV_BLK_TYPE_READ → r.2 = buf;
  an_size : length c' = length c;
  an_data : ty ≠ LKL_DEV_BLK_TYPE_WRITE → c' = c;
  an_known : r.1 = LKL_DEV_BLK_STATUS_OK → buf ≠ [] → transfers ty ∨ ty = LKL_DEV_BLK_TYPE_FLUSH;
  an_inside : r.1 = LKL_DEV_BLK_STATUS_OK → buf ≠ [] → transfers ty → 0 <= off ∧ off + len (mjoin buf) <= len c;
  an_read : r.1 = LKL_DEV_BLK_STATUS_OK → ty = LKL_DEV_BLK_TYPE_READ → mjoin r.2 = take (length (mjoin buf)) (drop (Z.to_nat off) c);
  an_write : r.1 = LKL_DEV_BLK_STATUS_OK → ty = LKL_DEV_BLK_TYPE_WRITE → c' = if decide (buf = []) then c else splice (Z.to_nat off) (mjoin buf) c }.

(** The answers to a list of requests. *)
Inductive device : bytes → list lkl_blk_req → list (Z * list bytes) → bytes → Prop :=
  | dev_nil c : device c [] [] c
  | dev_cons c q r c1 reqs rs c2 : answer (rq_type q) (rq_sector q * 512) (rq_buf q) c r c1 → device c1 reqs rs c2 → device c (q :: reqs) (r :: rs) c2.

Definition set_data (x : blkb) (c : bytes) : blkb := mk_blkb (b_name x) (b_options x) (b_flags x) c.

Section Spec.
Context {W : Type} `{!Qemu W, !QemuLaws W}.
Notation St := (Qst * W)%type.
Implicit Types (w : W) (s : St).

(** Only the bytes of [blk] have changed, and no image unless it is writable. *)
Definition wrote (blk : Z) (x : blkb) (c : bytes) w w' : Prop :=
  q_blks (qview w') = <[blk := set_data x c]> (q_blks (qview w)) ∧ (b_flags x ≠ BDRV_O_RDWR → q_images (qview w') = q_images (qview w)).

Lemma wrote_refl blk x w w' : q_blks (qview w) !! blk = Some x → qview w' = qview w → wrote blk x (b_data x) w w'.
Proof. intros Hx E. split; rewrite E; [|done]. unfold set_data. destruct x. by rewrite insert_id. Qed.

Lemma wrote_trans blk x c1 c2 w w1 w2 : wrote blk x c1 w w1 → wrote blk (set_data x c1) c2 w1 w2 → wrote blk x c2 w w2.
Proof. intros [B1 I1] [B2 I2]. split; [by rewrite B2, B1, insert_insert_eq|]. intros Hf. by rewrite I2, I1. Qed.

Lemma splice_keeps off b c : (off + length b <= length c)%nat → length (splice off b c) = length c.
Proof. intros. rewrite splice_length by lia. lia. Qed.

Lemma answer_cons ty off b d buf c r c1 c2 : ty = LKL_DEV_BLK_TYPE_READ ∨ ty = LKL_DEV_BLK_TYPE_WRITE ∨ ty = LKL_DEV_BLK_TYPE_FLUSH →
  answer ty off [b] c (LKL_DEV_BLK_STATUS_OK, [d]) c1 → answer ty (off + len b) buf c1 r c2 → answer ty off (b :: buf) c (r.1, d :: r.2) c2.
Proof.
  intros Hty A B. destruct (an_status _ _ _ _ _ _ A) as [_|?]; [|done].
  pose proof (an_size _ _ _ _ _ _ A) as Hc1. pose proof (an_buf _ _ _ _ _ _ A) as Hd. cbn [snd fst] in Hd. injection Hd as Hd.
  pose proof (an_inside _ _ _ _ _ _ A eq_refl ltac:(done)) as Hin. cbn in Hin. rewrite app_nil_r in Hin.
  split; cbn [fst snd].
  - apply B.
  - rewrite !fmap_cons, Hd. f_equal. apply B.
  - intros Hn. pose proof (an_kept _ _ _ _ _ _ A Hn) as E. cbn in E. injection E as ->. f_equal. by apply B.
  - rewrite <- Hc1. apply B.
  - intros Hn. rewrite (an_data _ _ _ _ _ _ B Hn). by apply A.
  - unfold transfers. naive_solver.
  - intros E _ Ht. specialize (Hin Ht). rewrite join_cons, length_app. destruct (decide (buf = [])) as [->|Hb]; [cbn; lia|].
    pose proof (an_inside _ _ _ _ _ _ B E Hb Ht). lia.
  - intros E Ht. specialize (Hin (or_introl Ht)). assert (c1 = c) as -> by (apply A; by subst).
    pose proof (an_read _ _ _ _ _ _ A eq_refl Ht) as EA. cbn in EA. rewrite !app_nil_r in EA.
    rewrite !join_cons, (an_read _ _ _ _ _ _ B E Ht), EA, length_app, <- take_take_drop, drop_drop. do 2 f_equal. f_equal. lia.
  - intros E Ht. specialize (Hin (or_intror Ht)). rewrite decide_False by done.
    pose proof (an_write _ _ _ _ _ _ A eq_refl Ht) as EA. cbn in EA. rewrite app_nil_r in EA. rewrite (an_write _ _ _ _ _ _ B E Ht), EA, join_cons.
    destruct (decide (buf = [])) as [->|Hb]; [by cbn; rewrite app_nil_r|].
    rewrite Z2Nat.inj_add, Nat2Z.id by lia. apply splice_splice. lia.
Qed.

Lemma answer_err ty off b d buf c c1 : length d = length b → (ty ≠ LKL_DEV_BLK_TYPE_READ → d = b) → length c1 = length c →
  (ty ≠ LKL_DEV_BLK_TYPE_WRITE → c1 = c) → answer ty off (b :: buf) c (LKL_DEV_BLK_STATUS_IOERR, d :: buf) c1.
Proof. intros Hd Hk Hc Hw. split; cbn [fst snd]; try done; [by right|by rewrite !fmap_cons, Hd|]. intros Hn. by rewrite Hk. Qed.

(** One transfer. *)
Definition one (blk ty off : Z) (b : bytes) : M W (Z * bytes) :=
  if ty =? LKL_DEV_BLK_TYPE_READ then call (blk_co_pread blk off b)
  else if ty =? LKL_DEV_BLK_TYPE_WRITE then x ← call (blk_co_pwrite blk off b); mret (x, b)
  else x ← call (blk_co_flush blk); mret (x, b).

Lemma wp_one blk ty off b x w : q_blks (qview w) !! blk = Some x → ty = LKL_DEV_BLK_TYPE_READ ∨ ty = LKL_DEV_BLK_TYPE_WRITE ∨ ty = LKL_DEV_BLK_TYPE_FLUSH →
  wp (one blk ty off b) (λ r w', ∃ c, wrote blk x c w w' ∧
    (r.1 < 0 ∧ (∀ buf, answer ty off (b :: buf) (b_data x) (LKL_DEV_BLK_STATUS_IOERR, r.2 :: buf) c) ∨
     0 <= r.1 ∧ answer ty off [b] (b_data x) (LKL_DEV_BLK_STATUS_OK, [r.2]) c)) w.
Proof.
  intros Hx Hty. unfold one. destruct Hty as [->|[->| ->]]; cbn [Z.eqb].
  - apply wp_call. destruct (blk_co_pread blk off b w) as [[r d] w'] eqn:E. destruct (ql_pread _ _ _ _ _ _ _ _ E Hx) as (Hv & Hd & Hok). cbn [fst snd].
    exists (b_data x). split; [by apply wrote_refl|]. destruct (Z.lt_ge_cases r 0) as [|Hr]; [left; split; [done|]; intros buf; by apply answer_err|right].
    destruct (Hok Hr) as (H1 & H2 & H3). split; [done|]. split; cbn [fst snd]; try done; [by left|by rewrite !fmap_cons, Hd|by left; left| |].
    + intros _ _ _. cbn. rewrite app_nil_r. lia.
    + intros _ _. cbn. by rewrite !app_nil_r.
  - apply wp_bind, wp_call. destruct (blk_co_pwrite blk off b w) as [r w'] eqn:E. destruct (ql_pwrite _ _ _ _ _ _ _ E Hx) as (c & Hb & Hc & Hok & Him).
    apply wp_ret. cbn [fst snd]. exists c. split; [by split|]. destruct (Z.lt_ge_cases r 0) as [|Hr]; [left; split; [done|]; intros buf; by apply answer_err|right].
    destruct (Hok Hr) as (H1 & H2 & H3). split; [done|]. split; cbn [fst snd]; try done; [by left|by left; right| |].
    + intros _ _ _. cbn. rewrite app_nil_r. lia.
    + intros _ _. rewrite decide_False by done. cbn. by rewrite app_nil_r.
  - apply wp_bind, wp_call. pose proof (ql_flush blk w) as Hv. destruct (blk_co_flush blk w) as [r w']. apply wp_ret. cbn [fst snd] in *.
    exists (b_data x). split; [by apply wrote_refl|]. destruct (Z.lt_ge_cases r 0) as [|Hr]; [left; split; [done|]; intros buf; by apply answer_err|right].
    split; [done|]. split; cbn [fst snd]; try done; [by left|by right|]. intros _ _ [?|?]; done.
Qed.

Lemma io_loop_cons blk ty off b buf : io_loop (W := W) blk ty off (b :: buf) =
  if (ty =? LKL_DEV_BLK_TYPE_READ) || (ty =? LKL_DEV_BLK_TYPE_WRITE) || (ty =? LKL_DEV_BLK_TYPE_FLUSH) then
    r ← one blk ty off b;
    if r.1 <? 0 then mret (LKL_DEV_BLK_STATUS_IOERR, r.2 :: buf)
    else s ← io_loop blk ty (advance off (len b)) buf; mret (s.1, r.2 :: s.2)
  else mret (LKL_DEV_BLK_STATUS_IOERR, b :: buf).
Proof. done. Qed.

Lemma wp_io_loop blk ty buf off x w : q_blks (qview w) !! blk = Some x → 0 <= off → off + len (mjoin buf) < 2 ^ 63 →
  wp (io_loop blk ty off buf) (λ r w', ∃ c, wrote blk x c w w' ∧ answer ty off buf (b_data x) r c) w.
Proof.
  revert off x w. induction buf as [|b buf IH]; intros off x w Hx H0 Hl.
  { exists (b_data x). split; [by apply wrote_refl|]. split; cbn [fst snd]; try done. by left. }
  rewrite io_loop_cons. rewrite join_cons, length_app in Hl. case_if.
  2: { apply wp_ret. exists (b_data x). split; [by apply wrote_refl|]. by apply answer_err. }
  assert (Hty : ty = LKL_DEV_BLK_TYPE_READ ∨ ty = LKL_DEV_BLK_TYPE_WRITE ∨ ty = LKL_DEV_BLK_TYPE_FLUSH) by (zify_bools; naive_solver).
  apply wp_bind. wp_use wp_one; [done..|]. intros [r d] w1 (c & Hw & [[Hr Ha]|[Hr Ha]]); cbn [fst snd] in *.
  { rewrite (proj2 (Z.ltb_lt r 0)) by done. apply wp_ret. by exists c. }
  rewrite (proj2 (Z.ltb_ge r 0)), advance_small by lia. apply wp_bind.
  wp_use (IH (off + len b) (set_data x c)); [destruct Hw as [-> _]; apply lookup_insert_eq|lia..|].
  intros r2 w2 (c2 & Hw2 & Ha2). apply wp_ret. exists c2. split; [by eapply wrote_trans|]. by eapply answer_cons.
Qed.

(** ** The thread *)

Lemma wp_first_readable l w : wp (first_readable l) (λ r w', qview w' = qview w ∧ match r with Some c => c ∈ l | None => True end) w.
Proof.
  revert w. induction l as [|c l IH]; intros w; cbn [first_readable]; [done|]. apply wp_bind, wp_call. pose proof (ql_access c w) as Hv.
  destruct (q_access c w) as [[|] w1]; cbn [fst snd] in *; [apply wp_ret; split; [done|by left]|].
  wp_use IH. intros r w2 [Hv2 Hr]. split; [congruence|]. destruct r; [by right|done].
Qed.

(** The state of the thread and the errors stay; a variable that is set stays. *)
Lemma wp_tls_init s : wp anyfs_tls_ca_init (λ _ s', qview s'.2 = qview s.2 ∧ qs_state s'.1 = qs_state s.1 ∧ qs_err s'.1 = qs_err s.1 ∧
  qs_last_error s'.1 = qs_last_error s.1 ∧ ∀ k v, qs_env s.1 !! k = Some v → qs_env s'.1 !! k = Some v) s.
Proof.
  unfold anyfs_tls_ca_init, anyfs_tls_ca_pick. apply wp_bind, wp_bind, wp_gets. destruct (qs_env s.1 !! _) eqn:E; [by apply wp_ret, wp_ret|].
  apply wp_lower. wp_use wp_first_readable. intros [c|] w' [Hv _]; [|by apply wp_ret]. apply wp_mod. cbn [fst snd qs_env qs_state qs_err qs_last_error]. rewrite E.
  split_and!; [done..|]. intros k v Hk. rewrite lookup_insert_ne; [done|]. intros <-. congruence.
Qed.

(** What a start promises: the thread runs and 0 is returned, or it does not
    and will not; a state that is not QT_IDLE is final. *)
Definition started (t : Z * bytes) s s' : Prop :=
  qview s'.2 = qview s.2 ∧ (t.1 = 0 ∧ qs_state s'.1 = QT_RUNNING ∨ t.1 = -1 ∧ (qs_state s'.1 = QT_FAILED ∨ qs_state s'.1 = QT_STOPPED)) ∧
  (qs_state s.1 ≠ QT_IDLE → s' = s) ∧ (qs_state s.1 = QT_IDLE → qs_state s'.1 ≠ QT_STOPPED).

Lemma wp_thread_start s : wp qemu_thread_start (λ t, started t s) s.
Proof.
  unfold qemu_thread_start. apply wp_bind, wp_gets, wp_bind.
  apply (wp_mono _ (λ _ s', qview s'.2 = qview s.2 ∧ qs_state s'.1 ≠ QT_IDLE ∧ (qs_state s.1 ≠ QT_IDLE → s' = s) ∧ (qs_state s.1 = QT_IDLE → qs_state s'.1 ≠ QT_STOPPED))).
  - destruct (decide _) as [Hi|Hi]; [|by apply wp_ret]. apply wp_bind. wp_use wp_tls_init. intros _ s1 (Hv & Hst & _).
    apply wp_bind, wp_lower, wp_call. pose proof (ql_init s1.2) as Hv2. destruct (qemu_init s1.2) as [r w2]. cbn [fst snd] in *.
    apply wp_bind, wp_gets. destruct r; apply wp_mod; cbn [fst snd qs_state]; (split_and!; [congruence|done|done|done]).
  - intros ? s' (Hv & Hn & Hs & Hq). apply wp_bind, wp_gets. destruct (decide _) as [Hr|Hr]; apply wp_ret; (split_and!; [done| |done|done]); [by left|right].
    split; [done|]. destruct (qs_state s'.1); naive_solver.
Qed.

Lemma wp_on_thread {A} (f : M St A) (Q : option A → St → Prop) s : qs_state s.1 = QT_RUNNING → wp f (λ a, Q (Some a)) s → wp (run_on_thread f) Q s.
Proof. intros Hr Hf. unfold run_on_thread. apply wp_bind, wp_gets. rewrite decide_True by done. by apply wp_bind. Qed.

(** ** Opening, serving, closing *)

Definition fits (req : lkl_blk_req) : Prop := 0 <= rq_sector req ∧ rq_sector req * 512 + len (mjoin (rq_buf req)) < 2 ^ 63.

Definition opened path flags (r : option qemu_blk_ctx) s s' : Prop :=
  match r with
  | None => qview s'.2 = qview s.2
  | Some ctx => qs_state s'.1 = QT_RUNNING ∧ q_blks (qview s.2) !! c_blk ctx = None ∧ ∃ d, c_capacity ctx = len d ∧ len d < 2 ^ 63 ∧
      qview s'.2 = mk_qview (<[c_blk ctx := mk_blkb (open_args path).1 (open_args path).2 (bdrv_flags flags) d]> (q_blks (qview s.2))) (q_images (qview s.2))
  end.

Lemma qview_eta v : mk_qview (q_blks v) (q_images v) = v.
Proof. by destruct v. Qed.

Lemma wp_open_fn path flags s : wp (open_fn path flags) (λ r s', s'.1 = s.1 ∧
  match r with
  | inl _ => qview s'.2 = qview s.2
  | inr (b, n) => q_blks (qview s.2) !! b = None ∧ ∃ d, n = len d ∧ len d < 2 ^ 63 ∧
      qview s'.2 = mk_qview (<[b := mk_blkb (open_args path).1 (open_args path).2 (bdrv_flags flags) d]> (q_blks (qview s.2))) (q_images (qview s.2))
  end) s.
Proof.
  unfold open_fn, open_image. apply wp_bind, wp_lower, wp_call. destruct (blk_new_open _ _ _ s.2) as [r w1] eqn:E1. cbn [fst snd].
  pose proof (ql_open _ _ _ _ _ _ E1) as Ho. destruct r as [e|b]; [by apply wp_ret|]. destruct Ho as (Hn & d & Hv).
  apply wp_bind, wp_lower, wp_call. cbn [fst snd]. destruct (blk_getlength b w1) as [n w2] eqn:E2. cbn [fst snd].
  destruct (ql_length _ (mk_blkb (open_args path).1 (open_args path).2 (bdrv_flags flags) d) _ _ _ E2) as (Hv2 & Hlt & Hlen); [rewrite Hv; apply lookup_insert_eq|].
  destruct (Z.ltb_spec n 0).
  - apply wp_bind, wp_lower, wp_call, wp_ret. cbn [fst snd]. split; [done|]. rewrite ql_unref, Hv2, Hv. cbn [q_blks q_images].
    rewrite delete_insert_id by done. apply qview_eta.
  - apply wp_ret. split; [done|]. split; [done|]. exists d. cbn [fst snd b_data] in *. split_and!; [auto|rewrite <- Hlen; done|congruence].
Qed.

Lemma wp_qemu_open path flags s : (∀ w, (q_calloc w).1 = true) → wp (qemu_blk_open path flags) (λ r, opened path flags r s) s.
Proof.
  intros Hcal. unfold qemu_blk_open. apply wp_bind. wp_use wp_thread_start. intros t s1 (Hv & Ht & _ & _).
  destruct Ht as [[-> Hr]|[-> _]]; cbn [Z.ltb Z.compare]; [|apply wp_bind, wp_mod, wp_ret; exact Hv].
  apply wp_bind, wp_on_thread; [done|]. wp_use wp_open_fn. intros [e|[b n]] s2 [Es Ho]; [apply wp_bind, wp_mod, wp_ret; cbn [opened fst snd]; congruence|].
  destruct Ho as (Hn & d & -> & Hsz & Hv2). apply wp_bind, wp_lower, wp_call. rewrite Hcal. apply wp_ret. cbn [opened fst snd c_blk c_capacity].
  rewrite Es, ql_calloc, <- Hv. split_and!; [done..|]. by exists d.
Qed.

Lemma wp_qemu_request ctx req x s : qs_state s.1 = QT_RUNNING → q_blks (qview s.2) !! c_blk ctx = Some x → fits req →
  wp (qemu_request ctx req) (λ r s', s'.1 = s.1 ∧ ∃ c, wrote (c_blk ctx) x c s.2 s'.2 ∧ answer (rq_type req) (rq_sector req * 512) (rq_buf req) (b_data x) r c) s.
Proof.
  intros Hr Hx [H0 Hl]. unfold qemu_request. apply wp_bind, wp_on_thread; [done|]. unfold io_co. rewrite sector_small by lia.
  rewrite (proj2 (Z.leb_le _ _)), (proj2 (Z.ltb_lt _ _)) by lia. cbn [andb]. apply wp_lower.
  wp_use wp_io_loop; [done|lia|lia|]. intros r w' H. by apply wp_ret.
Qed.

Fixpoint requests (ctx : qemu_blk_ctx) (reqs : list lkl_blk_req) : M St (list (Z * list bytes)) :=
  match reqs with
  | [] => mret []
  | q :: reqs => r ← qemu_request ctx q; rs ← requests ctx reqs; mret (r :: rs)
  end.

Lemma wp_qemu_requests ctx reqs x s : qs_state s.1 = QT_RUNNING → q_blks (qview s.2) !! c_blk ctx = Some x → Forall fits reqs →
  wp (requests ctx reqs) (λ rs s', s'.1 = s.1 ∧ ∃ c, wrote (c_blk ctx) x c s.2 s'.2 ∧ device (b_data x) reqs rs c) s.
Proof.
  intros Hr Hx HF. revert x s Hr Hx. induction HF as [|q reqs Hq _ IH]; intros x s Hr Hx; cbn [requests].
  { apply wp_ret. split; [done|]. exists (b_data x). split; [by apply wrote_refl|constructor]. }
  apply wp_bind. wp_use wp_qemu_request; [done..|]. intros r s1 (E1 & c1 & Hw1 & Ha). apply wp_bind.
  wp_use (IH (set_data x c1)); [by rewrite E1|destruct Hw1 as [-> _]; apply lookup_insert_eq|].
  intros rs s2 (E2 & c2 & Hw2 & Hd). apply wp_ret. split; [congruence|]. exists c2. split; [by eapply wrote_trans|]. by econstructor.
Qed.

Lemma wp_qemu_close ctx s : qs_state s.1 = QT_RUNNING → wp (qemu_blk_close (Some ctx))
  (λ r s', r = None ∧ s'.1 = s.1 ∧ qview s'.2 = mk_qview (delete (c_blk ctx) (q_blks (qview s.2))) (q_images (qview s.2))) s.
Proof.
  intros Hr. cbn [qemu_blk_close]. apply wp_bind, wp_on_thread; [done|]. apply wp_lower, wp_call, wp_ret. split_and!; [done..|]. apply ql_unref.
Qed.

(** A flag word that may not change the image. *)
Definition guarded (flags : Z) : Prop := flag flags ANYFS_SESSION_READONLY = true ∨ flag flags ANYFS_SESSION_SNAPSHOT = true.

Lemma guarded_flags flags : guarded flags → bdrv_flags flags ≠ BDRV_O_RDWR.
Proof. unfold bdrv_flags. intros [-> | ->]; by repeat case_match. Qed.
End Spec.

(** ** The caller's view is a run of the threads *)

(** Nobody is inside the thread's operations. *)
Definition calm (sh : shared) : Prop :=
  lock sh = None ∧ ready sh = false ∧ stopped sh = false ∧ bhs sh = [] ∧ inflight sh = [] ∧
  match st sh with QT_IDLE => q sh = QNone ∧ stop_req sh = false | QT_RUNNING => q sh = QLoop ∧ stop_req sh = false | _ => True end.

Lemma start_run sh (ok : bool) : calm sh →
  ∃ sh', rtc step ([SBegin], sh) ([SDone (start_rc (st sh'))], sh') ∧ calm sh' ∧
    st sh' = (if decide (st sh = QT_IDLE) then if ok then QT_RUNNING else QT_FAILED else st sh).
Proof.
  destruct sh as [x lk rd sp bh fl sr qq rn ft]. intros (Hl & Hr & Hs & Hb & Hf & Hx). cbn in *. subst. destruct x; cbn.
  - destruct Hx as [-> ->]. exists (mk_shared (if ok then QT_RUNNING else QT_FAILED) None false false [] [] false (if ok then QLoop else QDead) rn ft).
    split; [|by destruct ok]. eapply rtc_l; [by eapply (step_start _ _ 0)|]. cbn. eapply rtc_l; [by apply (step_init _ _ ok)|].
    eapply rtc_l; [by apply (step_ready _ _ ok)|]. cbn. eapply rtc_l; [eapply (step_started _ _ 0 SWait); [done|by left|done|done]|]. cbn. by destruct ok.
  - exists (mk_shared QT_RUNNING None false false [] [] sr qq rn ft). split; [|done]. eapply rtc_l; [by eapply (step_start _ _ 0)|]. done.
  - exists (mk_shared QT_FAILED None false false [] [] sr qq rn ft). split; [|done]. eapply rtc_l; [by eapply (step_start _ _ 0)|]. done.
  - exists (mk_shared QT_STOPPED None false false [] [] sr qq rn ft). split; [|done]. eapply rtc_l; [by eapply (step_start _ _ 0)|]. done.
Qed.

Lemma loop_call_run sh co : calm sh →
  ∃ sh' rc, rtc step ([CBegin co], sh) ([CDone rc], sh') ∧ calm sh' ∧ st sh' = st sh ∧
    (if decide (st sh = QT_RUNNING) then rc = 0 ∧ ran sh' = 0%nat :: ran sh else rc = -1 ∧ ran sh' = ran sh).
Proof.
  destruct sh as [x lk rd sp bh fl sr qq rn ft]. intros (Hl & Hr & Hs & Hb & Hf & Hx). cbn in *. subst.
  assert (Hno : x ≠ QT_RUNNING → ∃ sh' rc, rtc step ([CBegin co], mk_shared x None false false [] [] sr qq rn ft) ([CDone rc], sh') ∧ calm sh' ∧ st sh' = x ∧
    rc = -1 ∧ ran sh' = rn).
  { intros Hn. exists (mk_shared x None false false [] [] sr qq rn ft), (-1). split; [|by split_and!]. apply rtc_once. pose proof (step_call [CBegin co] (mk_shared x None false false [] [] sr qq rn ft) 0 co eq_refl) as Hc.
    unfold call_begin in Hc. by rewrite decide_False in Hc. }
  destruct x; try (by apply Hno). destruct Hx as [-> ->]. exists (mk_shared QT_RUNNING None false false [] [] false QLoop (0%nat :: rn) ft), 0.
  split; [|done]. eapply rtc_l; [by apply (step_call _ _ 0 co)|]. cbn. eapply rtc_l; [by apply (step_schedule _ _ 0 co)|]. cbn.
  eapply rtc_l; [by apply step_poll|]. cbn. eapply rtc_l; [by apply (step_run _ _ [BCall 0 co] 0)|]. cbn. destruct co; cbn.
  - eapply rtc_l; [by apply step_ran|]. cbn. eapply rtc_l; [by apply (step_complete _ _ 0 0)|]. cbn.
    eapply rtc_l; [apply (step_called _ _ 0 CWait); [done|by left|by left]|]. done.
  - eapply rtc_l; [by apply step_ran|]. cbn. eapply rtc_l; [apply (step_called _ _ 0 CWait); [done|by left|by left]|]. done.
Qed.

Lemma stop_run sh : calm sh →
  ∃ sh', rtc step ([PBegin], sh) ([PDone], sh') ∧ calm sh' ∧ st sh' = match st sh with QT_RUNNING | QT_IDLE => QT_STOPPED | x => x end.
Proof.
  destruct sh as [x lk rd sp bh fl sr qq rn ft]. intros (Hl & Hr & Hs & Hb & Hf & Hx). cbn in *. subst.
  destruct x; try (eexists; split; [eapply rtc_l; [by eapply (step_stop _ _ 0)|apply rtc_refl]|done]). destruct Hx as [-> ->].
  exists (mk_shared QT_STOPPED None false false [] [] true QDead rn ft). split; [|done].
  eapply rtc_l; [by eapply (step_stop _ _ 0)|]. cbn. eapply rtc_l; [by apply (step_stop_bh _ _ 0)|]. cbn. eapply rtc_l; [by apply step_poll|]. cbn.
  eapply rtc_l; [by apply (step_run _ _ [BStop] 0)|]. cbn. eapply rtc_l; [by apply step_ran|]. cbn. eapply rtc_l; [by apply step_leave|]. cbn.
  eapply rtc_l; [by apply step_exit|]. cbn. eapply rtc_l; [apply (step_stopped _ _ 0 PWait); [done|by left|done]|]. done.
Qed.

(** ** A concrete QEMU

    Names that are known images open; a transfer beyond the end fails. *)
Record toyq := mk_toyq { tq_next : Z; tq_view : QView }.
Definition set_qview (w : toyq) (v : QView) : toyq := mk_toyq (tq_next w) v.
Definition fits_in (off : Z) (d c : bytes) : bool := (0 <=? off) && (off + len d <=? len c).

Lemma fits_in_spec off d c : fits_in off d c = true → 0 <= off ∧ off + len d <= len c.
Proof. unfold fits_in. intros. zify_bools. lia. Qed.

(** [mem]: whether memory can be had. *)
Definition toy_qemu (mem : bool) : Qemu toyq := {|
  qemu_init w := (None, w);
  blk_new_open n o f w :=
    match q_blks (tq_view w) !! tq_next w, n ≫= λ p, q_images (tq_view w) !! p with
    | None, Some d => (inr (tq_next w), mk_toyq (tq_next w + 1) (mk_qview (<[tq_next w := mk_blkb n o f d]> (q_blks (tq_view w))) (q_images (tq_view w))))
    | _, _ => (inl (bs "No such file"), w)
    end;
  blk_getlength b w := (match q_blks (tq_view w) !! b with Some x => if len (b_data x) <? 2 ^ 63 then len (b_data x) else -5 | None => -5 end, w);
  blk_unref b w := ((), set_qview w (mk_qview (delete b (q_blks (tq_view w))) (q_images (tq_view w))));
  blk_co_pread b off d w :=
    match q_blks (tq_view w) !! b with
    | Some x => if fits_in off d (b_data x) then ((0, take (length d) (drop (Z.to_nat off) (b_data x))), w) else ((-5, d), w)
    | None => ((-5, d), w)
    end;
  blk_co_pwrite b off d w :=
    match q_blks (tq_view w) !! b with
    | Some x =>
        if fits_in off d (b_data x) && negb (b_flags x =? 0) then
          let c := splice (Z.to_nat off) d (b_data x) in
          (0, set_qview w (mk_qview (<[b := set_data x c]> (q_blks (tq_view w)))
                (match b_name x with Some p => if b_flags x =? BDRV_O_RDWR then <[p := c]> (q_images (tq_view w)) else q_images (tq_view w) | None => q_images (tq_view w) end)))
        else (-1, w)
    | None => (-5, w)
    end;
  blk_co_flush b w := (0, w);
  q_strerror n := bs "error";
  q_calloc w := (mem, w);
  q_access p w := (false, w) |}.

Definition toy_qemu_laws mem : @QemuLaws toyq (toy_qemu mem).
Proof.
  refine {| qview := tq_view |}; cbn; try done.
  - intros n o f w r w' E. destruct (q_blks _ !! _) eqn:E1; [injection E as <- <-; done|]. destruct (n ≫= _) as [d|]; injection E as <- <-; [|done].
    split; [done|]. by exists d.
  - intros b x w r w' [= <- <-] Hx. rewrite Hx. split; [done|]. destruct (Z.ltb_spec (len (b_data x)) (2 ^ 63)); split; [done..|lia|lia].
  - intros b off d x w r d' w' E Hx. rewrite Hx in E. destruct (fits_in off d (b_data x)) eqn:Hf; injection E as <- <- <-; [|split_and!; [done..|lia]].
    apply fits_in_spec in Hf. split_and!; [done|rewrite length_take, length_drop; lia|]. intros _. by destruct Hf.
  - intros b off d x w r w' E Hx. rewrite Hx in E. destruct (fits_in off d (b_data x) && _) eqn:Hc; injection E as <- <-.
    + apply andb_true_iff in Hc as [Hc%fits_in_spec _]. eexists. split; [done|]. split; [apply splice_keeps; lia|]. split; [by destruct Hc|]. intros Hf. cbn. destruct (b_name x); [|done].
      by rewrite (proj2 (Z.eqb_neq _ _)).
    + exists (b_data x). split; [destruct x; by rewrite insert_id|]. split_and!; [done|lia|done].
Defined.

(** ** Properties *)

(** C22 The QEMU device refines a plain block device. Opening an image either
    fails and leaves no block backend behind, or gives a device whose capacity
    is its number of bytes; every request of any list is then answered as by an
    array of bytes (OK only when the whole transfer lies inside: reads show the
    bytes, writes store them, the size never changes), and closing releases the
    backend. A session that is read-only or a snapshot never changes an image.
    The context can be allocated, and every request starts and ends below 2^63
    bytes. *)
Theorem qemu_refines_device {W} `{!Qemu W, !QemuLaws W} path flags reqs (s : Qst * W) :
  (∀ w, (q_calloc w).1 = true) → Forall fits reqs →
  wp (h ← qemu_blk_open path flags;
      match h with
      | None => mret None
      | Some ctx => rs ← requests ctx reqs; _ ← qemu_blk_close (Some ctx); mret (Some (qemu_get_capacity ctx, rs))
      end)
    (λ r s', q_blks (qview s'.2) = q_blks (qview s.2) ∧ (guarded flags → q_images (qview s'.2) = q_images (qview s.2)) ∧
       match r with
       | None => q_images (qview s'.2) = q_images (qview s.2)
       | Some (cap, rs) => ∃ c c', cap = (0, len c) ∧ device c reqs rs c'
       end) s.
Proof.
  intros Hcal HF. apply wp_bind. wp_use wp_qemu_open; [done|]. intros [ctx|] s1 Ho; [|apply wp_ret; cbn in Ho; by rewrite Ho].
  destruct Ho as (Hr & Hn & d & Hcap & Hsz & Hv). set (x := mk_blkb (open_args path).1 (open_args path).2 (bdrv_flags flags) d) in *. apply wp_bind.
  wp_use (wp_qemu_requests ctx reqs x); [done|rewrite Hv; apply lookup_insert_eq|done|]. intros rs s2 (E2 & c & [Hb Hi] & Hd).
  apply wp_bind. wp_use wp_qemu_close; [by rewrite E2|]. intros ? s3 (_ & _ & Hv3). apply wp_ret. rewrite Hv3. cbn [q_blks q_images].
  rewrite Hb, Hv in *. cbn [q_blks q_images] in *. split_and!.
  - by rewrite insert_insert_eq, delete_insert_id.
  - intros Hg. apply Hi. by apply guarded_flags.
  - exists d, c. split; [|done]. unfold qemu_get_capacity. by rewrite Hcap, u64_small by lia.
Qed.

Definition qemu_reqs : list lkl_blk_req :=
  [mk_req LKL_DEV_BLK_TYPE_WRITE 1 [[1; 2]; [3]]; mk_req LKL_DEV_BLK_TYPE_READ 1 [[0; 0; 0; 0]]; mk_req LKL_DEV_BLK_TYPE_READ 2 [[9]];
   mk_req LKL_DEV_BLK_TYPE_FLUSH 0 []; mk_req LKL_DEV_BLK_TYPE_FLUSH_OUT 0 [[0]]].
Definition qemu0 : Qst * toyq := (mk_qst QT_IDLE [] [] ∅, mk_toyq 1 (mk_qview ∅ {[ bs "a" := replicate 1024 7 ]})).

Lemma qemu_refines_device_witness :
  wp (S := Qst * toyq) (h ← qemu_blk_open (Qemu0 := toy_qemu true) (bs "a") ANYFS_SESSION_SNAPSHOT;
      match h with
      | None => mret None
      | Some ctx => rs ← requests (Qemu0 := toy_qemu true) ctx qemu_reqs; _ ← qemu_blk_close (Qemu0 := toy_qemu true) (Some ctx); mret (Some (qemu_get_capacity ctx, rs))
      end)
    (λ r s', q_blks (tq_view s'.2) = ∅ ∧ (guarded ANYFS_SESSION_SNAPSHOT → q_images (tq_view s'.2) = {[ bs "a" := replicate 1024 7 ]}) ∧
       match r with
       | None => q_images (tq_view s'.2) = {[ bs "a" := replicate 1024 7 ]}
       | Some (cap, rs) => ∃ c c', cap = (0, len c) ∧ device c qemu_reqs rs c'
       end) qemu0.
Proof.
  refine (@qemu_refines_device toyq (toy_qemu true) (toy_qemu_laws true) (bs "a") ANYFS_SESSION_SNAPSHOT qemu_reqs qemu0 _ _); [done|].
  repeat constructor; cbn; lia.
Defined.

(** The same requests, evaluated: the overlay is read back and the image is
    unchanged; a read beyond the end fails and leaves the buffer alone. *)
Example qemu_toy :
  (λ r, (r.1, default [] (q_images (tq_view r.2.2) !! bs "a") !! 512%nat)) <$>
    (h ← qemu_blk_open (Qemu0 := toy_qemu true) (bs "a") ANYFS_SESSION_SNAPSHOT;
     match h with None => mret None | Some ctx => rs ← requests (Qemu0 := toy_qemu true) ctx qemu_reqs; mret (Some rs) end) qemu0 =
  Some (Some [(0, [[1; 2]; [3]]); (0, [[1; 2; 3; 7]]); (1, [[9]]); (0, []); (1, [[0]])], Some 7).
Proof. vm_compute. reflexivity. Qed.

(** What the backend assumes of the thread is what the thread does: from a
    quiet state, qemu_thread_start, qemu_thread_call and qemu_thread_stop as
    used here correspond to runs of the step relation of the threads that
    return the same code, leave the same state and, for a call that reports
    0, have run its function once on the QEMU thread. *)
Theorem thread_refines {W} `{!Qemu W, !QemuLaws W} {A} (f : M (Qst * W) A) (co : bool) (s : Qst * W) sh :
  calm sh → st sh = qs_state s.1 → wp f (λ _ s', qs_state s'.1 = qs_state s.1) s →
  wp qemu_thread_start (λ t s', ∃ sh', rtc step ([SBegin], sh) ([SDone t.1], sh') ∧ calm sh' ∧ st sh' = qs_state s'.1) s ∧
  wp (run_on_thread f) (λ r s', ∃ sh', rtc step ([CBegin co], sh) ([CDone (match r with Some _ => 0 | None => -1 end)], sh') ∧ calm sh' ∧
    st sh' = qs_state s'.1 ∧ ran sh' = match r with Some _ => 0%nat :: ran sh | None => ran sh end) s ∧
  wp qemu_thread_stop (λ _ s', ∃ sh', rtc step ([PBegin], sh) ([PDone], sh') ∧ calm sh' ∧ st sh' = qs_state s'.1) s.
Proof.
  intros Hc Hs Hf. split_and!.
  - wp_use wp_thread_start. intros t s' (_ & Ht & Hk & Hq). destruct (start_run sh (bool_decide (qs_state s'.1 = QT_RUNNING)) Hc) as (sh' & Hr & Hc' & Hst).
    assert (E : st sh' = qs_state s'.1).
    { rewrite Hst. destruct (decide _) as [Hi|Hi]; rewrite Hs in Hi; [|by rewrite Hs, (Hk Hi)]. specialize (Hq Hi). case_bool_decide; [done|]. naive_solver. }
    exists sh'. split_and!; [|done..]. replace t.1 with (start_rc (st sh')); [done|]. rewrite E. unfold start_rc.
    destruct Ht as [[-> ->]|[-> [-> | ->]]]; done.
  - unfold run_on_thread. apply wp_bind, wp_gets. destruct (loop_call_run sh co Hc) as (sh' & rc & Hr & Hc' & Hst & Hrc). rewrite Hs in Hrc.
    destruct (decide _); destruct Hrc as [-> Hran].
    + apply wp_bind. wp_use Hf. intros a s' E. apply wp_ret. exists sh'. split_and!; [done..|congruence|done].
    + apply wp_ret. exists sh'. split_and!; [done..|congruence|done].
  - unfold qemu_thread_stop. apply wp_bind, wp_gets. destruct (stop_run sh Hc) as (sh' & Hr & Hc' & Hst). rewrite Hs in Hst.
    destruct (qs_state s.1) eqn:E; [apply wp_mod|apply wp_mod|apply wp_ret|apply wp_ret]; exists sh'; (split_and!; [done..|]); rewrite Hst; cbn; congruence.
Qed.

Lemma thread_refines_witness :
  let f : M (Qst * toyq) (Z * list bytes) := io_co (Qemu0 := toy_qemu true) 1 (mk_req LKL_DEV_BLK_TYPE_FLUSH 0 [[]]) in
  wp (S := Qst * toyq) (qemu_thread_start (Qemu0 := toy_qemu true)) (λ t s', ∃ sh', rtc step ([SBegin], idle) ([SDone t.1], sh') ∧ calm sh' ∧ st sh' = qs_state s'.1) qemu0 ∧
  wp (run_on_thread f) (λ r s', ∃ sh', rtc step ([CBegin true], idle) ([CDone (match r with Some _ => 0 | None => -1 end)], sh') ∧ calm sh' ∧
    st sh' = qs_state s'.1 ∧ ran sh' = match r with Some _ => [0%nat] | None => [] end) qemu0 ∧
  wp (S := Qst * toyq) qemu_thread_stop (λ _ s', ∃ sh', rtc step ([PBegin], idle) ([PDone], sh') ∧ calm sh' ∧ st sh' = qs_state s'.1) qemu0.
Proof.
  refine (@thread_refines toyq (toy_qemu true) (toy_qemu_laws true) _ (io_co (Qemu0 := toy_qemu true) 1 (mk_req LKL_DEV_BLK_TYPE_FLUSH 0 [[]])) true qemu0 idle _ _ _);
    [by split_and!|reflexivity|vm_compute; reflexivity].
Defined.

(** ** The options *)

(** A session that asks for a snapshot gets one even when it is read-only; the
    image is opened for writing only when neither is asked for. *)
Lemma rdwr_iff flags : bdrv_flags flags = BDRV_O_RDWR ↔ flag flags ANYFS_SESSION_READONLY = false ∧ flag flags ANYFS_SESSION_SNAPSHOT = false.
Proof. unfold bdrv_flags. destruct (flag flags ANYFS_SESSION_READONLY), (flag flags ANYFS_SESSION_SNAPSHOT); split; naive_solver. Qed.

(** A user's SSL_CERT_FILE is never replaced. *)
Lemma tls_keeps_user {W} `{!Qemu W, !QemuLaws W} v (s : Qst * W) : qs_env s.1 !! bs "SSL_CERT_FILE" = Some v →
  wp qemu_thread_start (λ _ s', qs_env s'.1 !! bs "SSL_CERT_FILE" = Some v) s.
Proof.
  intros Hv. unfold qemu_thread_start. apply wp_bind, wp_gets, wp_bind. apply (wp_mono _ (λ _ s', qs_env s'.1 !! bs "SSL_CERT_FILE" = Some v)).
  - destruct (decide _); [|by apply wp_ret]. apply wp_bind. wp_use wp_tls_init. intros _ s1 (_ & _ & _ & _ & He).
    apply wp_bind, wp_lower, wp_call, wp_bind, wp_gets. case_match; apply wp_mod; cbn [fst qs_env]; by apply He.
  - intros ? s' H. apply wp_bind, wp_gets. case_match; by apply wp_ret.
Qed.

(** ** What the code does not handle *)

(** An image that opens while no memory is left: the store through the NULL
    pointer. *)
Lemma calloc_unchecked : qemu_blk_open (Qemu0 := toy_qemu false) (bs "a") 0 qemu0 = None.
Proof. vm_compute. reflexivity. Qed.

(** A flush without data buffers reports OK and does not reach QEMU, and the
    other kind of flush is an error. *)
Lemma qemu_flushes {W} `{!Qemu W} blk b (w : W) :
  io_loop blk LKL_DEV_BLK_TYPE_FLUSH 0 [] w = Some ((LKL_DEV_BLK_STATUS_OK, []), w) ∧
  io_loop blk LKL_DEV_BLK_TYPE_FLUSH_OUT 0 [b] w = Some ((LKL_DEV_BLK_STATUS_IOERR, [b]), w).
Proof. done. Qed.

(** Closing a disk after the thread has stopped frees the context and leaves
    the block backend open. *)
Lemma close_after_stop {W} `{!Qemu W} ctx (s : Qst * W) : qs_state s.1 = QT_STOPPED → qemu_blk_close (Some ctx) s = Some (None, s).
Proof. intros E. unfold qemu_blk_close, run_on_thread, mgets. unfold mbind, M_bind. rewrite E. done. Qed.
End QemuBlk.
