(* ===== verification/Share.v ===== *)
(** * Share

    src/core/anyfs_share.c and anyfs_server_resolve_shares of
    src/server_common/server_common.c: a --share specification is resolved to
    a share name and the mount point it serves.  The state is the list of open
    sessions beside the kernel's. *)
From S2P Require Import Prelude CLib Lkl Path Probe Sysfs MountOpts Mount Dm Session SessionSpec.
Import CLib Probe Mount Session SessionSpec.

Module Share.

(** ** Specifications as text *)

(** [out_sz = 0] writes nothing. *)
Definition anyfs_share_auto_name (path : bytes) (out_sz : Z) : option bytes :=
  if out_sz =? 0 then None
  else
    let n := if out_sz <=? len path then out_sz - 1 else len path in
    Some ((λ c, if c =? 47 then 95 else c) <$> take (Z.to_nat n) path).

(** The name, if there is an '=', and the path. *)
Definition anyfs_share_split (spec : bytes) : option bytes * bytes :=
  match strchr 61 spec with
  | Some (name, path) => (Some name, path)
  | None => (None, spec)
  end.

(** Whether the warning is printed: a pair of some query is key=... *)
Fixpoint query_has_key (fuel : nat) (kv : bytes) : bool :=
  match fuel with
  | O => false
  | S f =>
      starts_with (bs "key=") kv ||
      match strchr 38 kv with Some (_, rest) => query_has_key f rest | None => false end
  end.
Definition anyfs_share_warn_literal_key (comps : list Path.AnyfsPathComp) : bool :=
  existsb (λ c, match Path.query c with
                | None | Some [] => false
                | Some q => query_has_key (S (length q)) q
                end) comps.

(** sscanf(path, "disk%u%c", ...) == 1: the number, and nothing after it. *)
Definition scan_whole (path : bytes) : option Z :=
  if starts_with (bs "disk") path then
    match scan_u (drop 4 path) with Some (v, []) => Some v | _ => None end
  else None.

(** Steps 1 to 6: the name, the disk and the components.  [Some None]: -1. *)
Definition share_parse (strdup : bool) (spec : bytes) (n_disks : Z) :
    option (option (option bytes * Z * list Path.AnyfsPathComp)) :=
  let '(name_arg, path_arg) := anyfs_share_split (strncpy 256 spec) in
  let digit := match path_arg with c :: _ => isdigit c | [] => false end in
  if digit && (1 <? n_disks) then Some None
  else
    let path_arg := if digit then (snprintf 64 (bs "p" ++ path_arg)).2 else path_arg in
    let path_arg :=
      if (n_disks =? 1) && negb (starts_with (bs "disk") path_arg)
      then (snprintf 256 (bs "disk0/" ++ path_arg)).2 else path_arg in
    r ← match scan_whole path_arg with
        | Some v => Some (0, Path.mk_path None true (i32 v) 0 [])
        | None => Path.anyfs_path_parse strdup (Some path_arg) Path.zero_path
        end;
    let '(rc, ap) := r in
    if rc <? 0 then Some None
    else if (1 <? n_disks) && negb (Path.disk_idx_set ap) then Some None
    else if n_disks <=? Path.disk_idx ap then Some None
    else Some (Some (name_arg, Path.disk_idx ap, Path.comp ap)).

(** disk<N>_p<K>_p<K>...; a component that does not fit is cut and ends it. *)
Fixpoint canonical_loop (comps : list Path.AnyfsPathComp) (text : bytes) : bytes :=
  match comps with
  | [] => text
  | c :: rest =>
      let s := bs "_p" ++ fmt_u (Path.p c) in
      if 160 - len text <=? len s then text ++ (snprintf (160 - len text) s).2
      else canonical_loop rest (text ++ s)
  end.
Definition canonical (disk : Z) (comps : list Path.AnyfsPathComp) : bytes :=
  canonical_loop comps (snprintf 160 (bs "disk" ++ fmt_d disk)).2.

Definition share_name (name_arg : option bytes) (disk : Z) (comps : list Path.AnyfsPathComp) (name_sz : Z) : bytes :=
  match name_arg with
  | Some (c :: n) => strncpy name_sz (c :: n)
  | _ => default [] (anyfs_share_auto_name (canonical disk comps) name_sz)
  end.

(** ** Resolution *)
Section Resolve.
Context {W : Type} `{!Lkl W, !Host W, !Core W} (creds : Creds) (strdup : bool).
Notation St := (list AnyfsSession * W)%type.

(** Run session code on disks[i]; an index outside the array is not one. *)
Definition on_disk {A} (i : Z) (m : M (AnyfsSession * W) A) : M St A := λ s,
  if i <? 0 then None
  else match s.1 !! Z.to_nat i with
       | None => None
       | Some d =>
           match m (d, s.2) with
           | Some (a, (d', w')) => Some (a, (<[Z.to_nat i := d']> s.1, w'))
           | None => None
           end
       end.

(** [None] for -1, otherwise the share name and the mount point. *)
Definition anyfs_share_resolve (spec : bytes) (enter_flags name_sz lkl_sz : Z) : M St (option (bytes * bytes)) :=
  n ← mgets (λ s, len s.1);
  t ← mopt (share_parse strdup spec n);
  match t with
  | None => mret None
  | Some (name_arg, disk, comps) =>
      r ← on_disk disk (if len comps =? 0 then anyfs_session_enter creds 0 enter_flags
                        else anyfs_session_enter_path creds comps enter_flags);
      if r.1 <? 0 then mret None
      else mret (Some (share_name name_arg disk comps name_sz, strncpy lkl_sz r.2))
  end.

(** The entries filled; [None] for -1. *)
Fixpoint resolve_loop (specs : list bytes) (enter_flags max_out : Z) (out : list (bytes * bytes)) :
    M St (option (list (bytes * bytes))) :=
  match specs with
  | [] => mret (Some out)
  | spec :: rest =>
      if max_out <=? len out then mret None
      else
        e ← anyfs_share_resolve spec enter_flags 64 ANYFS_LKL_PATH_MAX;
        match e with
        | None => mret None
        | Some e => resolve_loop rest enter_flags max_out (out ++ [e])
        end
  end.
Definition anyfs_server_resolve_shares (specs : list bytes) (enter_flags max_out : Z) :=
  resolve_loop specs enter_flags max_out [].
End Resolve.

(** ** Parsing *)

Lemma share_split_CStr spec name path : CStr spec → anyfs_share_split spec = (name, path) → CStr path.
Proof.
  unfold anyfs_share_split. intros Hs. destruct (strchr 61 spec) as [[a b]|] eqn:E; intros [= <- <-]; [|done].
  apply strchr_Some in E as [-> _]. apply CStr_app in Hs as [_ Hs]. by apply CStr_cons in Hs as [_ ?].
Qed.

Lemma CStr_snprintf n s : CStr s → CStr (snprintf n s).2.
Proof. intros H. cbn. by apply CStr_take. Qed.

(** What the parse guarantees of the disk and the components. *)
Definition target_ok (n disk : Z) (comps : list Path.AnyfsPathComp) : Prop :=
  disk < n ∧ len comps <= 8 ∧ Forall (λ c, 0 <= Path.p c < 2 ^ 32) comps.

Lemma share_parse_ok sd spec n : CStr spec →
  ∃ t, share_parse sd spec n = Some t ∧ ∀ name disk comps, t = Some (name, disk, comps) → target_ok n disk comps.
Proof.
  intros Hs. unfold share_parse. destruct (anyfs_share_split (strncpy 256 spec)) as [name path] eqn:E.
  assert (Hp : CStr path) by (eapply share_split_CStr; [|exact E]; by apply CStr_take). clear E.
  case_if; [by eexists|]. set (p1 := if _ : bool then _ else path).
  assert (H1 : CStr p1).
  { unfold p1. case_if; [|done]. apply CStr_snprintf, CStr_app. split; [solve_cstr|done]. }
  set (p2 := if (n =? 1) && _ then _ else p1). assert (H2 : CStr p2).
  { unfold p2. case_if; [|done]. apply CStr_snprintf, CStr_app. split; [solve_cstr|done]. }
  clearbody p2. destruct (scan_whole p2) as [v|]; cbn [mbind option_bind].
  - cbn [Path.disk_idx_set Path.disk_idx Path.comp]. repeat case_if; eexists; (split; [done|]); intros ? ? ? E3;
      try discriminate E3. injection E3 as <- <- <-.
    zify_bools; (split_and!; [lia|cbn; lia|constructor]).
  - destruct (Path.path_parse_ok sd p2 Path.zero_path H2) as (rc & ap & -> & Hap). cbn [mbind option_bind].
    repeat case_if; eexists; (split; [done|]); intros ? ? ? E3; try discriminate E3.
    injection E3 as <- <- <-. destruct Hap as [(_ & _ & Hn & Hl & Hf)|[-> ->]]; [|zify_bools; lia].
    zify_bools; (split_and!; [lia|lia|done]).
Qed.

(** The canonical name is never cut: eight components fit. *)
Definition canonical_text (disk : Z) (comps : list Path.AnyfsPathComp) : bytes :=
  bs "disk" ++ fmt_d disk ++ mjoin ((λ c, bs "_p" ++ fmt_u (Path.p c)) <$> comps).

Lemma canonical_loop_fits comps text : Forall (λ c, 0 <= Path.p c < 2 ^ 32) comps →
  len text + 12 * len comps < 160 →
  canonical_loop comps text = text ++ mjoin ((λ c, bs "_p" ++ fmt_u (Path.p c)) <$> comps).
Proof.
  intros Hf. revert text. induction Hf as [|c comps Hc _ IH]; intros text Hl; cbn [canonical_loop].
  { by rewrite app_nil_r. }
  pose proof (fmt_u_len32 (Path.p c) Hc). cbn [length] in Hl.
  assert (Hs : len (bs "_p" ++ fmt_u (Path.p c)) <= 12) by (rewrite length_app; change (length (bs "_p")) with 2%nat; lia).
  rewrite (proj2 (Z.leb_gt _ _)) by lia. rewrite IH by (rewrite length_app; lia). by rewrite <- app_assoc, fmap_cons, join_cons.
Qed.

Lemma canonical_eq disk comps : 0 <= disk < 2 ^ 31 → len comps <= 8 → Forall (λ c, 0 <= Path.p c < 2 ^ 32) comps →
  canonical disk comps = canonical_text disk comps.
Proof.
  intros Hd Hl Hf. unfold canonical, canonical_text. pose proof (fmt_d_len32 disk). 
  assert (Ht : len (bs "disk" ++ fmt_d disk) <= 15) by (rewrite length_app; change (length (bs "disk")) with 4%nat; lia).
  rewrite snprintf_fits by lia. rewrite canonical_loop_fits by (done || lia). by rewrite <- app_assoc.
Qed.

Lemma parts_head l : not_digit_head (mjoin ((λ c, bs "_p" ++ fmt_u (Path.p c)) <$> l)).
Proof. by destruct l. Qed.

Lemma parts_inj l l' : Forall (λ c, 0 <= Path.p c < 2 ^ 32) l → Forall (λ c, 0 <= Path.p c < 2 ^ 32) l' →
  mjoin ((λ c, bs "_p" ++ fmt_u (Path.p c)) <$> l) = mjoin ((λ c, bs "_p" ++ fmt_u (Path.p c)) <$> l') →
  Path.p <$> l = Path.p <$> l'.
Proof.
  intros Hl. revert l'. induction Hl as [|c l Hc _ IH]; intros l' Hl' E.
  { destruct l' as [|c' l']; [done|]. discriminate E. }
  destruct l' as [|c' l']; [discriminate E|]. apply Forall_cons in Hl' as [Hc' Hl'].
  rewrite !fmap_cons, !join_cons, <- !app_assoc in E. apply app_inv_head in E.
  apply digits_split in E as [Ep E]; [|lia|lia|apply parts_head|apply parts_head].
  rewrite !fmap_cons, Ep. f_equal. by apply IH.
Qed.

(** ** Resolution *)
Section ResolveSpec.
Context {W : Type} `{!Lkl W, !LklLaws W, !Host W, !HostLaws W, !Core W, !CoreLaws W}.
Notation St := (list AnyfsSession * W)%type.
Implicit Types (ds : list AnyfsSession) (w : W).

Lemma wp_on_disk {A} i (m : M (AnyfsSession * W) A) (Q : A → St → Prop) ds d w :
  0 <= i → ds !! Z.to_nat i = Some d →
  wp m (λ a s', Q a (<[Z.to_nat i := s'.1]> ds, s'.2)) (d, w) → wp (on_disk i m) Q (ds, w).
Proof.
  intros Hi Hd H. unfold wp, on_disk in *. rewrite (proj2 (Z.ltb_ge i 0)) by done. cbn [fst snd]. rewrite Hd.
  by destruct (m (d, w)) as [[a [d' w']]|].
Qed.

(** Entering what the components name: an error, or a mount point that is in
    the kernel's table, read-only when the session is. *)
Lemma wp_enter_target creds comps flags d w : SInv (-2) d (mnts w) →
  wp (if len comps =? 0 then anyfs_session_enter creds 0 flags else anyfs_session_enter_path creds comps flags)
    (λ r s', SInv (-2) s'.1 (mnts s'.2) ∧ static s'.1 = static d ∧
      (r.1 < 0 ∨ (mounted_at s'.1 (mnts s'.2) r.2 ∧ len r.2 < 64))) (d, w).
Proof.
  intros H. assert (Hd : disk_range d) by apply H. case_if.
  - eapply wp_mono; [by apply wp_enter_whole|]. intros r s' (I & Hs & Hr). split_and!; [done..|].
    assert (Hm : whole_state s'.1 = ANYFS_PART_MOUNTED → mounted_at s'.1 (mnts s'.2) (whole_path d)).
    { intros Hm. rewrite <- (whole_path_static d s'.1 Hs). by apply (inv_wmnt _ _ _ I). }
    pose proof (whole_path_len d Hd).
    destruct Hr as [(-> & _)|[(-> & Hm' & Ed)|[(-> & Hm' & _)|(Hn & _)]]]; [by left|right|right|by left].
    + split; [apply Hm; by rewrite Ed|done].
    + split; [by apply Hm|done].
  - wp_use wp_enter_path; [done|]. intros r s' (I & Hs & Hle & Hz). split_and!; [done..|].
    destruct (Z.lt_ge_cases r.1 0); [by left|right]. destruct Hz as (i & p & Hp & Hm & ->); [lia|].
    rewrite <- (slot_path_static d s'.1 p p Hs eq_refl). split; [by apply (inv_mnt _ _ _ I i p)|].
    apply slot_path_len; [|eapply ok_range; [apply I|done]]. unfold disk_range. by injection Hs as -> _ _.
Qed.

Definition all_ok ds w : Prop := ∀ i d, ds !! i = Some d → SInv (-2) d (mnts w).

(** What a resolved share guarantees: one session was used, the others are
    as they were; the mount point is live; the name is not empty and fits. *)
Definition resolved ds (name_sz : Z) (r : option (bytes * bytes)) (s' : St) : Prop :=
  s'.1 = ds ∨ ∃ i d', s'.1 = <[i := d']> ds ∧ SInv (-2) d' (mnts s'.2) ∧
    match r with
    | None => True
    | Some (name, path) => mounted_at d' (mnts s'.2) path ∧ name ≠ [] ∧ len name < name_sz
    end.

Lemma share_name_ok name disk comps sz : 1 < sz → 
  share_name name disk comps sz ≠ [] ∧ len (share_name name disk comps sz) < sz.
Proof.
  intros Hsz. assert (Hne : canonical disk comps ≠ []).
  { assert (Hl : ∀ l t, t ≠ [] → canonical_loop l t ≠ []).
    { induction l as [|c l IH]; intros t Ht; [done|]. cbn [canonical_loop].
      case_if; [by intros [? _]%app_eq_nil|apply IH; by intros [? _]%app_eq_nil]. }
    apply Hl. cbn. discriminate. }
  assert (Ht : ∀ s : bytes, s ≠ [] → take (Z.to_nat (sz - 1)) s ≠ []).
  { intros [|c s] Hs; [done|]. destruct (Z.to_nat (sz - 1)) eqn:E; [lia|done]. }
  assert (Ha : default [] (anyfs_share_auto_name (canonical disk comps) sz) ≠ [] ∧
               len (default [] (anyfs_share_auto_name (canonical disk comps) sz)) < sz).
  { unfold anyfs_share_auto_name. rewrite (proj2 (Z.eqb_neq sz 0)) by lia. cbn [from_option]. unfold id.
    destruct (Z.leb_spec sz (len (canonical disk comps))); rewrite length_fmap, length_take;
      (split; [intros E%fmap_nil_inv|lia]); [by apply (Ht (canonical disk comps))|].
    rewrite take_ge in E by lia. done. }
  unfold share_name. destruct name as [[|c n]|]; try done. split; [by apply Ht|apply strncpy_len; lia].
Qed.

Lemma wp_resolve creds sd spec flags name_sz ds w : CStr spec → 1 < name_sz → all_ok ds w →
  (∀ name disk comps, share_parse sd spec (len ds) = Some (Some (name, disk, comps)) → 0 <= disk) →
  wp (anyfs_share_resolve creds sd spec flags name_sz ANYFS_LKL_PATH_MAX) (resolved ds name_sz) (ds, w).
Proof.
  intros Hs Hn Hall Hpos. unfold anyfs_share_resolve. apply wp_bind, wp_gets. cbn [fst].
  destruct (share_parse_ok sd spec (len ds) Hs) as (t & Et & Ht). apply wp_bind. eapply wp_opt; [exact Et|].
  destruct t as [[[name disk] comps]|]; [|by left].
  specialize (Hpos _ _ _ Et). destruct (Ht _ _ _ eq_refl) as (Hlt & _).
  destruct (lookup_lt_is_Some_2 ds (Z.to_nat disk)) as [d Hd]; [lia|].
  apply wp_bind. eapply wp_on_disk; [done..|]. eapply wp_mono; [by apply wp_enter_target, (Hall _ _ Hd)|].
  intros r s' (I & _ & Hr). destruct (Z.ltb_spec r.1 0); apply wp_ret; right; cbn [fst snd].
  - by exists (Z.to_nat disk), s'.1.
  - exists (Z.to_nat disk), s'.1. split; [done|]. split; [done|]. destruct Hr as [?|[Hm Hl]]; [lia|].
    rewrite strncpy_fits by (unfold ANYFS_LKL_PATH_MAX; lia). split; [done|]. by apply share_name_ok.
Qed.
End ResolveSpec.

(** ** Properties *)

(** Resolving a --share specification, for any text: the call returns; it
    touches at most the session the path names; on success the path it yields
    is a live mount point of that session (read-only when the session is), and
    the share name is not empty and fits its buffer.  The disk index must not
    be negative. *)
Theorem share_resolve_correct {W} `{!Lkl W, !LklLaws W, !Host W, !HostLaws W, !Core W, !CoreLaws W}
    creds sd spec flags name_sz ds (w : W) : CStr spec → 1 < name_sz → all_ok ds w →
  (∀ name disk comps, share_parse sd spec (len ds) = Some (Some (name, disk, comps)) → 0 <= disk) →
  wp (anyfs_share_resolve creds sd spec flags name_sz ANYFS_LKL_PATH_MAX) (resolved ds name_sz) (ds, w).
Proof. apply wp_resolve. Qed.

Lemma share_resolve_correct_witness :
  wp (anyfs_share_resolve no_creds true (bs "data=disk0/p1") 0 64 ANYFS_LKL_PATH_MAX) (resolved [ses0] 64) ([ses0], toy_k).
Proof.
  refine (share_resolve_correct no_creds true (bs "data=disk0/p1") 0 64 [ses0] toy_k _ ltac:(lia) _ _).
  - solve_cstr.
  - intros [|i] d; [intros [= <-]; apply ses0_inv|done].
  - intros name disk comps. vm_compute. intros [= _ <- _]. discriminate.
Defined.

Example resolve_toy :
  fst <$> anyfs_share_resolve no_creds true (bs "data=disk0/p1") 0 64 64 ([ses0], toy_k)
    = Some (Some (bs "data", bs "/lklmnt/anyfs_d0_p1")) ∧
  fst <$> anyfs_share_resolve no_creds true (bs "1") 0 64 64 ([ses0], toy_k)
    = Some (Some (bs "disk0_p1", bs "/lklmnt/anyfs_d0_p1")) ∧
  fst <$> anyfs_share_resolve no_creds true (bs "disk0") 0 64 64 ([ses0], toy_k)
    = Some (Some (bs "disk0", bs "/lklmnt/anyfs_d0_whole")) ∧
  fst <$> anyfs_share_resolve no_creds true (bs "disk1/p1") 0 64 64 ([ses0], toy_k) = Some None.
Proof. split_and!; vm_compute; reflexivity. Qed.

(** A disk number of 2^31 or more is taken as negative and passes the range
    check: the array is read before its start. *)
Lemma share_negative_disk : 
  share_parse true (bs "disk4294967295") 1 = Some (Some (None, -1, [])) ∧
  anyfs_share_resolve no_creds true (bs "disk4294967295") 0 64 64 ([ses0], toy_k) = None.
Proof. split; vm_compute; reflexivity. Qed.

(** Automatic share names do not collide: two references to different disks
    or partition chains (of at most eight components, as the parser yields)
    have different canonical names, and these are never cut by the 160-byte
    buffer. *)
Theorem share_names_distinct disk comps disk' comps' :
  0 <= disk < 2 ^ 31 → len comps <= 8 → Forall (λ c, 0 <= Path.p c < 2 ^ 32) comps →
  0 <= disk' < 2 ^ 31 → len comps' <= 8 → Forall (λ c, 0 <= Path.p c < 2 ^ 32) comps' →
  canonical disk comps = canonical_text disk comps ∧
  (canonical disk comps = canonical disk' comps' → disk = disk' ∧ Path.p <$> comps = Path.p <$> comps').
Proof.
  intros Hd Hl Hf Hd' Hl' Hf'. split; [by apply canonical_eq|]. rewrite !canonical_eq by done. unfold canonical_text.
  intros E. apply app_inv_head in E. unfold fmt_d in E.
  rewrite (proj2 (Z.ltb_ge disk 0)), (proj2 (Z.ltb_ge disk' 0)) in E by lia.
  apply digits_split in E as [-> E]; [|lia|lia|apply parts_head|apply parts_head]. split; [done|by apply parts_inj].
Qed.

Lemma share_names_distinct_witness :
  canonical 0 [Path.mk_comp 1 None] = canonical_text 0 [Path.mk_comp 1 None] ∧
  (canonical 0 [Path.mk_comp 1 None] = canonical 0 [Path.mk_comp 1 None; Path.mk_comp 2 None] →
   0 = 0 ∧ Path.p <$> [Path.mk_comp 1 None] = Path.p <$> [Path.mk_comp 1 None; Path.mk_comp 2 None]).
Proof.
  apply (share_names_distinct 0 [Path.mk_comp 1 None] 0 [Path.mk_comp 1 None; Path.mk_comp 2 None]);
    [lia|cbn; lia|repeat constructor; cbn; lia|lia|cbn; lia|repeat constructor; cbn; lia].
Defined.

End Share.
