(* ===== verification/DiskSet.v ===== *)
(** * DiskSet

    Several disk images at once: anyfs_share_open_disks of
    src/core/anyfs_share.c, the set-up and the shutdown of the servers, and
    the invariant of a set of open sessions that the frontends share.  The
    order of the set does not matter: the invariant is proper for
    permutation. *)
From S2P Require Import Prelude CLib Lkl Path Probe Sysfs MountOpts Mount Dm Session SessionSpec SessionFrame SessionOpen SessionHold Share.
Import CLib Probe Mount Session SessionSpec SessionFrame SessionOpen SessionHold Share.

Module DiskSet.

Definition ANYFS_MAX_DISKS : Z := 16.
Definition ANYFS_MAX_SHARES : Z := 32.

(** ** Opening and closing *)
Section Code.
Context {W : Type} `{!Lkl W, !Host W, !Core W} (calloc : bool).

(** The name without its query, in a buffer of 512 bytes. *)
Definition img_clean (img : bytes) : bytes :=
  match strchr 63 img with Some (name, _) => take (Z.to_nat (Z.min (len name) 511)) name | None => img end.

(** The memory of the session is released with it. *)
Definition close_session (d : AnyfsSession) : M W () := _ ← with_session d anyfs_session_close; mret ().

(** [opened] are the entries of disks_out filled so far, [cap] the size of the
    array; [None] for -1. *)
Fixpoint anyfs_share_open_disks (cap : Z) (images : list bytes) (flags : Z) (opened : list AnyfsSession) :
    M W (option (list AnyfsSession)) :=
  match images with
  | [] => mret (Some opened)
  | img :: rest =>
      r ← anyfs_session_open calloc calloc (Some (img_clean img)) flags;
      match (if r.1 <? 0 then None else r.2) with
      | None => _ ← mfor opened close_session; mret None
      | Some d => if cap <=? len opened then mstuck else anyfs_share_open_disks cap rest flags (opened ++ [d])
      end
  end.

(** [halt] is anyfs_kernel_halt (in Kernel). *)
Definition anyfs_server_shutdown (halt : M W ()) (disks : list AnyfsSession) : M W () := _ ← mfor disks close_session; halt.

Definition with_disks {A} (ds : list AnyfsSession) (m : M (list AnyfsSession * W) A) : M W (A * list AnyfsSession) := λ w,
  match m (ds, w) with Some (a, (ds', w')) => Some ((a, ds'), w') | None => None end.

(** The part of main that the servers share: open the images, resolve the
    shares, serve them, shut down.  The exit status and the shares served. *)
Definition run_server (halt : M W ()) (creds : Creds) (strdup : bool) (images specs : list bytes) (dflags eflags : Z)
    (serve : list (bytes * bytes) → M W Z) : M W (Z * list (bytes * bytes)) :=
  r ← anyfs_share_open_disks ANYFS_MAX_DISKS images dflags [];
  match r with
  | None => mret (1, [])
  | Some ds =>
      e ← with_disks ds (anyfs_server_resolve_shares creds strdup specs eflags ANYFS_MAX_SHARES);
      let shares := default [] e.1 in
      status ← (if len shares =? 0 then mret 1 else serve shares);
      _ ← anyfs_server_shutdown halt e.2;
      mret (status, shares)
  end.
End Code.

(** ** The invariant *)
Section Inv.
Context {W : Type} `{!Lkl W, !LklLaws W, !Host W, !HostLaws W, !Core W, !CoreLaws W}.
Implicit Types (ds : list AnyfsSession) (w : W).

(** Every session is in its invariant, on a disk that is attached, and no two
    are on the same disk. *)
Definition SetInv ds w : Prop :=
  Forall (λ d, SInv (-2) d (mnts w) ∧ disk_id d ∈ v_dsk (view w)) ds ∧ NoDup (disk_id <$> ds).

#[export] Instance SetInv_proper : Proper ((≡ₚ) ==> (=) ==> iff) SetInv.
Proof. intros ds ds' Hp w ? <-. unfold SetInv. by rewrite Hp. Qed.

Lemma set_nil w : SetInv [] w.
Proof. split; constructor. Qed.

Lemma set_cons d ds w : SetInv (d :: ds) w ↔
  SInv (-2) d (mnts w) ∧ disk_id d ∈ v_dsk (view w) ∧ disk_id d ∉ disk_id <$> ds ∧ SetInv ds w.
Proof. unfold SetInv. rewrite Forall_cons, fmap_cons, NoDup_cons. tauto. Qed.

(** What happens to one disk does not matter to the others. *)
Lemma set_outside d ds w w' : disk_range d → disk_id d ∉ disk_id <$> ds →
  same_outside (disk_id d) (mnts w) (mnts w') → v_dsk (view w) ∖ {[disk_id d]} ⊆ v_dsk (view w') →
  SetInv ds w → SetInv ds w'.
Proof.
  intros Hd Hn Ho HD [Hf Hnd]. split; [|done]. apply Forall_forall. intros x Hx. rewrite Forall_forall in Hf.
  destruct (Hf x Hx) as [Hi Hx']. assert (disk_id x ≠ disk_id d).
  { intros E. apply Hn. rewrite <- E. by apply list_elem_of_fmap_2. }
  split; [by eapply SInv_outside|set_solver].
Qed.

(** Code of one session. *)
Lemma wp_set {A} (m : M (AnyfsSession * W) A) (Q : A → AnyfsSession * W → Prop) d ds w : SetInv (d :: ds) w →
  (∀ D q v, foreign (disk_id d) q → kp (disk_id d) (names d) D q v m) →
  wp m (λ a s', SInv (-2) s'.1 (mnts s'.2) ∧ Q a s') (d, w) →
  wp m (λ a s', SetInv (s'.1 :: ds) s'.2 ∧ disk_id s'.1 = disk_id d ∧
    same_outside (disk_id d) (mnts w) (mnts s'.2) ∧ v_dsk (view s'.2) = v_dsk (view w) ∧ Q a s') (d, w).
Proof.
  rewrite set_cons. intros (Hd & Hl & Hn & Hs) Hk Hw. assert (disk_range d) by apply Hd. eapply wp_mono; [by eapply wp_outside|].
  intros a [d' w'] ((Hd' & HQ) & Ho & HD & Ei & _). cbn [fst snd] in *. rewrite set_cons, Ei, HD. split_and!; [done..| |done|done|done|done].
  eapply set_outside; [done..| |done]. rewrite HD. set_solver.
Qed.

Lemma wp_with_session {A} d (m : M (AnyfsSession * W) A) (Q : A * AnyfsSession → W → Prop) w :
  wp m (λ a s', Q (a, s'.1) s'.2) (d, w) → wp (with_session d m) Q w.
Proof. unfold wp, with_session. by destruct (m (d, w)) as [[a [d' w']]|]. Qed.

(** Opening: one more disk, and the kernel as it was otherwise. *)
Lemma wp_set_open calloc image flags ds w : sysfs_sane (W := W) → tame_disks (W := W) → SetInv ds w →
  wp (anyfs_session_open calloc calloc image flags) (λ r w', mnts w' = mnts w ∧
    (r = (-1, None) ∧ view w' = view w ∨
     ∃ d, r = (0, Some d) ∧ SetInv (d :: ds) w' ∧ open_flags d = flags ∧ (∀ path, ¬ owned d path) ∧
       disk_id d ∉ v_dsk (view w) ∧ v_dsk (view w') = {[disk_id d]} ∪ v_dsk (view w))) w.
Proof.
  intros Hs Ht [Hf Hnd]. eapply wp_mono; [by apply wp_session_open|].
  intros r w' [[-> E]|(d & -> & Hd & Hfl & Hw & Hp & Hn & E)]; unfold mnts; rewrite E; cbn [with_dsk v_mnt v_dsk].
  { split; [done|by left]. }
  split; [done|right]. exists d. split; [done|]. rewrite Forall_forall in Hf. split_and!; [|done| |done|done].
  - rewrite set_cons. unfold SetInv, mnts in *. rewrite E in *. cbn [with_dsk v_mnt v_dsk] in *. split_and!; [done|set_solver| | |done].
    + intros (x & Ex & Hx)%list_elem_of_fmap. destruct (Hf x Hx) as [_ Hx']. by rewrite <- Ex in Hx'.
    + apply Forall_forall. intros x Hx. destruct (Hf x Hx). split; [done|set_solver].
  - rewrite Forall_forall in Hp. intros path [(p & Hin & Hm & _)|[Hm _]]; [rewrite Hp in Hm|rewrite Hw in Hm]; done.
Qed.

Lemma wp_set_close d ds w : umount_works (W := W) → SetInv (d :: ds) w →
  wp (close_session d) (λ _ w', SetInv ds w' ∧ v_dsk (view w') = v_dsk (view w) ∖ {[disk_id d]} ∧
    ∀ path, (owned d path → mnts w' !! path = None) ∧ (¬ owned d path → mnts w' !! path = mnts w !! path)) w.
Proof.
  rewrite set_cons. intros Hu (Hd & Hl & Hn & Hs). assert (Hr : disk_range d) by apply Hd.
  apply wp_bind, wp_with_session. eapply wp_mono; [by apply wp_close_outside, wp_session_close|].
  intros [] [d' w'] (Hm & Ho & HD). cbn [fst snd] in *. apply wp_ret. split_and!; [|done|].
  - eapply set_outside; [done..| |done]. by rewrite HD.
  - intros path. rewrite (Hm path). split; intros Hp; [apply decide_True|apply decide_False];
      unfold path_of; rewrite Exists_exists; unfold owned in Hp; naive_solver.
Qed.

(** Closing all of a set. *)
Definition closed_all ds w w' : Prop :=
  v_dsk (view w') = v_dsk (view w) ∖ list_to_set (disk_id <$> ds) ∧
  ∀ path, (Exists (λ d, owned d path) ds → mnts w' !! path = None) ∧
          (Forall (λ d, ¬ owned d path) ds → mnts w' !! path = mnts w !! path).

#[local] Instance owned_dec d path : Decision (owned d path).
Proof.
  refine (cast_if (decide (Exists (λ p, state p = ANYFS_PART_MOUNTED ∧ slot_path d p = path) (parts d) ∨
    (whole_state d = ANYFS_PART_MOUNTED ∧ path = whole_path d)))); unfold owned; rewrite Exists_exists in *; naive_solver.
Defined.

Lemma wp_close_all ds rest w : umount_works (W := W) → SetInv (ds ++ rest) w →
  wp (mfor ds close_session) (λ _ w', SetInv rest w' ∧ closed_all ds w w') w.
Proof.
  intros Hu. revert w. induction ds as [|d ds IH]; intros w H; cbn [mfor app] in *.
  { apply wp_ret. split; [done|]. split; [cbn; set_solver|]. intros path. split; [|done]. intros E. inversion E. }
  apply wp_bind. eapply wp_mono; [by apply wp_set_close|]. intros [] w1 (H1 & HD1 & Hm1).
  eapply wp_mono; [by apply IH|]. intros [] w2 (H2 & HD2 & Hm2). split; [done|]. split.
  - rewrite HD2, HD1, fmap_cons, list_to_set_cons. set_solver.
  - intros path. rewrite Exists_cons, Forall_cons. destruct (Hm1 path) as [Ha Hb], (Hm2 path) as [Hc Hd]. split; [|intros [? ?]; by rewrite Hd, Hb].
    destruct (decide (Exists (λ x, owned x path) ds)) as [|Hne]; [by intros; apply Hc|]. apply not_Exists_Forall in Hne; [|apply _].
    rewrite Hd by done. intros [?|He]; [by apply Ha|]. rewrite Exists_exists in He. rewrite Forall_forall in Hne. naive_solver.
Qed.

(** ** Opening *)

(** All the images are open, in order, on disks that were not attached, and
    nothing is mounted; or none is, and the kernel is as it was. *)
Definition opened_all (n : nat) flags w opened (r : option (list AnyfsSession)) w' : Prop :=
  mnts w' = mnts w ∧
  match r with
  | None => v_dsk (view w') = v_dsk (view w) ∖ list_to_set (disk_id <$> opened)
  | Some ds => ∃ new, ds = opened ++ new ∧ length new = n ∧ SetInv ds w' ∧
      Forall (λ d, open_flags d = flags ∧ ∀ path, ¬ owned d path) new ∧
      list_to_set (disk_id <$> new) ## v_dsk (view w) ∧ v_dsk (view w') = list_to_set (disk_id <$> new) ∪ v_dsk (view w)
  end.

Lemma closed_quiet ds w w' : closed_all ds w w' → Forall (λ d, ∀ path, ¬ owned d path) ds → mnts w' = mnts w.
Proof.
  intros [_ Hm] Hq. apply map_eq. intros path. apply Hm. eapply Forall_impl; [exact Hq|]. by intros d H.
Qed.

Lemma wp_open_disks calloc cap images flags opened w : sysfs_sane (W := W) → tame_disks (W := W) → umount_works (W := W) →
  len opened + len images <= cap → SetInv opened w → Forall (λ d, ∀ path, ¬ owned d path) opened →
  wp (anyfs_share_open_disks calloc cap images flags opened) (opened_all (length images) flags w opened) w.
Proof.
  intros Hs Ht Hu. revert opened w. induction images as [|img images IH]; intros opened w Hcap HS Hq; cbn [anyfs_share_open_disks].
  { apply wp_ret. split; [done|]. exists []. rewrite app_nil_r. cbn. split_and!; [done..|constructor|set_solver|set_solver]. }
  apply wp_bind. eapply wp_mono; [by apply wp_set_open|]. intros r w1 (Hm1 & [[-> E]|(d & -> & HS1 & Hfl & Hno & Hn & HD1)]).
  - change (-1 <? 0) with true. cbn iota. apply wp_bind. rewrite <- (app_nil_r opened) in HS. eapply wp_mono.
    { apply (wp_close_all opened []); [done|]. unfold SetInv, mnts in *. by rewrite E. }
    intros [] w2 (_ & Hc). apply wp_ret. split; [rewrite <- Hm1; by eapply closed_quiet|]. destruct Hc as [-> _]. by rewrite E.
  - change (0 <? 0) with false. cbn iota. cbn [length] in Hcap. destruct (Z.leb_spec cap (len opened)); [lia|].
    eapply wp_mono; [apply IH|].
    + rewrite length_app. cbn [length]. lia.
    + by rewrite (Permutation_app_comm opened [d]).
    + apply Forall_app. split; [done|by repeat constructor].
    + intros r w2 [Hm2 Hr]. split; [congruence|]. destruct r as [ds|].
      * destruct Hr as (new & -> & Hl & HS2 & Hf & Hdis & HD2). exists (d :: new). rewrite <- app_assoc in *. cbn [app length] in *.
        split_and!; [done|by rewrite Hl|done|by constructor|rewrite fmap_cons, list_to_set_cons; set_solver|].
        rewrite HD2, HD1, fmap_cons, list_to_set_cons. set_solver.
      * rewrite Hr, HD1, fmap_app, list_to_set_app_L. cbn. set_solver.
Qed.

(** ** Sharing *)

Lemma set_split ds i d : ds !! i = Some d →
  ∃ rest, ds ≡ₚ d :: rest ∧ ∀ d', <[i := d']> ds ≡ₚ d' :: rest.
Proof.
  intros Hi. exists (take i ds ++ drop (S i) ds). split.
  - rewrite <- (take_drop_middle ds i d Hi) at 1. by rewrite Permutation_middle.
  - intros d'. rewrite insert_take_drop by (by eapply lookup_lt_Some). by rewrite Permutation_middle.
Qed.

Lemma wp_set_at {A} i (m : M (AnyfsSession * W) A) (Q : A → AnyfsSession → Prop) ds d w :
  SetInv ds w → 0 <= i → ds !! Z.to_nat i = Some d →
  (∀ D q v, foreign (disk_id d) q → kp (disk_id d) (names d) D q v m) →
  wp m (λ a s', SInv (-2) s'.1 (mnts s'.2) ∧ Q a s'.1) (d, w) →
  wp (on_disk i m) (λ a s', SetInv s'.1 s'.2 ∧ disk_id <$> s'.1 = disk_id <$> ds ∧ v_dsk (view s'.2) = v_dsk (view w) ∧
    ∃ d', s'.1 = <[Z.to_nat i := d']> ds ∧ Q a d') (ds, w).
Proof.
  intros HS Hi Hd Hk Hw. eapply wp_on_disk; [done..|]. destruct (set_split ds _ d Hd) as (rest & Hp & Hp').
  rewrite Hp in HS. eapply wp_mono; [by eapply (wp_set m (λ a s', Q a s'.1))|].
  intros a [d' w'] (HS1 & Ei & _ & HD & HQ). cbn [fst snd] in *. split_and!; [by rewrite (Hp' d')| |done|by exists d'].
  rewrite list_fmap_insert, Ei. apply list_insert_id. by rewrite list_lookup_fmap, Hd.
Qed.

(** What the path of a share names: its mount point is held afterwards, and so
    is everything that was. *)
Lemma wp_target creds comps flags d w : SInv (-2) d (mnts w) → flag flags ANYFS_MOUNT_REPLACE = false →
  wp (if len comps =? 0 then anyfs_session_enter creds 0 flags else anyfs_session_enter_path creds comps flags)
    (λ r s', SInv (-2) s'.1 (mnts s'.2) ∧ (∀ path, owned d path → owned s'.1 path) ∧
      (r.1 < 0 ∨ owned s'.1 r.2 ∧ len r.2 < 64)) (d, w).
Proof.
  intros H Hf. assert (Hd : disk_range d) by apply H. set (m := if _ : bool then _ else _).
  assert (Hk : ∀ x, keep x m) by (intros x; unfold m; case_if; [by apply keep_enter|by apply keep_enter_path]).
  assert (Hw : wp m (λ r s', (SInv (-2) s'.1 (mnts s'.2) ∧ static s'.1 = static d) ∧
    (r.1 < 0 ∨ owned s'.1 r.2 ∧ len r.2 < 64)) (d, w)).
  { unfold m. case_if.
    - eapply wp_mono; [by apply wp_enter_whole|]. intros r s' (I & Hs & Hr). split; [done|].
      pose proof (whole_path_len d Hd). rewrite <- (whole_path_static d s'.1 Hs) in *.
      destruct Hr as [(-> & _)|[(-> & Hm' & Ed)|[(-> & Hm' & _)|(Hn & _)]]]; [by left|right|right|by left].
      + split; [right; split; [by rewrite Ed|done]|done].
      + split; [by right|done].
    - wp_use wp_enter_path; [done|]. intros r s' (I & Hs & Hle & Hz). split; [done|].
      destruct (Z.lt_ge_cases r.1 0); [by left|right]. destruct Hz as (i & p & Hp & Hm & ->); [lia|].
      rewrite <- (slot_path_static d s'.1 p p Hs eq_refl). split; [left; exists p; split; [by eapply list_elem_of_lookup_2|done]|].
      apply slot_path_len; [|eapply ok_range; [apply I|done]]. unfold disk_range. by injection Hs as -> _ _. }
  unfold wp in *. destruct (m (d, w)) as [[r [d' w']]|] eqn:E; [|done]. destruct Hw as ((HI & Hs) & Hr). split; [done|].
  split; [|done]. by eapply owned_kept.
Qed.

Lemma kp_target id L D q v creds comps flags : 0 <= id < 2 ^ 31 → foreign id q →
  kp (W := W) id L D q v (if len comps =? 0 then anyfs_session_enter creds 0 flags else anyfs_session_enter_path creds comps flags).
Proof. intros. case_match; [by apply kp_enter|by apply kp_enter_path]. Qed.

(** One share, and all of them: the set keeps its invariant and its disks,
    nothing that is mounted is lost, and every share is a mount point held by
    one of the sessions. *)
Context (P : bytes → Prop).
Definition share_ok ds (e : bytes * bytes) : Prop := Exists (λ d, owned d e.2) ds ∧ e.1 ≠ [] ∧ len e.1 < 64 ∧ P e.1.
(** A specification names no disk below 0, and a share with [P]. *)
Definition spec_ok (sd : bool) (n : Z) (spec : bytes) : Prop := ∀ name disk comps,
  share_parse sd spec n = Some (Some (name, disk, comps)) → 0 <= disk ∧ P (share_name name disk comps 64).
Definition shared_more ds w ds' w' : Prop :=
  SetInv ds' w' ∧ disk_id <$> ds' = disk_id <$> ds ∧ v_dsk (view w') = v_dsk (view w) ∧
  ∀ path, Exists (λ d, owned d path) ds → Exists (λ d, owned d path) ds'.

Lemma wp_resolve_set creds sd spec flags ds w : CStr spec → flag flags ANYFS_MOUNT_REPLACE = false → SetInv ds w →
  spec_ok sd (len ds) spec →
  wp (anyfs_share_resolve creds sd spec flags 64 ANYFS_LKL_PATH_MAX) (λ r s', shared_more ds w s'.1 s'.2 ∧
    match r with Some e => share_ok s'.1 e | None => True end) (ds, w).
Proof.
  intros Hs Hf HS Hpos. unfold anyfs_share_resolve. apply wp_bind, wp_gets. cbn [fst].
  destruct (share_parse_ok sd spec (len ds) Hs) as (t & Et & Ht). apply wp_bind. eapply wp_opt; [exact Et|].
  destruct t as [[[name disk] comps]|]; [|by apply wp_ret]. destruct (Hpos _ _ _ Et) as [Hge HP]. destruct (Ht _ _ _ eq_refl) as (Hlt & _).
  destruct (lookup_lt_is_Some_2 ds (Z.to_nat disk)) as [d Hd]; [lia|]. destruct (proj1 (Forall_lookup _ _) (proj1 HS) _ _ Hd) as [HI _].
  apply wp_bind. eapply wp_mono.
  { eapply (wp_set_at _ _ (λ r d', (∀ path, owned d path → owned d' path) ∧ (r.1 < 0 ∨ owned d' r.2 ∧ len r.2 < 64))); [done..| |by apply wp_target].
    intros D q v Hq. apply kp_target; [apply HI|done]. }
  intros r s' (HS' & Hids & HD & d' & Ed & Hk & Hr).
  assert (Hmore : shared_more ds w s'.1 s'.2).
  { split_and!; [done..|]. intros path. rewrite Ed, !Exists_exists. intros (x & [j Hj]%list_elem_of_lookup & Hx).
    destruct (decide (Z.to_nat disk = j)) as [<-|Hne].
    - exists d'. split; [apply (list_elem_of_lookup_2 _ (Z.to_nat disk)), list_lookup_insert_eq; by eapply lookup_lt_Some|]. apply Hk. congruence.
    - exists x. split; [|done]. apply (list_elem_of_lookup_2 _ j). by rewrite list_lookup_insert_ne. }
  destruct (Z.ltb_spec r.1 0); apply wp_ret; (split; [done|]); [done|]. destruct Hr as [?|[Ho Hl]]; [lia|].
  split; cbn [fst snd]; [|split; [by apply share_name_ok|split; [by apply share_name_ok|done]]]. rewrite strncpy_fits by (unfold ANYFS_LKL_PATH_MAX; lia). rewrite Ed.
  apply Exists_exists. exists d'. split; [|done]. apply (list_elem_of_lookup_2 _ (Z.to_nat disk)), list_lookup_insert_eq. by eapply lookup_lt_Some.
Qed.

Lemma share_ok_more ds w ds' w' e : shared_more ds w ds' w' → share_ok ds e → share_ok ds' e.
Proof. intros (_ & _ & _ & Hm) (Ho & He). split; [by apply Hm|done]. Qed.

Lemma shared_more_trans ds w ds1 w1 ds2 w2 : shared_more ds w ds1 w1 → shared_more ds1 w1 ds2 w2 → shared_more ds w ds2 w2.
Proof. intros (_ & Hi & HD & Hm) (HS & Hi2 & HD2 & Hm2). split_and!; [done|congruence|congruence|]. intros path H. by apply Hm2, Hm. Qed.

Lemma wp_resolve_loop creds sd specs flags max out ds w n : Forall CStr specs → flag flags ANYFS_MOUNT_REPLACE = false →
  len ds = n → Forall (spec_ok sd n) specs →
  SetInv ds w → Forall (share_ok ds) out → len out <= max →
  wp (resolve_loop creds sd specs flags max out) (λ r s', shared_more ds w s'.1 s'.2 ∧ Forall (share_ok s'.1) (default [] r) ∧ len (default [] r) <= max) (ds, w).
Proof.
  intros Hc Hf. revert out ds w. induction Hc as [|spec specs Hs _ IH]; intros out ds w Hn Hpos HS Ho Hm; cbn [resolve_loop].
  { by apply wp_ret. }
  assert (H0 : 0 <= max) by lia. apply Forall_cons in Hpos as [Hp Hpos]. destruct (Z.leb_spec max (len out)); [apply wp_ret; by split_and!|]. apply wp_bind. eapply wp_mono.
  { apply wp_resolve_set; [done..|]. by rewrite Hn. }
  intros [e|] [ds1 w1] [Hsm He]; cbn [fst snd] in *; [|apply wp_ret; by split_and!].
  assert (Hl : len ds1 = n) by (destruct Hsm as (_ & Hi & _); apply (f_equal length) in Hi; rewrite !length_fmap in Hi; lia).
  eapply wp_mono; [apply IH; [done..|apply Hsm| |]|].
  - apply Forall_app. split; [|by apply Forall_singleton]. eapply Forall_impl; [exact Ho|]. intros x. by eapply share_ok_more.
  - rewrite length_app. cbn [length]. lia.
  - intros r s' [Hm2 Hr]. split; [|done]. by eapply shared_more_trans.
Qed.

Lemma owned_mounted d m path : SInv (-2) d m → owned d path → mounted_at d m path.
Proof.
  intros H [(p & [i Hp]%list_elem_of_lookup & Hm & <-)|[Hm ->]]; [by apply (inv_mnt _ _ _ H i p)|by apply (inv_wmnt _ _ _ H)].
Qed.

(** What the server does with its shares: it is only asked to serve mount
    points that are in the kernel's table, and it leaves the sessions alone. *)
Definition serves_safely (serve : list (bytes * bytes) → M W Z) : Prop := ∀ shares ds w, shares ≠ [] → SetInv ds w →
  Forall (λ e, Exists (λ d, mounted_at d (mnts w) e.2) ds ∧ e.1 ≠ [] ∧ len e.1 < 64 ∧ P e.1) shares → len shares <= ANYFS_MAX_SHARES →
  wp (serve shares) (λ _ w', SetInv ds w' ∧ v_dsk (view w') = v_dsk (view w)) w.

(** The halt of the kernel attaches no disk, detaches none, and mounts
    nothing. *)
Definition quiet_halt (halt : M W ()) : Prop := ∀ w, wp halt (λ _ w',
  v_dsk (view w') = v_dsk (view w) ∧ ∀ p, mnts w !! p = None → mnts w' !! p = None) w.
Lemma quiet_halt_ret : quiet_halt (mret ()).
Proof. by intros w. Qed.

Lemma wp_run_server calloc halt creds sd images specs dflags eflags serve w :
  sysfs_sane (W := W) → tame_disks (W := W) → umount_works (W := W) → quiet_halt halt → serves_safely serve →
  len images <= ANYFS_MAX_DISKS → Forall CStr specs → flag eflags ANYFS_MOUNT_REPLACE = false →
  Forall (spec_ok sd (len images)) specs →
  wp (run_server calloc halt creds sd images specs dflags eflags serve) (λ r w',
    v_dsk (view w') = v_dsk (view w) ∧ Forall (λ e, mnts w' !! e.2 = None) r.2) w.
Proof.
  intros Hs Ht Hu Hh Hserve Hcap Hc Hf Hpos. unfold run_server. apply wp_bind. eapply wp_mono.
  { apply wp_open_disks; [done..|exact Hcap|apply set_nil|constructor]. }
  intros [ds|] w1 [Hm1 Hr]; [|apply wp_ret; cbn in Hr; split; [by rewrite Hr, difference_empty_L|constructor]].
  destruct Hr as (new & -> & Hl & HS & _ & Hdis & HD1). cbn [app] in *. apply wp_bind.
  assert (Hres := wp_resolve_loop creds sd specs eflags ANYFS_MAX_SHARES [] new w1 (len images) Hc Hf ltac:(lia) Hpos HS (Forall_nil_2 _) ltac:(by vm_compute)).
  unfold anyfs_server_resolve_shares, with_disks, wp in *. destruct (resolve_loop _ _ _ _ _ _ (new, w1)) as [[r [ds2 w2]]|]; [|done].
  destruct Hres as ((HS2 & Hids & HD2 & _) & Hok & Hlen). cbn [fst snd] in *. set (shares := default [] r) in *.
  change (wp (status ← (if len shares =? 0 then mret 1 else serve shares); _ ← anyfs_server_shutdown halt ds2; mret (status, shares))
    (λ r w', v_dsk (view w') = v_dsk (view w) ∧ Forall (λ e, mnts w' !! e.2 = None) r.2) w2).
  apply wp_bind. apply (wp_mono _ (λ _ w', SetInv ds2 w' ∧ v_dsk (view w') = v_dsk (view w2))).
  { case_if; [by apply wp_ret|]. apply Hserve; [by intros ->|done| |done]. eapply Forall_impl; [exact Hok|]. intros e (Ho & He). split; [|done].
    apply Exists_exists in Ho as (d & Hd & Ho). apply Exists_exists. exists d. split; [done|].
    apply owned_mounted; [|done]. by apply (proj1 (Forall_forall _ _) (proj1 HS2)). }
  intros status w3 [HS3 HD3]. apply wp_bind, wp_bind. rewrite <- (app_nil_r ds2) in HS3. eapply wp_mono; [by apply wp_close_all|].
  intros [] w4 (_ & HD4 & Hm4). eapply wp_mono; [apply Hh|]. intros [] w5 [HD5 Hm5]. apply wp_ret. cbn [snd]. split.
  - rewrite HD5, HD4, HD3, HD2, HD1, Hids. set_solver.
  - eapply Forall_impl; [exact Hok|]. intros e (Ho & _). by apply Hm5, Hm4.
Qed.
End Inv.

(** ** Properties *)

(** A server leaves nothing behind: whatever the images and the share
    specifications, the run from opening the images to the shutdown returns;
    the server is only asked to serve shares whose mount points are in the
    kernel's table at that time, a share resolved later never taking an
    earlier one away, and whose names have [P]; at the end
    every one of these is unmounted and exactly
    the disks that were attached before are attached.  No mount may be busy,
    and the server itself must leave the sessions alone. *)
Theorem server_leaves_nothing {W} `{!Lkl W, !LklLaws W, !Host W, !HostLaws W, !Core W, !CoreLaws W}
    P calloc halt creds sd images specs dflags eflags serve (w : W) :
  sysfs_sane (W := W) → tame_disks (W := W) → umount_works (W := W) → quiet_halt halt → serves_safely P serve →
  len images <= ANYFS_MAX_DISKS → Forall CStr specs → flag eflags ANYFS_MOUNT_REPLACE = false →
  Forall (spec_ok P sd (len images)) specs →
  wp (run_server calloc halt creds sd images specs dflags eflags serve) (λ r w',
    v_dsk (view w') = v_dsk (view w) ∧ Forall (λ e, mnts w' !! e.2 = None) r.2) w.
Proof. apply wp_run_server. Qed.

Definition two_images : list bytes := [bs "a.img"; bs "b.img?x"].
Definition two_specs : list bytes := [bs "data=disk0/p1"; bs "disk1/p1"].

Lemma server_leaves_nothing_witness :
  wp (run_server true (mret ()) no_creds true two_images two_specs 1 0 (λ _, mret 0)) (λ r w',
    v_dsk (view w') = v_dsk (view rig0) ∧ Forall (λ e, mnts w' !! e.2 = None) r.2) rig0 ∧
  (fst <$> run_server true (mret ()) no_creds true two_images two_specs 1 0 (λ _, mret 0) rig0) =
    Some (0, [(bs "data", bs "/lklmnt/anyfs_d0_p1"); (bs "disk1_p1", bs "/lklmnt/anyfs_d1_p1")]).
Proof.
  split; [|vm_compute; reflexivity].
  refine (server_leaves_nothing (λ _, True) true (mret ()) no_creds true two_images two_specs 1 0 (λ _, mret 0) rig0 rig_sane rig_tame rig_umounts
    quiet_halt_ret _ _ _ eq_refl _).
  - by intros shares ds w _ HS _ _.
  - vm_compute. discriminate.
  - repeat constructor; lia.
  - repeat constructor; revert H; vm_compute; by intros [= _ <- _].
Defined.

(** Opening the images is all or nothing: on success there is one session
    per image, in order, each in its invariant with nothing mounted, all on
    different disks that were not attached before; on failure everything that
    was opened is closed again.  Either way no mount is added or removed. *)
Theorem open_disks_all_or_none {W} `{!Lkl W, !LklLaws W, !Host W, !HostLaws W, !Core W, !CoreLaws W}
    calloc cap images flags (w : W) : sysfs_sane (W := W) → tame_disks (W := W) → umount_works (W := W) → len images <= cap →
  wp (anyfs_share_open_disks calloc cap images flags []) (λ r w', mnts w' = mnts w ∧
    match r with
    | None => v_dsk (view w') = v_dsk (view w)
    | Some ds => length ds = length images ∧ SetInv ds w' ∧ Forall (λ d, open_flags d = flags ∧ ∀ path, ¬ owned d path) ds ∧
        list_to_set (disk_id <$> ds) ## v_dsk (view w) ∧ v_dsk (view w') = list_to_set (disk_id <$> ds) ∪ v_dsk (view w)
    end) w.
Proof.
  intros Hs Ht Hu Hc. eapply wp_mono; [apply wp_open_disks; [done..|exact Hc|apply set_nil|constructor]|].
  intros [ds|] w' [Hm Hr]; (split; [done|]); cbn in *; [destruct Hr as (new & -> & ?); done|by rewrite Hr, difference_empty_L].
Qed.

Lemma open_disks_all_or_none_witness :
  wp (anyfs_share_open_disks true 16 two_images 1 []) (λ r w', mnts w' = mnts rig0 ∧
    match r with
    | None => v_dsk (view w') = v_dsk (view rig0)
    | Some ds => length ds = length two_images ∧ SetInv ds w' ∧ Forall (λ d, open_flags d = 1 ∧ ∀ path, ¬ owned d path) ds ∧
        list_to_set (disk_id <$> ds) ## v_dsk (view rig0) ∧ v_dsk (view w') = list_to_set (disk_id <$> ds) ∪ v_dsk (view rig0)
    end) rig0.
Proof. refine (open_disks_all_or_none true 16 two_images 1 rig0 rig_sane rig_tame rig_umounts _). vm_compute. discriminate. Defined.

(** A third image fails on the bus of [rig]: the first two are closed. *)
Example open_disks_undone :
  (λ r, (r.1, v_dsk (Toy.t_view r.2))) <$> anyfs_share_open_disks true 16 [bs "a"; bs "b"; bs "c"] 1 [] rig0 = Some (None, ∅).
Proof. vm_compute. reflexivity. Qed.

(** The name before a query is cut at 511 bytes: another file is opened. *)
Lemma image_name_cut : img_clean (replicate 600 97 ++ bs "?x") = replicate 511 97.
Proof. vm_compute. reflexivity. Qed.
(** ** Elsewhere

    Code that mounts nothing on a mount point of a session. *)
Section Elsewhere.
Context {W : Type} `{!Lkl W, !LklLaws W}.
(** Mounts under /lklmnt/ and disks are as they were. *)
Definition elsewhere (w w' : W) : Prop :=
  v_dsk (view w') = v_dsk (view w) ∧ ∀ p, starts_with (bs "/lklmnt/") p = true → mnts w' !! p = mnts w !! p.
#[global] Instance elsewhere_preorder : PreOrder elsewhere.
Proof. split; [by split|]. intros x y z [E1 H1] [E2 H2]. split; [congruence|]. intros p Hp. by rewrite H2, H1. Qed.
Lemma elsewhere_view w w' : view w' = view w → elsewhere w w'.
Proof. intros E. unfold elsewhere, mnts. by rewrite E. Qed.
Lemma elsewhere_rest w w' : rest_of w' = rest_of w → elsewhere w w'.
Proof. unfold rest_of, elsewhere, mnts. intros [= E1 E2 E3]. by rewrite E1, E3. Qed.
Lemma elsewhere_mount w w' m i : starts_with (bs "/lklmnt/") m = false →
  view w' = mk_view (v_fds (view w)) (<[m := i]> (v_mnt (view w))) (v_bro (view w)) (v_dsk (view w)) → elsewhere w w'.
Proof.
  intros Hm E. unfold elsewhere, mnts. rewrite E. cbn [v_dsk v_mnt]. split; [done|]. intros p Hp. rewrite lookup_insert_ne; [done|]. intros ->. congruence.
Qed.

Lemma set_elsewhere ds w w' : elsewhere w w' → SetInv ds w → SetInv ds w'.
Proof.
  intros [ED HM] [Hf Hn]. split; [|done]. eapply Forall_impl; [exact Hf|]. intros d [Hi Hd]. rewrite ED. split; [|done].
  eapply SInv_mnts; [| |exact Hi]; [intros i p _ _|intros _]; apply HM; unfold slot_path, whole_path; apply starts_with_app.
Qed.
End Elsewhere.
End DiskSet.
