(* ===== verification/Compose.v ===== *)
(** * Compose

    The disk table of Backend implements what the session layer asks of it
    ([Core] of Session): the theorems about sessions hold of the two together.
    The state is the disk table with the bus and the host's files ([X]), in
    its invariant, beside the rest of the kernel ([W]). *)
From S2P Require Import Prelude CLib Lkl Path Probe Mount Raw Backend Lift Session SessionSpec SessionOpen Share DiskSet.
Import CLib Probe Mount Session SessionSpec SessionOpen Share DiskSet Backend.

Module Compose.

(** ** A kernel whose disks are counted beside it *)
Section Disks.
Context {S W : Type} `{!Lkl W, !LklLaws W, !Host W, !HostLaws W} (e : S → gset Z).

Ltac unlift_all := cbn [sys_open sys_close sys_read sys_pread64 sys_readlink sys_access sys_mkdir sys_rmdir sys_unlink
      sys_mknod sys_blkroset sys_blkrrpart sys_dm_ioctl sys_mount sys_umount sys_sync sys_nanosleep sys_opendir sys_closedir
      get_virtio_blkdev lift_lkl host_tmpfile host_mkstemp host_write host_lseek0 host_close
      blkid_new_probe_from_filename blkid_enable blkid_do_safeprobe blkid_probe_lookup_value blkid_free_probe lift_host] in *;
    try match goal with H : klift _ _ = _ |- _ => unlift H end;
    cbn [klift fst snd with_dsk v_fds v_mnt v_bro v_dsk].

Definition dsk_laws : LklLaws (S * W).
Proof.
  refine {| view := λ sw, with_dsk (e sw.1) (view sw.2) |}; intros; unlift_all.
  - apply law_open in E as [[? ->]|(? & ? & ->)]; [by left|by right].
  - by rewrite law_close.
  - by apply law_read in E as [-> ?].
  - by apply law_pread in E as [-> ?].
  - by apply law_readlink in E as [-> ?].
  - by rewrite law_access.
  - by rewrite law_mkdir.
  - by rewrite law_rmdir.
  - by rewrite law_unlink.
  - by rewrite law_mknod.
  - by rewrite law_sync.
  - by rewrite law_nanosleep.
  - apply law_opendir in E. destruct r as [[h ns]|]; [destruct E as [? ->]; by split|by rewrite E].
  - by rewrite law_closedir.
  - by apply law_virtio in E as ->.
  - by rewrite law_blkrrpart.
  - by apply law_dm_ioctl in E as ->.
  - apply law_blkroset in E as [[? ->]|(? & p & ? & ->)]; [by left|right; eauto].
  - apply law_mount in E as [[? ->]|[? ->]]; [by left|by right].
  - apply law_umount in E as [[? ->]|[? ->]]; [by left|by right].
Defined.

Definition dsk_host_laws : @HostLaws (S * W) _ dsk_laws _.
Proof.
  refine (@Build_HostLaws (S * W) _ dsk_laws _ (λ sw, hview sw.2) _ _ _ _ _ _ _ _ _ _ _ _ _); intros; unlift_all; unfold view; cbn [dsk_laws fst snd].
  - apply hlaw_open.
  - apply hlaw_close.
  - apply hlaw_pread.
  - by apply hlaw_tmpfile in E as [-> ?].
  - by apply hlaw_mkstemp in E as [-> ?].
  - by apply hlaw_write in E as [-> ?].
  - by destruct (hlaw_lseek fd w.2) as [-> ?].
  - by destruct (hlaw_hclose fd w.2) as [-> ?].
  - by apply hlaw_new in E as [-> ?].
  - by destruct (hlaw_enable w.2) as [-> ?].
  - by destruct (hlaw_probe w.2) as [-> ?].
  - by destruct (hlaw_lookup n w.2) as [-> ?].
  - by destruct (hlaw_free w.2) as [-> ?].
Defined.
End Disks.

(** ** The disk table *)
Section Table.
Context {X : Type} `{!HostIO X, !HostIOLaws X, !Disks X, !DisksLaws X}.
Context (has_qemu has_gio : bool) (env : option bytes) (base : Z + Z → Prop).

Definition table : Type := { s : Globals * X | DInv base s.1 s.2 }.
(** The disks on the bus. *)
Definition on_bus (t : table) : gset Z := dom (attached (dview (proj1_sig t).2)).

(** Code of the disk table returns in the invariant. *)
Definition safe {A} (m : M (Globals * X) A) : Prop := ∀ s, DInv base s.1 s.2 → wp m (λ _ s', DInv base s'.1 s'.2) s.
Definition run {A} (m : M (Globals * X) A) (H : safe m) (t : table) : A * table :=
  match m (`t) as o return match o with Some (_, s') => DInv base s'.1 s'.2 | None => False end → A * table with
  | Some (a, s') => λ I, (a, s' ↾ I)
  | None => λ I, match I with end
  end (H _ (proj2_sig t)).

Lemma run_spec {A} (m : M (Globals * X) A) H t (Q : A → Globals * X → Prop) : wp m Q (`t) → Q (run m H t).1 (proj1_sig (run m H t).2).
Proof.
  unfold run. generalize (H _ (proj2_sig t)). unfold wp. by destruct (m (`t)) as [[a s']|].
Qed.

Lemma add_safe p f : safe (anyfs_disk_add has_qemu has_gio env p f).
Proof. intros [g w] I. eapply wp_mono; [by apply wp_disk_add|]. by intros r s' [? _]. Qed.
Lemma remove_safe id : safe (anyfs_disk_remove id).
Proof. intros [g w] I. eapply wp_mono; [by apply wp_disk_remove|]. by intros r s' [? _]. Qed.
Lemma error_safe t : safe (anyfs_set_last_error t).
Proof. intros [g w] I. apply wp_mod. by eapply DInv_proper. Qed.

Lemma add_bus p f t : let r := run _ (add_safe p f) t in
  - 2 ^ 31 <= r.1 < 0 ∧ on_bus r.2 = on_bus t ∨
  0 <= r.1 < 2 ^ 31 ∧ r.1 ∉ on_bus t ∧ on_bus r.2 = {[r.1]} ∪ on_bus t.
Proof.
  intros r. destruct t as [[g w] I]. pose proof (run_spec _ (add_safe p f) ((g, w) ↾ I) _ (wp_disk_add _ _ _ _ _ _ p f I)) as H.
  fold r in H. destruct H as [_ [(-> & _ & Ha & _)|(Hr & Hn & i & s & d & _ & _ & _ & _ & Ha)]]; unfold on_bus; rewrite Ha.
  - by left.
  - right. split; [done|]. split; [by apply not_elem_of_dom|apply dom_insert_L].
Qed.
Lemma remove_bus id t : on_bus (run _ (remove_safe id) t).2 = on_bus t ∖ {[id]}.
Proof.
  destruct t as [[g w] I]. pose proof (run_spec _ (remove_safe id) ((g, w) ↾ I) _ (wp_disk_remove _ _ _ id I)) as [_ H].
  unfold on_bus. destruct H as [(_ & -> & Hn)|(_ & -> & _)]; cbn; [|apply dom_delete_L].
  apply not_elem_of_dom in Hn. set_solver.
Qed.
Lemma error_bus t x : on_bus (run _ (error_safe t) x).2 = on_bus x.
Proof. destruct x as [[g w] I]. done. Qed.

(** With no disk on the bus nothing of the host is open but what was before. *)
Lemma empty_bus_held t : on_bus t = ∅ → ∀ x, held (proj1_sig t).2 x ↔ base x.
Proof.
  intros Hb x. pose proof (proj2_sig t) as I. rewrite (di_held _ _ _ I x). split; [|by left]. intros [?|(i & sl & h & Hus & _ & _)]; [done|].
  destruct (di_slot _ _ _ I i sl Hus) as (_ & Ha & _). exfalso. apply (not_elem_of_empty (C := gset Z) (sl_disk_id sl)).
  rewrite <- Hb. unfold on_bus. apply elem_of_dom. by eexists.
Qed.

Section Core.
Context {W : Type} `{!Lkl W, !LklLaws W, !Host W, !HostLaws W}.

Definition on_table {A} (f : table → A * table) : kcall (table * W) A := λ tw, ((f tw.1).1, ((f tw.1).2, tw.2)).

#[local] Instance table_laws : LklLaws (table * W) := dsk_laws on_bus.
#[local] Instance table_host_laws : HostLaws (table * W) := dsk_host_laws on_bus.
#[local] Instance table_core : Core (table * W) := {|
  disk_add p f := on_table (run _ (add_safe (Some p) f));
  disk_remove id := on_table (run _ (remove_safe id));
  set_last_error t := on_table (λ x, (0, (run _ (error_safe t) x).2)) |}.
#[local] Instance table_core_laws : CoreLaws (table * W).
Proof.
  split; intros; unfold disk_add, disk_remove, set_last_error, table_core, on_table, view, table_laws, dsk_laws in *; cbn [fst snd] in *.
  - apply pair_equal_spec in H as [<- <-]. cbn [fst snd].
    destruct (add_bus (Some p) f w.1) as [[? ->]|(? & ? & ->)]; [by left|right]. by destruct (view w.2).
  - rewrite remove_bus. by destruct (view w.2).
  - by rewrite error_bus.
Defined.

(** Opening an image over the disk table: the disk of the session is on the
    bus, in a slot of its own, and nothing else of the kernel changed; after
    a failure bus and kernel are as before. *)
Theorem open_over_table c1 c2 image flags (t : table) (w : W) : sysfs_sane (W := table * W) → tame_disks (W := table * W) →
  wp (anyfs_session_open c1 c2 image flags) (λ r s',
    (r = (-1, None) ∧ on_bus s'.1 = on_bus t ∨
     ∃ d, r = (0, Some d) ∧ disk_id d ∉ on_bus t ∧ on_bus s'.1 = {[disk_id d]} ∪ on_bus t ∧
       ∃ i sl, used (proj1_sig s'.1).1 i sl ∧ sl_disk_id sl = disk_id d) ∧
    (∀ D, with_dsk D (view s'.2) = with_dsk D (view w))) (t, w).
Proof.
  intros Hs Ht. eapply wp_mono; [by apply wp_session_open|]. intros r [t' w'] [[-> E]|(d & -> & _ & _ & _ & _ & Hn & E)];
    unfold view, table_laws, dsk_laws in *; cbn [fst snd with_dsk v_fds v_mnt v_bro v_dsk] in *.
  - pose proof (f_equal v_dsk E) as Eb. split; [by left|]. intros D. by apply (f_equal (with_dsk D)) in E.
  - pose proof (f_equal v_dsk E) as Eb. cbn in Eb. split; [|intros D; by apply (f_equal (with_dsk D)) in E]. right. exists d.
    split_and!; [done..|]. assert (Hd : disk_id d ∈ on_bus t') by (rewrite Eb; set_solver).
    unfold on_bus in Hd. apply elem_of_dom in Hd as [x Hx]. by apply (di_bus _ _ _ (proj2_sig t')) in Hx.
Qed.

End Core.
End Table.

(** An image file on the toy host, its disk on the toy bus, in the kernel of
    SessionOpen. *)
Definition table0 : table (X := toy_bus) (held bus0) := (globals0, bus0) ↾ DInv_empty globals0 bus0 eq_refl eq_refl.

Notation world := (table (X := toy_bus) (held bus0) * rig)%type.
#[local] Instance world_laws : LklLaws world := table_laws (held bus0).
#[local] Instance world_core : Core world := table_core false false None (held bus0).

Lemma world_sane : sysfs_sane (W := world).
Proof. intros dn w h names H. by apply (rig_sane dn w.2 h names). Qed.
Lemma world_tame : tame_disks (W := world).
Proof. intros fd w buf w' [= <- <-]. split; [constructor|unfold gpt_tame; cbn; lia]. Qed.
Lemma world_umounts : umount_works (W := world).
Proof. intros path w H. by apply (rig_umounts path w.2). Qed.

End Compose.
