(* ===== verification/Mountd.v ===== *)
(** * Mountd

    src/nfsd/nfsd_main.c: the small mountd of the NFS server.  The kernel's
    sunrpc caches ask questions as lines of words; the handlers answer them
    from the table of exports.  A handler returns the line it writes back, if
    any; reading outside the table of exports is stuck. *)
From S2P Require Import Prelude CLib Lkl.
Import CLib.

Module Mountd.

(** ** Exports *)

Record ExportInfo := mk_export { ex_name : bytes; ex_lkl_path : bytes; ex_bind_path : bytes }.

Definition NFSEXP_READONLY : Z := 0x0001.
Definition NFSEXP_INSECURE : Z := 0x0002.
Definition NFSEXP_ALLSQUASH : Z := 0x0008.
Definition NFSEXP_NOSUBTREECHECK : Z := 0x0400.
Definition NFSEXP_FSID : Z := 0x2000.

(** ** Words *)

Fixpoint skip_blanks (bp : bytes) : bytes :=
  match bp with
  | c :: bp' => if c =? 32 then skip_blanks bp' else bp
  | [] => []
  end.

Definition hexval (c : Z) : Z :=
  if (48 <=? c) && (c <=? 57) then c - 48
  else if (97 <=? c) && (c <=? 102) then c - 97 + 10
  else if (65 <=? c) && (c <=? 70) then c - 65 + 10
  else -1.

(** The two loops, with room for [room] more bytes: what is left of the text
    and the word. *)
Fixpoint hex_word (room : nat) (bp dest : bytes) : bytes * bytes :=
  match room, bp with
  | S r, a :: bp1 =>
      if hexval a <? 0 then (bp, dest)
      else match bp1 with
           | b :: bp2 =>
               if hexval b <? 0 then (bp1, dest)
               else hex_word r bp2 (dest ++ [Z.lor (Z.shiftl (hexval a) 4) (hexval b)])
           | [] => ([], dest)
           end
  | _, _ => (bp, dest)
  end.
Fixpoint plain_word (room : nat) (bp dest : bytes) : bytes * bytes :=
  match room, bp with
  | S r, c :: bp' => if (c =? 32) || (c =? 10) then (bp, dest) else plain_word r bp' (dest ++ [c])
  | _, _ => (bp, dest)
  end.

(** The value returned, the word and the rest of the text. *)
Definition qword_get_user (bp : bytes) (bufsize : Z) : Z * bytes * bytes :=
  let room := Z.to_nat (bufsize - 1) in
  match skip_blanks bp with
  | [] => (-1, [], [])
  | c :: t =>
      if c =? 10 then (-1, [], c :: t)
      else
        let '(rest, dest) :=
          match t with
          | x :: t' => if (c =? 92) && (x =? 120) then hex_word room t' [] else plain_word room (c :: t) []
          | [] => plain_word room (c :: t) []
          end in
        (len dest, dest, skip_blanks rest)
  end.

(** [if (qword_get_user(&p, dest, n) <= 0) return;] *)
Definition word (p : bytes) (n : Z) (k : bytes → bytes → option (option bytes)) : option (option bytes) :=
  let '(r, dest, p') := qword_get_user p n in
  if r <=? 0 then Some None else k dest p'.

(** ** Handlers *)
Section Handlers.
Context (now : Z) (g_exports : list ExportInfo) (g_read_only : bool).

Definition expiry : Z := now + 3600 * 24 * 365.
Definition sp : bytes := [32].
Definition nl : bytes := [10].
(** A line formatted into [resp] of [cap] bytes and written back. *)
Definition respond (cap : Z) (line : bytes) : option (option bytes) := Some (Some (snprintf cap line).2).

Definition handle_ip_map (query : bytes) : option (option bytes) :=
  word query 64 (λ class p, word p 64 (λ ip _,
    respond 256 (c_str class ++ sp ++ c_str ip ++ sp ++ fmt_d expiry ++ bs " unix" ++ nl))).

Definition handle_unix_gid (query : bytes) : option (option bytes) :=
  word query 32 (λ uid _, respond 128 (c_str uid ++ sp ++ fmt_d expiry ++ bs " 0" ++ nl)).

Definition atoi (s : bytes) : Z := i32 (strtol s).1.

Definition be32 (b : bytes) : Z :=
  match b with
  | [a; b; c; d] => Z.lor (Z.lor (Z.lor (Z.shiftl a 24) (Z.shiftl b 16)) (Z.shiftl c 8)) d
  | _ => 0
  end.

(** g_exports[i]; nothing is read outside the exports. *)
Definition export_at (i : Z) : option ExportInfo := if i <? len g_exports then g_exports !! Z.to_nat i else None.

(** The path for an fsid; [Some None] is the null pointer. *)
Definition fsid_path (idx : Z) : option (option bytes) :=
  if idx =? 0 then Some (Some match g_exports with e :: _ => ex_lkl_path e | [] => bs "/" end)
  else if i32 idx <=? len g_exports then
    e ← export_at (idx - 1); Some (Some (ex_bind_path e))
  else Some None.

(** The loop that prints the key in the negative answer: [off] characters of
    hex[128] are used. *)
Fixpoint hex_text (off : Z) (l : bytes) : bytes :=
  match l with
  | c :: l' => if off <? 128 - 2 then fmt_x 2 c ++ hex_text (off + 2) l' else []
  | [] => []
  end.
Definition refuse_key (domain : bytes) (fsidtype : Z) (fsid : bytes) : option (option bytes) :=
  respond 512 (c_str domain ++ sp ++ fmt_d fsidtype ++ sp ++ bs "\x" ++ hex_text 2 fsid ++ sp ++ fmt_d expiry ++ nl).

Definition handle_expkey (query : bytes) : option (option bytes) :=
  word query 64 (λ domain p, word p 16 (λ fsidtype_str p, word p 64 (λ fsid _,
    let fsidtype := atoi (c_str fsidtype_str) in
    if (fsidtype =? 1) && (len fsid =? 4) then
      let idx := be32 fsid in
      path ← fsid_path idx;
      match path with
      | Some path =>
          respond 512 (c_str domain ++ bs " 1 \x" ++ fmt_x 2 (Z.land (Z.shiftr idx 24) 0xff) ++ fmt_x 2 (Z.land (Z.shiftr idx 16) 0xff) ++
            fmt_x 2 (Z.land (Z.shiftr idx 8) 0xff) ++ fmt_x 2 (Z.land idx 0xff) ++ sp ++ fmt_d expiry ++ sp ++ path ++ nl)
      | None => refuse_key domain fsidtype fsid
      end
    else refuse_key domain fsidtype fsid))).

Definition export_flags : Z :=
  let flags := Z.lor (Z.lor (Z.lor NFSEXP_INSECURE NFSEXP_NOSUBTREECHECK) NFSEXP_FSID) NFSEXP_ALLSQUASH in
  if g_read_only then Z.lor flags NFSEXP_READONLY else flags.

(** The loop over the exports from index [i]: the index of the first whose
    bind path is [path]. *)
Fixpoint find_bind (path : bytes) (i : Z) (l : list ExportInfo) : option Z :=
  match l with
  | e :: l' => if streq path (ex_bind_path e) then Some i else find_bind path (i + 1) l'
  | [] => None
  end.

Definition grant (domain path : bytes) (fsid : Z) : option (option bytes) :=
  respond 512 (c_str domain ++ sp ++ path ++ sp ++ fmt_d expiry ++ sp ++ fmt_u export_flags ++ bs " 0 0 " ++ fmt_u fsid ++ nl).
Definition refuse_export (domain path : bytes) : option (option bytes) :=
  respond 512 (c_str domain ++ sp ++ path ++ sp ++ fmt_d expiry ++ nl).

Definition handle_export (query : bytes) : option (option bytes) :=
  word query 64 (λ domain p, word p 256 (λ path _,
    let path := c_str path in
    if match g_exports with e :: _ => streq path (ex_lkl_path e) | [] => false end then grant domain path 0
    else match find_bind path 0 g_exports with
         | Some i => grant domain path (u32 (i + 1))
         | None => refuse_export domain path
         end)).

Definition handle_idtoname (query : bytes) : option (option bytes) :=
  word query 64 (λ domain p, word p 16 (λ type p, word p 16 (λ id _,
    let name := if atoi (c_str id) =? 0 then bs "root" else bs "nobody" in
    respond 512 (c_str domain ++ sp ++ c_str type ++ sp ++ c_str id ++ sp ++ fmt_d expiry ++ sp ++ name ++ nl)))).

Definition handle_nametoid (query : bytes) : option (option bytes) :=
  word query 64 (λ domain p, word p 16 (λ type p, word p 64 (λ name _,
    let id := if streq (c_str name) (bs "root") then 0 else 65534 in
    respond 512 (c_str domain ++ sp ++ c_str type ++ sp ++ c_str name ++ sp ++ fmt_d expiry ++ sp ++ fmt_u id ++ nl)))).

(** ** The channels *)

Definition channels : list (bytes * (bytes → option (option bytes))) :=
  [(bs "/proc/net/rpc/auth.unix.ip/channel", handle_ip_map);
   (bs "/proc/net/rpc/auth.unix.gid/channel", handle_unix_gid);
   (bs "/proc/net/rpc/nfsd.fh/channel", handle_expkey);
   (bs "/proc/net/rpc/nfsd.export/channel", handle_export);
   (bs "/proc/net/rpc/nfs4.idtoname/channel", handle_idtoname);
   (bs "/proc/net/rpc/nfs4.nametoid/channel", handle_nametoid)].

(** The loop over the lines of one read: the answers in order. *)
Fixpoint serve_lines (fuel : nat) (handler : bytes → option (option bytes)) (line : bytes) : option (list bytes) :=
  match line, fuel with
  | [], _ => Some []
  | _, O => None
  | _, S f =>
      let '(text, rest) := match strchr 10 line with Some (a, b) => (a, Some b) | None => (line, None) end in
      r ← (match text with [] => Some None | _ => handler text end);
      let out := match r with Some a => [a] | None => [] end in
      match rest with
      | None => Some out
      | Some line' => more ← serve_lines f handler line'; Some (out ++ more)
      end
  end.

(** One turn for a channel that is ready: [data] is what the read stored. *)
Definition serve_channel (ch : nat) (data : bytes) : option (list bytes) :=
  c ← channels !! ch; serve_lines (S (length data)) c.2 (c_str data).
End Handlers.

(** ** Exports from shares (steps 5 and 5.5 of main) *)

Definition reserved : list bytes := [bs "proc"; bs "sys"; bs "lklmnt"; bs "dev"].
Definition LKL_MS_BIND : Z := 4096.

Definition exports_of (ents : list (bytes * bytes)) : list ExportInfo :=
  (λ e, mk_export e.1 e.2 []) <$> ents.

Section Bind.
Context {W : Type} `{!Lkl W}.

(** The loop over the exports; [None] where main gives up.  The null
    filesystem type of a bind mount is the empty text. *)
Fixpoint bind_exports (l : list ExportInfo) : M W (option (list ExportInfo)) :=
  match l with
  | [] => mret (Some [])
  | ex :: l' =>
      if existsb (streq (ex_name ex)) reserved then mret None
      else
        let bind_path := (snprintf 80 (47 :: ex_name ex)).2 in
        r ← lkl_sys_mkdir bind_path 0x1ed;
        if (r <? 0) && negb (r =? - LKL_EEXIST) then mret None
        else
          r ← lkl_sys_mount (ex_lkl_path ex) bind_path [] LKL_MS_BIND None;
          if r <? 0 then mret None
          else
            rest ← bind_exports l';
            mret ((λ t, mk_export (ex_name ex) (ex_lkl_path ex) bind_path :: t) <$> rest)
  end.
End Bind.

(** ** Words *)

(** A word that is sent as it is: no blank, no newline, no leading
    backslash. *)
Definition plain (w : bytes) : Prop :=
  Forall (λ c, 0 < c < 256 ∧ c ≠ 32 ∧ c ≠ 10) w ∧ match w with c :: _ => c ≠ 92 | [] => False end.
Definition ends (r : bytes) : Prop := match r with c :: _ => c = 32 ∨ c = 10 | [] => True end.
Definition hexes (b : bytes) : bytes := mjoin (fmt_x 2 <$> b).

#[global] Instance plain_dec w : Decision (plain w).
Proof. unfold plain. destruct w; apply _. Defined.
Ltac is_plain := apply (bool_decide_unpack _); vm_compute; exact I.

Lemma plain_CStr w : plain w → CStr w.
Proof. intros [H _]. eapply Forall_impl; [exact H|]. naive_solver. Qed.

Lemma plain_word_spec room w r dest : Forall (λ c, 0 < c < 256 ∧ c ≠ 32 ∧ c ≠ 10) w → (length w <= room)%nat → ends r →
  plain_word room (w ++ r) dest = (r, dest ++ w).
Proof.
  intros Hw. revert room dest. induction Hw as [|c w (Hc & H1 & H2) Hw IH]; intros room dest Hr He; cbn [app].
  - rewrite app_nil_r. destruct room, r as [|c r]; try done. cbn. destruct He as [->| ->]; done.
  - destruct room as [|room]; [cbn in Hr; lia|]. cbn [plain_word].
    destruct (Z.eqb_spec c 32), (Z.eqb_spec c 10); try done. cbn. rewrite IH by (done || cbn in Hr; lia). by rewrite <- app_assoc.
Qed.

Lemma qword_plain w r n : plain w → len w < n → ends r →
  qword_get_user (w ++ r) n = (len w, w, skip_blanks r).
Proof.
  intros [Hw Hh] Hn He. destruct w as [|c w]; [done|]. pose proof Hw as Hw'. apply Forall_cons in Hw' as [(Hc & H1 & H2) _].
  unfold qword_get_user. cbn [app skip_blanks]. destruct (Z.eqb_spec c 32); [done|]. destruct (Z.eqb_spec c 10); [done|].
  destruct (Z.eqb_spec c 92); [done|].
  assert (E : plain_word (Z.to_nat (n - 1)) ((c :: w) ++ r) [] = (r, c :: w)) by (apply plain_word_spec; [done|lia|done]).
  cbn [app] in E. by destruct (w ++ r); cbn [andb]; rewrite E.
Qed.

Lemma hexval_hexdig v : 0 <= v < 16 → hexval (hexdig v) = v.
Proof. intros Hv. assert (0 <= v < 256) by lia. destruct Hv as [_ Hv]. revert Hv. by_bytes v. Qed.

Lemma nibbles c : 0 <= c < 256 → Z.lor (Z.shiftl (c / 16 mod 16) 4) (c mod 16) = c.
Proof. intros. by_bytes c. Qed.

Lemma hex_word_spec room b r dest : Bytes b → (length b <= room)%nat → ends r →
  hex_word room (hexes b ++ r) dest = (r, dest ++ b).
Proof.
  intros Hb. revert room dest. induction Hb as [|c b Hc Hb IH]; intros room dest Hr He.
  - cbn [hexes fmap list_fmap mjoin list_join app]. rewrite app_nil_r. destruct room, r as [|c r]; try done. cbn [hex_word].
    by destruct He as [->| ->].
  - destruct room as [|room]; [cbn in Hr; lia|]. unfold hexes. cbn [fmap list_fmap mjoin list_join fmt_x app].
    change (16 ^ Z.of_nat 1) with 16. change (16 ^ Z.of_nat 0) with 1. rewrite Z.div_1_r. cbn [hex_word].
    pose proof (Z.mod_pos_bound (c / 16) 16). pose proof (Z.mod_pos_bound c 16). rewrite !hexval_hexdig by lia.
    destruct (Z.ltb_spec (c / 16 mod 16) 0); [lia|]. destruct (Z.ltb_spec (c mod 16) 0); [lia|].
    rewrite nibbles by done. change (mjoin (fmt_x 2 <$> b)) with (hexes b). rewrite IH by (done || cbn in Hr; lia).
    by rewrite <- app_assoc.
Qed.

(** What the kernel prints of a key, the handler reads back. *)
Lemma qword_hex b r n : Bytes b → len b < n → ends r →
  qword_get_user (bs "\x" ++ hexes b ++ r) n = (len b, b, skip_blanks r).
Proof.
  intros Hb Hn He. unfold qword_get_user. change (bs "\x" ++ hexes b ++ r) with (92 :: 120 :: hexes b ++ r).
  cbn [skip_blanks]. change (92 =? 32) with false. change (92 =? 10) with false. change (92 =? 92) with true.
  change (120 =? 120) with true. cbn [andb]. rewrite hex_word_spec by (done || lia). by cbn [app].
Qed.

Lemma skip_blanks_plain w r : plain w → skip_blanks (sp ++ w ++ r) = w ++ r.
Proof.
  intros [Hw Hh]. destruct w as [|c w]; [done|]. apply Forall_cons in Hw as [(_ & H & _) _]. cbn.
  destruct (Z.eqb_spec c 32); [done|]. done.
Qed.

Lemma word_plain w r n k : plain w → len w < n → ends r → word (w ++ r) n k = k w (skip_blanks r).
Proof.
  intros Hw Hn He. unfold word. rewrite qword_plain by done. destruct Hw as [_ Hh]. destruct w as [|c w]; [done|].
  destruct (Z.leb_spec (len (c :: w)) 0) as [H|H]; [cbn [length] in H; lia|done].
Qed.

(** ** Keys *)

Definition be_bytes (idx : Z) : bytes := [idx / 2 ^ 24 mod 256; idx / 2 ^ 16 mod 256; idx / 2 ^ 8 mod 256; idx mod 256].
Definition key (idx : Z) : bytes := bs "\x" ++ hexes (be_bytes idx).

Lemma be_bytes_ok idx : Bytes (be_bytes idx).
Proof. unfold be_bytes, Bytes. repeat constructor; apply Z.mod_pos_bound; lia. Qed.

Lemma be32_sum a b c d : 0 <= a < 256 → 0 <= b < 256 → 0 <= c < 256 → 0 <= d < 256 →
  be32 [a; b; c; d] = a * 2 ^ 24 + b * 2 ^ 16 + c * 2 ^ 8 + d.
Proof.
  intros Ha Hb Hc Hd. cbn [be32]. rewrite !Z.shiftl_mul_pow2 by lia.
  assert (L : ∀ x y n, 0 <= y < 2 ^ n → 0 <= n → Z.lor (x * 2 ^ n) y = x * 2 ^ n + y).
  { intros x y n Hy Hn. rewrite <- Z.shiftl_mul_pow2 by done. symmetry. apply Z.add_nocarry_lor, Z.bits_inj'. intros i Hi.
    rewrite Z.land_spec, Z.bits_0. destruct (Z.ltb_spec i n); [by rewrite Z.shiftl_spec_low|].
    rewrite (bits_above y n) by lia. apply andb_false_r. }
  rewrite (L a (b * 2 ^ 16) 24) by lia. replace (a * 2 ^ 24 + b * 2 ^ 16) with ((a * 2 ^ 8 + b) * 2 ^ 16) by lia.
  rewrite (L _ (c * 2 ^ 8) 16) by lia. replace ((a * 2 ^ 8 + b) * 2 ^ 16 + c * 2 ^ 8) with ((a * 2 ^ 16 + b * 2 ^ 8 + c) * 2 ^ 8) by lia.
  rewrite (L _ d 8) by lia. lia.
Qed.

Lemma be32_bytes idx : 0 <= idx < 2 ^ 32 → be32 (be_bytes idx) = idx.
Proof.
  intros H. unfold be_bytes. rewrite be32_sum by (apply Z.mod_pos_bound; lia).
  rewrite (Z.mod_small (idx / 2 ^ 24)) by (split; [apply Z.div_pos|apply Z.div_lt_upper_bound]; lia).
  replace (idx / 2 ^ 24) with (idx / 256 / 256 / 256) by (by rewrite !Z.div_div).
  replace (idx / 2 ^ 16) with (idx / 256 / 256) by (by rewrite !Z.div_div). change (2 ^ 8) with 256.
  pose proof (Z.div_mod idx 256). pose proof (Z.div_mod (idx / 256) 256). pose proof (Z.div_mod (idx / 256 / 256) 256). lia.
Qed.

Lemma be32_range b : Bytes b → length b = 4%nat → 0 <= be32 b < 2 ^ 32.
Proof.
  intros Hb Hl. destruct b as [|x0 [|x1 [|x2 [|x3 [|]]]]]; try done. unfold Bytes in Hb. rewrite !Forall_cons in Hb.
  rewrite be32_sum; lia.
Qed.

(** What the handler prints is the key it was asked for. *)
Lemma print_key idx : 0 <= idx < 2 ^ 32 →
  fmt_x 2 (Z.land (Z.shiftr idx 24) 0xff) ++ fmt_x 2 (Z.land (Z.shiftr idx 16) 0xff) ++
  fmt_x 2 (Z.land (Z.shiftr idx 8) 0xff) ++ fmt_x 2 (Z.land idx 0xff) = hexes (be_bytes idx).
Proof.
  intros H. change 0xff with (Z.ones 8). rewrite !Z.land_ones, !Z.shiftr_div_pow2 by lia. reflexivity.
Qed.

(** ** The table of exports *)

Record export_ok (e : ExportInfo) : Prop := {
  ok_lkl : plain (ex_lkl_path e) ∧ len (ex_lkl_path e) < 64;
  ok_bind : plain (ex_bind_path e) ∧ len (ex_bind_path e) < 80 }.
Record exports_ok (l : list ExportInfo) : Prop := {
  ok_each : Forall export_ok l;
  ok_count : len l <= 32;
  ok_nodup : NoDup (ex_bind_path <$> l);
  ok_root : ∀ e, head l = Some e → ex_lkl_path e ∉ (ex_bind_path <$> l) }.

(** The path that stands for an fsid: 0 is the first export's mount point,
    [i + 1] the bind path of export [i]. *)
Definition path_at (l : list ExportInfo) (idx : Z) : option bytes :=
  if idx =? 0 then ex_lkl_path <$> head l
  else if idx <? 0 then None
  else ex_bind_path <$> l !! Z.to_nat (idx - 1).

Lemma path_at_ok l idx P : exports_ok l → path_at l idx = Some P → plain P ∧ len P < 80 ∧ 0 <= idx <= len l.
Proof.
  intros [He Hc _ _]. unfold path_at. destruct (Z.eqb_spec idx 0) as [->|Hn].
  - destruct l as [|e l]; [done|]. intros [= <-]. apply Forall_cons in He as [[[] _] _]. split_and!; [done|lia|lia|lia].
  - destruct (Z.ltb_spec idx 0); [done|]. intros H'. apply fmap_Some in H' as (e & El & ->).
    pose proof (lookup_lt_Some _ _ _ El). apply (Forall_lookup_1 _ _ _ _ He) in El as [_ []]. split_and!; [done|lia|lia|lia].
Qed.

Lemma fsid_path_at l idx P : exports_ok l → path_at l idx = Some P → fsid_path l idx = Some (Some P).
Proof.
  intros Hok HP. destruct (path_at_ok _ _ _ Hok HP) as (_ & _ & Hi). pose proof (ok_count l Hok) as Hc. unfold fsid_path. unfold path_at in HP.
  destruct (Z.eqb_spec idx 0) as [->|Hn]; [by destruct l; [|injection HP as <-]|]. destruct (Z.ltb_spec idx 0); [lia|].
  rewrite i32_small by lia. destruct (Z.leb_spec idx (len l)); [|lia]. unfold export_at. destruct (Z.ltb_spec (idx - 1) (len l)); [|lia]. apply fmap_Some in HP as (e & -> & ->). done.
Qed.

Lemma find_bind_spec path i l :
  match find_bind path i l with
  | Some j => i <= j ∧ ∃ e, l !! Z.to_nat (j - i) = Some e ∧ ex_bind_path e = path
  | None => path ∉ (ex_bind_path <$> l)
  end.
Proof.
  revert i. induction l as [|e l IH]; intros i; cbn [find_bind fmap list_fmap]; [apply not_elem_of_nil|].
  destruct (streq path (ex_bind_path e)) eqn:E.
  - apply streq_true in E as ->. split; [lia|]. exists e. by rewrite Z.sub_diag.
  - assert (path ≠ ex_bind_path e) by (intros ->; rewrite (proj2 (streq_true _ _) eq_refl) in E; done).
    specialize (IH (i + 1)). destruct (find_bind path (i + 1) l) as [j|].
    + destruct IH as (Hj & e' & El & Ee). split; [lia|]. exists e'. split; [|done].
      replace (Z.to_nat (j - i)) with (S (Z.to_nat (j - (i + 1)))) by lia. done.
    + rewrite elem_of_cons. naive_solver.
Qed.

Lemma find_bind_at l k e : NoDup (ex_bind_path <$> l) → l !! k = Some e → find_bind (ex_bind_path e) 0 l = Some (Z.of_nat k).
Proof.
  intros Hn Hk. pose proof (find_bind_spec (ex_bind_path e) 0 l) as H. destruct (find_bind _ _ _) as [j|].
  - destruct H as (Hj & e' & El & Ee). f_equal. rewrite Z.sub_0_r in El.
    assert (k = Z.to_nat j); [|lia]. eapply NoDup_lookup; [done|by rewrite list_lookup_fmap, Hk|].
    by rewrite list_lookup_fmap, El; cbn; rewrite Ee.
  - destruct H. apply list_elem_of_fmap. exists e. split; [done|]. by eapply list_elem_of_lookup_2.
Qed.

Lemma fmt_d_len64 n : - 2 ^ 63 <= n < 2 ^ 63 → len (fmt_d n) <= 20.
Proof.
  intros Hn. pose proof (fmt_u_length_le 20 (Z.abs n) [] 19) as H. change (10 ^ Z.of_nat 19) with 10000000000000000000 in H.
  cbn [length] in H. unfold fmt_d, fmt_u in *. destruct (Z.ltb_spec n 0).
  - rewrite Z.abs_neq in H by lia. cbn [length]. lia.
  - rewrite Z.abs_eq in H by lia. lia.
Qed.

Lemma flags_small ro : 0 <= export_flags ro < 2 ^ 32.
Proof. by destruct ro. Qed.

Ltac fits := unfold respond; rewrite snprintf_fits; [done|]; rewrite ?length_app; cbn [length app sp nl]; unfold hexes, be_bytes; cbn [length]; lia.

Section Answers.
Context (now : Z) (l : list ExportInfo) (ro : bool) (Hl : exports_ok l) (Hnow : 0 <= now < 2 ^ 62).

Lemma expiry_len : len (fmt_d (expiry now)) <= 20.
Proof. apply fmt_d_len64. unfold expiry. lia. Qed.

Lemma expkey_answer dom idx P : plain dom → len dom < 64 → path_at l idx = Some P →
  handle_expkey now l (dom ++ sp ++ bs "1" ++ sp ++ key idx) =
    Some (Some (dom ++ sp ++ bs "1" ++ sp ++ key idx ++ sp ++ fmt_d (expiry now) ++ sp ++ P ++ nl)).
Proof.
  intros Hd Hdl HP. destruct (path_at_ok _ _ _ Hl HP) as (HPp & HPl & Hi). pose proof (ok_count l Hl) as Hc. pose proof expiry_len as He.
  unfold handle_expkey. rewrite word_plain by (done || by left). rewrite (skip_blanks_plain (bs "1")) by is_plain.
  rewrite word_plain by (done || by left || is_plain).
  unfold word. change (skip_blanks (sp ++ key idx)) with (key idx). unfold key.
  rewrite <- (app_nil_r (hexes _)) at 1. rewrite qword_hex by (apply be_bytes_ok || done). cbn [length be_bytes].
  change (Z.of_nat 4 <=? 0) with false. cbn iota. change (atoi (c_str (bs "1")) =? 1) with true. change (len (be_bytes idx) =? 4) with true.
  cbn [andb]. rewrite be32_bytes by lia. rewrite (fsid_path_at l idx P Hl HP). cbn [mbind option_bind].
  rewrite c_str_id by (by apply plain_CStr). change (Z.of_nat 4 =? 4) with true. cbn iota.
  replace (dom ++ bs " 1 \x" ++ _) with (dom ++ sp ++ bs "1" ++ sp ++ (bs "\x" ++ hexes (be_bytes idx)) ++ sp ++ fmt_d (expiry now) ++ sp ++ P ++ nl)
    by (rewrite <- (print_key idx) by lia; rewrite <- !app_assoc; reflexivity).
  unfold respond. rewrite snprintf_fits; [done|]. rewrite !length_app. unfold hexes, be_bytes. cbn [length fmap list_fmap mjoin list_join fmt_x app sp nl bs].
  cbn. lia.
Qed.

Lemma export_answer dom idx P : plain dom → len dom < 64 → path_at l idx = Some P →
  handle_export now l ro (dom ++ sp ++ P) =
    Some (Some (dom ++ sp ++ P ++ sp ++ fmt_d (expiry now) ++ sp ++ fmt_u (export_flags ro) ++ bs " 0 0 " ++ fmt_u idx ++ nl)).
Proof.
  intros Hd Hdl HP. destruct (path_at_ok _ _ _ Hl HP) as (HPp & HPl & Hi). pose proof (ok_count l Hl) as Hc. pose proof expiry_len as He.
  unfold handle_export. rewrite word_plain by (done || by left). rewrite <- (app_nil_r P) at 1. rewrite (skip_blanks_plain P) by done.
  rewrite word_plain by (done || lia). rewrite c_str_id by (by apply plain_CStr).
  assert (Hg : ∀ k, 0 <= k <= 32 → grant now ro dom P k =
    Some (Some (dom ++ sp ++ P ++ sp ++ fmt_d (expiry now) ++ sp ++ fmt_u (export_flags ro) ++ bs " 0 0 " ++ fmt_u k ++ nl))).
  { intros k Hk. unfold grant, respond. rewrite c_str_id by (by apply plain_CStr). rewrite snprintf_fits; [done|].
    pose proof (fmt_u_len32 (export_flags ro) (flags_small ro)). pose proof (fmt_u_len32 k ltac:(lia)).
    rewrite !length_app. cbn [sp nl length]. change (length (bs " 0 0 ")) with 5%nat. lia. }
  unfold path_at in HP. destruct (Z.eqb_spec idx 0) as [->|Hn].
  - destruct l as [|e l']; [done|]. injection HP as <-. rewrite (proj2 (streq_true _ _) eq_refl). apply Hg. lia.
  - destruct (Z.ltb_spec idx 0); [done|]. apply fmap_Some in HP as (e & El & ->).
    assert (Hno : match l with e0 :: _ => streq (ex_bind_path e) (ex_lkl_path e0) | [] => false end = false).
    { destruct l as [|e0 l']; [done|]. apply not_true_iff_false. rewrite streq_true. intros E.
      apply (ok_root _ Hl e0 eq_refl). rewrite <- E. apply list_elem_of_fmap. exists e. split; [done|]. by eapply list_elem_of_lookup_2. }
    rewrite Hno, (find_bind_at l _ e (ok_nodup l Hl) El). rewrite u32_small by lia. replace (Z.of_nat (Z.to_nat (idx - 1)) + 1) with idx by lia.
    apply Hg. lia.
Qed.
End Answers.

(** ** Every question *)

(** The two words of a question. *)
Definition asks (q : bytes) : option (bytes * bytes) :=
  let '(r1, dom, p) := qword_get_user q 64 in
  if r1 <=? 0 then None
  else let '(r2, path, _) := qword_get_user p 256 in if r2 <=? 0 then None else Some (c_str dom, c_str path).

(** The answer to the question [q]: a question without two words gets none; a
    path of an export is granted under its fsid with the flags of the server;
    any other path is refused, by an answer without flags. *)
Inductive export_reply (now : Z) (l : list ExportInfo) (ro : bool) (q : bytes) : option bytes → Prop :=
  | reply_malformed : asks q = None → export_reply now l ro q None
  | reply_refused dom path : asks q = Some (dom, path) → (∀ idx, path_at l idx ≠ Some path) →
      export_reply now l ro q (Some (snprintf 512 (dom ++ sp ++ path ++ sp ++ fmt_d (expiry now) ++ nl)).2)
  | reply_granted dom path idx : asks q = Some (dom, path) → path_at l idx = Some path →
      export_reply now l ro q (Some (snprintf 512 (dom ++ sp ++ path ++ sp ++ fmt_d (expiry now) ++ sp ++ fmt_u (export_flags ro) ++
        bs " 0 0 " ++ fmt_u idx ++ nl)).2).

Lemma word_total (P : option bytes → Prop) p n k : P None → (∀ d p', ∃ r, k d p' = Some r ∧ P r) → ∃ r, word p n k = Some r ∧ P r.
Proof. intros H0 Hk. unfold word. destruct (qword_get_user p n) as [[r d] p']. destruct (r <=? 0); [by exists None|apply Hk]. Qed.

Lemma path_at_bind l j e : l !! j = Some e → path_at l (Z.of_nat j + 1) = Some (ex_bind_path e).
Proof.
  intros El. unfold path_at. destruct (Z.eqb_spec (Z.of_nat j + 1) 0), (Z.ltb_spec (Z.of_nat j + 1) 0); try lia.
  replace (Z.to_nat (Z.of_nat j + 1 - 1)) with j by lia. by rewrite El.
Qed.
Lemma path_at_none l path : path ∉ (ex_bind_path <$> l) → (∀ e, head l = Some e → path ≠ ex_lkl_path e) → ∀ idx, path_at l idx ≠ Some path.
Proof.
  intros Hb Hh idx. unfold path_at. case_if; [destruct l; [done|]; intros [= Eq]; by eapply Hh|]. case_if; [done|].
  intros Eq. apply fmap_Some in Eq as (e & El & ->). destruct Hb. apply list_elem_of_fmap. exists e. split; [done|]. by eapply list_elem_of_lookup_2.
Qed.

Lemma export_replies now l ro q : len l <= 32 → ∃ r, handle_export now l ro q = Some r ∧ export_reply now l ro q r.
Proof.
  intros Hl. unfold handle_export, word. destruct (qword_get_user q 64) as [[r1 dom] p] eqn:E1. destruct (r1 <=? 0) eqn:H1.
  { exists None. split; [done|]. constructor. unfold asks. by rewrite E1, H1. }
  destruct (qword_get_user p 256) as [[r2 path] p2] eqn:E2. destruct (r2 <=? 0) eqn:H2.
  { exists None. split; [done|]. constructor. unfold asks. by rewrite E1, H1, E2, H2. }
  assert (Ha : asks q = Some (c_str dom, c_str path)) by (unfold asks; by rewrite E1, H1, E2, H2).
  destruct (match l with e :: _ => streq (c_str path) (ex_lkl_path e) | [] => false end) eqn:E.
  - destruct l as [|e l']; [done|]. apply streq_true in E. eexists. split; [reflexivity|]. apply (reply_granted _ _ _ _ _ _ 0); [done|].
    by rewrite E.
  - pose proof (find_bind_spec (c_str path) 0 l) as H. destruct (find_bind (c_str path) 0 l) as [j|].
    + destruct H as (Hj & e & El & Ee). pose proof (lookup_lt_Some _ _ _ El). rewrite u32_small by lia.
      eexists. split; [reflexivity|]. apply reply_granted; [done|]. rewrite <- Ee.
      replace (j + 1) with (Z.of_nat (Z.to_nat (j - 0)) + 1) by lia. by apply path_at_bind.
    + eexists. split; [reflexivity|]. apply reply_refused; [done|]. apply path_at_none; [done|]. intros e He Ep. destruct l as [|e' l]; [done|].
      injection He as <-. by rewrite Ep, (proj2 (streq_true _ _) eq_refl) in E.
Qed.

(** The questions in what was read: its lines that are not empty. *)
Fixpoint lines (s : bytes) : list bytes :=
  match s with
  | [] => [[]]
  | c :: s => if c =? 10 then [] :: lines s else match lines s with x :: ls => (c :: x) :: ls | [] => [[c]] end
  end.
Definition questions (s : bytes) : list bytes := filter (λ q, q ≠ []) (lines s).

Lemma lines_cut a b : 10 ∉ a → lines (a ++ 10 :: b) = a :: lines b.
Proof.
  induction a as [|c a IH]; intros H; [done|]. apply not_elem_of_cons in H as [H1 H2]. cbn [app lines].
  destruct (Z.eqb_spec c 10); [done|]. by rewrite IH.
Qed.
Lemma lines_one a : 10 ∉ a → lines a = [a].
Proof.
  induction a as [|c a IH]; intros H; [done|]. apply not_elem_of_cons in H as [H1 H2]. cbn [lines].
  destruct (Z.eqb_spec c 10); [done|]. by rewrite IH.
Qed.

(** Each question is handed to the handler, in order, and each answer sent. *)
Lemma serve_lines_spec (P : bytes → option bytes → Prop) h fuel line :
  (∀ q, ∃ r, h q = Some r ∧ P q r) → (length line < fuel)%nat →
  ∃ rs, serve_lines fuel h line = Some (omap id rs) ∧ Forall2 P (questions line) rs.
Proof.
  intros Hh. revert line. induction fuel as [|f IH]; intros line Hf; [lia|]. destruct line as [|c line']; [by exists []|].
  cbn [serve_lines]. set (line := c :: line') in *.
  assert (Hr : ∀ text ls, ∃ r, (match text with [] => Some None | _ => h text end) = Some r ∧
    ∀ rs, Forall2 P (filter (λ q, q ≠ []) ls) rs → ∃ rs', omap id rs' = (match r with Some a => [a] | None => [] end) ++ omap id rs ∧
      Forall2 P (filter (λ q, q ≠ []) (text :: ls)) rs').
  { intros [|x t] ls; [exists None; split; [done|]; intros rs Hrs; by exists rs|]. destruct (Hh (x :: t)) as (r & Er & Pr). exists r. split; [done|].
    intros rs Hrs. exists (r :: rs). split; [by destruct r|]. rewrite filter_cons_True by done. by constructor. }
  destruct (strchr 10 line) as [[a b]|] eqn:E.
  - apply strchr_Some in E as [E Hn]. cbn beta iota. destruct (Hr a (lines b)) as (r & -> & Pr). cbn [mbind option_bind].
    destruct (IH b) as (rs & -> & Pm). { rewrite E, length_app in Hf. cbn in Hf. lia. }
    destruct (Pr rs Pm) as (rs' & Eo & HF). cbn [mbind option_bind]. exists rs'. rewrite Eo. split; [done|]. unfold questions. by rewrite E, lines_cut.
  - apply strchr_None in E. cbn beta iota. destruct (Hr line []) as (r & -> & Pr). cbn [mbind option_bind].
    destruct (Pr [] (Forall2_nil_2 _ _ _)) as (rs' & Eo & HF). exists rs'. rewrite Eo. split; [by destruct r|]. unfold questions. by rewrite lines_one.
Qed.

Lemma others_total now l ro ch c q : ch ≠ 2%nat → len l <= 32 → channels now l ro !! ch = Some c → ∃ r, c.2 q = Some r ∧ True.
Proof.
  intros Hch Hl Hc. destruct ch as [|[|[|[|[|[|]]]]]]; try done; injection Hc as <-; cbn [snd].
  3: destruct (export_replies now l ro q Hl) as (r & E & _); by exists r.
  all: unfold handle_ip_map, handle_unix_gid, handle_idtoname, handle_nametoid;
    repeat (apply word_total; [done|intros ??]); unfold respond; by eexists.
Qed.

(** ** Binding the shares *)
Section BindSpec.
Context {W : Type} `{!Lkl W, !LklLaws W}.

(** What binding leaves: every export bound at /<name>, mounts elsewhere as
    they were. *)
Record bound (l l' : list ExportInfo) (w w' : W) : Prop := {
  bd_exports : l' = (λ e, mk_export (ex_name e) (ex_lkl_path e) (47 :: ex_name e)) <$> l;
  bd_reserved : Forall (λ e, ex_name e ∉ reserved) l;
  bd_fds : v_fds (view w') = v_fds (view w);
  bd_else : ∀ p, p ∉ (ex_bind_path <$> l') → v_mnt (view w') !! p = v_mnt (view w) !! p;
  bd_mounts : NoDup (ex_bind_path <$> l') → ∀ e, e ∈ l' → ∃ m, v_mnt (view w') !! ex_bind_path e = Some m ∧ mi_dev m = ex_lkl_path e }.

Lemma not_reserved n : existsb (streq n) reserved = false → n ∉ reserved.
Proof.
  intros E Hin. assert (existsb (streq n) reserved = true); [|congruence]. apply existsb_exists. exists n.
  split; [by apply list_elem_of_In|by apply streq_true].
Qed.

Lemma wp_bind_exports l w : Forall (λ e, len (ex_name e) < 64) l →
  wp (bind_exports l) (λ r w', match r with Some l' => bound l l' w w' | None => True end) w.
Proof.
  intros Hn. revert w. induction Hn as [|ex l Hx _ IH]; intros w; cbn [bind_exports].
  { apply wp_ret. split; [done|constructor|done|done|]. intros _ e He. by apply not_elem_of_nil in He. }
  destruct (existsb _ _) eqn:Er; [done|]. apply not_reserved in Er. cbn zeta.
  rewrite (snprintf_fits 80) by (cbn [length]; lia). apply wp_bind, wp_mkdir. intros r w1 E1.
  destruct (_ && _); [done|]. apply wp_bind, wp_mount.
  { intros r2 w2 Hr _. destruct (Z.ltb_spec r2 0); [done|lia]. }
  intros w2 E2. cbn [Z.ltb Z.compare]. apply wp_bind. eapply wp_mono; [apply IH|]. intros [l'|] w3 H; apply wp_ret; [|done].
  cbn [fmap option_fmap option_map]. destruct H as [-> Hr Hf He Hm]. rewrite E1 in E2. split.
  - done.
  - by constructor.
  - by rewrite Hf, E2.
  - intros p. cbn [fmap list_fmap ex_bind_path]. rewrite elem_of_cons. intros Hp. rewrite He by naive_solver.
    rewrite E2. cbn [v_mnt]. apply lookup_insert_ne. naive_solver.
  - cbn [fmap list_fmap ex_bind_path]. intros Hd e Hin. apply NoDup_cons in Hd as [Hd1 Hd2]. apply elem_of_cons in Hin as [->|Hin]; [|by apply Hm].
    cbn [ex_bind_path ex_lkl_path]. rewrite He by done. rewrite E2. cbn [v_mnt]. rewrite lookup_insert_eq. by eexists.
Qed.

(** The kernel makes every directory that is not there, and mounts what it is
    asked to. *)
Definition binds_work : Prop := (∀ p m (w : W), 0 <= (sys_mkdir p m w).1 ∨ (sys_mkdir p m w).1 = - LKL_EEXIST) ∧
  ∀ d m t f o (w : W), 0 <= (sys_mount d m t f o w).1.
Lemma wp_bind_total l w : Forall (λ e, len (ex_name e) < 64) l →
  wp (bind_exports l) (λ r _, binds_work → Forall (λ e, ex_name e ∉ reserved) l → r ≠ None) w.
Proof.
  intros Hn. revert w. induction Hn as [|ex l Hx _ IH]; intros w; cbn [bind_exports]; [done|].
  destruct (existsb _ _) eqn:Er.
  { apply wp_ret. intros _ H. apply Forall_cons in H as [H _]. apply existsb_exists in Er as (n & Hin & E). apply streq_true in E. subst n.
    by apply list_elem_of_In in Hin. }
  cbn zeta. apply wp_bind, wp_call. match goal with |- context [if ?b then _ else _] => destruct b eqn:Em end.
  { apply wp_ret. intros [H _] _. zify_bools. destruct (H (snprintf 80 (47 :: ex_name ex)).2 0x1ed w); lia. }
  apply wp_bind, wp_call. match goal with |- context [if ?b then _ else _] => destruct b eqn:Eb end.
  { apply wp_ret. intros [_ H] _. clear Em. apply Z.ltb_lt in Eb. match type of Eb with (sys_mount ?d ?m ?t ?f ?o ?w).1 < 0 => pose proof (H d m t f o w) end. lia. }
  apply wp_bind. eapply wp_mono; [apply IH|]. intros r w' H. apply wp_ret. intros Hb Hf. apply Forall_cons in Hf as [_ Hf].
  specialize (H Hb Hf). by destruct r.
Qed.
End BindSpec.

(** A share as resolved: a name without blanks and slashes, and a mount point
    under /lklmnt/. *)
Record ent_ok (e : bytes * bytes) : Prop := {
  en_name : Forall (λ c, 0 < c < 256 ∧ c ≠ 32 ∧ c ≠ 10) e.1 ∧ 47 ∉ e.1 ∧ len e.1 < 64;
  en_path : plain e.2 ∧ len e.2 < 64 ∧ ∃ t, e.2 = bs "/lklmnt/" ++ t }.

Lemma bound_ok {W} `{!Lkl W, !LklLaws W} ents l (w w' : W) : Forall ent_ok ents → len ents <= 32 → NoDup ents.*1 →
  bound (exports_of ents) l w w' → exports_ok l.
Proof.
  intros He Hn Hd [-> _ _ _ _]. unfold exports_of. rewrite <- list_fmap_compose. split.
  - apply Forall_fmap. eapply Forall_impl; [exact He|]. intros e [(H1 & _ & H2) (H3 & H4 & _)]. split; cbn; [done|].
    split; [|lia]. split; [by constructor; [lia|]|done].
  - by rewrite length_fmap.
  - rewrite <- list_fmap_compose. replace (_ <$> ents) with (cons 47 <$> ents.*1) by (by rewrite <- list_fmap_compose). by apply NoDup_fmap_2; [intros ?? [=]|].
  - intros e Hh. rewrite <- list_fmap_compose. intros Hin. apply list_elem_of_fmap in Hin as (e1 & E1 & Hin1).
    destruct ents as [|e0 ents]; [done|]. cbn in Hh. injection Hh as <-. cbn in E1.
    apply Forall_cons in He as Hc. destruct Hc as [[_ (_ & _ & t & Et)] _].
    eapply Forall_forall in Hin1; [|exact He]. destruct Hin1 as [(_ & Hs & _) _]. apply Hs. rewrite Et in E1.
    change (bs "/lklmnt/" ++ t) with (47 :: 108 :: 107 :: 108 :: 109 :: 110 :: 116 :: 47 :: t) in E1. injection E1 as <-.
    apply list_elem_of_In. cbn. tauto.
Qed.

(** ** Properties *)


Definition toy_nfs : Toy.toy :=
  Toy.mk_toy 3 (mk_view ∅ ∅ ∅ ∅) ∅ ∅ {[ bs "/lklmnt/anyfs_d0_p1" := []; bs "/lklmnt/anyfs_d0_p2" := [] ]} 0 (mk_hview ∅ 0) ∅.
Definition two_shares : list (bytes * bytes) :=
  [(bs "data", bs "/lklmnt/anyfs_d0_p1"); (bs "home", bs "/lklmnt/anyfs_d0_p2")].



Definition one_export : list ExportInfo := [mk_export (bs "data") (bs "/lklmnt/anyfs_d0_p1") (bs "/data")].
Definition three_lines : bytes := bs "unix /data" ++ nl ++ bs "unix" ++ nl ++ bs "unix /etc" ++ nl.


(** ** Where the code departs from its intention *)

(** The comparison of the fsid with the number of exports is signed: a file
    handle with an fsid of 2^31 or more passes it and reads far outside the
    table. *)
Lemma fsid_overruns : handle_expkey 0 one_export (bs "unix 1 \x80000000") = None.
Proof. vm_compute. reflexivity. Qed.

(** The kernel writes a blank as \040, which qword_get_user does not read:
    the path of a share whose name has a blank is refused. *)
Lemma blank_refused :
  handle_export 0 [mk_export (bs "my data") (bs "/lklmnt/anyfs_d0_p1") (bs "/my data")] true (bs "unix /my\040data") =
    Some (Some (bs "unix /my\040data 31536000" ++ nl)).
Proof. vm_compute. reflexivity. Qed.

(** The root of LKL is not exported: the comments describe "/" with fsid 0 as
    the pseudo root. *)
Lemma root_refused : handle_export 0 one_export true (bs "unix /") = Some (Some (bs "unix / 31536000" ++ nl)).
Proof. vm_compute. reflexivity. Qed.

End Mountd.
