(* ===== verification/KsmbdIpc.v ===== *)
(** * KsmbdIpc

    src/ksmbd/ksmbd_ipc.c: the messages between the ksmbd daemon and the
    kernel's SMB server, as generic netlink on a raw socket.  The layouts of
    ksmbd-tools (header size, largest message, version, requests) and the
    socket calls are not part of the repository: they are parameters and a
    class.  Memory that was not filled by the kernel is not read: such a read
    is stuck. *)
From S2P Require Import Prelude Lkl.

Module KsmbdIpc.

Definition NLM_F_REQUEST : Z := 1.
Definition NLM_F_ACK : Z := 4.
Definition NLMSG_ERROR : Z := 2.
Definition GENL_ID_CTRL : Z := 0x10.
Definition CTRL_CMD_GETFAMILY : Z := 3.
Definition CTRL_ATTR_FAMILY_NAME : Z := 2.
Definition CTRL_ATTR_FAMILY_ID : Z := 1.
Definition ENOMEM : Z := 12.

(** ** Layout (little endian) *)
Definition put8 (v : Z) : bytes := [v mod 256].
Definition put16 (v : Z) : bytes := [v mod 256; v / 256 mod 256].
Definition put32 (v : Z) : bytes := put16 v ++ put16 (v / 65536).
Definition get16 (b : bytes) (i : Z) : option Z := lo ← rdz b i; hi ← rdz b (i + 1); Some (lo + 256 * hi).
Definition get32 (b : bytes) (i : Z) : option Z := lo ← get16 b i; hi ← get16 b (i + 2); Some (lo + 65536 * hi).

(** (len + 3) & ~3 *)
Definition NLA_ALIGN (n : Z) : Z := (n + 3) / 4 * 4.

(** struct nlmsghdr_raw, struct genlmsghdr_raw, struct nlattr_raw *)
Definition nlmsghdr (nlmsg_len type flags seq pid : Z) : bytes :=
  put32 nlmsg_len ++ put16 type ++ put16 flags ++ put32 seq ++ put32 pid.
Definition genlmsghdr (cmd version : Z) : bytes := put8 cmd ++ put8 version ++ put16 0.
Definition nlattr (nla_len type : Z) : bytes := put16 nla_len ++ put16 type.

(** The message of [total] bytes sent from a zeroed buffer of [cap] bytes:
    headers, one attribute, its data, and zeros up to nlmsg_len. *)
Definition build (cap type flags seq cmd version attr : Z) (data : bytes) : option bytes :=
  let nla_total := 4 + len data in
  let nlmsg_len := 16 + 4 + NLA_ALIGN nla_total in
  let text := nlmsghdr nlmsg_len type flags seq 0 ++ genlmsghdr cmd version ++ nlattr nla_total attr ++ data in
  if (len text <=? cap) && (nlmsg_len <=? cap) then Some (take (Z.to_nat nlmsg_len) (text ++ replicate (Z.to_nat (cap - len text)) 0))
  else None.

(** ** Attributes *)

(** The loop over the attributes: the offset of the first that [sel] accepts. *)
Fixpoint attr_loop (fuel : nat) (b : bytes) (sel : Z → Z → bool) (attrs attrs_len : Z) : option (option Z) :=
  match fuel with
  | O => None
  | S f =>
      if attrs_len <? 4 then Some None
      else
        nla_len ← get16 b attrs;
        nla_type ← get16 b (attrs + 2);
        if sel nla_type nla_len then Some (Some attrs)
        else
          let step := NLA_ALIGN nla_len in
          if step =? 0 then Some None else attr_loop f b sel (attrs + step) (attrs_len - step)
  end.
Definition find_attr (b : bytes) (sel : Z → Z → bool) : option (option Z) :=
  nlmsg_len ← get32 b 0;
  attr_loop (S (length b)) b sel 20 (i32 (u64 (nlmsg_len - 16 - 4))).

(** [n] bytes at [off]. *)
Definition get_bytes (b : bytes) (off n : Z) : option bytes := mapM (rdz b) (seqZ off n).

Record ipc_msg := mk_msg { m_type : Z; m_payload : bytes }.

(** The answer to CTRL_CMD_GETFAMILY, in a zeroed buffer of 512 bytes: the id
    or -1. *)
Definition parse_family (d : bytes) : option Z :=
  let buf := d ++ replicate (512 - length d) 0 in
  type ← get16 buf 4;
  if type =? NLMSG_ERROR then Some (-1)
  else
    a ← find_attr buf (λ t l, (t =? CTRL_ATTR_FAMILY_ID) && (6 <=? l));
    match a with
    | Some off => get16 buf (off + 4)
    | None => Some (-1)
    end.

Section Layout.
Context (KSMBD_IPC_MAX_MESSAGE_SIZE sizeof_msg KSMBD_GENL_VERSION : Z) (try_malloc0 : Z → bool).

(** The size of the message, or NULL. *)
Definition ipc_msg_alloc (sz : Z) : option Z :=
  let msg_sz := u64 (sz + sizeof_msg + 1) in
  if KSMBD_IPC_MAX_MESSAGE_SIZE <? msg_sz then None
  else if try_malloc0 msg_sz then Some sz else None.

(** What ipc_process_event makes of the [d] it received: [Some None] when the
    message is skipped, [inl] the error -ENOMEM, [inr] the event pushed. *)
Definition parse_event (genl_family_id : Z) (d : bytes) : option (option (Z + ipc_msg)) :=
  type ← get16 d 4;
  if type =? NLMSG_ERROR then Some None
  else if negb (type =? genl_family_id mod 65536) then Some None
  else
    version ← rdz d 17;
    if negb (version =? KSMBD_GENL_VERSION) then Some None
    else
      cmd ← rdz d 16;
      a ← find_attr d (λ t _, t =? cmd);
      match a with
      | None => Some None
      | Some off =>
          nla_len ← get16 d off;
          let payload_sz := nla_len - 4 in
          if payload_sz <=? 0 then Some None
          else match ipc_msg_alloc payload_sz with
               | None => Some (Some (inl (- ENOMEM)))
               | Some _ => p ← get_bytes d (off + 4) payload_sz; Some (Some (inr (mk_msg cmd p)))
               end
      end.

(** ** The daemon *)

(** The socket calls of the kernel. *)
Class Netlink (W : Type) := {
  nl_socket : kcall W Z;
  nl_bind : Z → kcall W Z;
  nl_sendto : Z → bytes → kcall W Z;
  nl_recvfrom : Z → Z → kcall W (Z * bytes);
  nl_poll : Z → kcall W Z }.

(** nlsock, genl_family_id, nl_seq, ksmbd_health_status == RUNNING, and the
    events handed to the workers. *)
Record ipc := mk_ipc { nlsock : Z; genl_family_id : Z; nl_seq : Z; running : bool; pushed : list ipc_msg }.
Definition ipc0 : ipc := mk_ipc (-1) (-1) 1 false [].

Section Daemon.
Context {W : Type} `{!Lkl W, !Netlink W}.
Context (genl_name startup : bytes) (startup_type shutdown_type shutdown_sz : Z).
Notation St := (ipc * W)%type.

Definition set_sock x (s : ipc) := mk_ipc x (genl_family_id s) (nl_seq s) (running s) (pushed s).
Definition set_family x (s : ipc) := mk_ipc (nlsock s) x (nl_seq s) (running s) (pushed s).
Definition set_seq x (s : ipc) := mk_ipc (nlsock s) (genl_family_id s) (u32 x) (running s) (pushed s).
Definition set_running x (s : ipc) := mk_ipc (nlsock s) (genl_family_id s) (nl_seq s) x (pushed s).
Definition push x (s : ipc) := mk_ipc (nlsock s) (genl_family_id s) (nl_seq s) (running s) (pushed s ++ [x]).
Definition upd (f : ipc → ipc) : M St () := mmod (λ s, (f s.1, s.2)).

Definition nl_open : M St Z :=
  fd ← lower (call nl_socket);
  _ ← upd (set_sock fd);
  if fd <? 0 then mret (-1)
  else
    r ← lower (call (nl_bind fd));
    if r <? 0 then _ ← lower (lkl_sys_close fd); _ ← upd (set_sock (-1)); mret (-1)
    else mret 0.

Definition nl_send (buf : bytes) : M St Z := s ← mget; lower (call (nl_sendto (nlsock s.1) buf)).
Definition nl_recv (n : Z) : M St (Z * bytes) := s ← mget; lower (call (nl_recvfrom (nlsock s.1) n)).

Definition resolve_genl_family (name : bytes) : M St Z :=
  s ← mget;
  msg ← mopt (build 512 GENL_ID_CTRL NLM_F_REQUEST (nl_seq s.1) CTRL_CMD_GETFAMILY 1 CTRL_ATTR_FAMILY_NAME (name ++ [0]));
  _ ← upd (set_seq (nl_seq s.1 + 1));
  r ← nl_send msg;
  if r <? 0 then mret (-1)
  else
    d ← nl_recv 512;
    if d.1 <? 0 then mret (-1) else mopt (parse_family d.2).

Definition ipc_msg_send_internal (msg : ipc_msg) (flags : Z) : M St Z :=
  s ← mget;
  text ← mopt (build (KSMBD_IPC_MAX_MESSAGE_SIZE + 256) (genl_family_id s.1) flags (nl_seq s.1) (m_type msg) KSMBD_GENL_VERSION
                 (m_type msg) (m_payload msg));
  _ ← upd (set_seq (nl_seq s.1 + 1));
  r ← nl_send text;
  if r <? 0 then mret (-1) else mret 0.
Definition ipc_msg_send (msg : ipc_msg) : M St Z := ipc_msg_send_internal msg NLM_F_REQUEST.

Definition ipc_process_event : M St Z :=
  s ← mget;
  p ← lower (call (nl_poll (nlsock s.1)));
  if p <=? 0 then mret 0
  else
    d ← nl_recv (KSMBD_IPC_MAX_MESSAGE_SIZE + 256);
    if d.1 <=? 0 then mret (if d.1 <? 0 then d.1 else 0)
    else
      e ← mopt (parse_event (genl_family_id s.1) d.2);
      match e with
      | None => mret 0
      | Some (inl err) => mret err
      | Some (inr m) => _ ← upd (push m); mret 0
      end.

(** [startup] is the request filled from global_conf. *)
Definition ipc_ksmbd_starting_up : M St Z :=
  match ipc_msg_alloc (len startup) with
  | None => mret (- ENOMEM)
  | Some _ =>
      ret ← ipc_msg_send_internal (mk_msg startup_type startup) (Z.lor NLM_F_REQUEST NLM_F_ACK);
      if ret =? 0 then
        a ← nl_recv 256;
        if 0 <? a.1 then
          type ← mopt (get16 a.2 4);
          if type =? NLMSG_ERROR then
            e ← mopt (get32 a.2 16);
            mret (i32 e)
          else mret 0
        else mret 0
      else mret ret
  end.

Definition ipc_init : M St () :=
  o ← nl_open;
  if o <? 0 then mret ()
  else
    fam ← resolve_genl_family genl_name;
    _ ← upd (set_family fam);
    if fam <? 0 then mret ()
    else
      _ ← upd (λ s, set_seq (nl_seq s - 1) s);
      ret ← ipc_ksmbd_starting_up;
      if ret <? 0 then mret ()
      else
        _ ← lower (lkl_sys_nanosleep 1000);
        upd (set_running true).

Definition ipc_destroy : M St () :=
  s ← mget;
  _ ← (if 0 <=? nlsock s.1 then
         _ ← match ipc_msg_alloc shutdown_sz with
             | Some n => _ ← ipc_msg_send (mk_msg shutdown_type (replicate (Z.to_nat n) 0)); mret ()
             | None => mret ()
             end;
         _ ← lower (lkl_sys_close (nlsock s.1));
         upd (set_sock (-1))
       else mret ());
  upd (set_running false).

(** The event loop of main in src/ksmbd/ksmbd_main.c, for which
    anyfs_server_running is read as true [n] times before a signal clears it:
    the last result, and the number of reads that are left. *)
Fixpoint event_loop (n : nat) (ret : Z) : M St (Z * nat) :=
  match n with
  | O => mret (ret, O)
  | S n' => ret ← ipc_process_event; if ret <? 0 then mret (ret, n') else event_loop n' ret
  end.
(** The part of main between the set-up of the configuration and the end;
    no turn is made when the host proxy does not start. *)
Definition daemon (n : nat) : M St () :=
  _ ← ipc_init;
  s ← mget;
  _ ← (if running s.1 then event_loop n 0 else mret (0, n));
  ipc_destroy.
End Daemon.
End Layout.

(** ** Messages as values *)

Definition attr := (Z * bytes)%type.
Definition attr_ok (a : attr) : Prop := 0 <= a.1 < 65536 ∧ 4 + len a.2 < 65536.
Definition enc_attr (a : attr) : bytes :=
  nlattr (4 + len a.2) a.1 ++ a.2 ++ replicate (Z.to_nat (NLA_ALIGN (4 + len a.2) - (4 + len a.2))) 0.
Definition enc_attrs (l : list attr) : bytes := mjoin (enc_attr <$> l).
Definition message (type flags seq cmd version : Z) (l : list attr) : bytes :=
  nlmsghdr (20 + len (enc_attrs l)) type flags seq 0 ++ genlmsghdr cmd version ++ enc_attrs l.

Lemma align_spec n : 0 <= n → n <= NLA_ALIGN n < n + 4.
Proof. intros. unfold NLA_ALIGN. pose proof (Z.div_mod (n + 3) 4). pose proof (Z.mod_pos_bound (n + 3) 4). lia. Qed.

Lemma rdz_app pre c post : rdz (pre ++ c :: post) (len pre) = Some c.
Proof.
  unfold rdz. rewrite length_app. cbn [length]. destruct (Z.leb_spec 0 (len pre)), (Z.ltb_spec (len pre) (Z.of_nat (length pre + S (length post)))); try lia.
  cbn. rewrite Nat2Z.id, lookup_app_r by done. by rewrite Nat.sub_diag.
Qed.

Lemma get16_app pre v post i : 0 <= v < 65536 → i = len pre → get16 (pre ++ put16 v ++ post) i = Some v.
Proof.
  intros Hv ->. unfold get16, put16. cbn [app]. rewrite rdz_app. cbn [mbind option_bind].
  replace (len pre + 1) with (len (pre ++ [v mod 256])) by (rewrite length_app; cbn; lia).
  change (v mod 256 :: v / 256 mod 256 :: post) with ([v mod 256] ++ v / 256 mod 256 :: post). rewrite app_assoc, rdz_app. cbn [mbind option_bind].
  f_equal. rewrite (Z.mod_small (v / 256)) by (split; [apply Z.div_pos|apply Z.div_lt_upper_bound]; lia). pose proof (Z.div_mod v 256). lia.
Qed.

Lemma get32_app pre v post i : 0 <= v < 2 ^ 32 → i = len pre → get32 (pre ++ put32 v ++ post) i = Some v.
Proof.
  intros Hv ->. unfold get32, put32. rewrite <- app_assoc.
  assert (E : put16 v = put16 (v mod 65536)).
  { unfold put16. change 65536 with (256 * 256). rewrite Z.rem_mul_r by lia.
    rewrite (Z.mul_comm 256), Z.mod_add, Z.mod_mod, Z.div_add by lia. rewrite (Z.div_small (v mod 256)) by (apply Z.mod_pos_bound; lia).
    by rewrite Z.add_0_l, Z.mod_mod by lia. }
  rewrite E, (get16_app pre _ _ (len pre)) by (try done; apply Z.mod_pos_bound; lia). cbn [mbind option_bind]. rewrite app_assoc.
  rewrite get16_app; [|split; [apply Z.div_pos|apply Z.div_lt_upper_bound]; lia|rewrite length_app; cbn; lia]. cbn. f_equal.
  pose proof (Z.div_mod v 65536). lia.
Qed.

Lemma enc_attr_len a : len (enc_attr a) = NLA_ALIGN (4 + len a.2).
Proof.
  unfold enc_attr. rewrite !length_app, length_replicate. pose proof (align_spec (4 + len a.2)). cbn [nlattr put16 app length]. lia.
Qed.

(** What an attribute holds at its offset. *)
Lemma attr_fields pre a post : attr_ok a →
  get16 (pre ++ enc_attr a ++ post) (len pre) = Some (4 + len a.2) ∧
  get16 (pre ++ enc_attr a ++ post) (len pre + 2) = Some a.1.
Proof.
  intros [Ht Hl]. unfold enc_attr, nlattr. split.
  - rewrite <- !app_assoc. by apply get16_app; [lia|].
  - rewrite <- !app_assoc. rewrite (app_assoc pre (put16 (4 + len a.2))). apply get16_app; [done|]. rewrite length_app. cbn. lia.
Qed.

Definition first_attr (sel : Z → Z → bool) (l : list attr) : option attr :=
  head (filter (λ a, sel a.1 (4 + len a.2) = true) l).

Lemma first_attr_in sel l a : first_attr sel l = Some a → a ∈ l ∧ sel a.1 (4 + len a.2) = true.
Proof.
  unfold first_attr. intros H. assert (Hin : a ∈ filter (λ a, sel a.1 (4 + len a.2) = true) l).
  { destruct (filter _ l); [done|]. injection H as ->. by left. }
  apply list_elem_of_filter in Hin as [? ?]. done.
Qed.

(** The loop finds the first attribute of the list. *)
Lemma attr_loop_spec sel l fuel pre post : Forall attr_ok l → (length l < fuel)%nat →
  ∃ r, attr_loop fuel (pre ++ enc_attrs l ++ post) sel (len pre) (len (enc_attrs l)) = Some r ∧
    match first_attr sel l with
    | Some a => ∃ p q, pre ++ enc_attrs l ++ post = p ++ enc_attr a ++ q ∧ r = Some (len p)
    | None => r = None
    end.
Proof.
  intros Hl. revert fuel pre. induction Hl as [|a l Ha Hl IH]; intros fuel pre Hf; (destruct fuel as [|fuel]; [cbn in Hf; lia|]).
  { by exists None. }
  unfold first_attr. cbn [enc_attrs fmap list_fmap mjoin list_join]. change (mjoin (enc_attr <$> l)) with (enc_attrs l).
  cbn [attr_loop]. rewrite length_app, Nat2Z.inj_add, enc_attr_len. pose proof (align_spec (4 + len a.2)).
  destruct (Z.ltb_spec (NLA_ALIGN (4 + len a.2) + len (enc_attrs l)) 4); [lia|].
  rewrite <- app_assoc. destruct (attr_fields pre a (enc_attrs l ++ post) Ha) as [-> ->]. cbn [mbind option_bind].
  rewrite filter_cons. destruct (sel a.1 (4 + len a.2)) eqn:Es.
  - rewrite decide_True by done. cbn [head]. eexists. split; [done|]. by exists pre, (enc_attrs l ++ post).
  - rewrite decide_False by done. destruct (Z.eqb_spec (NLA_ALIGN (4 + len a.2)) 0); [lia|].
    destruct (IH fuel (pre ++ enc_attr a)) as (r & Er & Hr); [cbn in Hf; lia|]. rewrite length_app, Nat2Z.inj_add, enc_attr_len in Er.
    rewrite <- !app_assoc in Er. replace (NLA_ALIGN (4 + len a.2) + len (enc_attrs l) - NLA_ALIGN (4 + len a.2)) with (len (enc_attrs l)) by lia.
    rewrite Er. eexists. split; [done|]. unfold first_attr in Hr. by rewrite <- !app_assoc in Hr.
Qed.

Lemma get_bytes_app pre p post : get_bytes (pre ++ p ++ post) (len pre) (len p) = Some p.
Proof.
  unfold get_bytes. revert pre. induction p as [|c p IH]; intros pre; [done|].
  rewrite length_cons, Nat2Z.inj_succ, seqZ_cons by lia. cbn [mapM app]. rewrite rdz_app. cbn [mbind option_bind].
  rewrite Z.pred_succ. specialize (IH (pre ++ [c])). rewrite length_app, Nat2Z.inj_add in IH. cbn [length] in IH.
  rewrite <- app_assoc in IH. cbn [app] in IH. replace (Z.succ (len pre)) with (len pre + Z.of_nat 1) by lia. by rewrite IH.
Qed.

Section Messages.
Context (type flags seq cmd version : Z) (l : list attr).
Context (Ht : 0 <= type < 65536) (Hc : 0 <= cmd < 256) (Hv : 0 <= version < 256) (Hl : Forall attr_ok l).
Context (Hn : 20 + len (enc_attrs l) < 2 ^ 31).
Notation msg := (message type flags seq cmd version l).

Lemma message_len : len msg = 20 + len (enc_attrs l).
Proof. unfold message. rewrite !length_app. cbn. lia. Qed.

Lemma message_type post : get16 (msg ++ post) 4 = Some type.
Proof.
  unfold message, nlmsghdr. rewrite <- !app_assoc. by apply get16_app.
Qed.
Lemma message_cmd post : rdz (msg ++ post) 16 = Some cmd ∧ rdz (msg ++ post) 17 = Some version.
Proof.
  unfold message, genlmsghdr, put8. rewrite !(Z.mod_small _ 256) by done. rewrite <- !app_assoc.
  set (h := nlmsghdr _ _ _ _ _). split.
  - apply (rdz_app h cmd).
  - cbn [app]. change (cmd :: version :: put16 0 ++ enc_attrs l ++ post) with ([cmd] ++ version :: put16 0 ++ enc_attrs l ++ post).
    rewrite app_assoc. apply (rdz_app (h ++ [cmd]) version).
Qed.

Lemma message_attrs sel post : ∃ r, find_attr (msg ++ post) sel = Some r ∧
  match first_attr sel l with
  | Some a => ∃ p q, msg ++ post = p ++ enc_attr a ++ q ∧ r = Some (len p)
  | None => r = None
  end.
Proof.
  unfold find_attr. assert (E0 : get32 (msg ++ post) 0 = Some (20 + len (enc_attrs l))).
  { unfold message, nlmsghdr. rewrite <- !app_assoc. apply (get32_app []); [lia|done]. }
  rewrite E0. cbn [mbind option_bind]. rewrite u64_small, i32_small by lia.
  replace (20 + len (enc_attrs l) - 16 - 4) with (len (enc_attrs l)) by lia.
  set (h := nlmsghdr (20 + len (enc_attrs l)) type flags seq 0 ++ genlmsghdr cmd version).
  assert (Em : msg ++ post = h ++ enc_attrs l ++ post) by (unfold h, message; by rewrite <- !app_assoc).
  rewrite Em. change 20 with (len h) at 1. apply attr_loop_spec; [done|].
  assert (Hle : (length l <= length (enc_attrs l))%nat).
  { clear. induction l as [|a l' IH]; [done|]. change (enc_attrs (a :: l')) with (enc_attr a ++ enc_attrs l'). rewrite length_app. cbn [length].
    pose proof (enc_attr_len a). pose proof (align_spec (4 + len a.2)). lia. }
  rewrite !length_app. lia.
Qed.
End Messages.

(** ** Events *)
Section Events.
Context (MAX HDR VER : Z) (malloc : Z → bool).

(** What a message with these attributes stands for. *)
Definition event_of (cmd : Z) (l : list attr) : option (Z + ipc_msg) :=
  match first_attr (λ t _, t =? cmd) l with
  | None => None
  | Some a =>
      if len a.2 =? 0 then None
      else match ipc_msg_alloc MAX HDR malloc (len a.2) with
           | None => Some (inl (- ENOMEM))
           | Some _ => Some (inr (mk_msg cmd a.2))
           end
  end.

Lemma parse_event_spec id fam flags seq cmd l : 0 <= fam < 65536 → fam ≠ NLMSG_ERROR → id mod 65536 = fam → 0 <= cmd < 256 →
  0 <= VER < 256 → Forall attr_ok l → 20 + len (enc_attrs l) < 2 ^ 31 →
  parse_event MAX HDR VER malloc id (message fam flags seq cmd VER l) = Some (event_of cmd l).
Proof.
  intros Hf Hne Hid Hc Hv Hl Hn. unfold parse_event. rewrite <- (app_nil_r (message _ _ _ _ _ _)).
  rewrite message_type by done. cbn [mbind option_bind]. destruct (Z.eqb_spec fam NLMSG_ERROR); [done|].
  rewrite Hid, Z.eqb_refl. cbn [negb]. destruct (message_cmd fam flags seq cmd VER l Hc Hv []) as [-> ->].
  cbn [mbind option_bind]. rewrite Z.eqb_refl. cbn [negb]. unfold event_of.
  destruct (message_attrs fam flags seq cmd VER l Hl Hn (λ t _, t =? cmd) []) as (r & -> & Hr). cbn [mbind option_bind].
  destruct (first_attr _ l) as [a|] eqn:Ea; [|by rewrite Hr]. destruct Hr as (p & q & Eb & ->).
  assert (Ha : attr_ok a).
  { eapply Forall_forall; [exact Hl|]. by eapply first_attr_in. }
  rewrite Eb. destruct (attr_fields p a q Ha) as [-> _]. cbn [mbind option_bind].
  replace (4 + len a.2 - 4) with (len a.2) by lia. destruct (Z.leb_spec (len a.2) 0), (Z.eqb_spec (len a.2) 0); try lia; [done|].
  destruct (ipc_msg_alloc _ _ _ _); [|done]. unfold enc_attr. rewrite <- !app_assoc, (app_assoc p).
  replace (len p + 4) with (len (p ++ nlattr (4 + len a.2) a.1)) by (rewrite length_app; cbn; lia). by rewrite get_bytes_app.
Qed.
End Events.

(** The message built is a message with one attribute. *)
Lemma build_message cap type flags seq cmd version at_ data : 20 + NLA_ALIGN (4 + len data) <= cap →
  build cap type flags seq cmd version at_ data = Some (message type flags seq cmd version [(at_, data)]).
Proof.
  intros Hcap. unfold build. pose proof (align_spec (4 + len data)).
  set (h := nlmsghdr _ type flags seq 0 ++ genlmsghdr cmd version ++ nlattr (4 + len data) at_ ++ data).
  assert (Hh : len h = 24 + len data) by (unfold h; rewrite !length_app; cbn; lia). rewrite Hh.
  destruct (Z.leb_spec (24 + len data) cap), (Z.leb_spec (16 + 4 + NLA_ALIGN (4 + len data)) cap); try lia. cbn [andb]. f_equal.
  rewrite take_app_ge, take_replicate by lia. unfold message, enc_attrs, enc_attr. cbn [fmap list_fmap mjoin list_join fst snd]. rewrite app_nil_r.
  rewrite !length_app, length_replicate. unfold h. rewrite <- !app_assoc. f_equal; [f_equal; cbn [nlattr put16 app length]; lia|].
  fold h. do 3 f_equal. f_equal. lia.
Qed.

(** ** The kernel's side *)

(** A message of the kernel: a generic one, or the answer to a request (an
    error code, 0 for an acknowledgement). *)
Definition nl_whole (m : bytes) : Prop :=
  (∃ type flags seq cmd version l, 0 <= type < 65536 ∧ type ≠ NLMSG_ERROR ∧ 0 <= cmd < 256 ∧ 0 <= version < 256 ∧
     Forall attr_ok l ∧ m = message type flags seq cmd version l) ∨
  (∃ n seq e tail, 0 <= e < 2 ^ 32 ∧ m = nlmsghdr n NLMSG_ERROR 0 seq 0 ++ put32 e ++ tail).

Lemma rdz_take n b i : i < n → rdz (take (Z.to_nat n) b) i = rdz b i.
Proof.
  intros Hi. unfold rdz. rewrite length_take. destruct (Z.leb_spec 0 i), (Z.ltb_spec i (len b)); cbn [andb].
  - destruct (Z.ltb_spec i (Z.of_nat (Z.to_nat n `min` length b))); [|lia]. by rewrite lookup_take_lt by lia.
  - destruct (Z.ltb_spec i (Z.of_nat (Z.to_nat n `min` length b))); [lia|done].
  - done.
  - done.
Qed.

Lemma whole_head m n : nl_whole m → 20 <= n → ∃ t, get16 (take (Z.to_nat n) m) 4 = Some t ∧
  (t = NLMSG_ERROR → ∃ e, get32 (take (Z.to_nat n) m) 16 = Some e).
Proof.
  intros H Hn. unfold get32, get16. rewrite !rdz_take by lia. destruct H as [(type & flags & seq & cmd & ver & l & Ht & Hne & _ & _ & _ & ->)|H].
  - exists type. split; [|done]. pose proof (message_type type flags seq cmd ver l Ht []) as E. by rewrite app_nil_r in E.
  - destruct H as (k & seq & e & tail & He & ->). exists NLMSG_ERROR. split.
    + unfold nlmsghdr. rewrite <- !app_assoc. by apply (get16_app (put32 k) NLMSG_ERROR).
    + intros _. exists e. by apply (get32_app (nlmsghdr k NLMSG_ERROR 0 seq 0)).
Qed.

Lemma whole_family m : nl_whole m → len m <= 512 → ∃ id, parse_family m = Some id.
Proof.
  intros H Hm. unfold parse_family. destruct H as [(type & flags & seq & cmd & ver & l & Ht & Hne & Hc & Hv & Hl & ->)|H].
  - rewrite message_type by done. cbn [mbind option_bind]. destruct (Z.eqb_spec type NLMSG_ERROR); [done|]. rewrite message_len in Hm.
    set (sel := λ t l0, _). destruct (message_attrs type flags seq cmd ver l Hl ltac:(lia) sel (replicate (512 - length (message type flags seq cmd ver l)) 0)) as (r & -> & Hr).
    cbn [mbind option_bind]. destruct (first_attr sel l) as [a|] eqn:Ea; [|rewrite Hr; by eexists].
    destruct Hr as (p & q & -> & ->). apply first_attr_in in Ea as [_ Ea]. unfold sel in Ea. zify_bools.
    unfold enc_attr. destruct a as [t b]. cbn [fst snd] in *. destruct b as [|x [|y b]]; cbn [length] in *; try lia.
    rewrite <- !app_assoc. rewrite (app_assoc p). set (h := p ++ nlattr _ _).
    assert (En : len p + 4 = len h) by (unfold h; rewrite length_app; cbn; lia). rewrite En. unfold get16. cbn [app]. rewrite rdz_app. cbn [mbind option_bind].
    replace (len h + 1) with (len (h ++ [x])) by (rewrite length_app; cbn; lia).
    match goal with |- context [h ++ x :: y :: ?r] => change (h ++ x :: y :: r) with (h ++ [x] ++ y :: r) end.
    rewrite app_assoc, rdz_app. by eexists.
  - destruct H as (k & seq & e & tail & He & ->). assert (E : get16 ((nlmsghdr k NLMSG_ERROR 0 seq 0 ++ put32 e ++ tail) ++
      replicate (512 - length (nlmsghdr k NLMSG_ERROR 0 seq 0 ++ put32 e ++ tail)) 0) 4 = Some NLMSG_ERROR).
    { unfold nlmsghdr. rewrite <- !app_assoc. by apply (get16_app (put32 k) NLMSG_ERROR). }
    rewrite E. cbn [mbind option_bind]. by eexists.
Qed.

(** ** The life of the daemon *)

(** The socket is a descriptor; the other calls keep the descriptors; what is
    received is a message of the kernel, and it fits a buffer of 512 bytes or
    more. *)
Class NetlinkLaws (W : Type) `{!Lkl W, !LklLaws W, !Netlink W} := {
  nlaw_socket w r w' : nl_socket w = (r, w') →
    (r < 0 ∧ view w' = view w) ∨
    (0 <= r ∧ v_fds (view w) !! r = None ∧ ∃ p, view w' = mk_view (<[r := p]> (v_fds (view w))) (v_mnt (view w)) (v_bro (view w)) (v_dsk (view w)));
  nlaw_bind fd w : view (nl_bind fd w).2 = view w;
  nlaw_send fd b w : view (nl_sendto fd b w).2 = view w;
  nlaw_poll fd w : view (nl_poll fd w).2 = view w;
  nlaw_recv fd n w r d w' : nl_recvfrom fd n w = ((r, d), w') →
    view w' = view w ∧ (r <= 0 → d = []) ∧ (0 < r → ∃ m, nl_whole m ∧ d = take (Z.to_nat n) m ∧ (512 <= n → len m <= n)) }.

Section Life.
Context {W : Type} `{!Lkl W, !LklLaws W, !Netlink W, !NetlinkLaws W}.
Context (MAX HDR VER : Z) (malloc : Z → bool) (genl_name startup : bytes) (startup_type shutdown_type shutdown_sz : Z).
Context (Hmax : 256 <= MAX < 2 ^ 29) (Hhdr : 0 <= HDR < 2 ^ 30) (Hver : 0 <= VER < 256) (Hname : len genl_name <= 256).
Context (Hstart : len startup < 2 ^ 30) (Hshut : 0 <= shutdown_sz < 2 ^ 30).
Notation St := (ipc * W)%type.

(** An event handed to the workers: a command with data that fits a message. *)
Definition event_ok (m : ipc_msg) : Prop := 0 <= m_type m < 256 ∧ 0 < len (m_payload m) ∧ len (m_payload m) + HDR + 1 <= MAX.

(** The socket is the only descriptor opened since [v0]. *)
Record Live (v0 : KView) (s : St) : Prop := {
  li_events : Forall event_ok (pushed s.1);
  li_fds : if 0 <=? nlsock s.1 then v_fds v0 !! nlsock s.1 = None ∧ delete (nlsock s.1) (v_fds (view s.2)) = v_fds v0
           else v_fds (view s.2) = v_fds v0;
  li_rest : v_mnt (view s.2) = v_mnt v0 ∧ v_bro (view s.2) = v_bro v0 ∧ v_dsk (view s.2) = v_dsk v0 }.

(** Code that keeps it, without closing or opening. *)
Definition keeps {A} (m : M St A) (Q : A → Prop) : Prop := ∀ w0 s, Live w0 s →
  wp m (λ a s', Live w0 s' ∧ nlsock s'.1 = nlsock s.1 ∧ Q a) s.

Lemma nk_bind {A B} (m : M St A) (f : A → M St B) P Q : keeps m P → (∀ a, P a → keeps (f a) Q) → keeps (m ≫= f) Q.
Proof.
  intros Hm Hf w0 s Hs. apply wp_bind. eapply wp_mono; [by apply Hm|]. intros a s' (Hl & E & Ha).
  eapply wp_mono; [by apply Hf|]. intros b s'' (? & E' & ?). split_and!; [done|congruence|done].
Qed.
Lemma nk_ret {A} (a : A) (Q : A → Prop) : Q a → keeps (mret a) Q.
Proof. intros Ha w0 s Hs. by apply wp_ret. Qed.
Lemma keeps_opt {A} (o : option A) a (Q : A → Prop) : o = Some a → Q a → keeps (mopt o) Q.
Proof. intros -> Ha w0 s Hs. done. Qed.
Lemma keeps_get (Q : St → Prop) : (∀ s, Q s) → keeps mget Q.
Proof. intros HQ w0 s Hs. apply wp_get. by split_and!. Qed.
Lemma keeps_upd f (Q : () → Prop) : (∀ s, nlsock (f s) = nlsock s ∧ (Forall event_ok (pushed s) → Forall event_ok (pushed (f s)))) → Q () →
  keeps (upd f) Q.
Proof.
  intros Hf HQ w0 s Hs. apply wp_mod. destruct (Hf s.1) as [E1 E2], Hs as [He Hd Hr]. cbn [fst snd]. split_and!; [|done|done].
  split; cbn [fst snd]; [by apply E2|by rewrite E1|done].
Qed.
Lemma nk_call {A} (f : kcall W A) (Q : A → Prop) : (∀ w, view (f w).2 = view w ∧ Q (f w).1) → keeps (lower (call f)) Q.
Proof.
  intros Hf w0 s Hs. apply wp_lower, wp_call. destruct (Hf s.2) as [E HQ], Hs as [He Hd Hr]. split_and!; [|done|done].
  split; cbn [fst snd]; [done|by rewrite E..].
Qed.

Lemma keeps_send b : keeps (nl_send b) (λ _, True).
Proof. apply (nk_bind _ _ (λ _, True)); [by apply keeps_get|]. intros s _. apply nk_call. intros w. split; [apply nlaw_send|done]. Qed.
Lemma keeps_recv n : keeps (nl_recv n) (λ d, (d.1 <= 0 → d.2 = []) ∧ (0 < d.1 → ∃ m, nl_whole m ∧ d.2 = take (Z.to_nat n) m ∧ (512 <= n → len m <= n))).
Proof.
  apply (nk_bind _ _ (λ _, True)); [by apply keeps_get|]. intros s _. apply nk_call. intros w.
  destruct (nl_recvfrom (nlsock s.1) n w) as [[r d] w'] eqn:E. by apply nlaw_recv in E.
Qed.

Lemma keeps_build cap ty fl sq cm ver a data Q (k : bytes → M St Z) : 20 + NLA_ALIGN (4 + len data) <= cap → (∀ b, keeps (k b) Q) →
  keeps (mopt (build cap ty fl sq cm ver a data) ≫= k) Q.
Proof.
  intros H Hk. apply (nk_bind _ _ (λ _, True)); [|intros b _; apply Hk]. by eapply keeps_opt; [apply build_message|].
Qed.

Lemma alloc_fits sz n : ipc_msg_alloc MAX HDR malloc sz = Some n → 0 <= sz < 2 ^ 30 → n = sz ∧ sz + HDR + 1 <= MAX.
Proof.
  unfold ipc_msg_alloc. intros H Hs. rewrite u64_small in H by lia. destruct (Z.ltb_spec MAX (sz + HDR + 1)); [done|].
  destruct (malloc _); [|done]. injection H as ->. done.
Qed.

Lemma keeps_send_internal msg flags : len (m_payload msg) <= MAX → keeps (ipc_msg_send_internal MAX VER msg flags) (λ _, True).
Proof.
  intros Hp. unfold ipc_msg_send_internal. apply (nk_bind _ _ (λ _, True)); [by apply keeps_get|]. intros s _.
  pose proof (align_spec (4 + len (m_payload msg))). apply keeps_build; [lia|]. intros b.
  apply (nk_bind _ _ (λ _, True)); [by apply keeps_upd; [intros x; by split|]|]. intros _ _.
  apply (nk_bind _ _ (λ _, True)); [apply keeps_send|]. intros r _. destruct (r <? 0); by apply nk_ret.
Qed.

Lemma keeps_resolve : keeps (resolve_genl_family genl_name) (λ _, True).
Proof.
  unfold resolve_genl_family. apply (nk_bind _ _ (λ _, True)); [by apply keeps_get|]. intros s _.
  pose proof (align_spec (4 + len (genl_name ++ [0]))) as Ha. rewrite length_app in Ha. cbn [length] in Ha.
  apply keeps_build; [rewrite length_app; cbn [length]; lia|]. intros b.
  apply (nk_bind _ _ (λ _, True)); [by apply keeps_upd; [intros x; by split|]|]. intros _ _.
  apply (nk_bind _ _ (λ _, True)); [apply keeps_send|]. intros r _. destruct (r <? 0); [by apply nk_ret|].
  eapply nk_bind; [apply keeps_recv|]. intros [r' d] [H0 Hd]. cbn [fst snd] in *. destruct (Z.ltb_spec r' 0); [by apply nk_ret|].
  assert (∃ id, parse_family d = Some id) as [id Hid]; [|by eapply keeps_opt]. destruct (Z.leb_spec r' 0) as [Hz|Hp].
  - rewrite H0 by done. eexists. vm_compute. reflexivity.
  - destruct (Hd Hp) as (m & Hm & -> & Hle). specialize (Hle ltac:(lia)). rewrite take_ge by lia. by apply whole_family.
Qed.

Lemma keeps_starting : keeps (ipc_ksmbd_starting_up MAX HDR VER malloc startup startup_type) (λ _, True).
Proof.
  unfold ipc_ksmbd_starting_up. destruct (ipc_msg_alloc _ _ _ _) as [n|] eqn:E; [|by apply nk_ret].
  apply alloc_fits in E as [-> E]; [|lia]. eapply nk_bind; [apply keeps_send_internal; cbn [m_payload]; lia|]. intros ret _.
  destruct (ret =? 0); [|by apply nk_ret]. eapply nk_bind; [apply keeps_recv|]. intros [r d] [_ Hd]. cbn [fst snd] in *.
  destruct (Z.ltb_spec 0 r) as [Hr|]; [|by apply nk_ret]. destruct (Hd Hr) as (m & Hm & -> & _).
  destruct (whole_head m 256 Hm ltac:(lia)) as (t & Et & Ht).
  apply (nk_bind _ _ (λ x, x = t)); [by eapply keeps_opt|]. intros ? ->. destruct (Z.eqb_spec t NLMSG_ERROR) as [E1|]; [|by apply nk_ret].
  destruct (Ht E1) as [e Ee]. apply (nk_bind _ _ (λ _, True)); [by eapply keeps_opt|]. intros ? _. by apply nk_ret.
Qed.

Lemma whole_event id m : nl_whole m → len m < 2 ^ 30 → ∃ e, parse_event MAX HDR VER malloc id m = Some e ∧
  match e with Some (inr ev) => event_ok ev | _ => True end.
Proof.
  intros H Hm. destruct H as [(type & flags & seq & cmd & ver & l & Ht & Hne & Hc & Hv & Hl & ->)|H].
  - rewrite message_len in Hm. destruct (decide (type = id mod 65536)) as [E|E]; [destruct (decide (ver = VER)) as [->|E2]|].
    + eexists. split; [by apply parse_event_spec; try lia|]. unfold event_of. destruct (first_attr _ l) as [a|] eqn:Ea; [|done].
      apply first_attr_in in Ea as [Hin _]. pose proof (proj1 (Forall_forall _ _) Hl a Hin) as [_ Ha].
      destruct (Z.eqb_spec (len a.2) 0); [done|]. destruct (ipc_msg_alloc _ _ _ _) eqn:Em; [|done]. apply alloc_fits in Em; [|lia].
      split_and!; cbn; lia.
    + exists None. split; [|done]. unfold parse_event. rewrite <- (app_nil_r (message _ _ _ _ _ _)), message_type by done.
      cbn [mbind option_bind]. destruct (Z.eqb_spec type NLMSG_ERROR); [done|]. rewrite E, Z.eqb_refl. cbn [negb].
      destruct (message_cmd (id mod 65536) flags seq cmd ver l Hc Hv []) as [_ ->]. cbn [mbind option_bind]. by destruct (Z.eqb_spec ver VER).
    + exists None. split; [|done]. unfold parse_event. rewrite <- (app_nil_r (message _ _ _ _ _ _)), message_type by done.
      cbn [mbind option_bind]. destruct (Z.eqb_spec type NLMSG_ERROR); [done|]. by destruct (Z.eqb_spec type (id mod 65536)).
  - destruct H as (k & seq & e & tail & He & ->). exists None. split; [|done]. unfold parse_event.
    assert (E : get16 (nlmsghdr k NLMSG_ERROR 0 seq 0 ++ put32 e ++ tail) 4 = Some NLMSG_ERROR).
    { unfold nlmsghdr. rewrite <- !app_assoc. by apply (get16_app (put32 k) NLMSG_ERROR). }
    by rewrite E.
Qed.

Lemma keeps_event : keeps (ipc_process_event MAX HDR VER malloc) (λ _, True).
Proof.
  unfold ipc_process_event. apply (nk_bind _ _ (λ _, True)); [by apply keeps_get|]. intros s _.
  apply (nk_bind _ _ (λ _, True)); [apply nk_call; intros w; split; [apply nlaw_poll|done]|]. intros p _.
  destruct (p <=? 0); [by apply nk_ret|]. eapply nk_bind; [apply keeps_recv|]. intros [r d] [_ Hd]. cbn [fst snd] in *.
  destruct (Z.leb_spec r 0) as [|Hr]; [by apply nk_ret|]. destruct (Hd Hr) as (m & Hm & -> & Hle). specialize (Hle ltac:(lia)).
  rewrite take_ge by lia. destruct (whole_event (genl_family_id s.1) m Hm ltac:(lia)) as (e & Ee & He).
  apply (nk_bind _ _ (λ x, x = e)); [by eapply keeps_opt|]. intros ? ->. destruct e as [[err|ev]|]; try by apply nk_ret.
  apply (nk_bind _ _ (λ _, True)); [|intros ? _; by apply nk_ret]. apply keeps_upd; [|done]. intros x. split; [done|].
  intros Hx. cbn. apply Forall_app. split; [done|]. by constructor.
Qed.

Lemma keeps_loop n ret : keeps (event_loop MAX HDR VER malloc n ret) (λ _, True).
Proof.
  revert ret. induction n as [|n IH]; intros ret; cbn [event_loop]; [by apply nk_ret|]. eapply nk_bind; [apply keeps_event|]. intros r _.
  destruct (r <? 0); [by apply nk_ret|apply IH].
Qed.

Lemma view_ext v v' : v_fds v = v_fds v' → v_mnt v = v_mnt v' → v_bro v = v_bro v' → v_dsk v = v_dsk v' → v = v'.
Proof. destruct v, v'. cbn. by intros -> -> -> ->. Qed.

Lemma live_start w : Live (view w) (ipc0, w).
Proof. by split. Qed.

(** Somebody else opens and closes descriptors. *)
Lemma live_rebase v0 s w' : Live v0 s → rest_of w' = rest_of s.2 →
  ∃ v1, v_mnt v1 = v_mnt v0 ∧ v_bro v1 = v_bro v0 ∧ v_dsk v1 = v_dsk v0 ∧ Live v1 (s.1, w').
Proof.
  intros [He Hf (H1 & H2 & H3)] [= E1 E2 E3].
  exists (mk_view (if 0 <=? nlsock s.1 then delete (nlsock s.1) (v_fds (view w')) else v_fds (view w')) (v_mnt v0) (v_bro v0) (v_dsk v0)).
  split_and!; [done..|]. split; cbn [fst snd v_fds v_mnt v_bro v_dsk]; [done| |by rewrite E1, E2, E3].
  destruct (0 <=? nlsock s.1); [|done]. by rewrite lookup_delete_eq.
Qed.

(** Opening: the socket is recorded, or closed again. *)
Lemma wp_nl_open w : wp nl_open (λ _ s, Live (view w) s) (ipc0, w).
Proof.
  unfold nl_open. apply wp_bind, wp_lower, wp_call. cbn [fst snd]. destruct (nl_socket w) as [fd w1] eqn:E. cbn [fst snd].
  apply wp_bind, wp_mod. cbn [fst snd]. apply nlaw_socket in E as [[Hr Ev]|(Hr & Hf & p & Ev)].
  - destruct (Z.ltb_spec fd 0); [|lia]. apply wp_ret. split; cbn; [done| |by rewrite Ev]. destruct (Z.leb_spec 0 fd); [lia|]. by rewrite Ev.
  - destruct (Z.ltb_spec fd 0); [lia|]. apply wp_bind, wp_lower, wp_call. cbn [fst snd]. pose proof (nlaw_bind fd w1) as Eb.
    assert (Hd : delete fd (v_fds (view w1)) = v_fds (view w)) by (rewrite Ev; cbn; by rewrite delete_insert_id).
    destruct (_ <? 0).
    + apply wp_bind, wp_lower, wp_close. intros r2 w2 E2. cbn [fst snd]. apply wp_bind, wp_mod, wp_ret. split; cbn; [done| |]; rewrite E2; cbn [v_fds v_mnt v_bro v_dsk snd]; rewrite Eb; [done|by rewrite Ev].
    + apply wp_ret. split; cbn; [done| |by rewrite Eb, Ev]. destruct (Z.leb_spec 0 fd); [|lia]. by rewrite Eb.
Qed.

Lemma wp_ipc_init w : wp (ipc_init MAX HDR VER malloc genl_name startup startup_type) (λ _ s, Live (view w) s) (ipc0, w).
Proof.
  unfold ipc_init. apply wp_bind. eapply wp_mono; [apply wp_nl_open|]. intros o s Hs. destruct (o <? 0); [by apply wp_ret|].
  set (rest := resolve_genl_family genl_name ≫= _). assert (Hk : keeps rest (λ _, True)); [clear Hs|eapply wp_mono; [exact (Hk (view w) s Hs)|]; intros a s' (H & _); exact H].
  eapply nk_bind; [apply keeps_resolve|]. intros fam _. apply (nk_bind _ _ (λ _, True)); [by apply keeps_upd; [intros x; by split|]|]. intros _ _.
  destruct (fam <? 0); [by apply nk_ret|]. apply (nk_bind _ _ (λ _, True)); [by apply keeps_upd; [intros x; by split|]|]. intros _ _.
  eapply nk_bind; [apply keeps_starting|]. intros ret _. destruct (ret <? 0); [by apply nk_ret|].
  apply (nk_bind _ _ (λ _, True)); [apply nk_call; intros w1; split; [apply law_nanosleep|done]|]. intros _ _.
  by apply keeps_upd; [intros x; by split|].
Qed.

Lemma wp_ipc_destroy v0 s : Live v0 s →
  wp (ipc_destroy MAX HDR VER malloc shutdown_type shutdown_sz) (λ _ s', nlsock s'.1 < 0 ∧ running s'.1 = false ∧
    view s'.2 = v0 ∧ Forall event_ok (pushed s'.1)) s.
Proof.
  intros Hs. unfold ipc_destroy. apply wp_bind, wp_get, wp_bind. pose proof (li_fds _ _ Hs) as Hf. destruct (Z.leb_spec 0 (nlsock s.1)).
  - apply wp_bind. set (m := match ipc_msg_alloc _ _ _ _ with Some _ => _ | None => _ end).
    assert (Hk : keeps m (λ _, True)).
    { unfold m. destruct (ipc_msg_alloc _ _ _ _) as [n|] eqn:E; [|by apply nk_ret]. apply alloc_fits in E as [-> E]; [|done].
      eapply nk_bind; [apply keeps_send_internal; cbn [m_payload]; rewrite length_replicate; lia|]. intros ? _. by apply nk_ret. }
    eapply wp_mono; [by apply Hk|]. intros [] s1 ([He1 Hd1 (Hm1 & Hb1 & Hk1)] & E1 & _). rewrite E1 in Hd1. destruct (Z.leb_spec 0 (nlsock s.1)); [|lia].
    apply wp_bind, wp_lower, wp_close. intros r w2 E2. cbn [fst snd]. apply wp_mod, wp_mod. cbn. split_and!; [lia|done| |done].
    rewrite E2. apply view_ext; [apply Hd1|done..].
  - apply wp_ret, wp_mod. cbn. split_and!; [lia|done| |by apply li_events in Hs]. destruct (li_rest _ _ Hs) as (? & ? & ?). by apply view_ext.
Qed.
End Life.

(** ** A small kernel with one event *)

Definition family_reply : bytes := message GENL_ID_CTRL 0 1 1 2 [(CTRL_ATTR_FAMILY_NAME, [83; 77; 66; 0]); (CTRL_ATTR_FAMILY_ID, put16 0x20)].
Definition ack : bytes := nlmsghdr 36 NLMSG_ERROR 0 2 0 ++ put32 0 ++ replicate 16 0.
Definition login : bytes := message 0x20 0 0 4 1 [(9, [1]); (4, [103; 117; 101])].

#[global] Instance toy_netlink : Netlink Toy.toy := {|
  nl_socket w :=
    match v_fds (Toy.t_view w) !! Toy.t_next w with
    | None => if 0 <=? Toy.t_next w
              then (Toy.t_next w, Toy.set_view w (mk_view (<[Toy.t_next w := []]> (v_fds (Toy.t_view w))) (v_mnt (Toy.t_view w)) (v_bro (Toy.t_view w)) (v_dsk (Toy.t_view w))))
              else (-1, w)
    | Some _ => (-1, w)
    end;
  nl_bind fd := Toy.quiet 0;
  nl_sendto fd b := Toy.quiet (len b);
  nl_recvfrom fd n w := if n =? 512 then ((len family_reply, take (Z.to_nat n) family_reply), w)
    else if n =? 256 then ((len ack, take (Z.to_nat n) ack), w) else ((len login, take (Z.to_nat n) login), w);
  nl_poll fd := Toy.quiet 1 |}.

Lemma toy_whole : nl_whole family_reply ∧ nl_whole ack ∧ nl_whole login.
Proof.
  split_and!.
  - left. exists GENL_ID_CTRL, 0, 1, 1, 2, [(CTRL_ATTR_FAMILY_NAME, [83; 77; 66; 0]); (CTRL_ATTR_FAMILY_ID, put16 0x20)].
    split_and!; try done. repeat constructor; done.
  - right. exists 36, 2, 0, (replicate 16 0). by split_and!.
  - left. exists 0x20, 0, 0, 4, 1, [(9, [1]); (4, [103; 117; 101])]. split_and!; try done. repeat constructor; done.
Qed.

#[global] Instance toy_netlink_laws : NetlinkLaws Toy.toy.
Proof.
  destruct toy_whole as (H1 & H2 & H3). refine {| nlaw_bind fd w := eq_refl |}; try done.
  - intros w r w'. cbn. case_match; [intros [= <- <-]; left; done|]. destruct (Z.leb_spec 0 (Toy.t_next w)); intros [= <- <-]; [right|left; done].
    split_and!; [done|done|by eexists].
  - intros fd n w r d w'. cbn -[len family_reply ack login].
    assert (Hx : ∀ m, nl_whole m → 0 < len m <= 512 → ((len m, take (Z.to_nat n) m), w) = ((r, d), w') →
      Toy.t_view w' = Toy.t_view w ∧ (r <= 0 → d = []) ∧ (0 < r → ∃ m, nl_whole m ∧ d = take (Z.to_nat n) m ∧ (512 <= n → len m <= n))).
    { intros m Hm Hl [= <- <- <-]. split_and!; [done|lia|]. intros _. exists m. split_and!; [done|done|lia]. }
    destruct (n =? 512); [by apply Hx|]. destruct (n =? 256); by apply Hx.
Qed.

(** ** Properties *)

(** Messages survive the trip: what ipc_msg_send builds for a message is
    read by ipc_process_event as that message; and whatever attributes a
    message of the kernel carries, the event is the data of the first
    attribute named by its command, never anything outside it. *)
Theorem ipc_message_roundtrip MAX HDR VER malloc fam flags seq (m : ipc_msg) l cmd :
  0 <= fam < 65536 → fam ≠ NLMSG_ERROR → 0 <= VER < 256 → 0 <= m_type m < 256 → 0 < len (m_payload m) < 65531 →
  ipc_msg_alloc MAX HDR malloc (len (m_payload m)) = Some (len (m_payload m)) → 0 <= HDR < 2 ^ 30 →
  Forall attr_ok l → 20 + len (enc_attrs l) < 2 ^ 31 → 0 <= cmd < 256 →
  (∃ text, build (MAX + 256) fam flags seq (m_type m) VER (m_type m) (m_payload m) = Some text ∧
     parse_event MAX HDR VER malloc fam text = Some (Some (inr m))) ∧
  parse_event MAX HDR VER malloc fam (message fam flags seq cmd VER l) = Some (event_of MAX HDR malloc cmd l).
Proof.
  intros Hf Hne Hv Ht Hp Ha Hh Hl Hn Hc. split; [|by apply parse_event_spec; try rewrite Z.mod_small].
  assert (Hfit : len (m_payload m) + HDR + 1 <= MAX).
  { unfold ipc_msg_alloc in Ha. rewrite u64_small in Ha by lia. destruct (Z.ltb_spec MAX (len (m_payload m) + HDR + 1)); [done|lia]. }
  pose proof (align_spec (4 + len (m_payload m))). eexists. split; [apply build_message; lia|].
  assert (Hok : Forall attr_ok [(m_type m, m_payload m)]) by (repeat constructor; cbn; lia).
  assert (El : len (enc_attrs [(m_type m, m_payload m)]) = NLA_ALIGN (4 + len (m_payload m))).
  { unfold enc_attrs. cbn [fmap list_fmap mjoin list_join]. rewrite app_nil_r. apply enc_attr_len. }
  rewrite (parse_event_spec MAX HDR VER malloc fam fam) by (done || lia || by rewrite Z.mod_small).
  unfold event_of, first_attr. rewrite filter_cons, decide_True by (cbn; apply Z.eqb_refl). cbn [head fst snd].
  destruct (Z.eqb_spec (len (m_payload m)) 0); [lia|]. rewrite Ha. by destruct m.
Qed.

Lemma ipc_message_roundtrip_witness :
  ((∃ text, build (4096 + 256) 0x20 1 7 4 1 4 [103; 117; 101; 115; 116] = Some text ∧
     parse_event 4096 8 1 (λ _, true) 0x20 text = Some (Some (inr (mk_msg 4 [103; 117; 101; 115; 116])))) ∧
   parse_event 4096 8 1 (λ _, true) 0x20 (message 0x20 1 7 4 1 [(9, [1]); (4, [103; 117; 101])]) =
     Some (event_of 4096 8 (λ _, true) 4 [(9, [1]); (4, [103; 117; 101])])) ∧
  event_of 4096 8 (λ _, true) 4 [(9, [1]); (4, [103; 117; 101])] = Some (inr (mk_msg 4 [103; 117; 101])).
Proof.
  split; [|vm_compute; reflexivity].
  apply (ipc_message_roundtrip 4096 8 1 (λ _, true) 0x20 1 7 (mk_msg 4 [103; 117; 101; 115; 116]) [(9, [1]); (4, [103; 117; 101])] 4);
    try (cbn; lia); try done. repeat constructor; done.
Defined.

(** The daemon leaves nothing open: for any answers of the kernel, from
    its start through any number of events to its end, it returns, the
    socket it opened is closed on every path and only that one, mounts and
    disks are as before, and every event handed to the workers has data that fits a message. *)
Theorem ipc_lifecycle {W} `{!Lkl W, !LklLaws W, !Netlink W, !NetlinkLaws W} MAX HDR VER malloc genl_name startup startup_type
    shutdown_type shutdown_sz n (w : W) :
  256 <= MAX < 2 ^ 29 → 0 <= HDR < 2 ^ 30 → 0 <= VER < 256 → len genl_name <= 256 → len startup < 2 ^ 30 → 0 <= shutdown_sz < 2 ^ 30 →
  wp (daemon MAX HDR VER malloc genl_name startup startup_type shutdown_type shutdown_sz n) (λ _ s',
    nlsock s'.1 < 0 ∧ running s'.1 = false ∧ view s'.2 = view w ∧ Forall (event_ok MAX HDR) (pushed s'.1)) (ipc0, w).
Proof.
  intros Hm Hh Hv Hn Hs Hd. unfold daemon. apply wp_bind. eapply wp_mono; [by apply wp_ipc_init|]. intros [] s1 H1.
  apply wp_bind, wp_get, wp_bind. apply (wp_mono _ (λ _ s, Live MAX HDR (view w) s)); [|intros ? s2 H2; by eapply wp_ipc_destroy].
  destruct (running s1.1); [|by apply wp_ret]. eapply wp_mono; [by eapply keeps_loop|]. intros ? s2 (H2 & _). exact H2.
Qed.

Definition toy_smb : Toy.toy := Toy.mk_toy 3 (mk_view ∅ ∅ ∅ ∅) ∅ ∅ ∅ 0 (mk_hview ∅ 0) ∅.

Lemma ipc_lifecycle_witness :
  wp (daemon 4096 8 1 (λ _, true) [83; 77; 66] [1; 2; 3; 4] 1 2 4 2) (λ _ s',
    nlsock s'.1 < 0 ∧ running s'.1 = false ∧ view s'.2 = view toy_smb ∧ Forall (event_ok 4096 8) (pushed s'.1)) (ipc0, toy_smb) ∧
  (λ r, pushed r.2.1) <$> daemon 4096 8 1 (λ _, true) [83; 77; 66] [1; 2; 3; 4] 1 2 4 2 (ipc0, toy_smb) =
    Some [mk_msg 4 [103; 117; 101]; mk_msg 4 [103; 117; 101]].
Proof.
  split; [|vm_compute; reflexivity].
  apply (ipc_lifecycle 4096 8 1 (λ _, true) [83; 77; 66] [1; 2; 3; 4] 1 2 4 2 toy_smb); cbn; lia.
Defined.

(** The lengths inside a message are trusted: an attribute that claims more
    than was received is read past the end of it. *)
Lemma attr_length_trusted :
  parse_event 4096 8 1 (λ _, true) 0x20 (nlmsghdr 28 0x20 0 0 0 ++ genlmsghdr 4 1 ++ nlattr 100 4 ++ [1; 2; 3; 4]) = None.
Proof. vm_compute. reflexivity. Qed.

End KsmbdIpc.
