(* ===== verification/U8.v ===== *)
(** * U8

    src/win32/anyfs_u8.c: the host layer of the Windows build.  Text inside is
    UTF-8; every host call converts at the boundary and calls the UTF-16 API,
    and text for a console is written in whole characters.  The Windows and C
    runtime calls are a class over an arbitrary state. *)
From S2P Require Import Prelude CLib Lkl Name.
Import CLib Name.

(** UTF-16 units *)
Definition wide := list Z.

Record wstat := mk_wstat {
  s_dev : Z; s_ino : Z; s_mode : Z; s_nlink : Z; s_uid : Z; s_gid : Z; s_rdev : Z; s_size : Z; s_atime : Z; s_mtime : Z; s_ctime : Z }.

(** [mb_strict] and [wc_strict] are the conversions that refuse an invalid
    sequence, [mb] the one that replaces it; a call that sets errno (or
    GetLastError) returns its new value.  [w_free] is what free leaves in
    errno and GetLastError when it changes them. *)
Class Win (W : Type) := {
  mb_strict : bytes → option wide;
  wc_strict : wide → option bytes;
  mb : bytes → wide;
  w_malloc : kcall W bool;
  w_free : kcall W (option (Z * Z));
  w_open : wide → Z → Z → kcall W (Z * Z);
  w_fopen : wide → wide → kcall W (option Z * Z);
  w_stat : wide → kcall W ((Z * wstat) * Z);
  w_access : wide → Z → kcall W (Z * Z);
  w_unlink : wide → kcall W (Z * Z);
  w_getenv : wide → W → option wide;
  w_seed : kcall W Z;
  w_create_file : wide → Z → Z → Z → Z → kcall W (Z * Z);
  w_temp_path : kcall W (Z * wide);
  w_temp_name : wide → kcall W (option wide);
  w_delete : wide → kcall W ();
  w_console : Z → kcall W (option Z);
  w_write_console : Z → wide → kcall W (option Z);
  w_raw_write : Z → bytes → kcall W Z;
  w_strerror : Z → bytes }.

Module U8.

Definition EINVAL : Z := 22.
Definition EEXIST : Z := 17.
Definition ENOMEM : Z := 12.
Definition EILSEQ : Z := 42.
Definition O_CREAT : Z := 0x0100.
Definition ERROR_INVALID_NAME : Z := 123.
Definition INVALID_HANDLE_VALUE : Z := -1.
Definition MAX_PATH : Z := 260.
Definition CONSOLE_CHUNK : Z := 8192.

(** ** Whole characters *)

Definition is_cont (c : Z) : bool := Z.land c 0xC0 =? 0x80.
(** The index after at most [k] continuation bytes are stepped over. *)
Fixpoint skip_cont (k : nat) (s : bytes) (i : nat) : nat :=
  match k, i with
  | S k', S i' => match s !! i' with Some c => if is_cont c then skip_cont k' s i' else i | None => i end
  | _, _ => i
  end.
Definition need (c : Z) : nat :=
  if (0xF0 <=? c) && (c <=? 0xF4) then 4
  else if (0xE0 <=? c) && (c <? 0xF0) then 3
  else if (0xC2 <=? c) && (c <? 0xE0) then 2
  else 1.
Definition anyfs_u8_complete_prefix (s : bytes) : nat :=
  let n := length s in
  let i := skip_cont 3 s n in
  match i with
  | O => n
  | S i' =>
      match s !! i' with
      | Some c => if (1 <? need c)%nat && (n - i + 1 <? need c)%nat then i' else n
      | None => n
      end
  end.

(** ** State

    errno, the last error, the number of live allocations, g_env (newest
    first, each entry with the address of its value), the next address, and
    g_held of stdout and stderr. *)
Record env_entry := mk_env { e_name : bytes; e_value : bytes; e_addr : Z }.
Record U8st := mk_u8 {
  errno : Z; last_error : Z; allocs : Z; g_env : list env_entry; next_addr : Z; held_out : bytes; held_err : bytes }.

Definition set_errno e s := mk_u8 e (last_error s) (allocs s) (g_env s) (next_addr s) (held_out s) (held_err s).
Definition set_last e s := mk_u8 (errno s) e (allocs s) (g_env s) (next_addr s) (held_out s) (held_err s).
Definition set_allocs n s := mk_u8 (errno s) (last_error s) n (g_env s) (next_addr s) (held_out s) (held_err s).
Definition add_env e s := mk_u8 (errno s) (last_error s) (allocs s) (e :: g_env s) (next_addr s + 1) (held_out s) (held_err s).
Definition held (i : bool) (s : U8st) : bytes := if i then held_err s else held_out s.
Definition set_held (i : bool) b s :=
  mk_u8 (errno s) (last_error s) (allocs s) (g_env s) (next_addr s) (if i then held_out s else b) (if i then b else held_err s).

Section Code.
Context {W : Type} `{!Win W}.
Notation St := (U8st * W)%type.

Definition upd (f : U8st → U8st) : M St () := mmod (λ s, (f s.1, s.2)).
Definition get {A} (f : U8st → A) : M St A := mgets (λ s, f s.1).

Definition malloc : M St bool :=
  ok ← lower (call w_malloc);
  _ ← (if (ok : bool) then upd (λ s, set_allocs (allocs s + 1) s) else mret ());
  mret ok.
Definition free : M St () :=
  e ← lower (call w_free);
  _ ← upd (λ s, set_allocs (allocs s - 1) s);
  match e with Some e => upd (λ s, set_errno e.1 (set_last e.2 s)) | None => mret () end.
(** A call that sets errno. *)
Definition sys {A} (f : kcall W (A * Z)) : M St A :=
  r ← lower (call f); _ ← upd (set_errno r.2); mret r.1.

(** ** Conversions *)

Definition anyfs_u8_to_u16 (s : bytes) : M St (option wide) :=
  match mb_strict s with
  | None => _ ← upd (set_errno EILSEQ); mret None
  | Some w =>
      ok ← malloc;
      if (ok : bool) then mret (Some w) else _ ← upd (set_errno ENOMEM); mret None
  end.

Definition anyfs_u16_to_u8 (s : wide) : M St (option bytes) :=
  match wc_strict s with
  | None => _ ← upd (set_errno EILSEQ); mret None
  | Some u =>
      ok ← malloc;
      if (ok : bool) then mret (Some u) else _ ← upd (set_errno ENOMEM); mret None
  end.

(** ** Files *)

(** free(w) between two uses of errno. *)
Definition free_keeping_errno : M St () := e ← get errno; _ ← free; upd (set_errno e).

(** WIDE_OR *)
Definition wide_or {A} (path : bytes) (fail : A) (k : wide → M St A) : M St A :=
  w ← anyfs_u8_to_u16 path;
  match w with None => mret fail | Some w => k w end.

Definition anyfs_u8_open (path : bytes) (flags mode : Z) : M St Z :=
  let mode := if flag flags O_CREAT then mode else 0 in
  wide_or path (-1) (λ w, fd ← sys (w_open w flags mode); _ ← free_keeping_errno; mret fd).

Definition anyfs_u8_fopen (path mode : bytes) : M St (option Z) :=
  wide_or path None (λ w,
    wm ← anyfs_u8_to_u16 mode;
    match wm with
    | None => _ ← free; mret None
    | Some wm =>
        f ← sys (w_fopen w wm);
        e ← get errno; _ ← free; _ ← free; _ ← upd (set_errno e);
        mret f
    end).

Definition anyfs_u8_stat (path : bytes) : M St (Z * option wstat) :=
  wide_or path (-1, None) (λ w,
    r ← sys (w_stat w);
    e ← get errno; _ ← free; _ ← upd (set_errno e);
    mret (r.1, if r.1 =? 0 then Some r.2 else None)).

Definition anyfs_u8_access (path : bytes) (mode : Z) : M St Z :=
  wide_or path (-1) (λ w, r ← sys (w_access w (Z.land mode (Z.lnot 1))); _ ← free_keeping_errno; mret r).

Definition anyfs_u8_unlink (path : bytes) : M St Z :=
  wide_or path (-1) (λ w, r ← sys (w_unlink w); _ ← free_keeping_errno; mret r).

(** *** Temporary names *)
Definition chars : bytes := bs "abcdefghijklmnopqrstuvwxyz0123456789".
Definition next_seed (seed : Z) : Z := u64 (seed * 6364136223846793005 + 1442695040888963407).
(** [k] characters from [seed]: the characters and the seed afterwards. *)
Fixpoint draw (k : nat) (seed : Z) : bytes * Z :=
  match k with
  | O => ([], seed)
  | S k => let s := next_seed seed in
           let r := draw k s in
           (default 0 (chars !! Z.to_nat (Z.shiftr s 33 mod 36)) :: r.1, r.2)
  end.

(** O_RDWR | O_CREAT | O_EXCL | O_BINARY *)
Definition O_TEMP : Z := 0x8502.
(** The descriptor, the template as it is left. *)
Fixpoint mkstemp_loop (tries : nat) (prefix tmpl : bytes) (seed : Z) : M St (Z * bytes) :=
  match tries with
  | O => _ ← upd (set_errno EEXIST); mret (-1, tmpl)
  | S t =>
      let d := draw 6 seed in
      let name := prefix ++ d.1 in
      fd ← anyfs_u8_open name O_TEMP 0x180;
      e ← get errno;
      if (0 <=? fd) || negb (e =? EEXIST) then mret (fd, name) else mkstemp_loop t prefix name d.2
  end.
Definition anyfs_u8_mkstemp (tmpl : bytes) : M St (Z * bytes) :=
  let n := (length tmpl - 6)%nat in
  if (len tmpl <? 6) || negb (streq (drop n tmpl) (bs "XXXXXX")) then _ ← upd (set_errno EINVAL); mret (-1, tmpl)
  else seed ← lower (call w_seed); mkstemp_loop 100 (take n tmpl) tmpl (u64 seed).

(** *** The environment: the address and the text of the value *)
Definition anyfs_u8_getenv (name : bytes) : M St (option (Z * bytes)) :=
  wname ← anyfs_u8_to_u16 name;
  match wname with
  | None => mret None
  | Some wname =>
      wv ← mgets (λ s, w_getenv wname s.2);
      _ ← free;
      match wv with
      | None => mret None
      | Some wv =>
          v ← anyfs_u16_to_u8 wv;
          match v with
          | None => mret None
          | Some value =>
              env ← get g_env;
              match list_find (λ e, e_name e = name ∧ e_value e = value) env with
              | Some (_, e) => _ ← free; mret (Some (e_addr e, e_value e))
              | None =>
                  oke ← malloc;
                  okn ← malloc;
                  if (oke : bool) && (okn : bool) then
                    a ← get next_addr;
                    _ ← upd (add_env (mk_env name value a));
                    mret (Some (a, value))
                  else
                    _ ← (if oke then free else mret ());
                    _ ← (if okn then free else mret ());
                    _ ← free;
                    mret None
              end
          end
      end
  end.

Definition anyfs_u8_create_file (path : bytes) (access share disposition attrs : Z) : M St Z :=
  w ← anyfs_u8_to_u16 path;
  match w with
  | None => _ ← upd (set_last ERROR_INVALID_NAME); mret INVALID_HANDLE_VALUE
  | Some w =>
      r ← lower (call (w_create_file w access share disposition attrs));
      _ ← upd (set_last r.2);
      e ← get last_error;
      _ ← free;
      _ ← upd (set_last e);
      mret r.1
  end.

(** _O_RDWR | _O_BINARY | _O_TEMPORARY *)
Definition O_SCRATCH : Z := 0x8042.
Definition anyfs_u8_tmpfile_fd : M St Z :=
  d ← lower (call w_temp_path);
  if (d.1 =? 0) || (MAX_PATH <? d.1) then mret (-1)
  else
    p ← lower (call (w_temp_name d.2));
    match p with
    | None => mret (-1)
    | Some path =>
        fd ← sys (w_open path O_SCRATCH 0);
        if fd <? 0 then _ ← lower (call (w_delete path)); mret fd else mret fd
    end.

(** ** Output *)

Definition is_high (u : Z) : bool := (0xD800 <=? u) && (u <=? 0xDBFF).
(** How many of the units of [w] the next call takes. *)
Definition chunk_len (w : wide) : Z :=
  if CONSOLE_CHUNK <? len w then
    match w !! Z.to_nat (CONSOLE_CHUNK - 1) with
    | Some u => if is_high u then CONSOLE_CHUNK - 1 else CONSOLE_CHUNK
    | None => CONSOLE_CHUNK
    end
  else len w.

Fixpoint emit (fuel : nat) (h : Z) (w : wide) : M W () :=
  match w with
  | [] => mret ()
  | _ =>
      match fuel with
      | O => mstuck
      | S f =>
          r ← call (w_write_console h (take (Z.to_nat (chunk_len w)) w));
          match r with
          | None => mret ()
          | Some k => if k =? 0 then mret () else emit f h (drop (Z.to_nat k) w)
          end
      end
  end.

(** [i] is whether the stream is stderr.  The length is passed as an int:
    beyond its range there is no value. *)
Definition write_console (i : bool) (h : Z) (s : bytes) : M St () :=
  hd ← get (held i);
  ok ← malloc;
  if negb ok then mret ()
  else
    let buf := hd ++ s in
    let done := anyfs_u8_complete_prefix buf in
    if 2 ^ 31 <=? Z.of_nat done then mstuck else
    _ ← upd (set_held i (drop done buf));
    let w := if (0 <? done)%nat then mb (take done buf) else [] in
    _ ← (if (0 <? length w)%nat then
           okw ← malloc;
           if (okw : bool) then _ ← lower (emit (length w) h w); free else mret ()
         else mret ());
    free.

(** [f]: 1 stdout, 2 stderr, another number any other stream; the console
    handle of the stream if it is a console. *)
Definition console_stream (f : Z) : M St (option (bool * Z)) :=
  if (f =? 1) || (f =? 2) then h ← lower (call (w_console f)); mret ((λ h, (f =? 2, h)) <$> h)
  else mret None.

(** [text] is what vsnprintf makes of the format; -1 without memory. *)
Definition anyfs_u8_vfprintf (f : Z) (text : bytes) : M St Z :=
  c ← console_stream f;
  match c with
  | None => lower (call (w_raw_write f text))
  | Some (i, h) =>
      ok ← malloc;
      if (ok : bool) then _ ← write_console i h text; _ ← free; mret (len text) else mret (-1)
  end.

Definition anyfs_u8_fwrite (size n : Z) (p : bytes) (f : Z) : M St Z :=
  c ← console_stream f;
  match c with
  | None => lower (call (w_raw_write f p))
  | Some (i, h) => _ ← write_console i h (take (Z.to_nat (size * n)) p); mret n
  end.

Definition anyfs_u8_fputs (s : bytes) (f : Z) : M St Z :=
  c ← console_stream f;
  match c with
  | None => lower (call (w_raw_write f s))
  | Some (i, h) => _ ← write_console i h s; mret 0
  end.

Definition anyfs_u8_fputc (c f : Z) : M St Z :=
  x ← console_stream f;
  match x with
  | None => lower (call (w_raw_write f [u8 c]))
  | Some (i, h) => _ ← write_console i h [u8 c]; mret (u8 c)
  end.

Definition EOF : Z := -1.
Definition anyfs_u8_puts (s : bytes) : M St Z :=
  r ← anyfs_u8_fputs s 1;
  if r <? 0 then mret EOF
  else r ← anyfs_u8_fputc 10 1; mret (if r =? EOF then EOF else 0).
Definition anyfs_u8_putchar (c : Z) : M St Z := anyfs_u8_fputc c 1.

Definition anyfs_u8_perror (s : option bytes) : M St Z :=
  e ← get errno;
  let msg := w_strerror (W := W) e in
  anyfs_u8_vfprintf 2 (match s with Some (c :: s) => (c :: s) ++ bs ": " ++ msg ++ [10] | _ => msg ++ [10] end).
End Code.

(** ** Whole characters *)

Lemma is_cont_range c : 0x80 <= c <= 0xBF → is_cont c = true.
Proof. intros H. unfold is_cont. rewrite land_cont by lia. zify_bools. lia. Qed.
Lemma is_cont_lead c : 0 <= c < 256 → c < 0x80 ∨ 0xC0 <= c → is_cont c = false.
Proof. intros H1 H2. unfold is_cont. rewrite land_cont by lia. apply andb_false_iff. rewrite !Z.leb_gt. lia. Qed.

(** A character is a lead byte and as many continuation bytes as it needs. *)
Lemma utf8_shape u : utf8 u → ∃ a cs, u = a :: cs ∧ is_cont a = false ∧ Forall (λ c, is_cont c = true) cs ∧ need a = length u ∧ (length cs <= 3)%nat.
Proof.
  intros Hu.
  destruct Hu as [a Ha|a b Ha Hb|a b c Ha Hb Hc _ _|a b c d Ha Hb Hc Hd _ _]; eexists a, _; (split; [done|]);
    (split; [apply is_cont_lead; lia|]); (split; [repeat constructor; by apply is_cont_range|]); (split; [|cbn; lia]); unfold need; cbn [length];
    repeat (case_if; zify_bools; try lia).
Qed.

Lemma skip_back p a cs k rest : is_cont a = false → Forall (λ c, is_cont c = true) cs → (length cs <= k)%nat →
  skip_cont k (p ++ a :: cs ++ rest) (length p + 1 + length cs) = (length p + 1)%nat.
Proof.
  intros Ha Hcs. revert k rest. induction cs as [|c cs IH] using rev_ind; intros k rest Hk.
  - cbn. rewrite Nat.add_0_r. destruct k; cbn; [done|]. replace (length p + 1)%nat with (S (length p)) by lia.
    rewrite list_lookup_middle by done. by rewrite Ha.
  - apply Forall_app in Hcs as [Hcs Hc]. apply Forall_cons in Hc as [Hc _]. rewrite length_app in *. cbn [length] in *.
    destruct k as [|k]; [lia|]. replace (length p + 1 + (length cs + 1))%nat with (S (length p + 1 + length cs)) by lia. cbn [skip_cont].
    replace (p ++ a :: (cs ++ [c]) ++ rest) with ((p ++ a :: cs) ++ c :: rest) by (by rewrite <- !app_assoc).
    rewrite list_lookup_middle by (rewrite length_app; cbn; lia). rewrite Hc.
    replace ((p ++ a :: cs) ++ c :: rest) with (p ++ a :: cs ++ c :: rest) by (by rewrite <- app_assoc). apply IH; [done|lia].
Qed.

(** Text that ends in a lead byte with some of its continuation bytes. *)
Lemma prefix_shape p a cs : is_cont a = false → Forall (λ c, is_cont c = true) cs → (length cs <= 3)%nat →
  anyfs_u8_complete_prefix (p ++ a :: cs) = if (length cs + 1 <? need a)%nat then length p else length (p ++ a :: cs).
Proof.
  intros Ha Hcs Hl. unfold anyfs_u8_complete_prefix. pose proof (skip_back p a cs 3 [] Ha Hcs Hl) as Hb. rewrite app_nil_r in Hb.
  assert (El : length (p ++ a :: cs) = (length p + 1 + length cs)%nat) by (rewrite length_app; cbn; lia). rewrite El, Hb, Nat.add_1_r.
  rewrite list_lookup_middle by done. replace (S (length p) + length cs - S (length p) + 1)%nat with (length cs + 1)%nat by lia.
  destruct (Nat.ltb_spec (length cs + 1) (need a)); [|by rewrite andb_false_r]. rewrite andb_true_r. destruct (Nat.ltb_spec 1 (need a)); [done|lia].
Qed.

(** [t] is a part of a character that is not all of it. *)
Definition partial (t : bytes) : Prop := ∃ u r, utf8 u ∧ u = t ++ r ∧ r ≠ [].

Lemma complete_prefix_units us t : Forall utf8 us → partial t → anyfs_u8_complete_prefix (mjoin us ++ t) = length (mjoin us).
Proof.
  intros Hus (u & r & Hu & Eu & Hr). destruct (utf8_shape u Hu) as (a & cs & Es & Ha & Hcs & Hn & Hl). destruct t as [|x t].
  - rewrite app_nil_r. clear u r Hu Eu Hr a cs Es Ha Hcs Hn Hl. destruct us as [|u us] using rev_ind; [done|].
    apply Forall_app in Hus as [_ Hu]. apply Forall_cons in Hu as [Hu _]. destruct (utf8_shape u Hu) as (a & cs & -> & Ha & Hcs & Hn & Hl).
    rewrite join_app. cbn [mjoin list_join]. rewrite app_nil_r, prefix_shape by done. cbn in Hn. rewrite (proj2 (Nat.ltb_ge _ _)) by lia. done.
  - rewrite Es in Eu. injection Eu as <- Ecs. rewrite Ecs in *. apply Forall_app in Hcs as [Hcs _]. rewrite length_app in Hl.
    rewrite prefix_shape by (done || lia). rewrite (proj2 (Nat.ltb_lt _ _)); [done|]. rewrite Hn, Es. cbn. rewrite length_app.
    destruct r; [done|]. cbn. lia.
Qed.

Lemma partial_nil : partial [].
Proof. exists [1], [1]. split; [constructor; lia|done]. Qed.
Lemma partial_app b c : partial (b ++ c) → partial b.
Proof. intros (u & r & Hu & -> & Hr). exists ((b ++ c) ++ r), (c ++ r). split; [done|]. split; [by rewrite app_assoc|]. by intros [_ ?]%app_eq_nil. Qed.

(** Any cut of a text falls between two characters or inside one. *)
Lemma cut_units us t2 b c : Forall utf8 us → partial t2 → b ++ c = mjoin us ++ t2 →
  ∃ us1 us2 t1, us = us1 ++ us2 ∧ b = mjoin us1 ++ t1 ∧ t1 ++ c = mjoin us2 ++ t2 ∧ partial t1.
Proof.
  intros Hus Ht. revert b. induction Hus as [|u us Hu Hus IH]; intros b E.
  { exists [], [], b. cbn in *. split_and!; [done..|]. apply (partial_app b c). by rewrite E. }
  rewrite join_cons, <- app_assoc in E. destruct (decide (length u <= length b)%nat) as [Hl|Hl].
  - apply app_eq_inv in E as [(k & -> & E)|(k & E' & Ec)].
    + destruct (IH k ltac:(done)) as (us1 & us2 & t1 & -> & -> & Ec & Hp). exists (u :: us1), us2, t1. by rewrite join_cons, <- app_assoc.
    + rewrite E' in Hl. rewrite length_app in Hl. assert (k = []) as -> by (destruct k; [done|cbn in Hl; lia]). rewrite app_nil_r in E'. subst u.
      exists [b], us, []. cbn [mjoin list_join app] in *. rewrite !app_nil_r. split_and!; [done..|apply partial_nil].
  - exists [], (u :: us), b. split_and!; [done..|by rewrite join_cons, <- app_assoc|].
    apply app_eq_inv in E as [(k & -> & _)|(k & -> & _)]; [rewrite length_app in Hl; lia|]. exists (b ++ k), k. split_and!; [done..|].
    intros ->. rewrite app_nil_r in Hl. lia.
Qed.

(** ** The console *)

(** Chunks are not empty and fit. *)
Lemma chunk_len_bounds w : w ≠ [] → 0 < chunk_len w <= len w.
Proof.
  intros Hw. unfold chunk_len. assert (0 < len w) by (destruct w; [done|cbn; lia]).
  destruct (Z.ltb_spec CONSOLE_CHUNK (len w)); [|lia]. unfold CONSOLE_CHUNK in *. repeat case_match; lia.
Qed.

(** A surrogate pair stays in one chunk: a chunk that is not the last ends in
    a high surrogate only after another one. *)
Lemma chunk_keeps_pairs w u v : chunk_len w < len w → w !! Z.to_nat (chunk_len w - 1) = Some u → w !! Z.to_nat (chunk_len w) = Some v →
  is_high u = true → is_high v = true.
Proof.
  unfold chunk_len. destruct (Z.ltb_spec CONSOLE_CHUNK (len w)); [|lia]. intros _.
  destruct (w !! Z.to_nat (CONSOLE_CHUNK - 1)) as [x|] eqn:E; [|congruence]. destruct (is_high x) eqn:Eh; congruence.
Qed.
End U8.

(** What the console promises: the units of a call are shown in order, as many
    as it reports; a conversion goes character by character. *)
Class WinLaws (W : Type) `{!Win W} := {
  shown : Z → W → wide;
  wl_mb us b : Forall utf8 us → mb (W := W) (mjoin us ++ b) = mb (W := W) (mjoin us) ++ mb (W := W) b;
  wl_mb_nil : mb (W := W) [] = [];
  wl_malloc h w : shown h (w_malloc w).2 = shown h w;
  wl_free h w : shown h (w_free w).2 = shown h w;
  wl_write h c w r w' : w_write_console h c w = (r, w') → (∀ h', h' ≠ h → shown h' w' = shown h' w) ∧
    match r with None => shown h w' = shown h w | Some k => 0 <= k <= len c ∧ shown h w' = shown h w ++ take (Z.to_nat k) c end }.

Module U8Spec.
Import U8.
Section Spec.
Context {W : Type} `{!Win W}.
Notation St := (U8st * W)%type.
Implicit Types (s : St) (w : W).

(** *** Memory and errno *)

(** The allocations that are live, and a value of the state that allocation
    does not touch. *)
Definition rest (s : U8st) := (g_env s, next_addr s, held_out s, held_err s).

Lemma wp_u8_upd f (Q : () → St → Prop) s : Q () (f s.1, s.2) → wp (upd f) Q s.
Proof. done. Qed.

Lemma wp_malloc (Q : bool → St → Prop) s :
  (∀ ok s', allocs s'.1 = allocs s.1 + (if ok : bool then 1 else 0) → rest s'.1 = rest s.1 → errno s'.1 = errno s.1 →
    s'.2 = (w_malloc s.2).2 → ok = (w_malloc s.2).1 → Q ok s') → wp malloc Q s.
Proof.
  intros H. unfold malloc. apply wp_bind, wp_lower, wp_call. destruct (w_malloc s.2) as [[|] w'] eqn:E; cbn [fst snd]; apply wp_bind.
  - apply wp_u8_upd, wp_ret, H; try done; by rewrite E.
  - apply wp_ret, wp_ret, H; try done; by rewrite ?Z.add_0_r, ?E.
Qed.

Lemma wp_free (Q : () → St → Prop) s :
  (∀ s', allocs s'.1 = allocs s.1 - 1 → rest s'.1 = rest s.1 → s'.2 = (w_free s.2).2 → Q () s') → wp free Q s.
Proof.
  intros H. unfold free. apply wp_bind, wp_lower, wp_call, wp_bind, wp_u8_upd. destruct (w_free s.2) as [[e|] w'] eqn:E; cbn [fst snd].
  - apply wp_u8_upd, H; try done; by rewrite E.
  - apply wp_ret, H; try done; by rewrite E.
Qed.

(** A conversion gives the text with one live allocation, or says why not. *)
Lemma wp_to_u16 p (Q : option wide → St → Prop) s :
  (∀ s' e, allocs s'.1 = allocs s.1 → rest s'.1 = rest s.1 → errno s'.1 = e → (e = EILSEQ ∧ mb_strict (W := W) p = None ∨ e = ENOMEM) → Q None s') →
  (∀ s' u, mb_strict (W := W) p = Some u → allocs s'.1 = allocs s.1 + 1 → rest s'.1 = rest s.1 → Q (Some u) s') →
  wp (anyfs_u8_to_u16 p) Q s.
Proof.
  intros H0 H1. unfold anyfs_u8_to_u16. destruct (mb_strict p) as [u|] eqn:E; [|apply wp_bind, wp_u8_upd, wp_ret; eapply H0; try done; by left].
  apply wp_bind, wp_malloc. intros [|] s' Ha Hr He _ _; [by apply wp_ret, H1|]. apply wp_bind, wp_u8_upd, wp_ret. eapply H0; cbn; [lia|done|done|by right].
Qed.

(** The answer of a wrapper: the call was not made, or errno and the value are
    the call's; no conversion stays allocated. *)
Definition crossed {A} (p : bytes) (fail : A) (f : wide → kcall W (A * Z)) s (r : A) s' : Prop :=
  allocs s'.1 = allocs s.1 ∧ rest s'.1 = rest s.1 ∧
  (r = fail ∧ (errno s'.1 = EILSEQ ∧ mb_strict (W := W) p = None ∨ errno s'.1 = ENOMEM) ∨
   ∃ u x, mb_strict (W := W) p = Some u ∧ (f u x).1 = (r, errno s'.1)).

Lemma wp_u8_sys {A} (f : kcall W (A * Z)) (Q : A → St → Prop) s :
  (∀ s', allocs s'.1 = allocs s.1 → rest s'.1 = rest s.1 → errno s'.1 = (f s.2).1.2 → Q (f s.2).1.1 s') → wp (sys f) Q s.
Proof. intros H. unfold sys. apply wp_bind, wp_lower, wp_call, wp_bind, wp_u8_upd, wp_ret. by apply H. Qed.

Lemma wp_crossed {A} p (fail : A) (f : wide → kcall W (A * Z)) s :
  wp (wide_or p fail (λ u, r ← sys (f u); _ ← free_keeping_errno; mret r)) (λ r, crossed p fail f s r) s.
Proof.
  unfold wide_or. apply wp_bind, wp_to_u16.
  - intros s' e Ha Hr He Hw. apply wp_ret. split_and!; [done..|]. left. split; [done|]. rewrite He. naive_solver.
  - intros s1 u Hu Ha Hr. apply wp_bind, wp_u8_sys. intros s2 Ha2 Hr2 He2. apply wp_bind. unfold free_keeping_errno.
    apply wp_bind, wp_gets, wp_bind, wp_free. intros s3 Ha3 Hr3 _. apply wp_u8_upd, wp_ret. split_and!; [cbn; lia|exact (eq_trans Hr3 (eq_trans Hr2 Hr))|].
    right. exists u, s1.2. split; [done|]. cbn. rewrite He2. by destruct (f u s1.2) as [[??]?].
Qed.

Lemma wp_u8_open p flags mode s :
  wp (anyfs_u8_open p flags mode) (λ r, crossed p (-1) (λ u, w_open u flags (if flag flags O_CREAT then mode else 0)) s r) s.
Proof. apply wp_crossed. Qed.

(** *** Temporary names *)

Lemma draw_shape k seed : length (draw k seed).1 = k ∧ Forall (λ c, c ∈ chars) (draw k seed).1.
Proof.
  revert seed. induction k as [|k IH]; intros seed; cbn [draw fst]; [by split|]. destruct (IH (next_seed seed)) as [Hl Hf].
  split; [by cbn; rewrite Hl|]. constructor; [|done]. set (n := Z.shiftr (next_seed seed) 33 mod 36).
  assert (Hn : (Z.to_nat n < length chars)%nat) by (change (length chars) with 36%nat; unfold n; pose proof (Z.mod_pos_bound (Z.shiftr (next_seed seed) 33) 36); lia).
  destruct (lookup_lt_is_Some_2 _ _ Hn) as [c Hc]. rewrite Hc. by eapply list_elem_of_lookup_2.
Qed.

(** The name that is left: the prefix, then six characters of the set once a
    name has been tried. *)
Definition temp_name (prefix : bytes) (name : bytes) : Prop := ∃ d, name = prefix ++ d ∧ length d = 6%nat ∧ Forall (λ c, c ∈ chars) d.

Lemma wp_mkstemp_loop t prefix tmpl seed s : (t = 0%nat → temp_name prefix tmpl) →
  wp (mkstemp_loop t prefix tmpl seed) (λ r s', allocs s'.1 = allocs s.1 ∧ rest s'.1 = rest s.1 ∧ temp_name prefix r.2 ∧
    (0 <= r.1 → ∃ u x, mb_strict (W := W) r.2 = Some u ∧ (w_open u O_TEMP 0x180 x).1.1 = r.1)) s.
Proof.
  revert tmpl seed s. induction t as [|t IH]; intros tmpl seed s Ht; cbn [mkstemp_loop].
  { apply wp_bind, wp_u8_upd, wp_ret. split_and!; [done..|by apply Ht|cbn; lia]. }
  destruct (draw_shape 6 seed) as [Hl Hf]. assert (Hn : temp_name prefix (prefix ++ (draw 6 seed).1)) by (eexists; by split).
  apply wp_bind. wp_use wp_u8_open. intros fd s1 (Ha & Hr & Hx). apply wp_bind, wp_gets. case_if.
  - apply wp_ret. split_and!; [done..|]. cbn [fst snd]. intros Hfd. destruct Hx as [[-> _]|(u & x & Hu & Ex)]; [lia|]. exists u, x. split; [done|].
    change (flag O_TEMP O_CREAT) with true in Ex. by rewrite Ex.
  - wp_use IH; [done|]. intros r s2 (Ha2 & Hr2 & Hn2 & Hx2). split_and!; [congruence..|done|done].
Qed.

(** *** The environment *)

(** Entries are distinct, so are the addresses, and the next is free. *)
Record env_ok (s : U8st) : Prop := {
  eo_pairs : NoDup ((λ e, (e_name e, e_value e)) <$> g_env s);
  eo_addrs : NoDup (e_addr <$> g_env s);
  eo_next : Forall (λ e, e_addr e < next_addr s) (g_env s) }.

Lemma env_ok_rest (s s' : U8st) : rest s' = rest s → env_ok s → env_ok s'.
Proof. unfold rest. intros [= E1 E2 E3 E4] [H1 H2 H3]. split; rewrite E1, ?E2; done. Qed.

Lemma env_ok_add n v (s : U8st) : env_ok s → list_find (λ e, e_name e = n ∧ e_value e = v) (g_env s) = None → env_ok (add_env (mk_env n v (next_addr s)) s).
Proof.
  intros [H1 H2 H3] Hf. apply list_find_None in Hf. split; cbn [g_env add_env next_addr].
  - rewrite fmap_cons. constructor; [|done]. cbn [e_name e_value]. intros (e & [= -> ->] & He)%list_elem_of_fmap. rewrite Forall_forall in Hf. by apply (Hf e).
  - rewrite fmap_cons. constructor; [|done]. cbn [e_addr]. intros (e & E & He)%list_elem_of_fmap. rewrite Forall_forall in H3. specialize (H3 e He). lia.
  - constructor; [cbn; lia|]. eapply Forall_impl; [exact H3|]. intros e He. cbn in *. lia.
Qed.

(** What getenv leaves: no entry is lost and every allocation belongs to an
    entry; a value returned is that of an entry of the name. *)
Definition got (n : bytes) s (r : option (Z * bytes)) s' : Prop :=
  env_ok s'.1 ∧ (∃ l, g_env s'.1 = l ++ g_env s.1 ∧ (length l <= 1)%nat) ∧
  allocs s'.1 - 3 * len (g_env s'.1) = allocs s.1 - 3 * len (g_env s.1) ∧
  match r with
  | None => True
  | Some (a, v) => mk_env n v a ∈ g_env s'.1 ∧
      ∃ u uv x, mb_strict (W := W) n = Some u ∧ w_getenv u x = Some uv ∧ wc_strict (W := W) uv = Some v
  end.

Lemma got_none n s s' : env_ok s.1 → rest s'.1 = rest s.1 → allocs s'.1 = allocs s.1 → got n s None s'.
Proof.
  intros Ho Hr Ha. split_and!; [by eapply env_ok_rest| | |done]; unfold rest in Hr; injection Hr as E1 E2 E3 E4; rewrite E1; [exists []; split; [done|cbn; lia]|lia].
Qed.

Lemma wp_from_u16 p (Q : option bytes → St → Prop) s :
  (∀ s', allocs s'.1 = allocs s.1 → rest s'.1 = rest s.1 → Q None s') →
  (∀ s' u, wc_strict (W := W) p = Some u → allocs s'.1 = allocs s.1 + 1 → rest s'.1 = rest s.1 → Q (Some u) s') →
  wp (anyfs_u16_to_u8 p) Q s.
Proof.
  intros H0 H1. unfold anyfs_u16_to_u8. destruct (wc_strict p) as [u|] eqn:E; [|by apply wp_bind, wp_u8_upd, wp_ret, H0].
  apply wp_bind, wp_malloc. intros [|] s' Ha Hr _ _ _; [by apply wp_ret, H1|]. apply wp_bind, wp_u8_upd, wp_ret, H0; cbn; [lia|done].
Qed.

Lemma wp_getenv n s : env_ok s.1 → wp (anyfs_u8_getenv n) (λ r, got n s r) s.
Proof.
  intros Ho. unfold anyfs_u8_getenv. apply wp_bind, wp_to_u16; [intros s1 e Ha Hr _ _; by apply wp_ret, got_none|].
  intros s1 u Hu Ha1 Hr1. apply wp_bind, wp_gets. set (x := s1.2). destruct (w_getenv u x) as [uv|] eqn:Ev.
  2: { apply wp_bind, wp_free. intros s2 Ha2 Hr2 _. apply wp_ret, got_none; [done|congruence|lia]. }
  apply wp_bind, wp_free. intros s2 Ha2 Hr2 _. apply wp_bind, wp_from_u16.
  { intros s3 Ha3 Hr3. apply wp_ret, got_none; [done|congruence|lia]. }
  intros s3 v Hv Ha3 Hr3. assert (Er : rest s3.1 = rest s.1) by congruence. apply wp_bind, wp_gets.
  destruct (list_find _ (g_env s3.1)) as [[i e]|] eqn:Ef.
  - apply wp_bind, wp_free. intros s4 Ha4 Hr4 _. apply wp_ret. destruct (got_none n s s4 Ho ltac:(congruence) ltac:(lia)) as (G1 & G2 & G3 & _).
    apply list_find_Some in Ef as (Hi & [En Evv] & _). split_and!; [done..| |exists u, uv, x; split_and!; congruence].
    assert (Eg : g_env s4.1 = g_env s3.1) by (unfold rest in Hr4; congruence). rewrite Eg, <- En. destruct e. cbn [e_name e_value e_addr]. by eapply list_elem_of_lookup_2.
  - apply wp_bind, wp_malloc. intros oke s4 Ha4 Hr4 _ _ _. apply wp_bind, wp_malloc. intros okn s5 Ha5 Hr5 _ _ _.
    assert (E5 : rest s5.1 = rest s.1) by congruence. assert (Eg : g_env s5.1 = g_env s.1 ∧ g_env s5.1 = g_env s3.1) by (unfold rest in *; split; congruence).
    destruct Eg as [Eg Eg3]. destruct oke, okn; cbn [andb].
    + apply wp_bind, wp_gets, wp_bind, wp_u8_upd, wp_ret. assert (Ho5 : env_ok s5.1) by (by eapply env_ok_rest).
      split; [by apply env_ok_add; [|rewrite Eg3]|]. cbn [fst g_env add_env allocs]. rewrite Eg. split_and!.
      * by exists [mk_env n v (next_addr s5.1)].
      * cbn [length]. lia.
      * by left.
      * exists u, uv, x. by split_and!.
    + apply wp_bind, wp_free. intros s6 Ha6 Hr6 _. apply wp_bind, wp_ret, wp_bind, wp_free. intros s7 Ha7 Hr7 _. apply wp_ret, got_none; [done|congruence|lia].
    + apply wp_bind, wp_ret, wp_bind, wp_free. intros s6 Ha6 Hr6 _. apply wp_bind, wp_free. intros s7 Ha7 Hr7 _. apply wp_ret, got_none; [done|congruence|lia].
    + apply wp_bind, wp_ret, wp_bind, wp_ret, wp_bind, wp_free. intros s6 Ha6 Hr6 _. apply wp_ret, got_none; [done|congruence|lia].
Qed.
End Spec.

(** *** The console *)
Section Console.
Context {W : Type} `{!Win W, !WinLaws W}.
Notation St := (U8st * W)%type.
Implicit Types (s : St) (w : W).

(** The console takes some of every call, and there is memory. *)
Definition console_works (h : Z) : Prop := ∀ c w, c ≠ [] → ∃ k, (w_write_console h c w).1 = Some k ∧ k ≠ 0.
Definition memory : Prop := ∀ w, (w_malloc w).1 = true.

Lemma wp_emit h fuel u w : console_works h → (length u <= fuel)%nat → wp (emit fuel h u) (λ _ w', shown h w' = shown h w ++ u) w.
Proof.
  intros Hc. revert u w. induction fuel as [|f IH]; intros u w Hf.
  { destruct u; [|cbn in Hf; lia]. cbn. by rewrite app_nil_r. }
  destruct u as [|a u]; [cbn; by rewrite app_nil_r|]. set (x := a :: u) in *. cbn [emit]. change (a :: u) with x.
  pose proof (chunk_len_bounds x ltac:(done)) as Hb. set (c := take (Z.to_nat (chunk_len x)) x).
  assert (Hcl : length c = Z.to_nat (chunk_len x)) by (unfold c; rewrite length_take; lia).
  apply wp_bind, wp_call. destruct (Hc c w) as (k & Hk & Hk0); [intros E; rewrite E in Hcl; cbn in Hcl; lia|].
  destruct (w_write_console h c w) as [r w'] eqn:E. cbn [fst snd] in *. subst r. destruct (wl_write _ _ _ _ _ E) as (_ & Hk1 & Hs).
  rewrite (proj2 (Z.eqb_neq k 0)) by done. wp_use IH; [rewrite length_drop; lia|]. intros _ w2 H2. cbv beta in H2. rewrite H2, Hs, <- app_assoc. f_equal.
  unfold c. rewrite take_take, Nat.min_l by lia. apply take_drop.
Qed.

(** The text seen so far is whole characters and a part of one. *)
Lemma wp_write_console i h t us s x : memory → console_works h → Forall utf8 us → partial t → held i s.1 ++ x = mjoin us ++ t → len (mjoin us) < 2 ^ 31 →
  wp (write_console i h x) (λ _ s', shown h s'.2 = shown h s.2 ++ mb (W := W) (mjoin us) ∧ held i s'.1 = t ∧
    held (negb i) s'.1 = held (negb i) s.1 ∧ allocs s'.1 = allocs s.1) s.
Proof.
  intros Hm Hc Hus Ht Eb Hlen. unfold write_console. apply wp_bind, wp_gets, wp_bind, wp_malloc. intros ok s1 Ha1 Hr1 _ Hs1 ->. rewrite Hm in *. cbn [negb].
  rewrite Eb, complete_prefix_units by done. destruct (Z.leb_spec (2 ^ 31) (len (mjoin us))); [lia|].
  rewrite drop_app_length, take_app_length. apply wp_bind, wp_u8_upd, wp_bind.
  set (u := if (0 <? length (mjoin us))%nat then mb (W := W) (mjoin us) else []).
  assert (Eu : u = mb (W := W) (mjoin us)).
  { unfold u. destruct (Nat.ltb_spec 0 (length (mjoin us))); [done|]. destruct (mjoin us); [by rewrite wl_mb_nil|cbn in *; lia]. }
  assert (Hh : held i (set_held i t s1.1) = t ∧ held (negb i) (set_held i t s1.1) = held (negb i) s.1)
    by (unfold rest in Hr1; injection Hr1 as _ _ E3 E4; unfold held; destruct i; cbn; done).
  assert (Hend : ∀ s2, rest s2.1 = rest (set_held i t s1.1) → allocs s2.1 = allocs s1.1 → shown h s2.2 = shown h s.2 ++ u →
    wp free (λ _ s', shown h s'.2 = shown h s.2 ++ mb (W := W) (mjoin us) ∧ held i s'.1 = t ∧ held (negb i) s'.1 = held (negb i) s.1 ∧ allocs s'.1 = allocs s.1) s2).
  { intros s2 Hr2 Ha2 Hs2. apply wp_free. intros s3 Ha3 Hr3 Hs3. rewrite Hs3, wl_free, Hs2, Eu. split; [done|]. rewrite <- (proj1 Hh), <- (proj2 Hh).
    rewrite Hr2 in Hr3. unfold rest in Hr3. injection Hr3 as _ _ E3 E4. unfold held. cbn [held_out held_err set_held] in *. rewrite E3, E4.
    split_and!; [by destruct i|by destruct i|lia]. }
  assert (Hsh : shown h s1.2 = shown h s.2) by (by rewrite Hs1, wl_malloc).
  destruct (Nat.ltb_spec 0 (length u)).
  - apply wp_bind, wp_malloc. intros ok2 s2 Ha2 Hr2 _ Hs2 ->. cbn [fst snd] in *. rewrite Hm in *. apply wp_bind, wp_lower. wp_use wp_emit; [done|lia|]. intros _ w3 H3.
    cbv beta in H3. apply wp_free. intros s4 Ha4 Hr4 Hs4. apply Hend; [by rewrite Hr4|cbn in *; lia|]. rewrite Hs4, wl_free. cbn [snd]. by rewrite H3, Hs2, wl_malloc, Hsh.
  - apply wp_ret, Hend; [done..|]. cbn [snd]. destruct u; [by rewrite app_nil_r|cbn in *; lia].
Qed.

Lemma wp_console_writes i h ws t us s : memory → console_works h → Forall utf8 us → partial t → partial (held i s.1) →
  held i s.1 ++ mjoin ws = mjoin us ++ t → len (mjoin us) < 2 ^ 31 →
  wp (mfor ws (write_console i h)) (λ _ s', shown h s'.2 = shown h s.2 ++ mb (W := W) (mjoin us) ∧ held i s'.1 = t ∧ allocs s'.1 = allocs s.1) s.
Proof.
  intros Hm Hc Hus Ht Hp E Hlen. revert us s Hus Hp E Hlen. induction ws as [|x ws IH]; intros us s Hus Hp E Hlen; cbn [mfor].
  { cbn in E. rewrite app_nil_r in E. assert (us = []) as ->.
    { pose proof (complete_prefix_units us t Hus Ht) as H1. rewrite <- E in H1.
      pose proof (complete_prefix_units [] (held i s.1) (Forall_nil_2 _) Hp) as H0. change (mjoin [] ++ held i s.1) with (held i s.1) in H0. rewrite H0 in H1. cbn [mjoin list_join length] in H1.
      destruct Hus as [|u us Hu _]; [done|]. rewrite join_cons, length_app in H1. pose proof (utf8_length u Hu). lia. }
    cbn in *. rewrite wl_mb_nil, app_nil_r. done. }
  rewrite join_cons, app_assoc in E. destruct (cut_units us t (held i s.1 ++ x) (mjoin ws) Hus Ht E) as (us1 & us2 & t1 & -> & E1 & E2 & Hp1).
  apply Forall_app in Hus as [Hu1 Hu2]. rewrite join_app, length_app in Hlen. apply wp_bind. wp_use (wp_write_console i h t1 us1 s x); [done..|lia|].
  intros ? s1 (Hs1 & Hh1 & _ & Ha1). wp_use (IH us2 s1); [done|by rewrite Hh1|by rewrite Hh1|lia|]. intros _ s2 (Hs2 & Hh2 & Ha2).
  rewrite Hs2, Hs1, join_app, wl_mb by done. rewrite app_assoc. split_and!; [done..|congruence].
Qed.
End Console.

(** ** A concrete Windows

    A console that takes at most [room] units of a call; strict conversions
    know ASCII, the other shows every byte as one unit. *)
Record toyw := mk_toyw { tw_shown : gmap Z wide; tw_env : list (wide * wide) }.
Definition ascii (l : list Z) : bool := forallb (λ c, (0 <? c) && (c <? 128)) l.

Definition toy_win (room : Z) : Win toyw := {|
  mb_strict s := if ascii s then Some s else None;
  wc_strict s := if ascii s then Some s else None;
  mb s := s;
  w_malloc w := (true, w);
  w_free w := (Some (5, 5), w);
  w_open p f m w := ((3, 0), w);
  w_fopen p m w := ((Some 1, 0), w);
  w_stat p w := ((-1, mk_wstat 0 0 0 0 0 0 0 0 0 0 0, 2), w);
  w_access p m w := ((-1, 13), w);
  w_unlink p w := ((0, 0), w);
  w_getenv n w := snd <$> (snd <$> list_find (λ e, e.1 = n) (tw_env w));
  w_seed w := (42, w);
  w_create_file p a s d t w := ((7, 0), w);
  w_temp_path w := ((3, bs "C:/"), w);
  w_temp_name d w := (None, w);
  w_delete p w := ((), w);
  w_console f w := (Some f, w);
  w_write_console h c w := let k := Z.to_nat (Z.max 1 room) in (Some (len (take k c)), mk_toyw (<[h := default [] (tw_shown w !! h) ++ take k c]> (tw_shown w)) (tw_env w));
  w_raw_write f b w := (0, w);
  w_strerror e := bs "error" |}.

Definition toy_win_laws room : @WinLaws toyw (toy_win room).
Proof.
  refine {| shown := λ h w, default [] (tw_shown w !! h) |}; try done.
  intros h c w r w' [= <- <-]. cbn [tw_shown]. split; [intros h' Hn; by rewrite lookup_insert_ne|]. rewrite lookup_insert_eq. cbn [default].
  rewrite length_take, Nat2Z.id. split; [lia|]. f_equal. destruct (Nat.le_gt_cases (Z.to_nat (Z.max 1 room)) (length c)); [by rewrite Nat.min_l by lia|].
  rewrite Nat.min_r, !take_ge by lia. done.
Defined.

Lemma toy_works room h : @console_works toyw (toy_win room) h.
Proof. intros c w Hc. eexists. split; [done|]. rewrite length_take. destruct c; [done|]. cbn [length]. lia. Qed.

Definition u8_0 : U8st := mk_u8 0 0 0 [] 0 [] [].
Definition win0 : toyw := mk_toyw ∅ [(bs "HOME", bs "C:/u")].

(** ** Properties *)

(** C39 Text for a console is shown whole however it is cut into writes: when
    the pieces together are characters of UTF-8, the console shows exactly the
    conversion of the whole text (a sequence cut by a write is held back and
    completed by the next one, nothing is replaced and nothing is lost), no byte
    stays held and no memory stays allocated, even if the console takes only a
    part of a call. Memory can be allocated, each call of the console takes at
    least one unit, and the text is below 2^31 bytes. *)
Theorem console_text {W} `{!Win W, !WinLaws W} i h ws us (s : U8st * W) :
  memory → console_works h → Forall utf8 us → mjoin ws = mjoin us → held i s.1 = [] → len (mjoin us) < 2 ^ 31 →
  wp (mfor ws (write_console i h)) (λ _ s', shown h s'.2 = shown h s.2 ++ mb (W := W) (mjoin us) ∧ held i s'.1 = [] ∧ allocs s'.1 = allocs s.1) s.
Proof.
  intros Hm Hc Hus E Hh Hlen. apply wp_console_writes; try done; [apply partial_nil|rewrite Hh; apply partial_nil|]. by rewrite Hh, app_nil_r.
Qed.

(** The euro sign and an emoji, byte by byte. *)
Definition sample : list bytes := [[0x41; 0xE2]; [0x82]; [0xAC; 0xF0; 0x9F]; []; [0x98]; [0x80]].

Lemma console_text_witness :
  wp (S := U8st * toyw) (mfor sample (write_console (Win0 := toy_win 2) false 1))
    (λ _ s', default [] (tw_shown s'.2 !! 1) = [0x41; 0xE2; 0x82; 0xAC; 0xF0; 0x9F; 0x98; 0x80] ∧ held false s'.1 = [] ∧ allocs s'.1 = 0) (u8_0, win0).
Proof.
  refine (@console_text toyw (toy_win 2) (toy_win_laws 2) false 1 sample [[0x41]; [0xE2; 0x82; 0xAC]; [0xF0; 0x9F; 0x98; 0x80]] (u8_0, win0) _ _ _ _ _ _);
    [done|apply toy_works|repeat constructor; lia|reflexivity|reflexivity|cbn; lia].
Defined.

(** A file call across the boundary: it is made with the exact conversion
    of the path, and the caller sees its value and its errno although memory
    is freed in between; a path that is not UTF-8 is refused with EILSEQ
    instead of being mangled.  Nothing stays allocated on any path. *)
Theorem u8_calls_cross {W} `{!Win W} path flags mode (s : U8st * W) :
  wp (anyfs_u8_open path flags mode) (λ r, crossed path (-1) (λ u, w_open u flags (if flag flags O_CREAT then mode else 0)) s r) s ∧
  wp (anyfs_u8_access path mode) (λ r, crossed path (-1) (λ u, w_access u (Z.land mode (Z.lnot 1))) s r) s ∧
  wp (anyfs_u8_unlink path) (λ r, crossed path (-1) (λ u, w_unlink u) s r) s.
Proof. split_and!; apply wp_crossed. Qed.

(** getenv keeps what it hands out: the entries are distinct, no entry is
    ever removed or changed, so a pointer stays valid; a second call with the
    same value returns the same pointer instead of growing the list, and every
    allocation that stays belongs to an entry. *)
Theorem getenv_stable {W} `{!Win W} n (s : U8st * W) : env_ok s.1 → wp (anyfs_u8_getenv n) (λ r s', got n s r s') s.
Proof. apply wp_getenv. Qed.

Lemma getenv_stable_witness :
  wp (S := U8st * toyw) (anyfs_u8_getenv (Win0 := toy_win 1) (bs "HOME")) (λ r s', got (Win0 := toy_win 1) (bs "HOME") (u8_0, win0) r s') (u8_0, win0).
Proof. refine (@getenv_stable toyw (toy_win 1) (bs "HOME") (u8_0, win0) _). split; constructor. Defined.

Example getenv_toy :
  fst <$> (a ← anyfs_u8_getenv (Win0 := toy_win 1) (bs "HOME"); b ← anyfs_u8_getenv (Win0 := toy_win 1) (bs "HOME"); mret (a, b)) (u8_0, win0) =
  Some (Some (0, bs "C:/u"), Some (0, bs "C:/u")).
Proof. vm_compute. reflexivity. Qed.

(** mkstemp: a template without its six X is refused unchanged; otherwise the
    name that is left is the template's prefix and six letters or digits, and
    a descriptor is that of an exclusive creation of that name. *)
Lemma mkstemp_names {W} `{!Win W} tmpl (s : U8st * W) :
  wp (anyfs_u8_mkstemp tmpl) (λ r s', allocs s'.1 = allocs s.1 ∧
    (r = (-1, tmpl) ∧ errno s'.1 = EINVAL ∨
     temp_name (take (length tmpl - 6) tmpl) r.2 ∧ (0 <= r.1 → ∃ u x, mb_strict (W := W) r.2 = Some u ∧ (w_open u O_TEMP 0x180 x).1.1 = r.1))) s.
Proof.
  unfold anyfs_u8_mkstemp. case_match; [apply wp_bind, wp_u8_upd, wp_ret; split; [done|by left]|]. apply wp_bind, wp_lower, wp_call.
  wp_use wp_mkstemp_loop; [done|]. intros r s' (Ha & _ & Hn & Hx). split; [done|by right].
Qed.

(** The bytes of a sequence that never ends are not shown. *)
Lemma held_tail_lost :
  (λ r, (tw_shown r.2.2 !! 1, held false r.2.1)) <$> anyfs_u8_fputs (Win0 := toy_win 9) [0x41; 0xE2; 0x82] 1 (u8_0, win0) = Some (Some [0x41], [0xE2; 0x82]).
Proof. vm_compute. reflexivity. Qed.
End U8Spec.
