(* ===== verification/WinHost.v ===== *)
(** * WinHost

    The Windows halves of the core: src/core/raw_backend.c over the file
    handles of Windows, win_device_path of src/core/anyfs_backend.c, and wmain
    of src/win32/anyfs_u8_main.c.  The calls on handles are a class over an
    arbitrary state; paths cross the boundary as in U8. *)
From S2P Require Import Prelude CLib Lkl Raw U8.
Import CLib Raw U8.

(** [ReadFile] gives the bytes read and [WriteFile] their number, [None] when
    the call fails; [disk_length] is IOCTL_DISK_GET_LENGTH_INFO. *)
Class WinIO (W : Type) := {
  ReadFile : Z → Z → Z → kcall W (option bytes);
  WriteFile : Z → bytes → Z → kcall W (option Z);
  FlushFileBuffers : Z → kcall W bool;
  GetFileSizeEx : Z → kcall W (option Z);
  disk_length : Z → kcall W (option Z);
  CloseHandle : Z → kcall W ();
  ctx_calloc : kcall W bool }.

(** Handles with the path they are open on and whether they may write, and the
    bytes behind each path. *)
Class WinIOLaws (W : Type) `{!Win W, !WinIO W} := {
  wv : W → IoView;
  wi_malloc w : wv (w_malloc w).2 = wv w;
  wi_free w : wv (w_free w).2 = wv w;
  wi_create p a s d t w h e w' : w_create_file p a s d t w = ((h, e), w') →
    (h = U8.INVALID_HANDLE_VALUE ∧ wv w' = wv w) ∨
    (0 <= h ∧ io_fds (wv w) !! h = None ∧ wv w' = mk_io (<[h := (p, flag a 0x40000000)]> (io_fds (wv w))) (io_data (wv w)));
  wi_read h n off w r w' : ReadFile h n off w = (r, w') → wv w' = wv w ∧
    ∀ d, r = Some d → len d <= n ∧ ∀ c, file_of (wv w) h = Some c → d = take (length d) (drop (Z.to_nat off) c);
  wi_write h b off w r w' : WriteFile h b off w = (r, w') →
    (r = None ∧ wv w' = wv w) ∨
    (∃ k p c, r = Some k ∧ 0 <= k <= len b ∧ io_fds (wv w) !! h = Some (p, true) ∧ io_data (wv w) !! p = Some c ∧
       wv w' = mk_io (io_fds (wv w)) (<[p := splice (Z.to_nat off) (take (Z.to_nat k) b) c]> (io_data (wv w))));
  wi_flush h w : wv (FlushFileBuffers h w).2 = wv w;
  wi_size h w r w' : GetFileSizeEx h w = (r, w') → wv w' = wv w ∧ ∀ n d, r = Some n → file_of (wv w) h = Some d → n = len d;
  wi_length h w r w' : disk_length h w = (r, w') → wv w' = wv w ∧ ∀ n d, r = Some n → file_of (wv w) h = Some d → n = len d;
  wi_close h w : wv (CloseHandle h w).2 = mk_io (delete h (io_fds (wv w))) (io_data (wv w));
  wi_calloc w : wv (ctx_calloc w).2 = wv w }.

Module WinHost.

(** ** Device paths *)

Definition to_lower (c : Z) : Z := if (65 <=? c) && (c <=? 90) then c + 32 else c.
(** _strnicmp(s, lit, strlen(lit)) == 0 *)
Definition strnicmp (s lit : bytes) : bool := bool_decide (to_lower <$> take (length lit) s = to_lower <$> lit).

(** strtoul where unsigned long has 32 bits. *)
Definition strtoul32 (s : bytes) : Z * bytes :=
  let '(neg, t) := sign (skip_space s) in
  let '(v, n, r) := digits 0 0 t in
  if Nat.eqb n 0 then (0, s)
  else if 2 ^ 32 <=? v then (2 ^ 32 - 1, r)
  else ((if neg then u32 (- v) else v), r).

Definition is_sep (c : Z) : bool := (c =? 92) || (c =? 47).
Definition DEVICE : bytes := [92; 92; 46; 92].   (* \\.\ *)
Definition VERBATIM : bytes := [92; 92; 63; 92]. (* \\?\ *)

(** The path for Windows, [None] when [path] is fine as it is; [len_] is the
    size of the buffer. *)
Definition win_device_path (path : bytes) (len_ : Z) : option bytes :=
  if negb (starts_with DEVICE path) && negb (starts_with VERBATIM path) && negb (starts_with (bs "//./") path) then None
  else
    let p := drop 4 path in
    if strnicmp p (bs "PhysicalDrive") then
      let '(disk, e) := strtoul32 (drop 13 p) in
      if bool_decide (e = drop 13 p) then None
      else match e with
           | c :: e =>
               if is_sep c && strnicmp e (bs "Partition") then
                 let q := drop 9 e in
                 let '(part, e) := strtoul32 q in
                 if bool_decide (e = q) || negb (bool_decide (e = [])) then None
                 else Some (snprintf len_ (DEVICE ++ bs "Harddisk" ++ fmt_u disk ++ bs "Partition" ++ fmt_u part)).2
               else None
           | [] => None
           end
    else if strnicmp p (bs "Volume{") then
      let n := match last p with Some c => if is_sep c then (length p - 1)%nat else length p | None => length p end in
      Some (snprintf len_ (DEVICE ++ take n p)).2
    else None.

(** ** The raw backend *)
Definition GENERIC_READ : Z := 0x80000000.
Definition GENERIC_WRITE : Z := 0x40000000.
Definition FILE_SHARE_READ : Z := 1.
Definition FILE_SHARE_WRITE : Z := 2.
Definition OPEN_EXISTING : Z := 3.
Definition FILE_ATTRIBUTE_NORMAL : Z := 0x80.
Definition ERROR_ACCESS_DENIED : Z := 5.

(** struct raw_blk_ctx *)
Record win_ctx := mk_wctx { hFile : Z; w_capacity : Z }.
Definition raw_get_capacity (ctx : win_ctx) : Z * Z := (0, w_capacity ctx).

Section Code.
Context {W : Type} `{!WinIO W}.

(** The length of a buffer is a DWORD for the call. *)
Fixpoint request_loop (h ty offset : Z) (buf : list bytes) : M W (Z * list bytes) :=
  match buf with
  | [] => mret (LKL_DEV_BLK_STATUS_OK, [])
  | b :: rest =>
      if ty =? LKL_DEV_BLK_TYPE_READ then
        r ← call (ReadFile h (u32 (len b)) (u64 offset));
        match r with
        | None => mret (LKL_DEV_BLK_STATUS_IOERR, b :: rest)
        | Some d => s ← request_loop h ty (advance offset (len b)) rest; mret (s.1, (d ++ drop (length d) b) :: s.2)
        end
      else if ty =? LKL_DEV_BLK_TYPE_WRITE then
        r ← call (WriteFile h (take (Z.to_nat (u32 (len b))) b) (u64 offset));
        match r with
        | None => mret (LKL_DEV_BLK_STATUS_IOERR, b :: rest)
        | Some _ => s ← request_loop h ty (advance offset (len b)) rest; mret (s.1, b :: s.2)
        end
      else if (ty =? LKL_DEV_BLK_TYPE_FLUSH) || (ty =? LKL_DEV_BLK_TYPE_FLUSH_OUT) then
        _ ← call (FlushFileBuffers h); mret (LKL_DEV_BLK_STATUS_OK, b :: rest)
      else mret (LKL_DEV_BLK_STATUS_UNSUP, b :: rest)
  end.

Definition raw_request (ctx : win_ctx) (req : lkl_blk_req) : M W (Z * list bytes) :=
  let s := i64 (rq_sector req) * 512 in
  if (- 2 ^ 63 <=? s) && (s <? 2 ^ 63) then request_loop (hFile ctx) (rq_type req) s (rq_buf req) else mstuck.

Context `{!Win W}.
Notation St := (U8st * W)%type.

Definition raw_blk_open (set_last_error : bytes → M St ()) (path : bytes) (flags : Z) : M St (option win_ctx) :=
  let readonly := flag flags ANYFS_SESSION_READONLY in
  let access := if readonly then GENERIC_READ else Z.lor GENERIC_READ GENERIC_WRITE in
  let device := starts_with DEVICE path in
  let share := if device then Z.lor FILE_SHARE_READ FILE_SHARE_WRITE else FILE_SHARE_READ in
  h ← anyfs_u8_create_file path access share OPEN_EXISTING FILE_ATTRIBUTE_NORMAL;
  if h =? INVALID_HANDLE_VALUE then
    e ← get last_error;
    _ ← set_last_error (bs "cannot open " ++ path ++ bs ": " ++ (if e =? ERROR_ACCESS_DENIED then bs "Access is denied" else bs "open failed") ++
                        bs " (Windows error " ++ fmt_u e ++ bs ")");
    mret None
  else
    size ← lower (call (GetFileSizeEx h));
    size ← (match size with Some n => mret (Some n) | None => lower (call (disk_length h)) end);
    match size with
    | None =>
        e ← get last_error;
        _ ← set_last_error (bs "cannot size " ++ path ++ bs " (Windows error " ++ fmt_u e ++ bs ")");
        _ ← lower (call (CloseHandle h));
        mret None
    | Some n =>
        ok ← lower (call ctx_calloc);
        if (ok : bool) then mret (Some (mk_wctx h (u64 n))) else _ ← lower (call (CloseHandle h)); mret None
    end.

(** The handle is NULL after a first call. *)
Definition raw_blk_destroy (handle : option win_ctx) : M W (option win_ctx) :=
  match handle with Some ctx => _ ← call (CloseHandle (hFile ctx)); mret None | None => mret None end.

(** ** wmain *)

(** The arguments that were converted, or the index of one that is not valid
    Unicode. *)
Fixpoint convert_args (i : Z) (wargv : list wide) : M St (list bytes + Z) :=
  match wargv with
  | [] => mret (inl [])
  | a :: rest =>
      u ← anyfs_u16_to_u8 a;
      match u with
      | None => mret (inr i)
      | Some u => r ← convert_args (i + 1) rest; mret (match r with inl l => inl (u :: l) | inr j => inr j end)
      end
  end.

(** [ok] is whether calloc succeeds, [tool] the main of the tool; its arguments
    are kept until the process ends. *)
Definition wmain (ok : bool) (tool : list bytes → M St Z) (wargv : list wide) : M St Z :=
  if negb ok then mret 2
  else
    r ← convert_args 0 wargv;
    match r with inr _ => mret 2 | inl argv => tool argv end.
End Code.

(** ** Device paths *)

Lemma strnicmp_app lit r : strnicmp (lit ++ r) lit = true.
Proof. unfold strnicmp. rewrite take_app_length. by apply bool_decide_eq_true. Qed.
Lemma strtoul32_fmt_u n r : 0 <= n < 2 ^ 32 → not_digit_head r → strtoul32 (fmt_u n ++ r) = (n, r).
Proof.
  intros Hn Hr. unfold strtoul32. rewrite sign_skip_fmt_u, fmt_u_digits by (done || lia).
  destruct (fmt_u_head n) as (c & l & -> & _); [lia|]. simpl. destruct (Z.leb_spec (2 ^ 32) n); [lia|done].
Qed.
Lemma fmt_u_cons n r : 0 <= n < 2 ^ 32 → bool_decide (r = fmt_u n ++ r) = false.
Proof.
  intros Hn. apply bool_decide_eq_false. intros E%(f_equal length). rewrite length_app in E. destruct (fmt_u_head n) as (c & l & Hc & _); [lia|].
  rewrite Hc in E. cbn in E. lia.
Qed.

Lemma strtoul32_end n : 0 <= n < 2 ^ 32 → strtoul32 (fmt_u n) = (n, []).
Proof. intros Hn. pose proof (strtoul32_fmt_u n [] Hn Logic.I) as E. by rewrite app_nil_r in E. Qed.
Lemma end_cons n : 0 <= n < 2 ^ 32 → bool_decide ([] = fmt_u n) = false.
Proof. intros Hn. pose proof (fmt_u_cons n [] Hn) as E. by rewrite app_nil_r in E. Qed.

(** What the list of drives calls a partition or a volume is turned into the
    name of its device; a whole drive keeps its name. *)
Lemma device_paths disk part guid : 0 <= disk < 2 ^ 32 → 0 <= part < 2 ^ 32 → len guid < 100 → from_option (λ c, negb (is_sep c)) true (last guid) →
  win_device_path (DEVICE ++ bs "PhysicalDrive" ++ fmt_u disk ++ 92 :: bs "Partition" ++ fmt_u part) 128 =
    Some (DEVICE ++ bs "Harddisk" ++ fmt_u disk ++ bs "Partition" ++ fmt_u part) ∧
  win_device_path (DEVICE ++ bs "PhysicalDrive" ++ fmt_u disk) 128 = None ∧
  (∀ tail, tail ∈ [[]; [92]; [47]] → win_device_path (VERBATIM ++ bs "Volume{" ++ guid ++ tail) 128 = Some (DEVICE ++ bs "Volume{" ++ guid)).
Proof.
  intros Hd Hp Hg Hl. split_and!.
  - unfold win_device_path. rewrite starts_with_app. cbn [negb andb]. change (drop 4 (DEVICE ++ ?x)) with x. rewrite strnicmp_app.
    change (drop 13 (bs "PhysicalDrive" ++ ?x)) with x. rewrite strtoul32_fmt_u by done. rewrite fmt_u_cons by done. change (is_sep 92) with true. cbn [andb].
    rewrite strnicmp_app. change (drop 9 (bs "Partition" ++ ?x)) with x. rewrite strtoul32_end, end_cons by done.
    change (bool_decide ([] = [])) with true. cbn [orb negb]. f_equal. apply snprintf_fits.
    pose proof (fmt_u_len32 disk Hd). pose proof (fmt_u_len32 part Hp). rewrite !length_app. change (length DEVICE) with 4%nat.
    change (length (bs "Harddisk")) with 8%nat. change (length (bs "Partition")) with 9%nat. lia.
  - unfold win_device_path. rewrite starts_with_app. cbn [negb andb]. change (drop 4 (DEVICE ++ ?x)) with x. rewrite strnicmp_app.
    change (drop 13 (bs "PhysicalDrive" ++ ?x)) with x. by rewrite strtoul32_end, end_cons by done.
  - intros tail Ht. assert (E : win_device_path (VERBATIM ++ bs "Volume{" ++ guid ++ tail) 128 =
      let p := bs "Volume{" ++ guid ++ tail in
      let n := match last p with Some c => if is_sep c then (length p - 1)%nat else length p | None => length p end in
      Some (snprintf 128 (DEVICE ++ take n p)).2) by done.
    rewrite E. cbv zeta. rewrite app_assoc.
    assert (Hn : ∀ k, k = length (bs "Volume{" ++ guid) → (snprintf 128 (DEVICE ++ take k ((bs "Volume{" ++ guid) ++ tail))).2 = DEVICE ++ bs "Volume{" ++ guid).
    { intros k ->. rewrite take_app_length. apply snprintf_fits. rewrite !length_app. change (length DEVICE) with 4%nat. change (length (bs "Volume{")) with 7%nat. lia. }
    f_equal. apply Hn. rewrite !elem_of_cons in Ht. destruct Ht as [->|[->|[->|[]%not_elem_of_nil]]].
    + rewrite app_nil_r. destruct (last (bs "Volume{" ++ guid)) as [c|] eqn:El; [|done]. rewrite last_app in El. destruct (last guid) as [c'|] eqn:Eg.
      * injection El as ->. cbn in Hl. by destruct (is_sep c).
      * by injection El as <-.
    + rewrite last_snoc. change (is_sep 92) with true. cbn iota. rewrite length_app. cbn [length]. lia.
    + rewrite last_snoc. change (is_sep 47) with true. cbn iota. rewrite length_app. cbn [length]. lia.
Qed.

(** ** The two raw backends *)
Section Posix.
Context {W : Type} `{!Win W, !WinIO W, !WinIOLaws W}.

(** The calls on handles as the calls on descriptors of Raw. *)
Definition posix_pread (h n off : Z) : kcall W (Z * bytes) := λ w,
  if (n <? 0) || (2 ^ 32 <=? n) || (off <? 0) || (2 ^ 63 <=? off) then ((-1, []), w)
  else match ReadFile h (u32 n) (u64 off) w with (Some d, w') => ((len d, d), w') | (None, w') => ((-1, []), w') end.
Definition posix_pwrite (h : Z) (b : bytes) (off : Z) : kcall W Z := λ w,
  if (2 ^ 32 <=? len b) || (off <? 0) || (2 ^ 63 <=? off) then (-1, w)
  else match WriteFile h (take (Z.to_nat (u32 (len b))) b) (u64 off) w with (Some k, w') => (k, w') | (None, w') => (-1, w') end.
Definition posix : HostIO W := {|
  h_open _ _ w := (-1, w);
  h_fstat _ w := (None, w);
  h_getsize64 h := disk_length h;
  h_pread := posix_pread;
  h_pwrite := posix_pwrite;
  h_fsync h w := (0, (FlushFileBuffers h w).2);
  h_close h w := (0, (CloseHandle h w).2);
  h_calloc := ctx_calloc;
  h_error w := ([], w) |}.
#[local] Existing Instance posix.

(** The Windows backend answers as the POSIX one would over those calls. *)
Lemma loop_agrees h ty off buf (w : W) : Forall (λ b, len b < 2 ^ 32) buf → 0 <= off → off + len (mjoin buf) < 2 ^ 63 →
  request_loop h ty off buf w = Raw.request_loop h ty off buf w.
Proof.
  intros Hb. revert off w. induction Hb as [|b buf Hb _ IH]; intros off w H0 H1; [done|]. rewrite join_cons, length_app in H1.
  cbn [request_loop Raw.request_loop]. rewrite !advance_small by lia. assert (IH' := λ w, IH (off + len b) w ltac:(lia) ltac:(lia)).
  destruct (ty =? LKL_DEV_BLK_TYPE_READ).
  - unfold mbind, M_bind, call. cbn [h_pread posix]. unfold posix_pread. rewrite (proj2 (Z.ltb_ge (len b) 0)), (proj2 (Z.leb_gt (2 ^ 32) (len b))), (proj2 (Z.ltb_ge off 0)), (proj2 (Z.leb_gt (2 ^ 63) off)) by lia. cbn [orb].
    destruct (ReadFile h _ _ w) as [[d|] w1]; cbn [fst snd]; [|done]. rewrite (proj2 (Z.ltb_ge (len d) 0)) by lia. by rewrite IH'.
  - destruct (ty =? LKL_DEV_BLK_TYPE_WRITE).
    + unfold mbind, M_bind, call. cbn [h_pwrite posix]. unfold posix_pwrite. rewrite (proj2 (Z.leb_gt (2 ^ 32) (len b))), (proj2 (Z.ltb_ge off 0)), (proj2 (Z.leb_gt (2 ^ 63) off)) by lia. cbn [orb].
      destruct (WriteFile h _ _ w) as [[k|] w1] eqn:E; cbn [fst snd]; [|done].
      apply wi_write in E as [[? _]|(k' & _ & _ & [= <-] & Hk & _)]; [done|]. rewrite (proj2 (Z.ltb_ge k 0)) by lia. by rewrite IH'.
    + destruct (_ || _); [|done]. unfold mbind, M_bind, call. cbn [h_fsync posix]. by destruct (FlushFileBuffers h w).
Qed.
Lemma win_agrees_posix ctx cap req (w : W) : Forall (λ b, len b < 2 ^ 32) (rq_buf req) → 0 <= rq_sector req → rq_sector req * 512 + len (mjoin (rq_buf req)) < 2 ^ 63 →
  raw_request ctx req w = Raw.raw_request (Raw.mk_ctx (hFile ctx) cap) req w.
Proof.
  intros Hb H0 H1. unfold raw_request, Raw.raw_request. rewrite sector_small by lia. destruct (_ && _); [|done]. by apply loop_agrees; [|lia|].
Qed.

(** They have the laws of the POSIX calls, so what Raw proves of its requests
    holds of these. *)
#[local] Instance posix_laws : HostIOLaws W.
Proof.
  refine {| iov := wv |}; cbn [h_open h_fstat h_getsize64 h_pread h_pwrite h_fsync h_close h_calloc h_error posix]; intros.
  - simplify_eq. by left.
  - simplify_eq. split; [done|]. by intros ? ? [=].
  - by eapply wi_length.
  - unfold posix_pread in H. destruct (Z.ltb_spec n 0), (Z.leb_spec (2 ^ 32) n), (Z.ltb_spec off 0), (Z.leb_spec (2 ^ 63) off); cbn [orb] in H; try (simplify_eq; split_and!; [done|done|lia|lia]).
    destruct (ReadFile _ _ _ w) as [[d'|] w1] eqn:E; apply wi_read in E as [Hv Hd]; simplify_eq; [|split_and!; [done|done|lia|lia]].
    destruct (Hd _ eq_refl) as [Hle Hc]. assert (u32 n <= n) by (unfold u32; apply Z.mod_le; lia). split_and!; [done|lia|lia|]. intros _ c Hf.
    rewrite Nat2Z.id. rewrite (u64_small off) in Hc by lia. by apply Hc.
  - unfold posix_pwrite in H. destruct (Z.leb_spec (2 ^ 32) (len b)), (Z.ltb_spec off 0), (Z.leb_spec (2 ^ 63) off); cbn [orb] in H; try (simplify_eq; left; split; [lia|done]).
    destruct (WriteFile _ _ _ w) as [o w1] eqn:E. apply wi_write in E as [[-> Hv]|(k & p & c & -> & Hk & Hf & Hd & Hv)]; simplify_eq; [left; split; [lia|done]|].
    right. rewrite length_take in Hk. split_and!; [lia|lia|lia|]. exists p, c. split_and!; [done|done|]. rewrite Hv, u64_small by lia. do 3 f_equal.
    rewrite take_take. f_equal. lia.
  - apply wi_flush.
  - apply wi_close.
  - apply wi_calloc.
  - done.
Defined.

(** The host does not cut a transfer short, as on a file. *)
Definition full_reads : Prop := ∀ h n off (w : W) d w' c,
  ReadFile h n off w = (Some d, w') → file_of (wv w) h = Some c → 0 <= off → off + n <= len c → len d = n.

Lemma win_read_exact ctx req c (w : W) : full_reads → rq_type req = LKL_DEV_BLK_TYPE_READ → Forall (λ b, len b < 2 ^ 32) (rq_buf req) →
  file_of (wv w) (hFile ctx) = Some c → 0 <= rq_sector req → rq_sector req * 512 + len (mjoin (rq_buf req)) <= len c → len c < 2 ^ 63 →
  wp (raw_request ctx req) (read_post (rq_sector req * 512) c (rq_buf req) w) w.
Proof.
  intros Hfull Ht Hb Hc H0 H1 H2. unfold wp. rewrite (win_agrees_posix ctx 0) by (done || lia). apply wp_request; [done|lia|]. cbn [c_fd]. rewrite Ht.
  apply wp_request_read; [|exact Hc|lia|done|done]. intros fd n off w0 r d w' c0 E Hf Hr Hn Ho Hl. cbn [h_pread posix] in E. unfold posix_pread in E.
  destruct (Z.ltb_spec n 0), (Z.leb_spec (2 ^ 32) n), (Z.ltb_spec off 0), (Z.leb_spec (2 ^ 63) off); cbn [orb] in E; try lia; try (simplify_eq; lia).
  destruct (ReadFile fd _ _ w0) as [[d'|] w1] eqn:E1; simplify_eq; [|lia]. rewrite u32_small, u64_small in E1 by lia. by eapply Hfull.
Qed.

(** ** Opening and closing *)
Notation St := (U8st * W)%type.
Context (set_last_error : bytes → M St ()).
Context (Herr : ∀ t s, wp (set_last_error t) (λ _ s', wv s'.2 = wv s.2) s).

(** What opening leaves behind: nothing on an error; otherwise one handle on
    the exact conversion of the path, which may write unless the session is
    read-only, and the size of the file. *)
Definition win_opened path flags (r : option win_ctx) (w w' : W) : Prop :=
  match r with
  | None => wv w' = wv w
  | Some ctx => ∃ u, mb_strict (W := W) path = Some u ∧ io_fds (wv w) !! hFile ctx = None ∧ 0 <= hFile ctx ∧
      wv w' = mk_io (<[hFile ctx := (u, negb (flag flags ANYFS_SESSION_READONLY))]> (io_fds (wv w))) (io_data (wv w)) ∧
      ∀ c, io_data (wv w) !! u = Some c → len c < 2 ^ 63 → w_capacity ctx = len c
  end.

Lemma wp_create_file path a sh d t (Q : Z → St → Prop) s :
  (∀ s', wv s'.2 = wv s.2 → Q INVALID_HANDLE_VALUE s') →
  (∀ h u s', mb_strict (W := W) path = Some u → 0 <= h → io_fds (wv s.2) !! h = None →
     wv s'.2 = mk_io (<[h := (u, flag a 0x40000000)]> (io_fds (wv s.2))) (io_data (wv s.2)) → Q h s') →
  wp (anyfs_u8_create_file path a sh d t) Q s.
Proof.
  intros H0 H1. unfold anyfs_u8_create_file, anyfs_u8_to_u16. apply wp_bind. destruct (mb_strict path) as [u|] eqn:Eu.
  2: { apply wp_bind, wp_mod, wp_ret, wp_bind, wp_mod, wp_ret. by apply H0. }
  apply wp_bind. unfold malloc. apply wp_bind, wp_lower, wp_call. pose proof (wi_malloc s.2) as Em.
  destruct (w_malloc s.2) as [ok w1] eqn:E. cbn [fst snd] in *. apply wp_bind. destruct ok.
  2: { apply wp_ret, wp_ret, wp_bind, wp_mod, wp_ret, wp_bind, wp_mod, wp_ret. by apply H0. }
  apply wp_mod, wp_ret, wp_ret, wp_bind, wp_lower, wp_call. cbn [fst snd]. destruct (w_create_file u a sh d t w1) as [[h e] w2] eqn:Ec. cbn [fst snd].
  apply wp_bind, wp_mod, wp_bind, wp_gets, wp_bind. unfold free. apply wp_bind, wp_lower, wp_call. cbn [fst snd]. pose proof (wi_free w2) as Ef.
  destruct (w_free w2) as [fe w3]. cbn [fst snd] in *. apply wp_bind, wp_mod. cbn [fst snd].
  assert (Hend : ∀ g, wp (upd (set_last e) ≫= λ _, mret h) Q (g, w3)).
  { intros g. apply wp_bind, wp_mod, wp_ret. apply wi_create in Ec as [[-> Ev]|(Hh & Hn & Ev)].
    - apply H0. cbn. congruence.
    - eapply H1; [done|done|congruence|]. cbn. rewrite Ef, Ev, Em. done. }
  destruct fe as [[]|]; [apply wp_mod|apply wp_ret]; apply Hend.
Qed.

Lemma wp_win_open path flags s : wp (raw_blk_open set_last_error path flags) (λ r s', win_opened path flags r s.2 s'.2) s.
Proof.
  unfold raw_blk_open. cbv zeta. apply wp_bind, wp_create_file.
  { intros s1 E1. change (INVALID_HANDLE_VALUE =? INVALID_HANDLE_VALUE) with true. cbn iota. apply wp_bind, wp_gets, wp_bind.
    eapply wp_mono; [apply Herr|]. intros [] s2 E2. cbv beta in E2. apply wp_ret. cbn. congruence. }
  intros h u s1 Eu Hh Hn E1. destruct (Z.eqb_spec h INVALID_HANDLE_VALUE) as [->|_]; [done|].
  set (rw := negb (flag flags ANYFS_SESSION_READONLY)). assert (Hrw : flag (if flag flags ANYFS_SESSION_READONLY then GENERIC_READ else Z.lor GENERIC_READ GENERIC_WRITE) 0x40000000 = rw)
    by (unfold rw; by destruct (flag flags ANYFS_SESSION_READONLY)). rewrite Hrw in E1.
  assert (Hclose : ∀ s', wv s'.2 = wv s1.2 → wp (_ ← lower (call (CloseHandle h)); mret (M := M St) None) (λ r s', win_opened path flags r s.2 s'.2) s').
  { intros s' E'. apply wp_bind, wp_lower, wp_call, wp_ret. cbn. rewrite wi_close, E', E1. cbn [io_fds io_data]. rewrite delete_insert_id by done. symmetry. apply io_eta. }
  assert (Hf : file_of (wv s1.2) h = io_data (wv s.2) !! u) by (rewrite E1; unfold file_of; cbn; by rewrite lookup_insert_eq).
  apply wp_bind, wp_lower, wp_call. destruct (GetFileSizeEx h s1.2) as [o w2] eqn:E2. apply wi_size in E2 as [V2 Hsz]. cbn [fst snd]. apply wp_bind.
  apply (wp_mono _ (λ r s', wv s'.2 = wv s1.2 ∧ ∀ n c, r = Some n → io_data (wv s.2) !! u = Some c → n = len c)).
  { destruct o as [n|]; [apply wp_ret; split; [done|]; intros m c [= <-] Hc; apply (Hsz n); [done|congruence]|].
    apply wp_lower, wp_call. cbn [fst snd]. destruct (disk_length h w2) as [o w3] eqn:E3. apply wi_length in E3 as [V3 Hln]. cbn [fst snd]. split; [congruence|].
    intros m c -> Hc. apply (Hln m); [done|]. rewrite V2. congruence. }
  intros [n|] s3 [V3 Hcap].
  2: { apply wp_bind, wp_gets, wp_bind. eapply wp_mono; [apply Herr|]. intros [] s4 E4. apply Hclose. cbv beta in E4. congruence. }
  apply wp_bind, wp_lower, wp_call. pose proof (wi_calloc s3.2) as E4. destruct (ctx_calloc s3.2) as [ok w4]. cbn [fst snd] in *. destruct ok.
  - apply wp_ret. exists u. split_and!; [done..|cbn [snd]; rewrite E4, V3; exact E1|]. cbn. intros c Hc Hlt. rewrite (Hcap n c) by done. apply u64_small. lia.
  - apply Hclose. cbn. congruence.
Qed.

(** A device that was opened is closed: the handles are what they were. *)
Lemma win_open_close path flags s :
  wp (h ← raw_blk_open set_last_error path flags; lower (raw_blk_destroy h)) (λ _ s', wv s'.2 = wv s.2) s.
Proof.
  apply wp_bind. eapply wp_mono; [apply wp_win_open|]. intros [ctx|] s1 H; cbv beta in H; apply wp_lower; cbn [raw_blk_destroy]; [|by apply wp_ret].
  destruct H as (u & _ & Hn & _ & Hv & _). apply wp_bind, wp_call, wp_ret. cbn. rewrite wi_close, Hv. cbn [io_fds io_data].
  rewrite delete_insert_id by done. symmetry. apply io_eta.
Qed.
End Posix.

(** ** Arguments *)
Section Args.
Context {W : Type} `{!Win W}.
Notation St := (U8st * W)%type.

(** With memory, the tool's main is called with the exact conversion of every
    argument, or not at all when one is not valid Unicode. *)
Lemma wmain_args (tool : list bytes → M St Z) wargv (Q : Z → St → Prop) s : (∀ w : W, (w_malloc w).1 = true) →
  (∀ argv s', Forall2 (λ a u, wc_strict (W := W) a = Some u) wargv argv → wp (tool argv) Q s') →
  (∀ s', Exists (λ a, wc_strict (W := W) a = None) wargv → Q 2 s') → wp (wmain true tool wargv) Q s.
Proof.
  intros Hm H1 H2. unfold wmain. cbn [negb]. apply wp_bind.
  apply (wp_mono _ (λ r _, match r with inl argv => Forall2 (λ a u, wc_strict (W := W) a = Some u) wargv argv | inr _ => Exists (λ a, wc_strict (W := W) a = None) wargv end)).
  2: { intros [argv|j] s' H; [by apply H1|apply wp_ret; by apply H2]. }
  clear H1 H2. generalize 0 as i. revert s. induction wargv as [|a l IH]; intros s i; cbn [convert_args]; [by apply wp_ret|].
  apply wp_bind. unfold anyfs_u16_to_u8. destruct (wc_strict a) as [u|] eqn:Ea.
  2: { apply wp_bind, wp_mod, wp_ret, wp_ret. by left. }
  apply wp_bind. unfold malloc. apply wp_bind, wp_lower, wp_call. rewrite Hm. apply wp_bind, wp_mod, wp_ret, wp_ret, wp_bind.
  eapply wp_mono; [apply IH|]. intros [argv|j] s' H; apply wp_ret; [by constructor|by right].
Qed.
End Args.

(** ** Where the code departs from its intention *)

(** A flush that fails is reported as done. *)
Lemma win_flush_ignored {W} `{!WinIO W} h off b rest (w : W) :
  fst <$> request_loop h LKL_DEV_BLK_TYPE_FLUSH off (b :: rest) w = Some (LKL_DEV_BLK_STATUS_OK, b :: rest).
Proof. cbn. unfold mbind, M_bind, call. by destruct (FlushFileBuffers h w). Qed.
End WinHost.
