(* ===== verification/Shims.v ===== *)
(** * Shims

    patches/libblkid/shim/mingw_shims.c: the calls that libblkid wants and the
    C library of mingw lacks, and the size of a disk on macOS
    (src/core/raw_backend.c).  Device numbers and setenv do real work; the
    other calls refuse or answer a constant.  A result stored through a pointer
    is returned beside the status: [None] when the pointer is null. *)
From S2P Require Import Prelude CLib Lkl WinHost.
Import CLib.

(** The environment of the C library of Windows. *)
Class CrtEnv (W : Type) := {
  crt_getenv : bytes → W → option bytes;
  crt_putenv : bytes → kcall W Z }.

Definition same_name (a b : bytes) : Prop := WinHost.to_lower <$> a = WinHost.to_lower <$> b.

(** _putenv sets one variable; an empty value removes it. *)
Class CrtEnvLaws (W : Type) `{!CrtEnv W} : Prop := {
  law_putenv name v w : name ≠ [] → 61 ∉ name → let '(rc, w') := crt_putenv (name ++ 61 :: v) w in
    (rc = 0 ∧ crt_getenv name w' = (if decide (v = []) then None else Some v) ∨ rc = -1 ∧ crt_getenv name w' = crt_getenv name w) ∧
    ∀ n, ¬ same_name n name → crt_getenv n w' = crt_getenv n w }.

Module Shims.

(** ** Device numbers *)
Definition major (dev : Z) : Z := u32 (Z.lor (u32 (Z.land (Z.shiftr dev 8) 0xfff)) (Z.land (Z.shiftr dev 32) 0xfffff000)).
Definition minor (dev : Z) : Z := Z.lor (u32 (Z.land dev 0xff)) (u32 (Z.land (Z.shiftr dev 12) 0xffffff00)).
Definition makedev (maj min : Z) : Z :=
  Z.lor (Z.lor (Z.lor (Z.land min 0xff) (u64 (Z.shiftl (Z.land maj 0xfff) 8)))
    (u64 (Z.shiftl (Z.land min 0xffffff00) 12))) (u64 (Z.shiftl (Z.land maj 0xfffff000) 32)).

(** ** Calls that answer the same every time *)
Definition ENOSYS : Z := 40.
Definition ENOTSUP : Z := 129.
Definition EINVAL : Z := 22.
Definition ENOMEM : Z := 12.

Section Calls.
Context {W : Type} `{!CrtEnv W}.
(** errno and the rest. *)
Notation St := (Z * W)%type.

Definition set_errno (e : Z) : M St () := mmod (λ s, (e, s.2)).
Definition refuse (e : Z) : M St Z := _ ← set_errno e; mret (-1).
Definition stored {A} (p : bool) (v : A) : option A := if p then Some v else None.

Definition link (oldpath newpath : bytes) : M St Z := refuse ENOSYS.
Definition fchmod (fd mode : Z) : M St Z := mret 0.
Definition getuid : Z := 0.
Definition geteuid : Z := 0.
Definition getgid : Z := 0.
Definition getegid : Z := 0.
Definition dirfd (dirp : Z) : M St Z := refuse ENOTSUP.
Definition fstatat (dirfd : Z) (pathname : bytes) (flags : Z) : M St Z := refuse ENOSYS.
Definition mkstemp_cloexec (template_name : bytes) : M St Z := refuse ENOSYS.
Definition blkdev_get_sector_size (fd : Z) (p : bool) : Z * option Z := (0, stored p 512).
Definition blkdev_get_size (fd : Z) (p : bool) : Z * option Z := (-1, stored p 0).
Definition canonicalize_path (path : bytes) : option bytes := None.
Definition canonicalize_dm_name (ptname : bytes) : option bytes := None.
(** The paths below sysfs: none can be made, so none can be read. *)
Definition ul_new_sysfs_path (devno : Z) (prefix : bytes) : option () := None.
Definition ul_unref_path (pc : option ()) : () := ().
Definition ul_path_opendir (path : bytes) : option () := None.
Definition ul_path_read_u32 (p : bool) (path : bytes) : Z * option Z := (-1, stored p 0).
Definition ul_path_read_u64 (p : bool) (path : bytes) : Z * option Z := (-1, stored p 0).
Definition ul_path_readf_u64 (p : bool) (fmt : bytes) : Z * option Z := (-1, stored p 0).
Definition ul_path_read_string (p : bool) (path : bytes) : Z * option (option bytes) := (-1, stored p None).
Definition sysfs_blkdev_is_partition_dirent (parent : bytes) : Z := 0.
Definition sysfs_devname_to_devno (name : bytes) (p : bool) : Z * option Z := (-1, stored p 0).
Definition __sysfs_devname_to_devno (prefix name parent : bytes) (p : bool) : Z * option Z := (-1, stored p 0).
Definition sysfs_devno_is_dm_private (devno : Z) (p : bool) : Z * option (option bytes) := (0, stored p None).
Definition sysfs_devno_to_devpath (devno : Z) : option bytes := None.
Definition sysfs_devno_to_wholedisk (devno bufsiz : Z) (p : bool) : option bytes * option Z := (None, stored p 0).
Definition sysfs_chrdev_devno_to_devname (devno bufsiz : Z) : option bytes := None.

(** ** setenv over _putenv *)
Definition setenv (malloc : bool) (name value : option bytes) (overwrite : Z) : M St Z :=
  match name with
  | None => refuse EINVAL
  | Some n =>
      if bool_decide (n = []) || bool_decide (61 ∈ n) then refuse EINVAL
      else
        set ← mgets (λ s, crt_getenv n s.2);
        if (overwrite =? 0) && bool_decide (is_Some set) then mret 0
        else if negb malloc then refuse ENOMEM
        else lower (call (crt_putenv (n ++ 61 :: default [] value)))
  end.
End Calls.

(** ** The size of a disk on macOS *)
Section Darwin.
Context {W : Type} (block_size block_count : Z → kcall W (Z * Z)).
Definition blkdev_capacity (fd : Z) : M W (Z * Z) :=
  b ← call (block_size fd);
  if b.1 <? 0 then mret (-1, 0)
  else
    c ← call (block_count fd);
    if c.1 <? 0 then mret (-1, 0) else mret (0, u64 (c.2 * b.2)).
End Darwin.

(** ** Device numbers come apart as they were put together *)

(** Push a testbit through the operations to the variables, and evaluate. *)
Ltac deep_bit :=
  repeat first
    [ rewrite Z.lor_spec | rewrite Z.land_spec | rewrite Z.mod_pow2_bits_low by lia | rewrite Z.mod_pow2_bits_high by lia
    | rewrite Z.shiftr_spec by lia | rewrite Z.shiftl_spec by lia ];
  cbn -[Z.testbit];
  repeat match goal with
  | |- context [Z.testbit (Zpos ?p) ?k] => let b := eval vm_compute in (Z.testbit (Zpos p) k) in change (Z.testbit (Zpos p) k) with b
  | |- context [Z.testbit ?x (Zneg ?k)] => rewrite (Z.testbit_neg_r x (Zneg k)) by lia
  end; rewrite ?andb_true_r, ?andb_false_r, ?orb_false_r; try reflexivity.
(** At every index below [n]. *)
Ltac by_bits n i :=
  let Hin := fresh in
  assert (i ∈ seqZ 0 n) as Hin by (apply elem_of_seqZ; lia); vm_compute in Hin; clear -Hin;
  repeat (apply elem_of_cons in Hin as [->|Hin]; [deep_bit; fail|]); by apply not_elem_of_nil in Hin.

Lemma major_makedev maj min : 0 <= maj < 2 ^ 32 → 0 <= min < 2 ^ 32 → major (makedev maj min) = maj.
Proof.
  intros Ha Hi. unfold major, makedev, u32, u64. apply Z.bits_inj'. intros i Hi0. destruct (Z.leb_spec 32 i).
  - rewrite Z.mod_pow2_bits_high by lia. symmetry. apply (bits_above _ 32); lia.
  - by_bits 32 i.
Qed.
Lemma minor_makedev maj min : 0 <= maj < 2 ^ 32 → 0 <= min < 2 ^ 32 → minor (makedev maj min) = min.
Proof.
  intros Ha Hi. unfold minor, makedev, u32, u64. apply Z.bits_inj'. intros i Hi0. destruct (Z.leb_spec 32 i).
  - rewrite Z.lor_spec, !Z.mod_pow2_bits_high by lia. symmetry. apply (bits_above _ 32); lia.
  - by_bits 32 i.
Qed.
Lemma makedev_split dev : 0 <= dev < 2 ^ 64 → makedev (major dev) (minor dev) = dev.
Proof.
  intros Hd. unfold major, minor, makedev, u32, u64. apply Z.bits_inj'. intros i Hi0. destruct (Z.leb_spec 64 i).
  - rewrite !Z.lor_spec, Z.land_spec, !Z.mod_pow2_bits_high by lia. rewrite (bits_above 0xff 8 i), (bits_above dev 64 i) by lia. by rewrite andb_false_r.
  - by_bits 64 i.
Qed.

(** Device numbers of the Windows build: every 64-bit number is one pair of
    32-bit numbers and every such pair one number. *)
Theorem dev_roundtrip dev maj min : 0 <= dev < 2 ^ 64 → 0 <= maj < 2 ^ 32 → 0 <= min < 2 ^ 32 →
  makedev maj min = dev ↔ major dev = maj ∧ minor dev = min.
Proof.
  intros Hd Ha Hi. split; [intros <-; split; [by apply major_makedev|by apply minor_makedev]|]. intros [<- <-]. by apply makedev_split.
Qed.

Section Setenv.
Context {W : Type} `{!CrtEnv W, !CrtEnvLaws W}.

(** What setenv does: it refuses a name it cannot set; otherwise the variable
    ends as it was, when it is not to be overwritten or the system refuses, or
    with the value (none for the empty value, unlike POSIX); no other variable
    changes. *)
Theorem setenv_sets malloc name value overwrite (s : Z * W) :
  wp (setenv malloc name value overwrite) (λ rc s',
    (∀ n m, name = Some n → ¬ same_name m n → crt_getenv m s'.2 = crt_getenv m s.2) ∧
    match name with
    | Some n => if bool_decide (n = []) || bool_decide (61 ∈ n) then rc = -1 ∧ s' = (EINVAL, s.2)
                else rc = 0 ∧ crt_getenv n s'.2 =
                       (if (overwrite =? 0) && bool_decide (is_Some (crt_getenv n s.2)) then crt_getenv n s.2
                        else if decide (default [] value = []) then None else value) ∨
                     rc = -1 ∧ crt_getenv n s'.2 = crt_getenv n s.2
    | None => rc = -1 ∧ s' = (EINVAL, s.2)
    end) s.
Proof.
  destruct s as [e w], name as [n|]; cbn; [|done]. unfold setenv. destruct (bool_decide (n = []) || bool_decide (61 ∈ n)) eqn:En; [done|].
  apply orb_false_iff in En as [E1 E2]. apply bool_decide_eq_false in E1, E2. unfold wp, mbind, M_bind, mgets. cbn.
  destruct ((overwrite =? 0) && bool_decide (is_Some (crt_getenv n w))) eqn:Eo; [cbn; split; [done|by left]|].
  destruct malloc; cbn; [|split; [done|by right]].
  pose proof (law_putenv n (default [] value) w E1 E2) as L. unfold lower, call. cbn. destruct (crt_putenv _ w) as [rc w']. cbn. destruct L as [L Lo]. split.
  - intros ? m [= <-] Hm. by apply Lo.
  - destruct L as [[-> ->]|[-> ->]]; [left|by right]. split; [done|]. destruct value as [v|]; done.
Qed.

(** An empty value removes the variable, where POSIX sets it to the empty
    string. *)
Lemma setenv_empty_removes n (s : Z * W) : n ≠ [] → 61 ∉ n →
  wp (setenv true (Some n) (Some []) 1) (λ rc s', rc = 0 → crt_getenv n s'.2 = None) s.
Proof.
  intros H1 H2. eapply wp_mono; [apply setenv_sets|]. intros rc s' [_ H] ->. rewrite !bool_decide_eq_false_2 in H by done. cbn in H.
  destruct H as [[_ H]|[? _]]; [exact H|done].
Qed.
End Setenv.

(** The size is the product of the two answers while it fits 64 bits. *)
Lemma darwin_size {W} (block_size block_count : Z → kcall W (Z * Z)) fd w n b w1 w2 :
  block_size fd w = ((0, b), w1) → block_count fd w1 = ((0, n), w2) → 0 <= n * b < 2 ^ 64 →
  blkdev_capacity block_size block_count fd w = Some ((0, n * b), w2).
Proof. intros E1 E2 H. unfold blkdev_capacity, mbind, M_bind, call. rewrite E1. cbn. rewrite E2. cbn. by rewrite u64_small. Qed.

(** A small environment: a list of variables. *)
Notation toy_env := (list (bytes * bytes)) (only parsing).
Fixpoint env_split (b : bytes) : bytes * bytes :=
  match b with [] => ([], []) | c :: b => if c =? 61 then ([], b) else let '(n, v) := env_split b in (c :: n, v) end.
#[local] Instance same_name_dec a b : Decision (same_name a b).
Proof. unfold same_name. apply _. Defined.
Fixpoint env_get (n : bytes) (e : toy_env) : option bytes :=
  match e with [] => None | x :: e => if decide (same_name n x.1) then Some x.2 else env_get n e end.
#[local] Instance toy_crt : CrtEnv toy_env := {|
  crt_getenv := env_get;
  crt_putenv b e := let '(n, v) := env_split b in
    let e' := filter (λ x, ¬ same_name n x.1) e in (0, if decide (v = []) then e' else (n, v) :: e') |}.

Lemma env_split_eq n v : 61 ∉ n → env_split (n ++ 61 :: v) = (n, v).
Proof.
  induction n as [|c n IH]; intros H; [done|]. apply not_elem_of_cons in H as [H1 H2]. cbn. destruct (Z.eqb_spec c 61); [done|]. by rewrite IH.
Qed.
Lemma env_get_other m n e : ¬ same_name m n → env_get m (filter (λ x, ¬ same_name n x.1) e) = env_get m e.
Proof.
  intros Hm. induction e as [|x e IH]; [done|]. rewrite filter_cons. case_decide as H1; cbn; case_decide as H2; try done.
  contradict H1. intros H1. apply Hm. unfold same_name in *. congruence.
Qed.
Lemma env_get_gone n e : env_get n (filter (λ x, ¬ same_name n x.1) e) = None.
Proof. induction e as [|x e IH]; [done|]. rewrite filter_cons. case_decide as H1; [|done]. cbn. by rewrite decide_False. Qed.
#[local] Instance toy_crt_laws : CrtEnvLaws toy_env.
Proof.
  split. intros n v e Hn Hi. cbn. rewrite env_split_eq by done. split.
  - left. split; [done|]. case_decide; [apply env_get_gone|]. cbn. by rewrite decide_True.
  - intros m Hm. case_decide; cbn; [|rewrite decide_False by done]; by apply env_get_other.
Qed.

Example setenv_runs : setenv true (Some (bs "Path")) (Some (bs "x")) 1 (0, [(bs "PATH", bs "y"); (bs "A", bs "b")]) =
  Some (0, (0, [(bs "Path", bs "x"); (bs "A", bs "b")])).
Proof. vm_compute. reflexivity. Qed.

End Shims.
