(* ===== verification/Server.v ===== *)
(** * Server

    What the two servers share beside DiskSet: the command line as getopt_long
    of the C library reads it (GNU order, so that options may follow the
    images), the checks on images and shares, files written inside the kernel, and its
    start. *)
From S2P Require Import Prelude CLib Lkl Path Raw Backend Lift Kernel SessionSpec Share DiskSet Mountd.
Import CLib.

Module Server.

(** ** getopt_long *)
Record long_option := mk_opt { lo_name : bytes; lo_arg : bool; lo_val : Z }.

Section Getopt.
Context (shortopts : list (Z * bool)) (longopts : list long_option).

Definition find_short (c : Z) : option bool := snd <$> find (λ x, x.1 =? c) shortopts.

(** The exact name, or the only one it abbreviates. *)
Definition find_long (name : bytes) : option long_option :=
  match find (λ o, streq (lo_name o) name) longopts with
  | Some o => Some o
  | None => match List.filter (λ o, starts_with name (lo_name o)) longopts with [o] => Some o | _ => None end
  end.

(** A cluster of short options; [next] is the word after it, and whether it
    was taken.  An error is the option '?'. *)
Fixpoint short_word (cs : bytes) (next : option bytes) : list (Z * bytes) * bool :=
  match cs with
  | [] => ([], false)
  | c :: cs' =>
      match find_short c with
      | None => let '(ev, b) := short_word cs' next in ((63, []) :: ev, b)
      | Some false => let '(ev, b) := short_word cs' next in ((c, []) :: ev, b)
      | Some true =>
          match cs', next with
          | _ :: _, _ => ([(c, cs')], false)
          | [], Some a => ([(c, a)], true)
          | [], None => ([(63, [])], false)
          end
      end
  end.

Definition split_eq (s : bytes) : bytes * option bytes :=
  match strchr 61 s with Some (a, b) => (a, Some b) | None => (s, None) end.

(** The options in order, with their arguments, and the other words. *)
Fixpoint getopt_long (args : list bytes) : list (Z * bytes) * list bytes :=
  match args with
  | [] => ([], [])
  | a :: rest =>
      if streq a (bs "--") then ([], rest)
      else if starts_with (bs "--") a then
        let '(name, val) := split_eq (drop 2 a) in
        match find_long name, val with
        | Some o, Some v =>
            let '(ev, pos) := getopt_long rest in ((if lo_arg o then (lo_val o, v) else (63, [])) :: ev, pos)
        | Some o, None =>
            if lo_arg o then
              match rest with
              | v :: rest' => let '(ev, pos) := getopt_long rest' in ((lo_val o, v) :: ev, pos)
              | [] => ([(63, [])], [])
              end
            else let '(ev, pos) := getopt_long rest in ((lo_val o, []) :: ev, pos)
        | None, _ => let '(ev, pos) := getopt_long rest in ((63, []) :: ev, pos)
        end
      else if starts_with (bs "-") a && (1 <? len a) then
        let '(ev0, taken) := short_word (drop 1 a) (head rest) in
        match taken, rest with
        | true, _ :: rest' => let '(ev, pos) := getopt_long rest' in (ev0 ++ ev, pos)
        | _, _ => let '(ev, pos) := getopt_long rest in (ev0 ++ ev, pos)
        end
      else let '(ev, pos) := getopt_long rest in (ev, a :: pos)
  end.
End Getopt.

(** ** Command lines as values *)
Inductive arg := ALong (o : long_option) (v : bytes) | AFlag (o : long_option) | AShort (c : Z) (v : bytes) | ASwitch (c : Z) | AWord (s : bytes).

Definition render (a : arg) : list bytes :=
  match a with
  | ALong o v => [bs "--" ++ lo_name o; v]
  | AFlag o => [bs "--" ++ lo_name o]
  | AShort c v => [[45; c]; v]
  | ASwitch c => [[45; c]]
  | AWord s => [s]
  end.
Definition option_of (a : arg) : option (Z * bytes) :=
  match a with
  | ALong o v => Some (lo_val o, v)
  | AFlag o => Some (lo_val o, [])
  | AShort c v => Some (c, v)
  | ASwitch c => Some (c, [])
  | AWord _ => None
  end.
Definition word_of (a : arg) : option bytes := match a with AWord s => Some s | _ => None end.

Section Reads.
Context (shortopts : list (Z * bool)) (longopts : list long_option).
Definition long_ok (o : long_option) : Prop := find_long longopts (lo_name o) = Some o ∧ lo_name o ≠ [] ∧ 61 ∉ lo_name o.
Definition arg_ok (a : arg) : Prop :=
  match a with
  | ALong o _ => long_ok o ∧ lo_arg o = true
  | AFlag o => long_ok o ∧ lo_arg o = false
  | AShort c _ => find_short shortopts c = Some true ∧ c ≠ 45
  | ASwitch c => find_short shortopts c = Some false ∧ c ≠ 45
  | AWord s => ∀ t, s ≠ 45 :: t
  end.

Lemma long_word o rest : long_ok o → getopt_long shortopts longopts ((bs "--" ++ lo_name o) :: rest) =
  if lo_arg o then
    match rest with
    | v :: rest' => let '(ev, pos) := getopt_long shortopts longopts rest' in ((lo_val o, v) :: ev, pos)
    | [] => ([(63, [])], [])
    end
  else let '(ev, pos) := getopt_long shortopts longopts rest in ((lo_val o, []) :: ev, pos).
Proof.
  intros (Hf & Hn & He). cbn [getopt_long]. destruct (streq _ (bs "--")) eqn:E.
  { apply streq_true in E. destruct (lo_name o); [done|]. discriminate. }
  rewrite starts_with_app. change (drop 2 (bs "--" ++ lo_name o)) with (lo_name o). unfold split_eq.
  rewrite (proj2 (strchr_None 61 _) He), Hf. done.
Qed.

Lemma getopt_reads l : Forall arg_ok l →
  getopt_long shortopts longopts (mjoin (render <$> l)) = (omap option_of l, omap word_of l).
Proof.
  induction 1 as [|a l Ha _ IH]; [done|]. rewrite fmap_cons, join_cons. destruct a as [o v|o|c v|c|s]; cbn [render app arg_ok] in *.
  - destruct Ha as [Ho Ha]. rewrite long_word, Ha, IH by done. done.
  - destruct Ha as [Ho Ha]. rewrite long_word, Ha, IH by done. done.
  - destruct Ha as [Hf Hc]. cbn [getopt_long]. change (bs "--") with [45; 45]. change (bs "-") with [45]. cbn [starts_with drop head].
    destruct (Z.eqb_spec 45 c); [by subst|]. rewrite andb_false_r. cbn [short_word]. rewrite Hf, IH.
    destruct (streq [45; c] [45; 45]) eqn:E; [apply streq_true in E; congruence|]. done.
  - destruct Ha as [Hf Hc]. cbn [getopt_long]. change (bs "--") with [45; 45]. change (bs "-") with [45]. cbn [starts_with drop head].
    destruct (Z.eqb_spec 45 c); [by subst|]. rewrite andb_false_r. cbn [short_word]. rewrite Hf, IH.
    destruct (streq [45; c] [45; 45]) eqn:E; [apply streq_true in E; congruence|]. done.
  - cbn [getopt_long]. rewrite IH. destruct (streq s (bs "--")) eqn:E; [apply streq_true in E as ->; by destruct (Ha [45])|].
    change (bs "--") with [45; 45]. change (bs "-") with [45]. destruct s as [|c s]; [done|]. cbn [starts_with].
    destruct (Z.eqb_spec 45 c) as [<-|]; [by destruct (Ha s)|]. done.
Qed.
End Reads.

(** The words and arguments are parts of the words given. *)
Section Words.
Context (shortopts : list (Z * bool)) (longopts : list long_option).

Lemma short_word_CStr cs next ev b : CStr cs → (∀ a, next = Some a → CStr a) → short_word shortopts cs next = (ev, b) → Forall (λ e, CStr e.2) ev.
Proof.
  intros Hc Hn. revert ev b. induction Hc as [|c cs Hc Hcs IH]; intros ev b E; cbn [short_word] in E; [injection E as <- _; constructor|].
  destruct (short_word shortopts cs next) as [ev' b']. specialize (IH _ _ eq_refl).
  destruct (find_short shortopts c) as [[]|]; [|injection E as <- _; by constructor; [constructor|]..].
  assert (H1 : ∀ x : bytes, CStr x → Forall (λ e : Z * bytes, CStr e.2) [(c, x)]) by (intros x Hx; by constructor).
  destruct cs as [|d cs]; [destruct next as [a|]|]; injection E as <- _; [by apply H1, Hn|by repeat constructor|by apply H1].
Qed.

Definition all_CStr (r : list (Z * bytes) * list bytes) : Prop := Forall (λ e, CStr e.2) r.1 ∧ Forall CStr r.2.
Lemma all_event e r : CStr e.2 → all_CStr r → all_CStr (let '(ev, pos) := r in (e :: ev, pos)).
Proof. destruct r. intros He [H1 H2]. split; [by constructor|done]. Qed.
Lemma all_events l r : Forall (λ e, CStr e.2) l → all_CStr r → all_CStr (let '(ev, pos) := r in (l ++ ev, pos)).
Proof. destruct r. intros He [H1 H2]. split; [by apply Forall_app|done]. Qed.
Lemma split_eq_CStr s : CStr s → ∀ v, (split_eq s).2 = Some v → CStr v.
Proof.
  intros Hs v. unfold split_eq. destruct (strchr 61 s) as [[a b]|] eqn:E; [|done]. intros [= <-].
  apply strchr_Some in E as [-> _]. apply CStr_app in Hs as [_ Hs]. by apply CStr_cons in Hs as [_ ?].
Qed.

Lemma getopt_CStr args : Forall CStr args → all_CStr (getopt_long shortopts longopts args).
Proof.
  induction args as [args IH] using (induction_ltof1 _ length). unfold ltof in IH. intros Ha.
  destruct args as [|a rest]; [split; constructor|]. pose proof Ha as Hall. apply Forall_cons in Ha as [Ha Hrest].
  assert (IHr : all_CStr (getopt_long shortopts longopts rest)) by (apply IH; [cbn; lia|done]).
  assert (IH2 : ∀ v rest', rest = v :: rest' → CStr v ∧ all_CStr (getopt_long shortopts longopts rest')).
  { intros v rest' ->. apply Forall_cons in Hrest as [? ?]. split; [done|]. apply IH; [cbn; lia|done]. }
  clear IH. assert (H0 : CStr []) by constructor. cbn [getopt_long]. case_if; [by split; [constructor|]|]. case_if.
  - pose proof (split_eq_CStr (drop 2 a) (CStr_drop 2 a Ha)) as Hv. destruct (split_eq (drop 2 a)) as [name val]. cbn [snd] in Hv.
    destruct (find_long longopts name) as [o|]; [destruct val as [v|]|]; [|destruct (lo_arg o)|].
    + apply all_event; [destruct (lo_arg o); [by apply Hv|done]|done].
    + destruct rest as [|v rest']; [split; [by constructor|constructor]|]. destruct (IH2 v rest' eq_refl). by apply all_event.
    + by apply all_event.
    + by apply all_event.
  - case_if.
    + destruct (short_word shortopts (drop 1 a) (head rest)) as [ev0 taken] eqn:Esw.
      apply short_word_CStr in Esw; [|by apply CStr_drop|intros x Hx; destruct rest as [|v rest']; [done|]; injection Hx as <-; by destruct (IH2 v rest' eq_refl)].
      destruct taken; [|by apply all_events]. destruct rest as [|v rest']; [by apply all_events|]. destruct (IH2 v rest' eq_refl). by apply all_events.
    + destruct (getopt_long shortopts longopts rest), IHr. by split; [|constructor].
Qed.
End Words.

(** ** Images, shares and -p

    [inl] is the exit status. *)
Definition legacy_spec (n : Z) : bytes := if n =? 0 then bs "p0" else (snprintf 32 (bs "p" ++ fmt_d n)).2.
Definition finish_args (images specs : list bytes) (legacy_part : Z) : Z + (list bytes * list bytes) :=
  if DiskSet.ANYFS_MAX_DISKS <? len images then inl 1
  else if len images =? 0 then inl 1
  else if (0 <=? legacy_part) && (1 <? len images) then inl 1
  else
    let specs := if (0 <=? legacy_part) && (len specs <? DiskSet.ANYFS_MAX_SHARES) then specs ++ [legacy_spec legacy_part] else specs in
    if len specs =? 0 then inl 1 else inr (images, specs).

(** What passes has between 1 and 16 images and between 1 and 32 shares. *)
Lemma legacy_spec_CStr n : - 2 ^ 31 <= n < 2 ^ 31 → CStr (legacy_spec n).
Proof.
  intros Hn. unfold legacy_spec. destruct (n =? 0); [solve_cstr|]. cbn [snprintf snd]. apply CStr_take, CStr_app. split; [solve_cstr|].
  apply fmt_d_CStr. lia.
Qed.
Lemma finish_ok images specs lp images' specs' : finish_args images specs lp = inr (images', specs') → len specs <= 32 → - 2 ^ 31 <= lp < 2 ^ 31 →
  Forall CStr specs → images' = images ∧ 1 <= len images <= 16 ∧ 1 <= len specs' <= 32 ∧ Forall CStr specs'.
Proof.
  unfold finish_args. change DiskSet.ANYFS_MAX_DISKS with 16. change DiskSet.ANYFS_MAX_SHARES with 32. intros H Hs Hl Hc.
  destruct (Z.ltb_spec 16 (len images)); [done|]. destruct (Z.eqb_spec (len images) 0); [done|]. destruct ((0 <=? lp) && (1 <? len images)); [done|].
  set (sp := if _ && _ then _ else _) in H. destruct (Z.eqb_spec (len sp) 0); [done|]. injection H as <- <-. split; [done|]. split; [lia|].
  subst sp. destruct ((0 <=? lp) && (len specs <? 32)) eqn:E; [|split; [lia|done]]. zify_bools.
  rewrite length_app in *. cbn [length] in *. split; [lia|]. apply Forall_app. split; [done|]. by constructor; [apply legacy_spec_CStr|].
Qed.

(** ** Files inside the kernel *)
Class LklWrite (W : Type) := { sys_write : Z → bytes → kcall W Z }.
Class LklWriteLaws (W : Type) `{!Lkl W, !LklLaws W, !LklWrite W} := { law_write fd d w : view (sys_write fd d w).2 = view w }.
Definition LKL_O_WRONLY : Z := 1.

Section Files.
Context {W : Type} `{!Lkl W, !LklWrite W}.
Definition lkl_write_file (path data : bytes) : M W Z :=
  fd ← lkl_sys_open path LKL_O_WRONLY;
  if fd <? 0 then mret fd
  else
    ret ← call (sys_write fd data);
    _ ← lkl_sys_close fd;
    if ret <? 0 then mret ret else mret 0.

Context `{!LklLaws W, !LklWriteLaws W}.
Lemma wp_write_file path data w : wp (lkl_write_file path data) (λ r w', r <= 0 ∧ view w' = view w) w.
Proof.
  unfold lkl_write_file. apply wp_bind, wp_open; intros fd w1.
  { intros Hf E1. destruct (Z.ltb_spec fd 0); [|lia]. apply wp_ret. split; [lia|done]. }
  intros Hf Hn E1. destruct (Z.ltb_spec fd 0); [lia|]. apply wp_bind, wp_call. set (ret := (sys_write fd data w1).1).
  apply wp_bind, wp_close. intros c w3 E3. rewrite law_write, E1 in E3. cbn in E3. rewrite delete_insert_id in E3 by done.
  assert (Ev : view w3 = view w) by (rewrite E3; by destruct (view w)). destruct (Z.ltb_spec ret 0); apply wp_ret; (split; [lia|done]).
Qed.
End Files.

(** ** The start of the kernel *)
Class NetIf (W : Type) := { lkl_if_up : Z → kcall W Z }.
(** The calls of the start mount nothing and attach nothing. *)
Class BootKeeps (W : Type) `{!Lkl W, !LklLaws W, !KernelOps W, !NetIf W} : Prop := {
  bk_init w : view (lkl_init w).2 = view w;
  bk_tls w : view (lkl_change_tls_mode w).2 = view w;
  bk_start a w : view (lkl_start_kernel a w).2 = view w;
  bk_sysctl k v w : view (lkl_sysctl k v w).2 = view w;
  bk_if i w : view (lkl_if_up i w).2 = view w }.

Section Boot.
Context {W : Type} `{!Lkl W, !HostIO W, !Disks W, !KernelOps W, !NetIf W} (has_qemu has_gio : bool).
Definition anyfs_server_boot (opts : option Kernel.AnyfsKernelOpts) : M (Kernel.KG * W) Z :=
  ret ← Kernel.anyfs_kernel_init has_qemu has_gio opts;
  if negb (ret =? 0) then mret ret else _ ← lower (call (lkl_if_up 1)); mret 0.

Context `{!LklLaws W, !BootKeeps W}.
Notation St := (Kernel.KG * W)%type.
Definition bk {A} (m : M St A) : Prop := ∀ s, wp m (λ _ s', DiskSet.elsewhere s s') s.
Lemma bk_ret {A} (a : A) : bk (mret a).
Proof. intros s. by apply wp_ret. Qed.
Lemma bk_bind {A B} (m : M St A) (f : A → M St B) : bk m → (∀ a, bk (f a)) → bk (m ≫= f).
Proof. intros Hm Hf s. apply wp_bind. eapply wp_mono; [apply Hm|]. intros a s1 E1. eapply wp_mono; [apply Hf|]. intros b s2 E2. cbv beta in *. by etrans. Qed.
Lemma bk_gets {A} (f : St → A) : bk (mgets f).
Proof. intros s. by apply wp_gets. Qed.
Lemma bk_mod (f : St → St) : (∀ s, (f s).2 = s.2) → bk (mmod f).
Proof. intros Hf s. apply wp_mod, DiskSet.elsewhere_view. cbn. by rewrite Hf. Qed.
Lemma bk_call {A} (f : kcall W A) : (∀ w, view (f w).2 = view w) → bk (lower (call f)).
Proof. intros H s. apply wp_lower, wp_call, DiskSet.elsewhere_view. apply H. Qed.
Lemma bk_mount d m t f o : starts_with (bs "/lklmnt/") m = false → bk (lower (lkl_sys_mount d m t f o)).
Proof.
  intros Hm [g w]. apply wp_lower, wp_mount.
  - intros r w' _ E. by apply DiskSet.elsewhere_view.
  - intros w' E. by eapply DiskSet.elsewhere_mount.
Qed.
Lemma bk_for {A} (l : list A) (f : A → M St ()) : (∀ a, bk (f a)) → bk (mfor l f).
Proof. intros Hf. induction l as [|a l IH]; cbn [mfor]; [apply bk_ret|]. by apply bk_bind. Qed.

(** The start leaves the disks and the mount points of sessions alone, as the
    mains ask of it: what it mounts is /sys and /proc. *)
Lemma boot_elsewhere opts s : wp (anyfs_server_boot opts) (λ _ s', DiskSet.elsewhere s s') s.
Proof.
  revert s. change (bk (anyfs_server_boot opts)). unfold anyfs_server_boot, Kernel.anyfs_kernel_init, Kernel.set_started.
  repeat first [apply bk_ret | apply bk_gets | by apply bk_mod | apply bk_bind; [|intros ?] | apply bk_for; intros ? | by apply bk_mount |
    apply bk_call; intros ?; first [apply bk_init | apply bk_tls | apply bk_start | apply bk_sysctl | apply bk_if | apply law_mkdir] | case_match].
Qed.

(** And so does the halt. *)
Lemma halt_quiet `{!ExitKeeps (view (W := W))} : DiskSet.quiet_halt (W := St) (Kernel.anyfs_kernel_halt has_qemu).
Proof.
  intros s. enough (wp (Kernel.anyfs_kernel_halt has_qemu) (λ _ s', view s'.2 = view s.2) s) as H.
  { eapply wp_mono; [exact H|]. intros [] s' E. unfold SessionSpec.mnts. cbn. by rewrite E. }
  unfold Kernel.anyfs_kernel_halt, Kernel.set_started. apply wp_bind, wp_gets. case_if; [done|].
  apply wp_bind, wp_lower, wp_call, wp_bind, wp_lower, wp_call, wp_bind. cbn [fst snd].
  apply (wp_mono _ (λ _ s', view s'.2 = view s.2)); [|by intros [] s' ?].
  case_if; [apply wp_lower, wp_call; cbn [snd]; rewrite ek_qemu|apply wp_ret; cbn [snd]]; by rewrite ek_cleanup, ek_halt.
Qed.
End Boot.
End Server.
