(* ===== verification/HostProxy.v ===== *)
(** * HostProxy

    src/host_proxy/host_proxy.c: the start and the stop of the proxy, the
    loopback pair that wakes its host thread, the table of connections, and
    the descriptors of the connections in it.  What the two threads do with
    one connection is in Ring, Pipe and Conn.  The POSIX build.  The sockets
    of the host, the threads and the allocator are a class over an arbitrary
    state. *)
From S2P Require Import Prelude CLib Lkl Raw Backend Lift Ring Server.
Import CLib Server.

(** ** Interface: what the servers use of the proxy *)
Class Proxy (W : Type) := { host_proxy_start : Z → Z → M W Z; host_proxy_stop : M W () }.
(** Neither mounts, unmounts nor attaches anything. *)
Class ProxyKeeps (W : Type) `{!Lkl W, !LklLaws W, !Proxy W} : Prop := {
  keep_start p q w : wp (host_proxy_start p q) (λ _ w', rest_of w' = rest_of w) w;
  keep_stop w : wp host_proxy_stop (λ _ w', rest_of w' = rest_of w) w }.

(** ** Interface: sockets of the host and of the kernel, threads, memory *)
Inductive thread := HostThread | LklThread.
#[export] Instance thread_eq : EqDecision thread.
Proof. solve_decision. Defined.

Class HSock (W : Type) := {
  h_socket : kcall W Z;
  h_setsockopt : Z → Z → kcall W Z;
  h_bind : Z → Z → Z → kcall W Z;
  h_getsockname : Z → kcall W (Z * Z);
  h_listen : Z → Z → kcall W Z;
  h_connect : Z → Z → Z → kcall W Z;
  h_accept : Z → kcall W (Z * Z);
  h_getfl : Z → kcall W Z;
  h_setfl : Z → Z → kcall W Z;
  h_shutdown : Z → Z → kcall W Z;
  h_send : Z → bytes → kcall W Z;
  h_sclose : Z → kcall W Z;
  h_create : thread → kcall W Z;
  h_join : thread → kcall W Z;
  h_calloc : kcall W bool;
  h_malloc : Z → kcall W (option bytes);
  l_pipe2 : Z → kcall W (Z * (Z * Z));
  l_socket : kcall W Z;
  l_getfl : Z → kcall W Z;
  l_setfl : Z → Z → kcall W Z;
  l_connect : Z → Z → Z → kcall W Z }.

(** Calls that open, close and start nothing. *)
Inductive quiet_call {W} `{!HSock W, !LklWrite W} : ∀ {A}, kcall W A → Prop :=
  | q_setsockopt s o : quiet_call (h_setsockopt s o)
  | q_bind s a p : quiet_call (h_bind s a p)
  | q_getsockname s : quiet_call (h_getsockname s)
  | q_listen s n : quiet_call (h_listen s n)
  | q_connect s a p : quiet_call (h_connect s a p)
  | q_getfl s : quiet_call (h_getfl s)
  | q_setfl s f : quiet_call (h_setfl s f)
  | q_shutdown s h : quiet_call (h_shutdown s h)
  | q_send s b : quiet_call (h_send s b)
  | q_calloc : quiet_call h_calloc
  | q_malloc n : quiet_call (h_malloc n)
  | q_lgetfl s : quiet_call (l_getfl s)
  | q_lsetfl s f : quiet_call (l_setfl s f)
  | q_lconnect s a p : quiet_call (l_connect s a p)
  | q_write fd b : quiet_call (sys_write fd b).

(** Sockets open on the host, threads running, and how often accept will still
    give a connection or be interrupted. *)
Record SView := mk_sv { socks : gset Z; threads : list thread; waiting : nat }.
Definition HSOCK_EINTR : Z := 4.
Definition HSOCK_EAGAIN : Z := 11.

Class HSockLaws (W : Type) `{!Lkl W, !LklLaws W, !LklWrite W, !HSock W} := {
  sview : W → SView;
  hl_quiet A (f : kcall W A) w : quiet_call f → sview (f w).2 = sview w ∧ view (f w).2 = view w;
  hl_socket w r w' : h_socket w = (r, w') → view w' = view w ∧
    ((r < 0 ∧ sview w' = sview w) ∨
     (0 <= r ∧ r ∉ socks (sview w) ∧ sview w' = mk_sv ({[r]} ∪ socks (sview w)) (threads (sview w)) (waiting (sview w))));
  hl_accept s w r e w' : h_accept s w = ((r, e), w') → view w' = view w ∧ threads (sview w') = threads (sview w) ∧
    (waiting (sview w') <= waiting (sview w))%nat ∧
    ((r < 0 ∧ socks (sview w') = socks (sview w) ∧ (e = HSOCK_EINTR → (waiting (sview w') < waiting (sview w))%nat)) ∨
     (0 <= r ∧ r ∉ socks (sview w) ∧ socks (sview w') = {[r]} ∪ socks (sview w) ∧ (waiting (sview w') < waiting (sview w))%nat));
  hl_sclose s w : view (h_sclose s w).2 = view w ∧
    sview (h_sclose s w).2 = mk_sv (socks (sview w) ∖ {[s]}) (threads (sview w)) (waiting (sview w));
  hl_create t w r w' : h_create t w = (r, w') → view w' = view w ∧
    ((r ≠ 0 ∧ sview w' = sview w) ∨ (r = 0 ∧ sview w' = mk_sv (socks (sview w)) (t :: threads (sview w)) (waiting (sview w))));
  hl_join t w : view (h_join t w).2 = view w ∧
    sview (h_join t w).2 = mk_sv (socks (sview w)) (filter (.≠ t) (threads (sview w))) (waiting (sview w));
  hl_pipe2 f w r a b w' : l_pipe2 f w = ((r, (a, b)), w') → sview w' = sview w ∧
    ((r < 0 ∧ view w' = view w) ∨
     (0 <= r ∧ 0 <= a ∧ 0 <= b ∧ a ≠ b ∧ v_fds (view w) !! a = None ∧ v_fds (view w) !! b = None ∧ ∃ p,
        view w' = mk_view (<[a := p]> (<[b := p]> (v_fds (view w)))) (v_mnt (view w)) (v_bro (view w)) (v_dsk (view w))));
  hl_lsocket w r w' : l_socket w = (r, w') → sview w' = sview w ∧
    ((r < 0 ∧ view w' = view w) ∨
     (0 <= r ∧ v_fds (view w) !! r = None ∧ ∃ p,
        view w' = mk_view (<[r := p]> (v_fds (view w))) (v_mnt (view w)) (v_bro (view w)) (v_dsk (view w))));
  hl_lclose fd w : sview (sys_close fd w).2 = sview w }.

Module HostProxy.

Definition MAX_CONNS : nat := 256.

(** struct conn *)
Record conn := mk_conn {
  host_fd : Z; lkl_fd : Z; h2l : Ring.ring; l2h : Ring.ring;
  host_read_eof : bool; lkl_read_eof : bool; host_wr_shut : bool; lkl_wr_shut : bool; lkl_close_req : bool; slot : Z }.

(** G *)
Record PG := mk_pg {
  listen_fd : Z; host_wake_r : Z; host_wake_w : Z; lkl_wake_r : Z; lkl_wake_w : Z; lkl_port : Z; running : bool;
  busy_spin : bool; conns : list (option conn) }.

Definition set_conns l (g : PG) : PG :=
  mk_pg (listen_fd g) (host_wake_r g) (host_wake_w g) (lkl_wake_r g) (lkl_wake_w g) (lkl_port g) (running g) (busy_spin g) l.
Definition set_running b (g : PG) : PG :=
  mk_pg (listen_fd g) (host_wake_r g) (host_wake_w g) (lkl_wake_r g) (lkl_wake_w g) (lkl_port g) b (busy_spin g) (conns g).
Definition set_listen fd (g : PG) : PG :=
  mk_pg fd (host_wake_r g) (host_wake_w g) (lkl_wake_r g) (lkl_wake_w g) (lkl_port g) (running g) (busy_spin g) (conns g).
Definition host_proxy_set_busy_spin (on : Z) (g : PG) : PG :=
  mk_pg (listen_fd g) (host_wake_r g) (host_wake_w g) (lkl_wake_r g) (lkl_wake_w g) (lkl_port g) (running g) (negb (on =? 0)) (conns g).

Definition LOOPBACK : Z := 0x7f000001.
Definition O_NONBLOCK : Z := 0x800.
Definition LKL_EINPROGRESS : Z := 115.
Definition SHUT_RDWR : Z := 2.
Definition SO_REUSEADDR : Z := 2.
Definition TCP_NODELAY : Z := 1.

Section Code.
Context {W : Type} `{!Lkl W, !LklWrite W, !HSock W}.
Notation St := (PG * W)%type.
Definition sys {A} (f : kcall W A) : M St A := lower (call f).
Definition upd (f : PG → PG) : M St () := mmod (λ s, (f s.1, s.2)).

Definition hsock_set_nonblock (s : Z) : M W Z :=
  fl ← call (h_getfl s);
  if fl <? 0 then mret (-1) else call (h_setfl s (Z.lor fl O_NONBLOCK)).

(** The pair is (read end, write end). *)
Definition make_wake_pair : M W (option (Z * Z)) :=
  ls ← call h_socket;
  if ls <? 0 then mret None
  else
    let fail_ls := _ ← call (h_sclose ls); mret None in
    r ← call (h_bind ls LOOPBACK 0);
    if r <? 0 then fail_ls
    else
      name ← call (h_getsockname ls);
      if name.1 <? 0 then fail_ls
      else
        r ← call (h_listen ls 1);
        if r <? 0 then fail_ls
        else
          cli ← call h_socket;
          if cli <? 0 then fail_ls
          else
            let fail_cli := _ ← call (h_sclose cli); fail_ls in
            r ← call (h_connect cli LOOPBACK name.2);
            if r <? 0 then fail_cli
            else
              srv ← call (h_accept ls);
              if srv.1 <? 0 then fail_cli
              else
                _ ← call (h_sclose ls);
                a ← hsock_set_nonblock cli;
                b ← (if a <? 0 then mret (-1) else hsock_set_nonblock srv.1);
                if b <? 0 then _ ← call (h_sclose cli); _ ← call (h_sclose srv.1); mret None
                else mret (Some (srv.1, cli)).

Definition wake_host : M St () := g ← mgets fst; _ ← sys (h_send (host_wake_w g) [1]); mret ().
Definition wake_lkl : M St () := g ← mgets fst; _ ← sys (sys_write (lkl_wake_w g) [1]); mret ().

(** *** The table of connections *)

(** The entry, or -1 when the table is full. *)
Definition conn_attach (c : conn) : M St Z :=
  g ← mgets fst;
  match list_find (.= None) (conns g) with
  | Some (i, _) =>
      let c := mk_conn (host_fd c) (lkl_fd c) (h2l c) (l2h c) (host_read_eof c) (lkl_read_eof c) (host_wr_shut c) (lkl_wr_shut c)
                       (lkl_close_req c) (Z.of_nat i) in
      _ ← upd (set_conns (<[i := Some c]> (conns g))); mret 0
  | None => mret (-1)
  end.

(** The connection found in entry [i]. *)
Definition conn_free (i : nat) (c : conn) : M St () :=
  _ ← (if (0 <=? slot c) && (slot c =? Z.of_nat i) then upd (λ g, set_conns (<[i := None]> (conns g)) g) else mret ());
  _ ← (if host_fd c <? 0 then mret 0 else sys (h_sclose (host_fd c)));
  _ ← (if 0 <=? lkl_fd c then lower (lkl_sys_close (lkl_fd c)) else mret 0);
  mret ().

Definition conn_done (c : conn) : bool :=
  host_read_eof c && host_wr_shut c && lkl_read_eof c && lkl_wr_shut c && Ring.ring_empty (h2l c) && Ring.ring_empty (l2h c).

(** The entries that are used, with their numbers. *)
Definition used (x : nat * option conn) : option (nat * conn) := pair x.1 <$> x.2.
Definition entries (l : list (option conn)) : list (nat * conn) := omap used (imap pair l).

(** The end of a turn of the host thread: what is finished is released. *)
Definition free_done : M St () :=
  g ← mgets fst;
  mfor (entries (conns g)) (λ x, if conn_done x.2 then conn_free x.1 x.2 else mret ()).

Definition new_conn (fd : Z) (a b : bytes) : conn :=
  mk_conn fd (-1) (Ring.mk_ring a 0 0) (Ring.mk_ring b 0 0) false false false false false (-1).

(** host_accept; the result is *notify. *)
Fixpoint host_accept (fuel : nat) (notify : bool) : M St bool :=
  match fuel with
  | O => mstuck
  | S fuel =>
      g ← mgets fst;
      r ← sys (h_accept (listen_fd g));
      let cfd := r.1 in
      if cfd <? 0 then
        if r.2 =? HSOCK_EAGAIN then mret notify
        else if r.2 =? HSOCK_EINTR then host_accept fuel notify
        else mret notify
      else
        n ← lower (hsock_set_nonblock cfd);
        if n <? 0 then _ ← sys (h_sclose cfd); host_accept fuel notify
        else
          _ ← sys (h_setsockopt cfd TCP_NODELAY);
          ok ← sys h_calloc;
          if negb ok then _ ← sys (h_sclose cfd); host_accept fuel notify
          else
            a ← sys (h_malloc (Ring.RING_CAP Ring.RING_SHIFT));
            b ← sys (h_malloc (Ring.RING_CAP Ring.RING_SHIFT));
            at_ ← (match a, b with Some a, Some b => conn_attach (new_conn cfd a b) | _, _ => mret (-1) end);
            if at_ <? 0 then _ ← sys (h_sclose cfd); host_accept fuel notify
            else host_accept fuel true
  end.

(** *** The kernel's side of the connections *)
Definition set_entry (i : nat) (f : conn → conn) : M St () := upd (λ g, set_conns (alter (fmap f) i (conns g)) g).
Definition set_lkl_fd fd (c : conn) : conn :=
  mk_conn (host_fd c) fd (h2l c) (l2h c) (host_read_eof c) (lkl_read_eof c) (host_wr_shut c) (lkl_wr_shut c) (lkl_close_req c) (slot c).
Definition end_all (c : conn) : conn :=
  mk_conn (host_fd c) (lkl_fd c) (h2l c) (l2h c) true true true true (lkl_close_req c) (slot c).
Definition force_close (c : conn) : conn :=
  mk_conn (host_fd c) (-1) (Ring.ring_drain (h2l c)) (Ring.ring_drain (l2h c)) (host_read_eof c) true (host_wr_shut c) true
          (lkl_close_req c) (slot c).

(** The body of the second loop of lkl_connect_new. *)
Definition connect_one (i : nat) : M St () :=
  g ← mgets fst;
  s ← sys l_socket;
  s ← (if 0 <=? s then
         fl ← sys (l_getfl s);
         _ ← sys (l_setfl s (Z.lor fl O_NONBLOCK));
         r ← sys (l_connect s LOOPBACK (lkl_port g));
         if (r <? 0) && negb (r =? - LKL_EINPROGRESS) then _ ← lower (lkl_sys_close s); mret r else mret s
       else mret s);
  if s <? 0 then set_entry i end_all else set_entry i (set_lkl_fd s).

Definition to_connect (x : nat * conn) : bool := (lkl_fd x.2 <? 0) && negb (lkl_read_eof x.2).
Definition to_close (x : nat * conn) : bool := negb (lkl_fd x.2 <? 0) && lkl_close_req x.2.

Definition lkl_connect_new (notify : bool) : M St bool :=
  g ← mgets fst;
  let snap := filter to_connect (entries (conns g)) in
  _ ← mfor snap (λ x, connect_one x.1);
  mret (notify || negb (bool_decide (snap = []))).

Definition lkl_do_force_close (notify : bool) : M St bool :=
  g ← mgets fst;
  let l := filter to_close (entries (conns g)) in
  _ ← mfor l (λ x, set_entry x.1 force_close);
  _ ← mfor l (λ x, _ ← lower (lkl_sys_close (lkl_fd x.2)); mret ());
  mret (notify || negb (bool_decide (l = []))).

(** *** Start and stop *)
Definition host_proxy_start (host_port port : Z) : M St Z :=
  _ ← upd (λ g, mk_pg (-1) (-1) (-1) (-1) (-1) (lkl_port g) (running g) (busy_spin g) (conns g));
  s ← sys h_socket;
  if s <? 0 then mret (-1)
  else
    _ ← sys (h_setsockopt s SO_REUSEADDR);
    r ← sys (h_bind s 0 host_port);
    r ← (if r <? 0 then mret r else sys (h_listen s 128));
    r ← (if r <? 0 then mret r else lower (hsock_set_nonblock s));
    if r <? 0 then _ ← sys (h_sclose s); mret (-1)
    else
      p ← lower make_wake_pair;
      match p with
      | None => _ ← sys (h_sclose s); mret (-1)
      | Some (wr, ww) =>
          p ← sys (l_pipe2 O_NONBLOCK);
          if p.1 <? 0 then _ ← sys (h_sclose s); _ ← sys (h_sclose wr); _ ← sys (h_sclose ww); mret (-1)
          else
            _ ← upd (λ g, mk_pg s wr ww p.2.1 p.2.2 port true (busy_spin g) (conns g));
            t ← sys (h_create LklThread);
            t ← (if t =? 0 then sys (h_create HostThread) else mret t);
            if negb (t =? 0) then _ ← upd (set_running false); _ ← wake_lkl; mret (-1)
            else mret 0
      end.

Definition host_proxy_stop : M St () :=
  g ← mgets fst;
  if negb (running g) then mret ()
  else
    _ ← upd (set_running false);
    _ ← (if listen_fd g <? 0 then mret ()
         else _ ← sys (h_shutdown (listen_fd g) SHUT_RDWR); _ ← sys (h_sclose (listen_fd g)); upd (set_listen (-1)));
    _ ← wake_host;
    _ ← wake_lkl;
    _ ← sys (h_join HostThread);
    _ ← sys (h_join LklThread);
    _ ← (if host_wake_r g <? 0 then mret 0 else sys (h_sclose (host_wake_r g)));
    _ ← (if host_wake_w g <? 0 then mret 0 else sys (h_sclose (host_wake_w g)));
    _ ← (if 0 <=? lkl_wake_r g then lower (lkl_sys_close (lkl_wake_r g)) else mret 0);
    _ ← (if 0 <=? lkl_wake_w g then lower (lkl_sys_close (lkl_wake_w g)) else mret 0);
    mret ().
End Code.

(** ** Who owns which descriptor *)

(** The descriptors in [X] are those of [base] and those of [l], once each. *)
Definition held (base : gset Z) (l : list Z) (X : gset Z) : Prop :=
  NoDup l ∧ (∀ x, x ∈ l → x ∉ base) ∧ X = base ∪ list_to_set l.

Lemma held_perm base l l' X : l ≡ₚ l' → held base l X → held base l' X.
Proof.
  intros Hp (H1 & H2 & ->). split; [by rewrite <- Hp|]. split; [intros x; rewrite <- Hp; apply H2|]. f_equal. by apply list_to_set_perm_L.
Qed.
Lemma sockets_add base l X x : x ∉ X → held base l X → held base (x :: l) ({[x]} ∪ X).
Proof.
  intros Hx (H1 & H2 & ->). split; [apply NoDup_cons; split; [set_solver|done]|]. split; [|cbn; set_solver].
  intros y [->|Hy]%elem_of_cons; [set_solver|by apply H2].
Qed.
Lemma held_del base l X x : held base (x :: l) X → held base l (X ∖ {[x]}).
Proof.
  intros ([Hx H1]%NoDup_cons & H2 & ->). split; [done|]. split; [intros y Hy; apply H2; by right|].
  pose proof (H2 x (list_elem_of_here _ _)). cbn. set_solver.
Qed.

Lemma omap_insert {A B} (f : A → option B) l i x y : l !! i = Some x →
  option_list (f x) ++ omap f (<[i := y]> l) ≡ₚ option_list (f y) ++ omap f l.
Proof.
  revert i. induction l as [|a l IH]; intros [|i] H; [done..| |]; cbn in H.
  - injection H as ->. clear IH. change (<[0%nat := y]> (x :: l)) with (y :: l). cbn [omap list_omap]. destruct (f x), (f y); cbn; try done. apply Permutation_swap.
  - specialize (IH i H). cbn. destruct (f a) as [b|]; [|done]. rewrite <- !Permutation_middle. by rewrite IH.
Qed.

Definition hfds (l : list (option conn)) : list Z := omap (fmap host_fd) l.
Definition live_fd (c : conn) : option Z := if lkl_fd c <? 0 then None else Some (lkl_fd c).
Definition lfds (l : list (option conn)) : list Z := omap (λ o, o ≫= live_fd) l.

(** What the proxy itself holds while it runs: the listening socket, the two
    ends of the wake pair, and the pipe in the kernel. *)
Definition Own : Type := option (list Z * list Z).
Definition own_of (g : PG) : Own :=
  if running g then Some ([listen_fd g; host_wake_r g; host_wake_w g], [lkl_wake_r g; lkl_wake_w g]) else None.
Definition own_h (o : Own) : list Z := from_option fst [] o.
Definition own_l (o : Own) : list Z := from_option snd [] o.

Section Inv.
Context {W : Type} `{!Lkl W, !LklLaws W, !LklWrite W, !HSock W, !HSockLaws W}.
Notation St := (PG * W)%type.
Context (n0 : nat) (bh bl : gset Z) (r0 : gmap bytes MountInfo * gmap bytes bool * gset Z).

(** [x] and [y] are descriptors of the host and of the kernel that the code at
    hand has in its local variables. *)
Record PI (o : Own) (t : list thread) (x y : list Z) (s : St) : Prop := {
  pi_len : length (conns s.1) = MAX_CONNS;
  pi_slot : ∀ i c, conns s.1 !! i = Some (Some c) → slot c = Z.of_nat i ∧ 0 <= host_fd c;
  pi_own : own_of s.1 = o;
  pi_pos : Forall (λ z, 0 <= z) (own_h o ++ own_l o);
  pi_threads : threads (sview s.2) = t;
  pi_rest : rest_of s.2 = r0;
  pi_wait : (waiting (sview s.2) <= n0)%nat;
  pi_h : held bh (x ++ own_h o ++ hfds (conns s.1)) (socks (sview s.2));
  pi_l : held bl (y ++ own_l o ++ lfds (conns s.1)) (dom (v_fds (view s.2))) }.

Lemma PI_quiet o t x y (g : PG) (w w' : W) : sview w' = sview w → view w' = view w → PI o t x y (g, w) → PI o t x y (g, w').
Proof. intros E1 E2 []. split; unfold rest_of in *; cbn [fst snd] in *; rewrite ?E1, ?E2; done. Qed.

Lemma wp_quiet_sock {A} (f : kcall W A) (Q : A → St → Prop) o t x y s : quiet_call f → PI o t x y s →
  (∀ a s', PI o t x y s' → s'.1 = s.1 → waiting (sview s'.2) = waiting (sview s.2) → Q a s') → wp (sys f) Q s.
Proof.
  intros Hf HP HQ. apply wp_lower, wp_call. destruct (hl_quiet A f s.2 Hf) as [E1 E2]. destruct s as [g w]. cbn [fst snd] in *.
  apply HQ; [by eapply PI_quiet|done|cbn; by rewrite E1].
Qed.

Lemma wp_nonblock fd (Q : Z → St → Prop) o t x y s : PI o t x y s →
  (∀ a s', PI o t x y s' → s'.1 = s.1 → waiting (sview s'.2) = waiting (sview s.2) → Q a s') → wp (lower (hsock_set_nonblock fd)) Q s.
Proof.
  intros HP HQ. apply wp_lower. unfold hsock_set_nonblock. apply wp_bind, wp_call.
  destruct (hl_quiet _ _ s.2 (q_getfl fd)) as [E1 E2]. destruct s as [g w]. cbn [fst snd] in *. case_if.
  - apply wp_ret, HQ; [by eapply PI_quiet|done|cbn; by rewrite E1].
  - apply wp_call. set (w1 := (h_getfl fd w).2) in *. destruct (hl_quiet _ _ w1 (q_setfl fd (Z.lor (h_getfl fd w).1 O_NONBLOCK))) as [E3 E4].
    apply HQ; [|done|cbn; by rewrite E3, E1]. eapply PI_quiet; [| |exact HP]; congruence.
Qed.

Lemma PI_socks o t x y x' g (w w' : W) : view w' = view w → threads (sview w') = threads (sview w) → (waiting (sview w') <= waiting (sview w))%nat →
  held bh (x' ++ own_h o ++ hfds (conns g)) (socks (sview w')) → PI o t x y (g, w) → PI o t x' y (g, w').
Proof. intros E2 E1 Hw Hh []. split; unfold rest_of in *; cbn [fst snd] in *; rewrite ?E1, ?E2; (done || lia). Qed.

Lemma wp_hsocket (Q : Z → St → Prop) o t x y s : PI o t x y s →
  (∀ r s', s'.1 = s.1 → waiting (sview s'.2) = waiting (sview s.2) → (if r <? 0 then PI o t x y s' else PI o t (r :: x) y s') → Q r s') → wp (sys h_socket) Q s.
Proof.
  intros HP HQ. apply wp_lower, wp_call. destruct s as [g w]. cbn [fst snd] in *. destruct (h_socket w) as [r w'] eqn:E.
  apply hl_socket in E as (Ev & [(Hr & E)|(Hr & Hn & E)]); cbn [fst snd]; (apply HQ; [done|cbn; by rewrite E|]).
  - rewrite (proj2 (Z.ltb_lt _ _)) by done. by eapply PI_quiet.
  - rewrite (proj2 (Z.ltb_ge _ _)) by done. eapply PI_socks; [done|by rewrite E|by rewrite E| |exact HP]. rewrite E. cbn [socks app]. apply sockets_add; [done|apply HP].
Qed.

Lemma wp_haccept fd (Q : Z * Z → St → Prop) o t x y s : PI o t x y s →
  (∀ r s', s'.1 = s.1 → (0 <= r.1 ∨ r.2 = HSOCK_EINTR → (waiting (sview s'.2) < waiting (sview s.2))%nat) →
     (if r.1 <? 0 then PI o t x y s' else PI o t (r.1 :: x) y s') → Q r s') → wp (sys (h_accept fd)) Q s.
Proof.
  intros HP HQ. apply wp_lower, wp_call. destruct s as [g w]. cbn [fst snd] in *. destruct (h_accept fd w) as [[r e] w'] eqn:E.
  apply hl_accept in E as (Ev & Et & Hle & [(Hr & Es & Hw)|(Hr & Hn & Es & Hw)]); cbn [fst snd]; (apply HQ; [done|cbn; naive_solver lia|]); cbn [fst].
  - rewrite (proj2 (Z.ltb_lt _ _)) by done. eapply PI_socks; [done|done|done| |exact HP]. rewrite Es. apply HP.
  - rewrite (proj2 (Z.ltb_ge _ _)) by done. eapply PI_socks; [done|done|done| |exact HP]. rewrite Es. cbn [app]. apply sockets_add; [done|apply HP].
Qed.

Lemma wp_sock_close fd (Q : Z → St → Prop) o t x y s : PI o t (fd :: x) y s →
  (∀ r s', s'.1 = s.1 → waiting (sview s'.2) = waiting (sview s.2) → PI o t x y s' → Q r s') → wp (sys (h_sclose fd)) Q s.
Proof.
  intros HP HQ. apply wp_lower, wp_call. destruct s as [g w]. cbn [fst snd] in *. destruct (hl_sclose fd w) as [Ev E].
  apply HQ; [done|cbn; by rewrite E|]. eapply PI_socks; [done|by rewrite E|by rewrite E| |exact HP]. rewrite E. cbn [socks]. apply held_del, HP.
Qed.

Lemma PI_perm_h o t x x' y s : x ≡ₚ x' → PI o t x y s → PI o t x' y s.
Proof. intros Hp []. split; try done. eapply held_perm; [|done]. by rewrite Hp. Qed.
Lemma PI_perm_l o t x y y' s : y ≡ₚ y' → PI o t x y s → PI o t x y' s.
Proof. intros Hp []. split; try done. eapply held_perm; [|done]. by rewrite Hp. Qed.

(** *** The wake pair *)
Lemma lower_bind {A B} (m : M W A) (f : A → M W B) (s : St) : lower (m ≫= f) s = (lower m ≫= λ a, lower (f a)) s.
Proof. unfold lower, mbind, M_bind. destruct (m s.2) as [[a w]|]; done. Qed.
Lemma wp_lower_bind {A B} (m : M W A) (f : A → M W B) (Q : B → St → Prop) s :
  wp (lower m) (λ a s', wp (lower (f a)) Q s') s → wp (lower (m ≫= f)) Q s.
Proof. intros H. unfold wp. rewrite lower_bind. by apply wp_bind in H. Qed.
Lemma wp_lower_ret {A} (a : A) (Q : A → St → Prop) s : Q a s → wp (lower (mret a)) Q s.
Proof. intros H. apply wp_lower, wp_ret. by destruct s. Qed.

Definition woken o t x y (g : PG) (r : option (Z * Z)) (s' : St) : Prop :=
  s'.1 = g ∧ match r with Some (a, b) => 0 <= a ∧ 0 <= b ∧ PI o t (a :: b :: x) y s' | None => PI o t x y s' end.
Lemma wp_wake_pair o t x y s : PI o t x y s →
  wp (lower make_wake_pair) (woken o t x y s.1) s.
Proof.
  intros HP. unfold make_wake_pair. apply wp_lower_bind. eapply wp_hsocket; [exact HP|]. intros ls s1 E1 _ H1.
  destruct (Z.ltb_spec ls 0) as [|_]; [by apply wp_lower_ret|]. cbn zeta.
  assert (Hls : ∀ s', s'.1 = s.1 → PI o t (ls :: x) y s' → wp (lower (_ ← call (h_sclose ls); mret (M := M W) (None : option (Z * Z))))
    (woken o t x y s.1) s').
  { intros s' E' H'. apply wp_lower_bind. eapply wp_sock_close; [exact H'|]. intros _ s2 E2 _ H2. apply wp_lower_ret. split; [congruence|done]. }
  apply wp_lower_bind. eapply wp_quiet_sock; [constructor|exact H1|]. intros r s2 H2 E2 _. destruct (r <? 0); [apply Hls; [congruence|done]|].
  apply wp_lower_bind. eapply wp_quiet_sock; [constructor|exact H2|]. intros r3 s3 H3 E3 _. destruct (r3.1 <? 0); [apply Hls; [congruence|done]|].
  apply wp_lower_bind. eapply wp_quiet_sock; [constructor|exact H3|]. intros r4 s4 H4 E4 _. destruct (r4 <? 0); [apply Hls; [congruence|done]|].
  apply wp_lower_bind. eapply wp_hsocket; [exact H4|]. intros cli s5 E5 _ H5. destruct (Z.ltb_spec cli 0) as [|Hcli]; [apply Hls; [congruence|done]|].
  assert (Hcl : ∀ s', s'.1 = s.1 → PI o t (cli :: ls :: x) y s' →
    wp (lower (_ ← call (h_sclose cli); _ ← call (h_sclose ls); mret (M := M W) (None : option (Z * Z))))
    (woken o t x y s.1) s').
  { intros s' E' H'. apply wp_lower_bind. eapply wp_sock_close; [exact H'|]. intros _ s6 E6 _ H6. apply Hls; [congruence|done]. }
  apply wp_lower_bind. eapply wp_quiet_sock; [constructor|exact H5|]. intros r6 s6 H6 E6 _. destruct (r6 <? 0); [apply Hcl; [congruence|done]|].
  apply wp_lower_bind. eapply wp_haccept; [exact H6|]. intros [srv e] s7 E7 _ H7. cbn [fst] in *.
  destruct (Z.ltb_spec srv 0) as [|Hsrv]; [apply Hcl; [congruence|done]|].
  apply wp_lower_bind. eapply wp_sock_close; [eapply (PI_perm_h _ _ _ (ls :: cli :: srv :: x)); [|exact H7]|].
  { transitivity (srv :: ls :: cli :: x); [apply perm_skip, perm_swap|]. transitivity (ls :: srv :: cli :: x); [apply perm_swap|apply perm_skip, perm_swap]. }
  intros _ s8 E8 _ H8. apply wp_lower_bind. eapply wp_nonblock; [exact H8|]. intros a s9 H9 E9 _.
  assert (Hend : ∀ b s', s'.1 = s.1 → PI o t (cli :: srv :: x) y s' →
    wp (lower (if b <? 0 then _ ← call (h_sclose cli); _ ← call (h_sclose srv); mret (M := M W) None else mret (Some (srv, cli))))
    (woken o t x y s.1) s').
  { intros b s' E' H'. destruct (b <? 0).
    - apply wp_lower_bind. eapply wp_sock_close; [exact H'|]. intros _ s10 E10 _ H10. apply wp_lower_bind. eapply wp_sock_close; [exact H10|].
      intros _ s11 E11 _ H11. apply wp_lower_ret. split; [congruence|done].
    - apply wp_lower_ret. split; [done|]. split_and!; [done..|]. eapply PI_perm_h; [|exact H']. apply Permutation_swap. }
  apply wp_lower_bind. destruct (a <? 0); [apply wp_lower_ret, Hend; [congruence|done]|]. eapply wp_nonblock; [exact H9|]. intros b s10 H10 E10 _.
  apply Hend; [congruence|done].
Qed.

(** *** Descriptors of the kernel *)
Lemma PI_fds o t x y y' g (w w' : W) : sview w' = sview w → rest_of w' = rest_of w →
  held bl (y' ++ own_l o ++ lfds (conns g)) (dom (v_fds (view w'))) → PI o t x y (g, w) → PI o t x y' (g, w').
Proof. intros E1 E2 Hl []. split; cbn [fst snd] in *; rewrite ?E1, ?E2; done. Qed.

Lemma wp_lsocket (Q : Z → St → Prop) o t x y s : PI o t x y s →
  (∀ r s', s'.1 = s.1 → (if r <? 0 then PI o t x y s' else PI o t x (r :: y) s') → Q r s') → wp (sys l_socket) Q s.
Proof.
  intros HP HQ. apply wp_lower, wp_call. destruct s as [g w]. cbn [fst snd] in *. destruct (l_socket w) as [r w'] eqn:E.
  apply hl_lsocket in E as (Es & [(Hr & E)|(Hr & Hn & p & E)]); cbn [fst snd]; (apply HQ; [done|]).
  - rewrite (proj2 (Z.ltb_lt _ _)) by done. by eapply PI_quiet.
  - rewrite (proj2 (Z.ltb_ge _ _)) by done. eapply PI_fds; [done|unfold rest_of; by rewrite E| |exact HP].
    rewrite E. cbn [v_fds]. rewrite dom_insert_L. apply (sockets_add _ _ _ r); [by apply not_elem_of_dom|apply HP].
Qed.

Lemma wp_pipe2 f (Q : Z * (Z * Z) → St → Prop) o t x y s : PI o t x y s →
  (∀ r s', s'.1 = s.1 → (if r.1 <? 0 then PI o t x y s' else 0 <= r.2.1 ∧ 0 <= r.2.2 ∧ PI o t x (r.2.1 :: r.2.2 :: y) s') → Q r s') →
  wp (sys (l_pipe2 f)) Q s.
Proof.
  intros HP HQ. apply wp_lower, wp_call. destruct s as [g w]. cbn [fst snd] in *. destruct (l_pipe2 f w) as [[r [a b]] w'] eqn:E.
  apply hl_pipe2 in E as (Es & [(Hr & E)|(Hr & Ha & Hb & Hab & Hna & Hnb & p & E)]); cbn [fst snd]; (apply HQ; [done|]); cbn [fst snd].
  - rewrite (proj2 (Z.ltb_lt _ _)) by done. by eapply PI_quiet.
  - rewrite (proj2 (Z.ltb_ge _ _)) by done. split_and!; [done..|]. eapply PI_fds; [done|unfold rest_of; by rewrite E| |exact HP].
    rewrite E. cbn [v_fds app]. rewrite !dom_insert_L. apply sockets_add; [|apply sockets_add; [by apply not_elem_of_dom|apply HP]].
    apply not_elem_of_dom in Hna. set_solver.
Qed.

Lemma wp_lclose fd (Q : Z → St → Prop) o t x y s : PI o t x (fd :: y) s →
  (∀ r s', s'.1 = s.1 → PI o t x y s' → Q r s') → wp (lower (lkl_sys_close fd)) Q s.
Proof.
  intros HP HQ. apply wp_lower, wp_call. destruct s as [g w]. cbn [fst snd] in *. apply HQ; [done|].
  pose proof (law_close fd w) as E. eapply PI_fds; [apply hl_lclose|unfold rest_of; by rewrite E| |exact HP].
  rewrite E. cbn [v_fds]. rewrite dom_delete_L. apply held_del, HP.
Qed.

(** *** The table *)
Lemma hfds_insert l i c c' : l !! i = Some c →
  option_list (host_fd <$> c) ++ hfds (<[i := c']> l) ≡ₚ option_list (host_fd <$> c') ++ hfds l.
Proof. apply (omap_insert (fmap host_fd)). Qed.
Lemma lfds_insert l i c c' : l !! i = Some c →
  option_list (c ≫= live_fd) ++ lfds (<[i := c']> l) ≡ₚ option_list (c' ≫= live_fd) ++ lfds l.
Proof. apply (omap_insert (λ o, o ≫= live_fd)). Qed.

Lemma swap_perm (c c' x x' O H H' : list Z) : c ++ x ≡ₚ c' ++ x' → c ++ H' ≡ₚ c' ++ H → x ++ O ++ H ≡ₚ x' ++ O ++ H'.
Proof.
  intros E1 E2. apply (Permutation_app_inv_l c). rewrite app_assoc, E1, <- app_assoc.
  rewrite (Permutation_app_swap_app c' x'), (Permutation_app_swap_app c' O), <- E2.
  by rewrite (Permutation_app_swap_app c x'), (Permutation_app_swap_app c O).
Qed.

(** An entry changes: the descriptors of the new connection were in hand, those
    of the old one are in hand now. *)
Lemma PI_entry o t x y x' y' g w i c c' : conns g !! i = Some c →
  (∀ k, c' = Some k → slot k = Z.of_nat i ∧ 0 <= host_fd k) →
  option_list (host_fd <$> c) ++ x ≡ₚ option_list (host_fd <$> c') ++ x' →
  option_list (c ≫= live_fd) ++ y ≡ₚ option_list (c' ≫= live_fd) ++ y' →
  PI o t x y (g, w) → PI o t x' y' (set_conns (<[i := c']> (conns g)) g, w).
Proof.
  intros Hi Hc' Hx Hy []. split; cbn [fst snd set_conns conns] in *; try done.
  - by rewrite length_insert.
  - intros j k. rewrite list_lookup_insert_Some. intros [(-> & E & _)|(_ & H)]; [by apply Hc'|by apply pi_slot0].
  - eapply held_perm; [|exact pi_h0]. eapply swap_perm; [exact Hx|by apply hfds_insert].
  - eapply held_perm; [|exact pi_l0]. eapply swap_perm; [exact Hy|by apply lfds_insert].
Qed.

Lemma entries_spec l i c : (i, c) ∈ entries l ↔ l !! i = Some (Some c).
Proof.
  unfold entries. rewrite list_elem_of_omap. split.
  - intros ([j k] & (j' & k' & [= -> ->] & H)%elem_of_lookup_imap_1 & E). cbn in E. destruct k' as [k'|]; [|done]. by injection E as <- <-.
  - intros H. exists (i, Some c). split; [|done]. by apply (elem_of_lookup_imap_2 pair l _ i).
Qed.
Lemma used_nodup l (f : nat → nat) : Inj eq eq f →
  NoDup (omap used (imap (λ i, pair (f i)) l)).*1 ∧ ∀ j, j ∈ (omap used (imap (λ i, pair (f i)) l)).*1 → ∃ i, j = f i.
Proof.
  revert f. induction l as [|c l IH]; intros f Hf; [split; [constructor|intros j Hj; by apply not_elem_of_nil in Hj]|].
  destruct (IH (f ∘ S)) as [H1 H2]; [intros a b E%Hf; lia|]. rewrite imap_cons. cbn [omap list_omap used snd fst fmap option_fmap option_map].
  destruct c as [c|]; cbn [fmap option_fmap option_map list_fmap fst]; (split; [|intros j; rewrite ?elem_of_cons]).
  - apply NoDup_cons. split; [|exact H1]. intros [i E]%H2. apply Hf in E. done.
  - intros [->|[i E]%H2]; [by exists 0%nat|by exists (S i)].
  - exact H1.
  - intros [i E]%H2. by exists (S i).
Qed.
Lemma entries_nodup l : NoDup (entries l).*1.
Proof. apply (used_nodup l (λ i, i)). by intros a b. Qed.

Lemma wp_entries (P : St → Prop) (body : nat * conn → M St ()) l s : NoDup l.*1 → Forall (λ e, conns s.1 !! e.1 = Some (Some e.2)) l → P s →
  (∀ i c s, (i, c) ∈ l → P s → conns s.1 !! i = Some (Some c) →
     wp (body (i, c)) (λ _ s', P s' ∧ ∀ j, j ≠ i → conns s'.1 !! j = conns s.1 !! j) s) → wp (mfor l body) (λ _, P) s.
Proof.
  revert s. induction l as [|[i c] l IH]; intros s Hn Hl HP Hb; cbn [mfor]; [by apply wp_ret|].
  apply NoDup_cons in Hn as [Hi Hn]. apply Forall_cons in Hl as [Hc Hl]. cbn [fst snd] in *. apply wp_bind. eapply wp_mono.
  - apply Hb; [by left|done|done].
  - intros [] s' [HP' Hk]. apply IH; [done| |done|].
    + rewrite Forall_forall in Hl |- *. intros e He. rewrite Hk; [by apply Hl|]. intros <-. apply Hi. by apply list_elem_of_fmap_2.
    + intros j k s2 Hin. apply Hb. by right.
Qed.
Lemma Forall_entries (f : nat * conn → bool) l : Forall (λ e, l !! e.1 = Some (Some e.2)) (filter f (entries l)).
Proof. apply Forall_forall. intros [i c] [_ H]%list_elem_of_filter. by apply entries_spec. Qed.
Lemma filter_fst_nodup (f : nat * conn → bool) (l : list (nat * conn)) : NoDup l.*1 → NoDup (filter f l).*1.
Proof.
  induction l as [|a l IH]; [done|]. cbn [fmap list_fmap]. intros [Ha Hn]%NoDup_cons. rewrite filter_cons. destruct (decide (f a)); [|by apply IH].
  cbn [fmap list_fmap]. apply NoDup_cons. split; [|by apply IH]. intros (b & E & [_ Hb]%list_elem_of_filter)%list_elem_of_fmap. apply Ha. rewrite E. by apply list_elem_of_fmap_2.
Qed.

Lemma wp_conn_attach o t x y s c : 0 <= host_fd c → lkl_fd c < 0 → PI o t (host_fd c :: x) y s →
  wp (conn_attach c) (λ r s', s'.2 = s.2 ∧ if r <? 0 then PI o t (host_fd c :: x) y s' else PI o t x y s') s.
Proof.
  intros Hh Hl HP. unfold conn_attach. apply wp_bind, wp_gets. destruct (list_find _ _) as [[i a]|] eqn:E; [|by apply wp_ret].
  apply list_find_Some in E as (Hi & -> & _). apply wp_bind, wp_mod, wp_ret. split; [done|]. cbn [Z.ltb Z.compare]. destruct s as [g w]. cbn [fst snd] in *.
  eapply PI_entry; [exact Hi| | | |exact HP]; [by intros k [= <-]|done|].
  change (Some ?c ≫= live_fd) with (live_fd c). unfold live_fd. cbn [lkl_fd]. by rewrite (proj2 (Z.ltb_lt _ _)) by done.
Qed.

Lemma wp_conn_free o t y s i c : conns s.1 !! i = Some (Some c) → PI o t [] y s →
  wp (conn_free i c) (λ _ s', PI o t [] y s' ∧ ∀ j, j ≠ i → conns s'.1 !! j = conns s.1 !! j) s.
Proof.
  intros Hi HP. destruct (pi_slot _ _ _ _ _ HP i c Hi) as [Hs Hh]. unfold conn_free. rewrite Hs, Z.eqb_refl, (proj2 (Z.leb_le 0 (Z.of_nat i))) by lia. cbn [andb].
  apply wp_bind, wp_mod. set (s1 := (_, s.2)). assert (H1 : PI o t [host_fd c] (option_list (live_fd c) ++ y) s1).
  { destruct s as [g w]. eapply (PI_entry _ _ [] y _ _ _ _ _ (Some c) None); [exact Hi|done|done|done|exact HP]. }
  assert (Hk : ∀ j, j ≠ i → conns s1.1 !! j = conns s.1 !! j) by (intros j Hj; cbn; by rewrite list_lookup_insert_ne).
  apply wp_bind. rewrite (proj2 (Z.ltb_ge (host_fd c) 0)) by done. eapply wp_sock_close; [exact H1|]. intros _ s2 E2 _ H2.
  unfold live_fd in H2. apply wp_bind. destruct (Z.ltb_spec (lkl_fd c) 0), (Z.leb_spec 0 (lkl_fd c)); try lia; cbn [option_list app] in H2.
  - apply wp_ret, wp_ret. rewrite E2. by split.
  - eapply wp_lclose; [exact H2|]. intros _ s3 E3 H3. apply wp_ret. rewrite E3, E2. by split.
Qed.

(** *** What the threads do with the table *)
Lemma wp_free_done o t y s : PI o t [] y s → wp free_done (λ _ s', PI o t [] y s') s.
Proof.
  intros HP. unfold free_done. apply wp_bind, wp_gets. apply (wp_entries (PI o t [] y)); [apply entries_nodup| |done|].
  - apply Forall_forall. intros [i c] H. by apply entries_spec.
  - intros i c s1 _ H1 Hi. cbn [fst snd]. destruct (conn_done c); [by apply wp_conn_free|]. by apply wp_ret.
Qed.

Lemma wp_accept fuel n o t y s : (waiting (sview s.2) < fuel)%nat → PI o t [] y s → wp (host_accept fuel n) (λ _ s', PI o t [] y s') s.
Proof.
  revert n s. induction fuel as [|fuel IH]; intros n s Hw HP; [lia|]. cbn [host_accept]. apply wp_bind, wp_gets, wp_bind.
  eapply wp_haccept; [exact HP|]. intros [cfd e] s1 E1 Hd H1. cbn [fst snd] in *. destruct (Z.ltb_spec cfd 0) as [Hc|Hc].
  { destruct (e =? HSOCK_EAGAIN); [by apply wp_ret|]. destruct (Z.eqb_spec e HSOCK_EINTR) as [He|]; [|by apply wp_ret]. apply IH; [|done]. specialize (Hd (or_intror He)). lia. }
  specialize (Hd (or_introl Hc)).
  assert (Hrefuse : ∀ s', (waiting (sview s'.2) < fuel)%nat → PI o t [cfd] y s' →
    wp (_ ← sys (h_sclose cfd); host_accept fuel n) (λ _ s', PI o t [] y s') s').
  { intros s' Hw' H'. apply wp_bind. eapply wp_sock_close; [exact H'|]. intros _ s2 _ W2 H2. apply IH; [by rewrite W2|done]. }
  apply wp_bind. eapply wp_nonblock; [exact H1|]. intros nb s2 H2 _ W2. destruct (nb <? 0); [apply Hrefuse; [lia|done]|].
  apply wp_bind. eapply wp_quiet_sock; [constructor|exact H2|]. intros _ s3 H3 _ W3. apply wp_bind. eapply wp_quiet_sock; [constructor|exact H3|]. intros ok s4 H4 _ W4.
  destruct ok; cbn [negb]; [|apply Hrefuse; [lia|done]]. apply wp_bind. eapply wp_quiet_sock; [constructor|exact H4|]. intros a s5 H5 _ W5.
  apply wp_bind. eapply wp_quiet_sock; [constructor|exact H5|]. intros b s6 H6 _ W6. apply wp_bind.
  apply (wp_mono _ (λ r s', s'.2 = s6.2 ∧ if r <? 0 then PI o t [cfd] y s' else PI o t [] y s')).
  { destruct a as [a|]; [|by apply wp_ret]. destruct b as [b|]; [|by apply wp_ret]. by apply (wp_conn_attach o t [] y s6 (new_conn cfd a b)). }
  intros r s7 [E7 H7]. cbv beta in *. destruct (r <? 0); [apply Hrefuse|apply IH]; rewrite ?E7; (lia || done).
Qed.

(** A change of entry [i] by its own function. *)
Lemma wp_set_entry f o t x y x' y' s i c : conns s.1 !! i = Some (Some c) → slot (f c) = slot c → host_fd (f c) = host_fd c →
  option_list (live_fd c) ++ y ≡ₚ option_list (live_fd (f c)) ++ y' → x = x' → PI o t x y s →
  wp (set_entry i f) (λ _ s', PI o t x' y' s' ∧ ∀ j, j ≠ i → conns s'.1 !! j = conns s.1 !! j) s.
Proof.
  intros Hi Hs Hh Hy <- HP. apply wp_mod. destruct s as [g w]. cbn [fst snd] in *.
  assert (E : alter (fmap f) i (conns g) = <[i := Some (f c)]> (conns g)).
  { apply list_eq. intros j. destruct (decide (i = j)) as [<-|Hj].
    - rewrite list_lookup_alter_eq, Hi, list_lookup_insert_eq by (by eapply lookup_lt_Some). done.
    - by rewrite list_lookup_alter_ne, list_lookup_insert_ne. }
  rewrite E. split; [|intros j Hj; cbn; by rewrite list_lookup_insert_ne].
  destruct (pi_slot _ _ _ _ _ HP i c Hi). eapply (PI_entry _ _ x y _ _ _ _ _ (Some c) (Some (f c))); [exact Hi| | |exact Hy|exact HP].
  - intros k [= <-]. by rewrite Hs, Hh.
  - cbn. by rewrite Hh.
Qed.

Lemma wp_connect_one o t x y s i c : conns s.1 !! i = Some (Some c) → lkl_fd c < 0 → PI o t x y s →
  wp (connect_one i) (λ _ s', PI o t x y s' ∧ ∀ j, j ≠ i → conns s'.1 !! j = conns s.1 !! j) s.
Proof.
  intros Hi Hl HP. assert (Hnone : ∀ s', s'.1 = s.1 → PI o t x y s' → wp (set_entry i end_all) (λ _ s'', PI o t x y s'' ∧ ∀ j, j ≠ i → conns s''.1 !! j = conns s.1 !! j) s').
  { intros s' E' H'. rewrite <- E' in *. by eapply wp_set_entry. }
  unfold connect_one. apply wp_bind, wp_gets, wp_bind. eapply wp_lsocket; [exact HP|]. intros sk s1 E1 H1. apply wp_bind.
  destruct (Z.ltb_spec sk 0) as [Hk|Hk].
  { destruct (Z.leb_spec 0 sk); [lia|]. apply wp_ret. rewrite (proj2 (Z.ltb_lt sk 0)) by done. by apply Hnone. }
  rewrite (proj2 (Z.leb_le 0 sk)) by done. apply wp_bind. eapply wp_quiet_sock; [constructor|exact H1|]. intros fl s2 H2 E2 _.
  apply wp_bind. eapply wp_quiet_sock; [constructor|exact H2|]. intros _ s3 H3 E3 _. apply wp_bind. eapply wp_quiet_sock; [constructor|exact H3|]. intros r s4 H4 E4 _.
  destruct (Z.ltb_spec r 0) as [Hr|Hr]; [destruct (r =? - LKL_EINPROGRESS)|]; cbn [andb negb].
  2: { apply wp_bind. eapply wp_lclose; [exact H4|]. intros _ s5 E5 H5. apply wp_ret. rewrite (proj2 (Z.ltb_lt r 0)) by done. apply Hnone; [congruence|done]. }
  all: apply wp_ret; rewrite (proj2 (Z.ltb_ge sk 0)) by done; assert (E : s4.1 = s.1) by congruence; rewrite <- E in *;
    eapply wp_set_entry; [exact Hi|done|done| |done|exact H4]; unfold live_fd; cbn [lkl_fd set_lkl_fd];
    rewrite (proj2 (Z.ltb_lt (lkl_fd c) 0)), (proj2 (Z.ltb_ge sk 0)) by done; done.
Qed.

Lemma wp_connect_new n o t x y s : PI o t x y s → wp (lkl_connect_new n) (λ _ s', PI o t x y s') s.
Proof.
  intros HP. unfold lkl_connect_new. apply wp_bind, wp_gets, wp_bind. apply (wp_mono _ (λ _ s', PI o t x y s')); [|intros; by apply wp_ret].
  apply (wp_entries (PI o t x y)); [apply filter_fst_nodup, entries_nodup|apply Forall_entries|done|].
  intros i c s1 [Hf _]%list_elem_of_filter H1 Hi. unfold to_connect in Hf. cbn [snd] in Hf. apply Is_true_eq_true, andb_true_iff in Hf as [Hf%Z.ltb_lt _].
  by eapply wp_connect_one.
Qed.

Lemma wp_force_all o t x y (l : list (nat * conn)) s : NoDup l.*1 → Forall (λ e, conns s.1 !! e.1 = Some (Some e.2)) l → Forall (λ e, 0 <= lkl_fd e.2) l →
  PI o t x y s → wp (mfor l (λ e, set_entry e.1 force_close)) (λ _ s', PI o t x ((lkl_fd ∘ snd <$> l) ++ y) s') s.
Proof.
  revert y s. induction l as [|[i c] l IH]; intros y s Hn Hl Hf HP; cbn [mfor]; [by apply wp_ret|].
  apply NoDup_cons in Hn as [Hi Hn]. apply Forall_cons in Hl as [Hc Hl]. apply Forall_cons in Hf as [Hc0 Hf]. cbn [fst snd] in *. apply wp_bind. eapply wp_mono.
  - eapply (wp_set_entry force_close o t x y x (lkl_fd c :: y)); [exact Hc|done|done| |done|done]. unfold live_fd. rewrite (proj2 (Z.ltb_ge (lkl_fd c) 0)) by done. done.
  - intros [] s' [HP' Hk]. eapply wp_mono; [apply (IH (lkl_fd c :: y)); [done| |done|done]|].
    + rewrite Forall_forall in Hl |- *. intros e He. rewrite Hk; [by apply Hl|]. intros <-. apply Hi. by apply list_elem_of_fmap_2.
    + intros [] s2 H2. eapply PI_perm_l; [|exact H2]. cbn. by rewrite <- Permutation_middle.
Qed.
Lemma wp_close_all_fds o t x y (l : list (nat * conn)) s : PI o t x ((lkl_fd ∘ snd <$> l) ++ y) s →
  wp (mfor l (λ e, _ ← lower (lkl_sys_close (lkl_fd e.2)); mret ())) (λ _ s', PI o t x y s') s.
Proof.
  revert s. induction l as [|[i c] l IH]; intros s HP; cbn [mfor]; [by apply wp_ret|]. apply wp_bind, wp_bind.
  eapply wp_lclose; [exact HP|]. intros _ s1 _ H1. apply wp_ret. by apply IH.
Qed.
Lemma wp_force n o t x y s : PI o t x y s → wp (lkl_do_force_close n) (λ _ s', PI o t x y s') s.
Proof.
  intros HP. unfold lkl_do_force_close. apply wp_bind, wp_gets, wp_bind. eapply wp_mono.
  - apply wp_force_all; [apply filter_fst_nodup, entries_nodup|apply Forall_entries| |exact HP].
    apply Forall_forall. intros [i c] [Hf _]%list_elem_of_filter. unfold to_close in Hf. cbn [snd] in *. apply Is_true_eq_true, andb_true_iff in Hf as [Hf _]. zify_bools. lia.
  - intros [] s1 H1. cbv beta in H1. apply wp_bind. eapply wp_mono; [by apply wp_close_all_fds|]. intros [] s2 H2. by apply wp_ret.
Qed.

(** *** Start and stop *)
Lemma PI_running t x y g (w : W) b : PI None t x y (g, w) → running g = false → PI None t x y (mk_pg (-1) (-1) (-1) (-1) (-1) (lkl_port g) (running g) b (conns g), w).
Proof. intros [] Hr. split; try done. unfold own_of. cbn. by rewrite Hr. Qed.

Lemma PI_listen t x y g (w : W) fd : PI None t x y (g, w) → PI None t x y (set_listen fd g, w).
Proof. intros []. split; try done. cbn in pi_own0 |- *. unfold own_of in *. cbn. by destruct (running g). Qed.

Lemma own_none (s : St) o t x y : PI o t x y s → running s.1 = false ↔ o = None.
Proof. intros HP. rewrite <- (pi_own _ _ _ _ _ HP). unfold own_of. by destruct (running s.1). Qed.

Lemma wp_thread_create th (Q : Z → St → Prop) o t x y s : (∀ t (w : W), (h_create t w).1 = 0) → PI o t x y s →
  (∀ s', s'.1 = s.1 → PI o (th :: t) x y s' → Q 0 s') → wp (sys (h_create th)) Q s.
Proof.
  intros Hc HP HQ. apply wp_lower, wp_call. destruct s as [g w]. cbn [fst snd]. specialize (Hc th w). destruct (h_create th w) as [r w'] eqn:E. cbn [fst snd] in *.
  apply hl_create in E as (Ev & [[? _]|[-> E]]); [done|]. apply HQ; [done|]. destruct HP. split; unfold rest_of in *; cbn [fst snd] in *; rewrite ?Ev, ?E; try done.
  cbn. by rewrite <- pi_threads0.
Qed.
Lemma wp_join th (Q : Z → St → Prop) o t x y s : PI o t x y s →
  (∀ r s', s'.1 = s.1 → PI o (filter (.≠ th) t) x y s' → Q r s') → wp (sys (h_join th)) Q s.
Proof.
  intros HP HQ. apply wp_lower, wp_call. destruct s as [g w]. cbn [fst snd]. destruct (hl_join th w) as [Ev E]. apply HQ; [done|].
  destruct HP. split; unfold rest_of in *; cbn [fst snd] in *; rewrite ?Ev, ?E; try done. cbn. by rewrite <- pi_threads0.
Qed.

Lemma wp_start p q s : (∀ t (w : W), (h_create t w).1 = 0) → PI None [] [] [] s →
  wp (host_proxy_start p q) (λ r s', conns s'.1 = conns s.1 ∧ if r <? 0 then PI None [] [] [] s' else ∃ o, PI (Some o) [HostThread; LklThread] [] [] s') s.
Proof.
  intros Hcr HP. unfold host_proxy_start. apply wp_bind, wp_mod. destruct s as [g w]. cbn [fst snd].
  assert (HP0 := PI_running _ _ _ _ _ (busy_spin g) HP (proj2 (own_none _ _ _ _ _ HP) eq_refl)). set (g0 := mk_pg _ _ _ _ _ _ _ _ _) in *.
  assert (Hc0 : conns g0 = conns g) by done. clearbody g0.
  assert (Hfail : ∀ s', s'.1 = g0 → PI None [] [] [] s' → wp (mret (M := M St) (-1)) (λ r s', conns s'.1 = conns g ∧
    if r <? 0 then PI None [] [] [] s' else ∃ o, PI (Some o) [HostThread; LklThread] [] [] s') s').
  { intros s' E' H'. apply wp_ret. by rewrite E', Hc0. }
  apply wp_bind. eapply wp_hsocket; [exact HP0|]. intros s s1 E1 _ H1. destruct (Z.ltb_spec s 0) as [_|Hs]; [by apply Hfail|].
  apply wp_bind. eapply wp_quiet_sock; [constructor|exact H1|]. intros _ s2 H2 E2 _. apply wp_bind. eapply wp_quiet_sock; [constructor|exact H2|]. intros r3 s3 H3 E3 _.
  cbn [fst] in E1. apply wp_bind. apply (wp_mono _ (λ _ s', s'.1 = g0 ∧ PI None [] [s] [] s')).
  { destruct (r3 <? 0); [apply wp_ret; split; [congruence|done]|]. eapply wp_quiet_sock; [constructor|exact H3|]. intros _ s' H' E' _. split; [congruence|done]. }
  intros r4 s4 [E4 H4]. apply wp_bind. apply (wp_mono _ (λ _ s', s'.1 = g0 ∧ PI None [] [s] [] s')).
  { destruct (r4 <? 0); [by apply wp_ret|]. eapply wp_nonblock; [exact H4|]. intros _ s' H' E' _. split; [congruence|done]. }
  intros r5 s5 [E5 H5]. destruct (r5 <? 0).
  { apply wp_bind. eapply wp_sock_close; [exact H5|]. intros _ s6 E6 _ H6. apply Hfail; [congruence|done]. }
  apply wp_bind. eapply wp_mono; [by apply wp_wake_pair|]. intros [[wr ww]|] s6 [E6 H6].
  2: { apply wp_bind. eapply wp_sock_close; [exact H6|]. intros _ s7 E7 _ H7. apply Hfail; [congruence|done]. }
  destruct H6 as (Hwr & Hww & H6). apply wp_bind. eapply wp_pipe2; [exact H6|]. intros [pr [a b]] s7 E7 H7. cbn [fst snd] in *.
  destruct (pr <? 0).
  { apply wp_bind. eapply wp_sock_close; [eapply (PI_perm_h _ _ _ [s; wr; ww]); [|exact H7]; by rewrite (Permutation_app_comm [wr; ww] [s])|]. intros _ s8 E8 _ H8.
    apply wp_bind. eapply wp_sock_close; [exact H8|]. intros _ s9 E9 _ H9. apply wp_bind. eapply wp_sock_close; [exact H9|]. intros _ s10 E10 _ H10. apply Hfail; [congruence|done]. }
  destruct H7 as (Ha & Hb & H7). apply wp_bind, wp_mod. destruct s7 as [g7 w7]. cbn [fst snd] in *. rewrite E6, E5 in E7. subst g7.
  set (o := ([s; wr; ww], [a; b])). assert (H8 : PI (Some o) [] [] [] (mk_pg s wr ww a b q true (busy_spin g0) (conns g0), w7)).
  { destruct H7. split; try done; [by repeat constructor|]. eapply held_perm; [|exact pi_h0]. exact (Permutation_app_swap_app [wr; ww] [s] (hfds (conns g0))). }
  apply wp_bind. eapply wp_thread_create; [done|exact H8|]. intros s9 E9 H9. cbn [Z.eqb]. apply wp_bind. eapply wp_thread_create; [done|exact H9|].
  intros s10 E10 H10. apply wp_ret. rewrite E10, E9. split; [exact Hc0|by exists o].
Qed.

Lemma wp_proxy_stop o s : PI (Some o) [HostThread; LklThread] [] [] s →
  wp host_proxy_stop (λ _ s', running s'.1 = false ∧ conns s'.1 = conns s.1 ∧ PI None [] [] [] s') s.
Proof.
  intros HP. destruct s as [g w]. pose proof (pi_own _ _ _ _ _ HP) as Ho. unfold own_of in Ho. cbn [fst] in Ho. destruct (running g) eqn:Er; [|done].
  injection Ho as <-. pose proof (pi_pos _ _ _ _ _ HP) as Hpos. cbn in Hpos. rewrite !Forall_cons in Hpos. destruct Hpos as (P1 & P2 & P3 & P4 & P5 & _).
  unfold host_proxy_stop. apply wp_bind, wp_gets. cbn [fst]. rewrite Er. cbn [negb]. apply wp_bind, wp_mod. cbn [fst snd].
  set (g1 := set_running false g).
  assert (H1 : PI None [HostThread; LklThread] [listen_fd g; host_wake_r g; host_wake_w g] [lkl_wake_r g; lkl_wake_w g] (g1, w)).
  { destruct HP. split; try done. }
  rewrite (proj2 (Z.ltb_ge (listen_fd g) 0)), (proj2 (Z.ltb_ge (host_wake_r g) 0)), (proj2 (Z.ltb_ge (host_wake_w g) 0)) by done.
  rewrite (proj2 (Z.leb_le 0 (lkl_wake_r g))), (proj2 (Z.leb_le 0 (lkl_wake_w g))) by done.
  apply wp_bind, wp_bind. eapply wp_quiet_sock; [constructor|exact H1|]. intros _ s2 H2 E2 _. apply wp_bind. eapply wp_sock_close; [exact H2|]. intros _ [g3 w3] E3 _ H3.
  apply wp_mod. cbn [fst snd] in *. rewrite E2 in E3. subst g3.
  assert (H4 : PI None [HostThread; LklThread] [host_wake_r g; host_wake_w g] [lkl_wake_r g; lkl_wake_w g] (set_listen (-1) g1, w3)).
  { by apply PI_listen. }
  apply wp_bind, wp_bind, wp_gets, wp_bind. eapply wp_quiet_sock; [constructor|exact H4|]. intros _ s5 H5 E5 _. apply wp_ret.
  apply wp_bind, wp_bind, wp_gets, wp_bind. eapply wp_quiet_sock; [constructor|exact H5|]. intros _ s6 H6 E6 _. apply wp_ret.
  apply wp_bind. eapply wp_join; [exact H6|]. intros _ s7 E7 H7. apply wp_bind. eapply wp_join; [exact H7|]. intros _ s8 E8 H8.
  apply wp_bind. eapply wp_sock_close; [exact H8|]. intros _ s9 E9 _ H9. apply wp_bind. eapply wp_sock_close; [exact H9|]. intros _ s10 E10 _ H10.
  apply wp_bind. eapply wp_lclose; [exact H10|]. intros _ s11 E11 H11. apply wp_bind. eapply wp_lclose; [exact H11|]. intros _ s12 E12 H12.
  apply wp_ret. cbn [fst] in E5. assert (E : s12.1 = set_listen (-1) g1) by congruence. rewrite E. split_and!; [done|done|]. exact H12.
Qed.
End Inv.

(** ** A run of the proxy *)

(** What the two threads do to the table, in any order: connections are
    accepted, connected, closed by force, released; host_io, lkl_io and the
    error branches change the flags and the rings of one connection. *)
Inductive op := OAccept | OConnect | OForce | OFree | OIo (i : nat) (k : conn).
Definition io (k c : conn) : conn :=
  mk_conn (host_fd c) (lkl_fd c) (h2l k) (l2h k) (host_read_eof k) (lkl_read_eof k) (host_wr_shut k) (lkl_wr_shut k) (lkl_close_req k) (slot c).

Section Run.
Context {W : Type} `{!Lkl W, !LklWrite W, !HSock W}.
Definition run_op (fuel : nat) (x : op) : M (PG * W) () :=
  match x with
  | OAccept => _ ← host_accept fuel false; mret ()
  | OConnect => _ ← lkl_connect_new false; mret ()
  | OForce => _ ← lkl_do_force_close false; mret ()
  | OFree => free_done
  | OIo i k => set_entry i (io k)
  end.
Definition run (fuel : nat) (p q : Z) (ops : list op) : M (PG * W) Z :=
  r ← host_proxy_start p q;
  if r <? 0 then mret r
  else _ ← mfor ops (run_op fuel); _ ← host_proxy_stop; mret 0.
End Run.

Lemma alter_empty (f : conn → conn) i (l : list (option conn)) : mjoin (l !! i) = None → alter (fmap f) i l = l.
Proof.
  intros H. apply list_eq. intros j. destruct (decide (i = j)) as [<-|Hj]; [|by rewrite list_lookup_alter_ne]. rewrite list_lookup_alter_eq.
  by destruct (l !! i) as [[c|]|].
Qed.
Lemma wp_op {W} `{!Lkl W, !LklLaws W, !LklWrite W, !HSock W, !HSockLaws W} n0 bh bl r0 fuel x o t (s : PG * W) : (n0 < fuel)%nat →
  PI n0 bh bl r0 o t [] [] s → wp (run_op fuel x) (λ _ s', PI n0 bh bl r0 o t [] [] s') s.
Proof.
  intros Hn HP. destruct x as [| | | |i k]; cbn [run_op].
  - apply wp_bind. eapply wp_mono; [apply wp_accept; [|exact HP]|intros; by apply wp_ret]. pose proof (pi_wait _ _ _ _ _ _ _ _ _ HP). lia.
  - apply wp_bind. eapply wp_mono; [by eapply wp_connect_new|intros; by apply wp_ret].
  - apply wp_bind. eapply wp_mono; [by eapply wp_force|intros; by apply wp_ret].
  - by apply wp_free_done.
  - destruct (conns s.1 !! i) as [[c|]|] eqn:E.
    + eapply wp_mono; [eapply (wp_set_entry _ _ _ _ (io k)); [exact E|done|done|done|done|exact HP]|]. by intros [] s' [H _].
    + apply wp_mod. destruct s as [g w]. cbn [fst snd] in *. rewrite alter_empty by (by rewrite E). by destruct g.
    + apply wp_mod. destruct s as [g w]. cbn [fst snd] in *. rewrite alter_empty by (by rewrite E). by destruct g.
Qed.

Section Ends.
Context {W : Type} `{!Lkl W, !LklLaws W, !LklWrite W, !HSock W, !HSockLaws W}.

Lemma omap_none {B} (f : option conn → option B) n : f None = None → omap f (replicate n None) = [].
Proof. intros Hf. induction n as [|n IH]; [done|]. cbn. by rewrite Hf. Qed.
Lemma PI_empty (g : PG) (w : W) : running g = false → conns g = replicate MAX_CONNS None → threads (sview w) = [] →
  PI (waiting (sview w)) (socks (sview w)) (dom (v_fds (view w))) (rest_of w) None [] [] [] (g, w).
Proof.
  intros Hr Hc Ht. split; cbn [fst snd own_h own_l from_option app]; rewrite ?Hc.
  - by rewrite length_replicate.
  - intros i c [H _]%lookup_replicate. done.
  - unfold own_of. by rewrite Hr.
  - constructor.
  - done.
  - done.
  - done.
  - unfold hfds. rewrite omap_none by done. split; [constructor|]. split; [set_solver|cbn; set_solver].
  - unfold lfds. rewrite omap_none by done. split; [constructor|]. split; [set_solver|cbn; set_solver].
Qed.

(** What is left when the proxy does not run. *)
Definition left (w : W) (s' : PG * W) : Prop :=
  running s'.1 = false ∧ threads (sview s'.2) = [] ∧ rest_of s'.2 = rest_of w ∧
  (∀ i c, conns s'.1 !! i = Some (Some c) → slot c = Z.of_nat i) ∧
  held (socks (sview w)) (hfds (conns s'.1)) (socks (sview s'.2)) ∧ held (dom (v_fds (view w))) (lfds (conns s'.1)) (dom (v_fds (view s'.2))).
Lemma PI_left n0 (w : W) s' : PI n0 (socks (sview w)) (dom (v_fds (view w))) (rest_of w) None [] [] [] s' → left w s'.
Proof.
  intros H. split; [by apply (own_none _ _ _ _ _ _ _ _ _ H)|]. destruct H. split_and!; try done. intros i c Hi. by apply pi_slot0.
Qed.
End Ends.


(** A host and a kernel whose descriptors are numbered upwards; [rc] is what
    pthread_create returns, and the last field of the host counts the clients
    that will still come. *)
Definition htoy : Type := (SView * Toy.toy)%type.
Definition next (X : gset Z) : Z := set_fold Z.max 2 X + 1.
Lemma next_fresh X : 0 <= next X ∧ next X ∉ X.
Proof.
  assert (H : 2 <= set_fold Z.max 2 X ∧ ∀ x, x ∈ X → x <= set_fold Z.max 2 X).
  { apply (set_fold_ind_L (λ r X, 2 <= r ∧ ∀ x, x ∈ X → x <= r)); [split; [lia|set_solver]|].
    intros x Y r Hx [H1 H2]. split; [lia|]. intros y [->%elem_of_singleton|Hy%H2]%elem_of_union; lia. }
  unfold next. split; [lia|]. intros Hn. destruct H as [_ H]. specialize (H _ Hn). lia.
Qed.
Definition set_fds (f : gmap Z bytes → gmap Z bytes) (w : Toy.toy) : Toy.toy :=
  Toy.set_view w (mk_view (f (v_fds (Toy.t_view w))) (v_mnt (Toy.t_view w)) (v_bro (Toy.t_view w)) (v_dsk (Toy.t_view w))).
Definition with_socks (f : gset Z → gset Z) (h : SView) : SView := mk_sv (f (socks h)) (threads h) (waiting h).
Definition hquiet {A} (a : A) : kcall htoy A := λ w, (a, w).
#[local] Instance htoy_write : LklWrite htoy := {| sys_write fd b := hquiet (len b) |}.
Definition htoy_sock (rc : Z) : HSock htoy := {|
  h_socket w := (next (socks w.1), (with_socks (λ X, {[next (socks w.1)]} ∪ X) w.1, w.2));
  h_setsockopt _ _ := hquiet 0;
  h_bind _ _ _ := hquiet 0;
  h_getsockname _ := hquiet (0, 4242);
  h_listen _ _ := hquiet 0;
  h_connect _ _ _ := hquiet 0;
  h_accept _ w :=
    match waiting w.1 with
    | O => ((-1, HSOCK_EAGAIN), w)
    | S n => ((next (socks w.1), 0), (mk_sv ({[next (socks w.1)]} ∪ socks w.1) (threads w.1) n, w.2))
    end;
  h_getfl _ := hquiet 0;
  h_setfl _ _ := hquiet 0;
  h_shutdown _ _ := hquiet 0;
  h_send _ b := hquiet (len b);
  h_sclose s w := (0, (with_socks (λ X, X ∖ {[s]}) w.1, w.2));
  h_create t w := (rc, if rc =? 0 then (mk_sv (socks w.1) (t :: threads w.1) (waiting w.1), w.2) else w);
  h_join t w := (0, (mk_sv (socks w.1) (filter (.≠ t) (threads w.1)) (waiting w.1), w.2));
  h_calloc := hquiet true;
  h_malloc _ := hquiet (Some []);
  l_pipe2 _ w := let a := next (dom (v_fds (Toy.t_view w.2))) in
    ((0, (a, next ({[a]} ∪ dom (v_fds (Toy.t_view w.2))))), (w.1, set_fds (λ m, <[a := []]> (<[next ({[a]} ∪ dom m) := []]> m)) w.2));
  l_socket w := let a := next (dom (v_fds (Toy.t_view w.2))) in (a, (w.1, set_fds (<[a := []]>) w.2));
  l_getfl _ := hquiet 0;
  l_setfl _ _ := hquiet 0;
  l_connect _ _ _ := hquiet (- LKL_EINPROGRESS) |}.
#[local] Instance htoy_sock0 : HSock htoy := htoy_sock 0.
(** Over any kernel with the descriptors of [Toy]. *)
Definition toy_sock_laws (L : Lkl Toy.toy) (LL : @LklLaws Toy.toy L) (Hv : ∀ w, @view _ L LL w = Toy.t_view w) :
  @HSockLaws htoy (@lift_lkl SView Toy.toy L) (@lift_lkl_laws SView _ L LL) htoy_write htoy_sock0.
Proof.
  refine (@Build_HSockLaws htoy (@lift_lkl SView Toy.toy L) (@lift_lkl_laws SView _ L LL) htoy_write htoy_sock0 (λ w, w.1) _ _ _ _ _ _ _ _ _);
    unfold view; cbn -[next] in *; try done.
  - intros A f w Hf. destruct Hf; by split.
  - intros w r w' [= <- <-]. split; [done|]. right. pose proof (next_fresh (socks w.1)). split_and!; [lia|naive_solver|done].
  - intros _ w r e w'. destruct (waiting w.1) as [|n] eqn:E; intros [= <- <- <-]; cbn [fst snd socks threads waiting].
    + split_and!; [done|done|lia|]. left. split_and!; [lia|done|by vm_compute].
    + pose proof (next_fresh (socks w.1)). split_and!; [done|done|lia|]. right. split_and!; [lia|naive_solver|done|lia].
  - intros t w r w' [= <- <-]. split; [done|]. by right.
  - intros _ w r a b w' [= <- <- <- <-]. split; [done|]. right. rewrite !Hv. set (a := next (dom _)). set (b := next ({[a]} ∪ _)).
    pose proof (next_fresh (dom (v_fds (Toy.t_view w.2)))) as [H1 H2]. pose proof (next_fresh ({[a]} ∪ dom (v_fds (Toy.t_view w.2)))) as [H3 H4].
    fold a in H1, H2. fold b in H3, H4. split_and!; [done|done|done|set_solver|by apply not_elem_of_dom|apply not_elem_of_dom; set_solver|by exists []].
  - intros w r w' [= <- <-]. split; [done|]. right. rewrite !Hv. pose proof (next_fresh (dom (v_fds (Toy.t_view w.2)))) as [H1 H2].
    split_and!; [done|by apply not_elem_of_dom|by exists []].
Defined.
#[local] Instance htoy_laws : HSockLaws htoy := toy_sock_laws _ _ (λ _, eq_refl).

Definition pg0 : PG := mk_pg (-1) (-1) (-1) (-1) (-1) 0 false false (replicate MAX_CONNS None).
Definition htoy0 : htoy := (mk_sv {[0; 1]} [] 4, Toy.mk_toy 3 (mk_view ∅ ∅ ∅ ∅) ∅ ∅ ∅ 0 Toy.empty_hview ∅).
Definition ring0 : Ring.ring := Ring.mk_ring [] 0 0.
Definition ops0 : list op :=
  [OAccept; OConnect; OIo 1 (mk_conn 0 0 ring0 ring0 true true true true false 0); OFree; OIo 0 (mk_conn 0 0 ring0 ring0 true false true false true 0); OForce].


(** The run of the witness: three clients come, the second has ended, the first
    is closed by force; the first and the third are still in the table. *)
Example proxy_toy :
  (λ r, (r.1, hfds (conns r.2.1), lfds (conns r.2.1), elements (socks r.2.2.1), elements (dom (v_fds (view r.2.2))))) <$> run 5 2049 2049 ops0 (pg0, htoy0)
  = Some (0, [7; 9], [7], [7; 9; 1; 0], [7]).
Proof. vm_compute. reflexivity. Qed.

(** ** Where the code departs from its intention *)

(** When a thread cannot be created, start reports the failure and leaves its
    sockets and its pipe open; stop does nothing then. *)
Lemma failed_start_leaks :
  (λ r, (r.1, running r.2.1, size (socks r.2.2.1), size (dom (v_fds (view r.2.2))))) <$>
    (r ← host_proxy_start (HSock0 := htoy_sock 11) 2049 2049; _ ← host_proxy_stop (HSock0 := htoy_sock 11); mret r) (pg0, htoy0)
  = Some (-1, false, 5%nat, 2%nat).
Proof. vm_compute. reflexivity. Qed.

(** ** The interface of the servers *)
Section Interface.
Context {W : Type} `{!Lkl W, !LklLaws W, !LklWrite W, !HSock W, !HSockLaws W}.
Notation St := (PG * W)%type.

Definition kr {A} (m : M St A) : Prop := ∀ s, wp m (λ _ s', rest_of s'.2 = rest_of s.2) s.
Definition krw {A} (m : M W A) : Prop := ∀ w, wp m (λ _ w', rest_of w' = rest_of w) w.
Lemma kr_ret {A} (a : A) : kr (mret a).
Proof. intros s. by apply wp_ret. Qed.
Lemma kr_bind {A B} (m : M St A) (f : A → M St B) : kr m → (∀ a, kr (f a)) → kr (m ≫= f).
Proof. intros Hm Hf s. apply wp_bind. eapply wp_mono; [apply Hm|]. intros a s1 E1. eapply wp_mono; [apply Hf|]. intros b s2 E2. cbv beta in *. congruence. Qed.
Lemma kr_gets {A} (f : St → A) : kr (mgets f).
Proof. intros s. by apply wp_gets. Qed.
Lemma kr_upd f : kr (upd f).
Proof. intros s. by apply wp_mod. Qed.
Lemma kr_lower {A} (m : M W A) : krw m → kr (lower m).
Proof. intros H s. apply wp_lower. eapply wp_mono; [apply H|]. done. Qed.
Lemma krw_ret {A} (a : A) : krw (mret a).
Proof. intros s. by apply wp_ret. Qed.
Lemma krw_bind {A B} (m : M W A) (f : A → M W B) : krw m → (∀ a, krw (f a)) → krw (m ≫= f).
Proof. intros Hm Hf s. apply wp_bind. eapply wp_mono; [apply Hm|]. intros a s1 E1. eapply wp_mono; [apply Hf|]. intros b s2 E2. cbv beta in *. congruence. Qed.
Lemma krw_view {A} (f : kcall W A) : (∀ w, view (f w).2 = view w) → krw (call f).
Proof. intros H w. apply wp_call. unfold rest_of. by rewrite H. Qed.
Lemma krw_close fd : krw (lkl_sys_close fd).
Proof. intros w. apply wp_close. intros r w' E. unfold rest_of. by rewrite E. Qed.
Lemma krw_pipe f : krw (call (l_pipe2 f)).
Proof.
  intros w. apply wp_call. destruct (l_pipe2 f w) as [[r [a b]] w'] eqn:E. cbn [snd]. unfold rest_of.
  apply hl_pipe2 in E as (_ & [[_ ->]|(_ & _ & _ & _ & _ & _ & p & ->)]); done.
Qed.
Lemma view_socket (w : W) : view (h_socket w).2 = view w.
Proof. destruct (h_socket w) as [r w'] eqn:E. apply hl_socket in E. naive_solver. Qed.
Lemma view_accept fd (w : W) : view (h_accept fd w).2 = view w.
Proof. destruct (h_accept fd w) as [[r e] w'] eqn:E. apply hl_accept in E. naive_solver. Qed.
Lemma view_create t (w : W) : view (h_create t w).2 = view w.
Proof. destruct (h_create t w) as [r w'] eqn:E. apply hl_create in E. naive_solver. Qed.

Ltac kr_call := apply krw_view; intros w; first [apply hl_quiet; constructor | apply view_socket | apply view_accept | apply view_create | apply hl_sclose | apply hl_join].
Ltac kr_go := unfold sys; repeat first [apply kr_ret | apply krw_ret | apply kr_gets | apply kr_upd | apply kr_bind; [|intros ?] | apply krw_bind; [|intros ?] |
  apply krw_close | apply krw_pipe | kr_call | apply kr_lower | case_match].

#[export] Instance proxy_impl : Proxy St := Build_Proxy St host_proxy_start host_proxy_stop.
#[export] Instance proxy_keeps : ProxyKeeps St.
Proof.
  split.
  - intros p q. change (kr (host_proxy_start p q)). unfold host_proxy_start, make_wake_pair, hsock_set_nonblock, wake_lkl. kr_go.
  - change (kr host_proxy_stop). unfold host_proxy_stop, wake_host, wake_lkl. kr_go.
Qed.
End Interface.
End HostProxy.
