(* ===== verification/SmbConf.v ===== *)
(** * SmbConf

    src/ksmbd/ksmbd_main.c: the configuration the SMB server hands to
    ksmbd-tools.  The shares of the command line become groups of options, a
    smb.conf of the host is read line by line and replayed group by group, and
    every group becomes a share that runs as uid 0.  ksmbd-tools is not part of
    the repository: its functions are the operations of the class [SmbTools],
    and what main relies on is the class [SmbToolsLaws]. *)
From S2P Require Import Prelude CLib Lkl.
Import CLib.

Module SmbConf.

Definition SMB_PORT : Z := 445.
Definition HOST_FWD_PORT : Z := 4455.
Definition GUEST_USER : bytes := bs "guest".
Definition DEF_MAX_READ : Z := 1048576.
Definition DEF_MAX_CONN : Z := 128.
Definition DEF_MAX_CREDITS : Z := 8192.

Record KsmbdLimits := mk_limits { max_read : Z; max_conn : Z; max_credits : Z }.

(** The fields of global_conf that setup_global_conf sets; the others are 0. *)
Record smbconf_global := mk_global {
  tcp_port : Z; ipc_timeout : Z; deadtime : Z; file_max : Z;
  smb2_max_read : Z; smb2_max_write : Z; smb2_max_trans : Z; smb2_max_credits : Z; smbd_max_io_size : Z;
  max_connections : Z; share_fake_fscaps : Z; server_signing : Z; sessions_cap : Z;
  server_min_protocol : bytes; server_max_protocol : bytes; netbios_name : bytes; server_string : bytes;
  work_group : bytes; guest_account : bytes; map_to_guest : Z; interfaces : list bytes; bind_interfaces_only : Z }.

Definition or_default (x d : Z) : Z := if 0 <? x then x else d.

Definition setup_global_conf (MAP_TO_GUEST_BAD_USER : Z) (lim : KsmbdLimits) : smbconf_global :=
  let rd := or_default (max_read lim) DEF_MAX_READ in
  let conn := or_default (max_conn lim) DEF_MAX_CONN in
  let credits := or_default (max_credits lim) DEF_MAX_CREDITS in
  {| tcp_port := SMB_PORT; ipc_timeout := 30; deadtime := 0; file_max := 10000;
     smb2_max_read := rd; smb2_max_write := rd; smb2_max_trans := rd; smb2_max_credits := credits; smbd_max_io_size := rd;
     max_connections := conn; share_fake_fscaps := 0; server_signing := 0; sessions_cap := 1024;
     server_min_protocol := bs "SMB2_10"; server_max_protocol := bs "SMB3_11"; netbios_name := bs "LKLSMB";
     server_string := bs "LKL ksmbd Server"; work_group := bs "WORKGROUP"; guest_account := GUEST_USER;
     map_to_guest := MAP_TO_GUEST_BAD_USER; interfaces := [bs "lo"]; bind_interfaces_only := 1 |}.

(** ** The interface to ksmbd-tools

    [parser_groups] are the groups of the parser in the order of its hash
    table, with whether a group is parser.global; a share is known by the name
    it is kept under. *)
Class SmbTools (W : Type) := {
  usm_init : kcall W (); usm_remove_all_users : kcall W (); usm_destroy : kcall W ();
  shm_init : kcall W (); shm_remove_all_shares : kcall W (); shm_destroy : kcall W ();
  cp_smbconf_parser_init : kcall W (); cp_smbconf_parser_destroy : kcall W ();
  usm_add_guest_account : bytes → kcall W Z;
  cp_parse_external_smbconf_group : bytes → list bytes → kcall W ();
  parser_groups : W → list (bytes * bool);
  shm_add_new_share : bytes → kcall W Z;
  shm_lookup_share : bytes → kcall W (option bytes);
  set_force_uid : bytes → Z → kcall W (); set_force_gid : bytes → Z → kcall W ();
  put_ksmbd_share : bytes → kcall W ();
  sm_init : kcall W (); sm_destroy : kcall W (); rpc_init : kcall W ();
  spnego_init : kcall W (); spnego_destroy : kcall W ();
  wp_init : kcall W (); wp_destroy : kcall W () }.

(** The calls above. *)
Inductive is_tool {W} `{!SmbTools W} : ∀ {A}, kcall W A → Prop :=
  | it_plain f : f ∈ [usm_init; usm_remove_all_users; usm_destroy; shm_init; shm_remove_all_shares; shm_destroy; cp_smbconf_parser_init;
      cp_smbconf_parser_destroy; sm_init; sm_destroy; rpc_init; spnego_init; spnego_destroy; wp_init; wp_destroy] → is_tool f
  | it_guest n : is_tool (usm_add_guest_account n)
  | it_group n o : is_tool (cp_parse_external_smbconf_group n o)
  | it_add n : is_tool (shm_add_new_share n)
  | it_lookup n : is_tool (shm_lookup_share n)
  | it_uid k v : is_tool (set_force_uid k v)
  | it_gid k v : is_tool (set_force_gid k v)
  | it_put k : is_tool (put_ksmbd_share k).

Section Code.
Context {W : Type} `{!SmbTools W}.

(** ** Shares of the command line *)
Definition share_opts (lkl_path : bytes) : list bytes :=
  [(snprintf 160 (bs "path = " ++ lkl_path)).2; bs "guest ok = yes"; bs "read only = yes"; bs "browseable = yes";
   bs "crossmnt = yes"; bs "oplocks = no"; bs "store dos attributes = no"; bs "hide dot files = no"].
Definition add_share_group (name lkl_path : bytes) : M W () :=
  call (cp_parse_external_smbconf_group name (share_opts lkl_path)).

(** ** The groups become shares *)
Definition stamp_share (name : bytes) : M W () :=
  sh ← call (shm_lookup_share name);
  match sh with
  | Some sh =>
      _ ← call (set_force_uid sh 0);
      _ ← call (set_force_gid sh 0);
      call (put_ksmbd_share sh)
  | None => mret ()
  end.
Fixpoint add_groups (groups : list (bytes * bool)) (ret : Z) : M W Z :=
  match groups with
  | [] => mret ret
  | (name, global) :: rest =>
      if global : bool then add_groups rest ret
      else
        r ← call (shm_add_new_share name);
        if negb (r =? 0) then add_groups rest (-1)
        else _ ← stamp_share name; add_groups rest ret
  end.
Definition finalize_in_memory_config : M W Z :=
  groups ← mgets parser_groups;
  ret ← add_groups groups 0;
  _ ← call cp_smbconf_parser_destroy;
  mret ret.

(** ** The smb.conf of the host *)

(** fgets into a buffer with room for [n] bytes and the terminator: the bytes
    stored, up to a newline, and the rest of the file. *)
Fixpoint fgets (n : nat) (f : bytes) : bytes * bytes :=
  match n, f with
  | O, _ => ([], f)
  | _, [] => ([], [])
  | S n', c :: f' => if c =? 10 then ([c], f') else let '(l, r) := fgets n' f' in (c :: l, r)
  end.

Definition is_trail (c : Z) : bool := (c =? 10) || (c =? 13) || (c =? 32) || (c =? 9).
Definition is_blank (c : Z) : bool := (c =? 32) || (c =? 9).
Fixpoint rstrip (s : bytes) : bytes :=
  match s with
  | [] => []
  | c :: s' => match rstrip s' with [] => if is_trail c then [] else [c] | t => c :: t end
  end.
Fixpoint lstrip (s : bytes) : bytes :=
  match s with c :: s' => if is_blank c then lstrip s' else s | [] => [] end.

Definition MAX_OPTS : Z := 32.
Definition LINE_MAX : Z := 1024.
Definition SECTION_MAX : Z := 128.

(** The section being read, and its options so far (opts and stash). *)
Record conf_state := mk_state { section : bytes; stash : list bytes; have_section : bool }.

Definition flush_section (st : conf_state) : M W () :=
  if have_section st then call (cp_parse_external_smbconf_group (section st) (stash st)) else mret ().

(** One turn of the loop, on the line [p] without its blanks; [None] when
    strdup fails. *)
Definition conf_line (strdup : bytes → bool) (p : bytes) (st : conf_state) : M W (option conf_state) :=
  match p with
  | [] => mret (Some st)
  | c :: t =>
      if (c =? 59) || (c =? 35) then mret (Some st)
      else if c =? 91 then
        match strchr 93 p with
        | None => mret (Some st)
        | Some (a, _) =>
            _ ← flush_section st;
            mret (Some (mk_state (strncpy SECTION_MAX (drop 1 a)) [] true))
        end
      else if negb (have_section st) then mret (Some st)
      else match strchr 61 p with
      | None => mret (Some st)
      | Some _ =>
          if MAX_OPTS <=? len (stash st) then mret (Some st)
          else if strdup p then mret (Some (mk_state (section st) (stash st ++ [p]) true))
          else mret None
      end
  end.

Fixpoint conf_loop (fuel : nat) (strdup : bytes → bool) (f : bytes) (st : conf_state) : M W (option conf_state) :=
  match fuel with
  | O => mstuck
  | S n =>
      match f with
      | [] => mret (Some st)
      | _ :: _ =>
          let '(line, rest) := fgets (Z.to_nat (LINE_MAX - 1)) f in
          r ← conf_line strdup (lstrip (rstrip (c_str line))) st;
          match r with None => mret None | Some st' => conf_loop n strdup rest st' end
      end
  end.

(** [file] is what fopen gives, [None] when it fails. *)
Definition parse_host_smbconf (strdup : bytes → bool) (file : option bytes) : M W Z :=
  match file with
  | None => mret (-1)
  | Some f =>
      r ← conf_loop (S (length f)) strdup f (mk_state [] [] false);
      match r with
      | None => mret (-1)
      | Some st => _ ← flush_section st; mret 0
      end
  end.

(** ** All of it; [ipc_init] is src/ksmbd/ksmbd_ipc.c *)
Definition setup_ksmbd_config (ipc_init : M W ()) (strdup : bytes → bool) (conf : smbconf_global) (shares : list (bytes * bytes))
    (host_smbconf : option (option bytes)) : M W Z :=
  _ ← call usm_init; _ ← call usm_remove_all_users;
  _ ← call shm_init; _ ← call shm_remove_all_shares;
  _ ← call cp_smbconf_parser_init;
  r ← call (usm_add_guest_account (guest_account conf));
  if negb (r =? 0) then mret (-1)
  else
    _ ← mfor shares (λ s, add_share_group s.1 s.2);
    r ← (match host_smbconf with Some file => parse_host_smbconf strdup file | None => mret 0 end);
    if r <? 0 then mret (-1)
    else
      r ← finalize_in_memory_config;
      if r <? 0 then mret (-1)
      else
        _ ← call sm_init; _ ← call rpc_init; _ ← ipc_init; _ ← call spnego_init; _ ← call wp_init;
        mret 0.
End Code.

(** ** What a smb.conf means

    A line is a header, an option, or nothing; a section has the options that
    follow its header up to the next one. *)
Inductive item := Header (name : bytes) | Opt (text : bytes) | Nothing.

Definition Blanks (s : bytes) : Prop := Forall (λ c, c = 32 ∨ c = 9) s.
Definition Trail (s : bytes) : Prop := Forall (λ c, c = 32 ∨ c = 9 ∨ c = 13) s.

Inductive line_of : item → bytes → Prop :=
  | lo_blank s : Trail s → line_of Nothing s
  | lo_comment ind c s : Blanks ind → c = 59 ∨ c = 35 → line_of Nothing (ind ++ c :: s)
  | lo_header ind name s : Blanks ind → 93 ∉ name → line_of (Header name) (ind ++ 91 :: name ++ 93 :: s)
  | lo_open ind s : Blanks ind → 93 ∉ s → line_of Nothing (ind ++ 91 :: s)
  | lo_other ind c s : Blanks ind → c ∉ [91; 59; 35; 32; 9] → 61 ∉ c :: s → line_of Nothing (ind ++ c :: s)
  | lo_option ind c s t : Blanks ind → c ∉ [91; 59; 35; 32; 9] → 61 ∈ c :: s → (∃ z, last (c :: s) = Some z ∧ z ∉ [10; 13; 32; 9]) →
      Trail t → line_of (Opt (c :: s)) (ind ++ (c :: s) ++ t).

Fixpoint until_header (l : list item) : list bytes :=
  match l with
  | [] => []
  | Header _ :: _ => []
  | Opt t :: l' => t :: until_header l'
  | Nothing :: l' => until_header l'
  end.
Fixpoint sections (l : list item) : list (bytes * list bytes) :=
  match l with
  | [] => []
  | Header n :: l' => (n, until_header l') :: sections l'
  | _ :: l' => sections l'
  end.

(** The file made of the lines [ls]; the last may have no newline. *)
Definition text_of (ls : list bytes) (last : bytes) : bytes := mjoin ((λ l, l ++ [10]) <$> ls) ++ last.

Definition replay {W} `{!SmbTools W} (l : list (bytes * list bytes)) : M W () :=
  mfor l (λ g, call (cp_parse_external_smbconf_group (take 127 g.1) (take 32 g.2))).

(** ** Lines *)
Lemma trail_spec c : is_trail c = true ↔ c = 10 ∨ c = 13 ∨ c = 32 ∨ c = 9.
Proof. unfold is_trail. rewrite !orb_true_iff, !Z.eqb_eq. tauto. Qed.
Lemma blank_spec c : is_blank c = true ↔ c = 32 ∨ c = 9.
Proof. unfold is_blank. by rewrite orb_true_iff, !Z.eqb_eq. Qed.

Lemma rstrip_app a b : rstrip (a ++ b) = match rstrip b with [] => rstrip a | t => a ++ t end.
Proof.
  induction a as [|c a IH]; cbn [app rstrip]; [by destruct (rstrip b)|]. rewrite IH.
  destruct (rstrip b); [done|]. by destruct a.
Qed.
Lemma rstrip_trail t : Forall (λ c, is_trail c = true) t → rstrip t = [].
Proof. induction 1 as [|c t Hc _ IH]; [done|]. cbn [rstrip]. by rewrite IH, Hc. Qed.
Lemma rstrip_cons c s : is_trail c = false → rstrip (c :: s) = c :: rstrip s.
Proof. intros H. cbn [rstrip]. rewrite H. by destruct (rstrip s). Qed.
Lemma rstrip_sub s x : x ∈ rstrip s → x ∈ s.
Proof.
  induction s as [|c s IH]; [done|]. cbn [rstrip]. destruct (rstrip s) as [|d t].
  - destruct (is_trail c); [by intros ?%not_elem_of_nil|]. intros ->%list_elem_of_singleton. by left.
  - intros [->|H]%elem_of_cons; [by left|right; by apply IH].
Qed.
Lemma rstrip_last s z : last s = Some z → is_trail z = false → rstrip s = s.
Proof.
  intros [l ->]%last_Some Hz. rewrite rstrip_app. cbn [rstrip]. by rewrite Hz.
Qed.
Lemma rstrip_first c s : rstrip (c :: s) = [] ∨ ∃ t, rstrip (c :: s) = c :: t.
Proof. cbn [rstrip]. destruct (rstrip s); [destruct (is_trail c)|]; eauto. Qed.

Lemma blanks_trail ind : Blanks ind → Forall (λ c, is_trail c = true) ind.
Proof. intros H. eapply Forall_impl; [exact H|]. intros c. cbv beta. rewrite trail_spec. tauto. Qed.
Lemma trail_ends t : Trail t → Forall (λ c, is_trail c = true) (t ++ [10]).
Proof. intros H. apply Forall_app. split; [|by repeat constructor]. eapply Forall_impl; [exact H|]. intros c. cbv beta. rewrite trail_spec. tauto. Qed.

Lemma lstrip_app ind s : Blanks ind → lstrip (ind ++ s) = lstrip s.
Proof. induction 1 as [|c ind Hc _ IH]; [done|]. cbn [app lstrip]. by rewrite (proj2 (blank_spec c) Hc). Qed.
Lemma lstrip_stop c s : c ∉ [32; 9] → lstrip (c :: s) = c :: s.
Proof. intros H. cbn [lstrip]. destruct (is_blank c) eqn:E; [|done]. apply blank_spec in E. set_solver. Qed.

(** The line without its blanks and its end. *)
Lemma strip_at ind c s : Blanks ind → c ∉ [32; 9] → lstrip (rstrip (ind ++ c :: s)) = rstrip (c :: s).
Proof.
  intros Hi Hc. rewrite rstrip_app. destruct (rstrip_first c s) as [->|[t ->]].
  - by rewrite rstrip_trail by by apply blanks_trail.
  - by rewrite lstrip_app, lstrip_stop.
Qed.
Lemma rstrip_nl s : rstrip (s ++ [10]) = rstrip s.
Proof. by rewrite rstrip_app. Qed.

Lemma fgets_line n l rest : 10 ∉ l → (length l < n)%nat → fgets n (l ++ 10 :: rest) = (l ++ [10], rest).
Proof.
  revert n. induction l as [|c l IH]; intros n Hl Hn; cbn [length] in Hn; destruct n as [|n]; [lia| |lia|].
  - done.
  - apply not_elem_of_cons in Hl as [Hc Hl]. cbn [app fgets]. destruct (Z.eqb_spec c 10); [done|]. by rewrite IH by (done || lia).
Qed.
Lemma fgets_end n l : 10 ∉ l → (length l <= n)%nat → fgets n l = (l, []).
Proof.
  revert n. induction l as [|c l IH]; intros n Hl Hn; cbn [length] in Hn; destruct n as [|n]; [done|done|lia|].
  apply not_elem_of_cons in Hl as [Hc Hl]. cbn [fgets]. destruct (Z.eqb_spec c 10); [done|]. by rewrite IH by (done || lia).
Qed.

(** ** The loop *)
Section Loop.
Context {W : Type} `{!SmbTools W} (strdup : bytes → bool) (Hdup : ∀ p, strdup p = true).

(** What the loop does with a line. *)
Definition line_effect (i : item) (st : conf_state) : M W (option conf_state) :=
  match i with
  | Nothing => mret (Some st)
  | Header n => _ ← flush_section st; mret (Some (mk_state (take 127 n) [] true))
  | Opt t => mret (Some (if have_section st then mk_state (section st) (take 32 (stash st ++ [t])) true else st))
  end.

Lemma conf_line_text c t st : c ∉ [91; 59; 35] → conf_line strdup (c :: t) st =
  if have_section st && bool_decide (61 ∈ c :: t) && (len (stash st) <? 32)
  then mret (Some (mk_state (section st) (stash st ++ [c :: t]) true)) else mret (Some st).
Proof.
  rewrite !not_elem_of_cons. intros (H1 & H2 & H3 & _). unfold conf_line.
  rewrite (proj2 (Z.eqb_neq c 59) H2), (proj2 (Z.eqb_neq c 35) H3), (proj2 (Z.eqb_neq c 91) H1). cbn [orb].
  destruct (have_section st); [|done]. cbn [negb andb]. destruct (strchr 61 (c :: t)) as [[a b]|] eqn:E.
  - apply strchr_Some in E as [E _]. rewrite bool_decide_true by (rewrite E; set_solver). cbn [andb]. rewrite Hdup.
    change MAX_OPTS with 32. destruct (Z.leb_spec 32 (len (stash st))), (Z.ltb_spec (len (stash st)) 32); (lia || done).
  - apply strchr_None in E. by rewrite bool_decide_false.
Qed.

Lemma line_spec i l st : line_of i l → (length (stash st) <= 32)%nat → conf_line strdup (lstrip (rstrip l)) st = line_effect i st.
Proof.
  intros Hl Hst. destruct Hl as [s Hs|ind c s Hi Hc|ind name s Hi Hn|ind s Hi Hn|ind c s Hi Hc Hn|ind c s t Hi Hc Hin (z & Hz & Hzt) Ht].
  - rewrite rstrip_trail; [done|]. eapply Forall_impl; [exact Hs|]. intros c. cbv beta. rewrite trail_spec. tauto.
  - rewrite strip_at by (done || set_solver). rewrite rstrip_cons by (destruct Hc; by subst). by destruct Hc; subst.
  - rewrite strip_at, rstrip_cons, rstrip_app, rstrip_cons by (done || set_solver). unfold conf_line.
    change (91 :: name ++ 93 :: rstrip s) with ((91 :: name) ++ 93 :: rstrip s). rewrite strchr_app; [done|].
    apply not_elem_of_cons. done.
  - rewrite strip_at, rstrip_cons by (done || set_solver). unfold conf_line.
    rewrite (proj2 (strchr_None 93 _)); [done|]. apply not_elem_of_cons. split; [done|]. by intros ?%rstrip_sub.
  - rewrite strip_at by set_solver. destruct (rstrip_first c s) as [->|[t E]]; [done|]. rewrite E, conf_line_text by set_solver.
    rewrite (bool_decide_false (61 ∈ c :: t)); [by rewrite andb_false_r|]. rewrite <- E. by intros ?%rstrip_sub.
  - cbn [app]. rewrite strip_at by set_solver. rewrite app_comm_cons, rstrip_app, (rstrip_trail t), (rstrip_last _ z Hz).
    2: { apply not_true_iff_false. rewrite trail_spec. intros H. apply Hzt. set_solver. }
    2: { eapply Forall_impl; [exact Ht|]. intros x. cbv beta. rewrite trail_spec. tauto. }
    rewrite conf_line_text, bool_decide_true by set_solver. rewrite andb_true_r. cbn [line_effect].
    destruct (have_section st) eqn:Eh; [|done]. cbn [andb]. destruct (Z.ltb_spec (len (stash st)) 32).
    + rewrite take_ge; [done|]. rewrite length_app. cbn [length]. lia.
    + rewrite take_app_le, take_ge by lia. destruct st; cbn in *. by subst.
Qed.

(** The call made when the section [st] is flushed after the lines [items],
    and those for the sections that follow. *)
Definition finish (m : M W (option conf_state)) : M W Z :=
  r ← m; match r with None => mret (-1) | Some st => _ ← flush_section st; mret 0 end.
Definition expected (items : list item) (st : conf_state) : M W Z :=
  _ ← (if have_section st then call (cp_parse_external_smbconf_group (section st) (take 32 (stash st ++ until_header items))) else mret ());
  _ ← replay (sections items); mret 0.

Lemma take_take_app {A} n (x b : list A) : take n (take n x ++ b) = take n (x ++ b).
Proof.
  rewrite !take_app, take_take, Nat.min_id, length_take. do 2 f_equal. lia.
Qed.

Lemma expected_step i items st w : (length (stash st) <= 32)%nat →
  expected (i :: items) st w =
    (r ← line_effect i st; match r with None => mret (-1) | Some st' => expected items st' end) w.
Proof.
  intros Hst. destruct i as [n|t|]; [| |done]; unfold expected, line_effect, flush_section; cbn [until_header sections].
  - rewrite app_nil_r, take_ge by done. unfold replay, mbind, M_bind, mret, M_ret, call. cbn [mfor fst snd app].
    destruct (have_section st); cbn; [destruct (cp_parse_external_smbconf_group (section st) (stash st) w) as [[] w1]|];
      unfold mbind, M_bind; cbn; by destruct (cp_parse_external_smbconf_group (take 127 n) _ _).
  - unfold mbind, M_bind, mret, M_ret, call. destruct (have_section st) eqn:Eh; cbn; [|by rewrite Eh].
    rewrite take_take_app, <- app_assoc. done.
Qed.

Lemma effect_len i st w st' w' : (length (stash st) <= 32)%nat → line_effect i st w = Some (Some st', w') → (length (stash st') <= 32)%nat.
Proof.
  intros H. destruct i as [n|t|]; cbn [line_effect]; unfold mbind, M_bind, mret, M_ret.
  - destruct (flush_section st w) as [[? ?]|]; [|done]. intros [= <- _]. cbn. lia.
  - intros [= <- _]. destruct (have_section st); [|done]. cbn. rewrite length_take. lia.
  - by intros [= <- _].
Qed.

(** A turn of the loop on a line, and then what [expected] says of the rest. *)
Lemma finish_step (m : conf_state → M W (option conf_state)) i items st w : (length (stash st) <= 32)%nat →
  (∀ st' w', (length (stash st') <= 32)%nat → finish (m st') w' = expected items st' w') →
  finish (r ← line_effect i st; match r with None => mret None | Some st' => m st' end) w = expected (i :: items) st w.
Proof.
  intros Hst IH. rewrite expected_step by done. pose proof (effect_len i st w) as Hl. unfold finish at 1, mbind, M_bind.
  destruct (line_effect i st w) as [[[st'|] w']|]; [|done|done].
  exact (IH st' w' (Hl st' w' Hst eq_refl)).
Qed.

Definition plain (l : bytes) : Prop := 10 ∉ l ∧ 0 ∉ l ∧ len l < 1023.

Lemma c_str_plain l : 0 ∉ l → c_str l = l.
Proof.
  induction l as [|c l IH]; [done|]. rewrite not_elem_of_cons. intros [H1 H2]. cbn [c_str]. destruct (Z.eqb_spec c 0); [by subst|]. by rewrite IH.
Qed.

Lemma line_of_nil i : line_of i [] → i = Nothing.
Proof. inversion 1; try done; by destruct ind. Qed.

Lemma loop_spec ls lst items fuel st w : (length (text_of ls lst) < fuel)%nat → (length (stash st) <= 32)%nat →
  Forall plain (ls ++ [lst]) → Forall2 line_of items (ls ++ [lst]) →
  finish (conf_loop fuel strdup (text_of ls lst) st) w = expected items st w.
Proof.
  revert items fuel st w. induction ls as [|l ls IH]; intros items fuel st w Hf Hst Hp Hi; cbn [app] in *;
    (destruct fuel as [|fuel]; [lia|]).
  - apply Forall2_cons_inv_r in Hi as (i & items' & Hi & ->%Forall2_nil_inv_r & ->). apply Forall_singleton in Hp as (H10 & H0 & Hlen).
    unfold text_of in *. cbn [fmap list_fmap mjoin list_join app] in *.
    assert (Hfin : ∀ n st' w', (length (stash st') <= 32)%nat → finish (conf_loop (S n) strdup [] st') w' = expected [] st' w').
    { intros n st' w' H'. unfold finish, expected, flush_section. cbn [conf_loop until_header sections]. by rewrite app_nil_r, take_ge. }
    destruct lst as [|c lst].
    + rewrite Hfin by done. apply line_of_nil in Hi as ->. done.
    + cbn [conf_loop]. rewrite fgets_end by (done || (change (Z.to_nat (LINE_MAX - 1)) with 1023%nat; lia)).
      rewrite c_str_plain, (line_spec i) by done. apply (finish_step (conf_loop fuel strdup [])); [done|].
      intros st' w' H'. cbn [length] in Hf. destruct fuel as [|fuel]; [lia|]. by apply Hfin.
  - apply Forall2_cons_inv_r in Hi as (i & items' & Hi & Hrest & ->). apply Forall_cons in Hp as ((H10 & H0 & Hlen) & Hp).
    assert (Et : text_of (l :: ls) lst = l ++ 10 :: text_of ls lst).
    { unfold text_of. cbn [fmap list_fmap mjoin list_join]. by rewrite <- !app_assoc. }
    rewrite Et in *. rewrite length_app in Hf. cbn [length] in Hf. cbn [conf_loop].
    rewrite fgets_line by (done || (change (Z.to_nat (LINE_MAX - 1)) with 1023%nat; lia)).
    rewrite c_str_plain, rstrip_nl, (line_spec i) by (done || set_solver).
    transitivity (finish (r ← line_effect i st; match r with None => mret None | Some st' => conf_loop fuel strdup (text_of ls lst) st' end) w);
      [by destruct l|].
    apply (finish_step (conf_loop fuel strdup (text_of ls lst))); [done|]. intros st' w' H'. apply IH; [lia|done..].
Qed.
End Loop.

(** Every line means something. *)
Lemma blanks_split l : ∃ ind r, l = ind ++ r ∧ Blanks ind ∧ match r with c :: _ => c ∉ [32; 9] | [] => True end.
Proof.
  induction l as [|c l (ind & r & -> & Hi & Hr)]; [exists [], []; split_and!; [done|constructor|done]|].
  destruct (decide (c ∈ [32; 9])) as [Hc|Hc]; [|exists [], (c :: ind ++ r); split_and!; [done|constructor|done]].
  exists (c :: ind), r. split; [done|]. split; [|done]. constructor; [set_solver|done].
Qed.
Lemma rstrip_split l : ∃ t, l = rstrip l ++ t ∧ Forall (λ c, is_trail c = true) t ∧
  (rstrip l = [] ∨ ∃ z, last (rstrip l) = Some z ∧ is_trail z = false).
Proof.
  induction l as [|c l (t & E & Ht & Hl)]; [exists []; split; [done|]; split; [constructor|by left]|]. cbn [rstrip].
  destruct (rstrip l) as [|d r] eqn:Er.
  - destruct (is_trail c) eqn:Ec.
    + exists (c :: t). split; [cbn; by f_equal|]. split; [by constructor|by left].
    + exists t. split; [cbn; by f_equal|]. split; [done|right]. by exists c.
  - exists t. split; [cbn; by f_equal|]. split; [done|right]. destruct Hl as [?|(z & Hz & Hzt)]; [done|]. by exists z.
Qed.
Lemma line_classified l : 10 ∉ l → ∃ i, line_of i l.
Proof.
  intros Hl. destruct (blanks_split l) as (ind & r & -> & Hi & Hr). destruct r as [|c s].
  { exists Nothing. apply lo_blank. rewrite app_nil_r. eapply Forall_impl; [exact Hi|]. cbn. tauto. }
  destruct (decide (c = 59 ∨ c = 35)) as [Hc|Hc]; [exists Nothing; by apply lo_comment|].
  destruct (decide (c = 91)) as [->|Hb].
  { destruct (decide (93 ∈ s)) as [(a & b & -> & Ha)%list_elem_of_split_l|Hn]; [exists (Header a); by apply lo_header|].
    exists Nothing. by apply lo_open. }
  assert (Hc5 : c ∉ [91; 59; 35; 32; 9]) by set_solver.
  destruct (decide (61 ∈ c :: s)) as [He|He]; [|exists Nothing; by apply lo_other].
  destruct (rstrip_split (c :: s)) as (t & E & Ht & Hz). assert (Htt : Trail t).
  { apply Forall_forall. intros x Hx. rewrite Forall_forall in Ht. pose proof (Ht x Hx) as Hx'. apply trail_spec in Hx'.
    assert (x ≠ 10); [|tauto]. intros ->. apply Hl. rewrite E. set_solver. }
  assert (Ht61 : 61 ∉ t) by (intros Hin; rewrite Forall_forall in Ht; by specialize (Ht _ Hin)).
  destruct (rstrip_first c s) as [E'|[u E']]; rewrite E' in *; [cbn in E; rewrite E in He; done|].
  exists (Opt (c :: u)). rewrite E. apply lo_option; [done|done|rewrite E in He; set_solver| |done].
  destruct Hz as [?|(z & Hz & Hzt)]; [done|]. exists z. split; [done|]. intros Hin. apply not_true_iff_false in Hzt. apply Hzt, trail_spec. set_solver.
Qed.

(** ** What main relies on

    [shares]: the shares registered, with the uid and gid they run as, under
    the name that [fold] makes of theirs; a group stays until the parser is
    destroyed, a group of options is added under its name, and the group
    called global is parser.global. *)
Class SmbToolsLaws (W : Type) `{!SmbTools W} := {
  shares : W → gmap bytes (Z * Z);
  fold : bytes → bytes;
  sl_frame f w : f ∈ [cp_smbconf_parser_init; cp_smbconf_parser_destroy; sm_init; rpc_init; spnego_init; wp_init] → shares (f w).2 = shares w;
  sl_remove_all w : shares (shm_remove_all_shares w).2 = ∅;
  sl_guest n w : shares (usm_add_guest_account n w).2 = shares w;
  sl_group n o w : let w' := (cp_parse_external_smbconf_group n o w).2 in
    shares w' = shares w ∧ (∀ g, g ∈ parser_groups w → g ∈ parser_groups w') ∧ ∃ n', fold n' = fold n ∧ (n', bool_decide (fold n = fold (bs "global"))) ∈ parser_groups w';
  sl_add n w : let '(r, w') := shm_add_new_share n w in
    if (r =? 0) && bool_decide (shares w !! fold n = None) then ∃ ids, shares w' = <[fold n := ids]> (shares w) else shares w' = shares w ∧ (r = 0 → is_Some (shares w !! fold n));
  sl_lookup n w : let '(r, w') := shm_lookup_share n w in
    shares w' = shares w ∧ r = (if shares w !! fold n then Some (fold n) else None);
  sl_uid k v w : shares (set_force_uid k v w).2 = alter (λ x, (v, x.2)) k (shares w);
  sl_gid k v w : shares (set_force_gid k v w).2 = alter (λ x, (x.1, v)) k (shares w);
  sl_put k w : shares (put_ksmbd_share k w).2 = shares w }.

Section Setup.
Context {W : Type} `{!SmbTools W, !SmbToolsLaws W}.

(** Reading the configuration adds groups and nothing else. *)
Definition adds (w w' : W) : Prop := shares w' = shares w ∧ ∀ g, g ∈ parser_groups w → g ∈ parser_groups w'.
#[local] Instance adds_preorder : PreOrder adds.
Proof. split; [by split|]. intros x y z [E1 H1] [E2 H2]. split; [congruence|auto]. Qed.

Lemma wp_group n o w : wp (call (cp_parse_external_smbconf_group n o)) (λ _ w', adds w w') w.
Proof. unfold wp, call. pose proof (sl_group n o w) as (H1 & H2 & _). by destruct (cp_parse_external_smbconf_group n o w) as [u w']. Qed.
Lemma wp_flush st w : wp (flush_section st) (λ _ w', adds w w') w.
Proof. unfold flush_section. case_if; [apply wp_group|by apply wp_ret]. Qed.
Lemma wp_conf_line sd p st w : wp (conf_line sd p st) (λ _ w', adds w w') w.
Proof.
  unfold conf_line. destruct p as [|c t]; [by apply wp_ret|]. case_if; [by apply wp_ret|]. case_if.
  { destruct (strchr _ _) as [[a b]|]; [|by apply wp_ret]. apply wp_bind. eapply wp_mono; [apply wp_flush|]. by intros [] w' H. }
  case_if; [by apply wp_ret|]. destruct (strchr _ _); [|by apply wp_ret]. case_if; [by apply wp_ret|]. case_if; by apply wp_ret.
Qed.

Lemma fgets_shorter n f line rest : fgets n f = (line, rest) → (0 < n)%nat → f ≠ [] → (length rest < length f)%nat.
Proof.
  revert n line rest. induction f as [|c f IH]; intros n line rest E Hn Hf; [done|]. destruct n as [|n]; [lia|]. cbn [fgets] in E.
  destruct (c =? 10); [by injection E as _ <-; cbn; lia|]. destruct (fgets n f) as [l r] eqn:E'. injection E as _ <-. cbn [length].
  destruct n as [|n]; [injection E' as _ <-; lia|]. destruct f as [|d f]; [injection E' as _ <-; cbn; lia|].
  specialize (IH (S n) l r E' ltac:(lia) ltac:(done)). lia.
Qed.

Lemma wp_conf_loop sd fuel f st w : (length f < fuel)%nat → wp (conf_loop fuel sd f st) (λ _ w', adds w w') w.
Proof.
  revert f st w. induction fuel as [|n IH]; intros f st w Hn; [lia|]. cbn [conf_loop]. destruct f as [|c f]; [by apply wp_ret|].
  destruct (fgets _ (c :: f)) as [line rest] eqn:E. apply fgets_shorter in E; [|change (Z.to_nat (LINE_MAX - 1)) with 1023%nat; lia|done].
  apply wp_bind. eapply wp_mono; [apply wp_conf_line|]. intros [st'|] w1 H1; [|by apply wp_ret].
  eapply wp_mono; [apply IH; lia|]. intros r w2 H2. cbv beta in *. by etrans.
Qed.
Lemma wp_parse_conf sd file w : wp (parse_host_smbconf sd file) (λ r w', adds w w' ∧ (r = 0 ∨ r = -1)) w.
Proof.
  unfold parse_host_smbconf. destruct file as [f|]; [|apply wp_ret; split; [done|by right]]. apply wp_bind.
  eapply wp_mono; [apply wp_conf_loop; lia|]. intros [st|] w1 H1; [|apply wp_ret; split; [done|by right]].
  apply wp_bind. eapply wp_mono; [apply wp_flush|]. intros [] w2 H2. apply wp_ret. split; [by etrans|by left].
Qed.

(** The shares of the command line have their groups. *)
Definition grouped (l : list (bytes * bytes)) (w : W) : Prop :=
  Forall (λ s, ∃ n', fold n' = fold s.1 ∧ (n', bool_decide (fold s.1 = fold (bs "global"))) ∈ parser_groups w) l.
Lemma grouped_adds l w w' : adds w w' → grouped l w → grouped l w'.
Proof. intros [_ H] Hg. eapply Forall_impl; [exact Hg|]. intros s (n' & E & Hn). exists n'. auto. Qed.
Lemma wp_add_groups l w : wp (mfor l (λ s, add_share_group s.1 s.2)) (λ _ w', adds w w' ∧ grouped l w') w.
Proof.
  revert w. induction l as [|s l IH]; intros w; cbn [mfor]; [apply wp_ret; split; [done|constructor]|]. apply wp_bind.
  apply (wp_mono _ (λ _ w', adds w w' ∧ grouped [s] w')).
  { unfold add_share_group, wp, call. pose proof (sl_group s.1 (share_opts s.2) w) as (H1 & H2 & H3).
    destruct (cp_parse_external_smbconf_group _ _ w) as [u w']. cbn [snd] in *. split; [done|]. by constructor. }
  intros [] w1 [H1 G1]. eapply wp_mono; [apply IH|]. intros [] w2 [H2 G2]. split; [by etrans|].
  apply (Forall_app_2 _ [s] l); [by apply (grouped_adds [s] w1)|done].
Qed.

(** Every share registered so far runs as uid 0, and those of [l] are. *)
Definition rooted (w : W) : Prop := map_Forall (λ _ ids, ids = (0, 0)) (shares w).
Definition registered (l : list bytes) (w : W) : Prop := Forall (λ n, shares w !! fold n = Some (0, 0)) l.

Lemma wp_stamp n w : wp (stamp_share n) (λ _ w', shares w' = alter (λ _, (0, 0)) (fold n) (shares w)) w.
Proof.
  unfold stamp_share. apply wp_bind. unfold wp at 1, call at 1. pose proof (sl_lookup n w) as H. destruct (shm_lookup_share n w) as [r w1].
  destruct H as [E1 ->]. destruct (shares w !! fold n) eqn:El.
  - unfold wp, mbind, M_bind, call. destruct (set_force_uid (fold n) 0 w1) as [u w2] eqn:E2. pose proof (sl_uid (fold n) 0 w1) as H2. rewrite E2 in H2.
    destruct (set_force_gid (fold n) 0 w2) as [u3 w3] eqn:E3. pose proof (sl_gid (fold n) 0 w2) as H3. rewrite E3 in H3.
    destruct (put_ksmbd_share (fold n) w3) as [u4 w4] eqn:E4. pose proof (sl_put (fold n) w3) as H4. rewrite E4 in H4. cbn [snd] in *.
    rewrite H4, H3, H2, E1. apply map_eq. intros k. destruct (decide (fold n = k)) as [<-|Hk].
    + by rewrite !lookup_alter_eq, El.
    + by rewrite !lookup_alter_ne.
  - apply wp_ret. rewrite E1. symmetry. apply map_eq. intros k. destruct (decide (fold n = k)) as [<-|Hk].
    + by rewrite lookup_alter_eq, El.
    + by rewrite lookup_alter_ne.
Qed.

Lemma wp_add_loop gs ret w : rooted w → (ret = 0 ∨ ret = -1) →
  wp (add_groups gs ret) (λ r w', rooted w' ∧ (r = 0 ∨ r = -1) ∧ (∀ k, shares w !! k = Some (0, 0) → shares w' !! k = Some (0, 0)) ∧
    (r = 0 → ret = 0 ∧ ∀ n, (n, false) ∈ gs → shares w' !! fold n = Some (0, 0))) w.
Proof.
  revert ret w. induction gs as [|[n b] gs IH]; intros ret w Hr Hret; cbn [add_groups].
  { apply wp_ret. split_and!; [done..|]. intros ->. split; [done|]. by intros n ?%not_elem_of_nil. }
  destruct b.
  { eapply wp_mono; [by apply IH|]. intros r w' (H1 & H2 & H3 & H4). split_and!; [done..|]. intros E. destruct (H4 E) as [? H5]. split; [done|].
    intros n' [?|?]%elem_of_cons; [done|by apply H5]. }
  apply wp_bind. unfold wp at 1, call. pose proof (sl_add n w) as Ha. destruct (shm_add_new_share n w) as [r w1]. destruct (Z.eqb_spec r 0) as [->|Hne]; cbn [negb andb] in *.
  - apply wp_bind. eapply wp_mono; [apply wp_stamp|]. intros [] w2 E2. cbv beta in E2.
    assert (Hn : shares w2 !! fold n = Some (0, 0) ∧ ∀ k, fold n ≠ k → shares w2 !! k = shares w !! k).
    { rewrite E2. case_bool_decide as En.
      - destruct Ha as [ids ->]. split; [by rewrite lookup_alter_eq, lookup_insert_eq|]. intros k Hk. by rewrite lookup_alter_ne, lookup_insert_ne.
      - destruct Ha as [-> Hs]. destruct (Hs eq_refl) as [ids Hids]. split; [by rewrite lookup_alter_eq, Hids|]. intros k Hk. by rewrite lookup_alter_ne. }
    destruct Hn as [Hn Ho]. assert (Hkeep : ∀ k, shares w !! k = Some (0, 0) → shares w2 !! k = Some (0, 0)).
    { intros k Hk. destruct (decide (fold n = k)) as [<-|?]; [done|by rewrite Ho]. }
    assert (Hr2 : rooted w2). { intros k ids Hk. destruct (decide (fold n = k)) as [<-|?]; [congruence|]. rewrite Ho in Hk by done. by apply (Hr k). }
    eapply wp_mono; [by apply IH|]. intros r w' (H1 & H2 & H3 & H4). split_and!; [done..|auto|]. intros E. destruct (H4 E) as [? H5]. split; [done|].
    intros n' [[= ->]|?]%elem_of_cons; [by apply H3|by apply H5].
  - destruct Ha as [Ea _]. assert (Hr1 : rooted w1) by (unfold rooted; by rewrite Ea).
    eapply wp_mono; [apply IH; [done|by right]|]. intros r' w' (H1 & H2 & H3 & H4). split_and!; [done..|by rewrite <- Ea|]. intros E. by destruct (H4 E).
Qed.

Lemma wp_frame f Q w : f ∈ [cp_smbconf_parser_init; cp_smbconf_parser_destroy; sm_init; rpc_init; spnego_init; wp_init] →
  (∀ w', shares w' = shares w → Q () w') → wp (call f) Q w.
Proof. intros Hf HQ. unfold wp, call. pose proof (sl_frame f w Hf) as H. destruct (f w) as [[] w']. by apply HQ. Qed.

Lemma wp_finalize w : rooted w → wp finalize_in_memory_config (λ r w', rooted w' ∧ (r = 0 ∨ r = -1) ∧
  (r = 0 → ∀ n, (n, false) ∈ parser_groups w → shares w' !! fold n = Some (0, 0))) w.
Proof.
  intros Hr. unfold finalize_in_memory_config. apply wp_bind, wp_gets, wp_bind. eapply wp_mono; [apply wp_add_loop; [done|by left]|].
  intros r w1 (H1 & H2 & _ & H4). apply wp_bind, wp_frame; [set_solver|]. intros w2 E. apply wp_ret. unfold rooted. rewrite E.
  split_and!; [done..|]. intros Er. by apply H4.
Qed.

Lemma wp_any {A} (f : kcall W A) (Q : A → W → Prop) w : (∀ a w', f w = (a, w') → Q a w') → wp (call f) Q w.
Proof. intros H. unfold wp, call. destruct (f w) as [a w'] eqn:E. by apply H. Qed.

Lemma wp_setup ipc_init strdup conf l host w : (∀ w0, wp ipc_init (λ _ w', shares w' = shares w0) w0) →
  wp (setup_ksmbd_config ipc_init strdup conf l host) (λ r w', (r = 0 ∨ r = -1) ∧
    (r = 0 → rooted w' ∧ Forall (λ s, fold s.1 ≠ fold (bs "global") → shares w' !! fold s.1 = Some (0, 0)) l)) w.
Proof.
  intros Hipc. unfold setup_ksmbd_config. do 2 (apply wp_bind, wp_any; intros [] ? _). apply wp_bind, wp_any. intros [] w3 _. apply wp_bind, wp_any. intros [] w4 E4.
  assert (H4 : shares w4 = ∅) by (pose proof (sl_remove_all w3) as H; by rewrite E4 in H).
  apply wp_bind, wp_frame; [set_solver|]. intros w5 H5. apply wp_bind, wp_any. intros r w6 E6.
  assert (H6 : shares w6 = ∅) by (pose proof (sl_guest (guest_account conf) w5) as H; rewrite E6 in H; cbn in H; congruence).
  case_if; [apply wp_ret; split; [by right|done]|]. apply wp_bind. eapply wp_mono; [apply wp_add_groups|]. intros [] w7 [[H7 _] G7].
  apply wp_bind. apply (wp_mono _ (λ r w', adds w7 w')).
  { destruct host; [|by apply wp_ret]. eapply wp_mono; [apply wp_parse_conf|]. by intros ? ? [? _]. }
  intros r8 w8 H8. case_if; [apply wp_ret; split; [by right|done]|]. assert (Hr : rooted w8).
  { unfold rooted. destruct H8 as [-> _]. rewrite H7, H6. apply map_Forall_empty. }
  apply wp_bind. eapply wp_mono; [by apply wp_finalize|]. intros r9 w9 (H9 & Hr9 & Hreg). case_if; [apply wp_ret; split; [by right|done]|].
  apply wp_bind, wp_frame; [set_solver|]. intros w10 E10. apply wp_bind, wp_frame; [set_solver|]. intros w11 E11.
  apply wp_bind. eapply wp_mono; [apply Hipc|]. intros [] w12 E12. cbv beta in E12.
  apply wp_bind, wp_frame; [set_solver|]. intros w13 E13. apply wp_bind, wp_frame; [set_solver|]. intros w14 E14.
  assert (Es : shares w14 = shares w9) by congruence. apply wp_ret. split; [by left|]. intros _. unfold rooted. rewrite Es. split; [done|].
  eapply Forall_impl; [exact (grouped_adds l w7 w8 H8 G7)|]. intros s (n' & En & Hn) Hg. rewrite bool_decide_false in Hn by done.
  rewrite <- En. apply Hreg; [|done]. destruct Hr9 as [->| ->]; [done|]. zify_bools. lia.
Qed.
End Setup.

(** ** A small ksmbd-tools for the witnesses

    The groups as given, and the shares; a new share runs as uid 99. *)
Definition toy_tools : Type := list (bytes * list bytes) * gmap bytes (Z * Z).
Definition quiet_call : kcall toy_tools () := λ w, ((), w).
#[export] Instance toy_smbtools : SmbTools toy_tools := {|
  usm_init := quiet_call; usm_remove_all_users := quiet_call; usm_destroy := quiet_call;
  shm_init := quiet_call; shm_remove_all_shares w := ((), (w.1, ∅)); shm_destroy := quiet_call;
  cp_smbconf_parser_init w := ((), ([], w.2)); cp_smbconf_parser_destroy w := ((), ([], w.2));
  usm_add_guest_account _ w := (0, w);
  cp_parse_external_smbconf_group n o w := ((), (w.1 ++ [(n, o)], w.2));
  parser_groups w := (λ g, (g.1, bool_decide (g.1 = bs "global"))) <$> w.1;
  shm_add_new_share n w := (0, (w.1, if w.2 !! n then w.2 else <[n := (99, 99)]> w.2));
  shm_lookup_share n w := (if w.2 !! n then Some n else None, w);
  set_force_uid k v w := ((), (w.1, alter (λ x, (v, x.2)) k w.2));
  set_force_gid k v w := ((), (w.1, alter (λ x, (x.1, v)) k w.2));
  put_ksmbd_share _ := quiet_call;
  sm_init := quiet_call; sm_destroy := quiet_call; rpc_init := quiet_call; spnego_init := quiet_call; spnego_destroy := quiet_call;
  wp_init := quiet_call; wp_destroy := quiet_call |}.

#[export] Instance toy_tools_laws : SmbToolsLaws toy_tools.
Proof.
  refine {| shares := snd; fold := id |}; try done; cbn.
  - intros f w H. rewrite !elem_of_cons in H. destruct H as [->|[->|[->|[->|[->|[->|?%not_elem_of_nil]]]]]]; done.
  - intros n o w. split; [done|]. rewrite fmap_app. split; [set_solver|]. exists n. split; [done|]. set_solver.
  - intros n w. unfold id. case_bool_decide as E; [rewrite E; by eexists|]. destruct (w.2 !! n); [|done]. by split; [|eexists].
Defined.

(** ** Properties *)

(** C27 A smb.conf of the host is replayed section by section: for every file
    whose lines are shorter than 1023 bytes and free of NUL, whatever their
    indentation, comments, blank lines and line ends (LF or CRLF), the calls
    made to ksmbd-tools are exactly one per header, in order, each with the
    options that follow it up to the next header, without the blanks around
    them; a name is cut at 127 bytes, a section at 32 options. Lines before the
    first header, headers that are not closed and lines without an equals sign
    are left out. This holds of any ksmbd-tools, when every strdup succeeds. *)
Theorem smbconf_replayed {W} `{!SmbTools W} strdup ls lst items (w : W) :
  (∀ p, strdup p = true) → Forall plain (ls ++ [lst]) → Forall2 line_of items (ls ++ [lst]) →
  parse_host_smbconf strdup (Some (text_of ls lst)) w = (_ ← replay (sections items); mret 0) w.
Proof.
  intros Hd Hp Hi. transitivity (finish (conf_loop (S (length (text_of ls lst))) strdup (text_of ls lst) (mk_state [] [] false)) w); [done|].
  rewrite (loop_spec _ Hd ls lst items) by (done || cbn; lia). done.
Qed.

(** A file with a comment, a CRLF end, an unclosed header and a line before
    the first section, its last line without an end. *)
Definition sample_lines : list bytes :=
  [bs "; shares"; bs "stray = 1"; bs "[data]" ++ [13]; [9] ++ bs "path = /x " ++ [13]; bs "[half"; bs "comment = a;b"; []].
Definition sample_last : bytes := bs " [b] x".
Definition sample_items : list item :=
  [Nothing; Opt (bs "stray = 1"); Header (bs "data"); Opt (bs "path = /x"); Nothing; Opt (bs "comment = a;b"); Nothing; Header (bs "b")].

Lemma sample_ok : Forall plain (sample_lines ++ [sample_last]) ∧ Forall2 line_of sample_items (sample_lines ++ [sample_last]).
Proof.
  split; [apply (bool_decide_unpack _); vm_compute; exact I|].
  unfold sample_lines, sample_items, sample_last. cbn [app]. repeat apply Forall2_cons_2; [..|apply Forall2_nil_2].
  - apply (lo_comment [] 59 (bs " shares")); [constructor|by left].
  - apply (lo_option [] 115 (bs "tray = 1") []); [constructor|set_solver|apply (bool_decide_unpack _); vm_compute; exact I| |constructor].
    exists 49. split; [done|set_solver].
  - apply (lo_header [] (bs "data") [13]); [constructor|apply (bool_decide_unpack _); vm_compute; exact I].
  - apply (lo_option [9] 112 (bs "ath = /x") [32; 13]); [repeat constructor; lia|set_solver|apply (bool_decide_unpack _); vm_compute; exact I| |repeat constructor; lia].
    exists 120. split; [done|set_solver].
  - apply (lo_open [] (bs "half")); [constructor|apply (bool_decide_unpack _); vm_compute; exact I].
  - apply (lo_option [] 99 (bs "omment = a;b") []); [constructor|set_solver|apply (bool_decide_unpack _); vm_compute; exact I| |constructor].
    exists 98. split; [done|set_solver].
  - apply lo_blank. constructor.
  - apply (lo_header [32] (bs "b") (bs " x")); [repeat constructor; lia|apply (bool_decide_unpack _); vm_compute; exact I].
Qed.

Lemma smbconf_replayed_witness :
  parse_host_smbconf (λ _, true) (Some (text_of sample_lines sample_last)) (([], ∅) : toy_tools) =
    (_ ← replay (sections sample_items); mret 0) (([], ∅) : toy_tools) ∧
  sections sample_items = [(bs "data", [bs "path = /x"; bs "comment = a;b"]); (bs "b", [])].
Proof.
  split; [|vm_compute; reflexivity].
  exact (smbconf_replayed (λ _, true) sample_lines sample_last sample_items (([], ∅) : toy_tools) (λ _, eq_refl) (proj1 sample_ok) (proj2 sample_ok)).
Defined.

(** The shares of the SMB server: whatever the smb.conf of the host holds,
    the set-up returns 0 or -1, and after 0 every share of the command line is
    registered with ksmbd-tools (unless it is called global), and every share
    there is, those of the file included, runs as uid 0 and gid 0. *)
Theorem setup_registers {W} `{!SmbTools W, !SmbToolsLaws W} ipc_init strdup conf l host (w : W) :
  (∀ w0, wp ipc_init (λ _ w', shares w' = shares w0) w0) →
  wp (setup_ksmbd_config ipc_init strdup conf l host) (λ r w', (r = 0 ∨ r = -1) ∧
    (r = 0 → rooted w' ∧ Forall (λ s, fold s.1 ≠ fold (bs "global") → shares w' !! fold s.1 = Some (0, 0)) l)) w.
Proof. apply wp_setup. Qed.

Lemma setup_registers_witness :
  wp (setup_ksmbd_config (mret ()) (λ _, true) (setup_global_conf 1 (mk_limits 0 4 0)) [(bs "a", bs "/lklmnt/x")] (Some (Some (text_of sample_lines sample_last))))
    (λ r w', (r = 0 ∨ r = -1) ∧ (r = 0 → rooted w' ∧
      Forall (λ s, fold s.1 ≠ fold (bs "global") → shares w' !! fold s.1 = Some (0, 0)) [(bs "a", bs "/lklmnt/x")])) (([], ∅) : toy_tools) ∧
  (λ r, (r.1, map_to_list r.2.2)) <$> setup_ksmbd_config (mret ()) (λ _, true) (setup_global_conf 1 (mk_limits 0 4 0)) [(bs "a", bs "/lklmnt/x")]
    (Some (Some (text_of sample_lines sample_last))) (([], ∅) : toy_tools) = Some (0, [(bs "b", (0, 0)); (bs "data", (0, 0)); (bs "a", (0, 0))]).
Proof.
  split; [|vm_compute; reflexivity].
  apply (setup_registers (mret ()) (λ _, true) (setup_global_conf 1 (mk_limits 0 4 0)) [(bs "a", bs "/lklmnt/x")]
    (Some (Some (text_of sample_lines sample_last))) (([], ∅) : toy_tools)). done.
Defined.

(** A share called global is accepted and never served. *)
Lemma share_global_lost :
  (λ r, (r.1, map_to_list r.2.2)) <$> setup_ksmbd_config (mret ()) (λ _, true) (setup_global_conf 1 (mk_limits 0 0 0)) [(bs "global", bs "/lklmnt/x")] None
    (([], ∅) : toy_tools) = Some (0, []).
Proof. vm_compute. reflexivity. Qed.

(** A line is cut at 1023 bytes and the rest is taken for a line of its own:
    the end of a long comment becomes an option. *)
Lemma long_comment_read : (λ r, (r.1, r.2.1)) <$> parse_host_smbconf (λ _, true)
    (Some (text_of [bs "[a]"; 35 :: replicate 1022 45 ++ bs "read only = no"] [])) (([], ∅) : toy_tools) =
  Some (0, [(bs "a", [bs "read only = no"])]).
Proof. vm_compute. reflexivity. Qed.

(** The path of a share fits the option made of it. *)
Lemma share_opts_path lkl_path : len lkl_path < 64 → head (share_opts lkl_path) = Some (bs "path = " ++ lkl_path).
Proof. intros H. unfold share_opts. cbn [head]. f_equal. apply snprintf_fits. rewrite length_app. change (length (bs "path = ")) with 7%nat. lia. Qed.
End SmbConf.
