(* ===== verification/KsmbdMain.v ===== *)
(** * KsmbdMain

    main of src/ksmbd/ksmbd_main.c: the options, the configuration of
    ksmbd-tools, the daemon of KsmbdIpc and the shutdown, over the run of
    DiskSet.  The threads of ksmbd-tools and of the host proxy are not part
    of this model. *)
From S2P Require Import Prelude CLib Legacy Lkl Path Probe Sysfs Mount Session SessionSpec SessionFrame SessionOpen Raw Backend Share DiskSet Mountd KsmbdIpc Server HostProxy SmbConf.
Import CLib Probe Mount Session SessionSpec SessionFrame SessionOpen Server SmbConf KsmbdIpc.

Module KsmbdMain.

(** ** Options *)
Definition short_opts : list (Z * bool) := [(99, true); (100, false); (104, false); (112, true); (80, true)].
Definition long_opts : list long_option :=
  [mk_opt (bs "share") true 1000; mk_opt (bs "mem-mb") true 1001; mk_opt (bs "max-read") true 1002; mk_opt (bs "max-conn") true 1003;
   mk_opt (bs "max-credits") true 1004; mk_opt (bs "busy-spin") false 1005; mk_opt (bs "no-fast-sync") false 1006;
   mk_opt (bs "legacy-encoding") true 1007; mk_opt (bs "help") false 104].

(** The variables of main; [g_enc] and [busy_spin] are those of
    anyfs_legacy.c and host_proxy.c that the options set. *)
Record args := mk_args {
  share_specs : list bytes; config_file : option bytes; debug : bool; host_port : Z; legacy_part : Z; mem_mb : Z;
  limits : KsmbdLimits; busy_spin : bool; g_enc : Z }.
Definition args0 : args := mk_args [] None false HOST_FWD_PORT (-1) 0 (mk_limits 0 0 0) false (-1).

Section Options.
Context (getenv : bytes → option bytes).

(** One turn of the switch: the exit status, or the variables. *)
Definition handle_opt (a : args) (o : Z * bytes) : Z + args :=
  let '(mk_args sp cf dbg hp lp mb lim spin enc) := a in
  let '(opt, optarg) := o in
  let n := Mountd.atoi optarg in
  if opt =? 1000 then if DiskSet.ANYFS_MAX_SHARES <=? len sp then inl 1 else inr (mk_args (sp ++ [optarg]) cf dbg hp lp mb lim spin enc)
  else if opt =? 1001 then if n <=? 0 then inl 1 else inr (mk_args sp cf dbg hp lp n lim spin enc)
  else if opt =? 1002 then if n <? 4096 then inl 1 else inr (mk_args sp cf dbg hp lp mb (mk_limits n (max_conn lim) (max_credits lim)) spin enc)
  else if opt =? 1003 then if n <=? 0 then inl 1 else inr (mk_args sp cf dbg hp lp mb (mk_limits (max_read lim) n (max_credits lim)) spin enc)
  else if opt =? 1004 then if n <=? 0 then inl 1 else inr (mk_args sp cf dbg hp lp mb (mk_limits (max_read lim) (max_conn lim) n) spin enc)
  else if opt =? 1005 then inr (mk_args sp cf dbg hp lp mb lim true enc)
  else if opt =? 1006 then inr a
  else if opt =? 1007 then
    let e := Legacy.anyfs_legacy_parse getenv (Some optarg) in
    if e <? 0 then inl 1 else inr (mk_args sp cf dbg hp lp mb lim spin (Legacy.anyfs_legacy_set e))
  else if opt =? 99 then inr (mk_args sp (Some optarg) dbg hp lp mb lim spin enc)
  else if opt =? 100 then inr (mk_args sp cf true hp lp mb lim spin enc)
  else if opt =? 104 then inl 0
  else if opt =? 112 then inr (mk_args sp cf dbg hp n mb lim spin enc)
  else if opt =? 80 then inr (mk_args sp cf dbg n lp mb lim spin enc)
  else inl 1.
Fixpoint handle_opts (a : args) (l : list (Z * bytes)) : Z + args :=
  match l with
  | [] => inr a
  | o :: l' => match handle_opt a o with inl c => inl c | inr a' => handle_opts a' l' end
  end.
Definition parse_args (argv : list bytes) : Z + (args * list bytes * list bytes) :=
  let '(opts, words) := getopt_long short_opts long_opts argv in
  match handle_opts args0 opts with
  | inl c => inl c
  | inr a => match finish_args words (share_specs a) (legacy_part a) with inl c => inl c | inr (images, specs) => inr (a, images, specs) end
  end.
End Options.

(** What the options leave is in range. *)
Record args_ok (a : args) : Prop := {
  ao_specs : len (share_specs a) <= 32 ∧ Forall CStr (share_specs a);
  ao_legacy : - 2 ^ 31 <= legacy_part a < 2 ^ 31;
  ao_limits : max_read (limits a) = 0 ∨ 4096 <= max_read (limits a) < 2 ^ 31;
  ao_conn : 0 <= max_conn (limits a) < 2 ^ 31 ∧ 0 <= max_credits (limits a) < 2 ^ 31 ∧ 0 <= mem_mb a < 2 ^ 31 }.

Lemma atoi_range s : - 2 ^ 31 <= Mountd.atoi s < 2 ^ 31.
Proof. apply i32_range. Qed.

Lemma smb_handle_opt_ok getenv a o a' : args_ok a → CStr o.2 → handle_opt getenv a o = inr a' → args_ok a'.
Proof.
  intros [Hs Hl Hr Hc] Ho H. destruct a as [sp cf dbg hp lp mb lim spin enc], o as [opt optarg]. unfold handle_opt in H. cbn [snd] in Ho.
  pose proof (atoi_range optarg) as Hn. set (n := Mountd.atoi optarg) in *. cbn [share_specs legacy_part limits mem_mb] in *.
  repeat match type of H with (if ?b then _ else _) = _ => let E := fresh "E" in destruct b eqn:E; try done end;
    injection H as <-; split; cbn [share_specs legacy_part limits mem_mb max_read max_conn max_credits]; zify_bools;
    try done; change DiskSet.ANYFS_MAX_SHARES with 32 in *; try lia.
  rewrite length_app. cbn [length]. split; [lia|]. apply Forall_app. split; [apply Hs|by constructor].
Qed.
Lemma smb_handle_opts_ok getenv l a a' : args_ok a → Forall (λ o, CStr o.2) l → handle_opts getenv a l = inr a' → args_ok a'.
Proof.
  intros Ha Hl. revert a Ha. induction Hl as [|o l Ho Hl IH]; intros a Ha H; cbn [handle_opts] in H; [by injection H as <-|].
  destruct (handle_opt getenv a o) as [c|a1] eqn:E; [done|]. eapply IH; [|exact H]. by eapply smb_handle_opt_ok.
Qed.
Lemma args0_ok : args_ok args0.
Proof. split; cbn; [split; [lia|constructor]|lia|by left|lia]. Qed.

Lemma smb_parse_args_ok getenv argv a images specs : Forall CStr argv → parse_args getenv argv = inr (a, images, specs) →
  args_ok a ∧ 1 <= len images <= 16 ∧ 1 <= len specs <= 32 ∧ Forall CStr specs ∧ Forall CStr images.
Proof.
  intros Hc. unfold parse_args. destruct (getopt_CStr short_opts long_opts argv Hc) as [Ho Hw]. destruct (getopt_long _ _ _) as [opts words].
  cbn [fst snd] in *. destruct (handle_opts getenv args0 opts) as [c|a'] eqn:E; [done|]. apply smb_handle_opts_ok in E; [|apply args0_ok|done].
  destruct (finish_args words (share_specs a') (legacy_part a')) as [c|[im sp]] eqn:Ef; [done|]. intros [= <- <- <-].
  destruct (ao_specs _ E) as [H1 H2]. apply finish_ok in Ef as (-> & Hi & Hs & Hsc); [|done|apply E|done]. split_and!; (done || lia).
Qed.

(** ** Command lines for a configuration *)
Definition num_opt (opt v : Z) : list (Z * bytes) := if v =? 0 then [] else [(opt, fmt_d v)].
Definition options_of (a : args) : list (Z * bytes) :=
  ((λ s, (1000, s)) <$> share_specs a) ++ num_opt 1001 (mem_mb a) ++ num_opt 1002 (max_read (limits a)) ++ num_opt 1003 (max_conn (limits a)) ++
  num_opt 1004 (max_credits (limits a)) ++ (if busy_spin a then [(1005, [])] else []) ++ (if debug a then [(100, [])] else []) ++
  [(80, fmt_d (host_port a))] ++ match config_file a with Some f => [(99, f)] | None => [] end.

Section Roundtrip.
Context (getenv : bytes → option bytes).
Notation handle_opts := (handle_opts getenv).

Lemma handle_app a l1 l2 : handle_opts a (l1 ++ l2) = match handle_opts a l1 with inl c => inl c | inr a' => handle_opts a' l2 end.
Proof. revert a. induction l1 as [|o l1 IH]; intros a; [done|]. cbn [app KsmbdMain.handle_opts]. by destruct (handle_opt getenv a o). Qed.

Lemma atoi_fmt n : 0 <= n < 2 ^ 31 → Mountd.atoi (fmt_d n) = n.
Proof.
  intros Hn. unfold Mountd.atoi, fmt_d. destruct (Z.ltb_spec n 0); [lia|]. rewrite <- (app_nil_r (fmt_u n)), strtol_fmt_u by (done || lia).
  cbn [fst]. apply i32_small. lia.
Qed.

Lemma handle_shares l sp cf dbg hp lp mb lim spin enc : len sp + len l <= 32 →
  handle_opts (mk_args sp cf dbg hp lp mb lim spin enc) ((λ s, (1000, s)) <$> l) = inr (mk_args (sp ++ l) cf dbg hp lp mb lim spin enc).
Proof.
  revert sp. induction l as [|x l IH]; intros sp H; cbn [fmap list_fmap]; [by rewrite app_nil_r|]. cbn [KsmbdMain.handle_opts handle_opt]. cbn [Z.eqb Pos.eqb].
  change DiskSet.ANYFS_MAX_SHARES with 32. cbn [length] in H. destruct (Z.leb_spec 32 (len sp)); [lia|]. rewrite IH by (rewrite length_app; cbn; lia).
  by rewrite <- app_assoc.
Qed.

(** A number that is 0 is not given. *)
Lemma handle_num opt v a a' rest : 0 <= v < 2 ^ 31 → (v = 0 → a' = a) → (v ≠ 0 → handle_opt getenv a (opt, fmt_d v) = inr a') →
  handle_opts a (num_opt opt v ++ rest) = handle_opts a' rest.
Proof.
  intros Hv H0 H1. unfold num_opt. destruct (Z.eqb_spec v 0) as [->|Hne]; [by rewrite H0|]. cbn [app KsmbdMain.handle_opts]. by rewrite H1.
Qed.

Lemma handle_options a : args_ok a → legacy_part a = -1 → g_enc a = -1 → 0 <= host_port a < 2 ^ 31 → handle_opts args0 (options_of a) = inr a.
Proof.
  destruct a as [sp cf dbg hp lp mb [mr mc mk] spin enc]. intros [[Hs _] _ Hr (Hc & Hk & Hm)] El Ee Hp. cbn in *. subst.
  unfold options_of, args0. cbn [share_specs mem_mb limits max_read max_conn max_credits busy_spin debug host_port config_file].
  rewrite handle_app, handle_shares by (cbn; lia). cbn [app].
  assert (Hg : ∀ v, v ≠ 0 → 0 <= v < 2 ^ 31 → (Mountd.atoi (fmt_d v) <=? 0) = false) by (intros v ? ?; rewrite atoi_fmt by lia; apply Z.leb_gt; lia).
  rewrite (handle_num 1001 mb _ (mk_args sp None false HOST_FWD_PORT (-1) mb (mk_limits 0 0 0) false (-1))); [|done|by intros ->|].
  2: { intros Hne. cbn [handle_opt Z.eqb Pos.eqb]. by rewrite Hg, atoi_fmt by lia. }
  rewrite (handle_num 1002 mr _ (mk_args sp None false HOST_FWD_PORT (-1) mb (mk_limits mr 0 0) false (-1))); [|lia|by intros ->|].
  2: { intros Hne. cbn [handle_opt Z.eqb Pos.eqb]. rewrite atoi_fmt by lia. destruct (Z.ltb_spec mr 4096); [lia|done]. }
  rewrite (handle_num 1003 mc _ (mk_args sp None false HOST_FWD_PORT (-1) mb (mk_limits mr mc 0) false (-1))); [|done|by intros ->|].
  2: { intros Hne. cbn [handle_opt Z.eqb Pos.eqb]. by rewrite Hg, atoi_fmt by lia. }
  rewrite (handle_num 1004 mk _ (mk_args sp None false HOST_FWD_PORT (-1) mb (mk_limits mr mc mk) false (-1))); [|done|by intros ->|].
  2: { intros Hne. cbn [handle_opt Z.eqb Pos.eqb]. by rewrite Hg, atoi_fmt by lia. }
  destruct spin, dbg, cf; cbn [app KsmbdMain.handle_opts handle_opt Z.eqb Pos.eqb]; by rewrite atoi_fmt.
Qed.
End Roundtrip.

Section Main.
Context {W : Type} `{!Lkl W, !LklWrite W, !Host W, !Core W, !Netlink W, !Proxy W, !SmbTools (ipc * W)}.
Context (MAX HDR VER : Z) (malloc : Z → bool) (genl_name startup : bytes) (startup_type shutdown_type shutdown_sz map_bad_user : Z).
Context (strdup : bytes → bool) (fopen : bytes → option bytes).
Notation St := (ipc * W)%type.

Definition cleanup : M St () :=
  _ ← ipc_destroy MAX HDR VER malloc shutdown_type shutdown_sz;
  _ ← call wp_destroy; _ ← call spnego_destroy; _ ← call sm_destroy; _ ← call shm_destroy; call usm_destroy.

(** The part of main between the shares and halt; [n] reads of
    anyfs_server_running are true. *)
Definition serve_smb (n : nat) (a : args) (shares : list (bytes * bytes)) : M St Z :=
  let conf := setup_global_conf map_bad_user (limits a) in
  r ← setup_ksmbd_config (ipc_init MAX HDR VER malloc genl_name startup startup_type) strdup conf shares (fopen <$> config_file a);
  if r <? 0 then mret 1
  else
    s ← mget;
    if negb (running s.1) then _ ← cleanup; mret 1
    else
      r ← lower (host_proxy_start (host_port a mod 65536) SMB_PORT);
      if r <? 0 then _ ← cleanup; mret 1
      else
        e ← event_loop MAX HDR VER malloc n 0;
        let status := if (e.1 <? 0) && (0 <? Z.of_nat e.2) then 1 else 0 in
        _ ← lower host_proxy_stop;
        _ ← cleanup;
        mret status.

(** nlsock and the other variables of ksmbd_ipc.c have their initial values. *)
Definition serve (n : nat) (a : args) (shares : list (bytes * bytes)) : M W Z := λ w,
  match serve_smb n a shares (ipc0, w) with Some (r, s) => Some (r, s.2) | None => None end.

(** The switch of the kernel's debug messages. *)
Definition control_debug : bytes := bs "/sys/class/ksmbd-control/debug".
Definition debug_on : M W () :=
  dfd ← lkl_sys_open control_debug LKL_O_WRONLY;
  _ ← (if 0 <=? dfd then _ ← call (sys_write dfd (bs "all" ++ [10])); lkl_sys_close dfd else mret 0);
  rfd ← lkl_sys_open control_debug LKL_O_RDONLY;
  if 0 <=? rfd then _ ← lkl_sys_read rfd 127; _ ← lkl_sys_close rfd; mret () else mret ().

(** [boot] is anyfs_server_boot (anyfs_kernel_init is in Kernel); the result
    is the exit status, with the shares that were served. *)
Definition main (calloc dup : bool) (creds : Creds) (getenv : bytes → option bytes) (boot : Z → Z → M W Z) (halt : M W ()) (n : nat)
    (argv : list bytes) : M W (Z * list (bytes * bytes)) :=
  match parse_args getenv argv with
  | inl c => mret (c, [])
  | inr (a, images, specs) =>
      r ← boot (mem_mb a) (if debug a then 8 else 4);
      if negb (r =? 0) then mret (1, [])
      else
        _ ← (if debug a then debug_on else mret ());
        DiskSet.run_server calloc halt creds dup images specs Raw.ANYFS_SESSION_READONLY
          (Legacy.anyfs_legacy_fat_flag (Legacy.anyfs_legacy_get getenv (g_enc a)).1) (serve n a)
  end.
End Main.

(** ** The daemon keeps the mounts *)

(** What ksmbd-tools may do: it neither mounts, attaches a disk nor touches a
    descriptor of the kernel. *)
Class SmbKeeps (W : Type) `{!Lkl W, !LklLaws W, !SmbTools (ipc * W)} := {
  keep_tool A (f : kcall (ipc * W) A) s : is_tool f → (f s).2.1 = s.1 ∧ view (f s).2.2 = view s.2 }.

Lemma fat_flag_no_replace enc : flag (Legacy.anyfs_legacy_fat_flag enc) ANYFS_MOUNT_REPLACE = false.
Proof.
  unfold Legacy.anyfs_legacy_fat_flag. destruct ((enc <? 0) || (Legacy.N_ENCODINGS <=? enc)) eqn:E; [done|]. zify_bools.
  assert (enc ∈ seqZ 0 Legacy.N_ENCODINGS) as Hin by (apply elem_of_seqZ; lia). vm_compute in Hin.
  repeat (apply elem_of_cons in Hin as [->|Hin]; [vm_compute; reflexivity|]). by apply not_elem_of_nil in Hin.
Qed.

Section Debug.
Context {W : Type} `{!Lkl W, !LklLaws W, !LklWrite W, !LklWriteLaws W}.
Lemma wp_debug_on w : wp debug_on (λ _ w', view w' = view w) w.
Proof.
  unfold debug_on. apply wp_bind. apply (wp_mono _ (λ dfd w1, if 0 <=? dfd then v_fds (view w) !! dfd = None ∧
    view w1 = mk_view (<[dfd := control_debug]> (v_fds (view w))) (v_mnt (view w)) (v_bro (view w)) (v_dsk (view w)) else view w1 = view w)).
  { apply wp_open; intros r w1 Hr; destruct (Z.leb_spec 0 r); (lia || done). }
  intros dfd w1 H1. cbv beta in H1. apply wp_bind. apply (wp_mono _ (λ _ w2, view w2 = view w)).
  { destruct (0 <=? dfd); [|by apply wp_ret]. destruct H1 as [Hn E1]. apply wp_bind, wp_call, wp_close. intros _ w3 E3.
    rewrite law_write, E1 in E3. cbn in E3. rewrite delete_insert_id in E3 by done. rewrite E3. by destruct (view w). }
  intros _ w2 E2. cbv beta in E2. apply wp_bind, wp_open; intros rfd w3.
  { intros Hr E3. destruct (Z.leb_spec 0 rfd); [lia|]. apply wp_ret. congruence. }
  intros Hr Hn E3. destruct (Z.leb_spec 0 rfd); [|lia]. apply wp_bind, wp_read. intros r d w4 E4 _ _. apply wp_bind, wp_close. intros _ w5 E5.
  apply wp_ret. rewrite E4, E3 in E5. cbn in E5. rewrite delete_insert_id in E5 by done. rewrite E5, E2. by destruct (view w).
Qed.
End Debug.

Section Keeps.
Context {W : Type} `{!Lkl W, !LklLaws W, !LklWrite W, !LklWriteLaws W, !Host W, !HostLaws W, !Core W, !CoreLaws W, !Netlink W, !NetlinkLaws W,
  !Proxy W, !ProxyKeeps W, !SmbTools (ipc * W), !SmbKeeps W}.
Context (MAX HDR VER : Z) (malloc : Z → bool) (genl_name startup : bytes) (startup_type shutdown_type shutdown_sz map_bad_user : Z).
Context (Hmax : 256 <= MAX < 2 ^ 29) (Hhdr : 0 <= HDR < 2 ^ 30) (Hver : 0 <= VER < 256) (Hname : len genl_name <= 256).
Context (Hstart : len startup < 2 ^ 30) (Hshut : 0 <= shutdown_sz < 2 ^ 30).
Context (strdup : bytes → bool) (fopen : bytes → option bytes).
Notation St := (ipc * W)%type.

(** Code of ksmbd-tools and of its configuration. *)
Definition same (s s' : St) : Prop := s'.1 = s.1 ∧ view s'.2 = view s.2.
Definition tk {A} (m : M St A) : Prop := ∀ s, wp m (λ _ s', same s s') s.
#[local] Instance same_preorder : PreOrder same.
Proof. split; [by split|]. intros x y z [E1 H1] [E2 H2]. split; congruence. Qed.

Lemma tk_ret {A} (a : A) : tk (mret a).
Proof. intros s. by apply wp_ret. Qed.
Lemma tk_bind {A B} (m : M St A) (f : A → M St B) : tk m → (∀ a, tk (f a)) → tk (m ≫= f).
Proof. intros Hm Hf s. apply wp_bind. eapply wp_mono; [apply Hm|]. intros a s1 H1. eapply wp_mono; [apply Hf|]. intros b s2 H2. cbv beta in *. by etrans. Qed.
Lemma tk_tool {A} (f : kcall St A) : is_tool f → tk (call f).
Proof. intros Hf s. apply wp_call. by apply keep_tool. Qed.
Lemma tk_gets {A} (f : St → A) : tk (mgets f).
Proof. intros s. by apply wp_gets. Qed.
Lemma tk_for {A} (l : list A) (f : A → M St ()) : (∀ a, tk (f a)) → tk (mfor l f).
Proof. intros Hf. induction l as [|a l IH]; cbn [mfor]; [apply tk_ret|]. apply tk_bind; [apply Hf|done]. Qed.

Create HintDb tk.
#[local] Hint Resolve tk_ret tk_bind tk_tool tk_gets tk_for : tk.
#[local] Hint Constructors is_tool : tk.
Ltac tk_go := repeat first [apply tk_ret | apply tk_gets | apply tk_bind; [|intros ?] | case_match | solve [apply tk_tool; eauto with tk; apply it_plain; set_solver] ].

Lemma tk_flush st : tk (flush_section st).
Proof. unfold flush_section. tk_go. Qed.
Lemma tk_line p st : tk (conf_line strdup p st).
Proof. unfold conf_line. tk_go; apply tk_flush. Qed.
Lemma tk_loop fuel f st : (length f < fuel)%nat → tk (conf_loop fuel strdup f st).
Proof.
  revert f st. induction fuel as [|n IH]; intros f st Hn; [lia|]. cbn [conf_loop]. destruct f as [|c f]; [apply tk_ret|].
  destruct (fgets _ (c :: f)) as [line rest] eqn:E. apply fgets_shorter in E; [|change (Z.to_nat (LINE_MAX - 1)) with 1023%nat; lia|done].
  apply tk_bind; [apply tk_line|]. intros [st'|]; [apply IH; lia|apply tk_ret].
Qed.
Lemma tk_parse file : tk (parse_host_smbconf strdup file).
Proof. unfold parse_host_smbconf. tk_go; [apply tk_loop; lia|apply tk_flush]. Qed.
Lemma tk_groups gs ret : tk (add_groups gs ret).
Proof. revert ret. induction gs as [|[n []] gs IH]; intros ret; cbn [add_groups]; [apply tk_ret|apply IH|]. unfold stamp_share. tk_go; apply IH. Qed.
Lemma tk_finalize : tk finalize_in_memory_config.
Proof. unfold finalize_in_memory_config. tk_go. apply tk_groups. Qed.

Lemma live_same v s s' : same s s' → Live MAX HDR v s → Live MAX HDR v s'.
Proof. intros [E1 E2] [He Hf Hr]. split; rewrite ?E1, ?E2; done. Qed.

(** Before ipc_init there is no socket, after it the daemon is live. *)
Lemma wp_tk {A} (m : M St A) (Q : A → St → Prop) s : tk m → (∀ a s', same s s' → Q a s') → wp m Q s.
Proof. intros Hm HQ. eapply wp_mono; [apply Hm|]. intros a s'. apply HQ. Qed.
Ltac tk_skip := apply wp_bind, wp_tk; [tk_go|].

Lemma wp_setup_live conf l host w :
  wp (setup_ksmbd_config (ipc_init MAX HDR VER malloc genl_name startup startup_type) strdup conf l host)
    (λ r s', if r <? 0 then same (ipc0, w) s' else Live MAX HDR (view w) s') (ipc0, w).
Proof.
  unfold setup_ksmbd_config. tk_skip. intros _ s1 H1. tk_skip. intros _ s2 H2. tk_skip. intros _ s3 H3. tk_skip. intros _ s4 H4.
  tk_skip. intros _ s5 H5. tk_skip. intros r s6 H6. assert (A1 : same (ipc0, w) s6) by (do 5 (etrans; [eassumption|]); done).
  destruct (negb (r =? 0)); [by apply wp_ret|]. apply wp_bind, wp_tk; [apply tk_for; intros; unfold add_share_group; tk_go|]. intros _ s7 H7.
  apply wp_bind, wp_tk; [case_match; [apply tk_parse|apply tk_ret]|]. intros r8 s8 H8. assert (A2 : same (ipc0, w) s8) by (etrans; [eassumption|]; by etrans).
  destruct (r8 <? 0); [by apply wp_ret|]. apply wp_bind, wp_tk; [apply tk_finalize|]. intros r9 s9 H9. assert (A3 : same (ipc0, w) s9) by (by etrans).
  destruct (r9 <? 0); [by apply wp_ret|]. tk_skip. intros _ s10 H10. tk_skip. intros _ s11 H11.
  assert (Hs : same (ipc0, w) s11) by (etrans; [eassumption|]; by etrans). destruct s11 as [i w11], Hs as [Ei Ev]. cbn [fst snd] in *. subst i.
  apply wp_bind. eapply wp_mono; [by apply wp_ipc_init|]. intros [] s12 HL. cbv beta in HL. rewrite Ev in HL.
  tk_skip. intros _ s13 H13. tk_skip. intros _ s14 H14. apply wp_ret. cbn. eapply live_same; [|exact HL]. by etrans.
Qed.

Lemma wp_cleanup v s : Live MAX HDR v s →
  wp (cleanup MAX HDR VER malloc shutdown_type shutdown_sz) (λ _ s', nlsock s'.1 < 0 ∧ view s'.2 = v) s.
Proof.
  intros HL. unfold cleanup. apply wp_bind. eapply wp_mono; [by eapply wp_ipc_destroy|]. intros [] s1 (Hn & _ & Hv & _).
  apply wp_tk; [tk_go|]. intros _ s2 [E1 E2]. by rewrite E1, E2.
Qed.

(** Live, up to the descriptors of others. *)
Definition living (w : W) (s : St) : Prop :=
  ∃ v, v_mnt v = v_mnt (view w) ∧ v_bro v = v_bro (view w) ∧ v_dsk v = v_dsk (view w) ∧ Live MAX HDR v s.
Lemma living_rest w s w' : living w s → rest_of w' = rest_of s.2 → living w (s.1, w').
Proof.
  intros (v & E1 & E2 & E3 & HL) Hr. destruct (live_rebase _ _ v s w' HL Hr) as (v1 & F1 & F2 & F3 & HL1). exists v1. split_and!; [congruence..|done].
Qed.

Definition served (w : W) (r : Z) (s' : St) : Prop := (r = 0 ∨ r = 1) ∧ nlsock s'.1 < 0 ∧ rest_of s'.2 = rest_of w.

Lemma wp_serve_smb n a l w :
  wp (serve_smb MAX HDR VER malloc genl_name startup startup_type shutdown_type shutdown_sz map_bad_user strdup fopen n a l) (served w) (ipc0, w).
Proof.
  unfold serve_smb. apply wp_bind. eapply wp_mono; [apply wp_setup_live|]. intros r s1 H1. cbv beta in H1. destruct (r <? 0).
  { apply wp_ret. destruct H1 as [E1 E2]. unfold served, rest_of. rewrite E1, E2. split_and!; [by right|done|done]. }
  assert (Hc : ∀ s st, living w s → (st = 0 ∨ st = 1) → wp (cleanup MAX HDR VER malloc shutdown_type shutdown_sz ≫= λ _, mret st) (served w) s).
  { intros s st (v & F1 & F2 & F3 & Hs) Hst. apply wp_bind. eapply wp_mono; [by apply wp_cleanup|]. intros [] s' [? E]. apply wp_ret.
    split_and!; [done..|]. unfold rest_of. rewrite E. congruence. }
  assert (H1' : living w s1) by by exists (view w).
  apply wp_bind, wp_get. destruct (negb (running s1.1)); [apply Hc; auto|]. apply wp_bind, wp_lower. eapply wp_mono; [apply keep_start|]. intros r2 w2 E2.
  pose proof (living_rest _ _ _ H1' E2) as (v & F1 & F2 & F3 & H2). case_if; [apply Hc; [by exists v|auto]|].
  apply wp_bind. eapply wp_mono; [by eapply keeps_loop|]. intros e s3 (H3 & _).
  apply wp_bind, wp_lower. eapply wp_mono; [apply keep_stop|]. intros [] w4 E4. apply Hc; [apply living_rest; [by exists v|done]|].
  destruct ((e.1 <? 0) && (0 <? Z.of_nat e.2)); auto.
Qed.

Lemma wp_serve_all n a l w :
  wp (serve MAX HDR VER malloc genl_name startup startup_type shutdown_type shutdown_sz map_bad_user strdup fopen n a l)
    (λ r w', (r = 0 ∨ r = 1) ∧ rest_of w' = rest_of w) w.
Proof.
  pose proof (wp_serve_smb n a l w) as H. unfold serve, served, wp in *. destruct (serve_smb _ _ _ _ _ _ _ _ _ _ _ _ _ _ _ _) as [[r s]|]; [|done]. by destruct H as (? & _ & ?).
Qed.

Lemma serve_safely n a :
  DiskSet.serves_safely (λ _, True) (serve MAX HDR VER malloc genl_name startup startup_type shutdown_type shutdown_sz map_bad_user strdup fopen n a).
Proof.
  intros l ds w _ HS _ _. eapply wp_mono; [apply wp_serve_all|]. intros r w' [_ E%DiskSet.elsewhere_rest].
  split; [by eapply DiskSet.set_elsewhere|apply E].
Qed.
End Keeps.

(** ** Properties *)

(** The command line says what the server does: for every configuration in
    the limits (up to 16 images and 32 shares, a read size of at least 4096),
    the command line that spells it out, with the images before, between or
    after the options, is parsed back to that configuration, all numbers
    included. *)
Theorem ksmbd_args_roundtrip getenv (a : args) images (l : list arg) :
  args_ok a → share_specs a ≠ [] → legacy_part a = -1 → g_enc a = -1 → 0 <= host_port a < 2 ^ 31 → 1 <= len images <= 16 →
  Forall (arg_ok short_opts long_opts) l → omap option_of l = options_of a → omap word_of l = images →
  parse_args getenv (mjoin (render <$> l)) = inr (a, images, share_specs a).
Proof.
  intros Ha Hne Hl Hg Hp Hi Hok Ho Hw. unfold parse_args. rewrite getopt_reads, Ho, Hw by done. rewrite handle_options by done.
  unfold finish_args. change DiskSet.ANYFS_MAX_DISKS with 16. destruct (Z.ltb_spec 16 (len images)), (Z.eqb_spec (len images) 0); try lia.
  rewrite Hl. cbn [Z.leb Z.compare andb]. destruct (Z.eqb_spec (len (share_specs a)) 0) as [E|E]; [|done].
  destruct (share_specs a); [done|]. cbn in E. lia.
Qed.

Definition sample_args : args := mk_args [bs "data=disk0/p1"; bs "disk1/p1"] (Some (bs "my.conf")) true 4450 (-1) 0 (mk_limits 65536 0 7) false (-1).
Definition sample_cmd : list arg :=
  [ALong (mk_opt (bs "share") true 1000) (bs "data=disk0/p1"); AWord (bs "a.img"); ALong (mk_opt (bs "share") true 1000) (bs "disk1/p1");
   ALong (mk_opt (bs "max-read") true 1002) (bs "65536"); ALong (mk_opt (bs "max-credits") true 1004) (bs "7"); ASwitch 100;
   AShort 80 (bs "4450"); AWord (bs "b.img"); AShort 99 (bs "my.conf")].

Lemma ksmbd_args_roundtrip_witness :
  parse_args (λ _, None) (mjoin (render <$> sample_cmd)) = inr (sample_args, [bs "a.img"; bs "b.img"], [bs "data=disk0/p1"; bs "disk1/p1"]) ∧
  mjoin (render <$> sample_cmd) = [bs "--share"; bs "data=disk0/p1"; bs "a.img"; bs "--share"; bs "disk1/p1"; bs "--max-read"; bs "65536";
    bs "--max-credits"; bs "7"; bs "-d"; bs "-P"; bs "4450"; bs "b.img"; bs "-c"; bs "my.conf"].
Proof.
  split; [|vm_compute; reflexivity].
  refine (ksmbd_args_roundtrip (λ _, None) sample_args [bs "a.img"; bs "b.img"] sample_cmd _ _ eq_refl eq_refl _ _ _ eq_refl eq_refl).
  - split; cbn; [split; [lia|repeat constructor; lia]|lia|right; lia|lia].
  - done.
  - cbn. lia.
  - cbn. lia.
  - unfold sample_cmd. repeat (apply Forall_cons_2; [cbn [arg_ok]; first [intros t; discriminate | split; [vm_compute; reflexivity|lia] |
      split; [split; [vm_compute; reflexivity|split; [done|apply (bool_decide_unpack _); vm_compute; exact I]]|reflexivity]]|]). apply Forall_nil_2.
Defined.

(** The SMB server leaves nothing behind: for every command line, whatever
    the images, the shares, the smb.conf of the host and the answers of the
    kernel, main returns; the shares it served are unmounted and exactly the
    disks that were attached before are attached.  Main itself keeps to its
    limits of 16 images and 32 shares.  No mount may be busy, and no share may
    name a disk with a number that wraps below 0. *)
Theorem ksmbd_leaves_nothing {W} `{!Lkl W, !LklLaws W, !LklWrite W, !LklWriteLaws W, !Host W, !HostLaws W, !Core W, !CoreLaws W,
    !Netlink W, !NetlinkLaws W, !Proxy W, !ProxyKeeps W, !SmbTools (ipc * W), !SmbKeeps W}
    MAX HDR VER malloc genl_name startup startup_type shutdown_type shutdown_sz bad strdup fopen calloc dup creds getenv boot halt n argv (w : W) :
  256 <= MAX < 2 ^ 29 → 0 <= HDR < 2 ^ 30 → 0 <= VER < 256 → len genl_name <= 256 → len startup < 2 ^ 30 → 0 <= shutdown_sz < 2 ^ 30 →
  sysfs_sane (W := W) → tame_disks (W := W) → umount_works (W := W) → (∀ mem level w, wp (boot mem level) (λ _ w', DiskSet.elsewhere w w') w) → DiskSet.quiet_halt halt →
  Forall CStr argv →
  (∀ a images specs, parse_args getenv argv = inr (a, images, specs) →
     Forall (DiskSet.spec_ok (λ _, True) dup (len images)) specs) →
  wp (main MAX HDR VER malloc genl_name startup startup_type shutdown_type shutdown_sz bad strdup fopen calloc dup creds getenv boot halt n argv)
    (λ r w', v_dsk (view w') = v_dsk (view w) ∧ Forall (λ e, mnts w' !! e.2 = None) r.2) w.
Proof.
  intros Hm Hh Hv Hn Hs Hd Hsane Htame Hum Hboot Hhalt Hargv Hpos. unfold main.
  destruct (parse_args getenv argv) as [c|[[a images] specs]] eqn:E; [apply wp_ret; by split; [|constructor]|].
  destruct (smb_parse_args_ok _ _ _ _ _ Hargv E) as (_ & Hi & _ & Hc & _). apply wp_bind. eapply wp_mono; [apply Hboot|]. intros r w1 [E1 _].
  case_if; [apply wp_ret; by split; [|constructor]|]. apply wp_bind. apply (wp_mono _ (λ _ w2, v_dsk (view w2) = v_dsk (view w))).
  { case_if; [|by apply wp_ret]. eapply wp_mono; [apply wp_debug_on|]. intros [] w2 Ed. cbv beta in Ed. congruence. }
  intros [] w2 Ed. cbv beta in Ed. eapply wp_mono.
  - apply (DiskSet.wp_run_server (λ _, True)); [done..|by apply serve_safely|unfold DiskSet.ANYFS_MAX_DISKS; lia|done|apply fat_flag_no_replace|by eapply Hpos].
  - intros e w3 [H1 H2]. by rewrite H1, Ed.
Qed.

(** The kernel with two disks, a netlink socket that answers, and a ksmbd-tools
    that registers nothing. *)
#[local] Instance rig_write : LklWrite rig := {| sys_write fd d := Toy.quiet (len d) |}.
#[local] Instance rig_write_laws : LklWriteLaws rig.
Proof. done. Qed.
#[local] Instance rig_netlink : Netlink rig := toy_netlink.
#[local] Instance rig_netlink_laws : NetlinkLaws rig.
Proof. destruct toy_netlink_laws. split; assumption. Qed.
#[local] Instance rig_proxy : Proxy rig := {| host_proxy_start _ _ := mret 0; host_proxy_stop := mret () |}.
#[local] Instance rig_proxy_keeps : ProxyKeeps rig.
Proof. by split; intros; apply wp_ret. Qed.
Definition still {W A} (a : A) : kcall W A := λ s, (a, s).
Definition idle_tools (W : Type) : SmbTools W := {|
  usm_init := still (); usm_remove_all_users := still (); usm_destroy := still (); shm_init := still (); shm_remove_all_shares := still ();
  shm_destroy := still (); cp_smbconf_parser_init := still (); cp_smbconf_parser_destroy := still (); usm_add_guest_account _ := still 0;
  cp_parse_external_smbconf_group _ _ := still (); parser_groups _ := []; shm_add_new_share _ := still 0; shm_lookup_share _ := still None;
  set_force_uid _ _ := still (); set_force_gid _ _ := still (); put_ksmbd_share _ := still (); sm_init := still (); sm_destroy := still ();
  rpc_init := still (); spnego_init := still (); spnego_destroy := still (); wp_init := still (); wp_destroy := still () |}.
Lemma idle_keeps {W} `{!Lkl W, !LklLaws W} : SmbKeeps W (SmbTools0 := idle_tools (ipc * W)).
Proof.
  split. intros A f s Hf. destruct Hf; try done. rewrite !elem_of_cons in H.
  repeat (destruct H as [->|H]; [done|]). by apply not_elem_of_nil in H.
Qed.
#[local] Instance rig_tools : SmbTools (ipc * rig) := idle_tools (ipc * rig).
#[local] Instance rig_keeps : SmbKeeps rig := idle_keeps.

Definition smb_argv : list bytes :=
  [bs "a.img"; bs "--share"; bs "data=disk0/p1"; bs "b.img?x"; bs "-dP4450"; bs "--share=disk1/p1"; bs "--max-r"; bs "65536"].

Lemma smb_argv_ok a images specs : parse_args (λ _, None) smb_argv = inr (a, images, specs) →
  Forall (DiskSet.spec_ok (λ _, True) true (len images)) specs.
Proof.
  intros H. assert (E : match parse_args (λ _, None) smb_argv with inr (_, i, l) => Some (len i, l) | inl _ => None end =
    Some (2, [bs "data=disk0/p1"; bs "disk1/p1"])) by (vm_compute; reflexivity).
  rewrite H in E. apply Some_inj, pair_equal_spec in E as [-> ->].
  repeat constructor; revert H0; vm_compute; by intros [= _ <- _].
Qed.

Lemma ksmbd_leaves_nothing_witness :
  wp (main 4096 8 1 (λ _, true) [83; 77; 66] [1; 2; 3; 4] 1 2 4 3 (λ _, true) (λ _, None) true true no_creds (λ _, None) (λ _ _, mret 0) (mret ()) 2 smb_argv)
    (λ r w', v_dsk (view w') = v_dsk (view rig0) ∧ Forall (λ e, mnts w' !! e.2 = None) r.2) rig0 ∧
  fst <$> main 4096 8 1 (λ _, true) [83; 77; 66] [1; 2; 3; 4] 1 2 4 3 (λ _, true) (λ _, None) true true no_creds (λ _, None) (λ _ _, mret 0) (mret ()) 2 smb_argv rig0 =
    Some (0, [(bs "data", bs "/lklmnt/anyfs_d0_p1"); (bs "disk1_p1", bs "/lklmnt/anyfs_d1_p1")]).
Proof.
  split; [|vm_compute; reflexivity].
  apply (ksmbd_leaves_nothing 4096 8 1 (λ _, true) [83; 77; 66] [1; 2; 3; 4] 1 2 4 3 (λ _, true) (λ _, None) true true no_creds (λ _, None)
    (λ _ _, mret 0) (mret ()) 2 smb_argv rig0); try (cbn; lia); try done; try apply rig_sane; try apply rig_tame; try apply rig_umounts.
  - repeat constructor; lia.
  - exact smb_argv_ok.
Defined.
(** ** Where the code departs from its intention *)

(** -p 0 passes the checks, and then the share it stands for is not a path. *)
Lemma legacy_zero_refused :
  (λ r, match r with inr (_, i, l) => Some (i, l) | inl _ => None end) (parse_args (λ _, None) [bs "a.img"; bs "-p"; bs "0"]) = Some ([bs "a.img"], [bs "p0"]) ∧
  Share.share_parse true (bs "p0") 1 = Some None.
Proof. split; vm_compute; reflexivity. Qed.

(** -p is dropped without a word after 32 shares. *)
Lemma legacy_dropped : finish_args [bs "a.img"] (replicate 32 (bs "disk0/p1")) 2 = inr ([bs "a.img"], replicate 32 (bs "disk0/p1")).
Proof. vm_compute. reflexivity. Qed.
End KsmbdMain.
