(* ===== verification/NfsdMain.v ===== *)
(** * NfsdMain

    main of src/nfsd/nfsd_main.c beside the answers and the bind mounts of
    Mountd: the options, the kernel's NFS server, the thread of the mini
    mountd, and the order in which main and that thread run. *)
From S2P Require Import Prelude CLib Legacy Lkl Path Probe Sysfs Mount Session SessionSpec SessionFrame SessionOpen Raw Backend Share DiskSet Mountd Server HostProxy KsmbdMain Threads.
Import CLib Probe Mount Session SessionSpec SessionFrame SessionOpen DiskSet Mountd Server.

Module NfsdMain.

Definition NFS_PORT : Z := 2049.
Definition HOST_FWD_PORT : Z := 20049.

(** ** Options *)
Definition short_opts : list (Z * bool) := [(104, false); (112, true); (80, true); (119, false)].
Definition long_opts : list long_option :=
  [mk_opt (bs "share") true 1000; mk_opt (bs "legacy-encoding") true 1001; mk_opt (bs "help") false 104].

Record args := mk_args { share_specs : list bytes; host_port : Z; read_only : bool; legacy_part : Z; g_enc : Z }.
Definition args0 : args := mk_args [] HOST_FWD_PORT true (-1) (-1).

Section Options.
Context (getenv : bytes → option bytes).
Definition handle_opt (a : args) (o : Z * bytes) : Z + args :=
  let '(mk_args sp hp ro lp enc) := a in
  let '(opt, optarg) := o in
  if opt =? 1000 then if DiskSet.ANYFS_MAX_SHARES <=? len sp then inl 1 else inr (mk_args (sp ++ [optarg]) hp ro lp enc)
  else if opt =? 1001 then
    let e := Legacy.anyfs_legacy_parse getenv (Some optarg) in
    if e <? 0 then inl 1 else inr (mk_args sp hp ro lp (Legacy.anyfs_legacy_set e))
  else if opt =? 104 then inl 0
  else if opt =? 112 then inr (mk_args sp hp ro (atoi optarg) enc)
  else if opt =? 80 then inr (mk_args sp (atoi optarg) ro lp enc)
  else if opt =? 119 then inr (mk_args sp hp false lp enc)
  else inl 1.
Fixpoint handle_opts (a : args) (l : list (Z * bytes)) : Z + args :=
  match l with
  | [] => inr a
  | o :: l' => match handle_opt a o with inl c => inl c | inr a' => handle_opts a' l' end
  end.
Definition parse_args (argv : list bytes) : Z + (args * list bytes * list bytes) :=
  let '(opts, words) := getopt_long short_opts long_opts argv in
  match handle_opts args0 opts with
  | inl c => inl c
  | inr a => match finish_args words (share_specs a) (legacy_part a) with inl c => inl c | inr (images, specs) => inr (a, images, specs) end
  end.
End Options.

(** ** The kernel's server and the mini mountd *)

(** poll: its result, and for every descriptor whether it can be read. *)
Class LklPoll (W : Type) := { sys_poll : list Z → Z → kcall W (Z * list bool); sys_time : kcall W Z }.
Class LklPollLaws (W : Type) `{!Lkl W, !LklLaws W, !LklPoll W} := {
  law_poll fds t w : view (sys_poll fds t w).2 = view w;
  law_time w : view (sys_time w).2 = view w }.

Section Code.
Context {W : Type} `{!Lkl W, !LklWrite W, !LklPoll W, !Host W, !Core W, !Proxy W}.

Definition start_nfsd : M W Z :=
  ret ← lkl_sys_mkdir (bs "/proc/fs/nfsd") 0x1ed;
  if (ret <? 0) && negb (ret =? - LKL_EEXIST) then mret ret
  else
    ret ← lkl_sys_mount (bs "nfsd") (bs "/proc/fs/nfsd") (bs "nfsd") 0 None;
    if ret <? 0 then mret ret
    else
      _ ← lkl_write_file (bs "/proc/fs/nfsd/versions") (bs "-3 +4 +4.0 -4.1 -4.2" ++ nl);
      _ ← lkl_write_file (bs "/proc/fs/nfsd/max_block_size") (bs "1048576" ++ nl);
      ret ← lkl_write_file (bs "/proc/fs/nfsd/threads") (bs "8" ++ nl);
      if ret <? 0 then mret ret
      else _ ← lkl_write_file (bs "/proc/fs/nfsd/v4_end_grace") (bs "Y" ++ nl); mret 0.

(** cache_handler_thread: the channels it opens ... *)
Definition channel_paths : list bytes := (channels 0 [] true).*1.
Fixpoint open_channels (paths : list bytes) : M W (list Z) :=
  match paths with
  | [] => mret []
  | p :: rest =>
      fd ← lkl_sys_open p LKL_O_RDWR;
      fds ← open_channels rest;
      mret ((if fd <? 0 then -1 else fd) :: fds)
  end.

(** ... what it does with one that is ready ... *)
Definition answer (l : list ExportInfo) (ro : bool) (ch : nat) (fd : Z) : M W () :=
  r ← lkl_sys_read fd 4095;
  if r.1 <=? 0 then mret ()
  else
    now ← call sys_time;
    out ← mopt (serve_channel now l ro ch r.2);
    mfor out (λ a, _ ← call (sys_write fd a); mret ()).

(** ... a turn of its loop: the channels that are open, in order ... *)
Definition polled (fds : list Z) : list (nat * Z) := filter (λ x, 0 <= x.2) (imap pair fds).
Definition turn (l : list ExportInfo) (ro : bool) (fds : list Z) : M W () :=
  let pfds := polled fds in
  match pfds with
  | [] => mret ()
  | _ =>
      r ← call (sys_poll pfds.*2 200);
      if r.1 <=? 0 then mret ()
      else mfor (zip pfds r.2) (λ x, if x.2 : bool then answer l ro x.1.1 x.1.2 else mret ())
  end.
Fixpoint turns (n : nat) (l : list ExportInfo) (ro : bool) (fds : list Z) : M W () :=
  match n with O => mret () | S n' => _ ← turn l ro fds; turns n' l ro fds end.
Definition close_channels (fds : list Z) : M W () :=
  mfor fds (λ fd, if 0 <=? fd then _ ← lkl_sys_close fd; mret () else mret ()).

(** ... and all of it, for [n] reads of anyfs_server_running that are true. *)
Definition cache_handler_thread (n : nat) (l : list ExportInfo) (ro : bool) : M W () :=
  fds ← open_channels channel_paths;
  _ ← turns n l ro fds;
  close_channels fds.

(** The part of main between the shares and halt, with the thread run in
    between: the channels before the proxy starts, its turns while main
    waits, the rest when it is joined.  [created] is whether pthread_create
    succeeds. *)
Definition serve (created : bool) (n : nat) (a : args) (shares : list (bytes * bytes)) : M W Z :=
  l ← bind_exports (exports_of shares);
  match l with
  | None => mret 1
  | Some l =>
      ret ← start_nfsd;
      if ret <? 0 then mret 1
      else if negb created then mret 1
      else
        fds ← open_channels channel_paths;
        ret ← host_proxy_start (host_port a mod 65536) NFS_PORT;
        if ret <? 0 then mret 1
        else
          _ ← turns n l (read_only a) fds;
          _ ← host_proxy_stop;
          _ ← close_channels fds;
          mret 0
  end.

Definition main (calloc dup : bool) (creds : Creds) (getenv : bytes → option bytes) (boot : M W Z) (halt : M W ()) (created : bool) (n : nat)
    (argv : list bytes) : M W (Z * list (bytes * bytes)) :=
  match parse_args getenv argv with
  | inl c => mret (c, [])
  | inr (a, images, specs) =>
      r ← boot;
      if negb (r =? 0) then mret (1, [])
      else
        let ro := if read_only a then Raw.ANYFS_SESSION_READONLY else 0 in
        DiskSet.run_server calloc halt creds dup images specs ro
          (Z.lor ro (Legacy.anyfs_legacy_fat_flag (Legacy.anyfs_legacy_get getenv (g_enc a)).1)) (serve created n a)
  end.
End Code.

(** ** The thread closes what it opened *)
Section Thread.
Context {W : Type} `{!Lkl W, !LklLaws W, !LklWrite W, !LklWriteLaws W, !LklPoll W, !LklPollLaws W}.

(** Descriptors after closing those of [fds]. *)
Definition closes (fds : list Z) (m : gmap Z bytes) : gmap Z bytes := foldl (λ m fd, if 0 <=? fd then delete fd m else m) m fds.
Lemma closes_cons fd fds m : closes (fd :: fds) m = closes fds (if 0 <=? fd then delete fd m else m).
Proof. done. Qed.
Lemma closes_delete fds r m : closes fds (delete r m) = delete r (closes fds m).
Proof.
  revert m. induction fds as [|fd fds IH]; intros m; [done|]. rewrite !closes_cons. destruct (0 <=? fd); [|apply IH].
  rewrite delete_delete. apply IH.
Qed.

Lemma wp_open_channels paths w :
  wp (open_channels paths) (λ fds w', length fds = length paths ∧ rest_of w' = rest_of w ∧ closes fds (v_fds (view w')) = v_fds (view w)) w.
Proof.
  revert w. induction paths as [|p paths IH]; intros w; cbn [open_channels]; [by apply wp_ret|].
  apply wp_bind, wp_open; intros r w1; intros Hr; [intros E1|intros Hn E1]; apply wp_bind; (eapply wp_mono; [apply IH|]);
    intros fds w2 (Hl & Hrest & Hc); apply wp_ret; unfold rest_of in *; rewrite E1 in *; cbn [length].
  - destruct (Z.ltb_spec r 0); [|lia]. split_and!; [by rewrite Hl|done|done].
  - destruct (Z.ltb_spec r 0); [lia|]. split_and!; [by rewrite Hl|done|]. rewrite closes_cons. destruct (Z.leb_spec 0 r); [|lia].
    rewrite closes_delete, Hc. cbn [v_fds]. by apply delete_insert_id.
Qed.

Lemma wp_close_channels fds w :
  wp (close_channels fds) (λ _ w', rest_of w' = rest_of w ∧ v_fds (view w') = closes fds (v_fds (view w))) w.
Proof.
  unfold close_channels. revert w. induction fds as [|fd fds IH]; intros w; cbn [mfor]; [by apply wp_ret|]. apply wp_bind.
  rewrite closes_cons. destruct (0 <=? fd).
  - apply wp_bind, wp_close. intros _ w1 E1. apply wp_ret. eapply wp_mono; [apply IH|]. intros _ w2 [H1 H2]. unfold rest_of in *. rewrite E1 in *. done.
  - apply wp_ret, IH.
Qed.

(** The kernel asks about no file handle with an fsid of 2^31 or more. *)
Definition fh_sane (l : list ExportInfo) : Prop := ∀ fd (w : W) now ro, serve_channel now l ro 2 (sys_read fd 4095 w).1.2 ≠ None.

Lemma serve_some now l ro ch d : len l <= 32 → (ch < 6)%nat → (ch = 2%nat → serve_channel now l ro 2 d ≠ None) → ∃ out, serve_channel now l ro ch d = Some out.
Proof.
  intros Hl Hch H2. assert (serve_channel now l ro ch d ≠ None) as H; [|by destruct (serve_channel now l ro ch d); [eexists|]].
  assert (Hf : (length (c_str d) < S (length d))%nat) by (pose proof (c_str_le d); lia).
  destruct (decide (ch = 2%nat)) as [->|Hne]; [by apply H2|]. unfold serve_channel. destruct (channels now l ro !! ch) as [c|] eqn:E.
  - cbn [mbind option_bind]. destruct (serve_lines_spec (λ _ _, True) c.2 (S (length d)) (c_str d)) as (out & -> & _); [|done|done].
    intros q. by eapply others_total.
  - apply lookup_ge_None in E. cbn in E. lia.
Qed.

Lemma wp_answer l ro ch fd w : len l <= 32 → fh_sane l → (ch < 6)%nat → wp (answer l ro ch fd) (λ _ w', view w' = view w) w.
Proof.
  intros Hl Hs Hch. unfold answer. apply wp_bind. unfold lkl_sys_read. apply wp_call. pose proof (Hs fd w) as H2.
  destruct (sys_read fd 4095 w) as [[r d] w1] eqn:E. apply law_read in E as (E & _). cbn [fst snd] in *. case_if; [by apply wp_ret|].
  apply wp_bind, wp_call. pose proof (law_time w1) as Et. set (now := (sys_time w1).1). set (w2 := (sys_time w1).2) in *.
  destruct (serve_some now l ro ch d Hl Hch) as [out Eo]; [intros ->; apply H2|]. apply wp_bind. eapply wp_opt; [exact Eo|].
  apply (wp_for (λ w', view w' = view w)); [congruence|]. intros a w3 _ E3. apply wp_bind, wp_call, wp_ret. by rewrite law_write.
Qed.

Lemma polled_lt fds x : x ∈ polled fds → (x.1 < length fds)%nat.
Proof. unfold polled. rewrite list_elem_of_filter. intros [_ (i & y & -> & Hy)%elem_of_lookup_imap_1]. by apply lookup_lt_Some in Hy. Qed.

Lemma wp_turn l ro fds w : len l <= 32 → fh_sane l → length fds = 6%nat → wp (turn l ro fds) (λ _ w', view w' = view w) w.
Proof.
  intros Hl Hs Hf. unfold turn. destruct (polled fds) as [|x pfds] eqn:E; [by apply wp_ret|]. apply wp_bind, wp_call.
  pose proof (law_poll (x :: pfds).*2 200 w) as Ep. case_if; [by apply wp_ret|]. apply (wp_for (λ w', view w' = view w)); [done|].
  intros [y b] w1 Hin E1. cbn [fst snd]. destruct b; [|by apply wp_ret]. eapply wp_mono; [apply wp_answer; [done..|]|].
  - rewrite <- Hf. apply polled_lt. rewrite E. by apply elem_of_zip_l in Hin.
  - intros [] w2 E2. cbv beta in E2. congruence.
Qed.
Lemma wp_turns n l ro fds w : len l <= 32 → fh_sane l → length fds = 6%nat → wp (turns n l ro fds) (λ _ w', view w' = view w) w.
Proof.
  intros Hl Hs Hf. revert w. induction n as [|n IH]; intros w; cbn [turns]; [by apply wp_ret|]. apply wp_bind.
  eapply wp_mono; [by apply wp_turn|]. intros [] w1 E1. eapply wp_mono; [apply IH|]. intros [] w2 E2. cbv beta in *. congruence.
Qed.

Lemma wp_thread n l ro w : len l <= 32 → fh_sane l → wp (cache_handler_thread n l ro) (λ _ w', view w' = view w) w.
Proof.
  intros Hl Hs. unfold cache_handler_thread. apply wp_bind. eapply wp_mono; [apply wp_open_channels|]. intros fds w1 (Hf & Hr & Hc).
  apply wp_bind. eapply wp_mono; [by apply wp_turns|]. intros [] w2 E2. cbv beta in E2. eapply wp_mono; [apply wp_close_channels|].
  intros [] w3 [Hr3 Hc3]. rewrite E2, Hc in Hc3. unfold rest_of in *. rewrite E2, Hr in Hr3. injection Hr3 as E4 E5 E6.
  destruct (view w3), (view w). cbn in *. congruence.
Qed.
End Thread.

(** ** The server leaves the sessions alone *)
Section Safe.
Context {W : Type} `{!Lkl W, !LklLaws W, !LklWrite W, !LklWriteLaws W, !LklPoll W, !LklPollLaws W, !Host W, !HostLaws W, !Core W, !CoreLaws W, !Proxy W, !ProxyKeeps W}.

(** A name without a slash is not a directory of /lklmnt. *)
Lemma bind_path_else name : 47 ∉ name → starts_with (bs "/lklmnt/") (47 :: name) = false.
Proof.
  intros Hn. apply not_true_iff_false. intros [r E]%starts_with_spec. change (bs "/lklmnt/" ++ r) with (47 :: bs "lklmnt" ++ 47 :: r) in E.
  injection E as ->. apply Hn. set_solver.
Qed.

Lemma wp_bind_else l w : Forall (λ e, len (ex_name e) < 64 ∧ 47 ∉ ex_name e) l →
  wp (bind_exports l) (λ r w', elsewhere w w' ∧ match r with Some l' => length l' = length l | None => True end) w.
Proof.
  intros Hn. revert w. induction Hn as [|ex l [Hx Hs] _ IH]; intros w; cbn [bind_exports]; [by apply wp_ret|].
  destruct (existsb _ _); [by apply wp_ret|]. cbn zeta. rewrite (snprintf_fits 80) by (cbn [length]; lia). apply wp_bind, wp_mkdir. intros r w1 E1.
  apply elsewhere_view in E1. destruct (_ && _); [by apply wp_ret|]. apply wp_bind, wp_mount.
  { intros r2 w2 Hr E2%elsewhere_view. destruct (Z.ltb_spec r2 0); [apply wp_ret; split; [by etrans|done]|lia]. }
  intros w2 E2%elsewhere_mount; [|by apply bind_path_else]. cbn [Z.ltb Z.compare]. apply wp_bind. eapply wp_mono; [apply IH|].
  intros rest w3 [E3 H3]. apply wp_ret. split; [etrans; [exact E1|by etrans]|]. destruct rest; [|done]. cbn. by rewrite H3.
Qed.

Lemma wp_start_nfsd w : wp start_nfsd (λ _ w', elsewhere w w') w.
Proof.
  unfold start_nfsd. apply wp_bind, wp_mkdir. intros r w1 E1%elsewhere_view. destruct (_ && _); [by apply wp_ret|]. apply wp_bind, wp_mount.
  { intros r2 w2 Hr E2%elsewhere_view. destruct (Z.ltb_spec r2 0); [|lia]. apply wp_ret. by etrans. }
  intros w2 E2%elsewhere_mount; [|done]. cbn [Z.ltb Z.compare]. assert (E12 : elsewhere w w2) by by etrans.
  assert (Hw : ∀ path data s, elsewhere w s → wp (lkl_write_file path data) (λ _ s', elsewhere w s') s).
  { intros path data s Hs. eapply wp_mono; [apply wp_write_file|]. intros r' s' [_ E%elsewhere_view]. by etrans. }
  apply wp_bind. eapply wp_mono; [by apply Hw|]. intros ? w3 E3. apply wp_bind. eapply wp_mono; [by apply Hw|]. intros ? w4 E4.
  apply wp_bind. eapply wp_mono; [by apply Hw|]. intros r5 w5 E5. case_if; [by apply wp_ret|]. apply wp_bind. eapply wp_mono; [by apply Hw|].
  intros ? w6 E6. by apply wp_ret.
Qed.

Lemma wp_serve_nfs created n a shares w : Forall (λ e, len e.1 < 64 ∧ 47 ∉ e.1) shares → len shares <= 32 → (∀ l, fh_sane (W := W) l) →
  wp (serve created n a shares) (λ r w', (r = 0 ∨ r = 1) ∧ elsewhere w w') w.
Proof.
  intros Hs Hl Hfh. unfold serve. apply wp_bind. eapply wp_mono.
  { apply wp_bind_else. unfold exports_of. apply Forall_fmap. exact Hs. }
  intros [l|] w1 [E1 El]; [|apply wp_ret; auto]. apply wp_bind. eapply wp_mono; [apply wp_start_nfsd|]. intros ret w2 E2. assert (E12 : elsewhere w w2) by by etrans.
  assert (Hlen : len l <= 32) by (unfold exports_of in El; rewrite length_fmap in El; lia).
  case_if; [apply wp_ret; auto|]. case_if; [apply wp_ret; auto|]. apply wp_bind. eapply wp_mono; [apply wp_open_channels|].
  intros fds w3 (Hf & Hr%elsewhere_rest & _). apply wp_bind. eapply wp_mono; [apply keep_start|]. intros r4 w4 H4%elsewhere_rest.
  assert (E4 : elsewhere w w4) by (etrans; [exact E12|]; by etrans).
  case_if; [apply wp_ret; auto|]. apply wp_bind. eapply wp_mono; [by apply wp_turns|]. intros [] w5 E5%elsewhere_view.
  apply wp_bind. eapply wp_mono; [apply keep_stop|]. intros [] w6 E6%elsewhere_rest. apply wp_bind.
  eapply wp_mono; [apply wp_close_channels|]. intros [] w7 [E7%elsewhere_rest _]. apply wp_ret.
  split; [by left|]. etrans; [exact E4|]. etrans; [exact E5|]. by etrans.
Qed.

Lemma serve_safely_nfs created n a : (∀ l, fh_sane (W := W) l) → DiskSet.serves_safely (λ name, 47 ∉ name) (serve created n a).
Proof.
  intros Hfh shares ds w _ HS He Hl. eapply wp_mono; [apply wp_serve_nfs; [|done|done]|].
  - eapply Forall_impl; [exact He|]. naive_solver.
  - intros r w' [_ E]. split; [by eapply set_elsewhere|apply E].
Qed.
End Safe.

(** What the options leave is in range. *)
Record args_ok (a : args) : Prop := {
  ao_specs : len (share_specs a) <= 32 ∧ Forall CStr (share_specs a);
  ao_legacy : - 2 ^ 31 <= legacy_part a < 2 ^ 31 }.
Lemma handle_opt_ok getenv a o a' : args_ok a → CStr o.2 → handle_opt getenv a o = inr a' → args_ok a'.
Proof.
  intros [Hs Hl] Ho H. destruct a as [sp hp ro lp enc], o as [opt optarg]. unfold handle_opt in H. cbn [snd] in Ho.
  pose proof (KsmbdMain.atoi_range optarg) as Hn. cbn [share_specs legacy_part] in *.
  repeat match type of H with (if ?b then _ else _) = _ => let E := fresh "E" in destruct b eqn:E; try done end;
    injection H as <-; split; cbn [share_specs legacy_part]; zify_bools; try done; change DiskSet.ANYFS_MAX_SHARES with 32 in *; try lia.
  rewrite length_app. cbn [length]. split; [lia|]. apply Forall_app. split; [apply Hs|by constructor].
Qed.
Lemma handle_opts_ok getenv l a a' : args_ok a → Forall (λ o, CStr o.2) l → handle_opts getenv a l = inr a' → args_ok a'.
Proof.
  intros Ha Hl. revert a Ha. induction Hl as [|o l Ho Hl IH]; intros a Ha H; cbn [handle_opts] in H; [by injection H as <-|].
  destruct (handle_opt getenv a o) as [c|a1] eqn:E; [done|]. eapply IH; [|exact H]. by eapply handle_opt_ok.
Qed.
Lemma parse_args_ok getenv argv a images specs : Forall CStr argv → parse_args getenv argv = inr (a, images, specs) →
  args_ok a ∧ 1 <= len images <= 16 ∧ 1 <= len specs <= 32 ∧ Forall CStr specs.
Proof.
  intros Hc. unfold parse_args. destruct (getopt_CStr short_opts long_opts argv Hc) as [Ho Hw]. destruct (getopt_long _ _ _) as [opts words].
  cbn [fst snd] in *. destruct (handle_opts getenv args0 opts) as [c|a'] eqn:E; [done|]. apply handle_opts_ok in E; [|split; cbn; [split; [lia|constructor]|lia]|done].
  destruct (finish_args words (share_specs a') (legacy_part a')) as [c|[im sp]] eqn:Ef; [done|]. intros [= <- <- <-].
  destruct (ao_specs _ E) as [H1 H2]. apply finish_ok in Ef as (-> & Hi & Hs & Hsc); [|done|apply E|done]. split_and!; (done || lia).
Qed.

Lemma enter_flags_no_replace (ro : bool) enc :
  flag (Z.lor (if ro then Raw.ANYFS_SESSION_READONLY else 0) (Legacy.anyfs_legacy_fat_flag enc)) ANYFS_MOUNT_REPLACE = false.
Proof.
  pose proof (KsmbdMain.fat_flag_no_replace enc) as H. unfold flag in *. rewrite Z.land_comm, Z.land_lor_distr_r, Z.land_comm, (Z.land_comm _ (Legacy.anyfs_legacy_fat_flag enc)).
  zify_bools. rewrite H. by destruct ro.
Qed.

(** ** A kernel that asks about an export

    The kernel with two disks; what a file holds depends on its path. *)
Definition nrig : Type := Toy.toy.
#[global] Typeclasses Opaque nrig.
Definition text_at (p : bytes) : bytes :=
  if bool_decide (p = bs "/proc/filesystems") then [9] ++ bs "ext4" ++ [10]
  else if bool_decide (p = bs "/proc/net/rpc/nfsd.export/channel") then bs "unix /data" ++ nl
  else [].
#[local] Instance nrig_lkl : Lkl nrig := {|
  sys_open := sys_open (W := rig); sys_close := sys_close (W := rig);
  sys_read fd n w := (Toy.slice (default [] (text_at <$> v_fds (Toy.t_view w) !! fd)) n 0, w);
  sys_pread64 := sys_pread64 (W := rig); sys_readlink := sys_readlink (W := rig); sys_access := sys_access (W := rig);
  sys_mkdir := sys_mkdir (W := rig); sys_rmdir := sys_rmdir (W := rig); sys_unlink := sys_unlink (W := rig);
  sys_mknod := sys_mknod (W := rig); sys_blkroset := sys_blkroset (W := rig); sys_blkrrpart := sys_blkrrpart (W := rig);
  sys_dm_ioctl := sys_dm_ioctl (W := rig); sys_mount := sys_mount (W := rig); sys_umount := sys_umount (W := rig);
  sys_sync := sys_sync (W := rig); sys_nanosleep := sys_nanosleep (W := rig); sys_opendir := sys_opendir (W := rig); sys_closedir := sys_closedir (W := rig);
  get_virtio_blkdev := get_virtio_blkdev (W := rig) |}.
#[local] Instance nrig_laws : LklLaws nrig.
Proof.
  refine {| view := view (W := rig) |}; try done.
  - exact (law_open (W := rig)).
  - intros fd n w r d w' E. apply pair_equal_spec in E as [E <-]. split; [done|]. exact (Toy.slice_law _ _ _ _ _ E).
  - exact (law_pread (W := rig)).
  - exact (law_readlink (W := rig)).
  - exact (law_opendir (W := rig)).
  - exact (law_virtio (W := rig)).
  - exact (law_dm_ioctl (W := rig)).
  - exact (law_blkroset (W := rig)).
  - exact (law_mount (W := rig)).
  - exact (law_umount (W := rig)).
Defined.
#[local] Instance nrig_host : Host nrig := Toy.toy_host.
#[local] Instance nrig_host_laws : HostLaws nrig.
Proof.
  refine {| hview := hview (W := rig) |}; try done.
  - exact (hlaw_open (W := rig)).
  - exact (hlaw_tmpfile (W := rig)).
  - exact (hlaw_mkstemp (W := rig)).
  - exact (hlaw_write (W := rig)).
  - exact (hlaw_new (W := rig)).
Defined.
#[local] Instance nrig_core : Core nrig := rig_core.
#[local] Instance nrig_core_laws : CoreLaws nrig.
Proof. split; [exact (@law_disk_add rig _ _ rig_core rig_core_laws)|done..]. Defined.
#[local] Instance nrig_write : LklWrite nrig := {| sys_write fd d := Toy.quiet (len d) |}.
#[local] Instance nrig_write_laws : LklWriteLaws nrig.
Proof. done. Qed.
#[local] Instance nrig_poll : LklPoll nrig := {| sys_poll fds t w := ((len fds, (λ _, true) <$> fds), w); sys_time := Toy.quiet 1000 |}.
#[local] Instance nrig_poll_laws : LklPollLaws nrig.
Proof. done. Qed.
#[local] Instance nrig_proxy : Proxy nrig := {| host_proxy_start _ _ := mret 0; host_proxy_stop := mret () |}.
#[local] Instance nrig_proxy_keeps : ProxyKeeps nrig.
Proof. by split; intros; apply wp_ret. Qed.

Definition nrig0 : nrig :=
  Toy.mk_toy 3 Toy.empty_view
    (list_to_map ((λ p, (p, [])) <$> [bs "/dev/0000fe01"; bs "/proc/filesystems"; bs "/proc/net/rpc/nfsd.export/channel"; bs "/proc/net/rpc/nfsd.fh/channel";
       bs "/proc/fs/nfsd/threads"])) ∅
    {[ bs "/dev/0000fe01" := bs "ext4"; bs "/lklmnt/anyfs_d0_p1" := []; bs "nfsd" := bs "nfsd" ]} 0xfe01 Toy.empty_hview ∅.

Lemma nrig_fh l : fh_sane (W := nrig) l.
Proof.
  intros fd w now ro. change (serve_channel now l ro 2 (Toy.slice (default [] (text_at <$> v_fds (Toy.t_view w) !! fd)) 4095 0).2 ≠ None).
  destruct (v_fds (Toy.t_view w) !! fd) as [p|]; [|discriminate]. cbn [fmap option_fmap option_map default]. unfold text_at.
  repeat case_bool_decide; vm_compute; discriminate.
Qed.

(** ** Properties *)

(** The thread of the mini mountd leaves nothing open: for any number of
    turns, whichever of the six channels could be opened and whatever is asked
    on them, it returns, every channel it opened is closed and nothing else of
    the kernel changed. *)
Theorem mountd_thread_clean {W} `{!Lkl W, !LklLaws W, !LklWrite W, !LklWriteLaws W, !LklPoll W, !LklPollLaws W} n l ro (w : W) :
  len l <= 32 → fh_sane (W := W) l → wp (cache_handler_thread n l ro) (λ _ w', view w' = view w) w.
Proof. apply wp_thread. Qed.

Lemma mountd_thread_clean_witness :
  wp (cache_handler_thread 2 one_export true) (λ _ w', view w' = view nrig0) nrig0.
Proof. apply (mountd_thread_clean 2 one_export true nrig0); [by vm_compute|apply nrig_fh]. Defined.

(** The NFS server leaves nothing behind: for every command line, whatever
    the images, the shares and the kernel's questions, main returns; the
    mount points it served are unmounted and exactly the disks that were
    attached before are attached, although main itself has mounted the
    shares a second time and the control filesystem: neither touches the
    mount points of the sessions.  No share name may have a slash, no mount
    may be busy, and no share may name a disk with a number that wraps below
    0. *)
Theorem nfsd_leaves_nothing {W} `{!Lkl W, !LklLaws W, !LklWrite W, !LklWriteLaws W, !LklPoll W, !LklPollLaws W, !Host W, !HostLaws W, !Core W, !CoreLaws W,
    !Proxy W, !ProxyKeeps W} calloc dup creds getenv boot halt created n argv (w : W) :
  sysfs_sane (W := W) → tame_disks (W := W) → umount_works (W := W) → (∀ l, fh_sane (W := W) l) →
  (∀ w : W, wp boot (λ _ w', elsewhere w w') w) → quiet_halt halt →
  Forall CStr argv →
  (∀ a images specs, parse_args getenv argv = inr (a, images, specs) → Forall (DiskSet.spec_ok (λ name, 47 ∉ name) dup (len images)) specs) →
  wp (main calloc dup creds getenv boot halt created n argv)
    (λ r w', v_dsk (view w') = v_dsk (view w) ∧ Forall (λ e, mnts w' !! e.2 = None) r.2) w.
Proof.
  intros Hsane Htame Hum Hfh Hboot Hhalt Hargv Hpos. unfold main.
  destruct (parse_args getenv argv) as [c|[[a images] specs]] eqn:E; [apply wp_ret; by split; [|constructor]|].
  destruct (parse_args_ok _ _ _ _ _ Hargv E) as (_ & Hi & _ & Hc). apply wp_bind. eapply wp_mono; [apply Hboot|]. intros r w1 [E1 _].
  case_if; [apply wp_ret; by split; [|constructor]|]. eapply wp_mono.
  - apply (DiskSet.wp_run_server (λ name, 47 ∉ name)); [done..|by apply serve_safely_nfs|unfold DiskSet.ANYFS_MAX_DISKS; lia|done|apply enter_flags_no_replace|by eapply Hpos].
  - intros e w3 [H3 H4]. by rewrite H3, E1.
Qed.

Definition nfs_argv : list bytes := [bs "a.img"; bs "--share"; bs "data=disk0/p1"; bs "-w"].

Lemma nfs_argv_ok a images specs : parse_args (λ _, None) nfs_argv = inr (a, images, specs) →
  Forall (DiskSet.spec_ok (λ name, 47 ∉ name) true (len images)) specs.
Proof.
  intros H. assert (E : match parse_args (λ _, None) nfs_argv with inr (_, i, l) => Some (len i, l) | inl _ => None end =
    Some (1, [bs "data=disk0/p1"])) by (vm_compute; reflexivity).
  rewrite H in E. apply Some_inj, pair_equal_spec in E as [-> ->]. apply Forall_singleton. intros name disk comps Hs.
  assert (E : match Share.share_parse true (bs "data=disk0/p1") 1 with Some (Some (n, d, _)) => Some (n, d) | _ => None end = Some (Some (bs "data"), 0))
    by (vm_compute; reflexivity).
  rewrite Hs in E. apply Some_inj, pair_equal_spec in E as [-> ->]. split; [lia|]. apply (bool_decide_unpack _). vm_compute. exact I.
Qed.

Lemma nfsd_leaves_nothing_witness :
  wp (main true true no_creds (λ _, None) (mret 0) (mret ()) true 2 nfs_argv)
    (λ r w', v_dsk (view w') = v_dsk (view nrig0) ∧ Forall (λ e, mnts w' !! e.2 = None) r.2) nrig0 ∧
  fst <$> main true true no_creds (λ _, None) (mret 0) (mret ()) true 2 nfs_argv nrig0 = Some (0, [(bs "data", bs "/lklmnt/anyfs_d0_p1")]).
Proof.
  split; [|vm_compute; reflexivity].
  apply (nfsd_leaves_nothing true true no_creds (λ _, None) (mret 0) (mret ()) true 2 nfs_argv nrig0); try done.
  - exact rig_sane.
  - exact rig_tame.
  - exact rig_umounts.
  - exact nrig_fh.
  - repeat constructor; lia.
  - exact nfs_argv_ok.
Defined.

(** ** Where the code departs from its intention *)

(** The shares stay mounted at /<name>, and the control filesystem at its
    place: main never unmounts them, so the filesystem is still in use when
    its disk is removed. *)
Lemma binds_stay :
  (λ r, (r.1.1, dom (v_mnt (Toy.t_view r.2)), v_dsk (Toy.t_view r.2))) <$> main true true no_creds (λ _, None) (mret 0) (mret ()) true 2 nfs_argv nrig0 =
    Some (0, {[bs "/data"; bs "/proc/fs/nfsd"]}, ∅).
Proof. vm_compute. reflexivity. Qed.

(** The reserved names are compared as a whole: a share called
    lklmnt/anyfs_d0_p2 is bound over the mount point of another session. *)
Lemma reserved_evaded :
  (λ r, dom (v_mnt (Toy.t_view r.2))) <$> bind_exports (exports_of [(bs "lklmnt/anyfs_d0_p2", bs "/lklmnt/anyfs_d0_p1")]) nrig0 =
    Some {[bs "/lklmnt/anyfs_d0_p2"]}.
Proof. vm_compute. reflexivity. Qed.
End NfsdMain.
