(* ===== verification/NfsdThreads.v ===== *)
(** * NfsdThreads

    main of src/nfsd/nfsd_main.c and cache_handler_thread as two threads: the
    channels, the flag channels_open under its lock, anyfs_server_running as
    the signal handler clears it, the host proxy and the shutdown.  A step is
    one call of the kernel or one critical section. *)
From S2P Require Import Prelude CLib NfsdMain Threads.

Module NfsdThreads.

Definition NUM_CHANNELS : nat := 6.

(** Where the threads are: [TOpen k] has tried [k] channels, [TClose k] has
    [k] left to close. *)
Inductive tpc := TOpen (k : nat) | TLoop | TClose (k : nat) | TDone.
Inductive mpc := MWait | MProxy | MServe | MStop | MJoin | MHalt (status : Z) | MEnd (status : Z).

Record system := mk_sys { tp : tpc; mp : mpc; server_running : bool; channels_open : bool; proxy_up : bool; halted : bool }.
(** pthread_create has succeeded. *)
Definition sys0 : system := mk_sys (TOpen 0) MWait true false false false.

Inductive step : system → system → Prop :=
  | st_open k m r p h : (k < NUM_CHANNELS)%nat → step (mk_sys (TOpen k) m r false p h) (mk_sys (TOpen (S k)) m r false p h)
  | st_flag m r c p h : step (mk_sys (TOpen NUM_CHANNELS) m r c p h) (mk_sys TLoop m r true p h)
  | st_turn m c p h : step (mk_sys TLoop m true c p h) (mk_sys TLoop m true c p h)
  | st_leave m c p h : step (mk_sys TLoop m false c p h) (mk_sys (TClose NUM_CHANNELS) m false c p h)
  | st_close k m r c p h : step (mk_sys (TClose (S k)) m r c p h) (mk_sys (TClose k) m r c p h)
  | st_exit m r c p h : step (mk_sys (TClose 0) m r c p h) (mk_sys TDone m r c p h)
  | st_wait t r p h : step (mk_sys t MWait r true p h) (mk_sys t MProxy r true p h)
  | st_proxy t r c p h : step (mk_sys t MProxy r c p h) (mk_sys t MServe r c true h)
  | st_proxy_fails t r c p h : step (mk_sys t MProxy r c p h) (mk_sys t (MHalt 1) r c p h)
  | st_stop t c p h : step (mk_sys t MServe false c p h) (mk_sys t MStop false c p h)
  | st_proxy_stop t r c p h : step (mk_sys t MStop r c p h) (mk_sys t MJoin r c false h)
  | st_join r c p h : step (mk_sys TDone MJoin r c p h) (mk_sys TDone (MHalt 0) r c p h)
  | st_halt t x r c p h : step (mk_sys t (MHalt x) r c p h) (mk_sys t (MEnd x) r c p true)
  | st_signal t m c p h : step (mk_sys t m true c p h) (mk_sys t m false c p h).

(** ** The invariant *)
Definition waiting (m : mpc) : bool := match m with MWait => true | _ => false end.
Definition tried (t : tpc) : nat := match t with TOpen k => k | _ => NUM_CHANNELS end.

Record Inv (s : system) : Prop := {
  in_tried : (tried (tp s) <= NUM_CHANNELS)%nat;
  in_flag : channels_open s = true ↔ match tp s with TOpen _ => False | _ => True end;
  in_main : waiting (mp s) = false → channels_open s = true;
  in_proxy : proxy_up s = true → waiting (mp s) = false;
  in_run : server_running s = true → match tp s with TClose _ | TDone => False | _ => True end;
  in_end : mp s = MHalt 0 ∨ mp s = MEnd 0 → tp s = TDone ∧ proxy_up s = false;
  in_join : mp s = MJoin → proxy_up s = false;
  in_close : match tp s with TClose k => (k <= NUM_CHANNELS)%nat | _ => True end;
  in_halt : halted s = true → ∃ x, mp s = MEnd x }.

Lemma Inv0 : Inv sys0.
Proof. split; cbn; (done || naive_solver lia). Qed.
Lemma nfsd_inv_step s s' : Inv s → step s s' → Inv s'.
Proof.
  intros [H1 H2 H3 H4 H5 H6 H7 H8 H9] Hs. destruct Hs; cbn in *; split; cbn; try done; try lia; naive_solver.
Qed.

(** ** Ending *)
Definition t_left (t : tpc) : nat := match t with TOpen k => 15 - k | TLoop => 8 | TClose k => 1 + k | TDone => 0 end.
Definition m_left (m : mpc) : nat := match m with MWait => 6 | MProxy => 5 | MServe => 4 | MStop => 3 | MJoin => 2 | MHalt _ => 1 | MEnd _ => 0 end.
Definition measure (s : system) : nat := t_left (tp s) + m_left (mp s).
Definition Stopped (s : system) : Prop := Inv s ∧ server_running s = false.
Definition ended (s : system) : Prop := ∃ x, mp s = MEnd x.

Lemma Stopped_step s s' : Stopped s → step s s' → Stopped s'.
Proof. intros [I Hr] Hs. split; [by eapply nfsd_inv_step|]. by destruct Hs; cbn in *. Qed.
Lemma nfsd_step_decreases s s' : Stopped s → step s s' → (measure s' < measure s)%nat.
Proof. intros [[] Hr] Hs. unfold NUM_CHANNELS in *. destruct Hs; cbn in *; try done; unfold measure, NUM_CHANNELS in *; cbn; lia. Qed.

Lemma thread_steps s : Stopped s → tp s ≠ TDone → ∃ s', step s s'.
Proof.
  intros [[] Hr] Ht. destruct s as [t m r c p h]. cbn in *. subst r. destruct t as [k| |[|k]|]; try done.
  - destruct c; [by destruct in_flag0 as [? _]; exfalso; auto|]. destruct (decide (k = NUM_CHANNELS)) as [->|]; [eexists; apply st_flag|].
    eexists. apply st_open. unfold NUM_CHANNELS in *. cbn in in_tried0. lia.
  - eexists. apply st_leave.
  - eexists. apply st_exit.
  - eexists. apply st_close.
Qed.
Lemma progress s : Stopped s → ended s ∨ ∃ s', step s s'.
Proof.
  intros HS. pose proof (thread_steps s HS) as Ht. destruct HS as [I Hr]. destruct s as [t m r c p h]. cbn in *. subst r.
  destruct m; try (right; by eexists; constructor); [| |by left; eexists].
  - destruct c; [right; eexists; apply st_wait|]. right. apply Ht. intros ->. pose proof (proj2 (in_flag _ I) Logic.I). done.
  - right. destruct t; try (apply Ht; discriminate). eexists. apply st_join.
Qed.

(** ** Properties *)

(** C29 The order of main and the mini mountd, in every interleaving with a
    signal at any time: the host proxy takes clients only after every channel
    of the kernel has been tried; an exit with status 0 is after the proxy
    has stopped and the thread has closed its channels and returned; and once
    the signal has come, every run takes at most 21 more steps and ends
    with main's return. *)
Theorem nfsd_order : ∀ s, rtc step sys0 s →
  (proxy_up s = true → tried (tp s) = NUM_CHANNELS) ∧
  (mp s = MEnd 0 → tp s = TDone ∧ proxy_up s = false) ∧
  (server_running s = false →
     (∀ n s', nsteps step n s s' → (n <= 21)%nat) ∧ (∀ s', rtc step s s' → nf step s' → ended s')).
Proof.
  intros s Hr. pose proof (run_inv step Inv nfsd_inv_step _ _ Hr Inv0) as I. split_and!.
  - intros Hp. pose proof (proj1 (in_flag _ I) (in_main _ I (in_proxy _ I Hp))) as H. by destruct (tp s).
  - intros E. apply (in_end _ I). by right.
  - intros Hf. assert (HS : Stopped s) by done. split.
    + intros n s' Hn. pose proof (run_bounded step Stopped Stopped_step measure nfsd_step_decreases n s s' HS Hn) as H.
      assert (measure s <= 21)%nat; [|lia]. destruct I as [_ _ _ _ _ _ _ Hc _]. unfold measure, NUM_CHANNELS in *.
      destruct (tp s), (mp s); cbn; lia.
    + intros s' Hn Hnf. exact (run_stops step Stopped Stopped_step ended progress s s' HS Hn Hnf).
Qed.

Lemma nfsd_order_witness :
  let s := mk_sys (TOpen 2) MWait false false false false in
  (proxy_up s = true → tried (tp s) = NUM_CHANNELS) ∧
  (mp s = MEnd 0 → tp s = TDone ∧ proxy_up s = false) ∧
  (server_running s = false →
     (∀ n s', nsteps step n s s' → (n <= 21)%nat) ∧ (∀ s', rtc step s s' → nf step s' → ended s')).
Proof.
  refine (nfsd_order (mk_sys (TOpen 2) MWait false false false false) _).
  eapply rtc_l; [apply st_open; unfold NUM_CHANNELS; lia|]. eapply rtc_l; [apply st_signal|].
  eapply rtc_l; [apply st_open; unfold NUM_CHANNELS; lia|]. apply rtc_refl.
Defined.

(** When the proxy does not start, main shuts the kernel down without joining
    the thread, which is still polling its channels. *)
Lemma halt_under_thread : ∃ s, rtc step sys0 s ∧ halted s = true ∧ tp s = TLoop.
Proof.
  exists (mk_sys TLoop (MEnd 1) true true false true). split; [|done]. unfold sys0.
  do 6 (eapply rtc_l; [apply st_open; unfold NUM_CHANNELS; lia|]). eapply rtc_l; [apply st_flag|]. eapply rtc_l; [apply st_wait|].
  eapply rtc_l; [apply st_proxy_fails|]. eapply rtc_l; [apply st_halt|]. apply rtc_refl.
Qed.
End NfsdThreads.
