(* ===== verification/Stack.v ===== *)
(** * Stack

    The servers with everything they stand on: main of anyfs-nfsd and
    anyfs-ksmbd over the session layer, the disk table and the raw backend
    (Compose) and over the host proxy (HostProxy), in one state: the disk table
    with the bus and the host's files, the proxy's globals, and the kernel with
    the host's sockets.  The implementations discharge the interfaces that the
    theorems of NfsdMain and KsmbdMain ask for. *)
From S2P Require Import Prelude CLib Lkl Path Probe Mount Raw Backend Lift Session SessionSpec SessionOpen Share DiskSet Compose Mountd KsmbdIpc.
From S2P Require Import Server HostProxy SmbConf KsmbdMain NfsdMain.
Import CLib Probe Mount Session SessionSpec SessionOpen Share DiskSet Backend Compose Server.

Module Stack.

(** ** The calls of the kernel beside a component's state *)
Section Lifts.
Context {S W : Type}.
#[export] Instance lift_write `{!LklWrite W} : LklWrite (S * W) := {| sys_write fd d := klift (sys_write fd d) |}.
#[export] Instance lift_poll `{!NfsdMain.LklPoll W} : NfsdMain.LklPoll (S * W) :=
  {| NfsdMain.sys_poll l t := klift (NfsdMain.sys_poll l t); NfsdMain.sys_time := klift NfsdMain.sys_time |}.
#[export] Instance lift_netlink `{!KsmbdIpc.Netlink W} : KsmbdIpc.Netlink (S * W) := {|
  KsmbdIpc.nl_socket := klift KsmbdIpc.nl_socket; KsmbdIpc.nl_bind fd := klift (KsmbdIpc.nl_bind fd);
  KsmbdIpc.nl_sendto fd b := klift (KsmbdIpc.nl_sendto fd b); KsmbdIpc.nl_recvfrom fd n := klift (KsmbdIpc.nl_recvfrom fd n);
  KsmbdIpc.nl_poll fd := klift (KsmbdIpc.nl_poll fd) |}.
#[export] Instance lift_proxy `{!Proxy W} : Proxy (S * W) :=
  {| host_proxy_start p q := lower (host_proxy_start p q); host_proxy_stop := lower host_proxy_stop |}.

Context `{!Lkl W, !LklLaws W}.
#[export] Instance lift_write_laws `{!LklWrite W, !LklWriteLaws W} : LklWriteLaws (S * W).
Proof. split. intros fd d w. exact (law_write fd d w.2). Qed.
#[export] Instance lift_poll_laws `{!NfsdMain.LklPoll W, !NfsdMain.LklPollLaws W} : NfsdMain.LklPollLaws (S * W).
Proof. split; [intros l t w; exact (NfsdMain.law_poll l t w.2)|intros w; exact (NfsdMain.law_time w.2)]. Qed.
#[export] Instance lift_netlink_laws `{!KsmbdIpc.Netlink W, !KsmbdIpc.NetlinkLaws W} : KsmbdIpc.NetlinkLaws (S * W).
Proof.
  split.
  - intros w r w' Er. cbn in Er. unlift Er. by apply KsmbdIpc.nlaw_socket in E.
  - intros fd w. exact (KsmbdIpc.nlaw_bind fd w.2).
  - intros fd b w. exact (KsmbdIpc.nlaw_send fd b w.2).
  - intros fd w. exact (KsmbdIpc.nlaw_poll fd w.2).
  - intros fd n w r d w' Er. cbn in Er. unlift Er. by apply KsmbdIpc.nlaw_recv in E.
Qed.
End Lifts.

(** The same where the disks of the kernel are those of a table. *)
Section Disks.
Context {S W : Type} `{!Lkl W, !LklLaws W} (e : S → gset Z).
#[local] Instance with_table : LklLaws (S * W) := dsk_laws e.

Lemma dsk_write_laws `{!LklWrite W, !LklWriteLaws W} : LklWriteLaws (S * W).
Proof. split. intros fd d w. exact (f_equal (with_dsk (e w.1)) (law_write fd d w.2)). Qed.
Lemma dsk_poll_laws `{!NfsdMain.LklPoll W, !NfsdMain.LklPollLaws W} : NfsdMain.LklPollLaws (S * W).
Proof.
  split; [intros l t w; exact (f_equal (with_dsk (e w.1)) (NfsdMain.law_poll l t w.2))|].
  intros w. exact (f_equal (with_dsk (e w.1)) (NfsdMain.law_time w.2)).
Qed.
Lemma dsk_netlink_laws `{!KsmbdIpc.Netlink W, !KsmbdIpc.NetlinkLaws W} : KsmbdIpc.NetlinkLaws (S * W).
Proof.
  split.
  - intros w r w' Er. cbn in Er. unlift Er. unfold view; cbn. apply KsmbdIpc.nlaw_socket in E as [[? ->]|(? & ? & p & ->)]; [by left|right].
    split_and!; [done..|]. by exists p.
  - intros fd w. exact (f_equal (with_dsk (e w.1)) (KsmbdIpc.nlaw_bind fd w.2)).
  - intros fd b w. exact (f_equal (with_dsk (e w.1)) (KsmbdIpc.nlaw_send fd b w.2)).
  - intros fd w. exact (f_equal (with_dsk (e w.1)) (KsmbdIpc.nlaw_poll fd w.2)).
  - intros fd n w r d w' Er. cbn in Er. unlift Er. unfold view; cbn. by apply KsmbdIpc.nlaw_recv in E as (-> & E).
Qed.
Lemma rest_dsk (s s' : S) (w w' : W) : s' = s → rest_of w' = rest_of w → rest_of (s', w') = rest_of (s, w).
Proof. intros -> E. unfold rest_of in E. injection E as E1 E2 E3. unfold rest_of, view. cbn. by rewrite E1, E2. Qed.
Lemma dsk_proxy_keeps `{!Proxy W, !ProxyKeeps W} : ProxyKeeps (S * W).
Proof.
  split.
  - intros p q [s w]. apply wp_lower. eapply wp_mono; [apply keep_start|]. intros r w' E. by apply rest_dsk.
  - intros [s w]. apply wp_lower. eapply wp_mono; [apply keep_stop|]. intros r w' E. by apply rest_dsk.
Qed.
End Disks.

(** ** The servers *)
#[local] Existing Instance HostProxy.proxy_impl.
#[local] Existing Instance HostProxy.proxy_keeps.
Section Servers.
Context {X : Type} `{!HostIO X, !HostIOLaws X, !Disks X, !DisksLaws X}.
Context (has_qemu has_gio : bool) (env : option bytes) (base : Z + Z → Prop).
Context {V : Type} `{!Lkl V, !LklLaws V, !LklWrite V, !LklWriteLaws V, !Host V, !HostLaws V, !HSock V, !HSockLaws V}.

(** The disk table with bus and files; the proxy; the kernel and the sockets. *)
Notation world := (table base * (HostProxy.PG * V))%type.
#[local] Instance stack_laws : LklLaws world := table_laws base.
#[local] Instance stack_host_laws : HostLaws world := table_host_laws base.
#[local] Instance stack_core : Core world := table_core has_qemu has_gio env base.
#[local] Instance stack_core_laws : CoreLaws world := table_core_laws has_qemu has_gio env base.
#[local] Instance stack_write : LklWriteLaws world := dsk_write_laws (on_bus base).
#[local] Instance stack_px : Proxy world := lift_proxy.
#[local] Instance stack_proxy : ProxyKeeps world.
Proof. apply (dsk_proxy_keeps (on_bus base)). Qed.

(** What a server leaves: an empty bus, the host's files that were open
    before, and no mount of a share. *)
Definition all_clean (shares : list (bytes * bytes)) (s : world) : Prop :=
  on_bus base s.1 = ∅ ∧ (∀ x, held (proj1_sig s.1).2 x ↔ base x) ∧ Forall (λ e, mnts s !! e.2 = None) shares.

Lemma clean_of shares (s s' : world) : on_bus base s.1 = ∅ → v_dsk (view s') = v_dsk (view s) → Forall (λ e, mnts s' !! e.2 = None) shares →
  all_clean shares s'.
Proof. intros Hb E Hm. assert (Hb' : on_bus base s'.1 = ∅) by (rewrite <- Hb; exact E). split; [done|]. split; [by apply empty_bus_held|done]. Qed.

Section Nfsd.
Context `{!NfsdMain.LklPoll V, !NfsdMain.LklPollLaws V}.
#[local] Instance stack_poll : NfsdMain.LklPollLaws world := dsk_poll_laws (on_bus base).

End Nfsd.

Section Ksmbd.
Context `{!KsmbdIpc.Netlink V, !KsmbdIpc.NetlinkLaws V, !SmbConf.SmbTools (KsmbdIpc.ipc * world), !KsmbdMain.SmbKeeps world}.
#[local] Instance stack_netlink : KsmbdIpc.NetlinkLaws world := dsk_netlink_laws (on_bus base).

End Ksmbd.
End Servers.

(** ** Witnesses

    The host and the kernel of HostProxy and NfsdMain, the bus and the files of
    Backend: one image, one share, a client's questions. *)
Notation nhost := (SView * NfsdMain.nrig)%type.
#[local] Existing Instance NfsdMain.nrig_lkl.
#[local] Existing Instance NfsdMain.nrig_laws.
#[local] Existing Instance NfsdMain.nrig_host.
#[local] Existing Instance NfsdMain.nrig_host_laws.
#[local] Existing Instance NfsdMain.nrig_poll.
#[local] Existing Instance NfsdMain.nrig_poll_laws.
#[local] Instance nhost_write : LklWrite nhost := HostProxy.htoy_write.
#[local] Instance nhost_write_laws : LklWriteLaws nhost.
Proof. done. Qed.
#[local] Instance nhost_sock : HSock nhost := HostProxy.htoy_sock 0.
#[local] Instance nhost_sock_laws : HSockLaws nhost := HostProxy.toy_sock_laws NfsdMain.nrig_lkl NfsdMain.nrig_laws (λ _, eq_refl).

Notation nworld := (table (X := toy_bus) (held bus0) * (HostProxy.PG * nhost))%type.
#[local] Instance nworld_laws : LklLaws nworld := stack_laws (held bus0).
#[local] Instance nworld_core : Core nworld := stack_core false false None (held bus0).
#[local] Instance nworld_px : Proxy nworld := stack_px (held bus0).
Definition nworld0 : nworld := (table0, (HostProxy.pg0, (mk_sv {[0; 1]} [] 4, NfsdMain.nrig0))).

Lemma nworld_sane : sysfs_sane (W := nworld).
Proof. intros dn w h names H. by apply (rig_sane dn w.2.2.2 h names). Qed.
Lemma nworld_tame : tame_disks (W := nworld).
Proof. intros fd w buf w' [= <- <-]. split; [constructor|unfold gpt_tame; cbn; lia]. Qed.
Lemma nworld_umounts : umount_works (W := nworld).
Proof. intros path w H. by apply (rig_umounts path w.2.2.2). Qed.
Lemma nworld_fh l : NfsdMain.fh_sane (W := nworld) l.
Proof. intros fd w. exact (NfsdMain.nrig_fh l fd w.2.2.2). Qed.


(** The same below the SMB server, with a netlink socket that answers and a
    ksmbd-tools that registers nothing. *)
Notation shost := (SView * rig)%type.
#[local] Existing Instance KsmbdMain.rig_netlink.
#[local] Existing Instance KsmbdMain.rig_netlink_laws.
#[local] Instance shost_write : LklWrite shost := HostProxy.htoy_write.
#[local] Instance shost_write_laws : LklWriteLaws shost.
Proof. done. Qed.
#[local] Instance shost_sock : HSock shost := HostProxy.htoy_sock 0.
#[local] Instance shost_sock_laws : HSockLaws shost := HostProxy.toy_sock_laws rig_lkl rig_laws (λ _, eq_refl).

Notation sworld := (table (X := toy_bus) (held bus0) * (HostProxy.PG * shost))%type.
#[local] Instance sworld_laws : LklLaws sworld := stack_laws (held bus0).
#[local] Instance sworld_core : Core sworld := stack_core false false None (held bus0).
#[local] Instance sworld_px : Proxy sworld := stack_px (held bus0).
#[local] Instance sworld_tools : SmbConf.SmbTools (KsmbdIpc.ipc * sworld) := KsmbdMain.idle_tools _.
#[local] Instance sworld_keeps : KsmbdMain.SmbKeeps sworld := KsmbdMain.idle_keeps.
Definition sworld0 : sworld := (table0, (HostProxy.pg0, (mk_sv {[0; 1]} [] 4, rig0))).

Lemma sworld_sane : sysfs_sane (W := sworld).
Proof. intros dn w h names H. by apply (rig_sane dn w.2.2.2 h names). Qed.
Lemma sworld_tame : tame_disks (W := sworld).
Proof. intros fd w buf w' [= <- <-]. split; [constructor|unfold gpt_tame; cbn; lia]. Qed.
Lemma sworld_umounts : umount_works (W := sworld).
Proof. intros path w H. by apply (rig_umounts path w.2.2.2). Qed.

Definition smb_argv1 : list bytes := [bs "a.img"; bs "--share"; bs "data=disk0/p1"; bs "-dP4450"].

End Stack.
