(* ===== verification/Format.v ===== *)
(** * Format

    src/core/anyfs_format.c: the partition table that lspart prints and the
    FUSE frontend serves as .partitions.  Sizes are doubles in the code; a
    [double] here is the integer it holds before the divisions by 1024, which
    are exact, and %.1f rounds to nearest, ties to even, as glibc does. *)
From S2P Require Import Prelude CLib Strbuf Legacy Lkl Path Probe Sysfs Mount Session SessionSpec SessionOpen.
Import CLib Strbuf Legacy Probe Mount Session SessionSpec SessionOpen.

Module Format.

(** ** Sizes *)

(** a / b rounded to the nearest integer, ties to even. *)
Definition round_half_even (a b : Z) : Z :=
  let q := a / b in
  let r := a mod b in
  if 2 * r <? b then q else if b <? 2 * r then q + 1 else if Z.even q then q else q + 1.

(** (double)n of a uint64_t: 53 significant bits. *)
Definition double_of (n : Z) : Z :=
  let e := 2 ^ Z.max 0 (Z.log2 n - 52) in round_half_even n e * e.

Definition units : list bytes := [bs "B"; bs "KB"; bs "MB"; bs "GB"; bs "TB"; bs "PB"].

(** [while (v >= 1024.0 && u < 5) { v /= 1024.0; u++; }] where v = d / 1024^u;
    [k] is 5 - u. *)
Fixpoint unit_loop (k : nat) (d : Z) (u : nat) : nat :=
  match k with
  | O => u
  | S k' => if 1024 ^ (Z.of_nat u + 1) <=? d then unit_loop k' d (S u) else u
  end.

(** %.1f of d / 1024^u *)
Definition fmt_f1 (d : Z) (u : nat) : bytes :=
  let t := round_half_even (10 * d) (1024 ^ Z.of_nat u) in
  fmt_u (t / 10) ++ bs "." ++ fmt_u (t mod 10).

Definition human_size (n cap : Z) : bytes :=
  let d := double_of n in
  let u := unit_loop 5 d 0 in
  let unit := default [] (units !! u) in
  (snprintf cap (if Nat.eqb u 0 then fmt_u n ++ bs " " ++ unit else fmt_f1 d u ++ bs " " ++ unit)).2.

(** ** The table *)

(** "%-18s %-10s %-7s %-7s %-12s %-12s\n" *)
Definition row (path size kind fs label uuid : bytes) : bytes :=
  fmt_pad 18 path ++ bs " " ++ fmt_pad 10 size ++ bs " " ++ fmt_pad 7 kind ++ bs " " ++
  fmt_pad 7 fs ++ bs " " ++ fmt_pad 12 label ++ bs " " ++ fmt_pad 12 uuid ++ [10].

Section Table.
Context (realloc_ok : Z → bool) (getenv : bytes → option bytes) (iconv_open : bytes → bool)
  (iconv : bytes → bytes → Z → option (bytes * Z)) (iconv_flush : bytes → bytes → Z → option bytes).
Context {W : Type} `{!Lkl W}.

Definition anyfs_format_header (sb : AnyfsStrbuf) : option AnyfsStrbuf :=
  anyfs_strbuf_printf realloc_ok sb
    (Some (row (bs "PATH") (bs "SIZE") (bs "KIND") (bs "FSTYPE") (bs "LABEL") (bs "UUID"))).

(** [if (!label[0] || anyfs_legacy_decode(...) < 0) "?"], with the encoding in
    force after it. *)
Definition label_text (g : Z) (label : bytes) : option (bytes * Z) :=
  match label with
  | [] => Some (bs "?", g)
  | _ =>
      r ← anyfs_legacy_decode getenv iconv_open iconv iconv_flush g label true (64 * 4 + 1);
      let '(rc, t, g') := r in
      Some (if rc <? 0 then bs "?" else t, g')
  end.

Definition or_unknown (t : bytes) : bytes := match t with [] => bs "?" | _ => t end.

(** One turn of the loop over the partitions. *)
Definition format_part (disk_idx : Z) (st : AnyfsStrbuf * Z) (i : AnyfsPartInfo) : option (AnyfsStrbuf * Z) :=
  let '(sb, g) := st in
  let path := (snprintf 32 (bs "disk" ++ fmt_d disk_idx ++ bs "/p" ++ fmt_u (pi_index i))).2 in
  let sz := human_size (pi_size i) 24 in
  l ← label_text g (pi_label i);
  sb' ← anyfs_strbuf_printf realloc_ok sb
          (Some (row path sz (anyfs_partkind_name (pi_kind i)) (or_unknown (pi_fstype i)) l.1 (or_unknown (pi_uuid i))));
  Some (sb', l.2).

Fixpoint format_parts (disk_idx : Z) (st : AnyfsStrbuf * Z) (l : list AnyfsPartInfo) : option (AnyfsStrbuf * Z) :=
  match l with
  | [] => Some st
  | i :: l' => st' ← format_part disk_idx st i; format_parts disk_idx st' l'
  end.

(** The string buffer and the encoding in force are threaded through. *)
Definition anyfs_format_disk (d : option AnyfsSession) (disk_idx : Z) (st : AnyfsStrbuf * Z) : M W (AnyfsStrbuf * Z) :=
  match d with
  | None => mret st
  | Some d =>
      let '(n, ps, _) := anyfs_session_list d (-1) MAX_PARTS in
      if n <? 0 then mret st
      else if n =? 0 then
        m ← anyfs_session_meta d;
        match m_fstype m with
        | [] => mret st
        | fs =>
            let path := (snprintf 32 (bs "disk" ++ fmt_d disk_idx)).2 in
            let sz := human_size (logical_size m) 24 in
            l ← mopt (label_text st.2 (m_label m));
            sb' ← mopt (anyfs_strbuf_printf realloc_ok st.1
                          (Some (row path sz (bs "FS") fs l.1 (or_unknown (m_uuid m)))));
            mret (sb', l.2)
        end
      else mopt (format_parts disk_idx st (take (Z.to_nat n) ps))
  end.
End Table.

(** ** Sizes are accurate *)

Lemma round_error a b : 0 < b → 2 * Z.abs (a - round_half_even a b * b) <= b.
Proof.
  intros Hb. unfold round_half_even. pose proof (Z.div_mod a b ltac:(lia)) as E. pose proof (Z.mod_pos_bound a b Hb).
  destruct (Z.ltb_spec (2 * (a mod b)) b); [nia|]. destruct (Z.ltb_spec b (2 * (a mod b))); [nia|].
  destruct (Z.even (a / b)); nia.
Qed.

Lemma log2_bound n k : 0 <= n < 2 ^ k → 0 < k → Z.log2 n < k.
Proof. intros Hn Hk. destruct (decide (n = 0)) as [->|]; [done|]. apply Z.log2_lt_pow2; lia. Qed.

Lemma double_small n : 0 <= n < 2 ^ 53 → double_of n = n.
Proof.
  intros Hn. unfold double_of. assert (Hl : Z.log2 n < 53) by (apply log2_bound; lia).
  rewrite Z.max_l by lia. change (2 ^ 0) with 1. unfold round_half_even.
  rewrite Z.div_1_r, Z.mod_1_r, Z.mul_1_r. done.
Qed.

Lemma double_large n : 2 ^ 53 <= n < 2 ^ 64 → Z.abs (double_of n - n) <= 2 ^ 10.
Proof.
  intros Hn. unfold double_of. assert (Hl : Z.log2 n < 64) by (apply log2_bound; lia).
  set (e := 2 ^ Z.max 0 (Z.log2 n - 52)). assert (He : 0 < e <= 2 ^ 11).
  { split; [apply Z.pow_pos_nonneg; lia|]. apply Z.pow_le_mono_r; lia. }
  pose proof (round_error n e ltac:(lia)). change (2 ^ 11) with (2 * 2 ^ 10) in He. lia.
Qed.

Lemma unit_loop_spec k d u : (u = 0%nat ∨ 1024 ^ Z.of_nat u <= d) →
  let u' := unit_loop k d u in
  (u <= u' <= u + k)%nat ∧ (u' = 0%nat ∨ 1024 ^ Z.of_nat u' <= d) ∧
  (u' = (u + k)%nat ∨ d < 1024 ^ (Z.of_nat u' + 1)).
Proof.
  revert u. induction k as [|k IH]; intros u Hu; cbn [unit_loop]; [split; [lia|]; split; [done|left; lia]|].
  destruct (Z.leb_spec (1024 ^ (Z.of_nat u + 1)) d) as [H|H].
  - destruct (IH (S u)) as (H1 & H2 & H3); [right; by rewrite Nat2Z.inj_succ|].
    split; [lia|]. split; [done|]. destruct H3 as [H3|H3]; [left; lia|by right].
  - split; [lia|]. split; [done|by right].
Qed.

Lemma fmt_u_len k n : (0 < k)%nat → 0 <= n < 10 ^ Z.of_nat k → (length (fmt_u n) <= k)%nat.
Proof. intros Hk Hn. unfold fmt_u. pose proof (fmt_u_length_le 20 n [] k Hn Hk) as H. cbn [length] in H. lia. Qed.

Lemma unit_len u : (length (default [] (units !! u)) <= 2)%nat.
Proof. do 6 (destruct u as [|u]; [vm_compute; lia|]). vm_compute. lia. Qed.

(** The text of the tenths [t] with unit [u]. *)
Definition size_text (t : Z) (u : nat) : bytes :=
  fmt_u (t / 10) ++ bs "." ++ fmt_u (t mod 10) ++ bs " " ++ default [] (units !! u).

Lemma size_text_len t u : 0 <= t < 10 ^ 7 → len (size_text t u) < 24.
Proof.
  intros Ht. unfold size_text. rewrite !length_app. pose proof (unit_len u).
  assert (0 <= t / 10 < 10 ^ Z.of_nat 6) by (split; [apply Z.div_pos; lia|apply Z.div_lt_upper_bound; lia]).
  pose proof (fmt_u_len 6 (t / 10) ltac:(lia) ltac:(done)).
  pose proof (Z.mod_pos_bound t 10 ltac:(lia)).
  pose proof (fmt_u_len 1 (t mod 10) ltac:(lia) ltac:(lia)).
  change (length (bs ".")) with 1%nat. change (length (bs " ")) with 1%nat. lia.
Qed.

(** The size a row shows: exact below 1024 bytes; otherwise tenths of the
    largest unit that is not above the size, off by at most half a tenth,
    plus what the conversion to double loses from 2^53 on. *)
Lemma human_size_spec n : 0 <= n < 2 ^ 64 →
  (n < 1024 ∧ human_size n 24 = fmt_u n ++ bs " B") ∨
  (∃ t u, human_size n 24 = size_text t u ∧ (1 <= u <= 5)%nat ∧ 1024 ^ Z.of_nat u <= n ∧
     (u = 5%nat ∨ n < 1024 ^ (Z.of_nat u + 1)) ∧
     2 * Z.abs (10 * n - t * 1024 ^ Z.of_nat u) <= 1024 ^ Z.of_nat u + if n <? 2 ^ 53 then 0 else 20 * 2 ^ 10).
Proof.
  intros Hn. set (d := double_of n).
  assert (Hd : Z.abs (d - n) <= if n <? 2 ^ 53 then 0 else 2 ^ 10).
  { unfold d. destruct (Z.ltb_spec n (2 ^ 53)); [rewrite double_small by lia; lia|apply double_large; lia]. }
  destruct (unit_loop_spec 5 d 0) as (Hu & Hlo & Hhi); [by left|]. fold d in Hu, Hlo, Hhi.
  set (u := unit_loop 5 d 0) in *. change (0 + 5)%nat with 5%nat in *.
  assert (Hp : 1 <= 1024 ^ Z.of_nat u <= 2 ^ 50).
  { split; [apply (Z.pow_le_mono_r 1024 0); lia|]. change (2 ^ 50) with (1024 ^ 5). apply Z.pow_le_mono_r; lia. }
  unfold human_size. fold d. fold u. destruct (Nat.eqb_spec u 0) as [E|E].
  - left. rewrite E in Hhi. destruct Hhi as [?|Hhi]; [lia|]. change (1024 ^ (Z.of_nat 0 + 1)) with 1024 in Hhi.
    assert (n < 1024) by (destruct (Z.ltb_spec n (2 ^ 53)); lia). split; [done|]. rewrite E, snprintf_fits; [done|].
    rewrite length_app. pose proof (fmt_u_len 4 n ltac:(lia) ltac:(lia)). change (length (bs " " ++ default [] (units !! 0%nat))) with 2%nat.
    lia.
  - right. destruct Hlo as [?|Hlo]; [lia|].
    set (t := round_half_even (10 * d) (1024 ^ Z.of_nat u)).
    pose proof (round_error (10 * d) (1024 ^ Z.of_nat u) ltac:(lia)) as Ht. fold t in Ht.
    exists t, u. split; [|split; [lia|]].
    + unfold fmt_f1. fold t. rewrite <- !app_assoc. apply (snprintf_fits 24 (size_text t u)), size_text_len.
      destruct Hhi as [Eu|Hhi]; [rewrite Eu in *; change (1024 ^ Z.of_nat 5) with (2 ^ 50) in *;
        destruct (Z.ltb_spec n (2 ^ 53)); lia|]. rewrite Z.pow_add_r in Hhi by lia. nia.
    + destruct (Z.ltb_spec n (2 ^ 53)) as [Hs|Hs].
      * assert (Ed : d = n) by lia. rewrite Ed in *. split; [done|]. split; [|lia]. destruct Hhi; [by left|by right].
      * split; [lia|]. split; [|lia]. left. destruct Hhi as [Eu|Hhi]; [done|]. destruct (decide (u = 5%nat)) as [|Hu']; [done|].
        assert (Z.of_nat u + 1 <= 5) as Hu5 by lia.
        pose proof (Z.pow_le_mono_r 1024 _ _ ltac:(lia) Hu5). change (1024 ^ 5) with (2 ^ 50) in *. lia.
Qed.

(** ** Listing *)

(** The entries of a level of the slot tree, in slot order. *)
Definition level (d : AnyfsSession) (parent : Z) : list AnyfsPartInfo :=
  slot_to_info <$> filter (λ p, parent_slot p = parent) (parts d).

Lemma list_loop_spec l parent n out total : len out <= n →
  list_loop l parent n out total =
    (let es := slot_to_info <$> filter (λ p, parent_slot p = parent) l in
     (take (Z.to_nat n) (out ++ es), total + len es)).
Proof.
  revert out total. induction l as [|p l IH]; intros out total Hn; cbn [list_loop].
  { cbn. rewrite app_nil_r, take_ge by lia. f_equal. lia. }
  rewrite filter_cons. destruct (Z.eqb_spec (parent_slot p) parent) as [E|E]; cbn [negb].
  - rewrite decide_True by done. rewrite fmap_cons. destruct (Z.ltb_spec (len out) n).
    + rewrite IH by (rewrite length_app; cbn; lia). cbn [length]. rewrite <- app_assoc. f_equal. lia.
    + rewrite IH by lia. cbn zeta. cbn [length]. rewrite !take_app_le by lia. f_equal. lia.
  - rewrite decide_False by done. by apply IH.
Qed.

Lemma session_list_spec d parent n : 0 <= n →
  anyfs_session_list d parent n =
    (len (take (Z.to_nat n) (level d parent)), take (Z.to_nat n) (level d parent), len (level d parent)).
Proof. intros Hn. unfold anyfs_session_list. by rewrite list_loop_spec by (cbn; lia). Qed.

Lemma level_len d parent : (length (level d parent) <= length (parts d))%nat.
Proof. unfold level. rewrite length_fmap. apply length_filter. Qed.

(** ** The table is complete *)
Section TableSpec.
Context (realloc_ok : Z → bool) (getenv : bytes → option bytes) (iconv_open : bytes → bool)
  (iconv : bytes → bytes → Z → option (bytes * Z)) (iconv_flush : bytes → bytes → Z → option bytes).
Hypothesis Halloc : ∀ n, realloc_ok n = true.
Hypothesis Hiconv : ∀ cs i ol o il, iconv cs i ol = Some (o, il) → len o <= ol.
Hypothesis Hflush : ∀ cs i ol o, iconv_flush cs i ol = Some o → len o <= ol.
Context {W : Type} `{!Lkl W, !LklLaws W, !Host W, !HostLaws W, !Core W, !CoreLaws W}.
Abbreviation ltext := (label_text getenv iconv_open iconv iconv_flush).

(** The label as shown with encoding [g] in force. *)
Definition shown (g : Z) (label : bytes) : bytes := default [] (fst <$> ltext g label).

Lemma decode_resolved g : let g' := (anyfs_legacy_get getenv g).2 in
  anyfs_legacy_decode getenv iconv_open iconv iconv_flush g' = anyfs_legacy_decode getenv iconv_open iconv iconv_flush g.
Proof.
  cbn zeta. unfold anyfs_legacy_decode, anyfs_legacy_get, decode, get_enc. cbn [snd]. pose proof (legacy_auto_range getenv).
  destruct (Z.ltb_spec g 0); [|by rewrite (proj2 (Z.ltb_ge g 0))].
  by rewrite (proj2 (Z.ltb_ge (anyfs_legacy_auto getenv) 0)) by lia.
Qed.

Lemma decode_state g s cap rc o g' :
  anyfs_legacy_decode getenv iconv_open iconv iconv_flush g s true cap = Some (rc, o, g') →
  g' = (anyfs_legacy_get getenv g).2.
Proof.
  unfold anyfs_legacy_decode, anyfs_legacy_get, decode. destruct (get_enc (anyfs_legacy_auto getenv) g) as [enc g1]. cbn [snd negb orb].
  destruct (cap =? 0); [by intros [= _ _ <-]|]. destruct (valid_utf8 s) as [[]|]; cbn [mbind option_bind]; [| |done].
  - destruct (cap <=? len s); by intros [= _ _ <-].
  - destruct (if enc =? ANYFS_LEGACY_OFF then None else _); [by intros [= _ _ <-]|].
    destruct (hex_loop s [] cap) as [r|]; cbn [mbind option_bind]; [|done]. by intros [= _ _ <-].
Qed.

Lemma label_text_ok g l : CStr l → len l < 64 →
  ∃ g', ltext g l = Some (shown g l, g') ∧ (∀ l', shown g' l' = shown g l') ∧ len (shown g l) < 257.
Proof.
  intros Hc Hl. unfold shown, label_text. destruct l as [|c l0] eqn:El; [by exists g|]. rewrite <- El in *.
  destruct (legacy_decode_total getenv iconv_open iconv iconv_flush g l 257 Hiconv Hflush Hc ltac:(lia))
    as (t & g' & E & Ht & _). change (64 * 4 + 1) with 257. rewrite E. cbn [mbind option_bind].
  rewrite (proj2 (Z.ltb_ge (len t) 0)) by lia. exists g'. split; [done|]. split; [|done].
  intros l'. rewrite (decode_state _ _ _ _ _ _ E). destruct l'; [done|]. by rewrite decode_resolved.
Qed.

(** The row of a partition. *)
Definition part_row (disk_idx g : Z) (i : AnyfsPartInfo) : bytes :=
  row (bs "disk" ++ fmt_d disk_idx ++ bs "/p" ++ fmt_u (pi_index i)) (human_size (pi_size i) 24)
    (anyfs_partkind_name (pi_kind i)) (or_unknown (pi_fstype i)) (shown g (pi_label i)) (or_unknown (pi_uuid i)).

Lemma row_len a b c d e f : len (row a b c d e f) <= 72 + len a + len b + len c + len d + len e + len f.
Proof.
  unfold row. rewrite !length_app. unfold fmt_pad. rewrite !length_app, !length_replicate.
  change (length (bs " ")) with 1%nat. cbn [length]. lia.
Qed.

Lemma or_unknown_len t : len (or_unknown t) <= 1 + len t.
Proof. destruct t; cbn; lia. Qed.

(** What a row is made of fits its arrays. *)
Definition info_ok (i : AnyfsPartInfo) : Prop :=
  0 <= pi_index i < 2 ^ 32 ∧ CStr (pi_label i) ∧ len (pi_label i) < 64 ∧ len (pi_fstype i) < 32 ∧ len (pi_uuid i) < 40.

Lemma part_row_len disk_idx g i : - 2 ^ 31 <= disk_idx < 2 ^ 31 → info_ok i →
  len (part_row disk_idx g i) < 600 ∧
  (snprintf 32 (bs "disk" ++ fmt_d disk_idx ++ bs "/p" ++ fmt_u (pi_index i))).2
    = bs "disk" ++ fmt_d disk_idx ++ bs "/p" ++ fmt_u (pi_index i).
Proof.
  intros Hd (Hi & Hc & Hl & Hf & Hu). destruct (label_text_ok g (pi_label i) Hc Hl) as (_ & _ & _ & Hs).
  pose proof (fmt_d_len32 disk_idx Hd). pose proof (fmt_u_len32 (pi_index i) Hi).
  assert (Hp : len (bs "disk" ++ fmt_d disk_idx ++ bs "/p" ++ fmt_u (pi_index i)) < 32).
  { rewrite !length_app. change (length (bs "disk")) with 4%nat. change (length (bs "/p")) with 2%nat. lia. }
  split; [|by apply snprintf_fits]. unfold part_row. eapply Z.le_lt_trans; [apply row_len|].
  pose proof (or_unknown_len (pi_fstype i)). pose proof (or_unknown_len (pi_uuid i)).
  assert (len (human_size (pi_size i) 24) < 24) by (unfold human_size; cbn [snprintf snd]; rewrite length_take; lia).
  assert (len (anyfs_partkind_name (pi_kind i)) <= 7) by (destruct (pi_kind i); vm_compute; discriminate).
  lia.
Qed.

Lemma format_parts_ok disk_idx sb g t l : - 2 ^ 31 <= disk_idx < 2 ^ 31 → Forall info_ok l →
  holds sb t → len t + 600 * len l < 2 ^ 62 →
  ∃ sb' g', format_parts realloc_ok getenv iconv_open iconv iconv_flush disk_idx (sb, g) l = Some (sb', g') ∧
    holds sb' (t ++ mjoin (part_row disk_idx g <$> l)) ∧ ∀ l', shown g' l' = shown g l'.
Proof.
  intros Hd Hl. revert sb g t. induction Hl as [|i l Hi _ IH]; intros sb g t Hh Hs; cbn [format_parts].
  { exists sb, g. by rewrite app_nil_r. }
  destruct (part_row_len disk_idx g i Hd Hi) as [Hr Hp]. cbn [length] in Hs.
  destruct Hi as (Hx & Hc & Hlen & _). destruct (label_text_ok g (pi_label i) Hc Hlen) as (g1 & E1 & Hg1 & _).
  unfold format_part. rewrite E1, Hp. cbn [mbind option_bind fst snd]. fold (part_row disk_idx g i).
  destruct (printf_ok realloc_ok sb t (part_row disk_idx g i) Hh ltac:(lia) Halloc) as (sb1 & -> & Hh1 & _).
  cbn [mbind option_bind]. destruct (IH sb1 g1 (t ++ part_row disk_idx g i) Hh1) as (sb2 & g2 & -> & Hh2 & Hg2).
  { rewrite length_app. lia. }
  exists sb2, g2. split; [done|]. rewrite fmap_cons, join_cons, app_assoc. split; [|intros l'; by rewrite Hg2].
  replace (part_row disk_idx g1 <$> l) with (part_row disk_idx g <$> l) in Hh2; [done|].
  apply list_fmap_ext. intros _ j _. unfold part_row. by rewrite Hg1.
Qed.

Lemma wp_session_meta d (w : W) : wp (anyfs_session_meta d) (λ m w', view w' = view w ∧
  m_fstype m = strncpy 32 (whole_fstype_hint d) ∧ m_label m = strncpy 64 (whole_label_hint d) ∧
  m_uuid m = strncpy 40 (whole_uuid_hint d)) w.
Proof.
  unfold anyfs_session_meta.
  assert (Hrest : ∀ size w1, view w1 = view w →
    wp (_ ← mknod_for (sysfs_name d) 0 (snprintf 80 (bs "/dev/" ++ sysfs_name d)).2;
        pt ← anyfs_probe_pttype_blkdev (Some (snprintf 80 (bs "/dev/" ++ sysfs_name d)).2);
        mret (mk_meta size (strncpy 16 pt) (strncpy 32 (whole_fstype_hint d)) (strncpy 64 (whole_label_hint d))
                (strncpy 40 (whole_uuid_hint d))))
      (λ m w', view w' = view w ∧ m_fstype m = strncpy 32 (whole_fstype_hint d) ∧
         m_label m = strncpy 64 (whole_label_hint d) ∧ m_uuid m = strncpy 40 (whole_uuid_hint d)) w1).
  { intros size w1 H1. apply wp_bind. wp_use wp_mknod_for. intros _ w2 H2.
    apply wp_bind. wp_use wp_pttype_blkdev. intros pt w3 H3. apply wp_ret. split; [congruence|done]. }
  apply wp_bind, wp_open.
  - intros r w1 Hr H1. rewrite (proj2 (Z.ltb_lt r 0)) by lia. apply wp_bind, wp_ret. by apply Hrest.
  - intros r w1 Hr Hn H1. rewrite (proj2 (Z.ltb_ge r 0)) by lia.
    apply wp_bind, wp_bind, wp_read. intros n b w2 H2 _ _. apply wp_bind, Lkl.wp_close. intros _ w3 H3.
    apply wp_ret, Hrest. rewrite H3, H2, H1. cbn [v_fds v_mnt v_bro]. rewrite delete_insert_id by done. by destruct (view w).
Qed.

(** The labels a session holds are C strings. *)
Definition labels_ok (d : AnyfsSession) : Prop :=
  Forall (λ p, CStr (label p)) (parts d) ∧ CStr (whole_label_hint d).

Lemma level_ok d parent : table_ok d → labels_ok d → Forall info_ok (level d parent).
Proof.
  intros Ht [Hl _]. unfold level. apply Forall_fmap, Forall_forall. intros p [_ Hp]%list_elem_of_filter.
  pose proof (proj1 (Forall_forall _ _) Hl p Hp) as Hc. apply list_elem_of_lookup in Hp as [i Hi].
  destruct (ok_slot d Ht i p Hi) as (_ & _ & Hx & _). unfold info_ok. cbn.
  split_and!; [lia|lia|by apply CStr_take|..]; pose proof (strncpy_len 32 (fstype_cache p)); pose proof (strncpy_len 64 (label p));
    pose proof (strncpy_len 40 (uuid p)); lia.
Qed.

(** The rows of a disk: one per top-level partition; without partitions, at
    most one for a filesystem on the whole disk. *)
Definition disk_rows (d : AnyfsSession) (disk_idx g : Z) (rows : list bytes) : Prop :=
  (level d ROOT_PARENT ≠ [] → rows = part_row disk_idx g <$> level d ROOT_PARENT) ∧
  (level d ROOT_PARENT = [] → rows = [] ∨ ∃ size,
     rows = [row (bs "disk" ++ fmt_d disk_idx) (human_size size 24) (bs "FS") (strncpy 32 (whole_fstype_hint d))
               (shown g (strncpy 64 (whole_label_hint d))) (or_unknown (strncpy 40 (whole_uuid_hint d)))]).

Lemma wp_format_disk d disk_idx sb g t (w : W) : table_ok d → labels_ok d → - 2 ^ 31 <= disk_idx < 2 ^ 31 →
  holds sb t → len t < 2 ^ 60 →
  wp (anyfs_format_disk realloc_ok getenv iconv_open iconv iconv_flush (Some d) disk_idx (sb, g))
    (λ r w', view w' = view w ∧ (∀ l, shown r.2 l = shown g l) ∧
       ∃ rows, holds r.1 (t ++ mjoin rows) ∧ disk_rows d disk_idx g rows ∧ len (mjoin rows) < 2 ^ 20) w.
Proof.
  intros Ht Hlab Hd Hh Hs. unfold anyfs_format_disk. rewrite (session_list_spec d (-1) MAX_PARTS) by done.
  pose proof (level_len d ROOT_PARENT) as Hlen. pose proof (ok_cap d Ht) as Hcap. unfold MAX_PARTS in *.
  change (-1) with ROOT_PARENT. rewrite (take_ge (level d ROOT_PARENT)) by lia.
  rewrite (proj2 (Z.ltb_ge (len (level d ROOT_PARENT)) 0)) by lia.
  destruct (Z.eqb_spec (len (level d ROOT_PARENT)) 0) as [E|E].
  - assert (E0 : level d ROOT_PARENT = []) by (apply length_zero_iff_nil; lia).
    apply wp_bind. wp_use wp_session_meta. intros m w1 (Hv & Hf & Hl & Hu).
    destruct (m_fstype m) as [|c fs] eqn:Em.
    { apply wp_ret. split; [done|]. split; [done|]. exists []. rewrite app_nil_r. cbn [fst]. split; [done|].
      split; [|done]. split; [done|by left]. }
    rewrite Hf. clear Em. pose proof (strncpy_len 64 (whole_label_hint d) ltac:(lia)) as H64.
    destruct (label_text_ok g (strncpy 64 (whole_label_hint d)) (CStr_take _ _ (proj2 Hlab)) H64) as (g' & El & Hg' & Hsh).
    apply wp_bind. eapply wp_opt; [by rewrite Hl|]. cbn [fst snd].
    assert (Hp : len (bs "disk" ++ fmt_d disk_idx) < 32).
    { rewrite length_app. change (length (bs "disk")) with 4%nat. pose proof (fmt_d_len32 disk_idx Hd). lia. }
    rewrite (snprintf_fits 32) by done. rewrite Hu. set (r := row _ _ _ _ _ _).
    assert (Hr : len r < 600).
    { unfold r. eapply Z.le_lt_trans; [apply row_len|]. pose proof (or_unknown_len (strncpy 40 (whole_uuid_hint d))).
      pose proof (strncpy_len 40 (whole_uuid_hint d) ltac:(lia)). pose proof (strncpy_len 32 (whole_fstype_hint d) ltac:(lia)).
      assert (len (human_size (logical_size m) 24) < 24) by (unfold human_size; cbn [snprintf snd]; rewrite length_take; lia).
      change (len (bs "FS")) with 2. lia. }
    destruct (printf_ok realloc_ok sb t r Hh ltac:(lia) Halloc) as (sb' & Esb & Hh' & _).
    apply wp_bind. eapply wp_opt; [exact Esb|]. apply wp_ret. cbn [fst snd]. split; [done|]. split; [done|].
    exists [r]. rewrite join_cons, app_nil_r. split; [done|]. split; [|lia]. split; [done|]. intros _. right. by eexists.
  - pose proof (level_ok d ROOT_PARENT Ht Hlab) as Hok. rewrite Nat2Z.id, (take_ge (level d ROOT_PARENT)) by lia.
    destruct (format_parts_ok disk_idx sb g t (level d ROOT_PARENT) Hd Hok Hh ltac:(lia)) as (sb' & g' & Ef & Hh' & Hg').
    eapply wp_opt; [exact Ef|]. cbn [fst snd]. split; [done|]. split; [done|].
    exists (part_row disk_idx g <$> level d ROOT_PARENT). split; [done|].
    assert (Hb : ∀ l, Forall info_ok l → len (mjoin (part_row disk_idx g <$> l)) <= 600 * len l).
    { induction 1 as [|i l Hi _ IH]; [done|]. rewrite fmap_cons, join_cons, length_app.
      destruct (part_row_len disk_idx g i Hd Hi). cbn [length]. lia. }
    specialize (Hb _ Hok). split; [|lia]. split; [done|]. intros E0. by rewrite E0 in E.
Qed.
End TableSpec.

(** ** Properties *)

(** Sizes in the table are right: below 1024 bytes the exact number, above
    it tenths of the largest unit (up to PB) that is not above the size, off
    by at most half a tenth of the unit (plus at most 1024 bytes from 2^53
    bytes on, where the conversion to double rounds), and the text fits its
    24-byte array. *)
Theorem human_size_accurate n : 0 <= n < 2 ^ 64 →
  (n < 1024 ∧ human_size n 24 = fmt_u n ++ bs " B") ∨
  (∃ t u, human_size n 24 = size_text t u ∧ (1 <= u <= 5)%nat ∧ 1024 ^ Z.of_nat u <= n ∧
     (u = 5%nat ∨ n < 1024 ^ (Z.of_nat u + 1)) ∧
     2 * Z.abs (10 * n - t * 1024 ^ Z.of_nat u) <= 1024 ^ Z.of_nat u + if n <? 2 ^ 53 then 0 else 20 * 2 ^ 10).
Proof. apply human_size_spec. Qed.

Lemma human_size_accurate_witness :
  (1536 < 1024 ∧ human_size 1536 24 = fmt_u 1536 ++ bs " B") ∨
  (∃ t u, human_size 1536 24 = size_text t u ∧ (1 <= u <= 5)%nat ∧ 1024 ^ Z.of_nat u <= 1536 ∧
     (u = 5%nat ∨ 1536 < 1024 ^ (Z.of_nat u + 1)) ∧
     2 * Z.abs (10 * 1536 - t * 1024 ^ Z.of_nat u) <= 1024 ^ Z.of_nat u + if 1536 <? 2 ^ 53 then 0 else 20 * 2 ^ 10).
Proof. exact (human_size_accurate 1536 ltac:(lia)). Defined.

Example human_sizes :
  human_size 0 24 = bs "0 B" ∧ human_size 1023 24 = bs "1023 B" ∧ human_size 1536 24 = bs "1.5 KB" ∧
  human_size 1048575 24 = bs "1024.0 KB" ∧ human_size (2 ^ 64 - 1) 24 = bs "16384.0 PB" ∧
  human_size 1126400 24 = bs "1.1 MB".
Proof. split_and!; vm_compute; reflexivity. Qed.

(** The partition table lists every partition: for a session whose slot
    table is well formed the printer returns, leaves the kernel as it was,
    and appends exactly one row per top-level partition in slot order, with
    the path that names it, its size, kind, filesystem, decoded label and
    UUID; a disk without partitions gets one row if it holds a filesystem.
    The allocator succeeds and iconv stays inside its buffer. *)
Theorem format_disk_complete {W} `{!Lkl W, !LklLaws W, !Host W, !HostLaws W, !Core W, !CoreLaws W}
    realloc_ok getenv iconv_open iconv iconv_flush d disk_idx sb g t (w : W) :
  (∀ n, realloc_ok n = true) → (∀ cs i ol o il, iconv cs i ol = Some (o, il) → len o <= ol) →
  (∀ cs i ol o, iconv_flush cs i ol = Some o → len o <= ol) →
  table_ok d → labels_ok d → - 2 ^ 31 <= disk_idx < 2 ^ 31 → holds sb t → len t < 2 ^ 60 →
  wp (anyfs_format_disk realloc_ok getenv iconv_open iconv iconv_flush (Some d) disk_idx (sb, g))
    (λ r w', view w' = view w ∧ ∃ rows, holds r.1 (t ++ mjoin rows) ∧
       disk_rows getenv iconv_open iconv iconv_flush d disk_idx g rows) w.
Proof.
  intros Ha Hi Hf Ht Hl Hd Hh Hs. eapply wp_mono; [by apply wp_format_disk|].
  intros r w' (Hv & _ & rows & Hr & Hrows & _). split; [done|]. by exists rows.
Qed.

Definition no_iconv (_ _ : bytes) (_ : Z) : option (bytes * Z) := None.
Definition no_flush (_ _ : bytes) (_ : Z) : option bytes := None.

Lemma format_disk_complete_witness :
  wp (anyfs_format_disk (λ _, true) (λ _, None) (λ _, false) no_iconv no_flush (Some ses0) 0 (anyfs_strbuf_init, -1))
    (λ r w', view w' = view toy_k ∧ ∃ rows, holds r.1 ([] ++ mjoin rows) ∧
       disk_rows (λ _, None) (λ _, false) no_iconv no_flush ses0 0 (-1) rows) toy_k.
Proof.
  refine (format_disk_complete (λ _, true) (λ _, None) (λ _, false) no_iconv no_flush ses0 0 anyfs_strbuf_init (-1) [] toy_k
            (λ _, eq_refl) _ _ (inv_table _ _ _ ses0_inv) _ ltac:(lia) _ ltac:(cbn; lia)).
  - by intros.
  - by intros.
  - split; [repeat constructor|constructor].
  - split; try done; by left.
Defined.
End Format.
