(* ===== verification/Labels.v ===== *)
(** * Labels

    What a session holds after anyfs_session_open: the texts libblkid gave are
    C strings, and the slot table fits every frontend.  With it the printers
    and the FUSE frontend can be used on the sessions that were just opened. *)
From S2P Require Import Prelude CLib Strbuf Lkl Probe Sysfs Mount Session SessionSpec SessionOpen DiskSet Format.
Import CLib Probe Mount Session SessionSpec SessionOpen DiskSet Format.

Module Labels.
Section Labels.
Context {W : Type} `{!Lkl W, !LklLaws W, !Host W, !HostLaws W, !Core W, !CoreLaws W}.
Notation St := (AnyfsSession * W)%type.

(** The values of libblkid are bytes. *)
Definition blkid_bytes : Prop := ∀ n (w : W) v, (blkid_probe_lookup_value n w).1 = Some v → Bytes v.
Context (Hb : blkid_bytes).

Lemma CStr_c_str v : Bytes v → CStr (c_str v).
Proof.
  induction 1 as [|c v Hc _ IH]; [constructor|]. cbn [c_str]. destruct (Z.eqb_spec c 0); [constructor|]. constructor; [lia|done].
Qed.

(** *** Results of code on the kernel, whenever it returns *)
Definition yields {A} (P : A → Prop) (m : M W A) : Prop := ∀ w a w', m w = Some (a, w') → P a.

Lemma yields_ret {A} (P : A → Prop) a : P a → yields P (mret a).
Proof. intros H w a' w' E. unfold mret, M_ret in E. by simplify_eq. Qed.
Lemma yields_bind {A B} (P : B → Prop) (m : M W A) k : (∀ a, yields P (k a)) → yields P (m ≫= k).
Proof. intros H w b w' E. unfold mbind, M_bind in E. destruct (m w) as [[a w1]|]; [|done]. by eapply H. Qed.
Lemma yields_bind_post {A B} (Q : A → Prop) (P : B → Prop) (m : M W A) k : yields Q m → (∀ a, Q a → yields P (k a)) → yields P (m ≫= k).
Proof. intros Hm H w b w' E. unfold mbind, M_bind in E. destruct (m w) as [[a w1]|] eqn:E1; [|done]. eapply H; [by eapply Hm|done]. Qed.

Lemma meta_value_cstr n cap : yields CStr (meta_value (W := W) n cap).
Proof.
  intros w v w'. unfold meta_value, mbind, M_bind, call. destruct (blkid_probe_lookup_value n w) as [o w1] eqn:E. intros [= <- _].
  destruct o as [v'|]; [|constructor]. apply CStr_c_str, Forall_take, (Hb n w). by rewrite E.
Qed.

Lemma probe_meta_cstr p : yields (λ r, CStr r.2.1.2) (anyfs_probe_meta (W := W) p).
Proof.
  assert (Hnil : CStr []) by constructor.
  destruct p as [p|]; [|by apply yields_ret]. cbn [anyfs_probe_meta]. apply yields_bind. intros hfd. case_match; [by apply yields_ret|].
  apply yields_bind. intros pr. case_match; [apply yields_bind; intros _; by apply yields_ret|]. do 2 (apply yields_bind; intros ?).
  apply (yields_bind_post (λ o, CStr o.1.2)).
  - case_match; [|by apply yields_ret]. apply yields_bind. intros f. eapply yields_bind_post; [apply meta_value_cstr|]. intros l Hl.
    apply yields_bind. intros u. by apply yields_ret.
  - intros o Ho. do 2 (apply yields_bind; intros ?). by apply yields_ret.
Qed.

(** *** Session code keeps the labels C strings *)
Definition pres {A} (m : M St A) : Prop := ∀ s a s', m s = Some (a, s') → labels_ok s.1 → labels_ok s'.1.

Lemma pres_ret {A} (a : A) : pres (mret a).
Proof. intros s a' s' E. unfold mret, M_ret in E. by simplify_eq. Qed.
Lemma pres_bind {A B} (m : M St A) (k : A → M St B) : pres m → (∀ a, pres (k a)) → pres (m ≫= k).
Proof. intros Hm Hk s b s' E Hs. unfold mbind, M_bind in E. destruct (m s) as [[a s1]|] eqn:E1; [|done]. eapply Hk; [done|by eapply Hm]. Qed.
Lemma pres_lower {A} (m : M W A) : pres (lower m).
Proof. intros s a s' E Hs. unfold lower in E. destruct (m s.2) as [[??]|]; [|done]. by simplify_eq/=. Qed.
Lemma pres_lower_bind {A B} (Q : A → Prop) (m : M W A) (k : A → M St B) : yields Q m → (∀ a, Q a → pres (k a)) → pres (lower m ≫= k).
Proof.
  intros Hm Hk s b s' E Hs. unfold mbind, M_bind, lower in E. destruct (m s.2) as [[a w1]|] eqn:E1; [|done]. eapply Hk; [by eapply Hm|exact E|done].
Qed.
Lemma pres_ses : pres ses.
Proof. intros s a s' E. unfold ses, mgets in E. by simplify_eq. Qed.
Lemma pres_ses_bind {B} (k : AnyfsSession → M St B) : (∀ d, labels_ok d → pres (k d)) → pres (ses ≫= k).
Proof. intros Hk s b s' E Hs. unfold mbind, M_bind, ses, mgets in E. by eapply Hk. Qed.
Lemma pres_upd f : (∀ d, labels_ok d → labels_ok (f d)) → pres (upd f).
Proof. intros Hf s a s' E Hs. unfold upd, mmod in E. simplify_eq/=. by apply Hf. Qed.

Lemma labels_slot sid f d : (∀ p, CStr (label p) → CStr (label (f p))) → labels_ok d → labels_ok (upd_slot sid f d).
Proof. intros Hf [Hl Hw]. split; [|done]. cbn. apply Forall_alter; [done|]. intros p _. by apply Hf. Qed.

Lemma pres_load_part pt sp : pres (load_part pt sp).
Proof.
  unfold load_part. apply pres_ses_bind. intros d Hd. unfold alloc_slot_locked. destruct (MAX_PARTS <=? _); [apply pres_ret|].
  apply pres_bind; [apply pres_upd; intros _ _|intros _].
  { destruct Hd as [Hl Hw]. split; [|done]. cbn. apply Forall_app. split; [done|]. repeat constructor. }
  apply pres_bind; [case_match; [|apply pres_ret]; destruct p; apply pres_upd; intros; by apply labels_slot|intros _].
  apply pres_bind; [apply pres_lower|intros _]. apply pres_bind; [apply pres_lower|intros k].
  apply pres_bind; [apply pres_upd; intros; by apply labels_slot|intros _]. case_if; [|apply pres_ret].
  eapply pres_lower_bind; [apply probe_meta_cstr|]. intros [rc [[f l] u]] Hl. apply pres_bind; [|intros _; apply pres_ret].
  apply pres_upd. intros d1 Hd1. by apply labels_slot.
Qed.

Lemma pres_load_parts pt l : pres (load_parts pt l).
Proof.
  induction l as [|sp l IH]; cbn [load_parts]; [apply pres_ret|]. apply pres_bind; [apply pres_load_part|]. intros [|]; [done|apply pres_ret].
Qed.

Lemma pres_load_top : pres load_top_parts_locked.
Proof.
  unfold load_top_parts_locked. apply pres_ses_bind. intros d _. apply pres_bind; [apply pres_lower|]. intros [n sbuf]. case_match; [apply pres_ret|].
  apply pres_bind; [case_match; [apply pres_bind; [apply pres_lower|intros _; apply pres_lower]|apply pres_ret]|]. intros pt.
  apply pres_bind; [apply pres_load_parts|intros _; apply pres_ret].
Qed.

Lemma open_labels c1 c2 image flags : yields (λ r, ∀ d, r.2 = Some d → labels_ok d) (anyfs_session_open (W := W) c1 c2 image flags).
Proof.
  destruct image as [image|]; [|by apply yields_ret]. unfold anyfs_session_open. apply yields_bind. intros id. case_match; [by apply yields_ret|].
  case_match; [apply yields_bind; intros _; by apply yields_ret|]. apply yields_bind. intros v. case_match.
  { do 2 (apply yields_bind; intros ?). by apply yields_ret. }
  apply (yields_bind_post (λ r, labels_ok r.2)).
  { intros w [a d'] w' E. unfold with_session in E. match type of E with context [?m ?s] => destruct (m s) as [[a1 [d1 w1]]|] eqn:E1; [|done] end. simplify_eq.
    apply (pres_load_top _ _ _ E1). split; constructor. }
  intros [a d] Hd. cbn [snd] in *. apply yields_bind. intros g. case_match.
  - do 2 (apply yields_bind; intros ?). eapply yields_bind_post; [apply probe_meta_cstr|]. intros [rc [[f l] u]] Hl. cbn [fst snd] in *.
    apply yields_bind. intros _. apply yields_ret. intros d' [= <-]. destruct Hd as [Hp _]. by split.
  - apply yields_ret. intros d' [= <-]. destruct Hd as [Hp _]. split; [done|constructor].
Qed.
End Labels.

(** ** How many partitions *)

Lemma shift_length t j buf : length (Sysfs.shift t j buf) = length buf.
Proof. revert buf. induction j as [|j IH]; intros buf; cbn [Sysfs.shift]; [apply length_insert|]. repeat case_match; rewrite ?IH, ?length_insert; done. Qed.
Lemma sort_loop_length n i buf : length (Sysfs.sort_loop i n buf) = length buf.
Proof. revert i buf. induction n as [|n IH]; intros i buf; cbn [Sysfs.sort_loop]; [done|]. case_match; [|done]. by rewrite IH, shift_length. Qed.

Section Few.
Context {W : Type} `{!Lkl W, !LklLaws W, !Host W, !HostLaws W, !Core W, !CoreLaws W} (k : Z).
Notation St := (AnyfsSession * W)%type.

(** sysfs shows at most [k] partitions of a disk. *)
Definition few_parts : Prop := ∀ dn (w : W) h names,
  (sys_opendir (snprintf 128 (bs "/sys/block/" ++ dn)).2 w).1 = Some (h, names) → len (Sysfs.hits dn names) <= k.
Context (Hfew : few_parts) (Hk : 0 <= k).

Lemma walk_few dn : yields (λ r, len r.2 <= k) (Sysfs.anyfs_sysfs_walk (W := W) (Some dn) MAX_PARTS).
Proof.
  intros w r w' E. assert (Hw : wp (Sysfs.anyfs_sysfs_walk (Some dn) MAX_PARTS) (λ r _, len r.2 <= k) w); [|unfold wp in Hw; by rewrite E in Hw].
  clear E r w'. unfold Sysfs.anyfs_sysfs_walk. apply wp_bind, wp_call. destruct (sys_opendir _ w) as [[[h names]|] w1] eqn:E; cbn [fst snd]; [|apply wp_ret; cbn; lia].
  pose proof (Hfew dn w h names ltac:(by rewrite E)) as Hh. apply wp_bind. wp_use Sysfs.wp_walk_loop; [cbn; unfold MAX_PARTS; lia..|].
  intros [got buf] w2 (_ & _ & Hi). cbn [fst snd fmap list_fmap app length] in *. apply wp_bind, wp_call, wp_ret. cbn [snd].
  assert (Hb : len buf <= k) by (apply (f_equal length) in Hi; rewrite length_fmap, length_take in Hi; lia). case_match; [by rewrite sort_loop_length|done].
Qed.

Definition grows {A} (n : nat) (m : M St A) : Prop := ∀ s a s', m s = Some (a, s') → (length (parts s'.1) <= length (parts s.1) + n)%nat.

Lemma grows_ret {A} (a : A) n : grows n (mret a).
Proof. intros s a' s' E. unfold mret, M_ret in E. simplify_eq. lia. Qed.
Lemma grows_bind {A B} i j (m : M St A) (f : A → M St B) : grows i m → (∀ a, grows j (f a)) → grows (i + j) (m ≫= f).
Proof. intros Hm Hf s b s' E. unfold mbind, M_bind in E. destruct (m s) as [[a s1]|] eqn:E1; [|done]. pose proof (Hm _ _ _ E1). pose proof (Hf _ _ _ _ E). lia. Qed.
Lemma grows_bind0 {A B} j (m : M St A) (f : A → M St B) : grows 0 m → (∀ a, grows j (f a)) → grows j (m ≫= f).
Proof. intros. by apply (grows_bind 0). Qed.
Lemma grows_lower {A} (m : M W A) : grows 0 (lower m).
Proof. intros s a s' E. unfold lower in E. destruct (m s.2) as [[??]|]; [|done]. simplify_eq/=. lia. Qed.
Lemma grows_slot i f : grows 0 (upd (upd_slot i f)).
Proof. intros s a s' E. unfold upd, mmod in E. simplify_eq/=. rewrite length_alter. lia. Qed.
Lemma grows_ses_bind {B} j (f : AnyfsSession → M St B) : (∀ s a s', f s.1 s = Some (a, s') → (length (parts s'.1) <= length (parts s.1) + j)%nat) → grows j (ses ≫= f).
Proof. intros Hf s b s' E. unfold mbind, M_bind, ses, mgets in E. by eapply Hf. Qed.

Lemma grows_load_part pt sp : grows 1 (load_part pt sp).
Proof.
  unfold load_part. apply grows_ses_bind. intros s a s'. unfold alloc_slot_locked. destruct (MAX_PARTS <=? _); [unfold mret, M_ret; intros [= _ <-]; lia|].
  unfold mbind at 1, M_bind at 1, upd at 1, mmod at 1. set (d1 := set_parts _ s.1). intros E.
  assert (H1 : length (parts d1) = S (length (parts s.1))) by (unfold d1; cbn; rewrite length_app; cbn; lia).
  eapply (Nat.le_trans _ (length (parts d1) + 0)); [|lia]. clearbody d1. revert E. match goal with |- ?m _ = _ → _ => enough (grows 0 m) as Hg by exact (Hg (d1, s.2) a s') end.
  apply grows_bind0; [case_match; [destruct p; apply grows_slot|apply grows_ret]|intros _]. apply grows_bind0; [apply grows_lower|intros _].
  apply grows_bind0; [apply grows_lower|intros kd]. apply grows_bind0; [apply grows_slot|intros _]. case_match; [|apply grows_ret].
  apply grows_bind0; [apply grows_lower|intros [rc [[f l] u]]]. apply grows_bind0; [apply grows_slot|intros _; apply grows_ret].
Qed.

Lemma grows_load_parts pt l : grows (length l) (load_parts pt l).
Proof.
  induction l as [|sp l IH]; cbn [load_parts length]; [apply grows_ret|]. apply (grows_bind 1); [apply grows_load_part|]. intros [|]; [done|apply grows_ret].
Qed.

Lemma load_top_few : grows (Z.to_nat k) load_top_parts_locked.
Proof.
  unfold load_top_parts_locked. apply grows_ses_bind. intros s a s'. set (d := s.1). unfold mbind at 1, M_bind at 1, lower at 1.
  destruct (Sysfs.anyfs_sysfs_walk (Some (sysfs_name d)) MAX_PARTS s.2) as [[[n sbuf] w1]|] eqn:E; [|done]. pose proof (walk_few _ _ _ _ E) as Hl. cbn [snd] in Hl.
  match goal with |- ?m _ = _ → _ => enough (grows (Z.to_nat k) m) as Hg by exact (Hg (s.1, w1) a s') end.
  case_match; [apply grows_ret|]. apply grows_bind0; [case_match; [apply grows_bind0; [apply grows_lower|intros _; apply grows_lower]|apply grows_ret]|].
  intros pt. rewrite <- (Nat.add_0_r (Z.to_nat k)). apply grows_bind; [|intros _; apply grows_ret]. intros x b y Ey. pose proof (grows_load_parts _ _ _ _ _ Ey) as H2.
  rewrite length_take in H2. lia.
Qed.

Lemma open_few c1 c2 image flags : yields (λ r, ∀ d, r.2 = Some d → len (parts d) <= k) (anyfs_session_open (W := W) c1 c2 image flags).
Proof.
  destruct image as [image|]; [|by apply yields_ret]. unfold anyfs_session_open. apply yields_bind. intros id. case_match; [by apply yields_ret|].
  case_match; [apply yields_bind; intros _; by apply yields_ret|]. apply yields_bind. intros v. case_match.
  { do 2 (apply yields_bind; intros ?). by apply yields_ret. }
  apply (yields_bind_post (λ r, len (parts r.2) <= k)).
  { intros w [a d'] w' E. unfold with_session in E. match type of E with context [?m ?s] => destruct (m s) as [[a1 [d1 w1]]|] eqn:E1; [|done] end. simplify_eq.
    pose proof (load_top_few _ _ _ E1) as Hg. cbn in *. lia. }
  intros [a d] Hd. cbn [snd] in *. apply yields_bind. intros g. case_match.
  - do 3 (apply yields_bind; intros ?). destruct a2 as [rc [[f l] u]]. apply yields_bind. intros _. apply yields_ret. by intros d' [= <-].
  - apply yields_ret. by intros d' [= <-].
Qed.
End Few.

(** ** Which image *)
Section Image.
Context {W : Type} `{!Lkl W, !Host W, !Core W}.
Notation St := (AnyfsSession * W)%type.

(** Session code that leaves the path of the image alone. *)
Definition same_image {A} (m : M St A) : Prop := ∀ s a s', m s = Some (a, s') → image_path s'.1 = image_path s.1.

Lemma same_ret {A} (a : A) : same_image (mret a).
Proof. intros s a' s' E. unfold mret, M_ret in E. by simplify_eq. Qed.
Lemma same_bind {A B} (m : M St A) (f : A → M St B) : same_image m → (∀ a, same_image (f a)) → same_image (m ≫= f).
Proof. intros Hm Hf s b s' E. unfold mbind, M_bind in E. destruct (m s) as [[a s1]|] eqn:E1; [|done]. by rewrite (Hf _ _ _ _ E), (Hm _ _ _ E1). Qed.
Lemma same_lower {A} (m : M W A) : same_image (lower m).
Proof. intros s a s' E. unfold lower in E. destruct (m s.2) as [[??]|]; [|done]. by simplify_eq/=. Qed.
Lemma same_upd f : (∀ d, image_path (f d) = image_path d) → same_image (upd f).
Proof. intros Hf s a s' E. unfold upd, mmod in E. simplify_eq/=. apply Hf. Qed.
Lemma same_ses_bind {B} (f : AnyfsSession → M St B) :
  (∀ s a s', f s.1 s = Some (a, s') → image_path s'.1 = image_path s.1) → same_image (ses ≫= f).
Proof. intros Hf s b s' E. unfold mbind, M_bind, ses, mgets in E. by eapply Hf. Qed.

Lemma same_load_part pt sp : same_image (load_part pt sp).
Proof.
  unfold load_part. apply same_ses_bind. intros s a s'. unfold alloc_slot_locked. destruct (MAX_PARTS <=? _); [unfold mret, M_ret; by intros [= _ <-]|].
  unfold mbind at 1, M_bind at 1, upd at 1, mmod at 1. set (d1 := set_parts _ s.1). change (image_path s.1) with (image_path d1). clearbody d1.
  match goal with |- ?m _ = _ → _ => enough (same_image m) as Hg by exact (Hg (d1, s.2) a s') end.
  apply same_bind; [case_match; [destruct p; by apply same_upd|apply same_ret]|intros _]. apply same_bind; [apply same_lower|intros _].
  apply same_bind; [apply same_lower|intros kd]. apply same_bind; [by apply same_upd|intros _]. case_match; [|apply same_ret].
  apply same_bind; [apply same_lower|intros [rc [[f l] u]]]. apply same_bind; [by apply same_upd|intros _; apply same_ret].
Qed.

Lemma same_load_top : same_image load_top_parts_locked.
Proof.
  assert (Hl : ∀ pt l, same_image (load_parts pt l)).
  { intros pt l. induction l as [|sp l IH]; cbn [load_parts]; [apply same_ret|]. apply same_bind; [apply same_load_part|]. intros [|]; [done|apply same_ret]. }
  unfold load_top_parts_locked. apply same_ses_bind. intros s a s'.
  match goal with |- ?m _ = _ → _ => enough (same_image m) as Hg by exact (Hg s a s') end.
  apply same_bind; [apply same_lower|]. intros [n sbuf]. case_match; [apply same_ret|].
  apply same_bind; [case_match; [apply same_bind; [apply same_lower|intros _; apply same_lower]|apply same_ret]|]. intros pt.
  apply same_bind; [apply Hl|intros _; apply same_ret].
Qed.

(** A session knows the image it was opened from. *)
Lemma open_image c1 c2 image flags :
  yields (λ r, ∀ d, r.2 = Some d → image_path d = strncpy 512 image) (anyfs_session_open (W := W) c1 c2 (Some image) flags).
Proof.
  unfold anyfs_session_open. apply yields_bind. intros id. case_match; [by apply yields_ret|].
  case_match; [apply yields_bind; intros _; by apply yields_ret|]. apply yields_bind. intros v. case_match.
  { do 2 (apply yields_bind; intros ?). by apply yields_ret. }
  apply (yields_bind_post (λ r, image_path r.2 = strncpy 512 image)).
  { intros w [a d'] w' E. unfold with_session in E. match type of E with context [?m ?s] => destruct (m s) as [[a1 [d1 w1]]|] eqn:E1; [|done] end. simplify_eq.
    exact (same_load_top _ _ _ E1). }
  intros [a d] Hd. cbn [snd] in *. apply yields_bind. intros g. case_match.
  - do 3 (apply yields_bind; intros ?). destruct a2 as [rc [[f l] u]]. apply yields_bind. intros _. apply yields_ret. by intros d' [= <-].
  - apply yields_ret. by intros d' [= <-].
Qed.
End Image.
End Labels.
