(* ===== verification/LsPart.v ===== *)
(** * LsPart

    src/lspart/lspart_main.c: the tool that lists the partitions of images.
    It opens every image it can, prints one table and closes them. *)
From S2P Require Import Prelude CLib Strbuf Legacy Lkl Path Probe Sysfs Mount Raw Session SessionSpec SessionOpen DiskSet Format Labels.
Import CLib Strbuf Probe Mount Session SessionSpec SessionOpen DiskSet Format Labels.

Module LsPart.

(** ** Arguments *)

Definition MAX_IMAGES : Z := 16.
(** [json], [images], whether nbd_path is set, the encoding. *)
Record args := mk_args { json : bool; images : list bytes; nbd : bool; enc : Z }.
Definition args0 : args := mk_args false [] false (-1).

Definition add_image (i : bytes) (a : args) : args + Z :=
  if MAX_IMAGES <=? len (images a) then inr 2 else inl (mk_args (json a) (images a ++ [i]) (nbd a) (enc a)).

Section Args.
Context (getenv : bytes → option bytes).

Definition set_encoding (v : option bytes) (a : args) : args + Z :=
  let e := Legacy.anyfs_legacy_parse getenv v in
  if e <? 0 then inr 2 else inl (mk_args (json a) (images a) (nbd a) (Legacy.anyfs_legacy_set e)).

(** The loop over argv[1..]: the arguments, or the exit status. *)
Fixpoint parse_loop (argv : list bytes) (a : args) : args + Z :=
  match argv with
  | [] => inl a
  | x :: rest =>
      if streq x (bs "--help") || streq x (bs "-h") then inr 0
      else if streq x (bs "--json") then parse_loop rest (mk_args true (images a) (nbd a) (enc a))
      else if starts_with (bs "--legacy-encoding=") x then
        match set_encoding (Some (drop 18 x)) a with inl a => parse_loop rest a | inr c => inr c end
      else if streq x (bs "--legacy-encoding") then
        match rest with
        | [] => match set_encoding None a with inl a => inl a | inr c => inr c end
        | v :: rest => match set_encoding (Some v) a with inl a => parse_loop rest a | inr c => inr c end
        end
      else if streq x (bs "--nbd-fd") || streq x (bs "--nbd-port") then
        if nbd a then inr 2
        else
          match rest with
          | [] => inr 2
          | v :: rest =>
              let kind := if bool_decide (x !! 6%nat = Some 102) then bs "nbd-fd" else bs "nbd-port" in
              match add_image (snprintf 32 (kind ++ bs ":" ++ v)).2 (mk_args (json a) (images a) true (enc a)) with
              | inl a => parse_loop rest a
              | inr c => inr c
              end
          end
      else if match x with c :: _ :: _ => c =? 45 | _ => false end then inr 2
      else match add_image x a with inl a => parse_loop rest a | inr c => inr c end
  end.
Definition parse_args (argv : list bytes) : args + Z :=
  match parse_loop argv args0 with
  | inl a => if len (images a) =? 0 then inr 2 else inl a
  | inr c => inr c
  end.
End Args.

(** ** The tool *)
Section Code.
Context {W : Type} `{!Lkl W, !Host W, !Core W} (calloc : bool).
Context (realloc_ok : Z → bool) (getenv : bytes → option bytes) (iconv_open : bytes → bool)
  (iconv : bytes → bytes → Z → option (bytes * Z)) (iconv_flush : bytes → bytes → Z → option bytes).

(** An image that does not open is reported and left out. *)
Fixpoint open_loop (images : list bytes) (disks : list AnyfsSession) (rc : Z) : M W (list AnyfsSession * Z) :=
  match images with
  | [] => mret (disks, rc)
  | i :: rest =>
      r ← anyfs_session_open calloc calloc (Some (img_clean i)) Raw.ANYFS_SESSION_READONLY;
      match (if r.1 <? 0 then None else r.2) with
      | None => open_loop rest disks 1
      | Some d => open_loop rest (disks ++ [d]) rc
      end
  end.

Fixpoint print_loop (disks : list AnyfsSession) (disk_idx : Z) (st : AnyfsStrbuf * Z) : M W (AnyfsStrbuf * Z) :=
  match disks with
  | [] => mret st
  | d :: rest => st ← anyfs_format_disk realloc_ok getenv iconv_open iconv iconv_flush (Some d) disk_idx st; print_loop rest (disk_idx + 1) st
  end.

(** The exit status and what was written to stdout. *)
Definition list_images (a : args) : M W (Z * bytes) :=
  o ← open_loop (images a) [] 0;
  sb ← mopt (anyfs_format_header realloc_ok anyfs_strbuf_init);
  st ← print_loop o.1 0 (sb, enc a);
  let '(rc, out) := if err st.1 then (1, []) else (o.2, take (Z.to_nat (sb_len st.1)) (buf st.1)) in
  _ ← mfor o.1 close_session;
  mret (rc, out).

(** [boot] is anyfs_kernel_init (in Kernel). *)
Definition main (boot : M W Z) (argv : list bytes) : M W (Z * bytes) :=
  match parse_args getenv argv with
  | inr c => mret (c, [])
  | inl a =>
      r ← boot;
      if r <? 0 then mret (1, []) else list_images a
  end.
End Code.

(** ** Specification *)

Lemma add_image_le i a b : add_image i a = inl b → len (images b) <= MAX_IMAGES ∧ len (images a) <= len (images b).
Proof. unfold add_image. destruct (Z.leb_spec MAX_IMAGES (len (images a))); intros [= <-]. cbn. rewrite length_app. cbn. lia. Qed.

Lemma parse_loop_le getenv argv a b : parse_loop getenv argv a = inl b → len (images a) <= MAX_IMAGES → len (images b) <= MAX_IMAGES.
Proof.
  assert (He : ∀ v a a', set_encoding getenv v a = inl a' → images a' = images a).
  { intros v x x'. unfold set_encoding. case_match; [done|]. by intros [= <-]. }
  remember (length argv) as n eqn:En. revert argv En a. induction n as [n IH] using lt_wf_ind. intros argv -> a. destruct argv as [|x rest]; cbn [parse_loop].
  { by intros [= <-]. }
  assert (IH' : ∀ l a, (length l <= length rest)%nat → parse_loop getenv l a = inl b → len (images a) <= MAX_IMAGES → len (images b) <= MAX_IMAGES)
    by (intros l a' Hl; eapply (IH (length l)); [cbn; lia|done]).
  case_if; [done|]. case_if; [intros H Ha; by eapply IH'; [|exact H|]|]. case_if.
  { destruct (set_encoding getenv _ a) eqn:Ee; [|done]. intros H Ha. eapply IH'; [|exact H|]; [done|]. by rewrite (He _ _ _ Ee). }
  case_if.
  { destruct rest as [|v rest]; destruct (set_encoding getenv _ a) eqn:Ee; [intros [= <-]; by rewrite (He _ _ _ Ee)|done| |done].
    intros H Ha. eapply IH'; [|exact H|]; [cbn; lia|]. by rewrite (He _ _ _ Ee). }
  case_if.
  { case_if; [done|]. destruct rest as [|v rest]; [done|]. destruct (add_image _ _) eqn:Ee; [|done]. apply add_image_le in Ee as [Ee _]. intros H _. eapply IH'; [|exact H|done]. cbn. lia. }
  match goal with |- (if ?b then _ else _) = _ → _ => destruct b; [done|] end.
  destruct (add_image x a) eqn:Ee; [|done]. apply add_image_le in Ee as [Ee _]. intros H _. by eapply IH'; [|exact H|].
Qed.

(** At least one image and at most 16 are accepted. *)
Lemma parse_args_count getenv argv a : parse_args getenv argv = inl a → 0 < len (images a) <= MAX_IMAGES.
Proof.
  unfold parse_args. destruct (parse_loop _ _ _) as [b|] eqn:E; [|done]. apply parse_loop_le in E; [|done]. destruct (Z.eqb_spec (len (images b)) 0); [done|].
  intros [= <-]. lia.
Qed.

Section Spec.
Context {W : Type} `{!Lkl W, !LklLaws W, !Host W, !HostLaws W, !Core W, !CoreLaws W}.
Context (realloc_ok : Z → bool) (getenv : bytes → option bytes) (iconv_open : bytes → bool)
  (iconv : bytes → bytes → Z → option (bytes * Z)) (iconv_flush : bytes → bytes → Z → option bytes).
Hypothesis Halloc : ∀ n, realloc_ok n = true.
Hypothesis Hiconv : ∀ cs i ol o il, iconv cs i ol = Some (o, il) → len o <= ol.
Hypothesis Hflush : ∀ cs i ol o, iconv_flush cs i ol = Some o → len o <= ol.
Hypothesis Hsane : sysfs_sane (W := W).
Hypothesis Htame : tame_disks (W := W).
Hypothesis Humount : umount_works (W := W).
Hypothesis Hblkid : blkid_bytes (W := W).
Implicit Types (ds : list AnyfsSession) (w : W).
Abbreviation shown := (shown getenv iconv_open iconv iconv_flush).
Abbreviation disk_rows := (disk_rows getenv iconv_open iconv iconv_flush).

(** Sessions that were just opened. *)
Definition fresh_set ds w : Prop := SetInv ds w ∧ Forall (λ d, labels_ok d ∧ ∀ path, ¬ owned d path) ds.

(** What became of each image of the command line: a session that was opened
    read-only from that image, or a failure. *)
Definition opened_from (imgs : list bytes) (os : list (option AnyfsSession)) : Prop :=
  Forall2 (λ i o, from_option (λ d, image_path d = strncpy 512 (img_clean i) ∧ open_flags d = Raw.ANYFS_SESSION_READONLY) True o) imgs os.
Definition failed (o : option AnyfsSession) : bool := match o with None => true | Some _ => false end.

Lemma wp_open_loop calloc imgs ds rc w : fresh_set ds w → rc = 0 ∨ rc = 1 →
  wp (open_loop calloc imgs ds rc) (λ r w', mnts w' = mnts w ∧ ∃ os, opened_from imgs os ∧ let new := omap id os in r.1 = ds ++ new ∧ fresh_set r.1 w' ∧
    list_to_set (disk_id <$> new) ## v_dsk (view w) ∧ v_dsk (view w') = list_to_set (disk_id <$> new) ∪ v_dsk (view w) ∧
    r.2 = (if existsb failed os then 1 else rc)) w.
Proof.
  revert ds rc w. induction imgs as [|i imgs IH]; intros ds rc w [HS HF] Hrc; cbn [open_loop].
  { apply wp_ret. split; [done|]. exists []. split; [constructor|]. cbn. rewrite app_nil_r. split_and!; [done..|set_solver|set_solver|done]. }
  pose proof (open_labels Hblkid calloc calloc (Some (img_clean i)) Raw.ANYFS_SESSION_READONLY w) as Hlab.
  pose proof (open_image calloc calloc (img_clean i) Raw.ANYFS_SESSION_READONLY w) as Himg.
  destruct (wp_elim _ _ _ (wp_set_open calloc (Some (img_clean i)) Raw.ANYFS_SESSION_READONLY ds w Hsane Htame HS)) as (r & w1 & E & Hm & Hr).
  apply wp_bind. eapply wp_intro; [exact E|]. destruct Hr as [[-> Ev]|(d & -> & HS1 & Hfl & Hno & Hn & HD)].
  - change (-1 <? 0) with true. cbn iota. wp_use (IH ds 1); [unfold fresh_set, SetInv, mnts in *; by rewrite Ev|by right|].
    intros r w2 (Hm2 & os & Hos & E2 & HF2 & Hdis & HD2 & ->). split; [congruence|]. exists (None :: os). rewrite Ev in *. split; [by constructor|].
    cbn [omap list_omap id existsb failed orb]. split_and!; [done..|]. by destruct (existsb failed os).
  - change (0 <? 0) with false. cbn iota. wp_use (IH (ds ++ [d]) rc); [|done|].
    + split; [by rewrite (Permutation_app_comm ds [d])|]. apply Forall_app. split; [done|]. apply Forall_singleton. split; [|done]. by eapply Hlab.
    + intros r w2 (Hm2 & os & Hos & E2 & HF2 & Hdis & HD2 & ->). split; [congruence|]. exists (Some d :: os).
      split; [constructor; [split; [by eapply Himg|exact Hfl]|done]|]. rewrite <- app_assoc in E2. cbn [app omap list_omap id existsb failed orb] in *.
      change (id (Some d)) with (Some d). cbn iota. rewrite fmap_cons, list_to_set_cons, HD in *. split_and!; [done..|clear - Hdis Hn; set_solver|rewrite HD2; clear; set_solver|done].
Qed.

(** The rows of the disks from number [i] on. *)
Fixpoint tables (g i : Z) ds (rows : list bytes) : Prop :=
  match ds with
  | [] => rows = []
  | d :: ds => ∃ r1 r2, rows = r1 ++ r2 ∧ disk_rows d i g r1 ∧ tables g (i + 1) ds r2
  end.

Lemma part_row_ext g g' i p : (∀ l, shown g' l = shown g l) → part_row getenv iconv_open iconv iconv_flush i g' p = part_row getenv iconv_open iconv iconv_flush i g p.
Proof. intros H. unfold part_row. by rewrite H. Qed.
Lemma disk_rows_ext g g' d i rows : (∀ l, shown g' l = shown g l) → disk_rows d i g' rows → disk_rows d i g rows.
Proof.
  intros H [H1 H2]. split.
  - intros Hl. rewrite (H1 Hl). apply list_fmap_ext. intros k p _. by apply part_row_ext.
  - intros Hl. destruct (H2 Hl) as [|[size ->]]; [by left|right]. exists size. by rewrite H.
Qed.
Lemma tables_ext g g' i ds rows : (∀ l, shown g' l = shown g l) → tables g' i ds rows → tables g i ds rows.
Proof.
  intros H. revert i rows. induction ds as [|d ds IH]; intros i rows; [done|]. intros (r1 & r2 & -> & H1 & H2). exists r1, r2. split_and!; [done|by eapply disk_rows_ext|by apply IH].
Qed.

Lemma wp_print_loop ds i sb g t w : Forall (λ d, table_ok d ∧ labels_ok d) ds → 0 <= i → i + len ds <= 16 → holds sb t → len t < 2 ^ 30 + i * 2 ^ 20 →
  wp (print_loop realloc_ok getenv iconv_open iconv iconv_flush ds i (sb, g)) (λ r w', view w' = view w ∧
    ∃ rows, holds r.1 (t ++ mjoin rows) ∧ tables g i ds rows) w.
Proof.
  intros HF. revert i sb g t w. induction HF as [|d ds [Ht Hl] _ IH]; intros i sb g t w Hi Hn Hh Hs; cbn [print_loop length] in *.
  { apply wp_ret. split; [done|]. exists []. by rewrite app_nil_r. }
  apply wp_bind. wp_use wp_format_disk; [done..|lia|done|lia|]. intros [sb1 g1] w1 (Hv & Hg & rows & Hh1 & Hrows & Hlen). cbn [fst snd] in *.
  wp_use (IH (i + 1) sb1 g1 (t ++ mjoin rows)); [lia|lia|done|rewrite length_app; lia|]. intros r w2 (Hv2 & rows2 & Hh2 & Ht2). split; [congruence|].
  exists (rows ++ rows2). rewrite join_app, app_assoc. split; [done|]. exists rows, rows2. split_and!; [done..|by eapply tables_ext].
Qed.

Definition header : bytes := row (bs "PATH") (bs "SIZE") (bs "KIND") (bs "FSTYPE") (bs "LABEL") (bs "UUID").

Lemma wp_list_images calloc a w : len (images a) <= MAX_IMAGES →
  wp (list_images calloc realloc_ok getenv iconv_open iconv iconv_flush a) (λ r w', mnts w' = mnts w ∧ v_dsk (view w') = v_dsk (view w) ∧
    ∃ os rows, opened_from (images a) os ∧ r.2 = header ++ mjoin rows ∧ tables (enc a) 0 (omap id os) rows ∧
      r.1 = (if existsb failed os then 1 else 0)) w.
Proof.
  intros Hmax. unfold list_images. apply wp_bind. wp_use wp_open_loop; [split; [apply set_nil|constructor]|by left|].
  intros [ds rc] w1 (Hm1 & os & Hos & E & [HS HF] & Hdis & HD1 & Hrc). cbn [fst snd app] in *. rewrite <- E in *.
  assert (Hl : (length ds <= length (images a))%nat).
  { rewrite E, (Forall2_length _ _ _ Hos). clear. induction os as [|[d|] os IH]; cbn; lia. }
  destruct (printf_ok realloc_ok anyfs_strbuf_init [] header) as (sb & Esb & Hh & _); [split; try done; by left|vm_compute; done|done|].
  apply wp_bind. eapply wp_opt; [exact Esb|]. cbn [app] in Hh. apply wp_bind.
  wp_use (wp_print_loop ds 0 sb (enc a) header); [|lia|unfold MAX_IMAGES in *; lia|done|vm_compute; done|].
  { apply Forall_forall. intros d Hd. destruct (proj1 (Forall_forall _ _) HF d Hd) as [Hlab _]. destruct (proj1 (Forall_forall _ _) (proj1 HS) d Hd) as [Hi _].
    split; [apply Hi|done]. }
  intros [sb1 g1] w2 (Hv2 & rows & Hh1 & Hrows). cbn [fst snd] in *. rewrite (h_err _ _ Hh1). apply wp_bind.
  assert (HS2 : SetInv (ds ++ []) w2) by (rewrite app_nil_r; unfold SetInv, mnts in *; by rewrite Hv2).
  wp_use (wp_close_all ds []); [done..|]. intros ? w3 [_ Hc]. apply wp_ret. split_and!.
  - assert (mnts w2 = mnts w1) as E2 by (unfold mnts; by rewrite Hv2). rewrite <- Hm1, <- E2. eapply closed_quiet; [done|].
    eapply Forall_impl; [exact HF|]. by intros d [_ ?].
  - destruct Hc as [-> _]. rewrite Hv2, HD1. set_solver.
  - exists os, rows. rewrite <- E. split; [done|]. split; [|split_and!; [done|by rewrite Hrc]]. cbn [snd]. rewrite (h_len _ _ Hh1), Nat2Z.id.
    destruct (h_mem _ _ Hh1) as [[-> ->]|[r ->]]; [by rewrite take_nil|by rewrite take_app_length].
Qed.
End Spec.

(** ** Properties *)


Lemma rig_blkid : blkid_bytes (W := rig).
Proof.
  intros n w v. cbn. destruct (Toy.t_blkid w !! n) as [x|]; [|done]. intros [= <-]. apply Forall_fmap, Forall_true. intros c. cbn. apply Z.mod_pos_bound. lia.
Qed.

Definition argv0 : list bytes := [bs "--json"; bs "a.img?x"; bs "--legacy-encoding=off"; bs "b.img"; bs "--nbd-fd"; bs "3"].
Definition out0 : option (Z * bytes) :=
  fst <$> main (W := rig) true (λ _, true) (λ _, None) (λ _, false) no_iconv no_flush (mret 0) argv0 rig0.


(** Two of the three images open on the bus of [rig]. *)
Example lspart_toy : (λ r, (r.1, take 39 (drop 72 r.2))) <$> out0 = Some (1, bs "disk0/p1           0 B        FS      ?").
Proof. vm_compute. reflexivity. Qed.

(** The name before a query is cut at 511 bytes, and an NBD address at 31. *)
Lemma nbd_address_cut : (λ a, images a) <$> (match parse_args (λ _, None) [bs "--nbd-port"; bs "1234567890123456789012345"] with inl a => Some a | inr _ => None end) =
  Some [bs "nbd-port:1234567890123456789012"].
Proof. vm_compute. reflexivity. Qed.
End LsPart.
