(* ===== verification/Fuse.v ===== *)
(** * Fuse

    src/fuse/fuse_main.c: the FUSE frontend.  A request names a path; in mode
    A it is appended to the one mount point, in mode B it is parsed into a
    disk, a chain of partitions and an inner path, the chain is entered
    through the session layer, and the kernel is called on the mount point
    followed by the inner path.  The file calls of the kernel are an
    interface: one operation that takes the call as a value. *)
From S2P Require Import Prelude CLib Strbuf Legacy Lkl Path Probe Sysfs Mount Session SessionSpec SessionOpen Format.
Import CLib Strbuf Probe Mount Session SessionSpec Format.

Module Fuse.

(** errno of the host (Linux) *)
Definition ENOENT : Z := 2.
Definition EIO : Z := 5.
Definition EINVAL : Z := 22.

(** ** File calls of the kernel *)

(** struct lkl_stat and the struct stat of the host have the same members. *)
Record stat := mk_stat {
  st_dev : Z; st_ino : Z; st_mode : Z; st_nlink : Z; st_uid : Z; st_gid : Z; st_rdev : Z; st_size : Z;
  st_blksize : Z; st_blocks : Z; st_atim : Z * Z; st_mtim : Z * Z; st_ctim : Z * Z }.
Definition zero_stat : stat := mk_stat 0 0 0 0 0 0 0 0 0 0 (0, 0) (0, 0) (0, 0).

Record dirent := mk_dirent { d_ino : Z; d_type : Z; d_name : bytes }.

Inductive syscall :=
  | Lstat (path : bytes) | Fstat (fd : Z) | Readlink (path : bytes) (n : Z)
  | Mknod (path : bytes) (mode dev : Z) | Mkdir (path : bytes) (mode : Z) | Unlink (path : bytes) | Rmdir (path : bytes)
  | Symlink (target path : bytes) | Renameat2 (old new : bytes) (flags : Z) | Link (old new : bytes)
  | Fchmod (fd mode : Z) | Fchmodat (path : bytes) (mode : Z)
  | Fchown (fd uid gid : Z) | Fchownat (path : bytes) (uid gid flags : Z)
  | Ftruncate (fd off : Z) | Truncate (path : bytes) (off : Z)
  | Open (path : bytes) (flags mode : Z) | Close (fd : Z)
  | Pread (fd n off : Z) | Pwrite (fd : Z) (b : bytes) (off : Z) | Statfs (path : bytes)
  | Fsync (fd : Z) | Fdatasync (fd : Z)
  | Setxattr (path name val : bytes) (flags : Z) | Getxattr (path name : bytes) (n : Z)
  | Listxattr (path : bytes) (n : Z) | Removexattr (path name : bytes)
  | Opendir (path : bytes) | Readdir (dir : Z) | Closedir (dir : Z) | FsyncDir (dir : Z) (datasync : bool)
  | Access (path : bytes) (mode : Z) | Utimensat (fd : Z) (path : option bytes) (ts : (Z * Z) * (Z * Z)) (flags : Z)
  | Fallocate (fd mode off n : Z) | CopyFileRange (fd off fd' off' n flags : Z) | Lseek (fd off whence : Z).

(** The value returned and what the call stores: a buffer, a stat, the file
    system's numbers, the entries left in a directory. *)
Record reply := mk_reply { rc : Z; data : bytes; stats : stat; nums : list Z; entries : list dirent }.

Class FsOps (W : Type) := { fs_call : syscall → kcall W reply }.

(** The paths a call names, the text of a symbolic link apart. *)
Definition paths_of (c : syscall) : list bytes :=
  match c with
  | Lstat p | Readlink p _ | Mknod p _ _ | Mkdir p _ | Unlink p | Rmdir p | Symlink _ p | Fchmodat p _
  | Fchownat p _ _ _ | Truncate p _ | Open p _ _ | Statfs p | Setxattr p _ _ _ | Getxattr p _ _ | Listxattr p _
  | Removexattr p _ | Opendir p | Access p _ | Utimensat _ (Some p) _ _ => [p]
  | Renameat2 a b _ | Link a b => [a; b]
  | _ => []
  end.

(** ** Paths *)

Inductive PathKind := IN_PARTITION | SYNTH_ROOT | PART_NODE | SYNTH_FILE | BAD_PATH.

Record FusePath := mk_fp {
  disk_idx : Z; dsl : Path.AnyfsPath; dsl_inited : bool; inner : bytes;
  leaf_slot : Z; leaf_is_fs : bool; lkl_mount : bytes }.
Definition zero_fp : FusePath := mk_fp (-1) Path.zero_path false [] (-1) false [].

Definition is_synth_name (p : bytes) : bool := streq p (bs ".partitions") || streq p (bs "partitions.txt").

(** A segment of the chain: p<digits>, then nothing or a query. *)
Fixpoint skip_digits (q : bytes) : bytes :=
  match q with
  | c :: q' => if isdigit c then skip_digits q' else q
  | [] => []
  end.
Definition seg_ok (seg : bytes) : bool :=
  match seg with
  | c :: q =>
      (c =? 112) &&
      match q with
      | d :: _ => isdigit d && match skip_digits q with [] => true | x :: _ => x =? 63 end
      | [] => false
      end
  | [] => false
  end.

(** The loop over the segments: [chain_end] as a pointer, NULL or into the
    text. *)
Fixpoint chain_loop (fuel : nat) (chain_end : option bytes) : option (option bytes) :=
  match chain_end with
  | None | Some [] => Some chain_end
  | Some s =>
      match fuel with
      | O => None
      | S f =>
          let '(seg, slash) := match strchr 47 s with Some (a, b) => (a, Some b) | None => (s, None) end in
          if seg_ok seg then chain_loop f slash else Some chain_end
      end
  end.

Definition with_disk (i : Z) (fp : FusePath) : FusePath :=
  mk_fp i (dsl fp) (dsl_inited fp) (inner fp) (leaf_slot fp) (leaf_is_fs fp) (lkl_mount fp).

(** What follows the optional disk prefix, with [fp] as filled so far. *)
Definition parse_chain (strdup : bool) (p : bytes) (fp : FusePath) : option (PathKind * FusePath) :=
  match p with
  | [] => Some (BAD_PATH, fp)
  | c :: _ =>
      if negb (c =? 112) then Some (BAD_PATH, fp) else
      let fp := if Fuse.disk_idx fp <? 0 then with_disk 0 fp else fp in
      ce ← chain_loop (S (length p)) (Some p);
      let chain_len := match ce with None => len p | Some e => u64 (len p - len e - 1) end in
      if (chain_len =? 0) || (512 <=? chain_len) then Some (BAD_PATH, fp)
      else
        r ← Path.anyfs_path_parse strdup (Some (take (Z.to_nat chain_len) p)) Path.zero_path;
        let '(rc, d) := r in
        if rc <? 0 then Some (BAD_PATH, fp)
        else
          let fp inn := mk_fp (disk_idx fp) d true inn (-1) false [] in
          match ce with
          | Some (c :: e) => Some (IN_PARTITION, fp (47 :: (snprintf 4095 (c :: e)).2))
          | _ => Some (PART_NODE, fp [])
          end
  end.

Definition parse_fuse_path (strdup : bool) (g_ndisks : Z) (fuse_path : bytes) : option (PathKind * FusePath) :=
  let p := match fuse_path with c :: p' => if c =? 47 then p' else fuse_path | [] => [] end in
  match p with
  | [] => Some (SYNTH_ROOT, zero_fp)
  | _ =>
      if is_synth_name p then Some (SYNTH_FILE, zero_fp)
      else if starts_with (bs "disk") p && match p !! 4%nat with Some c => isdigit c | None => false end then
        let '(v, end_) := strtol (drop 4 p) in
        match end_ with
        | [] => if (v <? 0) || (g_ndisks <=? v) then Some (BAD_PATH, zero_fp) else Some (SYNTH_ROOT, with_disk (i32 v) zero_fp)
        | e :: p' =>
            if e =? 47 then
              if (v <? 0) || (g_ndisks <=? v) then Some (BAD_PATH, zero_fp)
              else if is_synth_name p' then Some (SYNTH_FILE, with_disk (i32 v) zero_fp)
              else parse_chain strdup p' (with_disk (i32 v) zero_fp)
            else parse_chain strdup p zero_fp
        end
      else if 1 <? g_ndisks then Some (BAD_PATH, zero_fp)
      else parse_chain strdup p zero_fp
  end.

(** ** State *)

Definition MAX_PARTS_PER_DISK : Z := 64.
Definition LKL_PATH_BUF : Z := 4096.

(** g_disks (the sessions and the cached mount paths), g_mode_a,
    g_mount_point, g_enter_flags and the encoding of src/core/anyfs_legacy.c.
    [calls] is the log of the file calls made, which no code reads. *)
Record FG := mk_fg {
  sessions : list AnyfsSession; cache : list (list bytes);
  g_mode_a : bool; g_mount_point : bytes; g_enter_flags : Z; g_enc : Z; calls : list syscall }.

Definition set_sessions l (g : FG) : FG :=
  mk_fg l (cache g) (g_mode_a g) (g_mount_point g) (g_enter_flags g) (g_enc g) (calls g).
Definition set_cached c (g : FG) : FG :=
  mk_fg (sessions g) c (g_mode_a g) (g_mount_point g) (g_enter_flags g) (g_enc g) (calls g).
Definition set_encoding e (g : FG) : FG :=
  mk_fg (sessions g) (cache g) (g_mode_a g) (g_mount_point g) (g_enter_flags g) e (calls g).
Definition set_mode_a (g : FG) : FG :=
  mk_fg (sessions g) (cache g) true (g_mount_point g) (g_enter_flags g) (g_enc g) (calls g).
Definition set_mount_point p (g : FG) : FG :=
  mk_fg (sessions g) (cache g) (g_mode_a g) p (g_enter_flags g) (g_enc g) (calls g).
Definition log_call c (g : FG) : FG :=
  mk_fg (sessions g) (cache g) (g_mode_a g) (g_mount_point g) (g_enter_flags g) (g_enc g) (calls g ++ [c]).

(** ** Arguments *)

(** cfg.image and g_extra_images. *)
Definition ANYFS_MAX_DISKS : Z := 16.
Definition images := (option bytes * list bytes)%type.
(** The case FUSE_OPT_KEY_NONOPT. *)
Definition anyfs_fuse_opt_proc (st : images) (arg : bytes) : images :=
  match st.1 with
  | None => (Some arg, st.2)
  | Some _ => if len st.2 <? ANYFS_MAX_DISKS - 1 then (st.1, st.2 ++ [arg]) else st
  end.
(** main drops the mount point when it is the last one stored. *)
Definition drop_mountpoint (st : images) (mountpoint : bytes) : images :=
  match last st.2 with
  | Some m => if streq m mountpoint then (st.1, removelast st.2) else st
  | None => st
  end.
Definition all_images (st : images) : list bytes := match st.1 with Some i => i :: st.2 | None => st.2 end.

Section Code.
Context {W : Type} `{!Lkl W, !Host W, !Core W, !FsOps W} (creds : Creds) (strdup : bool).
Context (realloc_ok : Z → bool) (getenv : bytes → option bytes) (iconv_open : bytes → bool)
  (iconv : bytes → bytes → Z → option (bytes * Z)) (iconv_flush : bytes → bytes → Z → option bytes).
Notation St := (FG * W)%type.

Definition sys (c : syscall) : M St reply :=
  _ ← mmod (λ s, (log_call c s.1, s.2)); lower (call (fs_call c)).
Definition sys_rc (c : syscall) : M St Z := r ← sys c; mret (rc r).

(** Session code on g_disks[i].disk. *)
Definition on_session {A} (i : Z) (m : M (AnyfsSession * W) A) : M St A := λ s,
  if i <? 0 then None
  else match sessions s.1 !! Z.to_nat i with
       | None => None
       | Some d =>
           match m (d, s.2) with
           | Some (a, (d', w')) =>
               Some (a, (set_sessions (<[Z.to_nat i := d']> (sessions s.1)) s.1, w'))
           | None => None
           end
       end.

(** g_disks[i].parts[pn - 1].lkl_path = path *)
Definition set_cache (i pn : Z) (path : bytes) : M St () :=
  mmod (λ s, (set_cached (alter (λ l, <[Z.to_nat (pn - 1) := path]> l) (Z.to_nat i) (cache s.1)) s.1, s.2)).

Definition parse_path (path : bytes) : M St (PathKind * FusePath) :=
  n ← mgets (λ s, len (sessions s.1));
  mopt (parse_fuse_path strdup n path).

Definition resolve_walk (fp : FusePath) : M St (Z * FusePath) :=
  n ← mgets (λ s, len (sessions s.1));
  if (disk_idx fp <? 0) || (n <=? disk_idx fp) then mret (- ENOENT, fp)
  else if negb (dsl_inited fp) then mret (- ENOENT, fp)
  else
    flags ← mgets (λ s, g_enter_flags s.1);
    r ← on_session (disk_idx fp) (anyfs_session_walk creds (Path.comp (dsl fp)) flags);
    let '(rc, leaf, lkl_path) := r in
    if rc <? 0 then mret (- EIO, fp)
    else
      let is_fs := negb (len lkl_path =? 0) in
      let fp' := mk_fp (disk_idx fp) (dsl fp) (dsl_inited fp) (inner fp) leaf is_fs (snprintf 64 lkl_path).2 in
      _ ← match Path.comp (dsl fp) with
          | [c] =>
              let pn := Path.p c in
              if is_fs && ((0 <? pn) && (pn <=? MAX_PARTS_PER_DISK))
              then set_cache (disk_idx fp) pn (snprintf ANYFS_LKL_PATH_MAX lkl_path).2 else mret ()
          | _ => mret ()
          end;
      mret (0, fp').

(** The value returned and [out]. *)
Definition fuse_path_to_lkl (fuse_path : bytes) (out_len : Z) : M St (Z * bytes) :=
  s ← mget;
  if g_mode_a s.1 then
    let p := match fuse_path with c :: p' => if c =? 47 then p' else fuse_path | [] => [] end in
    mret (0, (snprintf out_len (g_mount_point s.1 ++ 47 :: p)).2)
  else
    k ← parse_path fuse_path;
    match k.1 with
    | IN_PARTITION =>
        r ← resolve_walk k.2;
        if (r.1 =? 0) && leaf_is_fs r.2 then mret (0, (snprintf out_len (lkl_mount r.2 ++ inner r.2)).2)
        else mret (- EIO, [])
    | _ => mret (- ENOENT, [])
    end.

(** The prologue of the handlers that need a translated path. *)
Definition with_path (path : bytes) (k : bytes → M St Z) : M St Z :=
  r ← fuse_path_to_lkl path LKL_PATH_BUF;
  if r.1 <? 0 then mret r.1 else k r.2.

(** ** The synthetic files *)

Fixpoint format_disks (idxs : list nat) (st : AnyfsStrbuf * Z) : M St (AnyfsStrbuf * Z) :=
  match idxs with
  | [] => mret st
  | i :: rest =>
      s ← mget;
      st' ← lower (anyfs_format_disk realloc_ok getenv iconv_open iconv iconv_flush (sessions s.1 !! i) (Z.of_nat i) st);
      format_disks rest st'
  end.

Definition set_enc (g : Z) : M St () := mmod (λ s, (set_encoding g s.1, s.2)).

(** The text and its length; [None] when detach returns NULL. *)
Definition build_partitions_table (idx : Z) : M St (option (bytes * Z)) :=
  s ← mget;
  sb ← mopt (anyfs_format_header realloc_ok anyfs_strbuf_init);
  let n := len (sessions s.1) in
  st ← format_disks (if idx <? 0 then seq 0 (length (sessions s.1))
                     else if idx <? n then [Z.to_nat idx] else []) (sb, g_enc s.1);
  _ ← set_enc st.2;
  mret (anyfs_strbuf_detach st.1).1.

(** ** Attributes *)

Definition S_IFDIR : Z := 0x4000.
Definition S_IFREG : Z := 0x8000.

Definition xlat_stat (i : stat) : stat :=
  mk_stat (st_dev i) (st_ino i) (st_mode i) (st_nlink i) (st_uid i) (st_gid i) (st_rdev i) (st_size i)
    (st_blksize i) (st_blocks i) (st_atim i) (st_mtim i) (st_ctim i).
Definition synth_dir_stat : stat := mk_stat 0 0 (Z.lor S_IFDIR 0x16d) 2 0 0 0 0 0 0 (0, 0) (0, 0) (0, 0).
Definition synth_file_stat (sz : Z) : stat := mk_stat 0 0 (Z.lor S_IFREG 0x124) 1 0 0 0 sz 0 0 (0, 0) (0, 0) (0, 0).

(** lkl_sys_fstat on the handle or lkl_sys_lstat on the path. *)
Definition stat_of (fh : option Z) (full : bytes) : M St (Z * option stat) :=
  r ← sys (match fh with Some fd => Fstat fd | None => Lstat full end);
  mret (rc r, if rc r =? 0 then Some (xlat_stat (stats r)) else None).

(** [fh] is the open file of [fi], if there is one.  The value returned and
    [*st] when it was filled. *)
Definition anyfs_fuse_getattr (path : bytes) (fh : option Z) : M St (Z * option stat) :=
  s ← mget;
  if g_mode_a s.1 then
    r ← fuse_path_to_lkl path LKL_PATH_BUF; stat_of fh r.2
  else
    k ← parse_path path;
    match k.1 with
    | SYNTH_ROOT => mret (0, Some synth_dir_stat)
    | PART_NODE =>
        r ← resolve_walk k.2;
        if r.1 <? 0 then mret (- ENOENT, None)
        else if leaf_is_fs r.2 then stat_of None (lkl_mount r.2)
        else mret (0, Some synth_dir_stat)
    | SYNTH_FILE =>
        c ← build_partitions_table (disk_idx k.2);
        match c with
        | None => mret (- EIO, None)
        | Some (_, n) => mret (0, Some (synth_file_stat n))
        end
    | IN_PARTITION =>
        r ← resolve_walk k.2;
        if (r.1 <? 0) || negb (leaf_is_fs r.2) then mret (- ENOENT, None)
        else stat_of fh (snprintf LKL_PATH_BUF (lkl_mount r.2 ++ inner r.2)).2
    | BAD_PATH => mret (- ENOENT, None)
    end.

(** ** Operations on names *)

Definition anyfs_fuse_readlink (path : bytes) (n : Z) : M St (Z * bytes) :=
  p ← fuse_path_to_lkl path LKL_PATH_BUF;
  if p.1 <? 0 then mret (p.1, [])
  else
    r ← sys (Readlink p.2 n);
    if rc r <? 0 then mret (rc r, [])
    else mret (0, take (Z.to_nat (if rc r =? n then n - 1 else rc r)) (data r)).

Definition anyfs_fuse_mknod (path : bytes) (mode dev : Z) : M St Z :=
  with_path path (λ full, sys_rc (Mknod full mode dev)).
Definition anyfs_fuse_mkdir (path : bytes) (mode : Z) : M St Z := with_path path (λ full, sys_rc (Mkdir full mode)).
Definition anyfs_fuse_unlink (path : bytes) : M St Z := with_path path (λ full, sys_rc (Unlink full)).
Definition anyfs_fuse_rmdir (path : bytes) : M St Z := with_path path (λ full, sys_rc (Rmdir full)).
Definition anyfs_fuse_symlink (oldname newname : bytes) : M St Z :=
  with_path newname (λ full, sys_rc (Symlink oldname full)).
Definition anyfs_fuse_rename (oldname newname : bytes) (flags : Z) : M St Z :=
  with_path oldname (λ old_full, with_path newname (λ new_full, sys_rc (Renameat2 old_full new_full flags))).
Definition anyfs_fuse_link (oldname newname : bytes) : M St Z :=
  with_path oldname (λ old_full, with_path newname (λ new_full, sys_rc (Link old_full new_full))).

Definition anyfs_fuse_chmod (path : bytes) (mode : Z) (fh : option Z) : M St Z :=
  match fh with
  | Some fd => sys_rc (Fchmod fd mode)
  | None => with_path path (λ full, sys_rc (Fchmodat full mode))
  end.
Definition LKL_AT_SYMLINK_NOFOLLOW : Z := 0x100.
Definition anyfs_fuse_chown (path : bytes) (uid gid : Z) (fh : option Z) : M St Z :=
  match fh with
  | Some fd => sys_rc (Fchown fd uid gid)
  | None => with_path path (λ full, sys_rc (Fchownat full uid gid LKL_AT_SYMLINK_NOFOLLOW))
  end.
Definition anyfs_fuse_truncate (path : bytes) (off : Z) (fh : option Z) : M St Z :=
  match fh with
  | Some fd => sys_rc (Ftruncate fd off)
  | None => with_path path (λ full, sys_rc (Truncate full off))
  end.

Definition anyfs_fuse_setxattr (path name val : bytes) (flags : Z) : M St Z :=
  with_path path (λ full, sys_rc (Setxattr full name val flags)).
(** The value returned and the bytes stored. *)
Definition with_path_data (path : bytes) (c : bytes → syscall) : M St (Z * bytes) :=
  p ← fuse_path_to_lkl path LKL_PATH_BUF;
  if p.1 <? 0 then mret (p.1, []) else r ← sys (c p.2); mret (rc r, data r).
Definition anyfs_fuse_getxattr (path name : bytes) (size : Z) : M St (Z * bytes) :=
  with_path_data path (λ full, Getxattr full name size).
Definition anyfs_fuse_listxattr (path : bytes) (size : Z) : M St (Z * bytes) :=
  with_path_data path (λ full, Listxattr full size).
Definition anyfs_fuse_removexattr (path name : bytes) : M St Z :=
  with_path path (λ full, sys_rc (Removexattr full name)).

(** bsize, frsize, blocks, bfree, bavail, files, ffree, favail, fsid, flag,
    namemax of the host from bsize, frsize, blocks, bfree, bavail, files,
    ffree, fsid, flags, namelen of the kernel. *)
Definition xlat_statfs (n : list Z) : option (list Z) :=
  match n with
  | [bsize; frsize; blocks; bfree; bavail; files; ffree; fsid; flags; namelen] =>
      Some [bsize; frsize; blocks; bfree; bavail; files; ffree; ffree; fsid; flags; namelen]
  | _ => None
  end.
Definition anyfs_fuse_statfs (path : bytes) : M St (Z * option (list Z)) :=
  p ← fuse_path_to_lkl path LKL_PATH_BUF;
  if p.1 <? 0 then mret (p.1, None)
  else
    r ← sys (Statfs p.2);
    if rc r <? 0 then mret (rc r, None) else mret (0, xlat_statfs (nums r)).

Definition anyfs_fuse_access (path : bytes) (mode : Z) : M St Z :=
  p ← fuse_path_to_lkl path LKL_PATH_BUF;
  if p.1 <? 0 then
    k ← parse_path path;
    mret (match k.1 with SYNTH_ROOT | PART_NODE | SYNTH_FILE => 0 | _ => p.1 end)
  else sys_rc (Access p.2 mode).

Definition anyfs_fuse_utimens (path : bytes) (tv : (Z * Z) * (Z * Z)) (fh : option Z) : M St Z :=
  match fh with
  | Some fd => sys_rc (Utimensat fd None tv 0)
  | None => with_path path (λ full, sys_rc (Utimensat (-1) (Some full) tv LKL_AT_SYMLINK_NOFOLLOW))
  end.

(** ** Files *)

(** open(2) flags of Linux on x86-64, for the host and for the kernel; with
    64-bit off_t the host's O_LARGEFILE is 0. *)
Definition O_ACCMODE : Z := 3.
Definition O_CREAT : Z := 0x40.
Definition O_TRUNC : Z := 0x200.
Definition O_APPEND : Z := 0x400.
Definition O_NONBLOCK : Z := 0x800.
Definition O_DSYNC : Z := 0x1000.
Definition O_DIRECT : Z := 0x4000.
Definition O_LARGEFILE_host : Z := 0.
Definition LKL_O_LARGEFILE : Z := 0x8000.
Definition O_DIRECTORY : Z := 0x10000.
Definition O_NOFOLLOW : Z := 0x20000.
Definition O_NOATIME : Z := 0x40000.
Definition O_CLOEXEC : Z := 0x80000.
Definition O_SYNC : Z := 0x101000.

Definition add_if (b : bool) (bit flags : Z) : Z := if b then Z.lor flags bit else flags.

(** [None]: -EINVAL. *)
Definition open_flags_lkl (fi_flags : Z) (create : bool) : option Z :=
  let acc := Z.land fi_flags O_ACCMODE in
  if acc =? 3 then None
  else
    let f := add_if create O_CREAT acc in
    let f := add_if (flag fi_flags O_TRUNC) O_TRUNC f in
    let f := add_if (flag fi_flags O_APPEND) O_APPEND f in
    let f := add_if (flag fi_flags O_NONBLOCK) O_NONBLOCK f in
    let f := add_if (flag fi_flags O_DSYNC) O_DSYNC f in
    let f := add_if (flag fi_flags O_DIRECT) O_DIRECT f in
    let f := add_if (flag fi_flags O_LARGEFILE_host) LKL_O_LARGEFILE f in
    let f := add_if (flag fi_flags O_DIRECTORY) O_DIRECTORY f in
    let f := add_if (flag fi_flags O_NOFOLLOW) O_NOFOLLOW f in
    let f := add_if (flag fi_flags O_NOATIME) O_NOATIME f in
    let f := add_if (flag fi_flags O_CLOEXEC) O_CLOEXEC f in
    Some (add_if (flag fi_flags O_SYNC) O_SYNC f).

(** The value returned and fi->fh when it was set. *)
Definition open3_lkl (full : bytes) (create : bool) (mode fi_flags : Z) : M St (Z * option Z) :=
  match open_flags_lkl fi_flags create with
  | None => mret (- EINVAL, None)
  | Some f =>
      r ← sys (Open full f mode);
      if rc r <? 0 then mret (rc r, None) else mret (0, Some (rc r))
  end.

Definition anyfs_fuse_create (path : bytes) (mode fi_flags : Z) : M St (Z * option Z) :=
  p ← fuse_path_to_lkl path LKL_PATH_BUF;
  if p.1 <? 0 then mret (p.1, None) else open3_lkl p.2 true mode fi_flags.

Definition anyfs_fuse_open (path : bytes) (fi_flags : Z) : M St (Z * option Z) :=
  s ← mget;
  if g_mode_a s.1 then p ← fuse_path_to_lkl path LKL_PATH_BUF; open3_lkl p.2 false 0 fi_flags
  else
    k ← parse_path path;
    match k.1 with
    | SYNTH_FILE => mret (0, Some 0)
    | _ =>
        p ← fuse_path_to_lkl path LKL_PATH_BUF;
        if p.1 <? 0 then mret (p.1, None) else open3_lkl p.2 false 0 fi_flags
    end.

(** The do-while loop of read: [got] is what was read so far.  A kernel that
    stores more than was asked for overruns the buffer. *)
Fixpoint read_all (fuel : nat) (fd size off : Z) (got : bytes) : M St (Z * bytes) :=
  match fuel with
  | O => mstuck
  | S f =>
      r ← sys (Pread fd size off);
      if rc r <? 0 then mret (rc r, got)
      else if rc r =? 0 then mret (len got, got)
      else if size <? rc r then mstuck
      else
        let got' := got ++ data r in
        if 0 <? size - rc r then read_all f fd (size - rc r) (off + rc r) got'
        else mret (len got', got')
  end.

(** The value returned and the bytes stored in [buf]. *)
Definition anyfs_fuse_read (path : bytes) (size offset fh : Z) : M St (Z * bytes) :=
  s ← mget;
  k ← (if g_mode_a s.1 then mret (BAD_PATH, zero_fp) else parse_path path);
  match k.1 with
  | SYNTH_FILE =>
      c ← build_partitions_table (disk_idx k.2);
      match c with
      | None => mret (- EIO, [])
      | Some (text, n) =>
          if u64 offset <? n then
            let m := Z.min (n - offset) size in
            mret (m, take (Z.to_nat m) (drop (Z.to_nat offset) text))
          else mret (0, [])
      end
  | _ => read_all (S (Z.to_nat size)) fh size offset []
  end.

Fixpoint write_all (fuel : nat) (fd : Z) (buf : bytes) (off done : Z) : M St Z :=
  match fuel with
  | O => mstuck
  | S f =>
      r ← sys (Pwrite fd buf off);
      if rc r <? 0 then mret (rc r)
      else if rc r =? 0 then mret done
      else if len buf <? rc r then mstuck
      else if 0 <? len buf - rc r then write_all f fd (drop (Z.to_nat (rc r)) buf) (off + rc r) (done + rc r)
      else mret (done + rc r)
  end.
Definition anyfs_fuse_write (path buf : bytes) (offset fh : Z) : M St Z :=
  write_all (S (length buf)) fh buf offset 0.

Definition anyfs_fuse_flush (path : bytes) (fh : Z) : M St Z := mret 0.
Definition anyfs_fuse_release (path : bytes) (fh : Z) : M St Z := if fh =? 0 then mret 0 else sys_rc (Close fh).
Definition anyfs_fuse_fsync (path : bytes) (datasync : bool) (fh : Z) : M St Z :=
  sys_rc (if datasync then Fdatasync fh else Fsync fh).
Definition anyfs_fuse_fallocate (path : bytes) (mode offset n fh : Z) : M St Z := sys_rc (Fallocate fh mode offset n).
Definition anyfs_fuse_copy_file_range (fh_in off_in fh_out off_out n flags : Z) : M St Z :=
  sys_rc (CopyFileRange fh_in off_in fh_out off_out n flags).
Definition anyfs_fuse_lseek (path : bytes) (off whence fh : Z) : M St Z := sys_rc (Lseek fh off whence).

(** ** Directories *)

(** lkl_opendir: a positive handle, or [err]. *)
Definition opendir_lkl (full : bytes) : M St (Z * option Z) :=
  r ← sys (Opendir full);
  if rc r <=? 0 then mret (rc r, None) else mret (0, Some (rc r)).

Definition anyfs_fuse_opendir (path : bytes) : M St (Z * option Z) :=
  s ← mget;
  if g_mode_a s.1 then p ← fuse_path_to_lkl path LKL_PATH_BUF; opendir_lkl p.2
  else
    k ← parse_path path;
    match k.1 with
    | SYNTH_ROOT => mret (0, Some 0)
    | PART_NODE =>
        r ← resolve_walk k.2;
        if r.1 <? 0 then mret (- ENOENT, None)
        else if leaf_is_fs r.2 then opendir_lkl (lkl_mount r.2) else mret (0, Some 0)
    | IN_PARTITION =>
        r ← resolve_walk k.2;
        if (r.1 <? 0) || negb (leaf_is_fs r.2) then mret (- ENOENT, None)
        else opendir_lkl (snprintf LKL_PATH_BUF (lkl_mount r.2 ++ inner r.2)).2
    | _ => mret (- ENOENT, None)
    end.

(** An entry passed to [fill]; [None] for the NULL stat of "." and "..". *)
Abbreviation entry := (bytes * option stat)%type.

(** The loops over [pbuf], which holds MAX_PARTS_PER_DISK entries, up to
    [got]: reading past the array is stuck. *)
Definition list_level (i parent : Z) : M St (list entry) :=
  s ← mget;
  d ← mopt (if i <? 0 then None else sessions s.1 !! Z.to_nat i);
  let '(_, pbuf, got) := anyfs_session_list d parent MAX_PARTS_PER_DISK in
  ps ← mopt (mapM (λ j, pbuf !! j) (seq 0 (Z.to_nat got)));
  mret ((λ p, ((snprintf 16 (bs "p" ++ fmt_u (pi_index p))).2, Some synth_dir_stat)) <$> ps).

Definition dots : list entry := [(bs ".", None); (bs "..", None)].

(** The loop over a kernel directory: [room] entries are accepted, then
    [fill] asks to stop. *)
Definition readdir_lkl (dir : Z) (room : nat) : M St (Z * list entry) :=
  r ← sys (Readdir dir);
  let es := (λ e, (d_name e, Some (mk_stat 0 (d_ino e) (Z.shiftl (d_type e) 12) 0 0 0 0 0 0 0 (0, 0) (0, 0) (0, 0))))
              <$> entries r in
  if (length es <=? room)%nat then mret (rc r, es) else mret (0, take (S room) es).

Definition anyfs_fuse_readdir (path : bytes) (fh : Z) (room : nat) : M St (Z * list entry) :=
  s ← mget;
  if g_mode_a s.1 then readdir_lkl fh room
  else
    k ← parse_path path;
    match k.1 with
    | SYNTH_ROOT =>
        let didx := disk_idx k.2 in
        es ← (if (didx <? 0) && (len (sessions s.1) =? 1) then list_level 0 (-1)
              else if didx <? 0 then
                mret ((λ i, ((snprintf 16 (bs "disk" ++ fmt_d (Z.of_nat i))).2, Some synth_dir_stat)) <$> seq 0 (length (sessions s.1)))
              else list_level didx (-1));
        c ← build_partitions_table didx;
        mret (0, dots ++ es ++ match c with
                               | Some (_, n) => [(bs ".partitions", Some (synth_file_stat n)); (bs "partitions.txt", Some (synth_file_stat n))]
                               | None => []
                               end)
    | PART_NODE =>
        if fh =? 0 then
          r ← resolve_walk k.2;
          es ← (if (r.1 =? 0) && negb (leaf_is_fs r.2) then list_level (disk_idx r.2) (leaf_slot r.2) else mret []);
          mret (0, dots ++ es)
        else readdir_lkl fh room
    | _ => if fh =? 0 then mret (- EIO, []) else readdir_lkl fh room
    end.

Definition anyfs_fuse_releasedir (path : bytes) (fh : Z) : M St Z := if fh =? 0 then mret 0 else sys_rc (Closedir fh).
Definition anyfs_fuse_fsyncdir (path : bytes) (datasync : bool) (fh : Z) : M St Z :=
  if fh =? 0 then mret 0 else sys_rc (FsyncDir fh datasync).

(** ** Start *)

(** -o part=N stands for pN. *)
Definition part_arg (part : bytes) : bytes :=
  let '(pv, endp) := strtol part in
  if bool_decide (endp = []) && (0 <? pv) then (snprintf 32 (bs "p" ++ fmt_d pv)).2 else part.

(** Mode A: enter the partition named by -o part= and pin its mount point.
    0, or the value main returns. *)
Definition start_mode_a (part : bytes) : M St Z :=
  _ ← mmod (λ s, (set_mode_a s.1, s.2));
  r ← mopt (Path.anyfs_path_parse strdup (Some (part_arg part)) Path.zero_path);
  let '(prc, d) := r in
  if prc <? 0 then mret 1
  else
    let didx := if Path.disk_idx_set d then Path.disk_idx d else 0 in
    n ← mgets (λ s, len (sessions s.1));
    if (didx <? 0) || (n <=? didx) then mret 1
    else
      c0 ← mopt (Path.comp d !! 0%nat);
      flags ← mgets (λ s, g_enter_flags s.1);
      e ← on_session didx (anyfs_session_enter_path creds (Path.comp d) flags);
      if e.1 <? 0 then mret e.1
      else
        let path := (snprintf 64 e.2).2 in
        _ ← mmod (λ s, (set_mount_point path s.1, s.2));
        let pn := Path.p c0 in
        _ ← (if (0 <? pn) && (pn <=? MAX_PARTS_PER_DISK) then set_cache didx pn (snprintf ANYFS_LKL_PATH_MAX e.2).2 else mret ());
        mret 0.

(** -o prefetch: enter every partition of a disk; failures are reported only. *)
Fixpoint prefetch_parts (di : Z) (ps : list AnyfsPartInfo) : M St () :=
  match ps with
  | [] => mret ()
  | p :: rest =>
      let pn := pi_index p in
      _ ← (if (pn =? 0) || (MAX_PARTS_PER_DISK <? pn) then mret ()
           else
             flags ← mgets (λ s, g_enter_flags s.1);
             e ← on_session di (anyfs_session_enter creds pn flags);
             if e.1 <? 0 then mret () else set_cache di pn (snprintf ANYFS_LKL_PATH_MAX e.2).2);
      prefetch_parts di rest
  end.
Definition prefetch_disk (di : nat) : M St () :=
  s ← mget;
  d ← mopt (sessions s.1 !! di);
  let '(_, pbuf, got) := anyfs_session_list d (-1) MAX_PARTS_PER_DISK in
  ps ← mopt (mapM (λ j, pbuf !! j) (seq 0 (Z.to_nat got)));
  prefetch_parts (Z.of_nat di) ps.
Definition prefetch_all : M St () := s ← mget; mfor (seq 0 (length (sessions s.1))) prefetch_disk.

(** Steps 4a and 4b of main, once the disks are open. *)
Definition start (part : option bytes) (prefetch : bool) : M St Z :=
  match part with
  | Some p => start_mode_a p
  | None => _ ← (if prefetch then prefetch_all else mret ()); mret 0
  end.

(** ** Requests *)

Inductive request :=
  | RGetattr (path : bytes) (fh : option Z) | RReadlink (path : bytes) (n : Z) | RMknod (path : bytes) (mode dev : Z)
  | RMkdir (path : bytes) (mode : Z) | RUnlink (path : bytes) | RRmdir (path : bytes) | RSymlink (old new : bytes)
  | RRename (old new : bytes) (flags : Z) | RLink (old new : bytes) | RChmod (path : bytes) (mode : Z) (fh : option Z)
  | RChown (path : bytes) (uid gid : Z) (fh : option Z) | RTruncate (path : bytes) (off : Z) (fh : option Z)
  | ROpen (path : bytes) (flags : Z) | RCreate (path : bytes) (mode flags : Z) | RRead (path : bytes) (size off fh : Z)
  | RWrite (path buf : bytes) (off fh : Z) | RStatfs (path : bytes) | RFlush (path : bytes) (fh : Z) | RRelease (path : bytes) (fh : Z)
  | RFsync (path : bytes) (ds : bool) (fh : Z) | RSetxattr (path name val : bytes) (flags : Z) | RGetxattr (path name : bytes) (n : Z)
  | RListxattr (path : bytes) (n : Z) | RRemovexattr (path name : bytes) | ROpendir (path : bytes)
  | RReaddir (path : bytes) (fh : Z) (room : nat) | RReleasedir (path : bytes) (fh : Z) | RFsyncdir (path : bytes) (ds : bool) (fh : Z)
  | RAccess (path : bytes) (mode : Z) | RUtimens (path : bytes) (tv : (Z * Z) * (Z * Z)) (fh : option Z)
  | RFallocate (path : bytes) (mode off n fh : Z) | RCopy (fh off fh' off' n flags : Z) | RLseek (path : bytes) (off whence fh : Z).

Definition drop_result {A} (m : M St A) : M St () := _ ← m; mret ().

(** anyfs_fuse_ops *)
Definition dispatch (r : request) : M St () :=
  match r with
  | RGetattr p fh => drop_result (anyfs_fuse_getattr p fh)
  | RReadlink p n => drop_result (anyfs_fuse_readlink p n)
  | RMknod p m d => drop_result (anyfs_fuse_mknod p m d)
  | RMkdir p m => drop_result (anyfs_fuse_mkdir p m)
  | RUnlink p => drop_result (anyfs_fuse_unlink p)
  | RRmdir p => drop_result (anyfs_fuse_rmdir p)
  | RSymlink a b => drop_result (anyfs_fuse_symlink a b)
  | RRename a b f => drop_result (anyfs_fuse_rename a b f)
  | RLink a b => drop_result (anyfs_fuse_link a b)
  | RChmod p m fh => drop_result (anyfs_fuse_chmod p m fh)
  | RChown p u g fh => drop_result (anyfs_fuse_chown p u g fh)
  | RTruncate p o fh => drop_result (anyfs_fuse_truncate p o fh)
  | ROpen p f => drop_result (anyfs_fuse_open p f)
  | RCreate p m f => drop_result (anyfs_fuse_create p m f)
  | RRead p n o fh => drop_result (anyfs_fuse_read p n o fh)
  | RWrite p b o fh => drop_result (anyfs_fuse_write p b o fh)
  | RStatfs p => drop_result (anyfs_fuse_statfs p)
  | RFlush p fh => drop_result (anyfs_fuse_flush p fh)
  | RRelease p fh => drop_result (anyfs_fuse_release p fh)
  | RFsync p ds fh => drop_result (anyfs_fuse_fsync p ds fh)
  | RSetxattr p n v f => drop_result (anyfs_fuse_setxattr p n v f)
  | RGetxattr p n k => drop_result (anyfs_fuse_getxattr p n k)
  | RListxattr p k => drop_result (anyfs_fuse_listxattr p k)
  | RRemovexattr p n => drop_result (anyfs_fuse_removexattr p n)
  | ROpendir p => drop_result (anyfs_fuse_opendir p)
  | RReaddir p fh room => drop_result (anyfs_fuse_readdir p fh room)
  | RReleasedir p fh => drop_result (anyfs_fuse_releasedir p fh)
  | RFsyncdir p ds fh => drop_result (anyfs_fuse_fsyncdir p ds fh)
  | RAccess p m => drop_result (anyfs_fuse_access p m)
  | RUtimens p tv fh => drop_result (anyfs_fuse_utimens p tv fh)
  | RFallocate p m o n fh => drop_result (anyfs_fuse_fallocate p m o n fh)
  | RCopy a b c d n f => drop_result (anyfs_fuse_copy_file_range a b c d n f)
  | RLseek p o w fh => drop_result (anyfs_fuse_lseek p o w fh)
  end.

(** main from step 4 on: the start and, when it succeeds, the requests that
    fuse_loop delivers one at a time. *)
Definition fuse_run (part : option bytes) (prefetch : bool) (rs : list request) : M St Z :=
  ret ← start part prefetch;
  if ret =? 0 then _ ← mfor rs dispatch; mret 0 else mret ret.
End Code.
End Fuse.
