(* ===== verification/FuseData.v ===== *)
(** * FuseData

    What the FUSE frontend returns: the names it lists and the paths built
    from them parse back to what they stand for; reads and writes move
    exactly the bytes asked for, whatever the kernel splits them into; the
    limits of its fixed arrays. *)
From S2P Require Import Prelude CLib Strbuf Legacy Lkl Path Probe Sysfs Mount Session SessionSpec SessionOpen.
From S2P Require Import SessionFrame Format Fuse FuseSpec.
Import CLib Strbuf Probe Mount Session SessionSpec SessionFrame Format Fuse FuseSpec.

Module FuseData.

(** ** Paths *)

Lemma skip_digits_fmt n r : 0 <= n < 10 ^ 20 → not_digit_head r → skip_digits (fmt_u n ++ r) = r.
Proof.
  intros Hn Hr. destruct (fmt_u_spec n Hn) as (_ & Hd & _). induction Hd as [|c l Hc _ IH]; cbn [app skip_digits].
  - destruct r as [|c r]; [done|]. cbn in *. by rewrite Hr.
  - by rewrite (proj2 (isdigit_spec c)).
Qed.

Lemma seg_ok_comp c : Path.comp_ok c → seg_ok (Path.print_comp c) = true.
Proof.
  intros [Hp Hq]. unfold seg_ok, Path.print_comp. cbn [Z.eqb Pos.eqb andb]. set (r := match Path.query c with Some q => _ | None => [] end).
  assert (Hr : not_digit_head r) by (unfold r; by destruct (Path.query c)).
  pose proof (skip_digits_fmt (Path.p c) r ltac:(lia) Hr) as E. destruct (fmt_u_head (Path.p c) ltac:(lia)) as (x & l & Ex & Hx).
  rewrite Ex in *. cbn [app] in *. rewrite (proj2 (isdigit_spec x)) by done. rewrite E. unfold r. by destruct (Path.query c).
Qed.

(** The first segment of what follows the chain. *)
Definition first_seg (s : bytes) : bytes := match strchr 47 s with Some (a, _) => a | None => s end.

(** What follows the chain: nothing, or a slash and a rest that does not go on
    with a partition. *)
Definition tail_text (tail : option bytes) : bytes := match tail with Some i => 47 :: i | None => [] end.
Definition tail_ok (tail : option bytes) : Prop := from_option (λ i, i = [] ∨ seg_ok (first_seg i) = false) True tail.

Lemma chain_loop_stop fuel i : i = [] ∨ seg_ok (first_seg i) = false → (i = [] ∨ 0 < fuel)%nat → chain_loop fuel (Some i) = Some (Some i).
Proof.
  intros [->|Hs] Hf; [by destruct fuel|]. destruct i as [|c i]; [by destruct fuel|]. destruct fuel as [|f]; [by destruct Hf as [?|?]; [|lia]|].
  cbn [chain_loop]. unfold first_seg in Hs. destruct (strchr 47 (c :: i)) as [[a b]|]; by rewrite Hs.
Qed.

Lemma chain_loop_chain segs tail fuel : segs ≠ [] → Forall (λ s, seg_ok s = true ∧ Path.seg_ok s) segs → tail_ok tail →
  (length segs < fuel)%nat → chain_loop fuel (Some (Path.join_slash segs ++ tail_text tail)) = Some tail.
Proof.
  intros Hne Hs Ht. revert fuel. induction Hs as [|s segs [Hok [Hn Hsl]] Hs IH]; intros fuel Hf; [done|].
  destruct fuel as [|f]; [cbn in Hf; lia|]. cbn [length] in Hf. destruct s as [|c s]; [done|]. set (cs := c :: s) in *.
  destruct segs as [|s2 segs].
  - cbn [Path.join_slash]. destruct tail as [i|]; cbn [tail_text].
    + unfold cs. cbn [chain_loop app]. change (c :: s ++ 47 :: i) with (cs ++ 47 :: i). rewrite strchr_app by done. rewrite Hok.
      apply chain_loop_stop; [done|right; lia].
    + rewrite app_nil_r. unfold cs. cbn [chain_loop]. fold cs. rewrite (proj2 (strchr_None 47 cs)) by done. rewrite Hok. by destruct f.
  - change (Path.join_slash (cs :: s2 :: segs)) with (cs ++ 47 :: Path.join_slash (s2 :: segs)). rewrite <- app_assoc.
    unfold cs. cbn [chain_loop app]. change (c :: s ++ 47 :: Path.join_slash (s2 :: segs) ++ tail_text tail) with
      (cs ++ 47 :: (Path.join_slash (s2 :: segs) ++ tail_text tail)).
    rewrite strchr_app by done. rewrite Hok. apply IH; [done|cbn in *; lia].
Qed.

(** The text of a request: the disk, the chain, the rest. *)
Definition fuse_text (disk : option Z) (cs : list Path.AnyfsPathComp) (tail : option bytes) : bytes :=
  47 :: match disk with Some i => bs "disk" ++ fmt_u i ++ [47] | None => [] end ++ Path.print_path None cs ++ tail_text tail.

Lemma parse_chain_print cs tail fp : Forall Path.comp_ok cs → 1 <= len cs <= 8 → tail_ok tail →
  len (Path.print_path None cs) < 512 → from_option (λ i, len i < 4094) True tail →
  parse_chain true (Path.print_path None cs ++ tail_text tail) fp =
    Some (match tail with Some (_ :: _) => IN_PARTITION | _ => PART_NODE end,
          mk_fp (if disk_idx fp <? 0 then 0 else disk_idx fp)
            (Path.mk_path (Some (Path.print_path None cs)) false 0 (len cs) cs) true
            (match tail with Some (c :: i) => 47 :: c :: i | _ => [] end) (-1) false []).
Proof.
  intros Hc Hl Ht H512 Hin. set (txt := Path.print_path None cs). fold txt in H512.
  assert (Hsegs : Forall (λ s, seg_ok s = true ∧ Path.seg_ok s) (Path.print_comp <$> cs)).
  { apply Forall_fmap. eapply Forall_impl; [exact Hc|]. intros c Hcc. split; [by apply seg_ok_comp|by apply Path.print_comp_seg]. }
  assert (Hp : ∃ r, txt = 112 :: r ∧ (length cs <= length txt)%nat).
  { destruct (Path.join_ends (Path.print_comp <$> cs)) as (_ & _ & _ & J); [by eapply Forall_impl; [exact Hsegs|]; intros ? []|by destruct cs; cbn in Hl; [lia|]|].
    rewrite length_fmap in J. destruct cs as [|c cs']; [cbn in Hl; lia|]. unfold txt, Path.print_path, Path.print_segs in *.
    destruct cs'; (eexists; split; [reflexivity|exact J]). }
  destruct Hp as (r & Er & Hlen). unfold parse_chain. rewrite Er. cbn [app]. change (112 :: r ++ tail_text tail) with ((112 :: r) ++ tail_text tail).
  rewrite <- Er. change (negb (112 =? 112)) with false. cbn iota zeta.
  pose proof (chain_loop_chain (Path.print_comp <$> cs) tail (S (length (txt ++ tail_text tail)))) as El.
  change (Path.join_slash (Path.print_comp <$> cs)) with txt in El. rewrite El; clear El; [|by destruct cs; cbn in Hl; [lia|]|done|done|].
  2:{ rewrite length_fmap, length_app. lia. }
  cbn [mbind option_bind].
  assert (Ecl : match tail with Some e => u64 (len (txt ++ tail_text tail) - len e - 1) | None => len (txt ++ tail_text tail) end = len txt).
  { destruct tail as [e|]; cbn [tail_text]; rewrite length_app; cbn [length]; [|lia]. rewrite u64_small; lia. }
  rewrite Ecl. rewrite Nat2Z.id, take_app_length. destruct ((len txt =? 0) || (512 <=? len txt)) eqn:E.
  { zify_bools; [|lia]. rewrite Er in H. cbn in H. lia. }
  pose proof (Path.path_parse_print None cs 0 0 Path.zero_path Hc Logic.I Hl) as Epp. cbn [replicate app] in Epp. rewrite app_nil_r in Epp.
  fold txt in Epp. rewrite Epp. cbn [mbind option_bind Z.ltb Z.compare]. change (bool_decide (is_Some None)) with false. cbn [default option_bind].
  destruct tail as [[|x i]|]; [by destruct (disk_idx fp <? 0)| |by destruct (disk_idx fp <? 0)].
  cbn in Hin. rewrite snprintf_fits by (cbn; lia). by destruct (disk_idx fp <? 0).
Qed.

(** A chain starts with p and a digit. *)
Lemma print_head cs : Forall Path.comp_ok cs → 1 <= len cs → ∃ x r, Path.print_path None cs = 112 :: x :: r ∧ 48 <= x <= 57.
Proof.
  intros Hc Hl. destruct Hc as [|c cs [Hp _] _]; [cbn in Hl; lia|]. destruct (fmt_u_head (Path.p c) ltac:(lia)) as (x & l & Ex & Hx).
  unfold Path.print_path, Path.print_segs, Path.print_comp. cbn [app fmap list_fmap]. rewrite Ex.
  destruct cs; (eexists x, _; split; [reflexivity|done]).
Qed.

Lemma not_synth x r : 48 <= x <= 57 → is_synth_name (112 :: x :: r) = false.
Proof.
  intros Hx. unfold is_synth_name, streq. rewrite !bool_decide_false; [done|intros [=]; lia|intros [=]; lia].
Qed.

(** The disk prefix. *)
Lemma parse_disk n i rest : 0 <= i < n → n < 2 ^ 31 → rest = [] ∨ (∃ p, rest = 47 :: p) →
  parse_fuse_path true n (47 :: bs "disk" ++ fmt_u i ++ rest) =
    match rest with
    | [] => Some (SYNTH_ROOT, with_disk i zero_fp)
    | _ :: p => if is_synth_name p then Some (SYNTH_FILE, with_disk i zero_fp) else parse_chain true p (with_disk i zero_fp)
    end.
Proof.
  intros Hi Hn Hr. assert (Hd : not_digit_head rest) by (by destruct Hr as [->|[p ->]]).
  change (bs "disk" ++ fmt_u i ++ rest) with (100 :: 105 :: 115 :: 107 :: (fmt_u i ++ rest)). set (t := 100 :: _).
  assert (E1 : is_synth_name t = false) by (unfold is_synth_name, streq; rewrite !bool_decide_false; done).
  destruct (fmt_u_head i ltac:(lia)) as (y & l & Ey & Hy).
  assert (E4 : t !! 4%nat = Some y) by (unfold t; by rewrite Ey).
  assert (Ed : drop 4 t = fmt_u i ++ rest) by (unfold t; by rewrite !skipn_cons, drop_0).
  unfold parse_fuse_path. change (47 =? 47) with true. cbn iota. rewrite E1, E4, Ed. unfold t at 1. cbn iota.
  change (starts_with (bs "disk") t) with true. rewrite (proj2 (isdigit_spec y)), strtol_fmt_u by (done || lia). cbn [andb].
  rewrite (proj2 (Z.ltb_ge i 0)), (proj2 (Z.leb_gt n i)), i32_small by lia. cbn [orb]. by destruct Hr as [->|[p ->]].
Qed.

Lemma parse_print n disk cs tail :
  Forall Path.comp_ok cs → 1 <= len cs <= 8 → tail_ok tail → len (Path.print_path None cs) < 512 →
  from_option (λ i, len i < 4094) True tail → match disk with Some i => 0 <= i < n ∧ n < 2 ^ 31 | None => n <= 1 end →
  parse_fuse_path true n (fuse_text disk cs tail) =
    Some (match tail with Some (_ :: _) => IN_PARTITION | _ => PART_NODE end,
          mk_fp (default 0 disk) (Path.mk_path (Some (Path.print_path None cs)) false 0 (len cs) cs) true
            (match tail with Some (c :: i) => 47 :: c :: i | _ => [] end) (-1) false []).
Proof.
  intros Hc Hl Ht H512 Hin Hd. destruct (print_head cs Hc ltac:(lia)) as (x & r & Er & Hx).
  assert (Es : is_synth_name (Path.print_path None cs ++ tail_text tail) = false) by (rewrite Er; by apply not_synth).
  destruct disk as [i|].
  - destruct Hd as [Hi Hn]. unfold fuse_text. rewrite <- !app_assoc. cbn [app]. rewrite parse_disk; [|done|done|right; by eexists].
    rewrite Es, parse_chain_print by done. unfold with_disk. cbn [disk_idx]. by rewrite (proj2 (Z.ltb_ge i 0)) by lia.
  - unfold parse_fuse_path, fuse_text. change (47 =? 47) with true. cbn iota. cbn [app]. rewrite Er at 1. cbn [app]. cbn iota. rewrite Es, Er. cbn [app]. change (starts_with (bs "disk") (112 :: _)) with false.
    cbn [andb]. rewrite (proj2 (Z.ltb_ge 1 n)) by lia. change (112 :: x :: r ++ tail_text tail) with ((112 :: x :: r) ++ tail_text tail).
    rewrite <- Er. by rewrite parse_chain_print.
Qed.

(** ** File contents *)

(** [b] written over [old] at [off]; a gap is filled with zeros. *)
Definition patch (off : Z) (b old : bytes) : bytes :=
  match b with
  | [] => old
  | _ => resize (Z.to_nat off) 0 old ++ b ++ drop (Z.to_nat off + length b) old
  end.

Lemma patch_ne off b old : b ≠ [] → patch off b old = (resize (Z.to_nat off) 0 old ++ b) ++ drop (Z.to_nat off + length b) old.
Proof. intros Hb. destruct b; [done|]. by rewrite <- app_assoc. Qed.

Lemma patch_app off a b old : 0 <= off → patch (off + len a) b (patch off a old) = patch off (a ++ b) old.
Proof.
  intros Ho. destruct (decide (a = [])) as [->|Ha]; [by rewrite Z.add_0_r|]. destruct (decide (b = [])) as [->|Hb]; [by rewrite app_nil_r|].
  assert (Hab : a ++ b ≠ []) by (intros [? _]%app_nil; done). rewrite (patch_ne off a), (patch_ne _ b), (patch_ne off (a ++ b)) by done.
  replace (Z.to_nat (off + len a)) with (Z.to_nat off + length a)%nat by lia.
  rewrite resize_app by (rewrite length_app, length_resize; lia). rewrite (drop_app_ge (_ ++ _)) by (rewrite length_app, length_resize; lia).
  rewrite !length_app, length_resize, drop_drop, <- !app_assoc. do 4 f_equal. lia.
Qed.

(** The bytes behind a descriptor; pread gives some of them from the offset
    on, none only at the end, pwrite replaces them by some of those given. *)
Class FileLaws (W : Type) `{!FsOps W} := {
  file : W → Z → bytes;
  law_pread fd n off w : 0 <= off → 0 < n → let '(r, w') := fs_call (Pread fd n off) w in
    file w' fd = file w fd ∧
    (rc r < 0 ∨ 0 <= rc r <= n ∧ rc r = len (data r) ∧ data r = take (length (data r)) (drop (Z.to_nat off) (file w fd)) ∧
       (rc r = 0 → len (file w fd) <= off));
  law_pwrite fd b off w : 0 <= off → let '(r, w') := fs_call (Pwrite fd b off) w in
    rc r < 0 ∧ file w' fd = file w fd ∨
    0 <= rc r <= len b ∧ file w' fd = patch off (take (Z.to_nat (rc r)) b) (file w fd) }.

Section Files.
Context {W : Type} `{!FsOps W, !FileLaws W}.

Lemma wp_call_fs c (Q : reply → FG * W → Prop) s :
  (let '(r, w') := fs_call c s.2 in Q r (log_call c s.1, w')) → wp (sys c) Q s.
Proof.
  intros H. unfold sys. apply wp_bind, wp_mod, wp_lower, wp_call. cbn [fst snd]. by destruct (fs_call c s.2).
Qed.

(** Short reads are put together. *)
Lemma wp_read_all fuel fd size off got (s : FG * W) : 0 < size → 0 <= off → (Z.to_nat size < fuel)%nat →
  let x := take (Z.to_nat size) (drop (Z.to_nat off) (file s.2 fd)) in
  wp (read_all fuel fd size off got) (λ r s', r.1 < 0 ∨ r = (len (got ++ x), got ++ x) ∧ file s'.2 fd = file s.2 fd) s.
Proof.
  revert size off got s. induction fuel as [|f IH]; intros size off got s Hs Ho Hf; [lia|]. cbn [read_all].
  apply wp_bind, wp_call_fs. pose proof (law_pread fd size off s.2 Ho Hs) as Hl. destruct (fs_call _ _) as [r w']. cbn [fst snd].
  set (F := file s.2 fd) in *. destruct Hl as [Ew Hl].
  destruct (Z.ltb_spec (rc r) 0); [left; done|]. destruct Hl as [|(Hr & Hlen & Hd & Hz)]; [lia|].
  destruct (Z.eqb_spec (rc r) 0) as [E0|Hn].
  { right. cbn [fst snd]. rewrite (drop_ge F) by (specialize (Hz E0); lia). by rewrite take_nil, app_nil_r. }
  destruct (Z.ltb_spec size (rc r)); [lia|].
  assert (Ex : take (Z.to_nat size) (drop (Z.to_nat off) F) =
    data r ++ take (Z.to_nat (size - rc r)) (drop (Z.to_nat (off + rc r)) F)).
  { rewrite Hd at 1. rewrite <- (take_drop (length (data r)) (drop (Z.to_nat off) F)) at 1.
    pose proof (f_equal length Hd) as Hld. rewrite take_app_ge by lia. f_equal. rewrite <- Hld, drop_drop. do 2 f_equal; lia. }
  destruct (Z.ltb_spec 0 (size - rc r)).
  - eapply wp_mono; [apply IH; lia|]. cbn [snd]. rewrite Ew. intros a s' [?|[-> E]]; [by left|right].
    by rewrite Ex, <- app_assoc.
  - right. cbn [fst snd]. rewrite Ex. replace (Z.to_nat (size - rc r)) with 0%nat by lia. cbn [take]. by rewrite app_nil_r.
Qed.

(** Short writes are continued. *)
Lemma wp_write_fh fuel fd buf off n (s : FG * W) : 0 <= off → (length buf < fuel)%nat →
  wp (write_all fuel fd buf off n) (λ r s', ∃ k, (k <= length buf)%nat ∧ (r < 0 ∨ r = n + Z.of_nat k) ∧
    file s'.2 fd = patch off (take k buf) (file s.2 fd)) s.
Proof.
  revert buf off n s. induction fuel as [|f IH]; intros buf off n s Ho Hf; [lia|]. cbn [write_all].
  apply wp_bind, wp_call_fs. pose proof (law_pwrite fd buf off s.2 Ho) as Hl. destruct (fs_call _ _) as [r w']. cbn [fst snd].
  destruct (Z.ltb_spec (rc r) 0).
  { destruct Hl as [[_ Ew]|[]]; [|lia]. exists 0%nat. cbn. split; [lia|]. split; [by left|done]. }
  destruct Hl as [[? _]|[Hr Ew]]; [lia|]. destruct (Z.eqb_spec (rc r) 0) as [E0|Hn].
  { exists 0%nat. split; [lia|]. split; [right; lia|]. rewrite E0 in Ew. exact Ew. }
  destruct (Z.ltb_spec (len buf) (rc r)); [lia|]. set (j := Z.to_nat (rc r)) in *. destruct (Z.ltb_spec 0 (len buf - rc r)).
  - eapply wp_mono; [apply IH; [lia|rewrite length_drop; lia]|]. cbn [snd]. rewrite Ew. intros a s' (k & Hk & Ha & E).
    rewrite length_drop in Hk. exists (j + k)%nat. split; [lia|]. split; [destruct Ha; [by left|right; lia]|].
    rewrite E. replace (off + rc r) with (off + len (take j buf)) by (rewrite length_take; lia).
    rewrite patch_app by done. f_equal. rewrite <- (take_drop j (take (j + k) buf)), take_take. f_equal; [f_equal; lia|].
    by rewrite <- take_drop_commute.
  - exists j. split; [lia|]. split; [right; lia|]. exact Ew.
Qed.
End Files.


(** ** Listings *)

(** The directory of all disks or of one, and the path of an entry of it. *)
Definition base_text (base : option Z) : bytes := match base with Some i => bs "/disk" ++ fmt_u i | None => [] end.
Definition dir_text (base : option Z) : bytes := match base with Some _ => base_text base | None => bs "/" end.
Definition child (base : option Z) (name : bytes) : bytes := base_text base ++ 47 :: name.

Lemma parse_dir n base : from_option (λ i, 0 <= i < n ∧ n < 2 ^ 31) True base →
  parse_fuse_path true n (dir_text base) = Some (SYNTH_ROOT, match base with Some i => with_disk i zero_fp | None => zero_fp end).
Proof.
  destruct base as [i|]; [|done]. cbn [from_option]. intros [Hi Hn]. pose proof (parse_disk n i [] Hi Hn (or_introl eq_refl)) as H.
  rewrite app_nil_r in H. exact H.
Qed.

Lemma parse_child_part n base idx : 0 < idx < 2 ^ 32 → match base with Some i => 0 <= i < n ∧ n < 2 ^ 31 | None => n <= 1 end →
  parse_fuse_path true n (child base (112 :: fmt_u idx)) =
    Some (PART_NODE, mk_fp (default 0 base) (Path.mk_path (Some (112 :: fmt_u idx)) false 0 1 [Path.mk_comp idx None]) true [] (-1) false []).
Proof.
  intros Hx Hb. pose proof (parse_print n base [Path.mk_comp idx None] None) as H.
  assert (Ep : Path.print_path None [Path.mk_comp idx None] = 112 :: fmt_u idx).
  { unfold Path.print_path, Path.print_segs, Path.print_comp. cbn. by rewrite app_nil_r. }
  rewrite Ep in H. unfold child. replace (base_text base ++ 47 :: 112 :: fmt_u idx) with (fuse_text base [Path.mk_comp idx None] None).
  - apply H; [by apply Forall_singleton|cbn; lia|done| |done|done].
    pose proof (fmt_u_len32 idx ltac:(lia)). cbn [length]. lia.
  - unfold fuse_text. rewrite Ep. cbn [tail_text]. rewrite app_nil_r. destruct base as [i|]; [|done]. cbn [base_text]. by rewrite <- !app_assoc.
Qed.

Lemma parse_child_file n base name : is_synth_name name = true → from_option (λ i, 0 <= i < n ∧ n < 2 ^ 31) True base →
  ∃ fp, parse_fuse_path true n (child base name) = Some (SYNTH_FILE, fp) ∧ disk_idx fp = default (-1) base.
Proof.
  intros Hn Hb. destruct base as [i|].
  - destruct Hb as [Hi Hm]. exists (with_disk i zero_fp). split; [|done]. unfold child, base_text. rewrite <- !app_assoc.
    change (bs "/disk" ++ fmt_u i ++ 47 :: name) with (47 :: bs "disk" ++ fmt_u i ++ 47 :: name).
    rewrite parse_disk; [by rewrite Hn|done|done|right; by eexists].
  - exists zero_fp. split; [|done]. unfold parse_fuse_path, child. cbn [base_text app]. change (47 =? 47) with true. cbn iota.
    destruct name; [done|]. by rewrite Hn.
Qed.

(** What a listed name stands for. *)
Definition stands_for (g : FG) (k : PathKind) (fp : FusePath) : Prop :=
  match k with
  | SYNTH_FILE => True
  | SYNTH_ROOT => 0 <= disk_idx fp < len (sessions g)
  | PART_NODE => ∃ d p, sessions g !! Z.to_nat (disk_idx fp) = Some d ∧ p ∈ parts d ∧ parent_slot p = ROOT_PARENT ∧
      Path.comp (dsl fp) = [Path.mk_comp (s_index p) None]
  | _ => False
  end.
Definition resolves (g : FG) (base : option Z) (e : bytes * option stat) : Prop :=
  ∃ k fp, parse_fuse_path true (len (sessions g)) (child base e.1) = Some (k, fp) ∧ stands_for g k fp.

Definition base_ok (n : Z) (base : option Z) : Prop := 0 < n <= 16 ∧ from_option (λ i, 0 <= i < n) True base.

Lemma parts_resolve g base d : base_ok (len (sessions g)) base → (base = None → len (sessions g) = 1) →
  sessions g !! Z.to_nat (default 0 base) = Some d → table_ok d → Forall (resolves g base) (part_entry <$> level d ROOT_PARENT).
Proof.
  intros [Hn Hb] H1 Hd Ht. unfold level. apply Forall_fmap, Forall_fmap, Forall_forall. intros p [Hpar Hp]%list_elem_of_filter.
  pose proof Hp as [j Hj]%list_elem_of_lookup. destruct (ok_slot d Ht j p Hj) as (_ & _ & Hx & Hz). specialize (Hz Hpar).
  assert (En : (part_entry (slot_to_info p)).1 = 112 :: fmt_u (s_index p)).
  { unfold part_entry. cbn [fst pi_index slot_to_info]. apply (snprintf_fits 16 (112 :: fmt_u (s_index p))).
    pose proof (fmt_u_len32 (s_index p) Hx). cbn [length]. lia. }
  unfold compose, resolves. rewrite En. eexists _, _. split.
  - apply parse_child_part; [lia|]. destruct base; [cbn in Hb; lia|]. rewrite H1 by done. lia.
  - cbn [stands_for dsl disk_idx Path.comp]. by exists d, p.
Qed.

Lemma disks_resolve g : 0 < len (sessions g) <= 16 →
  Forall (resolves g None) ((λ i, ((snprintf 16 (bs "disk" ++ fmt_d (Z.of_nat i))).2, Some synth_dir_stat)) <$> seq 0 (length (sessions g))).
Proof.
  intros Hn. apply Forall_fmap, Forall_forall. intros i [_ Hi]%elem_of_seq. unfold compose, resolves. cbn [fst].
  rewrite snprintf_fits.
  2:{ rewrite length_app. pose proof (fmt_d_len32 (Z.of_nat i) ltac:(lia)). change (length (bs "disk")) with 4%nat. lia. }
  unfold fmt_d. rewrite (proj2 (Z.ltb_ge _ 0)) by lia. pose proof (parse_dir (len (sessions g)) (Some (Z.of_nat i))) as H.
  cbn [from_option] in H. eexists _, _. split; [apply H; lia|]. cbn. lia.
Qed.

Lemma file_resolves g base name st : base_ok (len (sessions g)) base → is_synth_name name = true → resolves g base (name, st).
Proof.
  intros [Hn Hb] Hs. destruct (parse_child_file (len (sessions g)) base name Hs) as (fp & E & _).
  { destruct base; cbn in *; lia || done. }
  by exists SYNTH_FILE, fp.
Qed.

Section Listing.
Context {W : Type} `{!Lkl W, !LklLaws W, !Host W, !HostLaws W, !Core W, !CoreLaws W, !FsOps W, !FsLaws W}.
Context (creds : Creds) (realloc_ok : Z → bool) (getenv : bytes → option bytes) (iconv_open : bytes → bool)
  (iconv : bytes → bytes → Z → option (bytes * Z)) (iconv_flush : bytes → bytes → Z → option bytes).
Hypothesis Halloc : ∀ n, realloc_ok n = true.
Hypothesis Hiconv : ∀ cs i ol o il, iconv cs i ol = Some (o, il) → len o <= ol.
Hypothesis Hflush : ∀ cs i ol o, iconv_flush cs i ol = Some o → len o <= ol.

(** The disk whose partitions the directory lists, if it does. *)
Definition lists (g : FG) (base : option Z) : option AnyfsSession :=
  match base with
  | Some i => sessions g !! Z.to_nat i
  | None => if len (sessions g) =? 1 then sessions g !! 0%nat else None
  end.

Lemma wp_readdir_root base fh room (s : FG * W) : FOk s → g_mode_a s.1 = false → base_ok (len (sessions s.1)) base →
  wp (anyfs_fuse_readdir creds true realloc_ok getenv iconv_open iconv iconv_flush (dir_text base) fh room)
    (λ r _, r.1 = 0 ∧ ∃ es, r.2 = dots ++ es ∧ Forall (resolves s.1 base) es ∧
       from_option (λ d, part_entry <$> level d ROOT_PARENT ⊆ es) True (lists s.1 base)) s.
Proof.
  intros Hs Em Hb. pose proof (I_refl s Hs) as HI. unfold anyfs_fuse_readdir. apply wp_bind, wp_get. rewrite Em.
  apply wp_bind, wp_bind, wp_gets. eapply wp_opt; [apply parse_dir; destruct Hb, base; cbn in *; lia || done|]. cbn [fst snd].
  set (fp := match base with Some i => _ | None => _ end). assert (Ed : disk_idx fp = default (-1) base) by (by destruct base).
  apply wp_bind. apply (wp_mono _ (λ es s', s' = s ∧ Forall (resolves s.1 base) es ∧
    from_option (λ d, part_entry <$> level d ROOT_PARENT ⊆ es) True (lists s.1 base))).
  - assert (Hlev : ∀ i, 0 <= i < len (sessions s.1) → i = default 0 base → (base = None → len (sessions s.1) = 1) →
      lists s.1 base = sessions s.1 !! Z.to_nat i →
      wp (list_level i (-1)) (λ es s', s' = s ∧ Forall (resolves s.1 base) es ∧
        from_option (λ d, part_entry <$> level d ROOT_PARENT ⊆ es) True (lists s.1 base)) s).
    { intros i Hi Ei H1 El. destruct (disk_lookup _ s i HI Hi) as (d & Hd & Hok & _).
      eapply wp_mono; [eapply wp_list_level; [exact HI|lia|done]|]. intros es s' [-> ->]. split; [done|]. rewrite El, Hd.
      split; [|cbn; set_solver]. apply parts_resolve; [done|done|by rewrite <- Ei|apply Hok]. }
    cbn zeta. rewrite Ed. destruct base as [i|].
    + change (default (-1) (Some i)) with i. destruct Hb as [Hn Hi]. cbn in Hi. rewrite (proj2 (Z.ltb_ge i 0)) by lia. by apply Hlev.
    + change (default (-1) None <? 0) with true. cbn [andb]. unfold lists in *. destruct Hb as [Hn _].
      destruct (Z.eqb_spec (len (sessions s.1)) 1) as [E1|E1]; [apply Hlev; done || lia|]. apply wp_ret. split; [done|]. split; [|done].
      by apply disks_resolve.
  - intros es s' (-> & Hes & Hall). apply wp_bind. eapply wp_mono; [by eapply (wp_table realloc_ok getenv iconv_open iconv iconv_flush Halloc Hiconv Hflush s)|].
    intros c s2 [_ (t & b & -> & _)]. apply wp_ret. split; [done|]. eexists. split; [reflexivity|]. split.
    + apply Forall_app. split; [done|]. apply Forall_cons. split; [by apply file_resolves|]. apply Forall_singleton. by apply file_resolves.
    + destruct (lists s.1 base); [|done]. cbn in *. set_solver.
Qed.
End Listing.

(** ** Properties *)

(** Round trip of FUSE paths: the text made of an optional disk, a chain
    of one to eight partitions with any queries, and an inner path that does
    not itself start with a partition, parses back to exactly that disk, that
    chain and that inner path. *)
Theorem fuse_parse_roundtrip n disk cs tail :
  Forall Path.comp_ok cs → 1 <= len cs <= 8 → tail_ok tail → len (Path.print_path None cs) < 512 →
  from_option (λ i, len i < 4094) True tail → match disk with Some i => 0 <= i < n ∧ n < 2 ^ 31 | None => n <= 1 end →
  parse_fuse_path true n (fuse_text disk cs tail) =
    Some (match tail with Some (_ :: _) => IN_PARTITION | _ => PART_NODE end,
          mk_fp (default 0 disk) (Path.mk_path (Some (Path.print_path None cs)) false 0 (len cs) cs) true
            (match tail with Some (c :: i) => 47 :: c :: i | _ => [] end) (-1) false []).
Proof. apply parse_print. Qed.

Lemma fuse_parse_roundtrip_witness :
  parse_fuse_path true 3 (fuse_text (Some 2) [Path.mk_comp 1 None; Path.mk_comp 7 (Some (bs "k=/"))] (Some (bs "etc/p2"))) =
    Some (IN_PARTITION,
          mk_fp (default 0 (Some 2)) (Path.mk_path (Some (bs "p1/p7?k=%2F")) false 0 2 [Path.mk_comp 1 None; Path.mk_comp 7 (Some (bs "k=/"))])
            true (bs "/etc/p2") (-1) false []).
Proof.
  refine (fuse_parse_roundtrip 3 (Some 2) [Path.mk_comp 1 None; Path.mk_comp 7 (Some (bs "k=/"))] (Some (bs "etc/p2")) _ _ _ _ _ _).
  - repeat constructor; cbn; lia.
  - cbn; lia.
  - right. vm_compute. reflexivity.
  - vm_compute. reflexivity.
  - vm_compute. reflexivity.
  - lia.
Defined.

(** C23 Listings are closed and complete where the frontend serves whole disks
    (no -o part=): listing the root or a disk returns 0 and, after the dots,
    names that all resolve (each parses, under the directory, to a disk, to a
    top-level partition of the disk or to the table), with every top-level
    partition among them when the directory is that of a disk. There are at most
    16 sessions, which agree with the kernel, on distinct disks with at most 64
    partitions each (beyond, the listing reads past its array: [fuse_overruns]);
    the listing buffer can be allocated and iconv stays within its buffer. *)
Theorem fuse_readdir_resolves {W} `{!Lkl W, !LklLaws W, !Host W, !HostLaws W, !Core W, !CoreLaws W, !FsOps W, !FsLaws W}
    creds realloc_ok getenv iconv_open iconv iconv_flush base fh room (s : FG * W) :
  (∀ n, realloc_ok n = true) → (∀ cs i ol o il, iconv cs i ol = Some (o, il) → len o <= ol) →
  (∀ cs i ol o, iconv_flush cs i ol = Some o → len o <= ol) →
  FOk s → g_mode_a s.1 = false → base_ok (len (sessions s.1)) base →
  wp (anyfs_fuse_readdir creds true realloc_ok getenv iconv_open iconv iconv_flush (dir_text base) fh room)
    (λ r _, r.1 = 0 ∧ ∃ es, r.2 = dots ++ es ∧ Forall (resolves s.1 base) es ∧
       from_option (λ d, part_entry <$> level d ROOT_PARENT ⊆ es) True (lists s.1 base)) s.
Proof. intros. by apply wp_readdir_root. Qed.

Lemma fuse_readdir_resolves_witness :
  wp (anyfs_fuse_readdir no_creds true (λ _, true) (λ _, None) (λ _, false) no_iconv no_flush (bs "/disk0") 0 100)
    (λ r _, r.1 = 0 ∧ ∃ es, r.2 = dots ++ es ∧ Forall (resolves fg0 (Some 0)) es ∧
       part_entry <$> level ses0 ROOT_PARENT ⊆ es) (fg0, toy_k).
Proof.
  refine (fuse_readdir_resolves no_creds (λ _, true) (λ _, None) (λ _, false) no_iconv no_flush (Some 0) 0 100 (fg0, toy_k)
            (λ _, eq_refl) _ _ fg0_ok eq_refl _); [by intros..|]. split; cbn; lia.
Defined.

(** Reads are exact: whatever the kernel splits a read into, a read of a
    file that is not one of the tables fails or returns exactly the bytes of
    the file from the offset on, as many as asked for or as there are, and
    leaves the file as it was. *)
Theorem fuse_read_exact {W} `{!Lkl W, !LklLaws W, !Host W, !HostLaws W, !Core W, !CoreLaws W, !FsOps W, !FileLaws W}
    strdup realloc_ok getenv iconv_open iconv iconv_flush path size off fh (s : FG * W) :
  0 < size → 0 <= off →
  (g_mode_a s.1 = true ∨ ∃ k fp, parse_fuse_path strdup (len (sessions s.1)) path = Some (k, fp) ∧ k ≠ SYNTH_FILE) →
  let x := take (Z.to_nat size) (drop (Z.to_nat off) (file s.2 fh)) in
  wp (anyfs_fuse_read strdup realloc_ok getenv iconv_open iconv iconv_flush path size off fh) (λ r s',
    r.1 < 0 ∨ r = (len x, x) ∧ file s'.2 fh = file s.2 fh) s.
Proof.
  intros Hs Ho Hk x. unfold anyfs_fuse_read. apply wp_bind, wp_get.
  pose proof (wp_read_all (S (Z.to_nat size)) fh size off [] s Hs Ho ltac:(lia)) as H. fold x in H.
  destruct Hk as [->|(k & fp & E & Hn)]; apply wp_bind; [by apply wp_ret|]. destruct (g_mode_a s.1); [by apply wp_ret|].
  apply wp_bind, wp_gets. eapply wp_opt; [exact E|]. cbn [fst snd]. by destruct k.
Qed.

#[export] Instance toy_file : FileLaws Toy.toy.
Proof.
  refine {| file := Toy.content |}.
  - intros fd n off w Ho Hn. cbn [fs_call toy_fsops toy_fs]. unfold Toy.slice. cbn [rc data toy_reply]. split; [done|]. right.
    set (d := drop _ _). assert (E : take (Z.to_nat n) d = take (length (take (Z.to_nat n) d)) d).
    { rewrite length_take. destruct (decide (Z.to_nat n <= length d)%nat); [f_equal; lia|]. rewrite !take_ge by lia. done. }
    split; [rewrite length_take; lia|]. split; [done|]. split; [done|]. rewrite length_take. unfold d. rewrite length_drop. lia.
  - intros fd b off w Ho. right. cbn [fs_call toy_fsops toy_fs rc toy_reply]. split; [lia|done].
Defined.

Definition fuse_toy_open : Toy.toy :=
  Toy.mk_toy 6 (mk_view {[ 5 := bs "/f" ]} ∅ ∅ ∅) {[ bs "/f" := bs "hello world" ]} ∅ ∅ 0 Toy.empty_hview ∅.
Lemma fuse_read_exact_witness :
  wp (anyfs_fuse_read true (λ _, true) (λ _, None) (λ _, false) no_iconv no_flush (bs "/disk0/p1/f") 4 6 5) (λ r s',
    r.1 < 0 ∨ r = (4, bs "worl") ∧ file s'.2 5 = bs "hello world") (fg0, fuse_toy_open).
Proof.
  refine (fuse_read_exact true (λ _, true) (λ _, None) (λ _, false) no_iconv no_flush (bs "/disk0/p1/f") 4 6 5 (fg0, fuse_toy_open)
            ltac:(lia) ltac:(lia) _).
  right. eexists _, _. split; [vm_compute; reflexivity|done].
Defined.

(** Writes are exact: whatever the kernel splits a write into, the file
    afterwards is the old one with a prefix of the buffer laid over it at the
    offset, and a value that is not an error is the length of that prefix. *)
Theorem fuse_write_exact {W} `{!FsOps W, !FileLaws W} path buf off fh (s : FG * W) : 0 <= off →
  wp (anyfs_fuse_write path buf off fh) (λ r s', ∃ k, (k <= length buf)%nat ∧ (r < 0 ∨ r = Z.of_nat k) ∧
    file s'.2 fh = patch off (take k buf) (file s.2 fh)) s.
Proof. intros Ho. apply (wp_write_fh (S (length buf)) fh buf off 0); [done|lia]. Qed.

(** A kernel of one file that takes two bytes at a time. *)
Definition slow_fs (c : syscall) : kcall bytes reply := λ w,
  match c with
  | Pread fd n off => let d := take (Z.to_nat (Z.min n 2)) (drop (Z.to_nat off) w) in (toy_reply (len d) d, w)
  | Pwrite fd b off => let d := take 2 b in (toy_reply (len d) [], patch off d w)
  | _ => (toy_reply 0 [], w)
  end.
#[export] Instance slow_fsops : FsOps bytes := {| fs_call := slow_fs |}.
#[export] Instance slow_file : FileLaws bytes.
Proof.
  refine {| file := λ w _, w |}.
  - intros fd n off w Ho Hn. cbn [fs_call slow_fsops slow_fs rc data toy_reply]. split; [done|]. right.
    set (d := drop _ _). set (m := Z.to_nat (Z.min n 2)). assert (E : take m d = take (length (take m d)) d).
    { rewrite length_take. destruct (decide (m <= length d)%nat); [f_equal; lia|]. rewrite !take_ge by lia. done. }
    split; [rewrite length_take; lia|]. split; [done|]. split; [done|]. rewrite length_take. unfold d. rewrite length_drop. lia.
  - intros fd b off w Ho. right. cbn [fs_call slow_fsops slow_fs rc toy_reply]. split; [rewrite length_take; lia|].
    f_equal. rewrite Nat2Z.id, length_take. destruct (decide (2 <= length b)%nat); [f_equal; lia|]. rewrite !take_ge by lia. done.
Defined.

Lemma fuse_write_exact_witness :
  wp (anyfs_fuse_write (bs "/p1/f") (bs "HELLO") 3 5) (λ r s', ∃ k, (k <= 5)%nat ∧ (r < 0 ∨ r = Z.of_nat k) ∧
    file s'.2 5 = patch 3 (take k (bs "HELLO")) (bs "0123456789")) (fg0, bs "0123456789").
Proof. exact (fuse_write_exact (bs "/p1/f") (bs "HELLO") 3 5 (fg0, bs "0123456789") ltac:(lia)). Defined.

Example slow_write : (λ r, (r.1, r.2.2)) <$> anyfs_fuse_write (bs "/p1/f") (bs "HELLO") 3 5 (fg0, bs "0123456789")
  = Some (5, bs "012HELLO89").
Proof. vm_compute. reflexivity. Qed.

(** ** Limits *)

(** Up to 15 images before the mount point are all opened, in order. *)
Lemma images_all image extras mountpoint : len extras < 15 →
  all_images (drop_mountpoint (foldl anyfs_fuse_opt_proc (None, []) (image :: extras ++ [mountpoint])) mountpoint) = image :: extras.
Proof.
  intros Hn. cbn [foldl].
  assert (H : ∀ l acc, len acc + len l <= 15 → foldl anyfs_fuse_opt_proc (Some image, acc) l = (Some image, acc ++ l)).
  { induction l as [|a l IH]; intros acc Hl; cbn [foldl length] in *; [by rewrite app_nil_r|]. unfold anyfs_fuse_opt_proc at 2.
    cbn [fst snd]. rewrite (proj2 (Z.ltb_lt _ _)) by (unfold ANYFS_MAX_DISKS; lia). rewrite IH, <- app_assoc; [done|].
    rewrite length_app. cbn. lia. }
  change (anyfs_fuse_opt_proc (None, []) image) with (Some image, @nil bytes).
  rewrite H by (rewrite length_app; cbn; lia). unfold drop_mountpoint. cbn [fst snd]. rewrite app_nil_l, last_snoc.
  unfold streq. rewrite bool_decide_true by done. unfold all_images. cbn [fst snd]. by rewrite removelast_last.
Qed.

(** With more, the images past the sixteenth are left out without a word. *)
Lemma images_dropped :
  all_images (drop_mountpoint (foldl anyfs_fuse_opt_proc (None, []) (replicate 17 (bs "a") ++ [bs "/mnt"])) (bs "/mnt"))
  = replicate 16 (bs "a").
Proof. vm_compute. reflexivity. Qed.

(** A disk with 65 partitions: anyfs_session_list reports 65 for the array of
    64 entries, and the loops of readdir and of the prefetch read past it. *)
Definition slot_n (i : nat) : PartSlot :=
  mk_slot (Z.of_nat i) ROOT_PARENT (Z.of_nat i + 1) 0 0 [] [] [] ANYFS_PART_KIND_UNKNOWN ANYFS_PART_NEW None [] [] [].
Definition wide : AnyfsSession :=
  mk_session 0 0 (bs "w.img") (bs "w.img") (bs "vda") [] [] [] 0 ANYFS_PART_NEW (slot_n <$> seq 0 65).
Definition fg_wide : FG := mk_fg [wide] [[]] false [] 0 (-1) [].

Lemma fuse_overruns :
  anyfs_fuse_readdir no_creds true (λ _, true) (λ _, None) (λ _, false) no_iconv no_flush (bs "/") 0 100 (fg_wide, toy_k) = None ∧
  prefetch_all no_creds (fg_wide, toy_k) = None.
Proof. split; vm_compute; reflexivity. Qed.

(** A path that does not fit 4095 bytes is cut, and the call is made on what
    is left: unlink of a name removes another one. *)
Definition fg_pinned : FG := mk_fg [ses0] [[]] true (bs "/lklmnt/anyfs_d0_p1") 0 (-1) [].
Lemma fuse_truncates :
  let path := 47 :: replicate 4080 97 in
  (λ r, (r.1, calls r.2.1)) <$> anyfs_fuse_unlink no_creds true path (fg_pinned, toy_k)
    = Some (0, [Unlink (bs "/lklmnt/anyfs_d0_p1" ++ 47 :: replicate 4075 97)]).
Proof. vm_compute. reflexivity. Qed.
End FuseData.
