(* ===== verification/FuseMain.v ===== *)
(** * FuseMain

    src/fuse/fuse_main.c: the options, main from the command line to the exit,
    and the errno translation of the macOS build.  libfuse is not part of the
    repository: its calls are a class over an arbitrary state; what main
    acquires and releases is kept as a list of events. *)
From S2P Require Import Prelude CLib Strbuf Legacy Lkl Path Probe Sysfs Mount Raw Backend Session SessionSpec SessionOpen SessionFrame DiskSet Format Labels.
From S2P Require Import LsPart Fuse FuseSpec.
Import CLib Strbuf Probe Mount Session SessionSpec SessionFrame SessionOpen DiskSet Format Labels Fuse FuseSpec.
Import LsPart (rig_blkid).

Class FuseLib (W : Type) := {
  fuse_parse_cmdline : kcall W (Z * option bytes);
  fuse_new : kcall W bool;
  fuse_set_signal_handlers : kcall W Z;
  fuse_mount : bytes → kcall W Z;
  fuse_daemonize : kcall W Z;
  fuse_loop : kcall W Z;
  fuse_unmount : kcall W ();
  fuse_remove_signal_handlers : kcall W ();
  fuse_destroy : kcall W () }.

(** libfuse does not call the kernel of the process, apart from the requests
    it delivers. *)
Class FuseLibKeeps (W : Type) `{!Lkl W, !LklLaws W, !FuseLib W} : Prop := {
  fk_parse w : view (fuse_parse_cmdline w).2 = view w;
  fk_new w : view (fuse_new w).2 = view w;
  fk_signals w : view (fuse_set_signal_handlers w).2 = view w;
  fk_mount p w : view (fuse_mount p w).2 = view w;
  fk_daemonize w : view (fuse_daemonize w).2 = view w;
  fk_loop w : view (fuse_loop w).2 = view w;
  fk_unmount w : view (fuse_unmount w).2 = view w;
  fk_remove w : view (fuse_remove_signal_handlers w).2 = view w;
  fk_destroy w : view (fuse_destroy w).2 = view w }.

Module FuseMain.

(** ** Options *)

(** struct anyfs_fuse_config with g_extra_images. *)
Record config := mk_config {
  image : option bytes; extra : list bytes; part : option bytes; prefetch : bool; readonly : bool; mem_mb : Z; loglevel : Z;
  fstype : option bytes; opts : option bytes; legacy_encoding : option bytes }.
Definition config0 : config := mk_config None [] None false true 32 0 None None None.

Inductive key := FUSE_OPT_KEY_OPT | FUSE_OPT_KEY_NONOPT | KEY_HELP | KEY_VERSION.

Definition set_images (i : images) (c : config) : config :=
  mk_config i.1 i.2 (part c) (prefetch c) (readonly c) (mem_mb c) (loglevel c) (fstype c) (opts c) (legacy_encoding c).

(** The whole callback: an exit, or the value returned (whether the argument
    is kept) and the configuration. *)
Definition opt_proc (c : config) (arg : bytes) (k : key) : Z + bool * config :=
  match k with
  | FUSE_OPT_KEY_OPT =>
      if streq arg (bs "ro")
      then inr (true, mk_config (image c) (extra c) (part c) (prefetch c) true (mem_mb c) (loglevel c) (fstype c) (opts c) (legacy_encoding c))
      else inr (true, c)
  | FUSE_OPT_KEY_NONOPT =>
      inr (match image c with None => false | Some _ => true end, set_images (anyfs_fuse_opt_proc (image c, extra c) arg) c)
  | KEY_HELP => inl 1
  | KEY_VERSION => inl 0
  end.

(** ** main *)

Inductive resource := RSession | RSignals | RMount | RKernel | RDisks.
#[export] Instance resource_eq : EqDecision resource.
Proof. solve_decision. Defined.
Inductive event := Acquire (r : resource) | Release (r : resource).

Section Main.
Context {W : Type} `{!Lkl W, !Host W, !Core W, !FsOps W, !FuseLib W} (calloc strdup : bool) (creds : Creds).
Context (realloc_ok : Z → bool) (getenv : bytes → option bytes) (iconv_open : bytes → bool)
  (iconv : bytes → bytes → Z → option (bytes * Z)) (iconv_flush : bytes → bytes → Z → option bytes).
(** anyfs_kernel_init and anyfs_kernel_halt (in Kernel). *)
Context (boot : Z → Z → M W Z) (halt : M W ()).
Notation St := (FG * W)%type.
Notation Out := (Z * list event)%type.

Definition lib {A} (f : kcall W A) : M St A := lower (call f).

(** *** The labels of main, from the last one up *)
Definition out_fuse_destroy (ret : Z) (evs : list event) : M St Out :=
  _ ← lib fuse_destroy; mret (ret, evs ++ [Release RSession]).
Definition out_remove_signals (ret : Z) (evs : list event) : M St Out :=
  _ ← lib fuse_remove_signal_handlers; out_fuse_destroy ret (evs ++ [Release RSignals]).
Definition out_fuse_unmount (ret : Z) (evs : list event) : M St Out :=
  _ ← lib fuse_unmount; out_remove_signals ret (evs ++ [Release RMount]).
Definition out_kernel_halt (ret : Z) (evs : list event) : M St Out :=
  _ ← lower halt; out_fuse_unmount ret (evs ++ [Release RKernel]).
Definition out_disks_close (ret : Z) (evs : list event) : M St Out :=
  ds ← mgets (λ s, sessions s.1);
  _ ← lower (mfor ds close_session);
  _ ← mmod (λ s, (set_sessions [] s.1, s.2));
  out_kernel_halt ret (evs ++ [Release RDisks]).

Definition disk_flags (c : config) : Z :=
  if readonly c then Z.lor Backend.ANYFS_BACKEND_QEMU Raw.ANYFS_SESSION_READONLY else Backend.ANYFS_BACKEND_QEMU.

(** Steps 3 to 5; [rs] are the requests that fuse_loop delivers. *)
Definition serve (c : config) (rs : list request) (evs : list event) : M St Out :=
  o ← lower (anyfs_share_open_disks calloc ANYFS_MAX_DISKS (all_images (image c, extra c)) (disk_flags c) []);
  match o with
  | None => out_kernel_halt 1 evs
  | Some ds =>
      _ ← mmod (λ s, (set_cached (replicate (length ds) (replicate 64 [])) (set_sessions ds s.1), s.2));
      let evs := evs ++ [Acquire RDisks] in
      r ← fuse_run creds strdup realloc_ok getenv iconv_open iconv iconv_flush (part c) (prefetch c) rs;
      if negb (r =? 0) then out_disks_close r evs
      else
        ret ← lib fuse_loop;
        _ ← lower lkl_sys_sync;
        out_disks_close ret evs
  end.

Definition set_flags (e f : Z) (g : FG) : FG :=
  mk_fg (sessions g) (cache g) (g_mode_a g) (g_mount_point g) f e (calls g).

Definition main (c : config) (rs : list request) : M St Out :=
  let e := Legacy.anyfs_legacy_parse getenv (Some (default (bs "auto") (legacy_encoding c))) in
  if e <? 0 then mret (1, [])
  else
    _ ← mmod (λ s, (set_flags (Legacy.anyfs_legacy_set e) (Legacy.anyfs_legacy_fat_flag e) s.1, s.2));
    match image c with
    | None => mret (1, [])
    | Some _ =>
        r ← lib fuse_parse_cmdline;
        if negb (r.1 =? 0) then mret (1, [])
        else
          match r.2 with
          | None => mret (1, [])
          | Some mountpoint =>
              let c := set_images (drop_mountpoint (image c, extra c) mountpoint) c in
              ok ← lib fuse_new;
              if negb ok then mret (1, [])
              else
                let evs := [Acquire RSession] in
                ret ← lib fuse_set_signal_handlers;
                if ret <? 0 then out_fuse_destroy ret evs
                else
                  let evs := evs ++ [Acquire RSignals] in
                  ret ← lib (fuse_mount mountpoint);
                  if ret <? 0 then out_remove_signals ret evs
                  else
                    let evs := evs ++ [Acquire RMount] in
                    ret ← lib fuse_daemonize;
                    if ret <? 0 then out_fuse_unmount ret evs
                    else
                      ret ← lower (boot (mem_mb c) (loglevel c));
                      if ret <? 0 then out_fuse_unmount ret evs
                      else serve c rs (evs ++ [Acquire RKernel])
          end
    end.
End Main.

(** ** Errors on macOS *)

(** lkl_host_errno: the Linux number and the macOS number of each name. *)
Definition lkl_host_errno : list (Z * Z) :=
  [ (1, 1); (2, 2); (3, 3); (4, 4); (5, 5); (6, 6); (7, 7); (8, 8); (9, 9); (10, 10);
    (11, 35) (* EAGAIN *); (12, 12); (13, 13); (14, 14); (15, 15); (16, 16); (17, 17); (18, 18); (19, 19); (20, 20);
    (21, 21); (22, 22); (23, 23); (24, 24); (25, 25); (26, 26); (27, 27); (28, 28); (29, 29); (30, 30);
    (31, 31); (32, 32); (33, 33); (34, 34);
    (35, 11) (* EDEADLK *); (36, 63) (* ENAMETOOLONG *); (37, 77) (* ENOLCK *); (38, 78) (* ENOSYS *);
    (39, 66) (* ENOTEMPTY *); (40, 62) (* ELOOP *); (42, 91) (* ENOMSG *); (43, 90) (* EIDRM *); (60, 99) (* ENOSTR *);
    (62, 101) (* ETIME *); (63, 98) (* ENOSR *); (67, 97) (* ENOLINK *); (71, 100) (* EPROTO *); (72, 95) (* EMULTIHOP *);
    (74, 94) (* EBADMSG *); (75, 84) (* EOVERFLOW *); (84, 92) (* EILSEQ *); (87, 68) (* EUSERS *); (88, 38) (* ENOTSOCK *);
    (89, 39) (* EDESTADDRREQ *); (90, 40) (* EMSGSIZE *); (91, 41) (* EPROTOTYPE *); (92, 42) (* ENOPROTOOPT *);
    (93, 43) (* EPROTONOSUPPORT *); (94, 44) (* ESOCKTNOSUPPORT *); (96, 46) (* EPFNOSUPPORT *); (97, 47) (* EAFNOSUPPORT *);
    (98, 48) (* EADDRINUSE *); (99, 49) (* EADDRNOTAVAIL *); (100, 50) (* ENETDOWN *); (101, 51) (* ENETUNREACH *);
    (102, 52) (* ENETRESET *); (103, 53) (* ECONNABORTED *); (104, 54) (* ECONNRESET *); (105, 55) (* ENOBUFS *);
    (106, 56) (* EISCONN *); (107, 57) (* ENOTCONN *); (108, 58) (* ESHUTDOWN *); (109, 59) (* ETOOMANYREFS *);
    (110, 60) (* ETIMEDOUT *); (111, 61) (* ECONNREFUSED *); (112, 64) (* EHOSTDOWN *); (113, 65) (* EHOSTUNREACH *);
    (114, 37) (* EALREADY *); (115, 36) (* EINPROGRESS *); (116, 70) (* ESTALE *); (122, 69) (* EDQUOT *);
    (125, 89) (* ECANCELED *); (130, 105) (* EOWNERDEAD *); (131, 104) (* ENOTRECOVERABLE *);
    (61, 93) (* ENODATA, ENOATTR *); (95, 45) (* EOPNOTSUPP, ENOTSUP *) ].

Definition host_errno (r : Z) : Z :=
  if 0 <=? r then r
  else match list_find (λ e, e.1 = - r) lkl_host_errno with Some (_, e) => - e.2 | None => - EIO end.

(** DARWIN_ERRNO *)
Definition darwin {St} (op : M St Z) : M St Z := r ← op; mret (host_errno r).

(** ** Specification *)

(** What is released is what was acquired last. *)
Fixpoint bracket (evs : list event) (held : list resource) : option (list resource) :=
  match evs with
  | [] => Some held
  | Acquire r :: evs => bracket evs (r :: held)
  | Release r :: evs => match held with r' :: held => if decide (r = r') then bracket evs held else None | [] => None end
  end.

Section Spec.
Context {W : Type} `{!Lkl W, !LklLaws W, !Host W, !HostLaws W, !Core W, !CoreLaws W, !FsOps W, !FsLaws W, !FuseLib W, !FuseLibKeeps W}.
Context (calloc strdup : bool) (creds : Creds).
Context (realloc_ok : Z → bool) (getenv : bytes → option bytes) (iconv_open : bytes → bool)
  (iconv : bytes → bytes → Z → option (bytes * Z)) (iconv_flush : bytes → bytes → Z → option bytes) (boot : Z → Z → M W Z) (halt : M W ()).
Notation St := (FG * W)%type.

Hypothesis Halloc : ∀ n, realloc_ok n = true.
Hypothesis Hiconv : ∀ cs i ol o il, iconv cs i ol = Some (o, il) → len o <= ol.
Hypothesis Hflush : ∀ cs i ol o, iconv_flush cs i ol = Some o → len o <= ol.
Hypothesis Hsane : sysfs_sane (W := W).
Hypothesis Htame : tame_disks (W := W).
Hypothesis Humount : umount_works (W := W).
Hypothesis Hblkid : blkid_bytes (W := W).
Hypothesis Hfew : few_parts (W := W) MAX_PARTS_PER_DISK.
Hypothesis Hboot : ∀ m l w, wp (boot m l) (λ _ w', elsewhere w w') w.
Hypothesis Hhalt : quiet_halt halt.

Lemma wp_lib {A} (f : kcall W A) (Q : A → St → Prop) s : (∀ w, view (f w).2 = view w) →
  (∀ a w', view w' = view s.2 → Q a (s.1, w')) → wp (lib f) Q s.
Proof. intros Hf H. apply wp_lower, wp_call. by apply H. Qed.

(** *** The way out *)
Definition left_by (ret : Z) (evs : list event) (s : St) (r : Z * list event) (s' : St) : Prop :=
  r = (ret, evs) ∧ s'.1 = s.1 ∧ view s'.2 = view s.2.

Lemma wp_out_destroy ret evs s : wp (out_fuse_destroy ret evs) (left_by ret (evs ++ [Release RSession]) s) s.
Proof. apply wp_bind, wp_lib; [apply fk_destroy|]. intros _ w' E. by apply wp_ret. Qed.
Lemma wp_out_signals ret evs s : wp (out_remove_signals ret evs) (left_by ret (evs ++ [Release RSignals; Release RSession]) s) s.
Proof.
  apply wp_bind, wp_lib; [apply fk_remove|]. intros _ w' E. wp_use wp_out_destroy. intros r s' (-> & H1 & H2). rewrite <- app_assoc. split_and!; [done..|by rewrite H2].
Qed.
Lemma wp_out_unmount ret evs s : wp (out_fuse_unmount ret evs) (left_by ret (evs ++ [Release RMount; Release RSignals; Release RSession]) s) s.
Proof.
  apply wp_bind, wp_lib; [apply fk_unmount|]. intros _ w' E. wp_use wp_out_signals. intros r s' (-> & H1 & H2). rewrite <- app_assoc. split_and!; [done..|by rewrite H2].
Qed.
(** After the halt: no disk was attached or detached, and nothing mounted. *)
Definition halted_by (ret : Z) (evs : list event) (s : St) (r : Z * list event) (s' : St) : Prop :=
  r = (ret, evs) ∧ s'.1 = s.1 ∧ v_dsk (view s'.2) = v_dsk (view s.2) ∧ ∀ p, mnts s.2 !! p = None → mnts s'.2 !! p = None.
Lemma wp_out_halt ret evs s :
  wp (out_kernel_halt halt ret evs) (halted_by ret (evs ++ [Release RKernel; Release RMount; Release RSignals; Release RSession]) s) s.
Proof.
  unfold out_kernel_halt. apply wp_bind, wp_lower. wp_use Hhalt. intros [] w1 [HD Hm]. wp_use wp_out_unmount. intros r s' (-> & E1 & E2).
  cbn [fst snd] in *. split; [by rewrite <- app_assoc|]. split; [done|]. unfold mnts in *. by rewrite E2.
Qed.

(** *** Serving *)

Lemma open_disks_facts cap imgs flags ds w r w' : Forall (λ d, labels_ok d ∧ len (parts d) <= MAX_PARTS_PER_DISK) ds →
  anyfs_share_open_disks calloc cap imgs flags ds w = Some (Some r, w') → Forall (λ d, labels_ok d ∧ len (parts d) <= MAX_PARTS_PER_DISK) r.
Proof.
  revert ds w. induction imgs as [|i imgs IH]; intros ds w HF; cbn [anyfs_share_open_disks].
  { unfold mret, M_ret. by intros [= <- _]. }
  unfold mbind at 1, M_bind at 1. destruct (anyfs_session_open calloc calloc (Some (img_clean i)) flags w) as [[[rc o] w1]|] eqn:E; [|done].
  destruct (if (rc, o).1 <? 0 then None else (rc, o).2) as [d|] eqn:Ed.
  - cbn [fst snd] in Ed. destruct (rc <? 0); [done|]. subst o. case_if; [done|]. apply IH, Forall_app. split; [done|]. apply Forall_singleton.
    split; [|by eapply (open_few MAX_PARTS_PER_DISK Hfew ltac:(done) calloc calloc (Some (img_clean i)) flags w)].
    by eapply (open_labels Hblkid calloc calloc (Some (img_clean i)) flags w).
  - unfold mbind, M_bind. destruct (mfor ds close_session w1) as [[[] w2]|]; [|done]. unfold mret, M_ret. done.
Qed.

(** A path under a mount point of one of the disks [ds]. *)
Definition under (ds : list AnyfsSession) (path : bytes) : Prop :=
  ∃ m rest, mount_of ds m ∧ path = m ++ rest ∧ (rest = [] ∨ ∃ r, rest = 47 :: r).

Lemma confined_under_disks g path : pinned g → confined g path → under (sessions g) path.
Proof.
  intros Hp (m & rest & Hm & E). exists m, rest. split; [|done]. unfold serves in Hm. destruct (g_mode_a g) eqn:Em; [|done]. subst m. by apply Hp.
Qed.

(** What main leaves: the disks of the kernel as they were, no session, every
    mount point a session held unmounted, and calls only under the mount
    points of disks that it attached itself. *)
Definition left_clean (s s' : St) : Prop :=
  v_dsk (view s'.2) = v_dsk (view s.2) ∧ sessions s'.1 = [] ∧
  ∃ ds new, calls s'.1 = calls s.1 ++ new ∧ list_to_set (disk_id <$> ds) ## v_dsk (view s.2) ∧
    Forall (λ c, Forall (under ds) (paths_of c)) new ∧ Forall (λ d, ∀ path, owned d path → mnts s'.2 !! path = None) ds.

Lemma left_clean_quiet (s s' : St) : sessions s'.1 = [] → calls s'.1 = calls s.1 → v_dsk (view s'.2) = v_dsk (view s.2) → left_clean s s'.
Proof.
  intros Hs Hc Hv. split; [done|]. split; [done|]. exists [], []. rewrite app_nil_r. split_and!; [done|set_solver|constructor|constructor].
Qed.

Lemma wp_close_sessions ret evs s : SetInv (sessions s.1) s.2 →
  wp (out_disks_close halt ret evs) (λ r s', r = (ret, evs ++ [Release RDisks; Release RKernel; Release RMount; Release RSignals; Release RSession]) ∧
    sessions s'.1 = [] ∧ calls s'.1 = calls s.1 ∧ v_dsk (view s'.2) = v_dsk (view s.2) ∖ list_to_set (disk_id <$> sessions s.1) ∧
    Forall (λ d, ∀ path, owned d path → mnts s'.2 !! path = None) (sessions s.1)) s.
Proof.
  intros HS. unfold out_disks_close. apply wp_bind, wp_gets, wp_bind, wp_lower. wp_use (wp_close_all (sessions s.1) []); [done|by rewrite app_nil_r|].
  intros ? w1 (_ & HD & Hm). apply wp_bind, wp_mod. wp_use wp_out_halt. intros r s' (-> & E1 & Ev & Em). rewrite <- app_assoc. split; [done|].
  rewrite E1. cbn [fst snd sessions set_sessions calls] in *. split; [done|]. split; [done|]. rewrite Ev. split; [done|].
  apply Forall_forall. intros d Hd path Ho. apply Em, Hm, Exists_exists. by exists d.
Qed.

Lemma FOk_set (s : St) : SetInv (sessions s.1) s.2 → Forall (λ d, labels_ok d ∧ len (parts d) <= MAX_PARTS_PER_DISK) (sessions s.1) →
  len (sessions s.1) <= 16 → FOk s.
Proof.
  intros [HI Hn] HF Hl. split; [|done|done]. apply Forall_forall. intros d Hd. destruct (proj1 (Forall_forall _ _) HI d Hd), (proj1 (Forall_forall _ _) HF d Hd). by split_and!.
Qed.

Lemma wp_fuse_serve c rs evs s : sessions s.1 = [] → g_mode_a s.1 = false → len (all_images (image c, extra c)) <= ANYFS_MAX_DISKS →
  from_option CStr True (part c) → Forall req_ok rs →
  wp (serve calloc strdup creds realloc_ok getenv iconv_open iconv iconv_flush halt c rs evs) (λ r s', left_clean s s' ∧
    ∃ e, r.2 = evs ++ e ∧ bracket e [RKernel; RMount; RSignals; RSession] = Some []) s.
Proof.
  intros Hses Hm Hcap Hp Hr. unfold serve. apply wp_bind, wp_lower.
  destruct (wp_elim _ _ _ (wp_open_disks calloc ANYFS_MAX_DISKS (all_images (image c, extra c)) (disk_flags c) [] s.2 Hsane Htame Humount Hcap (set_nil _) (Forall_nil_2 _)))
    as (o & w1 & Eo & Hm1 & Ho). eapply wp_intro; [exact Eo|]. destruct o as [ds|].
  2: { wp_use wp_out_halt. intros r s' (-> & E1 & Ev & _). cbn [fst snd] in *. split; [|eexists; split; [done|by vm_compute]].
       apply left_clean_quiet; [by rewrite E1|by rewrite E1|]. cbn in Ho. by rewrite Ev, Ho, difference_empty_L. }
  destruct Ho as (new & -> & Hl & HS & _ & Hdis & HD1). cbn [app] in *. pose proof (open_disks_facts _ _ _ _ _ _ _ (Forall_nil_2 _) Eo) as HF.
  apply wp_bind, wp_mod. cbn [fst snd]. set (s1 := (set_cached _ (set_sessions new s.1), w1)).
  assert (Hlen : len (sessions s1.1) <= 16) by (cbn; unfold ANYFS_MAX_DISKS in *; lia).
  apply wp_bind. wp_use (wp_fuse_run creds strdup realloc_ok getenv iconv_open iconv iconv_flush (part c) (prefetch c) rs s1); [done..|by apply FOk_set|done|done|done|].
  intros r s2 (HO2 & Hst & HD2 & Hok & calls2 & Ec & Hnil & Hc2).
  assert (Hids : disk_id <$> sessions s2.1 = disk_id <$> new).
  { apply (f_equal (fmap (λ x, x.1.1))) in Hst. rewrite <- !list_fmap_compose in Hst. exact Hst. }
  assert (HS2 : ∀ s3, sessions s3.1 = sessions s2.1 → view s3.2 = view s2.2 → SetInv (sessions s3.1) s3.2).
  { intros s3 E3 V3. rewrite E3. unfold SetInv, mnts. rewrite V3. split; [|apply HO2]. apply Forall_forall. intros d Hd.
    split; [apply (proj1 (Forall_forall _ _) (fo_disks _ HO2) d Hd)|]. rewrite HD2. change (view s1.2) with (view w1). rewrite HD1, elem_of_union, elem_of_list_to_set, <- Hids. left.
    by apply list_elem_of_fmap_2. }
  assert (Hend : ∀ ret s3, s3.1 = s2.1 → view s3.2 = view s2.2 →
    wp (out_disks_close halt ret (evs ++ [Acquire RDisks])) (λ r s', left_clean s s' ∧ ∃ e, r.2 = evs ++ e ∧ bracket e [RKernel; RMount; RSignals; RSession] = Some []) s3).
  { intros ret s3 E3 V3. wp_use wp_close_sessions; [apply HS2; [by rewrite E3|done]|]. intros x s4 (-> & Hs4 & Hc4 & HD4 & Hm4). split.
    - split; [|split; [done|]].
      + rewrite HD4, V3, HD2, E3. change (view s1.2) with (view w1). rewrite HD1, Hids. clear - Hdis. set_solver.
      + exists (sessions s2.1), calls2. rewrite Hc4, E3, Ec. split; [done|]. split; [by rewrite Hids|]. split; [|by rewrite E3 in Hm4].
        destruct (decide (r = 0)) as [->|Hn]; [|rewrite Hnil by done; constructor]. destruct (Hok eq_refl) as [_ Hpin].
        eapply Forall_impl; [exact Hc2|]. intros q Hq. eapply Forall_impl; [exact Hq|]. intros path. by apply confined_under_disks.
    - rewrite <- app_assoc. eexists. split; [done|by vm_compute]. }
  case_if; [by apply Hend|]. apply wp_bind, wp_lib; [apply fk_loop|]. intros ret w3 V3. apply wp_bind, wp_lower, wp_sync. intros _ w4 V4. cbn [fst snd] in *.
  apply Hend; [done|cbn; congruence].
Qed.

Lemma all_images_drop i m : len (all_images (drop_mountpoint i m)) <= len (all_images i).
Proof.
  destruct i as [[i|] l]; unfold drop_mountpoint; cbn [fst snd]; (destruct (last l) as [x|] eqn:E; [|done]); (destruct (streq x m); [|done]);
    apply last_Some in E as [l' ->]; cbn [all_images fst snd length]; rewrite removelast_last, length_app; cbn; lia.
Qed.

Lemma wp_main c rs s : sessions s.1 = [] → g_mode_a s.1 = false → len (all_images (image c, extra c)) <= ANYFS_MAX_DISKS →
  from_option CStr True (part c) → Forall req_ok rs →
  wp (main calloc strdup creds realloc_ok getenv iconv_open iconv iconv_flush boot halt c rs) (λ r s', left_clean s s' ∧ bracket r.2 [] = Some []) s.
Proof.
  intros Hs Hm Hcap Hp Hr. unfold main. set (e := Legacy.anyfs_legacy_parse _ _). case_match; [apply wp_ret; split; [by apply left_clean_quiet|done]|].
  apply wp_bind, wp_mod. set (s1 := (set_flags _ _ s.1, s.2)).
  assert (Hq : ∀ s' : St, s'.1 = s1.1 → v_dsk (view s'.2) = v_dsk (view s.2) → left_clean s s') by (intros s' E V; apply left_clean_quiet; rewrite ?E, ?V; done).
  destruct (image c) as [img|] eqn:Ei; [|apply wp_ret; split; [by apply Hq|done]]. apply wp_bind, wp_lib; [apply fk_parse|]. intros r w2 V2. change (view w2 = view s.2) in V2.
  case_match; [apply wp_ret; split; [apply Hq; [done|cbn [snd]; congruence]|done]|]. destruct r.2 as [mp|]; [|apply wp_ret; split; [apply Hq; [done|cbn [snd]; congruence]|done]].
  set (c' := set_images _ c). apply wp_bind, wp_lib; [apply fk_new|]. intros ok w3 V3. cbn [fst snd] in *. case_match; [apply wp_ret; split; [apply Hq; [done|cbn [snd]; congruence]|done]|].
  apply wp_bind, wp_lib; [apply fk_signals|]. intros ret w4 V4. cbn [fst snd] in *.
  case_match; [wp_use wp_out_destroy; intros x s' (-> & E & V); split; [apply Hq; [done|cbn [snd] in *; congruence]|by vm_compute]|].
  apply wp_bind, wp_lib; [apply fk_mount|]. intros ret2 w5 V5. cbn [fst snd] in *.
  case_match; [wp_use wp_out_signals; intros x s' (-> & E & V); split; [apply Hq; [done|cbn [snd] in *; congruence]|by vm_compute]|].
  apply wp_bind, wp_lib; [apply fk_daemonize|]. intros ret3 w6 V6. cbn [fst snd] in *.
  case_match; [wp_use wp_out_unmount; intros x s' (-> & E & V); split; [apply Hq; [done|cbn [snd] in *; congruence]|by vm_compute]|].
  apply wp_bind, wp_lower. wp_use Hboot. intros ret4 w7 [V7 _]. cbn [fst snd] in *.
  case_match; [wp_use wp_out_unmount; intros x s' (-> & E & V); split; [apply Hq; [done|cbn [snd] in *; congruence]|by vm_compute]|].
  assert (V : v_dsk (view w7) = v_dsk (view s.2)) by (cbn in *; congruence).
  wp_use (wp_fuse_serve c' rs _ (s1.1, w7)); [done|done| |done|done|].
  { etrans; [|exact Hcap]. exact (all_images_drop (Some img, extra c) mp). }
  intros x s' ((HD & Hn & ds & new & Hc) & ev & -> & Hb). cbn [fst snd] in *. rewrite V in *. split.
  - split; [done|]. split; [done|]. by exists ds, new.
  - exact Hb.
Qed.
End Spec.

(** ** Properties *)


(** libfuse that does what it is asked. *)
Definition toy_fuse {W} : FuseLib W := {|
  fuse_parse_cmdline w := ((0, Some (bs "/mnt")), w);
  fuse_new w := (true, w);
  fuse_set_signal_handlers w := (0, w);
  fuse_mount p w := (0, w);
  fuse_daemonize w := (0, w);
  fuse_loop w := (0, w);
  fuse_unmount w := ((), w);
  fuse_remove_signal_handlers w := ((), w);
  fuse_destroy w := ((), w) |}.
#[local] Instance rig_fuse : FuseLib rig := toy_fuse.
#[local] Instance rig_fuse_keeps : FuseLibKeeps rig.
Proof. by split. Defined.
#[local] Instance rig_fsops : FsOps rig := toy_fsops.
#[local] Instance rig_fslaws : FsLaws rig.
Proof.
  split; [by intros [] w|by intros [] w|..].
  - intros fd n off w Hn. cbn. rewrite length_take. lia.
  - intros fd b off w. cbn. lia.
Defined.

Lemma rig_few : few_parts (W := rig) MAX_PARTS_PER_DISK.
Proof.
  intros dn w h names H%rig_dirs. assert (length names <= 4)%nat as Hn.
  { revert H. generalize (snprintf 128 (bs "/sys/block/" ++ dn)).2.
    intros p. unfold sysfs_dir. repeat (case_bool_decide; [intros [= <-]; cbn; lia|]). done. }
  assert (length (Sysfs.hits dn names) <= length names)%nat; [|unfold MAX_PARTS_PER_DISK; lia]. clear. unfold Sysfs.hits.
  induction names as [|n names IH]; [done|]. cbn [omap list_omap]. destruct (Sysfs.part_index dn n); cbn [length]; lia.
Qed.

Definition fg1 : FG := mk_fg [] [] false [] 0 (-1) [].
Definition config1 : config := mk_config (Some (bs "a.img")) [bs "b.img"; bs "/mnt"] (Some (bs "1")) false true 32 0 None None (Some (bs "off")).
Definition reqs1 : list request := [RGetattr (bs "/etc") None; RUnlink (bs "/x")].


(** The run of the witness. *)
Example fuse_main_toy :
  (λ r, (r.1, calls r.2.1)) <$> main (W := rig) true true no_creds (λ _, true) (λ _, None) (λ _, false) no_iconv no_flush (λ _ _, mret 0) (mret ()) config1 reqs1 (fg1, rig0) =
  Some ((0, [Acquire RSession; Acquire RSignals; Acquire RMount; Acquire RKernel; Acquire RDisks;
             Release RDisks; Release RKernel; Release RMount; Release RSignals; Release RSession]),
        [Lstat (bs "/lklmnt/anyfs_d0_p1/etc"); Unlink (bs "/lklmnt/anyfs_d0_p1/x")]).
Proof. vm_compute. reflexivity. Qed.

(** Errors on macOS: a success is unchanged; a failure stays a failure; no two
    errors that have a counterpart are confused, and the others are EIO. *)
Lemma host_errno_faithful :
  (∀ r, 0 <= r → host_errno r = r) ∧ (∀ r, r < 0 → host_errno r < 0) ∧
  (∀ a b, a ∈ lkl_host_errno → b ∈ lkl_host_errno → host_errno (- a.1) = host_errno (- b.1) → a = b) ∧
  (∀ r, r < 0 → - r ∉ lkl_host_errno.*1 → host_errno r = - EIO).
Proof.
  assert (Hpos : Forall (λ e, 0 < e.1 ∧ 0 < e.2 ∧ host_errno (- e.1) = - e.2) lkl_host_errno) by (apply (bool_decide_unpack _); vm_compute; exact Logic.I).
  assert (Hnd : NoDup (lkl_host_errno.*2)) by (apply (bool_decide_unpack _); vm_compute; exact Logic.I).
  split_and!.
  - intros r Hr. unfold host_errno. by rewrite (proj2 (Z.leb_le 0 r)).
  - intros r Hr. unfold host_errno. rewrite (proj2 (Z.leb_gt 0 r)) by done. destruct (list_find _ _) as [[i e]|] eqn:E; [|done].
    apply list_find_Some in E as (Hi & _ & _). destruct (proj1 (Forall_forall _ _) Hpos e) as (_ & ? & _); [by eapply list_elem_of_lookup_2|lia].
  - intros a b Ha Hb. destruct (proj1 (Forall_forall _ _) Hpos a Ha) as (_ & _ & ->), (proj1 (Forall_forall _ _) Hpos b Hb) as (_ & _ & ->). intros E.
    assert (E2 : a.2 = b.2) by lia. apply list_elem_of_lookup in Ha as [i Hi], Hb as [j Hj].
    assert (i = j) as ->; [|congruence]. eapply (NoDup_lookup _ i j a.2 Hnd); rewrite list_lookup_fmap; [by rewrite Hi|by rewrite Hj; cbn; rewrite E2].
  - intros r Hr Hn. unfold host_errno. rewrite (proj2 (Z.leb_gt 0 r)) by done. destruct (list_find _ _) as [[i e]|] eqn:E; [|done].
    apply list_find_Some in E as (Hi & E & _). exfalso. apply Hn. rewrite <- E. apply list_elem_of_fmap_2. by eapply list_elem_of_lookup_2.
Qed.

(** No option makes the mount writable: the disks are opened read-only
    whatever is passed with -o. *)
Lemma always_readonly args c : readonly c = true →
  readonly (fold_left (λ c x, match opt_proc c x.1 x.2 with inr (_, c') => c' | inl _ => c end) args c) = true.
Proof.
  revert c. induction args as [|[x k] args IH]; intros c Hc; [done|]. cbn [fold_left fst snd]. apply IH. unfold opt_proc.
  destruct k; [destruct (streq x (bs "ro"))|..]; done.
Qed.
End FuseMain.
