(* ===== verification/Ts.v ===== *)
(** * Ts

    ts/native/anyfs_ts.c: the bridge to JavaScript.  Names and paths cross it
    escaped, listings and attributes as JSON with the size protocol of Jsonw.
    The directory calls and the working directory of the kernel are a class;
    [malloc_ok] says whether the allocator gives memory. *)
From S2P Require Import Prelude CLib Name Jsonw Lkl Path Probe Sysfs Mount Session Fuse.
Import CLib Name Jsonw Fuse.

Module Ts.

Definition LKL_ENAMETOOLONG : Z := 36.
Definition NAME_ESC_CAP : Z := 3 * 256 + 1.
Definition PATH_IN_CAP : Z := 16384.
Definition DT_DIR : Z := 4.
Definition DT_REG : Z := 8.
Definition DT_LNK : Z := 10.

(** ** Names *)

Definition jw_kv_name (w : JsonW) (k v : bytes) (trailing_comma : bool) : option JsonW :=
  e ← anyfs_name_escape v true NAME_ESC_CAP;
  Some (jw_kv_str w k (if e.1 <? 0 then [] else e.2) trailing_comma).

(** The path unescaped; [Some None] is NULL. *)
Definition path_in (path : bytes) : option (option bytes) :=
  r ← anyfs_name_unescape path true PATH_IN_CAP;
  Some (if r.1 <? 0 then None else Some r.2).

(** [buf] is the n bytes to escape: the value returned and the buffer. *)
Definition escape_out (malloc_ok : bool) (buf : bytes) (cap : Z) : option (Z * bytes) :=
  if malloc_ok then
    e ← anyfs_name_escape (c_str buf) true (3 * len buf + 1);
    let r := e.1 in
    if (0 <=? r) && (r <? cap) then Some (r, e.2)
    else if 0 <=? r then Some (- (r + 1), buf) else Some (r, buf)
  else Some (-1, buf).

(** ** Listings *)

Definition dot_name (name : bytes) : bool :=
  match name with
  | [46] | [46; 46] => true
  | _ => false
  end.

Definition dirent_kind (d_type : Z) : bytes :=
  if d_type =? DT_DIR then bs "dir" else if d_type =? DT_REG then bs "file" else if d_type =? DT_LNK then bs "link" else bs "other".

Fixpoint entries_json (es : list dirent) (first : bool) (w : JsonW) : option JsonW :=
  match es with
  | [] => Some w
  | de :: es' =>
      if dot_name (d_name de) then entries_json es' first w
      else
        let w := if first then w else jw_putc w 44 in
        w ← jw_kv_name (jw_putc w 123) (bs "name") (d_name de) true;
        let w := jw_kv_uint w (bs "ino") (u64 (d_ino de)) true in
        let w := jw_kv_str w (bs "kind") (dirent_kind (d_type de)) false in
        entries_json es' false (jw_putc w 125)
  end.

Definition mode_kind (st_mode : Z) : bytes :=
  let m := Z.land st_mode 0xF000 in
  if m =? 0x4000 then bs "dir" else if m =? 0x8000 then bs "file" else if m =? 0xA000 then bs "link" else bs "other".

Definition emit_stat_json (st : stat) (cap : Z) : Z * option bytes :=
  let w := jw_putc (jw_init cap) 123 in
  let w := jw_kv_uint w (bs "ino") (u64 (st_ino st)) true in
  let w := jw_kv_uint w (bs "mode") (u64 (st_mode st)) true in
  let w := jw_kv_uint w (bs "size") (u64 (st_size st)) true in
  let w := jw_kv_uint w (bs "nlink") (u64 (st_nlink st)) true in
  let w := jw_kv_uint w (bs "uid") (u64 (st_uid st)) true in
  let w := jw_kv_uint w (bs "gid") (u64 (st_gid st)) true in
  let w := jw_kv_uint w (bs "dev") (u64 (st_dev st)) true in
  let w := jw_kv_uint w (bs "rdev") (u64 (st_rdev st)) true in
  let w := jw_kv_uint w (bs "blksize") (u64 (st_blksize st)) true in
  let w := jw_kv_uint w (bs "blocks") (u64 (st_blocks st)) true in
  let w := jw_kv_int w (bs "mtime") (st_mtim st).1 true in
  let w := jw_kv_int w (bs "atime") (st_atim st).1 true in
  let w := jw_kv_int w (bs "ctime") (st_ctim st).1 true in
  let w := jw_kv_str w (bs "kind") (mode_kind (st_mode st)) false in
  jw_finish (jw_putc w 125).

Definition part_json (w : JsonW) (p : Session.AnyfsPartInfo) : option JsonW :=
  let w := jw_putc w 123 in
  let w := jw_kv_int w (bs "slot_id") (Session.pi_slot p) true in
  let w := jw_kv_int w (bs "parent") (Session.pi_parent p) true in
  let w := jw_kv_int w (bs "index") (Session.pi_index p) true in
  let w := jw_kv_uint w (bs "offset") (Session.pi_offset p) true in
  let w := jw_kv_uint w (bs "size") (Session.pi_size p) true in
  w ← jw_kv_name w (bs "ptype") (Session.pi_ptype p) true;
  let w := jw_kv_str w (bs "kind") (Session.anyfs_partkind_name (Session.pi_kind p)) true in
  w ← jw_kv_name w (bs "fstype") (Session.pi_fstype p) true;
  w ← jw_kv_name w (bs "label") (Session.pi_label p) true;
  w ← jw_kv_name w (bs "uuid") (Session.pi_uuid p) false;
  Some (jw_putc w 125).
Fixpoint parts_json (ps : list Session.AnyfsPartInfo) (i : nat) (w : JsonW) : option JsonW :=
  match ps with
  | [] => Some w
  | p :: ps' => w ← part_json (if Nat.eqb i 0 then w else jw_putc w 44) p; parts_json ps' (S i) w
  end.

(** Of a valid handle. *)
Definition session_list_json (d : Session.AnyfsSession) (cap : Z) : option (Z * option bytes) :=
  let '(n, parts, _) := Session.anyfs_session_list d (-1) 32 in
  if n <? 0 then Some (-2, None)
  else
    w ← parts_json (take (Z.to_nat (Z.min n 32)) parts) 0 (jw_putc (jw_init cap) 91);
    Some (jw_finish (jw_putc w 93)).

Definition meta_json (m : Session.AnyfsSessionMeta) (cap : Z) : option (Z * option bytes) :=
  let w := jw_kv_uint (jw_putc (jw_init cap) 123) (bs "logical_size") (Session.logical_size m) true in
  w ← jw_kv_name w (bs "pt_type") (Session.pt_type m) true;
  w ← jw_kv_name w (bs "fstype") (Session.m_fstype m) false;
  Some (jw_finish (jw_putc w 125)).

(** ** Calls *)

(** What lkl_readdir gives of an open directory: entries, and then NULL, for the
    end of the directory or for the error that lkl_errdir would report. *)
Record dirstream := mk_ds { ds_entries : list dirent; ds_error : Z }.

(** lkl_opendir (a handle above 0, or the error, with what lkl_readdir will
    give), lkl_closedir, stat, and the working directory. *)
Class TsFs (W : Type) := {
  ts_opendir : bytes → kcall W (Z * dirstream);
  ts_closedir : Z → kcall W Z;
  ts_lstat : bytes → kcall W (Z * stat);
  ts_stat : bytes → kcall W (Z * stat);
  ts_getcwd : Z → kcall W (Z * bytes);
  ts_chdir : bytes → kcall W Z }.

Section Calls.
Context {W : Type} `{!Lkl W, !TsFs W} (malloc_ok : bool).

(** [if (!(path = path_in(path, tmp))) return -LKL_ENAMETOOLONG;] *)
Definition with_path_in {A} (fail : Z → A) (path : bytes) (k : bytes → M W A) : M W A :=
  p ← mopt (path_in path);
  match p with
  | None => mret (fail (- LKL_ENAMETOOLONG))
  | Some p => k p
  end.
Definition no_text (r : Z) : Z * option bytes := (r, None).

(** The loop ends with the first NULL, whatever it stands for: lkl_errdir is not
    called. *)
Definition anyfs_ts_readdir_json (path : bytes) (cap : Z) : M W (Z * option bytes) :=
  with_path_in no_text path (λ path,
    d ← call (ts_opendir path);
    if d.1 <=? 0 then mret (no_text (if d.1 <? 0 then d.1 else -1))
    else
      w ← mopt (entries_json (ds_entries d.2) true (jw_putc (jw_init cap) 91));
      _ ← call (ts_closedir d.1);
      mret (jw_finish (jw_putc w 93))).

Definition stat_json (st : bytes → kcall W (Z * stat)) (path : bytes) (cap : Z) : M W (Z * option bytes) :=
  with_path_in no_text path (λ path,
    r ← call (st path);
    if r.1 <? 0 then mret (no_text r.1) else mret (emit_stat_json r.2 cap)).
Definition anyfs_ts_lstat_json := stat_json ts_lstat.
Definition anyfs_ts_stat_json := stat_json ts_stat.

(** The value returned and the buffer. *)
Definition anyfs_ts_realpath (path : bytes) (cap : Z) : M W (Z * bytes) :=
  with_path_in (λ r, (r, [])) path (λ path,
    saved ← call (ts_getcwd 1024);
    if saved.1 <? 0 then mret (saved.1, [])
    else
      c ← call (ts_chdir path);
      if c <? 0 then mret (c, [])
      else
        g ← call (ts_getcwd cap);
        _ ← call (ts_chdir (c_str saved.2));
        if g.1 <? 0 then mret (g.1, g.2)
        else mopt (escape_out malloc_ok (take (Z.to_nat (g.1 - 1)) g.2) cap)).

Definition anyfs_ts_readlink (path : bytes) (cap : Z) : M W (Z * bytes) :=
  with_path_in (λ r, (r, [])) path (λ path,
    n ← lkl_sys_readlink path cap;
    if n.1 <? 0 then mret (n.1, []) else mopt (escape_out malloc_ok (take (Z.to_nat n.1) n.2) cap)).

Definition anyfs_ts_read_kernel_file (path : bytes) (cap : Z) : M W (Z * bytes) :=
  with_path_in (λ r, (r, [])) path (λ path,
    fd ← lkl_sys_open path LKL_O_RDONLY;
    if fd <? 0 then mret (fd, [])
    else
      n ← lkl_sys_read fd (u64 (cap - 1));
      _ ← lkl_sys_close fd;
      if n.1 <? 0 then mret (n.1, [])
      else if cap <=? n.1 then mstuck (* buf[n] = 0 *)
      else mret (n.1, n.2)).

Definition anyfs_ts_open (path : bytes) (flags : Z) : M W Z :=
  with_path_in (λ r, r) path (λ path, fd ← lkl_sys_open path flags; mret (i32 fd)).
Definition anyfs_ts_pread (fd n off : Z) : M W (Z * bytes) := lkl_sys_pread64 fd n off.
Definition anyfs_ts_close (fd : Z) : M W Z := r ← lkl_sys_close fd; mret (i32 r).
End Calls.

(** ** Names *)

Lemma escape_fits s cap : CStr s → 3 * len s + 1 <= cap → ∃ e, esc_rel s e ∧ anyfs_name_escape s true cap = Some (len e, e).
Proof.
  intros Hs Hcap. destruct (escape_loop_spec (S (length s)) s Hs) as (e & He & Hl); [lia|]. pose proof (esc_rel_length _ _ He).
  exists e. split; [done|]. unfold anyfs_name_escape. destruct (Z.eqb_spec cap 0); [lia|]. cbn [negb orb]. rewrite Hl by (cbn; lia).
  change (len [] + len e) with (len e). destruct (Z.ltb_spec (len e) cap); [done|lia].
Qed.

Lemma path_in_escaped s e : esc_rel s e → len s < PATH_IN_CAP → path_in e = Some (Some s).
Proof.
  intros He Hs. unfold path_in, anyfs_name_unescape. cbn [negb orb]. change (PATH_IN_CAP =? 0) with false. cbn iota.
  pose proof (esc_rel_length _ _ He). rewrite (unescape_fuel (length s + 1) (S (length e)) e [] PATH_IN_CAP (len s, s)); [|by apply (unescape_loop_spec s e He 0 [])|lia].
  cbn [mbind option_bind fst snd]. destruct (Z.ltb_spec (len s) 0); [lia|done].
Qed.

Lemma utf8_high u : utf8 u → Forall (λ c, 0x80 <= c) u ∨ length u = 1%nat.
Proof. destruct 1; [by right|left..]; repeat constructor; lia. Qed.

(** A path is escaped part by part. *)
Lemma esc_rel_join s e t f : esc_rel s e → esc_rel t f → esc_rel (s ++ 47 :: t) (e ++ 47 :: f).
Proof.
  intros Hs Ht. induction Hs as [|u s e Hu Hn Hs IH|u s e Hu Hs IH|b s e Hb Hn Hs IH].
  - apply (esc_copy [47] t f); [constructor; lia| |done]. by intros (b & c & [=] & _).
  - rewrite <- !app_assoc. by apply esc_copy.
  - rewrite <- !app_assoc. by apply esc_char.
  - rewrite <- app_assoc. apply esc_byte; [done| |done]. intros u r E Hu. change ((b :: s) ++ 47 :: t = u ++ r) in E. destruct (decide (length u <= S (length s))%nat) as [Hle|Hgt].
    + assert (E2 : take (length u) ((b :: s) ++ 47 :: t) = u) by (rewrite E; apply take_app_length).
      rewrite take_app_le in E2 by done. apply (Hn u (drop (length u) (b :: s))); [|done]. rewrite <- E2 at 1. by rewrite take_drop.
    + assert (E47 : u !! S (length s) = Some 47).
      { rewrite <- (lookup_app_l u r) by lia. rewrite <- E. by rewrite lookup_app_r, Nat.sub_diag by done. }
      destruct (utf8_high u Hu) as [Hh|Hh]; [|lia]. apply (Forall_lookup_1 _ _ _ _ Hh) in E47. lia.
Qed.

(** ** Listings *)

Definition entry_text (de : dirent) (e : bytes) : bytes :=
  mjoin (text <$> [Putc 123; KvStr (bs "name") e true; KvUint (bs "ino") (u64 (d_ino de)) true;
                   KvStr (bs "kind") (dirent_kind (d_type de)) false; Putc 125]).
Fixpoint commas (first : bool) (l : list bytes) : bytes :=
  match l with
  | [] => []
  | t :: l' => (if first then [] else [44]) ++ t ++ commas false l'
  end.
Definition listed (es : list dirent) : list dirent := filter (λ de, dot_name (d_name de) = false) es.
(** The listing of [es] whose names are written [names]. *)
Definition listing (es : list dirent) (names : list bytes) : bytes := 91 :: commas true (zip_with entry_text (listed es) names) ++ [93].

Definition name_ok (de : dirent) : Prop := CStr (d_name de) ∧ len (d_name de) <= 255.

Lemma kv_name_ok k v c : CStr v → len v <= 255 → ∃ e, esc_rel v e ∧ ∀ w, jw_kv_name w k v c = Some (run_op w (KvStr k e c)).
Proof.
  intros Hv Hl. destruct (escape_fits v NAME_ESC_CAP Hv) as (e & He & E); [unfold NAME_ESC_CAP; lia|]. exists e. split; [done|]. intros w'.
  unfold jw_kv_name. rewrite E. cbn [mbind option_bind fst snd]. destruct (Z.ltb_spec (len e) 0); [lia|done].
Qed.

Lemma entry_puts de e w :
  jw_putc (jw_kv_str (jw_kv_uint (jw_kv_str (jw_putc w 123) (bs "name") e true) (bs "ino") (u64 (d_ino de)) true)
    (bs "kind") (dirent_kind (d_type de)) false) 125 = jw_puts w (entry_text de e).
Proof. unfold entry_text. rewrite <- run_ops_puts. cbn [foldl run_op]. reflexivity. Qed.

Lemma entries_json_spec es first : Forall name_ok es → ∃ names, Forall2 (λ de e, esc_rel (d_name de) e) (listed es) names ∧
  ∀ w, entries_json es first w = Some (jw_puts w (commas first (zip_with entry_text (listed es) names))).
Proof.
  intros Hes. revert first. induction Hes as [|de es [Hc Hl] _ IH]; intros first; [by exists []|]. unfold listed. rewrite filter_cons. cbn [entries_json].
  destruct (dot_name (d_name de)) eqn:Ed; [rewrite decide_False by done; apply IH|]. rewrite decide_True by done.
  destruct (IH false) as (names & Hn & Hw). destruct (kv_name_ok (bs "name") (d_name de) true Hc Hl) as (e & He & Ek).
  exists (e :: names). split; [by constructor|]. intros w. rewrite Ek. cbn [mbind option_bind]. rewrite Hw.
  cbn [run_op]. rewrite entry_puts. change (filter _ es) with (listed es). cbn [zip_with commas].
  rewrite (puts_app w), (puts_app (jw_puts w _)). destruct first; [done|by rewrite putc_puts].
Qed.

(** ** What the bridge relies on *)

(** Directory entries have names of the kernel; the working directory is a
    path that getcwd reports with its terminator when it fits, and it can be
    entered again. *)
Class TsLaws (W : Type) `{!TsFs W} := {
  ts_cwd : W → bytes;
  tlaw_names p w : Forall name_ok (ds_entries (ts_opendir p w).1.2);
  tlaw_closedir h w : ts_cwd (ts_closedir h w).2 = ts_cwd w;
  tlaw_cwd w : CStr (ts_cwd w);
  tlaw_getcwd n w : ts_cwd (ts_getcwd n w).2 = ts_cwd w ∧
    (ts_getcwd n w).1 = if len (ts_cwd w) <? n then (len (ts_cwd w) + 1, ts_cwd w ++ [0]) else (-34, []);
  tlaw_chdir p w : (ts_chdir p w).1 < 0 → ts_cwd (ts_chdir p w).2 = ts_cwd w;
  tlaw_back w0 w : ts_cwd (ts_chdir (ts_cwd w0) w).2 = ts_cwd w0 }.

(** A kernel whose state is its working directory; /d holds a file whose name
    is not UTF-8. *)
Definition clean (b : bytes) : bytes := if forallb is_cchar b then b else [].
Lemma clean_CStr b : CStr (clean b).
Proof. unfold clean. destruct (forallb is_cchar b) eqn:E; [by apply CStr_bs_dec|constructor]. Qed.
Lemma clean_clean b : clean (clean b) = clean b.
Proof. unfold clean. destruct (forallb is_cchar b) eqn:E; [by rewrite E|done]. Qed.

Definition d_entries : list dirent := [mk_dirent 1 4 (bs "."); mk_dirent 7 8 [97; 0xFF]].
#[global] Instance toy_ts : TsFs bytes := {|
  ts_opendir p w := (if streq p (bs "/d") then (1, mk_ds d_entries 0) else (-2, mk_ds [] 0), w);
  ts_closedir h w := (0, w);
  ts_lstat p w := ((-2, zero_stat), w);
  ts_stat p w := ((-2, zero_stat), w);
  ts_getcwd n w := (if len (clean w) <? n then (len (clean w) + 1, clean w ++ [0]) else (-34, []), w);
  ts_chdir p w := (0, p) |}.
#[global] Instance toy_ts_laws : TsLaws bytes.
Proof.
  refine {| ts_cwd := clean |}.
  - intros p w. unfold ts_opendir, toy_ts, d_entries. cbn [fst]. destruct (streq p (bs "/d")); cbn [snd ds_entries]; [|constructor].
    constructor; [by vm_compute; repeat constructor|]. constructor; [by vm_compute; repeat constructor|constructor].
  - done.
  - apply clean_CStr.
  - done.
  - intros p w H. unfold ts_chdir, toy_ts in H. cbn [fst] in H. lia.
  - intros w0 w. apply clean_clean.
Defined.

(** The listing of a directory that gives the entries [es], whatever the buffer
    and whatever ended it. *)
Lemma readdir_json_spec {W} `{!TsFs W} dir edir es : esc_rel dir edir → len dir < PATH_IN_CAP → Forall name_ok es →
  ∃ names, let t := listing es names in
    Forall2 (λ de e, len dir + 1 + len (d_name de) < PATH_IN_CAP → path_in (edir ++ 47 :: e) = Some (Some (dir ++ 47 :: d_name de)))
      (listed es) names ∧
    ∀ cap h err (w w1 : W), 0 <= cap → 0 < h → ts_opendir dir w = ((h, mk_ds es err), w1) →
      ∃ r, anyfs_ts_readdir_json edir cap w = Some (r, (ts_closedir h w1).2) ∧
        (len t + 1 < 2 ^ 31 → r = if len t <? cap then (len t, Some t) else (- (len t + 1), None)).
Proof.
  intros He Hd Hn. destruct (entries_json_spec es true Hn) as (names & Hna & Ew). exists names. split.
  - eapply Forall2_impl; [exact Hna|]. intros de e Hde Hl. apply path_in_escaped; [by apply esc_rel_join|].
    rewrite length_app. cbn [length]. lia.
  - intros cap h err w w1 Hc Hh Eo. unfold anyfs_ts_readdir_json, with_path_in. rewrite (path_in_escaped dir edir) by done.
    unfold mbind, M_bind, mopt, call, mret, M_ret. rewrite Eo. cbn [fst snd ds_entries]. destruct (Z.leb_spec h 0); [lia|]. rewrite Ew.
    destruct (ts_closedir h w1) as [c w2]. eexists. split; [done|]. intros Ht. rewrite !putc_puts, <- !puts_app.
    by apply (finish_spec cap (listing es names)).
Qed.

Lemma readdir_json_fails {W} `{!TsFs W} dir edir cap (w : W) : esc_rel dir edir → len dir < PATH_IN_CAP → (ts_opendir dir w).1.1 <= 0 →
  let e := (ts_opendir dir w).1.1 in
  anyfs_ts_readdir_json edir cap w = Some ((if e <? 0 then e else -1, None), (ts_opendir dir w).2).
Proof.
  intros He Hd Hh. unfold anyfs_ts_readdir_json, with_path_in. rewrite (path_in_escaped dir edir) by done.
  unfold mbind, M_bind, mopt, call, mret, M_ret. destruct (ts_opendir dir w) as [[h es] w1]. cbn [fst snd] in *.
  destruct (Z.leb_spec h 0); [done|lia].
Qed.

(** ** Properties *)

(** Every file listed can be opened: a directory's listing is the JSON text
    with one object per entry lkl_readdir gives other than the dots, and the name in it,
    appended to the path JavaScript holds, comes back as the bytes of that
    entry's path, whatever bytes they are.  A buffer that is too small gets
    the size to retry with. *)
Theorem ts_listing_opens {W} `{!TsFs W, !TsLaws W} dir edir cap (w : W) :
  esc_rel dir edir → len dir < PATH_IN_CAP → 0 <= cap →
  wp (anyfs_ts_readdir_json edir cap) (λ r _, let d := (ts_opendir dir w).1 in
    if d.1 <=? 0 then r.1 < 0 ∧ r.2 = None
    else ∃ names, let t := listing (ds_entries d.2) names in
      Forall2 (λ de e, len dir + 1 + len (d_name de) < PATH_IN_CAP → path_in (edir ++ 47 :: e) = Some (Some (dir ++ 47 :: d_name de)))
        (listed (ds_entries d.2)) names ∧
      (len t + 1 < 2 ^ 31 → r = if len t <? cap then (len t, Some t) else (- (len t + 1), None))) w.
Proof.
  intros He Hd Hc. pose proof (tlaw_names dir w) as Hn. pose proof (readdir_json_fails dir edir cap w He Hd) as Hf.
  destruct (ts_opendir dir w) as [[h [es err]] w1] eqn:Eo. cbn [fst snd ds_entries] in *. destruct (Z.leb_spec h 0).
  - eapply wp_intro; [by apply Hf|]. split; [|done]. cbn [fst]. destruct (Z.ltb_spec h 0); lia.
  - destruct (readdir_json_spec (W := W) dir edir es He Hd Hn) as (names & Hna & Hr).
    destruct (Hr cap h err w w1 Hc ltac:(lia) Eo) as (r & E & Ht). eapply wp_intro; [exact E|]. by exists names.
Qed.

Lemma esc_d : esc_rel (bs "/d") (bs "/d").
Proof.
  apply (esc_copy [47] [100] [100]); [constructor; lia|by intros (b & c & [=] & _)|].
  apply (esc_copy [100] [] []); [constructor; lia|by intros (b & c & [=] & _)|constructor].
Qed.

Lemma ts_listing_opens_witness :
  wp (anyfs_ts_readdir_json (bs "/d") 100) (λ r _, let d := (ts_opendir (bs "/d") []).1 in
    if d.1 <=? 0 then r.1 < 0 ∧ r.2 = None
    else ∃ names, let t := listing (ds_entries d.2) names in
      Forall2 (λ de e, len (bs "/d") + 1 + len (d_name de) < PATH_IN_CAP →
        path_in (bs "/d" ++ 47 :: e) = Some (Some (bs "/d" ++ 47 :: d_name de))) (listed (ds_entries d.2)) names ∧
      (len t + 1 < 2 ^ 31 → r = if len t <? 100 then (len t, Some t) else (- (len t + 1), None))) ([] : bytes) ∧
  (fst <$> anyfs_ts_readdir_json (bs "/d") 100 ([] : bytes)) =
    Some (39, Some (bs "[{" ++ [34] ++ bs "name" ++ [34; 58; 34; 97; 0xEE; 0xBF; 0xBF; 34; 44; 34] ++ bs "ino" ++ [34; 58; 55; 44; 34] ++
      bs "kind" ++ [34; 58; 34] ++ bs "file" ++ [34; 125; 93])).
Proof.
  split; [|vm_compute; reflexivity]. apply (ts_listing_opens (bs "/d") (bs "/d") 100 ([] : bytes)); [exact esc_d|vm_compute; done|lia].
Defined.

(** Resolving a path leaves the working directory as it was, on every
    path of the code; on success the buffer holds the escape of the
    directory's absolute path, or the size to retry with is returned. *)
Theorem ts_realpath_restores {W} `{!TsFs W, !TsLaws W} path p cap (w : W) : path_in path = Some (Some p) → 0 < cap →
  wp (anyfs_ts_realpath true path cap) (λ r w', ts_cwd w' = ts_cwd w ∧
    (0 <= r.1 → ∃ c, ts_cwd (ts_chdir p (ts_getcwd 1024 w).2).2 = c ∧ esc_rel c r.2 ∧ r.1 = len r.2 ∧ r.1 < cap)) w.
Proof.
  intros Hp Hcap. unfold anyfs_ts_realpath, with_path_in. apply wp_bind. eapply wp_opt; [done|]. apply wp_bind, wp_call.
  destruct (tlaw_getcwd 1024 w) as [E1 R1]. destruct (ts_getcwd 1024 w) as [s w1]. cbn [fst snd] in *. subst s.
  destruct (Z.ltb_spec (len (ts_cwd w)) 1024); cbn [fst snd]; [|apply wp_ret; split; [done|cbn; lia]].
  destruct (Z.ltb_spec (len (ts_cwd w) + 1) 0); [lia|]. apply wp_bind, wp_call. pose proof (tlaw_chdir p w1) as Hcd.
  destruct (ts_chdir p w1) as [c w2]. cbn [fst snd] in *.
  destruct (Z.ltb_spec c 0); [apply wp_ret; split; [by rewrite Hcd|cbn; lia]|]. apply wp_bind, wp_call.
  destruct (tlaw_getcwd cap w2) as [E3 R3]. destruct (ts_getcwd cap w2) as [g w3]. cbn [fst snd] in *. apply wp_bind, wp_call.
  rewrite (c_str_app (ts_cwd w) []) by apply tlaw_cwd. pose proof (tlaw_back w w3) as Hb. destruct (ts_chdir (ts_cwd w) w3) as [c4 w4]. cbn [fst snd] in *. subst g.
  destruct (Z.ltb_spec (len (ts_cwd w2)) cap); cbn [fst snd]; [|apply wp_ret; split; [done|cbn; lia]].
  destruct (Z.ltb_spec (len (ts_cwd w2) + 1) 0); [lia|]. replace (Z.to_nat (len (ts_cwd w2) + 1 - 1)) with (length (ts_cwd w2)) by lia.
  rewrite take_app_length. unfold escape_out. set (d := ts_cwd w2) in *. assert (Hd : CStr d) by apply tlaw_cwd.
  assert (Ed : c_str d = d) by by apply c_str_id.
  rewrite Ed. destruct (escape_fits d (3 * len d + 1) Hd ltac:(lia)) as (e & He & ->). cbn [mbind option_bind fst snd].
  destruct (Z.leb_spec 0 (len e)); [|lia]. destruct (Z.ltb_spec (len e) cap); cbn [andb]; (split; [done|]); cbn [fst snd]; [|lia].
  intros _. by exists d.
Qed.

Lemma ts_realpath_restores_witness :
  wp (anyfs_ts_realpath true (bs "/d") 64) (λ r w', ts_cwd w' = ts_cwd (bs "/home") ∧
    (0 <= r.1 → ∃ c, ts_cwd (ts_chdir (bs "/d") (ts_getcwd 1024 (bs "/home")).2).2 = c ∧ esc_rel c r.2 ∧ r.1 = len r.2 ∧ r.1 < 64)) (bs "/home") ∧
  anyfs_ts_realpath true (bs "/d") 64 (bs "/home") = Some ((2, bs "/d"), bs "/home").
Proof.
  split; [|vm_compute; reflexivity]. apply (ts_realpath_restores (bs "/d") (bs "/d") 64 (bs "/home")); [vm_compute; reflexivity|lia].
Defined.

End Ts.
