(* ===== verification/TsSessions.v ===== *)
(** * TsSessions

    ts/native/anyfs_ts.c: the table of handles through which JavaScript holds
    its sessions.  The kernel's own start and stop ([init], [halt]) are
    arguments: they are anyfs_kernel_init and anyfs_kernel_halt of Kernel. *)
From S2P Require Import Prelude CLib Jsonw Lkl Path Probe Sysfs MountOpts Mount Dm Session SessionSpec SessionFrame SessionOpen DiskSet Ts.
Import CLib Jsonw Probe Mount Session SessionSpec SessionFrame SessionOpen DiskSet Ts.

Module TsSessions.

Definition MAX_HANDLES : Z := 8.
Notation handles := (list (option AnyfsSession)).

Section Code.
Context {W : Type} `{!Lkl W, !Host W, !Core W} (calloc : bool) (creds : Creds) (halt : M W ()).
Notation St := (handles * W)%type.

Definition set_handle (i : nat) (x : option AnyfsSession) : M St () := mmod (λ s, (<[i := x]> s.1, s.2)).

Definition alloc_handle (d : AnyfsSession) : M St Z :=
  hs ← mgets fst;
  match list_find (λ x, x = None) hs with
  | Some (i, _) => _ ← set_handle i (Some d); mret (Z.of_nat i)
  | None => mret (-1)
  end.

Definition get_handle (h : Z) : M St (option AnyfsSession) :=
  hs ← mgets fst;
  if (h <? 0) || (MAX_HANDLES <=? h) then mret None else mopt (hs !! Z.to_nat h).

Definition anyfs_ts_session_open (image : bytes) (flags : Z) : M St Z :=
  r ← lower (anyfs_session_open calloc calloc (Some image) flags);
  match (if r.1 =? 0 then r.2 else None) with
  | None => mret (-1)
  | Some d =>
      h ← alloc_handle d;
      if h <? 0 then _ ← lower (close_session d); mret (-2) else mret h
  end.

Definition anyfs_ts_session_close (h : Z) : M St Z :=
  x ← get_handle h;
  match x with
  | None => mret (-1)
  | Some d => _ ← lower (close_session d); _ ← set_handle (Z.to_nat h) None; mret 0
  end.

Definition anyfs_ts_session_list_json (h cap : Z) : M St (Z * option bytes) :=
  x ← get_handle h;
  match x with
  | None => mret (-1, None)
  | Some d => mopt (session_list_json d cap)
  end.

Definition anyfs_ts_session_meta_json (h cap : Z) : M St (Z * option bytes) :=
  x ← get_handle h;
  match x with
  | None => mret (-1, None)
  | Some d => m ← lower (anyfs_session_meta d); mopt (meta_json m cap)
  end.

(** The value returned and the text stored in mount_out. *)
Definition anyfs_ts_session_enter (h part flags mount_cap : Z) : M St (Z * option bytes) :=
  x ← get_handle h;
  match x with
  | None => mret (-1, None)
  | Some d =>
      if mount_cap <? 64 then mret (-2, None)
      else
        r ← lower (with_session d (anyfs_session_enter creds part (Z.lor flags ANYFS_MOUNT_REPLACE)));
        _ ← set_handle (Z.to_nat h) (Some r.2);
        let '(rc, path) := r.1 in
        if negb (rc =? 0) then mret (if rc <? 0 then rc else -3, None)
        else mret (0, Some (snprintf mount_cap path).2)
  end.

Definition anyfs_ts_kernel_halt : M St Z :=
  _ ← mfor (seq 0 8) (λ i,
        hs ← mgets fst;
        x ← mopt (hs !! i);
        match x with
        | None => mret ()
        | Some d => _ ← lower (close_session d); set_handle i None
        end);
  _ ← lower halt;
  mret 0.
End Code.

(** ** The invariant *)
Section Inv.
Context {W : Type} `{!Lkl W, !LklLaws W, !Host W, !HostLaws W, !Core W, !CoreLaws W} (D0 : gset Z).
Context (calloc : bool) (creds : Creds).
Notation St := (handles * W)%type.
Implicit Types (hs : handles) (w : W).

(** The sessions are a set in its invariant, and their disks are exactly the
    ones attached beside [D0]. *)
Definition Attached (ds : list AnyfsSession) w : Prop :=
  SetInv ds w ∧ list_to_set (disk_id <$> ds) ## D0 ∧ v_dsk (view w) = list_to_set (disk_id <$> ds) ∪ D0.
Definition TInv hs w : Prop := length hs = 8%nat ∧ Attached (omap id hs) w.

#[local] Instance Attached_proper : Proper ((≡ₚ) ==> (=) ==> iff) Attached.
Proof.
  intros ds ds' Hp w ? <-. unfold Attached. by rewrite Hp.
Qed.

Lemma handles_split hs i x : hs !! i = Some x →
  ∃ rest, omap id hs ≡ₚ option_list x ++ rest ∧ ∀ y, omap id (<[i := y]> hs) ≡ₚ option_list y ++ rest.
Proof.
  intros Hi. exists (omap id (take i hs) ++ omap id (drop (S i) hs)).
  assert (H : ∀ y, omap id (take i hs ++ y :: drop (S i) hs) ≡ₚ option_list y ++ omap id (take i hs) ++ omap id (drop (S i) hs)).
  { intros y. rewrite omap_app. cbn [omap list_omap]. destruct y; cbn [id option_list app]; [by rewrite <- Permutation_middle|done]. }
  split; [|intros y; by rewrite insert_take_drop by (by eapply lookup_lt_Some)].
  rewrite <- H. by rewrite take_drop_middle.
Qed.

(** The table after a handle changed. *)
Lemma TInv_set hs i x y w w' : hs !! i = Some x → length hs = 8%nat →
  (∀ rest, Attached (option_list x ++ rest) w → Attached (option_list y ++ rest) w') → TInv hs w → TInv (<[i := y]> hs) w'.
Proof.
  intros Hi Hl H [_ HA]. split; [by rewrite length_insert|]. destruct (handles_split hs i x Hi) as (rest & H1 & H2).
  rewrite (H2 y). apply H. by rewrite <- H1.
Qed.

Lemma wp_attach image flags ds w : sysfs_sane (W := W) → tame_disks (W := W) → Attached ds w →
  wp (anyfs_session_open calloc calloc image flags) (λ r w',
    r = (-1, None) ∧ Attached ds w' ∨ ∃ d, r = (0, Some d) ∧ Attached (d :: ds) w') w.
Proof.
  intros Hs Ht (HS & Hd & HD). eapply wp_mono; [by apply wp_set_open|].
  intros r w' (Hm & [[-> E]|(d & -> & HS' & _ & _ & Hn & HD')]); [left|right; exists d]; (split; [done|]).
  - unfold Attached, SetInv, mnts in *. by rewrite E.
  - split; [done|]. rewrite fmap_cons, list_to_set_cons, HD'. set_solver.
Qed.

Lemma wp_detach d ds w : umount_works (W := W) → Attached (d :: ds) w → wp (close_session d) (λ _ w', Attached ds w') w.
Proof.
  intros Hu (HS & Hd & HD). pose proof (proj1 (set_cons _ _ _) HS) as (_ & _ & Hn & _).
  eapply wp_mono; [by apply wp_set_close|]. intros [] w' (HS' & HD' & _). split; [done|].
  rewrite fmap_cons, list_to_set_cons in *. rewrite HD', HD. split; [set_solver|].
  rewrite <- (elem_of_list_to_set (C := gset Z)) in Hn. set_solver.
Qed.

Lemma wp_enter_any part flags d w : SInv (-2) d (mnts w) →
  wp (anyfs_session_enter creds part flags) (λ r s', SInv (-2) s'.1 (mnts s'.2) ∧
    (r.1 = 0 → owned s'.1 r.2 ∧ len r.2 < 64)) (d, w).
Proof.
  intros H. assert (Hd : disk_range d) by apply H. destruct (decide (part = 0)) as [->|Hp].
  - unfold anyfs_session_enter. cbn [Z.eqb]. eapply wp_mono; [by apply wp_enter_whole|]. intros r s' (I & Hs & Hr). split; [done|].
    pose proof (whole_path_len d Hd). intros Hz. rewrite <- (whole_path_static d s'.1 Hs) in *.
    destruct Hr as [(-> & _)|[(-> & Hm & Ed)|[(-> & Hm & _)|(? & _)]]]; [done| | |lia].
    + split; [right; split; [by rewrite Ed|done]|done].
    + split; [by right|done].
  - eapply wp_mono; [by apply wp_enter|]. intros r s' (I & Hs & Hr). split; [done|]. intros Hz.
    destruct Hr as [(-> & _)|(i & p & Hi & _ & _ & Hr)]; [done|]. destruct (is_fs (kind p)) eqn:Ek.
    + destruct Hr as (_ & _ & p' & Hp' & Hr). assert (Er : static_slot p' = static_slot p).
      { destruct (static_lookup d s'.1 i p Hs Hi) as (? & ? & ?). congruence. }
      assert (Ho : r = (0, slot_path d p) → state p' = ANYFS_PART_MOUNTED → owned s'.1 r.2 ∧ len r.2 < 64).
      { intros -> Hm. cbn [snd]. split; [|apply slot_path_len; [done|by eapply ok_range; [apply H|]]].
        left. exists p'. split; [by eapply list_elem_of_lookup_2|]. split; [done|]. by apply slot_path_static. }
      destruct (state p) eqn:Ep.
      * destruct Hr as [(-> & Hm & _)|[(-> & _)|(? & _)]]; [by apply Ho|done|lia].
      * pose proof (inv_slot _ _ _ H i p Hi Ep). lia.
      * destruct Hr as [-> Ed]. rewrite Ed in Hp'. simplify_eq. by apply Ho.
      * by destruct Hr as [-> _].
    + destruct Hr as ((_ & p' & _ & Hc) & _ & _). destruct (state p) eqn:Ep; [lia|lia| |lia].
      destruct (inv_mnt _ _ _ H i p Hi Ep) as [Hk _]. rewrite Hk in Ek. by vm_compute in Ek.
Qed.

Lemma wp_get_handle h (Q : option AnyfsSession → St → Prop) hs w : TInv hs w →
  (Q None (hs, w)) → (∀ d, 0 <= h → hs !! Z.to_nat h = Some (Some d) → Q (Some d) (hs, w)) → wp (get_handle h) Q (hs, w).
Proof.
  intros [Hl _] Hn Hs. unfold get_handle. apply wp_bind, wp_gets. cbn [fst]. unfold MAX_HANDLES.
  destruct (_ || _) eqn:E; [by apply wp_ret|]. zify_bools. destruct (lookup_lt_is_Some_2 hs (Z.to_nat h)) as [x Hx]; [lia|].
  eapply wp_opt; [done|]. destruct x as [d|]; [by apply Hs|done].
Qed.

(** ** The operations *)

Lemma wp_ts_open image flags hs w : sysfs_sane (W := W) → tame_disks (W := W) → umount_works (W := W) → TInv hs w →
  wp (anyfs_ts_session_open calloc image flags) (λ r s', TInv s'.1 s'.2 ∧
    (r < 0 ∧ s'.1 = hs ∨ ∃ i d, r = Z.of_nat i ∧ hs !! i = Some None ∧ s'.1 = <[i := Some d]> hs)) (hs, w).
Proof.
  intros Hs Ht Hu HT. pose proof HT as [Hl HA]. apply wp_bind, wp_lower. eapply wp_mono; [by apply wp_attach|].
  intros r w1 [[-> HA1]|(d & -> & HA1)]; [apply wp_ret; split; [by split|by left]|].
  change (0 =? 0) with true. cbn [fst snd]. unfold alloc_handle. apply wp_bind, wp_bind, wp_gets. cbn [fst].
  destruct (list_find (λ x, x = None) hs) as [[i x]|] eqn:E.
  - apply list_find_Some in E as (Hi & -> & _). apply wp_bind, wp_mod, wp_ret. cbn [fst snd].
    destruct (Z.ltb_spec (Z.of_nat i) 0); [lia|]. apply wp_ret. cbn [fst snd]. split; [|right; by exists i, d].
    split; [by rewrite length_insert|]. destruct (handles_split hs i None Hi) as (rest & H1 & H2).
    rewrite (H2 (Some d)). cbn in *. by rewrite <- H1.
  - apply wp_ret. change (-1 <? 0) with true. cbn iota. apply wp_bind, wp_lower. eapply wp_mono; [by apply wp_detach|].
    intros [] w2 HA2. apply wp_ret. split; [by split|by left].
Qed.

Lemma wp_ts_close h hs w : umount_works (W := W) → TInv hs w →
  wp (anyfs_ts_session_close h) (λ r s', TInv s'.1 s'.2 ∧
    (r = -1 ∧ s'.1 = hs ∨ r = 0 ∧ s'.1 = <[Z.to_nat h := None]> hs)) (hs, w).
Proof.
  intros Hu HT. apply wp_bind. eapply wp_get_handle; [done|apply wp_ret; split; [done|by left]|]. intros d H0 Hd.
  destruct (handles_split hs _ _ Hd) as (rest & H1 & H2). destruct HT as [Hl HA]. rewrite H1 in HA.
  change (Attached (d :: rest) w) in HA. apply wp_bind, wp_lower. eapply wp_mono; [by apply wp_detach|]. intros [] w1 HA1. apply wp_bind, wp_mod, wp_ret. cbn [fst snd].
  split; [|by right]. split; [by rewrite length_insert|]. by rewrite (H2 None).
Qed.

Lemma wp_ts_enter h part flags cap hs w : TInv hs w →
  wp (anyfs_ts_session_enter creds h part flags cap) (λ r s', TInv s'.1 s'.2 ∧
    (r.1 = 0 → ∃ d', s'.1 !! Z.to_nat h = Some (Some d') ∧ ∃ path, r.2 = Some path ∧ owned d' path ∧ mounted_at d' (mnts s'.2) path)) (hs, w).
Proof.
  intros HT. apply wp_bind. eapply wp_get_handle; [done|by apply wp_ret|]. intros d H0 Hd.
  destruct (Z.ltb_spec cap 64); [by apply wp_ret|]. destruct (handles_split hs _ _ Hd) as (rest & H1 & H2).
  destruct HT as [Hl HA]. rewrite H1 in HA. change (Attached (d :: rest) w) in HA. destruct HA as (HS & Hdis & HD). pose proof (proj1 (set_cons _ _ _) HS) as (HI & _ & _ & _).
  apply wp_bind, wp_lower, wp_with_session. cbn [snd]. eapply wp_mono.
  { eapply (wp_set _ (λ r s', r.1 = 0 → owned s'.1 r.2 ∧ len r.2 < 64)); [exact HS| |by apply wp_enter_any].
    intros D q v Hq. apply kp_enter; [apply HI|done]. }
  intros [rc path] [d' w'] (HS' & Ei & _ & HD' & Hr). cbn [fst snd] in *. apply wp_bind, wp_mod. cbn [fst snd].
  assert (HT' : TInv (<[Z.to_nat h:=Some d']> hs) w').
  { split; [by rewrite length_insert|]. rewrite (H2 (Some d')). change (Attached (d' :: rest) w').
    split; [done|]. rewrite fmap_cons, list_to_set_cons in *. by rewrite Ei, HD'. }
  destruct (Z.eqb_spec rc 0) as [->|]; cbn [negb]; [|apply wp_ret; cbn [fst snd]; split; [done|]; destruct (Z.ltb_spec rc 0); lia].
  apply wp_ret. cbn [fst snd]. split; [done|]. intros _. destruct (Hr eq_refl) as [Ho Hlen]. exists d'.
  split; [apply list_lookup_insert_eq; by eapply lookup_lt_Some|]. exists path. rewrite snprintf_fits by lia. split_and!; [done..|].
  apply owned_mounted; [|done]. by apply set_cons in HS' as [? _].
Qed.

(** ** Histories *)

Inductive ts_op := TsOpen (image : bytes) (flags : Z) | TsClose (h : Z) | TsEnter (h part flags cap : Z).
Definition run_ts_op (o : ts_op) : M St () :=
  match o with
  | TsOpen image flags => _ ← anyfs_ts_session_open calloc image flags; mret ()
  | TsClose h => _ ← anyfs_ts_session_close h; mret ()
  | TsEnter h part flags cap => _ ← anyfs_ts_session_enter creds h part flags cap; mret ()
  end.

Lemma wp_ts_op o hs w : sysfs_sane (W := W) → tame_disks (W := W) → umount_works (W := W) → TInv hs w →
  wp (run_ts_op o) (λ _ s', TInv s'.1 s'.2) (hs, w).
Proof.
  intros Hs Ht Hu HT. destruct o; cbn [run_ts_op]; apply wp_bind; eapply wp_mono;
    [by apply wp_ts_open|by intros r s' [? _]|by apply wp_ts_close|by intros r s' [? _]|by apply wp_ts_enter|by intros r s' [? _]].
Qed.

Lemma wp_ts_ops ops hs w : sysfs_sane (W := W) → tame_disks (W := W) → umount_works (W := W) → TInv hs w →
  wp (mfor ops run_ts_op) (λ _ s', TInv s'.1 s'.2) (hs, w).
Proof.
  intros Hs Ht Hu HT. apply (wp_for (λ s, TInv s.1 s.2)); [done|]. intros o [hs1 w1] _ H1. by apply wp_ts_op.
Qed.

(** Closing the handles from [i] on. *)
Lemma wp_close_handles n i hs w : umount_works (W := W) → TInv hs w → (i + n = 8)%nat → Forall (λ x, x = None) (take i hs) →
  wp (mfor (seq i n) (λ i,
        hs ← mgets fst;
        x ← mopt (hs !! i);
        match x with
        | None => mret ()
        | Some d => _ ← lower (close_session d); set_handle i None
        end)) (λ _ s', TInv s'.1 s'.2 ∧ Forall (λ x, x = None) s'.1) (hs, w).
Proof.
  intros Hu. revert i hs w. induction n as [|n IH]; intros i hs w HT Hi Hn; cbn [seq mfor].
  { apply wp_ret. split; [done|]. rewrite take_ge in Hn by (destruct HT; lia). done. }
  apply wp_bind, wp_bind, wp_gets. cbn [fst]. destruct (lookup_lt_is_Some_2 hs i) as [x Hx]; [destruct HT; lia|].
  apply wp_bind. eapply wp_opt; [exact Hx|]. destruct x as [d|].
  - destruct (handles_split hs _ _ Hx) as (rest & H1 & H2). pose proof HT as [Hl HA]. rewrite H1 in HA. change (Attached (d :: rest) w) in HA.
    apply wp_bind, wp_lower. eapply wp_mono; [by apply wp_detach|]. intros [] w1 HA1. apply wp_mod. cbn [fst snd].
    apply IH; [|lia|].
    + split; [by rewrite length_insert|]. by rewrite (H2 None).
    + rewrite (take_S_r _ _ None) by (apply list_lookup_insert_eq; by eapply lookup_lt_Some).
      rewrite take_insert_ge by lia. apply Forall_app. split; [done|by apply Forall_singleton].
  - apply wp_ret. apply IH; [done|lia|]. rewrite (take_S_r _ _ None) by done. apply Forall_app. split; [done|by apply Forall_singleton].
Qed.

Lemma wp_ts_halt halt hs w : umount_works (W := W) → (∀ w, v_dsk (view w) = D0 → wp halt (λ _ w', v_dsk (view w') = D0) w) → TInv hs w →
  wp (anyfs_ts_kernel_halt halt) (λ r s', r = 0 ∧ Forall (λ x, x = None) s'.1 ∧ v_dsk (view s'.2) = D0) (hs, w).
Proof.
  intros Hu Hh HT. apply wp_bind. eapply wp_mono; [by apply (wp_close_handles 8 0)|]. intros [] [hs1 w1] [[_ (_ & _ & HD)] Hn]. cbn [fst snd] in *.
  assert (E : omap id hs1 = []). { clear -Hn. induction Hn as [|x hs ->]; [done|]. cbn. done. }
  rewrite E in HD. cbn in HD. apply wp_bind, wp_lower. eapply wp_mono; [apply Hh; cbn [snd]; rewrite HD; set_solver|].
  intros [] w2 H2. by apply wp_ret.
Qed.
End Inv.

(** ** Properties *)

(** C17 The handles of JavaScript: after any sequence of opens, closes and
    enters with any arguments (handles that were never given out or are closed,
    a full table, any partition), every operation has returned; each handle
    holds a session in its invariant, no two of them the same disk, and the
    disks attached are exactly those of the handles beside the ones that were
    there before: none leaks, none is detached under a handle. Halting then
    empties the table and detaches them all before the kernel stops. No mount is
    busy when it is unmounted, the kernel numbers the partitions of a disk from
    1 without repeating a number, and a disk that starts with a GPT header does
    not put its array beyond sector 2^54. The stop of the kernel leaves the set
    of disks alone. *)
Theorem ts_handles_safe {W} `{!Lkl W, !LklLaws W, !Host W, !HostLaws W, !Core W, !CoreLaws W} calloc creds halt ops (w : W) :
  sysfs_sane (W := W) → tame_disks (W := W) → umount_works (W := W) →
  (∀ w', v_dsk (view w') = v_dsk (view w) → wp halt (λ _ w'', v_dsk (view w'') = v_dsk (view w)) w') →
  wp (mfor ops (run_ts_op calloc creds)) (λ _ s', TInv (v_dsk (view w)) s'.1 s'.2) (replicate 8 None, w) ∧
  wp (_ ← mfor ops (run_ts_op calloc creds); anyfs_ts_kernel_halt halt) (λ r s',
    r = 0 ∧ Forall (λ x, x = None) s'.1 ∧ v_dsk (view s'.2) = v_dsk (view w)) (replicate 8 None, w).
Proof.
  intros Hs Ht Hu Hh. assert (H0 : TInv (v_dsk (view w)) (replicate 8 None) w).
  { split; [done|]. cbn. split; [apply set_nil|]. cbn. set_solver. }
  split; [by apply wp_ts_ops|]. apply wp_bind. eapply wp_mono; [by apply wp_ts_ops|]. intros [] [hs1 w1] H1. by apply wp_ts_halt.
Qed.

Definition some_ops : list ts_op := [TsOpen (bs "a.img") 1; TsEnter 0 1 0 64; TsOpen (bs "b.img") 1; TsClose 0; TsClose 0; TsEnter 1 1 0 64].

Lemma ts_handles_safe_witness :
  (wp (mfor some_ops (run_ts_op true no_creds)) (λ _ s', TInv (v_dsk (view rig0)) s'.1 s'.2) (replicate 8 None, rig0) ∧
   wp (_ ← mfor some_ops (run_ts_op true no_creds); anyfs_ts_kernel_halt (mret ())) (λ r s',
    r = 0 ∧ Forall (λ x, x = None) s'.1 ∧ v_dsk (view s'.2) = v_dsk (view rig0)) (replicate 8 None, rig0)) ∧
  ((λ r, dom (v_mnt (Toy.t_view r.2.2))) <$> mfor some_ops (run_ts_op true no_creds) (replicate 8 None, rig0)) =
    Some ({[ bs "/lklmnt/anyfs_d1_p1" ]} : gset bytes).
Proof.
  split; [|vm_compute; reflexivity].
  apply (ts_handles_safe true no_creds (mret ()) some_ops rig0 rig_sane rig_tame rig_umounts). by intros w' Hw'.
Defined.

(** Entering through a handle: success returns a path that is a mount
    point in the kernel's table, held by the session of that handle, and the
    handles keep their invariant whatever the outcome. *)
Theorem ts_enter_mounted {W} `{!Lkl W, !LklLaws W, !Host W, !HostLaws W, !Core W, !CoreLaws W} creds D0 h part flags cap hs (w : W) :
  TInv D0 hs w →
  wp (anyfs_ts_session_enter creds h part flags cap) (λ r s', TInv D0 s'.1 s'.2 ∧
    (r.1 = 0 → ∃ d', s'.1 !! Z.to_nat h = Some (Some d') ∧ ∃ path, r.2 = Some path ∧ owned d' path ∧ mounted_at d' (mnts s'.2) path)) (hs, w).
Proof. apply wp_ts_enter. Qed.
End TsSessions.
