(* ===== verification/TsApi.v ===== *)
(** * TsApi

    ts/native/anyfs_ts.c: the API thread.  JavaScript fills a request and
    submits it; one thread takes the requests from a linked queue, runs them
    and reports each.  The queue is modelled with its pointers; the lock and
    the condition variable are the atomic steps of the two sides. *)
From S2P Require Import Prelude CLib Jsonw Lkl Path Probe Sysfs MountOpts Mount Dm Session SessionSpec SessionOpen Fuse Ts Threads TsSessions.
Import CLib Jsonw Probe Mount Session SessionSpec SessionOpen Fuse Ts TsSessions.

Module TsApi.

(** ** Requests *)

(** The operation numbers with the arguments each reads; buffers are their
    sizes. *)
Inductive request :=
  | OP_KERNEL_INIT (mem_mb loglevel : Z)
  | OP_KERNEL_HALT
  | OP_SESSION_OPEN (path : bytes) (flags : Z)
  | OP_SESSION_CLOSE (h : Z)
  | OP_SESSION_LIST (h cap : Z)
  | OP_SESSION_META (h cap : Z)
  | OP_SESSION_ENTER (h part flags cap : Z)
  | OP_READDIR (path : bytes) (cap : Z)
  | OP_LSTAT (path : bytes) (cap : Z)
  | OP_STAT (path : bytes) (cap : Z)
  | OP_REALPATH (path : bytes) (cap : Z)
  | OP_READLINK (path : bytes) (cap : Z)
  | OP_READ_KERNEL_FILE (path : bytes) (cap : Z)
  | OP_OPEN (path : bytes) (flags : Z)
  | OP_PREAD (fd n off_lo off_hi : Z)
  | OP_CLOSE (fd : Z)
  | OP_LAST_ERROR (cap : Z)
  | OP_OTHER.

Section Run.
Context {W : Type} `{!Lkl W, !Host W, !Core W, !TsFs W}.
Context (calloc malloc_ok : bool) (creds : Creds) (init : Z → Z → M W Z) (halt : M W ()) (last_error : W → option bytes).
Notation St := (handles * W)%type.

(** The text copied, or none when there is no room. *)
Definition api_last_error (cap : Z) : M W (Z * option bytes) :=
  e ← mgets last_error;
  if cap =? 0 then mret (0, None)
  else let t := (snprintf cap (default [] e)).2 in mret (len t, Some t).

Definition only {S} (m : M S Z) : M S (Z * option bytes) := r ← m; mret (r, None).
Definition filled {S} (m : M S (Z * bytes)) : M S (Z * option bytes) := r ← m; mret (r.1, Some r.2).

Definition pread_off (lo hi : Z) : Z := i64 (Z.lor (Z.shiftl (u32 hi) 32) (u32 lo)).

(** The result and what is stored in the buffer. *)
Definition api_run (r : request) : M St (Z * option bytes) :=
  match r with
  | OP_KERNEL_INIT mem_mb loglevel => only (lower (init (u32 mem_mb) (u32 loglevel)))
  | OP_KERNEL_HALT => only (anyfs_ts_kernel_halt halt)
  | OP_SESSION_OPEN path flags => _ ← lower (call (set_last_error [])); only (anyfs_ts_session_open calloc path (u32 flags))
  | OP_SESSION_CLOSE h => only (anyfs_ts_session_close h)
  | OP_SESSION_LIST h cap => anyfs_ts_session_list_json h cap
  | OP_SESSION_META h cap => anyfs_ts_session_meta_json h cap
  | OP_SESSION_ENTER h part flags cap =>
      _ ← lower (call (set_last_error [])); anyfs_ts_session_enter creds h (u32 part) (u32 flags) cap
  | OP_READDIR path cap => lower (anyfs_ts_readdir_json path cap)
  | OP_LSTAT path cap => lower (anyfs_ts_lstat_json path cap)
  | OP_STAT path cap => lower (anyfs_ts_stat_json path cap)
  | OP_REALPATH path cap => filled (lower (anyfs_ts_realpath malloc_ok path cap))
  | OP_READLINK path cap => filled (lower (anyfs_ts_readlink malloc_ok path cap))
  | OP_READ_KERNEL_FILE path cap => filled (lower (anyfs_ts_read_kernel_file path cap))
  | OP_OPEN path flags => only (lower (anyfs_ts_open path flags))
  | OP_PREAD fd n lo hi =>
      g ← lower (anyfs_ts_pread fd (u32 n) (pread_off lo hi));
      mret (if 2 ^ 31 - 1 <? g.1 then 2 ^ 31 - 1 else i32 g.1, Some g.2)
  | OP_CLOSE fd => only (lower (anyfs_ts_close fd))
  | OP_LAST_ERROR cap => lower (api_last_error cap)
  | OP_OTHER => mret (-1, None)
  end.
End Run.

(** ** The queue *)

(** g_api_head and g_api_tail (0 is NULL), the next fields, g_api_started. *)
Record queue := mk_queue { q_head : Z; q_tail : Z; q_next : gmap Z Z; q_started : bool }.
Definition queue0 : queue := mk_queue 0 0 ∅ false.

Definition enqueue (r : Z) (q : queue) : queue :=
  let next := <[r := 0]> (q_next q) in
  if q_tail q =? 0 then mk_queue r r next (q_started q)
  else mk_queue (q_head q) r (<[q_tail q := r]> next) (q_started q).

(** The request taken and the queue without it. *)
Definition dequeue (q : queue) : option (Z * queue) :=
  n ← q_next q !! q_head q;
  Some (q_head q, mk_queue n (if n =? 0 then 0 else q_tail q) (q_next q) (q_started q)).

(** The list the pointers hold. *)
Fixpoint chain (next : gmap Z Z) (p : Z) (l : list Z) : Prop :=
  match l with
  | [] => p = 0
  | x :: l' => p = x ∧ x ≠ 0 ∧ ∃ n, next !! x = Some n ∧ chain next n l'
  end.
Definition holds_list (q : queue) (l : list Z) : Prop :=
  chain (q_next q) (q_head q) l ∧ q_tail q = default 0 (last l) ∧ NoDup l.

Lemma chain_frame next p l y n : y ∉ l → chain next p l → chain (<[y := n]> next) p l.
Proof.
  revert p. induction l as [|x l IH]; intros p Hy H; [done|]. destruct H as (-> & Hx & m & Hm & H).
  rewrite not_elem_of_cons in Hy. destruct Hy as [Hy1 Hy2]. split_and!; [done..|]. exists m.
  split; [by rewrite lookup_insert_ne|by apply IH].
Qed.

Lemma chain_snoc next p l x r : r ∉ l ++ [x] → r ≠ 0 → NoDup (l ++ [x]) → chain next p (l ++ [x]) →
  chain (<[x := r]> (<[r := 0]> next)) p (l ++ [x] ++ [r]).
Proof.
  intros Hr H0. revert p. induction l as [|y l IH]; intros p Hnd H; cbn [app] in *.
  - destruct H as (-> & Hx & n & _). split_and!; [done..|]. exists r. split; [apply lookup_insert_eq|]. split_and!; [done..|].
    exists 0. split; [|done]. rewrite lookup_insert_ne by set_solver. apply lookup_insert_eq.
  - destruct H as (-> & Hy & n & Hn & H). apply NoDup_cons in Hnd as [Hy' Hnd]. split_and!; [done..|]. exists n.
    split; [rewrite !lookup_insert_ne by set_solver; done|]. apply IH; [set_solver|done|done].
Qed.

Lemma enqueue_holds q l r : holds_list q l → r ∉ l → r ≠ 0 → holds_list (enqueue r q) (l ++ [r]).
Proof.
  intros (Hc & Ht & Hnd) Hr H0. unfold enqueue, holds_list. split_and!.
  - destruct l as [|x l _] using rev_ind.
    + cbn in *. rewrite Ht. cbn. split_and!; [done..|]. exists 0. by rewrite lookup_insert_eq.
    + rewrite last_snoc in Ht. cbn in Ht. rewrite Ht. destruct (Z.eqb_spec x 0) as [->|Hx].
      { exfalso. clear -Hc. revert Hc. generalize (q_head q). induction l as [|y l IH]; intros p Hc; cbn in Hc; [naive_solver|].
        destruct Hc as (_ & _ & n & _ & Hc). by apply (IH n). }
      cbn [q_next q_head]. rewrite <- app_assoc. by apply chain_snoc.
  - rewrite last_snoc. by destruct (_ =? 0).
  - apply NoDup_app. split_and!; [done|set_solver|by apply NoDup_singleton].
Qed.

Lemma dequeue_holds q x l : holds_list q (x :: l) → ∃ q', dequeue q = Some (x, q') ∧ holds_list q' l ∧ q_started q' = q_started q.
Proof.
  intros ((Hh & Hx & n & Hn & Hc) & Ht & Hnd). unfold dequeue. rewrite Hh, Hn. cbn [mbind option_bind]. eexists. split; [done|].
  apply NoDup_cons in Hnd as [_ Hnd]. split; [|done]. split_and!; [done| |done]. cbn [q_tail]. destruct l as [|y l].
  - cbn in Hc. by rewrite Hc.
  - destruct Hc as (-> & Hy & _). destruct (Z.eqb_spec y 0); [done|]. by rewrite Ht.
Qed.

(** ** The threads *)

(** Where the API thread is: not created, about to look at the queue under
    the lock, waiting for the condition, running a request. *)
Inductive apc := ANone | ALook | AWait | ARun (r : Z).

Section Api.
Context {S R : Type} (exec : request → M S R) (s0 : S).

(** The shared state; [a_reqs] are the structs as JavaScript filled them,
    [a_sent] the requests accepted and [a_done] the completions reported, in
    order. *)
Record api := mk_a { a_queue : queue; a_pc : apc; a_reqs : gmap Z request; a_world : S;
                     a_sent : list (Z * request); a_done : list (Z * R) }.
Definition api0 : api := mk_a queue0 ANone ∅ s0 [] [].

(** The requests that are with C: submitted and not reported. *)
Definition with_c (a : api) : list Z := drop (length (a_done a)) (a_sent a).*1.

(** What a signal does to the thread. *)
Definition signalled (pc : apc) : apc := match pc with AWait => ALook | _ => pc end.

(** anyfs_ts_api_submit: the value returned and the new state; [ok] is whether
    a thread can be created. *)
Definition anyfs_ts_api_submit (ok : bool) (r : Z) (req : request) (a : api) : Z * api :=
  let q := a_queue a in
  if negb (q_started q) && negb ok then (-1, a)
  else
    let pc := if q_started q then a_pc a else ALook in
    let q := mk_queue (q_head q) (q_tail q) (q_next q) true in
    (0, mk_a (enqueue r q) (signalled pc) (<[r := req]> (a_reqs a)) (a_world a) (a_sent a ++ [(r, req)]) (a_done a)).

Definition set_pc (pc : apc) (a : api) : api := mk_a (a_queue a) pc (a_reqs a) (a_world a) (a_sent a) (a_done a).

(** JavaScript submits a struct that C does not have; the thread takes the
    first request, waits when there is none, wakes (also without a reason),
    and runs what it took. *)
Inductive step : api → api → Prop :=
  | StSubmit a ok r req : r ≠ 0 → r ∉ with_c a → step a (anyfs_ts_api_submit ok r req a).2
  | StTake a r q : a_pc a = ALook → q_head (a_queue a) ≠ 0 → dequeue (a_queue a) = Some (r, q) →
      step a (mk_a q (ARun r) (a_reqs a) (a_world a) (a_sent a) (a_done a))
  | StWait a : a_pc a = ALook → q_head (a_queue a) = 0 → step a (set_pc AWait a)
  | StWake a : a_pc a = AWait → step a (set_pc ALook a)
  | StRun a r req ret s : a_pc a = ARun r → a_reqs a !! r = Some req → exec req (a_world a) = Some (ret, s) →
      step a (mk_a (a_queue a) ALook (a_reqs a) s (a_sent a) (a_done a ++ [(r, ret)])).

Definition running (pc : apc) : list Z := match pc with ARun r => [r] | _ => [] end.

(** [fin] is done, [pend] is with C: first what runs, then the queue. *)
Record Inv (a : api) (fin pend : list (Z * request)) (q : list Z) : Prop := {
  in_sent : a_sent a = fin ++ pend;
  in_replay : replay exec fin s0 = Some (a_done a, a_world a);
  in_pend : pend.*1 = running (a_pc a) ++ q;
  in_queue : holds_list (a_queue a) q;
  in_dup : NoDup (pend.*1);
  in_reqs : Forall (λ x, a_reqs a !! x.1 = Some x.2) pend;
  in_started : a_pc a = ANone ↔ q_started (a_queue a) = false;
  in_wait : a_pc a = AWait ∨ a_pc a = ANone → q = [] }.

Lemma with_c_pend a fin pend q : Inv a fin pend q → with_c a = pend.*1.
Proof.
  intros I. unfold with_c. rewrite (in_sent _ _ _ _ I), fmap_app, (replay_length _ _ _ _ _ (in_replay _ _ _ _ I)).
  by rewrite <- (length_fmap fst fin), drop_app_length.
Qed.

Lemma inv_submit a fin pend q ok r req : Inv a fin pend q → r ≠ 0 → r ∉ with_c a →
  ∃ pend' q', Inv (anyfs_ts_api_submit ok r req a).2 fin pend' q'.
Proof.
  intros I H0 Hr. pose proof I as [I1 I2 I3 I4 I5 I6 I7 I8]. rewrite (with_c_pend _ _ _ _ I) in Hr. unfold anyfs_ts_api_submit.
  destruct (negb (q_started (a_queue a)) && negb ok) eqn:E; [by exists pend, q|]. exists (pend ++ [(r, req)]), (q ++ [r]).
  set (pc := if q_started (a_queue a) then a_pc a else ALook).
  assert (Hpc : running (signalled pc) = running (a_pc a) ∧ signalled pc ≠ AWait ∧ signalled pc ≠ ANone).
  { unfold pc. destruct (q_started (a_queue a)); [|by rewrite (proj2 I7 eq_refl)].
    destruct (a_pc a); try done. by specialize (proj1 I7 eq_refl). }
  destruct Hpc as (Hpc & Hw & Hn). split; cbn [snd a_queue a_pc a_reqs a_world a_sent a_done].
  - by rewrite I1, app_assoc.
  - done.
  - by rewrite fmap_app, I3, Hpc, app_assoc.
  - apply enqueue_holds; [exact I4| |done]. rewrite I3 in Hr. set_solver.
  - rewrite fmap_app. apply NoDup_app. split_and!; [done|set_solver|by apply NoDup_singleton].
  - apply Forall_app. split; [|apply Forall_singleton; apply lookup_insert_eq]. apply Forall_forall. intros x Hx.
    rewrite Forall_forall in I6. rewrite lookup_insert_ne; [by apply I6|]. intros ->. apply Hr. by apply list_elem_of_fmap_2.
  - split; [done|]. unfold enqueue. by destruct (_ =? 0).
  - naive_solver.
Qed.

Lemma inv_step a a' fin pend q : Inv a fin pend q → step a a' → ∃ fin' pend' q', Inv a' fin' pend' q'.
Proof.
  intros I Hs. pose proof I as [I1 I2 I3 I4 I5 I6 I7 I8].
  destruct Hs as [a ok r req H0 Hr|a r q1 Hpc Hh Hd|a Hpc Hh|a Hpc|a r req ret s Hpc Hq He]; [|rewrite Hpc in *; cbn [running app] in *..].
  - exists fin. by eapply inv_submit.
  - destruct q as [|x q]; [by destruct I4 as [E _]; cbn in E|]. destruct (dequeue_holds _ _ _ I4) as (q' & E & Hq & Hst).
    rewrite Hd in E. injection E as -> ->. exists fin, pend, q. split; try done; cbn; [|naive_solver]. rewrite Hst. naive_solver.
  - exists fin, pend, q. split; try done; cbn; [naive_solver|]. intros _. destruct q as [|x q]; [done|]. destruct I4 as [(E & ? & _) _]. congruence.
  - exists fin, pend, q. split; try done; cbn; [naive_solver|]. naive_solver.
  - destruct pend as [|[x xr] pend]; [done|]. cbn in I3. injection I3 as -> I3. apply Forall_cons in I6 as [Ex I6]. cbn in Ex.
    rewrite Hq in Ex. injection Ex as <-. exists (fin ++ [(r, req)]), pend, q. apply NoDup_cons in I5 as [_ I5].
    split; try done; cbn; [by rewrite I1, <- app_assoc|by eapply replay_snoc|naive_solver|naive_solver].
Qed.

Lemma inv_run a : rtc step api0 a → ∃ fin pend q, Inv a fin pend q.
Proof.
  intros H. refine (rtc_ind_r (λ a, ∃ fin pend q, Inv a fin pend q) _ _ _ a H).
  - exists [], [], []. split; cbn; try done; repeat constructor.
  - intros b b' _ Hs (fin & pend & q & I). by eapply inv_step.
Qed.
End Api.

(** ** Properties *)

(** C18 The API behaves as if every request ran when it was submitted: in
    every interleaving of JavaScript's submissions with the API thread
    (spurious wake-ups and a first submission that cannot create the thread
    included) the completions reported and the state of the sessions and the
    kernel are those of running the accepted requests one after the other in
    the order of their submission, each once; the rest are waiting in that
    order, linked in the queue; and the thread never sleeps while one is. *)
Theorem api_sequential {W} `{!Lkl W, !Host W, !Core W, !TsFs W} calloc malloc_ok creds init halt last_error (s0 : handles * W) a :
  rtc (step (api_run calloc malloc_ok creds init halt last_error)) (api0 s0) a →
  ∃ fin pend q, a_sent a = fin ++ pend ∧
    replay (api_run calloc malloc_ok creds init halt last_error) fin s0 = Some (a_done a, a_world a) ∧
    pend.*1 = running (a_pc a) ++ q ∧ holds_list (a_queue a) q ∧
    (q ≠ [] → a_pc a ≠ AWait ∧ a_pc a ≠ ANone) ∧
    (a_pc a = ALook → ∀ r rest, q = r :: rest → ∃ q', dequeue (a_queue a) = Some (r, q')).
Proof.
  intros H. destruct (inv_run _ _ _ H) as (fin & pend & q & [I1 I2 I3 I4 I5 I6 I7 I8]). exists fin, pend, q.
  split_and!; [done..| |]; [naive_solver|]. intros _ r rest ->. destruct (dequeue_holds _ _ _ I4) as (q' & E & _). by exists q'.
Qed.

(** JavaScript opens an image and enters its first partition; the thread has
    run the first of the two. *)
#[local] Instance rig_ts : TsFs rig := {|
  ts_opendir p w := ((-2, mk_ds [] 0), w); ts_closedir h w := (0, w); ts_lstat p w := ((-2, zero_stat), w);
  ts_stat p w := ((-2, zero_stat), w); ts_getcwd n w := ((-2, []), w); ts_chdir p w := (-2, w) |}.
Definition rig_run : request → M (handles * rig) (Z * option bytes) :=
  api_run true true no_creds (λ _ _, mret 0) (mret ()) (λ _, None).

Lemma api_sequential_witness : ∃ a, rtc (step rig_run) (api0 (replicate 8 None, rig0)) a ∧ a_done a = [(1000, (0, None))] ∧
  ∃ fin pend q, a_sent a = fin ++ pend ∧ replay rig_run fin (replicate 8 None, rig0) = Some (a_done a, a_world a) ∧
    pend.*1 = running (a_pc a) ++ q ∧ holds_list (a_queue a) q ∧
    (q ≠ [] → a_pc a ≠ AWait ∧ a_pc a ≠ ANone) ∧
    (a_pc a = ALook → ∀ r rest, q = r :: rest → ∃ q', dequeue (a_queue a) = Some (r, q')).
Proof.
  assert (H : ∃ a, rtc (step rig_run) (api0 (replicate 8 None, rig0)) a ∧ a_done a = [(1000, (0, None))]).
  { eexists. split.
    - eapply rtc_l; [apply (StSubmit _ _ true 1000 (OP_SESSION_OPEN (bs "a.img") 1)); [done|apply not_elem_of_nil]|].
      eapply rtc_l; [apply (StSubmit _ _ true 2000 (OP_SESSION_ENTER 0 1 0 64)); [done|apply (bool_decide_unpack _); vm_compute; exact I]|].
      eapply rtc_l; [eapply StTake; [vm_compute; reflexivity|vm_compute; discriminate|vm_compute; reflexivity]|].
      eapply rtc_l; [eapply StRun; [reflexivity|vm_compute; reflexivity|vm_compute; reflexivity]|]. apply rtc_refl.
    - reflexivity. }
  destruct H as (a & H & Hd). exists a. split; [exact H|]. split; [exact Hd|].
  exact (api_sequential true true no_creds (λ _ _, mret 0) (mret ()) (λ _, None) (replicate 8 None, rig0) a H).
Defined.
End TsApi.
