(* ===== verification/Binding.v ===== *)
(** * Binding

    ts/packages/anyfs-native/src/binding.cc: the addon of Node.  Every exported
    function queues a worker on libuv's thread pool and returns a promise; a
    worker takes the operations' mutex, calls the bridge of Ts and TsSessions
    and keeps the result, and JavaScript's thread settles the promise with it.

    JavaScript's numbers are the integers they stand for, its strings their
    UTF-8; [alloc] says whether a vector of a size can be allocated.  The addon
    is built without C++ exceptions in N-API, so an allocation that fails ends
    the process. *)
From S2P Require Import Prelude CLib Name Jsonw Lkl Path Probe Sysfs MountOpts Mount Dm Session SessionSpec SessionOpen Raw U8 WinHost Fuse Ts Threads TsSessions TsApi.
Import CLib Name Jsonw Probe Mount Session SessionSpec SessionOpen Fuse Ts TsSessions.

Module Binding.

(** ** Values *)

(** What a promise resolves with: a number, a string, or pread's object. *)
Inductive jsval := JNum (n : Z) | JStr (s : bytes) | JRead (rc : Z) (data : bytes).
Inductive outcome := Resolve (v : jsval) | Reject (e : bytes) | Terminate.

(** Napi::Number's conversions. *)
Definition Uint32Value (n : Z) : Z := u32 n.
Definition Int32Value (n : Z) : Z := i32 n.
Definition Int64Value (n : Z) : Z := Z.max (- 2 ^ 63) (Z.min n (2 ^ 63 - 1)).

(** [std::string(buf.data(), n)] of a zeroed vector of [cap] bytes that starts
    with [t]; [None] reads past its end. *)
Definition std_string (cap : Z) (t : bytes) (n : Z) : option bytes :=
  if (n <? 0) || (cap <? n) then None
  else Some (take (Z.to_nat n) (t ++ replicate (Z.to_nat n) 0)).

Section Code.
Context {W : Type} `{!Lkl W, !Host W, !Core W, !TsFs W}.
Context (alloc : Z → bool) (calloc malloc_ok : bool) (creds : Creds) (init : Z → Z → M W Z) (halt : M W ()) (last_error : W → option bytes).
Notation St := (handles * W)%type.

(** ** The workers: Execute with OnOK *)

Definition IntRetWorker (fn : M St Z) : M St outcome := rc ← fn; mret (Resolve (JNum rc)).

(** The result and the error of JsonOutWorker; [None] ends the process. *)
Fixpoint json_loop (tries : nat) (cap : Z) (name : bytes) (fn : Z → M St (Z * option bytes)) : M St (option (bytes * bytes)) :=
  match tries with
  | O => mret (Some ([], name ++ bs ": keeps requesting more buffer"))
  | S tries =>
      if negb (alloc cap) then mret None
      else
        r ← fn cap;
        let n := r.1 in
        if 0 <=? n then
          result ← mopt (std_string cap (default [] r.2) n); mret (Some (result, []))
        else if n =? - 2 ^ 31 then mstuck (* -n *)
        else
          let need := u64 (- n) in
          if need <=? cap then mret (Some ([], name ++ bs ": rc=" ++ fmt_d n))
          else json_loop tries (Z.max (u64 (need + 256)) (u64 (cap * 2))) name fn
  end.

Definition JsonOutWorker (name : bytes) (fn : Z → M St (Z * option bytes)) : M St outcome :=
  r ← json_loop 6 8192 name fn;
  mret (match r with
        | None => Terminate
        | Some (result, err) => if bool_decide (err = []) then Resolve (JStr result) else Reject err
        end).

(** [fn] gives rc, n and the text in the buffer, which the constructor has
    allocated (see [constructs]). *)
Definition StrOutWorker (buf_cap : Z) (fn : Z → M St (Z * Z * bytes)) : M St outcome :=
  r ← fn buf_cap;
  let '(rc, n, t) := r in
  if rc =? 0 then result ← mopt (std_string buf_cap t n); mret (Resolve (JStr result))
  else mret (Reject (bs "operation: rc=" ++ fmt_d rc)).

Definition PreadWorker (fd n off : Z) : M St outcome :=
  if 0 <? n then
    if negb (alloc n) then mret Terminate
    else
      r ← lower (anyfs_ts_pread fd n off);
      let rc := i32 r.1 in
      if 0 <? rc then data ← mopt (std_string n r.2 rc); mret (Resolve (JRead rc data))
      else mret (Resolve (JRead rc []))
  else mret (Resolve (JRead 0 [])).

(** [fn] gives rc and the string it wrote. *)
Definition CallWorker (name : bytes) (string_result reject_on_error : bool) (fn : M St (Z * bytes)) : M St outcome :=
  _ ← lower (call (set_last_error []));
  r ← fn;
  let '(rc, out) := r in
  e ← lower (mgets last_error);
  let err := match e with Some (c :: t) => c :: t | _ => name ++ bs " failed: rc=" ++ fmt_d rc end in
  mret (if (rc <? 0) && reject_on_error then Reject err
        else if string_result && (0 <=? rc) then Resolve (JStr out) else Resolve (JNum rc)).

(** ** The exported functions, with their arguments as JavaScript passes them *)
Inductive jscall :=
  | JsKernelInit (memMb loglevel : Z) | JsKernelHalt
  | JsSessionOpen (path : bytes) (flags : Z) | JsSessionClose (h : Z)
  | JsSessionListJson (h : Z) | JsSessionMetaJson (h : Z) | JsSessionEnter (h part flags : Z)
  | JsReaddirJson (path : bytes) | JsLstatJson (path : bytes) | JsStatJson (path : bytes)
  | JsRealpath (path : bytes) | JsReadlink (path : bytes) | JsReadKernelFile (path : bytes)
  | JsFileOpen (path : bytes) (flags : Z) | JsPread (fd n off : Z) | JsFileClose (fd : Z).

Definition no_out (m : M St Z) : M St (Z * bytes) := rc ← m; mret (rc, []).
(** [out = buf] *)
Definition enter_out (m : M St (Z * option bytes)) : M St (Z * bytes) :=
  r ← m; mret (r.1, if 0 <=? r.1 then c_str (default [] r.2) else []).
Definition readlink_out (m : M St (Z * bytes)) : M St (Z * Z * bytes) :=
  r ← m; mret (if r.1 <? 0 then r.1 else 0, r.1, r.2).

(** [p.c_str()] ends at the first NUL of the string. *)
Definition KernelInit (mem : Z) (lvl : Z) : M St outcome :=
  CallWorker (bs "kernelInit") false false (no_out (lower (init (Uint32Value mem) (Uint32Value lvl)))).
Definition KernelHalt : M St outcome :=
  CallWorker (bs "kernelHalt") false false (no_out (anyfs_ts_kernel_halt halt)).
Definition SessionOpen (p : bytes) (fl : Z) : M St outcome :=
  CallWorker (bs "sessionOpen") false true (no_out (anyfs_ts_session_open calloc (c_str p) (Uint32Value fl))).
Definition SessionClose (h : Z) : M St outcome :=
  CallWorker (bs "sessionClose") false false (no_out (anyfs_ts_session_close (Int32Value h))).
Definition SessionListJson (h : Z) : M St outcome :=
  JsonOutWorker (bs "sessionListJson") (anyfs_ts_session_list_json (Int32Value h)).
Definition SessionMetaJson (h : Z) : M St outcome :=
  JsonOutWorker (bs "sessionMetaJson") (anyfs_ts_session_meta_json (Int32Value h)).
Definition SessionEnter (h : Z) (part : Z) (fl : Z) : M St outcome :=
  CallWorker (bs "sessionEnter") true true
    (enter_out (anyfs_ts_session_enter creds (Int32Value h) (Uint32Value part) (Uint32Value fl) 256)).
Definition ReaddirJson (p : bytes) : M St outcome :=
  JsonOutWorker (bs "readdirJson") (λ cap, lower (anyfs_ts_readdir_json (c_str p) cap)).
Definition LstatJson (p : bytes) : M St outcome :=
  JsonOutWorker (bs "lstatJson") (λ cap, lower (anyfs_ts_lstat_json (c_str p) cap)).
Definition StatJson (p : bytes) : M St outcome :=
  JsonOutWorker (bs "statJson") (λ cap, lower (anyfs_ts_stat_json (c_str p) cap)).
Definition Realpath_ (p : bytes) : M St outcome :=
  JsonOutWorker (bs "realpath") (λ cap, TsApi.filled (lower (anyfs_ts_realpath malloc_ok (c_str p) cap))).
Definition Readlink_ (p : bytes) : M St outcome :=
  StrOutWorker 4096 (λ cap, readlink_out (lower (anyfs_ts_readlink malloc_ok (c_str p) cap))).
Definition ReadKernelFile (p : bytes) : M St outcome :=
  JsonOutWorker (bs "readKernelFile") (λ cap, TsApi.filled (lower (anyfs_ts_read_kernel_file (c_str p) cap))).
Definition FileOpen (p : bytes) (fl : Z) : M St outcome :=
  IntRetWorker (lower (anyfs_ts_open (c_str p) (Int32Value fl))).
Definition Pread (fd : Z) (n : Z) (off : Z) : M St outcome :=
  PreadWorker (Int32Value fd) (Uint32Value n) (Int64Value off).
Definition FileClose (fd : Z) : M St outcome :=
  IntRetWorker (lower (anyfs_ts_close (Int32Value fd))).

Definition run (c : jscall) : M St outcome :=
  match c with
  | JsKernelInit mem lvl => KernelInit mem lvl
  | JsKernelHalt => KernelHalt
  | JsSessionOpen p fl => SessionOpen p fl
  | JsSessionClose h => SessionClose h
  | JsSessionListJson h => SessionListJson h
  | JsSessionMetaJson h => SessionMetaJson h
  | JsSessionEnter h part fl => SessionEnter h part fl
  | JsReaddirJson p => ReaddirJson p
  | JsLstatJson p => LstatJson p
  | JsStatJson p => StatJson p
  | JsRealpath p => Realpath_ p
  | JsReadlink p => Readlink_ p
  | JsReadKernelFile p => ReadKernelFile p
  | JsFileOpen p fl => FileOpen p fl
  | JsPread fd n off => Pread fd n off
  | JsFileClose fd => FileClose fd
  end.

(** The worker is constructed on JavaScript's thread: StrOutWorker allocates its
    buffer there, and a failure ends the process. *)
Definition constructs (c : jscall) : bool := match c with JsReadlink _ => alloc 4096 | _ => true end.
End Code.

(** ** The export table *)

Inductive jsarg := NumArg (n : Z) | StrArg (s : bytes).

(** What the function exported under a name makes of its arguments; arguments
    of other types are outside the interface. *)
Definition invoke (name : bytes) (args : list jsarg) : option jscall :=
  let named n := streq name (bs n) in
  match args with
  | [] => if named "kernelHalt"%string then Some JsKernelHalt else None
  | [NumArg a] =>
      if named "sessionClose"%string then Some (JsSessionClose a)
      else if named "sessionListJson"%string then Some (JsSessionListJson a)
      else if named "sessionMetaJson"%string then Some (JsSessionMetaJson a)
      else if named "fileClose"%string then Some (JsFileClose a) else None
  | [StrArg p] =>
      if named "readKernelFile"%string then Some (JsReadKernelFile p)
      else if named "readdirJson"%string then Some (JsReaddirJson p)
      else if named "lstatJson"%string then Some (JsLstatJson p)
      else if named "statJson"%string then Some (JsStatJson p)
      else if named "realpath"%string then Some (JsRealpath p)
      else if named "readlink"%string then Some (JsReadlink p) else None
  | [NumArg a; NumArg b] => if named "kernelInit"%string then Some (JsKernelInit a b) else None
  | [StrArg p; NumArg b] =>
      if named "sessionOpen"%string then Some (JsSessionOpen p b) else if named "fileOpen"%string then Some (JsFileOpen p b) else None
  | [NumArg a; NumArg b; NumArg c] =>
      if named "sessionEnter"%string then Some (JsSessionEnter a b c) else if named "pread"%string then Some (JsPread a b c) else None
  | _ => None
  end.

(** ** The thread pool

    The workers are numbered in the order of their submission.  A thread of the
    pool is idle, waits for the mutex with a worker, or runs it. *)
Section Pool.
Context {S Q R : Type} (exec : Q → M S R) (ends : R → bool) (makes : Q → bool) (s0 : S) (n : nat).

Inductive wpc := TIdle | TLock (id : nat) | TRun (id : nat).

(** [p_log] is the order in which the workers have run; [p_done] are those that
    JavaScript's thread has yet to hear of; [p_dead] is a terminated process. *)
Record pool := mk_pool { p_sent : list Q; p_queue : list nat; p_threads : list wpc; p_lock : option nat; p_world : S;
                         p_log : list (nat * Q); p_done : list (nat * R); p_settled : list (nat * R); p_dead : bool }.
Definition pool0 : pool := mk_pool [] [] (replicate n TIdle) None s0 [] [] [] false.

(** An exported function: new worker, which may end the process, and Queue. *)
Inductive submit : pool → pool → Prop :=
  | Submit q p : p_dead p = false → makes q = true →
      submit p (mk_pool (p_sent p ++ [q]) (p_queue p ++ [length (p_sent p)]) (p_threads p) (p_lock p) (p_world p)
                        (p_log p) (p_done p) (p_settled p) false)
  | SubmitFails q p : p_dead p = false → makes q = false →
      submit p (mk_pool (p_sent p) (p_queue p) (p_threads p) (p_lock p) (p_world p) (p_log p) (p_done p) (p_settled p) true).

(** The engine is entered only under the mutex, so the call of a worker is one
    step of the pool. *)
Inductive work : pool → pool → Prop :=
  | Take p t id rest : p_dead p = false → p_threads p !! t = Some TIdle → p_queue p = id :: rest →
      work p (mk_pool (p_sent p) rest (<[t := TLock id]> (p_threads p)) (p_lock p) (p_world p) (p_log p) (p_done p) (p_settled p) false)
  | Lock p t id : p_dead p = false → p_threads p !! t = Some (TLock id) → p_lock p = None →
      work p (mk_pool (p_sent p) (p_queue p) (<[t := TRun id]> (p_threads p)) (Some t) (p_world p) (p_log p) (p_done p) (p_settled p) false)
  | Run p t id q r s : p_dead p = false → p_threads p !! t = Some (TRun id) → p_sent p !! id = Some q → exec q (p_world p) = Some (r, s) →
      work p (mk_pool (p_sent p) (p_queue p) (<[t := TIdle]> (p_threads p)) None s (p_log p ++ [(id, q)])
                      (p_done p ++ [(id, r)]) (p_settled p) (ends r))
  | Settle p x rest : p_dead p = false → p_done p = x :: rest →
      work p (mk_pool (p_sent p) (p_queue p) (p_threads p) (p_lock p) (p_world p) (p_log p) rest (p_settled p ++ [x]) false).

Definition step (p p' : pool) : Prop := submit p p' ∨ work p p'.

(** The workers a thread has. *)
Definition held (x : wpc) : list nat := match x with TIdle => [] | TLock id | TRun id => [id] end.
Definition locks (x : wpc) : nat := match x with TRun _ => 1 | _ => 0 end.

Record PInv (p : pool) : Prop := {
  pi_replay : replay exec (p_log p) s0 = Some (p_settled p ++ p_done p, p_world p);
  pi_log : Forall (λ x, p_sent p !! x.1 = Some x.2) (p_log p);
  pi_ids : (p_log p).*1 ++ mjoin (held <$> p_threads p) ++ p_queue p ≡ₚ seq 0 (length (p_sent p));
  pi_threads : length (p_threads p) = n;
  pi_lock : ∀ t, p_lock p = Some t ↔ ∃ id, p_threads p !! t = Some (TRun id) }.

Lemma join_insert ts t x y : ts !! t = Some x →
  held x ++ mjoin (held <$> <[t := y]> ts) ≡ₚ held y ++ mjoin (held <$> ts).
Proof.
  revert t. induction ts as [|z ts IH]; intros [|t] H; try done; cbn [list_insert lookup] in *.
  - injection H as ->. cbn [insert list_insert fmap list_fmap]. rewrite !join_cons. apply Permutation_app_swap_app.
  - change (<[Datatypes.S t:=y]> (z :: ts)) with (z :: <[t:=y]> ts). cbn [fmap list_fmap]. rewrite !join_cons.
    rewrite Permutation_app_swap_app. rewrite (IH t H). apply Permutation_app_swap_app.
Qed.

Lemma lookup_set_thread (ts : list wpc) t x y t' id : ts !! t = Some x → (∀ id, y ≠ TRun id) →
  <[t := y]> ts !! t' = Some (TRun id) ↔ t ≠ t' ∧ ts !! t' = Some (TRun id).
Proof.
  intros Hx Hy. pose proof (lookup_lt_Some _ _ _ Hx). destruct (decide (t = t')) as [<-|Hn].
  - rewrite list_lookup_insert_eq by done. split; [intros E; injection E as E; by destruct (Hy id)|by intros (? & _)].
  - rewrite list_lookup_insert_ne by done. naive_solver.
Qed.

Lemma pinv_submit p p' : PInv p → submit p p' → PInv p'.
Proof.
  intros [I1 I2 I3 I4 I5] H. destruct H as [q p _ _|q p _ _]; [|done]. split; cbn [p_log p_settled p_done p_world p_sent p_threads p_lock p_queue]; [done| | |done|done].
  - eapply Forall_impl; [exact I2|]. intros x Hx. by apply lookup_app_l_Some.
  - rewrite length_app, !app_assoc. cbn [length]. rewrite Nat.add_1_r, seq_S, <- !app_assoc. cbn [Nat.add].
    rewrite (app_assoc (mjoin _)), (app_assoc (_.*1)). by rewrite I3.
Qed.

Lemma inv_work p p' : PInv p → work p p' → PInv p'.
Proof.
  intros [I1 I2 I3 I4 I5] H.
  destruct H as [p t id rest _ Ht Eq|p t id _ Ht El|p t id q r s _ Ht Eq Ee|p x rest _ Ed]; split; cbn [p_log p_settled p_done p_world p_sent p_threads p_lock p_queue]; try done.
  - pose proof (join_insert _ _ _ (TLock id) Ht) as J. cbn [held app] in J. rewrite J, <- I3, Eq. apply Permutation_app_head.
    apply Permutation_middle.
  - by rewrite length_insert.
  - intros t'. rewrite I5. apply exist_proper. intros id'. rewrite lookup_set_thread by done.
    split; [|naive_solver]. intros E. split; [intros <-; congruence|done].
  - pose proof (join_insert _ _ _ (TRun id) Ht) as J. cbn [held app] in J. apply Permutation_cons_inv in J. by rewrite J, I3.
  - by rewrite length_insert.
  - intros t'. pose proof (lookup_lt_Some _ _ _ Ht). destruct (decide (t = t')) as [<-|Hn].
    + rewrite list_lookup_insert_eq by done. naive_solver.
    + rewrite list_lookup_insert_ne by done. split; [congruence|]. intros E%I5. congruence.
  - rewrite app_assoc. by eapply replay_snoc.
  - apply Forall_app. split; [done|]. by apply Forall_singleton.
  - pose proof (join_insert _ _ _ TIdle Ht) as J. cbn [held app] in J. rewrite fmap_app, <- app_assoc, <- I3. cbn [fmap list_fmap app fst].
    apply Permutation_app_head. rewrite <- J. done.
  - by rewrite length_insert.
  - intros t'. split; [done|]. intros (id' & E). apply (lookup_set_thread _ _ _ _ _ _ Ht) in E as (Hn & E); [|done].
    assert (p_lock p = Some t') by (apply I5; eauto). assert (p_lock p = Some t) by (apply I5; eauto). congruence.
  - rewrite I1, Ed, <- app_assoc. done.
Qed.

Lemma inv_pool0 : PInv pool0.
Proof.
  split; cbn; [done|constructor| |by rewrite length_replicate|].
  - rewrite app_nil_r. clear. induction n as [|m IH]; [done|]. exact IH.
  - intros t. split; [done|]. intros (id & (? & _)%lookup_replicate_1). done.
Qed.

Lemma pinv_run p : rtc step pool0 p → PInv p.
Proof.
  intros H. refine (rtc_ind_r PInv _ _ _ p H); [apply inv_pool0|].
  intros p1 p2 _ [Hs|Hs] Hp; [by eapply pinv_submit|by eapply inv_work].
Qed.

(** How many steps the workers submitted still take. *)
Definition todo (x : wpc) : nat := match x with TIdle => 0 | TLock _ => 3 | TRun _ => 2 end.
Definition left_steps (p : pool) : nat := 4 * length (p_queue p) + sum_list_with todo (p_threads p) + length (p_done p).

Lemma work_decreases p p' : work p p' → (left_steps p' < left_steps p)%nat.
Proof.
  intros H. unfold left_steps.
  destruct H as [p t id rest _ Ht Eq|p t id _ Ht El|p t id q r s _ Ht Eq Ee|p x rest _ Ed]; cbn [p_queue p_threads p_done].
  - pose proof (sum_insert todo _ _ _ (TLock id) Ht). rewrite Eq. cbn [todo length] in *. lia.
  - pose proof (sum_insert todo _ _ _ (TRun id) Ht). cbn [todo] in *. lia.
  - pose proof (sum_insert todo _ _ _ TIdle Ht). rewrite length_app. cbn [todo length] in *. lia.
  - rewrite Ed. cbn [length]. lia.
Qed.

Lemma pool_left_bound p : PInv p → (left_steps p <= 4 * length (p_sent p))%nat.
Proof.
  intros [I1 _ I3 _ _]. apply replay_ids in I1. apply Permutation_length in I3.
  rewrite length_seq, !length_app, length_fmap in I3.
  assert (length (p_done p) <= length (p_log p))%nat.
  { apply (f_equal length) in I1. rewrite !length_fmap, length_app in I1. lia. }
  assert (sum_list_with todo (p_threads p) <= 3 * length (mjoin (held <$> p_threads p)))%nat.
  { clear. induction (p_threads p) as [|x l IH]; [done|]. cbn [fmap list_fmap sum_list_with]. rewrite join_cons, length_app. destruct x; cbn; lia. }
  unfold left_steps. lia.
Qed.

(** Where the pool comes to rest: everything is settled, or the worker that
    has the mutex does not return. *)
Lemma pool_rests p : PInv p → (0 < n)%nat → p_dead p = false → nf work p →
  (p_done p = [] ∧ (p_settled p).*1 ≡ₚ seq 0 (length (p_sent p))) ∨
  (∃ t id q, p_threads p !! t = Some (TRun id) ∧ p_sent p !! id = Some q ∧ exec q (p_world p) = None).
Proof.
  intros I Hn Hd Hnf. pose proof I as [I1 I2 I3 I4 I5].
  destruct (p_done p) as [|x rest] eqn:Ed; [|destruct Hnf; eexists; by eapply Settle].
  destruct (decide (Exists (λ x, locks x = 1%nat) (p_threads p))) as [Hl|Hl].
  - right. apply Exists_exists in Hl as (x & (t & Ht)%list_elem_of_lookup_1 & Hx). destruct x as [| |id]; try done.
    assert (Hid : id ∈ seq 0 (length (p_sent p))).
    { rewrite <- I3. rewrite !elem_of_app. right. left. apply list_elem_of_join. exists (held (TRun id)). split; [by left|].
      apply list_elem_of_fmap. exists (TRun id). split; [done|]. by eapply list_elem_of_lookup_2. }
    rewrite elem_of_seq in Hid. destruct (lookup_lt_is_Some_2 (p_sent p) id) as [q Hq]; [lia|].
    exists t, id, q. split_and!; [done..|]. destruct (exec q (p_world p)) as [[r s]|] eqn:Ee; [|done].
    destruct Hnf. eexists. by eapply Run.
  - left. split; [done|]. apply not_Exists_Forall in Hl; [|intros; apply _]. rewrite Forall_lookup in Hl.
    assert (El : p_lock p = None).
    { destruct (p_lock p) as [t|] eqn:E; [|done]. destruct (proj1 (I5 t) eq_refl) as (id & E'). by destruct (Hl _ _ E'). }
    assert (Hi : ∀ t x, p_threads p !! t = Some x → x = TIdle).
    { intros t x Ht. destruct x as [|id|id]; [done| |by destruct (Hl _ _ Ht)]. destruct Hnf. eexists. by eapply Lock. }
    destruct (p_queue p) as [|id rest] eqn:Eq.
    2: { destruct (lookup_lt_is_Some_2 (p_threads p) 0) as [x Hx]; [lia|]. pose proof (Hi _ _ Hx) as ->. destruct Hnf. eexists. by eapply Take. }
    rewrite app_nil_r in I1. rewrite (replay_ids _ _ _ _ _ I1), <- I3, app_nil_r.
    replace (mjoin (held <$> p_threads p)) with (@nil nat); [by rewrite app_nil_r|].
    clear -Hi. induction (p_threads p) as [|x l IH]; [done|]. pose proof (Hi 0%nat x eq_refl) as ->. cbn [fmap list_fmap]. rewrite join_cons. cbn [held app].
    apply IH. intros t x. apply (Hi (Datatypes.S t) x).
Qed.
End Pool.

(** ** Delivery of texts *)
Section Delivery.
Context {W : Type} (alloc : Z → bool).
Notation St := (handles * W)%type.

Lemma std_string_exact cap t : len t < cap → std_string cap t (len t) = Some t.
Proof.
  intros H. unfold std_string. destruct (Z.ltb_spec (len t) 0); [lia|]. destruct (Z.ltb_spec cap (len t)); [lia|]. cbn [orb].
  rewrite Nat2Z.id, take_app_length. done.
Qed.

(** The size the second call gets. *)
Definition second_cap (t : bytes) : Z := Z.max (len t + 257) 16384.

(** A function that keeps to the size protocol is called at most twice, and its
    whole text is delivered. *)
Lemma json_delivers name (fn : Z → M St (Z * option bytes)) t (I : nat → St → Prop) s : name ≠ [] → I 0%nat s → len t + 1 < 2 ^ 31 → alloc 8192 = true →
  (8192 <= len t → alloc (second_cap t) = true) →
  (∀ n cap s, I n s → 8192 <= cap → wp (fn cap) (λ r s', I (Datatypes.S n) s' ∧ r = if len t <? cap then (len t, Some t) else (- (len t + 1), None)) s) →
  wp (JsonOutWorker alloc name fn) (λ o s', o = Resolve (JStr t) ∧ I (if (len t <? 8192)%Z then 1 else 2)%nat s') s.
Proof.
  intros Hname Is Ht Ha1 Ha2 Hf. unfold JsonOutWorker. apply wp_bind.
  assert (Hfit : ∀ n tries cap s, I n s → 8192 <= cap → len t < cap → alloc cap = true →
    wp (json_loop alloc (Datatypes.S tries) cap name fn) (λ r s', r = Some (t, []) ∧ I (Datatypes.S n) s') s).
  { intros n tries cap s' Is' Hc Hl Ha. cbn [json_loop]. rewrite Ha. cbn [negb]. apply wp_bind. eapply wp_mono; [by apply Hf|].
    intros r s1 (Is1 & ->). destruct (Z.ltb_spec (len t) cap); [|lia]. cbn [fst snd default]. destruct (Z.leb_spec 0 (len t)); [|lia].
    apply wp_bind. eapply wp_opt; [by apply std_string_exact|]. by apply wp_ret. }
  apply wp_mono with (Q := λ r s', r = Some (t, []) ∧ I (if (len t <? 8192)%Z then 1 else 2)%nat s').
  2: { intros r s1 (-> & Is1). apply wp_ret. rewrite bool_decide_true by done. done. }
  destruct (Z.ltb_spec (len t) 8192) as [Hs|Hl]; [apply Hfit; done || lia|].
  change (json_loop alloc 6 8192 name fn) with (json_loop alloc (Datatypes.S 5) 8192 name fn). cbn [json_loop]. rewrite Ha1. cbn [negb]. apply wp_bind. eapply wp_mono; [by apply Hf|].
  intros r s1 (Is1 & ->). rewrite (proj2 (Z.ltb_ge (len t) 8192)) by done. cbn [fst snd]. destruct (Z.leb_spec 0 (- (len t + 1))); [lia|].
  destruct (Z.eqb_spec (- (len t + 1)) (- 2 ^ 31)); [lia|]. rewrite Z.opp_involutive, (u64_small (len t + 1)) by lia.
  destruct (Z.leb_spec (len t + 1) 8192); [lia|]. change (u64 (8192 * 2)) with 16384. rewrite u64_small by lia.
  replace (len t + 1 + 256) with (len t + 257) by lia. apply (Hfit 1%nat 4%nat); [done|unfold second_cap; lia|lia|apply Ha2; lia].
Qed.

(** An error of the kernel becomes the reason of a rejection. *)
Lemma json_rejects name (fn : Z → M St (Z * option bytes)) e s s1 : alloc 8192 = true → - 4096 < e < 0 → fn 8192 s = Some ((e, None), s1) →
  JsonOutWorker alloc name fn s = Some (Reject (name ++ bs ": rc=" ++ fmt_d e), s1).
Proof.
  intros Ha He Ef. unfold JsonOutWorker. change (json_loop alloc 6 8192 name fn) with (json_loop alloc (Datatypes.S 5) 8192 name fn). cbn [json_loop]. rewrite Ha. cbn [negb].
  unfold mbind, M_bind at 1 2. rewrite Ef. cbn [fst snd]. destruct (Z.leb_spec 0 e); [lia|]. destruct (Z.eqb_spec e (- 2 ^ 31)); [lia|].
  rewrite u64_small by lia. destruct (Z.leb_spec (- e) 8192); [|lia]. unfold mret, M_ret. cbn [fst snd].
  rewrite bool_decide_false; [done|]. intros E. apply (f_equal length) in E. rewrite !length_app in E. change (length (bs ": rc=")) with 5%nat in E. cbn [length] in E. lia.
Qed.
End Delivery.

(** ** The listener of fatal errors

    OnFatal runs on JavaScript's thread, NativeFatalHook on any other: the steps
    are the accesses to g_fatal_tsfn_set and to g_fatal_tsfn.  A thread-safe
    function is the number of the callback it was made for. *)
Inductive mpc := MIdle | MRelease (cb : Z) | MNew (cb : Z) | MStore.
Inductive hpc := HIdle | HCall (reason : bytes).

Record fatal := mk_f { f_set : bool; f_tsfn : Z; f_released : list Z; f_main : mpc; f_hooks : list hpc;
                       f_calls : list (Z * bytes); f_regs : list Z }.
Definition fatal0 (k : nat) : fatal := mk_f false 0 [] MIdle (replicate k HIdle) [] [].

Inductive fstep : fatal → fatal → Prop :=
  (* OnFatal *)
  | FExchange f cb : f_main f = MIdle →
      fstep f (mk_f false (f_tsfn f) (f_released f) (if f_set f then MRelease cb else MNew cb) (f_hooks f) (f_calls f) (f_regs f ++ [cb]))
  | FRelease f cb : f_main f = MRelease cb →
      fstep f (mk_f (f_set f) (f_tsfn f) (f_released f ++ [f_tsfn f]) (MNew cb) (f_hooks f) (f_calls f) (f_regs f))
  | FNew f cb : f_main f = MNew cb →
      fstep f (mk_f (f_set f) cb (f_released f) MStore (f_hooks f) (f_calls f) (f_regs f))
  | FStore f : f_main f = MStore →
      fstep f (mk_f true (f_tsfn f) (f_released f) MIdle (f_hooks f) (f_calls f) (f_regs f))
  (* NativeFatalHook *)
  | FLoad f t reason : f_hooks f !! t = Some HIdle →
      fstep f (mk_f (f_set f) (f_tsfn f) (f_released f) (f_main f) (if f_set f then <[t := HCall reason]> (f_hooks f) else f_hooks f) (f_calls f) (f_regs f))
  | FCall f t reason : f_hooks f !! t = Some (HCall reason) →
      fstep f (mk_f (f_set f) (f_tsfn f) (f_released f) (f_main f) (<[t := HIdle]> (f_hooks f)) (f_calls f ++ [(f_tsfn f, reason)]) (f_regs f)).

(** With one listener, as the addon expects, every report that finds it goes
    to it, and nothing is released. *)
Definition FInv (cb : Z) (f : fatal) : Prop :=
  f_released f = [] ∧ Forall (λ c, c.1 = cb) (f_calls f) ∧ (f_set f = true → f_tsfn f = cb) ∧
  match f_main f with
  | MIdle => (f_regs f = [] ∧ f_set f = false) ∨ (f_regs f = [cb] ∧ f_set f = true)
  | MRelease _ => False
  | MNew c => c = cb ∧ f_regs f = [cb] ∧ f_set f = false
  | MStore => f_tsfn f = cb ∧ f_regs f = [cb] ∧ f_set f = false
  end ∧
  (f_set f = false → Forall (λ h, h = HIdle) (f_hooks f)).

Lemma fatal_step cb f f' : FInv cb f → fstep f f' → (∃ l, f_regs f' ++ l = [cb]) → FInv cb f'.
Proof.
  intros (I1 & I2 & I3 & I4 & I5) Hs Hl.
  destruct Hs as [f c E|f c E|f c E|f E|f t r E|f t r E]; unfold FInv; cbn [f_set f_tsfn f_released f_main f_hooks f_calls f_regs] in *; rewrite ?E in I4.
  - destruct Hl as (l & Hl). destruct I4 as [(Er & Es)|(Er & Es)]; rewrite Er in Hl; [|discriminate Hl].
    injection Hl as -> ->. rewrite Es in *. rewrite Er. cbn. split_and!; auto.
  - done.
  - destruct I4 as (-> & Er & Es). split_and!; try done.
  - destruct I4 as (-> & Er & Es). split_and!; try done. by right.
  - split_and!; try done. intros Es. rewrite Es. auto.
  - destruct (f_set f) eqn:Es.
    + split_and!; try done. apply Forall_app. split; [done|]. apply Forall_singleton. cbn. auto.
    + specialize (I5 eq_refl). rewrite Forall_lookup in I5. apply I5 in E. discriminate E.
Qed.

Lemma fatal_single k cb f : rtc fstep (fatal0 k) f → (∃ l, f_regs f ++ l = [cb]) →
  f_released f = [] ∧ Forall (λ c, c.1 = cb) (f_calls f).
Proof.
  intros H Hl. enough (FInv cb f) as (H1 & H2 & _) by done. revert Hl.
  refine (rtc_ind_r (λ f, (∃ l, f_regs f ++ l = [cb]) → FInv cb f) _ _ _ f H).
  - intros _. unfold FInv, fatal0. cbn. split_and!; [done|constructor|done|by left|]. intros _. by apply Forall_replicate.
  - intros g g' _ Hs IH (l & Hl). eapply fatal_step; [apply IH|exact Hs|by exists l].
    destruct Hs as [g c E|g c E|g c E|g E|g t r E|g t r E]; cbn [f_regs] in Hl; [rewrite <- app_assoc in Hl|..]; eauto.
Qed.

(** One more step of a concrete run, with the state it reaches reduced. *)
Ltac next t :=
  eapply rtc_l; [t|cbn [p_sent p_queue p_threads p_lock p_world p_log p_done p_settled p_dead pool0
            f_set f_tsfn f_released f_main f_hooks f_calls f_regs fatal0 app length replicate insert list_insert]].

(** A second registration can release the function that a report is about to
    call. *)
Lemma fatal_race : ∃ f, rtc fstep (fatal0 1) f ∧ f_released f = [7] ∧ f_calls f = [(7, bs "stuck")].
Proof.
  eexists. split.
  - next ltac:(by apply (FExchange _ 7)). next ltac:(by eapply (FNew _ 7)). next ltac:(by eapply FStore).
    next ltac:(by apply (FLoad _ 0 (bs "stuck"))). next ltac:(by apply (FExchange _ 8)). next ltac:(by eapply FRelease).
    next ltac:(by eapply (FCall _ 0)). apply rtc_refl.
  - done.
Qed.

(** ** Loading on Windows *)

Definition dliNotePreLoadLibrary : Z := 1.
(** The module that stands for the library asked for; 0 leaves it to the
    loader.  [exe] is the host program. *)
Definition anyfs_dli_hook (exe ev : Z) (szDll : option bytes) : Z :=
  match szDll with
  | Some d => if (ev =? dliNotePreLoadLibrary) && streq (WinHost.to_lower <$> d) (bs "node.exe") then exe else 0
  | None => 0
  end.

(** ** Properties *)

Definition ends (o : outcome) : bool := match o with Terminate => true | _ => false end.

(** C38 The addon serialises: in every interleaving of JavaScript's calls with any
    number of pool threads, at most one worker is inside the engine; the
    results kept and the state of the engine are those of running the workers
    one after the other in some order, each of them at most once and with its
    own call, and a promise is settled with the result of its own worker.  The
    workers submitted need at most four steps each, and when they can go no
    further every promise is settled, unless the process was terminated or the
    call of the worker that holds the mutex never returns. *)
Theorem binding_serial {W} `{!Lkl W, !Host W, !Core W, !TsFs W} alloc calloc malloc_ok creds init halt last_error n (s0 : handles * W) p :
  let exec := run alloc calloc malloc_ok creds init halt last_error in
  rtc (step exec ends (constructs alloc)) (pool0 s0 n) p →
  replay exec (p_log p) s0 = Some (p_settled p ++ p_done p, p_world p) ∧
  NoDup (p_log p).*1 ∧ (∀ id c, (id, c) ∈ p_log p → p_sent p !! id = Some c) ∧
  (∀ t t' id id', p_threads p !! t = Some (TRun id) → p_threads p !! t' = Some (TRun id') → t = t') ∧
  (∀ k p', nsteps (work exec ends) k p p' → (k <= 4 * length (p_sent p))%nat) ∧
  (∀ p', rtc (work exec ends) p p' → nf (work exec ends) p' → (0 < n)%nat → p_dead p' = false →
    (p_done p' = [] ∧ (p_settled p').*1 ≡ₚ seq 0 (length (p_sent p'))) ∨
    (∃ t id c, p_threads p' !! t = Some (TRun id) ∧ p_sent p' !! id = Some c ∧ exec c (p_world p') = None)).
Proof.
  intros exec H. apply pinv_run in H as I. pose proof I as [I1 I2 I3 I4 I5]. split; [exact I1|]. split_and!.
  - assert (Hd : NoDup (seq 0 (length (p_sent p)))) by apply NoDup_seq. rewrite <- I3 in Hd. by apply NoDup_app in Hd as (Hd & _).
  - intros id c Hc. by apply (proj1 (Forall_forall _ _) I2 (id, c)).
  - intros t t' id id' Ht Ht'. assert (p_lock p = Some t) by (apply I5; eauto). assert (p_lock p = Some t') by (apply I5; eauto). congruence.
  - intros k p' Hk. pose proof (pool_left_bound _ _ _ _ I).
    pose proof (run_bounded _ (λ _, True) (λ _ _ _ _, Logic.I) left_steps (λ c c' _, work_decreases exec ends c c') k p p' Logic.I Hk). lia.
  - intros p' Hr Hnf Hn Hd. assert (PInv exec s0 n p') as I' by (eapply run_inv; [|exact Hr|exact I]; intros; by eapply inv_work).
    by eapply pool_rests.
Qed.

(** C40 A listing reaches JavaScript with every entry lkl_readdir gives: while
    the directory gives the same entries each time it is read, the promise of
    readdirJson is resolved with the JSON text of those other than the dots,
    after one reading when the text is shorter than 8192 bytes and after two
    otherwise (the second with a buffer of the size asked for); each name in it,
    appended to the path JavaScript holds, comes back as the bytes of that
    entry's path, when that is shorter than the 16384 bytes of path_in.  The text
    is below 2 GiB and the two buffers can be allocated.  Whether the entries
    are all that the directory has is for lkl_errdir to say, which the code does
    not ask: [readdir_error_hidden]. *)
Theorem readdir_delivered {W} `{!Lkl W, !Host W, !Core W, !TsFs W} alloc calloc malloc_ok creds init halt last_error
    dir edir es err (I : nat → W → Prop) hs w :
  esc_rel dir edir → len dir < PATH_IN_CAP → Forall name_ok es →
  (∀ n w, I n w → ∃ h w1, ts_opendir dir w = ((h, mk_ds es err), w1) ∧ 0 < h ∧ I (Datatypes.S n) (ts_closedir h w1).2) → I 0%nat w →
  ∃ names, let t := listing es names in
    Forall2 (λ de e, len dir + 1 + len (d_name de) < PATH_IN_CAP → path_in (edir ++ 47 :: e) = Some (Some (dir ++ 47 :: d_name de)))
      (listed es) names ∧
    (len t + 1 < 2 ^ 31 → alloc 8192 = true → (8192 <= len t → alloc (second_cap t) = true) →
     wp (run alloc calloc malloc_ok creds init halt last_error (JsReaddirJson edir))
        (λ o s', o = Resolve (JStr t) ∧ s'.1 = hs ∧ I (if (len t <? 8192)%Z then 1 else 2)%nat s'.2) (hs, w)).
Proof.
  intros He Hd Hn HI Iw. destruct (readdir_json_spec (W := W) dir edir es He Hd Hn) as (names & Hna & Hr). exists names.
  split; [exact Hna|]. intros Ht Ha1 Ha2. cbn [run]. unfold ReaddirJson.
  assert (Ec : c_str edir = edir) by by eapply c_str_id, esc_rel_CStr.
  rewrite Ec. eapply wp_mono; [eapply (json_delivers alloc _ _ _ (λ n s, s.1 = hs ∧ I n s.2)); try done|].
  - intros n cap s (<- & Is) Hc. destruct (HI n s.2 Is) as (h & w1 & Eo & Hh & Ic). destruct (Hr cap h err s.2 w1 ltac:(lia) Hh Eo) as (r & Er & Hval).
    unfold lower, wp. rewrite Er. cbn [fst snd]. auto.
  - intros o s' (-> & H1 & H2). done.
Qed.

(** A directory that cannot be opened rejects with the kernel's error. *)
Lemma readdir_rejected {W} `{!Lkl W, !Host W, !Core W, !TsFs W} alloc calloc malloc_ok creds init halt last_error dir edir hs (w : W) :
  esc_rel dir edir → len dir < PATH_IN_CAP → alloc 8192 = true → - 4096 < (ts_opendir dir w).1.1 < 0 →
  run alloc calloc malloc_ok creds init halt last_error (JsReaddirJson edir) (hs, w) =
    Some (Reject (bs "readdirJson" ++ bs ": rc=" ++ fmt_d (ts_opendir dir w).1.1), (hs, (ts_opendir dir w).2)).
Proof.
  intros He Hd Ha Hr. cbn [run]. unfold ReaddirJson.
  assert (Ec : c_str edir = edir) by by eapply c_str_id, esc_rel_CStr.
  rewrite Ec. apply json_rejects; [done|done|]. unfold lower. rewrite (readdir_json_fails dir edir 8192 w He Hd) by lia.
  destruct (Z.ltb_spec (ts_opendir dir w).1.1 0); [done|lia].
Qed.

(** A target whose escape does not fit 4096 bytes is refused with the size that
    would be enough. *)
Lemma readlink_long_rejected :
  (fst <$> StrOutWorker (W := ()) 4096
     (λ cap, readlink_out (mopt (escape_out true (replicate 1400 255) cap))) ([], ())) = Some (Reject (bs "operation: rc=-4201")).
Proof. vm_compute. reflexivity. Qed.

(** Two calls can run in the other order: JavaScript has to wait for a promise
    before it makes a call that depends on it. *)
Lemma order_not_kept {S Q R} (exec : Q → M S R) ends makes a b s0 ra rb s1 s2 : makes a = true → makes b = true →
  exec b s0 = Some (rb, s1) → exec a s1 = Some (ra, s2) → ends rb = false →
  ∃ p, rtc (step exec ends makes) (pool0 s0 2) p ∧ p_sent p = [a; b] ∧ p_log p = [(1%nat, b); (0%nat, a)].
Proof.
  intros Ma Mb Eb Ea Hb. eexists. split.
  - next ltac:(left; by apply (Submit _ a)). next ltac:(left; by apply (Submit _ b)).
    next ltac:(right; by eapply (Take _ _ _ 0)). next ltac:(right; by eapply (Take _ _ _ 1)).
    next ltac:(right; by eapply (Lock _ _ _ 1)). next ltac:(right; eapply (Run _ _ _ 1); [reflexivity|reflexivity|reflexivity|exact Eb]).
    next ltac:(right; eapply (Lock _ _ _ 0); [exact Hb|reflexivity|reflexivity]).
    next ltac:(right; eapply (Run _ _ _ 0); [reflexivity|reflexivity|reflexivity|exact Ea]). apply rtc_refl.
  - done.
Qed.

(** ** Witnesses *)

#[local] Instance rig_dir : TsFs rig := {|
  ts_opendir p w := (if streq p (bs "/d") then (1, mk_ds d_entries 0) else if streq p (bs "/e") then (1, mk_ds (take 1 d_entries) (-5)) else (-2, mk_ds [] 0), w); ts_closedir h w := (0, w); ts_lstat p w := ((-2, zero_stat), w);
  ts_stat p w := ((-2, zero_stat), w); ts_getcwd n w := ((-2, []), w); ts_chdir p w := (-2, w) |}.
Definition rig_exec : jscall → M (handles * rig) outcome :=
  run (λ _, true) true true no_creds (λ _ _, mret 0) (mret ()) (λ _, None).
Definition rig_start : handles * rig := (replicate 8 None, rig0).

(** A directory whose reading fails in the middle is listed as if it ended
    there: the promise is resolved, here with no entry. *)
Lemma readdir_error_hidden : ds_error (ts_opendir (bs "/e") rig0).1.2 = -5 ∧
  (fst <$> rig_exec (JsReaddirJson (bs "/e")) rig_start) = Some (Resolve (JStr (bs "[]"))).
Proof. split; vm_compute; reflexivity. Qed.

(** One pool thread has run the opening of an image and waits with its listing. *)
Lemma binding_serial_witness : ∃ p, rtc (step rig_exec ends (constructs (λ _, true))) (pool0 rig_start 1) p ∧ p_settled p = [(0%nat, Resolve (JNum 0))] ∧
  p_threads p = [TLock 1] ∧ NoDup (p_log p).*1 ∧
  ∀ k p', nsteps (work rig_exec ends) k p p' → (k <= 4 * length (p_sent p))%nat.
Proof.
  assert (H : ∃ p, rtc (step rig_exec ends (constructs (λ _, true))) (pool0 rig_start 1) p ∧ p_settled p = [(0%nat, Resolve (JNum 0))] ∧ p_threads p = [TLock 1]).
  { eexists. split.
    - next ltac:(left; by apply (Submit _ (JsSessionOpen (bs "a.img") 1))). next ltac:(left; by apply (Submit _ (JsSessionListJson 0))).
      next ltac:(right; by eapply (Take _ _ _ 0)). next ltac:(right; by eapply (Lock _ _ _ 0)).
      next ltac:(right; eapply (Run _ _ _ 0); [reflexivity|reflexivity|reflexivity|vm_compute; reflexivity]).
      next ltac:(right; eapply Settle; [reflexivity|reflexivity]). next ltac:(right; by eapply (Take _ _ _ 0)). apply rtc_refl.
    - split; vm_compute; reflexivity. }
  destruct H as (p & H & Hd & Ht). exists p. split; [exact H|]. split; [exact Hd|]. split; [exact Ht|].
  destruct (binding_serial (λ _, true) true true no_creds (λ _ _, mret 0) (mret ()) (λ _, None) 1 rig_start p H) as (_ & Hn & _ & _ & Hk & _).
  split; [exact Hn|exact Hk].
Defined.

Lemma readdir_delivered_witness : (∃ names, let t := listing d_entries names in len t + 1 < 2 ^ 31 →
    wp (rig_exec (JsReaddirJson (bs "/d"))) (λ o s', o = Resolve (JStr t) ∧ s'.1 = replicate 8 None ∧ s'.2 = rig0) rig_start) ∧
  match rig_exec (JsReaddirJson (bs "/d")) rig_start with Some (Resolve (JStr t), _) => len t = 39 | _ => False end.
Proof.
  split; [|vm_compute; reflexivity].
  destruct (readdir_delivered (λ _, true) true true no_creds (λ _ _, mret 0) (mret ()) (λ _, None) (bs "/d") (bs "/d") d_entries 0
    (λ _ w, w = rig0) (replicate 8 None) rig0 esc_d) as (names & Hn & H).
  - vm_compute. reflexivity.
  - constructor; [by vm_compute; repeat constructor|]. constructor; [by vm_compute; repeat constructor|constructor].
  - intros n w ->. exists 1, rig0. split; [reflexivity|]. split; [lia|reflexivity].
  - reflexivity.
  - exists names. intros t Ht. apply H; [exact Ht|reflexivity|reflexivity].
Defined.

End Binding.
